(* ===== verification/_CoqProject ===== *)
-Q . S2P
Prelude.v
GoFloat.v
GoStr.v
Hash.v
Utils.v
Model.v
JudgeFunc.v
JudgeStore.v
JudgeStoreThms.v
HashRing.v
GoCache.v
GraphStore.v
GraphApi.v
GraphThms.v
GraphProps.v
GraphQuery.v
GraphMigrate.v
GraphMigrateThms.v
GoNum.v
Transfer.v
TransferThms.v
Gateway.v
HbsStrategies.v
Nodata.v
AlarmText.v
Redis.v
Alarm.v
AlarmThms.v
AlarmMerge.v
AlarmBlocks.v
AlarmBlocksThms.v
GoRegexp.v
Aggregator.v
AggregatorThms.v
DisLock.v
GoRound.v
PolyStats.v
Polymetric.v
PolymetricThms.v
HbsRedis.v
HbsRedisThms.v
HbsAgents.v
HbsAgentsThms.v
AgentUpgrade.v
AgentUpgradeThms.v
Pools.v
PoolsThms.v
RpcClients.v
AgentSync.v
AgentThms.v
AgentStats.v
AgentMetrics.v
AgentRounds.v
AgentServices.v
AgentRoundsThms.v
HbsExpressions.v
ApiGraph.v
ApiDb.v
ApiAuth.v
ApiTeams.v
ApiGroups.v
ApiRules.v
ApiBoards.v
ApiServe.v
ApiFrame.v
ApiThms.v
ApiProps.v
ApiBoardsThms.v
ApiSearch.v
ApiGrafana.v
ApiProxy.v
ApiProxyThms.v
HbsSources.v
HbsSourcesThms.v
AlarmCases.v
AlarmCasesThms.v
