(* ===== verification/Prelude.v ===== *)
(** * A verified model of falcon-plus

    falcon-plus is a monitoring system: a set of Go services that collect
    metrics, store them, watch them and send alarms.  This library models the
    logic of its services as executable functions and proves what makes each
    of them correct, and where their code does not do what it means to.

    ** The program, and the files that model it

    A point travels as follows.  An [agent] collects it and sends it to a
    [transfer], directly or through a [gateway]; the transfer checks it and
    puts it on the queues of a [judge], a [graph] and, when a strategy over a
    group of hosts wants it, a [polymetric].  The graph keeps the points in
    memory, flushes them to rrd files and answers queries.  The judge keeps the
    last points of each series and evaluates the strategies it gets from [hbs];
    its events go through redis to [alarm], which finds the people to tell,
    merges messages and sends them.  [nodata] watches for series that fall
    silent, the [aggregator] computes series from those of a group, and both
    push what they make back to the transfer.

    - Foundations: this file (outcomes of statements, the state-and-panic monad
      [M] of a handler, machine integers, tactics); [GoFloat] ([float64] on
      [SpecFloat]) and [GoRound] (how far a rounded product is off); [GoStr],
      [GoNum], [GoRegexp] (strings, [strconv], [regexp]); [Hash] (MD5, CRC-32);
      [GoCache] (the cache with an expiry in which hbs and alarm keep answers).
    - [common]: [Utils] is [common/utils] (tags, keys, checksums), [Model] the
      messages of [common/model], [DisLock] the lock of [common/rediscluster]
      and its copy in [modules/hbs/redi/lock.go].
    - [Redis]: what the services ask of redis, as classes of operations with
      their laws ([RedisList] for queues, [RedisKV] for texts and hashes with a
      time to live, [RedisSets] for sets), each with an instance in memory.
      Services are proved against the classes.
    - [modules/transfer]: [Transfer], [TransferThms].  [modules/gateway]:
      [Gateway].
    - [modules/judge]: [JudgeFunc] is [store/linkedlist.go] and [store/func.go];
      [JudgeStore], [JudgeStoreThms] are the handlers, the alarm state machine,
      the unions of strategies and the cleaning.
    - [modules/graph]: [GraphStore] is [store]; [GraphApi] the handlers, the
      index, the flushing and the cleaning; [GraphThms], [GraphProps],
      [GraphQuery] the theorems.  [HashRing] is the ring of
      [vendor/consistent-crc32]; [GraphMigrate] and [GraphMigrateThms] the hand-over
      of series between graphs ([rrdtool/migrate.go], [rrdtool/sync_disk.go]).
    - [modules/hbs]: [HbsStrategies] (the strategies of a host), [HbsRedis] and
      [HbsRedisThms] (the maps its processes share), [HbsAgents] and
      [HbsAgentsThms] (status reports, upgrades, built-in metrics),
      [HbsExpressions] (the text of expressions, and what the web service accepts
      of them), [HbsSources] and [HbsSourcesThms] (its queries over the tables of the
      web service, the answers it keeps for a while, the hosts it writes).
    - [modules/agent]: [AgentSync], [AgentThms] (following hbs, plugins);
      [AgentStats] (processors and disks), [AgentMetrics] (the other
      collectors), [AgentRounds] and [AgentRoundsThms] (the levels and what
      their rounds send), [AgentServices] (the goroutines of the services),
      [AgentUpgrade], [AgentUpgradeThms] (how it replaces its program).
    - [modules/api], the web service: [ApiDb] (its tables and what [gorm] makes of
      its calls), [ApiAuth] (sessions and users), [ApiTeams], [ApiGroups] (groups of
      hosts and what belongs to them), [ApiRules] (templates, strategies, actions,
      expressions, configurations of nodata), [ApiBoards] (dashboards), [ApiServe]
      (the routes), [ApiFrame], [ApiThms], [ApiProps], [ApiBoardsThms] (the theorems),
      [ApiGraph] (its queries of the graphs), [ApiSearch] (searches of endpoints and
      counters, points by host and counter), [ApiGrafana] (what grafana asks).
    - [common/backend_pool], the connections to other components: [Pools],
      [PoolsThms]; [RpcClients] (the single connections of the agent and the judge,
      the counters of [common/proc]).
    - [modules/apiproxy], the proxy of the web services of all regions: [ApiProxy],
      [ApiProxyThms].
    - [modules/alarm]: [AlarmText] (texts), [Alarm] (events, combiner,
      senders), [AlarmThms], [AlarmMerge]; [AlarmBlocks], [AlarmBlocksThms] (what people
      block, in all its processes); [AlarmCases], [AlarmCasesThms] (the archive of
      events, which the web service shows).
    - [modules/nodata]: [Nodata].  [modules/aggregator]: [Aggregator],
      [AggregatorThms].  [modules/polymetric]: [Polymetric], [PolymetricThms],
      [PolyStats].

    ** How the code is modelled

    The package variables of a service are a record; a handler or the body of a
    periodic task is a function on it in the monad [M], which ends in a value
    and a new state, or in a panic ([NilDeref], [IndexOutOfRange] and so on).
    A definition carries, in its comment, the file and the function it
    translates; names are kept.  An [int] or [int64] is a [Z] whose arithmetic
    wraps ([wrap64]) wherever the code computes with values from outside; a
    [map] is a [gmap], a slice a [list], a pointer that may be nil an [option].
    The order in which Go walks a map is an argument, known only to visit
    every entry once.  The clock, the database, rrdlite, the hash rings, the
    answers of other services and of redis are arguments, oracles indexed by a
    tick ([Env] of the judge, [GEnv] of the graph) or class operations, so that
    a theorem holds for all of their behaviours that its hypotheses admit.
    JSON texts between services are kept as the values they encode.
    Loops are structural; where the code loops until something outside changes
    (a lock, a retry) the model takes the finite list of what it meets.  Fuel
    appears in [utoa] (as many steps as binary digits), [find_submatch] (the
    length of the text), the queries of the graph (the steps of the series
    between the ends of the query or of the cached points), [pop_all] (the
    length of the list) and [HttpLink] (the tries; while the API cannot be
    reached the code loops for ever); the theorems take any fuel above these
    bounds and prove a result, and [None] stands for a loop that goes on.

    ** What is proved

    - Alarms: the trace of events of a strategy follows its state machine with
      numbered steps and a maximum ([alarm_traces_chained]); a union alarms only
      when all its strategies do; an event reaches exactly the people who did
      not block it ([event_reaches_unblocked]); every merged mail arrives once
      ([mails_delivered]); every message is taken, or given up after its second
      chance ([messages_settle]); a block is held until its end, which one process
      only sees ([block_lifted_once]).  The readers keep the order of the queues
      ([queues_read_in_order]); the archive stays consistent however the goroutines
      that file events race ([archive_consistent]), and lists each event once
      ([every_event_listed]); a case that was closed opens again
      ([note_then_event]).
    - Points: those waiting for the disk stay ordered ([graph_points_ordered]),
      a flush hands over all of them, a query merges the disk and the memory as
      a reference definition does ([query_merges]) and asks the graph its points
      were sent to ([query_asks_where_sent]); the transfer answers every
      report whatever it holds ([report_answered]), unless it feeds Kafka and the
      channel is full, and the pusher it starts for Prometheus can end it; a value
      that is not a number ends the reader of that channel, so that later reports
      wait for ever ([not_a_number_silences]); it aligns what it sends and keeps
      the order; the gateway changes nothing.
    - Migration: whatever the order in which the workers of a graph, its flushes
      and its reports take their steps, a point that came in is in memory, on the
      disk, in the hands of a worker or with its new owner
      ([migration_loses_nothing]); a pull brings the file of a series
      ([pull_brings_series]); a ring that grows moves no name but to the new member
      ([ring_changes_little]).
    - Judging: the functions of strategies agree with direct definitions
      ([Compute_correct]); histories stay well formed; [Send] returns.
    - hbs: a child template overrides its parents; the processes of hbs work on
      the same maps ([hbs_processes_agree]) over the lock that refines an
      abstract one ([lock_refines]); upgrades are bounded in every reachable
      state by the length of their queue and the reports served at once
      ([upgrades_bounded]); agents follow the metrics and plugins they are
      given ([builtin_metrics_followed], [plugins_followed]), and the services
      ([services_followed]); the strategies of a group reach the hosts that the web
      service put in it, and no others ([bound_hosts_judged]), an answer is no
      older than the time to live ([answers_fresh]), a strategy counts at the times
      of the day it says ([windows_followed]), a host that reports is in the tables
      ([reported_host_known]).
    - Upgrades: while its server is reached the agent has the new program or the old
      one ([upgrade_new_or_old]).
    - Connections: however the calls of goroutines interleave, no connection is
      used by two, none is lost and the limits are kept ([pools_hold]); a server
      that is started again costs no more calls than there were connections
      ([restart_heals]); the judge gets its connection when a server answers
      ([judge_connects]).
    - Collecting: what the agent collects, the transfer takes
      ([collected_metrics_accepted]); the numbers a round computes are finite
      but for one ([new_disk_loses_round]).
    - Computed series: the aggregator's quotient over the hosts that have all
      values, the strategies of polymetric as the transfer sees them
      ([strategies_reach_transfer]), its statistics within their bounds for all
      sizes below 2^53 ([statistics_ordered]), the mock points of nodata.
    - The web service: a request that is answered leaves no transaction open, and
      one is answered whenever MySQL refuses nothing ([requests_settle]), the hosts of a group change only for its owner or an
      administrator ([members_guarded]) and as a whole or not at all
      ([bind_hosts_exact]), a template goes with what hangs on it
      ([delete_template_exact]), a team has the members that were sent
      ([team_members_exact]), a session that was given is accepted
      ([login_opens]), whatever the password, a graph is shown as it was made
      ([board_comes_back]), and a link shows the lists it was made for
      ([links_shared]), though lists that differ may share one.
    - The proxy: over regions that answer it is one web service with the graphs of
      all of them ([proxy_as_one]).
    - Names: tags, expressions and the functions of strategies are read back
      from what is written.
    - Errors: the theorems of kind error show what a failure does where the code
      does not handle it: an alarm of an expression that panics, points lost by
      a refused flush, series a migration never flushes, a lock given to everybody, templates that never arrive, a text that
      stops hbs, a deletion by the id 0, a late graph of one region that ends a request
      for all ([late_graph_ends_proxy]), pages after the first of a search
      ([later_pages_lost]), an agent that is left with an empty program
      ([unreachable_empties_agent]).

    ** What is not modelled, and why

    Handlers run one at a time: the locks of the code make each operation on a
    map atomic, and interleavings inside a handler are not covered, but for the
    workers of a migration, the goroutines that file events, the calls through
    the pools, the lock in redis and the status reports of agents, which take one
    call or one write at a time in any order.  Goroutines a handler starts run
    within it, but for the pusher to Prometheus.  Left out are: names that would
    change the meaning of an SQL text; the http pages;
    start-up and configuration files; clients that only hand data on (the
    bus to Kafka, the registry of Prometheus, InfluxDB, OpenTSDB); the dynamic configuration of the agent, which nothing
    starts; but for those of hbs, the caches with an
    expiry, whose answers are folded into the answers of what they cache; of the web service
    the copies of alarms in other systems; the command line.  In the web service the
    requests run one after another, statements of other processes come between
    none of theirs, and the rows are those its structs can hold,
    whatever the width of the columns.  Bytes above 127 are not treated as UTF-8: [TrimSpace] and [Fields] know ASCII white space, [ToLower] ASCII
    letters.

    ** What comes next

    The maps hbs shares as JSON; the sender of [common/sdk]; interleavings of the judge's handlers
    on one series. *)
From Stdlib Require Import SpecFloat.
From stdpp Require Export gmap strings list sorting fin_maps.
From stdpp Require Import options.

#[export] Set Default Proof Using "Type".

Create HintDb falcon.

(** * Generic tactics *)

(** Case analysis on the innermost scrutinee of a hypothesis or of the goal. *)
Ltac destr_in H :=
  match type of H with
  | context [ match ?x with _ => _ end ] =>
      lazymatch x with
      | context [ match _ with _ => _ end ] => fail
      | _ => destruct x eqn:?
      end
  end.

Ltac destr_goal :=
  match goal with
  | |- context [ match ?x with _ => _ end ] =>
      lazymatch x with
      | context [ match _ with _ => _ end ] => fail
      | _ => destruct x eqn:?
      end
  end.

(** Turn boolean integer tests in the context into propositions. *)
Ltac zbool :=
  repeat match goal with
  | H : (_ <? _)%Z = true |- _ => apply Z.ltb_lt in H
  | H : (_ <? _)%Z = false |- _ => apply Z.ltb_ge in H
  | H : (_ <=? _)%Z = true |- _ => apply Z.leb_le in H
  | H : (_ <=? _)%Z = false |- _ => apply Z.leb_gt in H
  | H : (_ =? _)%Z = true |- _ => apply Z.eqb_eq in H
  | H : (_ =? _)%Z = false |- _ => apply Z.eqb_neq in H
  | H : (_ =? _)%nat = true |- _ => apply Nat.eqb_eq in H
  | H : (_ =? _)%nat = false |- _ => apply Nat.eqb_neq in H
  | H : (_ <? _)%nat = true |- _ => apply Nat.ltb_lt in H
  | H : (_ <? _)%nat = false |- _ => apply Nat.ltb_ge in H
  | H : (_ <=? _)%nat = true |- _ => apply Nat.leb_le in H
  | H : (_ <=? _)%nat = false |- _ => apply Nat.leb_gt in H
  | H : String.eqb _ _ = true |- _ => apply String.eqb_eq in H
  | H : String.eqb _ _ = false |- _ => apply String.eqb_neq in H
  | H : negb _ = true |- _ => apply negb_true_iff in H
  | H : negb _ = false |- _ => apply negb_false_iff in H
  | H : _ && _ = true |- _ => apply andb_true_iff in H as [? ?]
  | H : _ || _ = false |- _ => apply orb_false_iff in H as [? ?]
  | H : bool_decide _ = true |- _ => apply bool_decide_eq_true in H
  | H : bool_decide _ = false |- _ => apply bool_decide_eq_false in H
  end.

(** Case on the integer test of the goal that is met first, dropping the
    impossible case. *)
Ltac zcase :=
  match goal with
  | |- context [(?a <=? ?b)%Z] => destruct (Z.leb_spec a b)
  | |- context [(?a <? ?b)%Z] => destruct (Z.ltb_spec a b)
  | |- context [(?a =? ?b)%Z] => destruct (Z.eqb_spec a b)
  | |- context [(?a <=? ?b)%nat] => destruct (Nat.leb_spec a b)
  | |- context [(?a <? ?b)%nat] => destruct (Nat.ltb_spec a b)
  | |- context [(?a =? ?b)%nat] => destruct (Nat.eqb_spec a b)
  end; try (exfalso; simpl in *; lia).

(** Settle a closed decidable proposition by evaluation. *)
Ltac by_compute := refine (bool_decide_unpack _ _); vm_compute; exact I.

(** * Outcomes: a Go statement returns or panics *)

(** The run-time panics the modelled code can raise. *)
Inductive panic :=
  | NilDeref
  | IndexOutOfRange
  | SliceBounds
  | DivideByZero
  | MakeLen
  | TickerInterval
  | NilMapWrite
  | TypeAssertion
  | Explicit.

#[export] Instance panic_eq_dec : EqDecision panic.
Proof. solve_decision. Defined.

Inductive res (A : Type) :=
  | Ret (a : A)
  | Panic (p : panic).
Arguments Ret {A} a.
Arguments Panic {A} p.

(** Sequencing: the continuation runs on a returned value only. *)
Definition rbind {A B} (m : res A) (k : A -> res B) : res B :=
  match m with Ret a => k a | Panic p => Panic p end.

Declare Scope go_scope.
Delimit Scope go_scope with go.

Notation "'let!' x := e 'in' k" := (rbind e (fun x => k))
  (at level 10, x pattern, e at level 200, k at level 200) : go_scope.
Open Scope go_scope.

(** [nil] pointers are [None]; a dereference of one panics. *)
Definition deref {A} (p : option A) : res A :=
  match p with Some a => Ret a | None => Panic NilDeref end.

(** Indexing a slice. *)
Definition at_index {A} (l : list A) (i : Z) : res A :=
  if (i <? 0)%Z then Panic IndexOutOfRange
  else match l !! Z.to_nat i with Some a => Ret a | None => Panic IndexOutOfRange end.

Lemma at_index_lookup {A} (l : list A) (i : nat) a :
  l !! i = Some a -> at_index l (Z.of_nat i) = Ret a.
Proof.
  intros H. unfold at_index. destruct (Z.ltb_spec (Z.of_nat i) 0); [lia|].
  by rewrite Nat2Z.id, H.
Qed.

Lemma at_index_ret {A} (l : list A) (i : Z) a :
  at_index l i = Ret a -> (0 <= i)%Z /\ l !! Z.to_nat i = Some a.
Proof.
  unfold at_index. destruct (Z.ltb_spec i 0); [done|]. destruct (l !! Z.to_nat i) eqn:E; [|done].
  intros [= ->]. done.
Qed.

(** The statements of a loop run one after another over a list, threading
    the state and stopping at the first panic. *)
Fixpoint fold_res {S A} (f : S -> A -> res S) (s : S) (l : list A) : res S :=
  match l with
  | [] => Ret s
  | a :: l' => let! s' := f s a in fold_res f s' l'
  end.

Lemma fold_res_ind {S A} (f : S -> A -> res S) (P : S -> Prop) (l : list A) :
  (forall s a s', a ∈ l -> P s -> f s a = Ret s' -> P s') ->
  forall s s', P s -> fold_res f s l = Ret s' -> P s'.
Proof.
  induction l as [|a l IH]; intros Hstep s s' HP; simpl; [by intros [= <-]|].
  destruct (f s a) eqn:E; [|done]. intros Hf.
  eapply IH; [| |exact Hf].
  - intros. eapply Hstep; [|done..]. by right.
  - eapply Hstep; [|done|exact E]. by left.
Qed.

Lemma fold_res_app {S A} (f : S -> A -> res S) l1 l2 s :
  fold_res f s (l1 ++ l2) = (let! s' := fold_res f s l1 in fold_res f s' l2).
Proof. revert s; induction l1 as [|a l1 IH]; intros s; simpl; [done|].
  destruct (f s a); simpl; auto. Qed.

Lemma fold_res_total {S A} (f : S -> A -> res S) (P : S -> Prop) l :
  (forall s a, a ∈ l -> P s -> exists s', f s a = Ret s' /\ P s') ->
  forall s, P s -> exists s', fold_res f s l = Ret s' /\ P s'.
Proof.
  induction l as [|a l IH]; intros Hf s Hs; simpl; [eauto|].
  destruct (Hf s a) as (s' & -> & Hs'); [by left|done|].
  apply IH; [|done]. intros. apply Hf; [by right|done].
Qed.

(** A loop that cannot panic. *)
Lemma fold_res_pure {S A} (f : S -> A -> res S) (g : S -> A -> S) l s :
  (forall s a, f s a = Ret (g s a)) -> fold_res f s l = Ret (fold_left g l s).
Proof. intros Hf. revert s; induction l as [|a l IH]; intros s; [done|]. cbn. rewrite Hf. apply IH. Qed.

(** [make] of a slice of pointers: the length must be non-negative and the
    backing array addressable (2^48 bytes). *)
Definition make_ok (n : Z) : bool := ((0 <=? n) && (n <=? 2 ^ 45))%Z.

(** * Stateful handlers

    A handler reads and writes a record of the process's variables and may
    panic.  [M S A] is that monad; the lemmas below carry an invariant, or a
    reflexive and transitive relation between the states before and after,
    through a handler's statements. *)

Definition M (S A : Type) : Type := S -> res (A * S).

Definition ret {S A} (a : A) : M S A := fun s => Ret (a, s).
Definition mthen {S A B} (m : M S A) (k : A -> M S B) : M S B :=
  fun s => match m s with Ret (a, s') => k a s' | Panic p => Panic p end.
Definition lift {S A} (r : res A) : M S A :=
  fun s => match r with Ret a => Ret (a, s) | Panic p => Panic p end.
Definition gets {S A} (f : S -> A) : M S A := fun s => Ret (f s, s).
Definition modify {S} (f : S -> S) : M S unit := fun s => Ret (tt, f s).
Definition skip {S} : M S unit := ret tt.

Notation "'do!' x := e 'in' k" := (mthen e (fun x => k))
  (at level 10, x pattern, e at level 200, k at level 200) : go_scope.

(** [for _, x := range l { body(x) }]. *)
Fixpoint forM {S A} (l : list A) (body : A -> M S unit) : M S unit :=
  match l with
  | [] => skip
  | x :: l' => do! _ := body x in forM l' body
  end.

(** The same with loop variables of type [B]. *)
Fixpoint foldM {S A B} (body : B -> A -> M S B) (b : B) (l : list A) : M S B :=
  match l with
  | [] => ret b
  | x :: l' => do! b' := body b x in foldM body b' l'
  end.

(** [m] moves the state along [R] whenever it returns. *)
Definition moves {S A} (R : S -> S -> Prop) (m : M S A) : Prop :=
  forall s a s', m s = Ret (a, s') -> R s s'.
(** [m] preserves the invariant [P]. *)
Definition keeps {S A} (P : S -> Prop) (m : M S A) : Prop :=
  forall s a s', P s -> m s = Ret (a, s') -> P s'.

Section moves_lemmas.
Context {S : Type} (R : relation S) `{!PreOrder R}.

Lemma moves_ret {A} (a : A) : moves R (ret a).
Proof using All. intros s a' s' [= <- <-]. done. Qed.
Lemma moves_gets {A} (f : S -> A) : moves R (gets f).
Proof using All. intros s a' s' [= <- <-]. done. Qed.
Lemma moves_lift {A} (r : res A) : moves R (lift r).
Proof using All. intros s a' s'. unfold lift. destruct r; [|done]. by intros [= <- <-]. Qed.
Lemma moves_modify (f : S -> S) : (forall s, R s (f s)) -> moves R (modify f).
Proof using All. intros H s a' s' [= <- <-]. done. Qed.
Lemma moves_then {A B} (m : M S A) (k : A -> M S B) :
  moves R m -> (forall a, moves R (k a)) -> moves R (mthen m k).
Proof using All.
  intros Hm Hk s b s'. unfold mthen. destruct (m s) as [[a s1]|] eqn:E; [|done].
  intros H. etrans; [by eapply Hm|by eapply Hk].
Qed.
Lemma moves_forM {A} (l : list A) (body : A -> M S unit) :
  (forall a, a ∈ l -> moves R (body a)) -> moves R (forM l body).
Proof using All.
  induction l as [|a l IH]; intros H; cbn [forM]; [apply moves_ret|].
  apply moves_then; [apply H; by left|]. intros _. apply IH. intros. apply H. by right.
Qed.
Lemma moves_foldM {A B} (l : list A) (body : B -> A -> M S B) :
  (forall b a, a ∈ l -> moves R (body b a)) -> forall b, moves R (foldM body b l).
Proof using All.
  induction l as [|a l IH]; intros H b; cbn [foldM]; [apply moves_ret|].
  apply moves_then; [apply H; by left|]. intros b'. apply IH. intros. apply H. by right.
Qed.
End moves_lemmas.

Section keeps_lemmas.
Context {S : Type} (P : S -> Prop).

Lemma keeps_ret {A} (a : A) : keeps P (ret a).
Proof. by intros s a' s' ? [= <- <-]. Qed.
Lemma keeps_gets {A} (f : S -> A) : keeps P (gets f).
Proof. by intros s a' s' ? [= <- <-]. Qed.
Lemma keeps_lift {A} (r : res A) : keeps P (lift r).
Proof. intros s a' s' ?. unfold lift. destruct r; [|done]. by intros [= <- <-]. Qed.
Lemma keeps_modify (f : S -> S) : (forall s, P s -> P (f s)) -> keeps P (modify f).
Proof. intros H s a' s' ? [= <- <-]. auto. Qed.
Lemma keeps_then {A B} (m : M S A) (k : A -> M S B) :
  keeps P m -> (forall a, keeps P (k a)) -> keeps P (mthen m k).
Proof.
  intros Hm Hk s b s' Hs. unfold mthen. destruct (m s) as [[a s1]|] eqn:E; [|done].
  eapply Hk, Hm; done.
Qed.
Lemma keeps_forM {A} (l : list A) (body : A -> M S unit) :
  (forall a, a ∈ l -> keeps P (body a)) -> keeps P (forM l body).
Proof.
  induction l as [|a l IH]; intros H; cbn [forM]; [apply keeps_ret|].
  apply keeps_then; [apply H; by left|]. intros _. apply IH. intros. apply H. by right.
Qed.
Lemma keeps_foldM {A B} (l : list A) (body : B -> A -> M S B) :
  (forall b a, a ∈ l -> keeps P (body b a)) -> forall b, keeps P (foldM body b l).
Proof.
  induction l as [|a l IH]; intros H b; cbn [foldM]; [apply keeps_ret|].
  apply keeps_then; [apply H; by left|]. intros b'. apply IH. intros. apply H. by right.
Qed.
End keeps_lemmas.

Lemma mthen_inv {S A B} (m : M S A) (k : A -> M S B) s b s' :
  mthen m k s = Ret (b, s') -> exists a s1, m s = Ret (a, s1) /\ k a s1 = Ret (b, s').
Proof. unfold mthen. destruct (m s) as [[a s1]|] eqn:E; [|done]. eauto. Qed.

(** Take apart a run of a sequence: its first statement returned. *)
Ltac step_inv H :=
  match type of H with
  | mthen _ _ _ = Ret _ =>
      let a := fresh "a" in let s := fresh "s" in let E := fresh "E" in
      apply mthen_inv in H as (a & s & E & H)
  end.

Lemma lift_inv {S A} (r : res A) (s : S) a s' : lift r s = Ret (a, s') -> r = Ret a /\ s' = s.
Proof. unfold lift. destruct r; [|done]. by intros [= <- <-]. Qed.

Lemma mthen_run {S A B} (m : M S A) (k : A -> M S B) s a s1 :
  m s = Ret (a, s1) -> mthen m k s = k a s1.
Proof. intros H. unfold mthen. by rewrite H. Qed.

Lemma forM_app {S A} (l1 l2 : list A) (body : A -> M S unit) s :
  forM (l1 ++ l2) body s = (do! _ := forM l1 body in forM l2 body) s.
Proof.
  revert s; induction l1 as [|a l1 IH]; intros s; [done|]. cbn [forM app].
  unfold mthen in *. destruct (body a s) as [[[] s1]|]; [|done]. apply IH.
Qed.

(** A loop whose body always returns from the states of [P], returns. *)
Lemma forM_total {S A} (P : S -> Prop) (l : list A) (body : A -> M S unit) :
  (forall a s, a ∈ l -> P s -> exists s', body a s = Ret (tt, s') /\ P s') ->
  forall s, P s -> exists s', forM l body s = Ret (tt, s') /\ P s'.
Proof.
  induction l as [|a l IH]; intros H s Hs; cbn [forM]; [by exists s|].
  destruct (H a s) as (s1 & E & H1); [by left|done|]. rewrite (mthen_run _ _ _ _ _ E).
  apply IH; [|done]. intros. apply H; [by right|done].
Qed.

(** [m] returns from every state of [P], into one. *)
Definition runs {S A} (P : S -> Prop) (m : M S A) : Prop :=
  forall s, P s -> exists a s', m s = Ret (a, s') /\ P s'.

Section runs_lemmas.
Context {S : Type} (P : S -> Prop).

Lemma runs_ret {A} (a : A) : runs P (ret a).
Proof. intros s Hs. by exists a, s. Qed.
Lemma runs_gets {A} (f : S -> A) : runs P (gets f).
Proof. intros s Hs. by exists (f s), s. Qed.
Lemma runs_modify (f : S -> S) : (forall s, P s -> P (f s)) -> runs P (modify f).
Proof. intros H s Hs. exists tt, (f s). split; [done|by apply H]. Qed.
Lemma runs_lift {A} (r : res A) : (exists a, r = Ret a) -> runs P (lift r).
Proof. intros [a ->] s Hs. by exists a, s. Qed.
Lemma runs_then {A B} (m : M S A) (k : A -> M S B) : runs P m -> (forall a, runs P (k a)) -> runs P (mthen m k).
Proof.
  intros Hm Hk s Hs. destruct (Hm s Hs) as (a & s1 & E & H1). rewrite (mthen_run _ _ _ _ _ E). by apply Hk.
Qed.
Lemma runs_then_post {A B} (Q : A -> Prop) (m : M S A) (k : A -> M S B) :
  (forall s, P s -> exists a s', m s = Ret (a, s') /\ P s' /\ Q a) -> (forall a, Q a -> runs P (k a)) -> runs P (mthen m k).
Proof.
  intros Hm Hk s Hs. destruct (Hm s Hs) as (a & s1 & E & H1 & Ha). rewrite (mthen_run _ _ _ _ _ E). by apply Hk.
Qed.
Lemma runs_forM {A} (l : list A) (body : A -> M S unit) : (forall a, a ∈ l -> runs P (body a)) -> runs P (forM l body).
Proof.
  induction l as [|a l IH]; intros H; cbn [forM]; [apply runs_ret|].
  apply runs_then; [apply H; by left|]. intros _. apply IH. intros. apply H. by right.
Qed.
Lemma runs_foldM {A B} (l : list A) (body : B -> A -> M S B) :
  (forall b a, a ∈ l -> runs P (body b a)) -> forall b, runs P (foldM body b l).
Proof.
  induction l as [|a l IH]; intros H b; cbn [foldM]; [apply runs_ret|].
  apply runs_then; [apply H; by left|]. intros b'. apply IH. intros. apply H. by right.
Qed.
End runs_lemmas.

(** A returned result is known to have been returned. *)
Definition is_ret {A} (r : res A) : bool := match r with Ret _ => true | Panic _ => false end.
Lemma is_ret_run {S} (m : M S unit) s : is_ret (m s) = true -> exists s', m s = Ret (tt, s').
Proof. destruct (m s) as [[[] s']|]; [by exists s'|done]. Qed.

#[export] Hint Resolve moves_ret moves_gets moves_lift moves_then moves_forM moves_foldM
  keeps_ret keeps_gets keeps_lift keeps_then keeps_forM keeps_foldM : falcon.

(** * Generic list lemmas *)

Lemma StronglySorted_unique_perm {A} (R : relation A) `{!AntiSymm eq R} (l1 l2 : list A) :
  StronglySorted R l1 -> StronglySorted R l2 -> l1 ≡ₚ l2 -> l1 = l2.
Proof. intros. eapply (StronglySorted_unique R); done. Qed.

Lemma last_removelast {A} (l : list A) x : last l = Some x -> l = (removelast l ++ [x])%list.
Proof. intros H. apply last_Some in H as [l' ->]. by rewrite removelast_last. Qed.
Lemma rev_reverse {A} (l : list A) : rev l = reverse l.
Proof. unfold reverse. apply rev_alt. Qed.

Lemma fold_left_ext_in {A B} (f g : A -> B -> A) l a : (forall a b, b ∈ l -> f a b = g a b) -> fold_left f l a = fold_left g l a.
Proof. revert a; induction l as [|b l IH]; intros a Hf; [done|]. cbn. rewrite Hf by left. apply IH. intros. apply Hf. by right. Qed.
Lemma fold_left_map {A B C} (f : A -> B -> A) (h : C -> B) l a : fold_left f (map h l) a = fold_left (fun a c => f a (h c)) l a.
Proof. revert a; induction l as [|c l IH]; intros a; [done|]. apply IH. Qed.

(** Folding insertions of distinct keys builds the map, in any order. *)
Lemma fold_insert_union `{Countable Key} {T} (l : list (Key * T)) (m : gmap Key T) :
  NoDup l.*1 -> (forall k, k ∈ l.*1 -> m !! k = None) ->
  fold_left (fun d kv => <[kv.1 := kv.2]> d) l m = list_to_map l ∪ m.
Proof.
  revert m; induction l as [|[k v] l IH]; intros m Hnd Hm; cbn; [by rewrite (left_id_L ∅ (∪))|].
  cbn in Hnd. apply NoDup_cons in Hnd as [Hk Hnd]. rewrite IH; [|done|].
  - rewrite <- insert_union_l. rewrite insert_union_r; [done|]. by apply not_elem_of_list_to_map_1.
  - intros k' Hk'. rewrite lookup_insert_ne; [|intros ->; done]. apply Hm. by right.
Qed.

(** [n] numbers from [start] on, [step] apart. *)
Fixpoint seqZ_from (start step : Z) (n : nat) : list Z :=
  match n with O => [] | S n' => start :: seqZ_from (start + step) step n' end.

Lemma seqZ_from_length start step n : length (seqZ_from start step n) = n.
Proof. revert start; induction n; intros; simpl; auto. Qed.

Lemma seqZ_from_lookup start step n i :
  i < n -> seqZ_from start step n !! i = Some (start + Z.of_nat i * step)%Z.
Proof.
  revert start i; induction n as [|n IH]; intros start i Hi; [lia|].
  destruct i as [|i]; simpl; [f_equal; lia|].
  rewrite IH by lia. f_equal. lia.
Qed.

(** * Machine integers *)

(** Go's [int] and [int64] are 64-bit two's complement: arithmetic wraps. *)
Definition wrap64 (z : Z) : Z := ((z + 2 ^ 63) mod 2 ^ 64 - 2 ^ 63)%Z.
Definition in_i64 (z : Z) : Prop := (- 2 ^ 63 <= z < 2 ^ 63)%Z.
#[export] Instance in_i64_dec z : Decision (in_i64 z).
Proof. unfold in_i64. apply _. Defined.

Notation "a +! b" := (wrap64 (a + b)) (at level 50, left associativity) : go_scope.
Notation "a -! b" := (wrap64 (a - b)) (at level 50, left associativity) : go_scope.
Notation "a *! b" := (wrap64 (a * b)) (at level 40, left associativity) : go_scope.

Lemma wrap64_id z : in_i64 z -> wrap64 z = z.
Proof. unfold in_i64, wrap64. intros. rewrite Z.mod_small; lia. Qed.

Lemma wrap64_range z : in_i64 (wrap64 z).
Proof.
  unfold in_i64, wrap64. pose proof (Z.mod_pos_bound (z + 2 ^ 63) (2 ^ 64) eq_refl). lia.
Qed.

(** Go's [uint64] wraps at [2^64]. *)
Definition wrapU (z : Z) : Z := (z mod 2 ^ 64)%Z.
Definition in_u64 (z : Z) : Prop := (0 <= z < 2 ^ 64)%Z.
#[export] Instance in_u64_dec z : Decision (in_u64 z).
Proof. unfold in_u64. apply _. Defined.

Lemma wrapU_id z : in_u64 z -> wrapU z = z.
Proof. unfold in_u64, wrapU. intros. by rewrite Z.mod_small. Qed.
Lemma wrapU_range z : in_u64 (wrapU z).
Proof. unfold in_u64, wrapU. by apply Z.mod_pos_bound. Qed.

(** Truncated remainder: Go's [a % b], which panics when [b] is zero. *)
Definition go_rem (a b : Z) : res Z := if (b =? 0)%Z then Panic DivideByZero else Ret (Z.rem a b).
(** Truncated quotient: Go's [a / b]. *)
Definition go_quot (a b : Z) : res Z := if (b =? 0)%Z then Panic DivideByZero else Ret (wrap64 (Z.quot a b)).

#[export] Hint Resolve wrap64_range wrapU_range : falcon.
#[export] Hint Rewrite @length_app @length_map @length_rev : falcon.
