(* ===== verification/GoFloat.v ===== *)
(** Go's [float64]: IEEE-754 binary64, on the executable and axiom-free
    [spec_float] of the Standard Library (precision 53, maximal exponent
    1024, round to nearest even).  Infinities, NaN and signed zeros are the
    constructors of [spec_float].  The second half shows that the comparison
    operators form a total preorder on the values that are not NaN. *)
From Stdlib Require Export SpecFloat.
From S2P Require Export Prelude.

Notation f64 := spec_float.
#[export] Instance f64_eq_dec : EqDecision f64.
Proof. solve_decision. Defined.

Definition fadd : f64 -> f64 -> f64 := SFadd 53 1024.
Definition fsub : f64 -> f64 -> f64 := SFsub 53 1024.
Definition fmul : f64 -> f64 -> f64 := SFmul 53 1024.
Definition fdiv : f64 -> f64 -> f64 := SFdiv 53 1024.
Definition fabs : f64 -> f64 := SFabs.
Definition flt : f64 -> f64 -> bool := SFltb.
Definition fle : f64 -> f64 -> bool := SFleb.
Definition feq : f64 -> f64 -> bool := SFeqb.
Definition is_nan (x : f64) : bool := match x with S754_nan => true | _ => false end.
Definition is_inf (x : f64) : bool := match x with S754_infinity _ => true | _ => false end.

Definition fzero : f64 := S754_zero false.
Definition fnan : f64 := S754_nan.

(** [float64(z)] for an integer [z]. *)
Definition f64_of_Z (z : Z) : f64 := binary_normalize 53 1024 z 0 false.

(** The decimal literal [m / 10^k], correctly rounded. *)
Definition f64_dec (m : Z) (k : N) : f64 :=
  match m with
  | Z0 => S754_zero false
  | Zpos p =>
      let '(mz, ez, lz) := SFdiv_core_binary 53 1024 (Zpos p) 0 (10 ^ Z.of_N k) 0 in
      binary_round_aux 53 1024 false mz ez lz
  | Zneg p =>
      let '(mz, ez, lz) := SFdiv_core_binary 53 1024 (Zpos p) 0 (10 ^ Z.of_N k) 0 in
      binary_round_aux 53 1024 true mz ez lz
  end.

(** [int64(x)] for a finite float: truncation towards zero. *)
Definition f64_trunc (x : f64) : Z :=
  match x with
  | S754_finite s m e =>
      let mag := if (0 <=? e)%Z then (Zpos m * 2 ^ e)%Z else (Zpos m / 2 ^ (- e))%Z in
      if s then (- mag)%Z else mag
  | _ => 0%Z
  end.

Example f64_dec_tenth : f64_dec 1 1 = S754_finite false 7205759403792794 (-56).
Proof. reflexivity. Qed.
Example f64_third : fdiv (f64_of_Z 1) (f64_of_Z 3) = S754_finite false 6004799503160661 (-54).
Proof. vm_compute. reflexivity. Qed.

(** * The order *)

(** [SFcompare] is the lexicographic comparison of these keys. *)
Definition fkey (x : f64) : Z * Z * Z :=
  match x with
  | S754_infinity true => (-2, 0, 0)%Z
  | S754_finite true m e => (-1, - e, - Zpos m)%Z
  | S754_zero _ => (0, 0, 0)%Z
  | S754_finite false m e => (1, e, Zpos m)%Z
  | S754_infinity false => (2, 0, 0)%Z
  | S754_nan => (0, 0, 0)%Z
  end.

Definition klt (a b : Z * Z * Z) : Prop :=
  let '(a1, a2, a3) := a in
  let '(b1, b2, b3) := b in
  (a1 < b1 \/ a1 = b1 /\ (a2 < b2 \/ a2 = b2 /\ a3 < b3))%Z.

Lemma SFcompare_key x y :
  is_nan x = false -> is_nan y = false ->
  match SFcompare x y with
  | Some Lt => klt (fkey x) (fkey y)
  | Some Eq => fkey x = fkey y
  | Some Gt => klt (fkey y) (fkey x)
  | None => False
  end.
Proof.
  intros Hx Hy.
  destruct x as [sx|[]| |[] mx ex]; destruct y as [sy|[]| |[] my ey]; try discriminate;
    cbn [SFcompare fkey klt]; try (cbn; lia); try reflexivity.
  - destruct (Z.compare_spec ex ey) as [->|?|?]; cbn; try lia.
    change (Pos.compare_cont Eq mx my) with (Pos.compare mx my).
    destruct (Pos.compare_spec mx my) as [->|?|?]; cbn; try lia; reflexivity.
  - destruct (Z.compare_spec ex ey) as [->|?|?]; cbn; try lia.
    change (Pos.compare_cont Eq mx my) with (Pos.compare mx my).
    destruct (Pos.compare_spec mx my) as [->|?|?]; cbn; try lia; reflexivity.
Qed.

Lemma SFcompare_nan x y : is_nan x = true \/ is_nan y = true -> SFcompare x y = None.
Proof. destruct x as [?|?| |? ? ?]; destruct y as [?|?| |? ? ?]; intros [?|?]; done. Qed.

Lemma flt_key x y :
  flt x y = true <-> is_nan x = false /\ is_nan y = false /\ klt (fkey x) (fkey y).
Proof.
  unfold flt, SFltb. destruct (is_nan x) eqn:Hx; [rewrite SFcompare_nan by auto; naive_solver|].
  destruct (is_nan y) eqn:Hy; [rewrite SFcompare_nan by auto; naive_solver|].
  pose proof (SFcompare_key x y Hx Hy) as H.
  destruct (SFcompare x y) as [[]|]; try done; (split; [done|]); intros (_ & _ & Hk);
    destruct (fkey x) as [[? ?] ?], (fkey y) as [[? ?] ?]; try (injection H as -> -> ->); unfold klt in *; lia.
Qed.

Lemma fle_key x y :
  fle x y = true <-> is_nan x = false /\ is_nan y = false /\ ~ klt (fkey y) (fkey x).
Proof.
  unfold fle, SFleb. destruct (is_nan x) eqn:Hx; [rewrite SFcompare_nan by auto; naive_solver|].
  destruct (is_nan y) eqn:Hy; [rewrite SFcompare_nan by auto; naive_solver|].
  pose proof (SFcompare_key x y Hx Hy) as H.
  destruct (SFcompare x y) as [[]|]; try done; split; try done.
  - intros _. repeat split; auto. destruct (fkey x) as [[? ?] ?], (fkey y) as [[? ?] ?].
    try (injection H as -> -> ->); unfold klt in *; lia.
  - intros _. repeat split; auto. destruct (fkey x) as [[? ?] ?], (fkey y) as [[? ?] ?].
    try (injection H as -> -> ->); unfold klt in *; lia.
  - intros (_ & _ & Hk). contradiction.
Qed.

Ltac fkeys :=
  rewrite ?flt_key, ?fle_key in *;
  repeat match goal with
  | H : context [fkey ?x] |- _ => destruct (fkey x) as [[? ?] ?]
  | |- context [fkey ?x] => destruct (fkey x) as [[? ?] ?]
  end; unfold klt in *.

Lemma fle_refl x : is_nan x = false -> fle x x = true.
Proof. intros. fkeys. repeat split; auto. lia. Qed.

Lemma fle_trans x y z : fle x y = true -> fle y z = true -> fle x z = true.
Proof. intros Hxy Hyz. fkeys. destruct_and!. repeat split; auto. lia. Qed.

Lemma flt_fle_trans x y z : flt x y = true -> fle y z = true -> flt x z = true.
Proof. intros Hxy Hyz. fkeys. destruct_and!. repeat split; auto. lia. Qed.

Lemma fle_flt_trans x y z : fle x y = true -> flt y z = true -> flt x z = true.
Proof. intros Hxy Hyz. fkeys. destruct_and!. repeat split; auto. lia. Qed.

Lemma flt_fle x y : flt x y = true -> fle x y = true.
Proof. intros Hxy. fkeys. destruct_and!. repeat split; auto. lia. Qed.

(** On numbers, [<] and [>=] are complementary. *)
Lemma flt_false x y : is_nan x = false -> is_nan y = false -> flt x y = false <-> fle y x = true.
Proof.
  intros Hx Hy. destruct (flt x y) eqn:E.
  - split; [done|]. intros Hle. fkeys. destruct_and!. lia.
  - split; [intros _|done]. rewrite fle_key. repeat split; auto. intros Hk.
    enough (flt x y = true) by congruence. rewrite flt_key. auto.
Qed.

Lemma fle_total x y : is_nan x = false -> is_nan y = false -> fle x y = true \/ fle y x = true.
Proof.
  intros Hx Hy. destruct (flt y x) eqn:E; [right; by apply flt_fle|].
  left. by apply flt_false.
Qed.

Lemma fle_nan_l x y : fle x y = true -> is_nan x = false.
Proof. intros H. by apply fle_key in H as (? & _ & _). Qed.
Lemma fle_nan_r x y : fle x y = true -> is_nan y = false.
Proof. intros H. by apply fle_key in H as (_ & ? & _). Qed.

#[export] Hint Resolve fle_refl flt_fle fle_nan_l fle_nan_r : falcon.
