(* ===== verification/GoStr.v ===== *)
(** Go strings as byte strings ([Strings.string], one [ascii] per byte) and
    the functions of the packages [strings], [strconv] and [sort] that the
    program uses on them, with their round trips. *)
From S2P Require Export Prelude.
From Stdlib Require Import Ascii.
Local Open Scope string_scope.
#[global] Arguments String.append !_ _ / : simpl nomatch.

Notation "a ++s b" := (String.append a b) (at level 60, right associativity) : go_scope.

Definition slen (s : string) : Z := Z.of_nat (String.length s).
Definition is_empty (s : string) : bool := match s with "" => true | _ => false end.

(** Carriage return and line feed. *)
Definition cr : string := String (ascii_of_nat 13) "".
Definition lf : string := String (ascii_of_nat 10) "".
Definition crlf : string := cr ++s lf.

(** [strings.Join]. *)
Fixpoint join (sep : string) (l : list string) : string :=
  match l with
  | [] => ""
  | [x] => x
  | x :: l' => x ++s sep ++s join sep l'
  end.

(** [strings.IndexByte]-style search and the cut around the first hit. *)
Fixpoint has (c : ascii) (s : string) : bool :=
  match s with "" => false | String a s' => Ascii.eqb a c || has c s' end.

Fixpoint cut (c : ascii) (s : string) : option (string * string) :=
  match s with
  | "" => None
  | String a s' =>
      if Ascii.eqb a c then Some ("", s')
      else match cut c s' with Some (h, t) => Some (String a h, t) | None => None end
  end.

(** [strings.Index]: the first position of [sub], or -1. *)
Definition str_index (s sub : string) : Z :=
  match String.index 0 sub s with Some n => Z.of_nat n | None => -1 end.
(** [strings.Contains]. *)
Definition contains (s sub : string) : bool := (0 <=? str_index s sub)%Z.

(** [strings.Split] for a non-empty separator; [skip] counts the bytes of a
    separator already matched. *)
Fixpoint split_aux (sep : string) (skip : nat) (s : string) : string * list string :=
  match s with
  | "" => ("", [])
  | String c s' =>
      match skip with
      | S k => split_aux sep k s'
      | O =>
          if String.prefix sep s
          then let '(h, t) := split_aux sep (pred (String.length sep)) s' in ("", h :: t)
          else let '(h, t) := split_aux sep 0 s' in (String c h, t)
      end
  end.
Definition split (s sep : string) : list string := let '(h, t) := split_aux sep 0 s in h :: t.

(** [strings.SplitN(s, sep, 2)] for a one-byte separator. *)
Definition splitn2 (s : string) (c : ascii) : list string :=
  match cut c s with Some (h, t) => [h; t] | None => [s] end.

(** [strings.Replace(s, old, new, -1)] for a non-empty [old]. *)
Definition replace_all (s old new : string) : string := join new (split s old).

(** [s[i:j]]. *)
Definition slice (s : string) (i j : Z) : res string :=
  if ((0 <=? i) && (i <=? j) && (j <=? slen s))%Z
  then Ret (String.substring (Z.to_nat i) (Z.to_nat (j - i)) s)
  else Panic SliceBounds.

(** [s[0]] as used to test the first byte. *)
Definition first_byte (s : string) : res ascii :=
  match s with "" => Panic IndexOutOfRange | String a _ => Ret a end.

(** [strings.ToLower] on ASCII letters. *)
Definition lower_ascii (a : ascii) : ascii :=
  let n := nat_of_ascii a in
  if (65 <=? n)%nat && (n <=? 90)%nat then ascii_of_nat (n + 32) else a.
Fixpoint map_bytes (f : ascii -> ascii) (s : string) : string :=
  match s with "" => "" | String a s' => String (f a) (map_bytes f s') end.

(** [sort.Strings]. *)
Definition sort_strings : list string -> list string := merge_sort String.le.

(** * Decimal integers *)

Definition digit_val (a : ascii) : option Z :=
  let n := Z.of_nat (nat_of_ascii a) in
  if ((48 <=? n) && (n <=? 57))%Z then Some (n - 48)%Z else None.
Definition digit_chr (d : Z) : ascii := ascii_of_nat (Z.to_nat (d + 48)).

(** The value of a run of digits read after [acc]; [None] on another byte. *)
Fixpoint digits_val (s : string) (acc : Z) : option Z :=
  match s with
  | "" => Some acc
  | String a s' => match digit_val a with Some d => digits_val s' (acc * 10 + d)%Z | None => None end
  end.

Fixpoint utoa (fuel : nat) (n : Z) (acc : string) : string :=
  match fuel with
  | O => acc
  | S f =>
      let acc' := String (digit_chr (n mod 10)) acc in
      if (n / 10 =? 0)%Z then acc' else utoa f (n / 10) acc'
  end.

(** [strconv.Itoa]. *)
Definition itoa (z : Z) : string :=
  let n := Z.abs z in
  let d := utoa (S (Z.to_nat (Z.log2 n))) n "" in
  if (z <? 0)%Z then String "-" d else d.

(** The integer a text writes: an optional sign and at least one digit. *)
Definition read_int (s : string) : option Z :=
  let '(neg, body) :=
    match s with
    | String "-" t => (true, t)
    | String "+" t => (false, t)
    | _ => (false, s)
    end in
  match body with
  | "" => None
  | _ => match digits_val body 0 with Some n => Some (if neg : bool then (- n)%Z else n) | None => None end
  end.

(** [strconv.ParseInt(s, 10, bits)]: a value in the range of the width; the
    value a caller gets that ignores the error is the nearest one, or 0. *)
Definition parse_int (s : string) (bits : Z) : option Z :=
  match read_int s with
  | Some v => if ((- 2 ^ (bits - 1) <=? v) && (v <? 2 ^ (bits - 1)))%Z then Some v else None
  | None => None
  end.
Definition parse_int_value (s : string) (bits : Z) : Z :=
  match read_int s with
  | Some v => Z.max (- 2 ^ (bits - 1)) (Z.min v (2 ^ (bits - 1) - 1))
  | None => 0
  end.

(** [strconv.ParseUint(s, 10, 64)]: digits without a sign; and the value a
    caller gets that ignores the error. *)
Definition read_uint (s : string) : option Z := match s with "" => None | _ => digits_val s 0 end.
Definition parse_uint (s : string) : option Z :=
  match read_uint s with Some v => if (v <? 2 ^ 64)%Z then Some v else None | None => None end.
Definition parse_uint_value (s : string) : Z :=
  match read_uint s with Some v => Z.min v (2 ^ 64 - 1) | None => 0 end.

(** [strconv.Atoi]. *)
Definition atoi (s : string) : option Z := parse_int s 64.

Example itoa_42 : itoa 42 = "42". Proof. reflexivity. Qed.
Example itoa_neg : itoa (-9223372036854775808) = "-9223372036854775808". Proof. reflexivity. Qed.
Example atoi_sign : atoi "+07" = Some 7%Z. Proof. reflexivity. Qed.
Example atoi_over : atoi "9223372036854775808" = None. Proof. reflexivity. Qed.
Example split_ex : split "a||b||" "||" = ["a"; "b"; ""]. Proof. reflexivity. Qed.
Example replace_ex : replace_all "a b  c" " " "" = "abc". Proof. reflexivity. Qed.

(** * Lemmas *)

Lemma sapp_nil_r s : s ++s "" = s.
Proof. induction s; simpl; congruence. Qed.
Lemma sapp_assoc a b c : (a ++s b) ++s c = a ++s b ++s c.
Proof. induction a; simpl; congruence. Qed.
Lemma sapp_length a b : String.length (a ++s b) = String.length a + String.length b.
Proof. induction a; simpl; congruence. Qed.
Lemma sapp_cancel a b c : a ++s b = a ++s c -> b = c.
Proof. induction a; simpl; [done|]. intros [= ?]; auto. Qed.
Lemma sapp_cancel_len a a' b c : String.length a = String.length a' -> a ++s b = a' ++s c -> a = a' /\ b = c.
Proof.
  revert a'; induction a as [|x a IH]; intros [|x' a'] Hl; simpl in *; try done.
  intros [= -> H]. destruct (IH a' ltac:(lia) H) as [-> ->]. done.
Qed.

Lemma has_app c a b : has c (a ++s b) = has c a || has c b.
Proof. induction a as [|x a IH]; simpl; [done|]. rewrite IH. by rewrite orb_assoc. Qed.

Lemma cut_app c a b : has c a = false -> cut c (a ++s String c b) = Some (a, b).
Proof.
  induction a as [|x a IH]; simpl; [by rewrite Ascii.eqb_refl|].
  intros [-> ?]%orb_false_iff. by rewrite IH.
Qed.

Lemma cut_some c s a b : cut c s = Some (a, b) -> s = a ++s String c b /\ has c a = false.
Proof.
  revert a b; induction s as [|x s IH]; intros a b; simpl; [done|].
  destruct (Ascii.eqb_spec x c) as [->|Hne]; [by intros [= <- <-]|].
  destruct (cut c s) as [[h t]|]; [|done]. intros [= <- <-].
  destruct (IH h t eq_refl) as [-> ?]. split; [done|]. simpl.
  destruct (Ascii.eqb_spec x c); done.
Qed.

Lemma cut_none c s : cut c s = None <-> has c s = false.
Proof.
  induction s as [|x s IH]; simpl; [done|]. destruct (Ascii.eqb x c); [done|].
  destruct (cut c s) as [[? ?]|]; simpl; [|tauto].
  split; [done|]. intros H. by apply IH in H.
Qed.

(** Splitting at one byte. *)
Lemma prefix_one c x s : String.prefix (String c "") (String x s) = Ascii.eqb c x.
Proof.
  unfold String.prefix. destruct (ascii_dec c x), (Ascii.eqb_spec c x); try done. by destruct s.
Qed.

Lemma split_one c s :
  split s (String c "") =
  match cut c s with Some (h, t) => h :: split t (String c "") | None => [s] end.
Proof.
  assert (forall s, split_aux (String c "") 0 s =
    match cut c s with Some (h, t) => (h, split t (String c "")) | None => (s, []) end) as H.
  { clear s. induction s as [|x s IH]; [done|].
    cbn -[String.prefix cut]. rewrite prefix_one. rewrite Ascii.eqb_sym. simpl cut.
    destruct (Ascii.eqb x c); [unfold split; by destruct (split_aux (String c "") 0 s)|].
    rewrite IH. destruct (cut c s) as [[h t]|]; done. }
  unfold split at 1. rewrite H. destruct (cut c s) as [[h t]|]; done.
Qed.

Lemma split_no_sep c s : has c s = false -> split s (String c "") = [s].
Proof. intros H. rewrite split_one. by apply cut_none in H as ->. Qed.

Lemma split_join c (l : list string) :
  l <> [] -> Forall (fun s => has c s = false) l ->
  split (join (String c "") l) (String c "") = l.
Proof.
  intros Hl Hf. induction Hf as [|x l Hx Hf IH]; [done|].
  destruct l as [|y l]; [by apply split_no_sep|].
  change (join (String c "") (x :: y :: l)) with (x ++s String c (join (String c "") (y :: l))).
  rewrite split_one, cut_app by done. f_equal. by apply IH.
Qed.

(** Splitting at a longer separator texts without its first byte. *)
Lemma prefix_self a b : String.prefix a (a ++s b) = true.
Proof. induction a as [|x a IH]; [by destruct b|]. cbn. by destruct (ascii_dec x x). Qed.

Lemma split_aux_skip sep u s : split_aux sep (String.length u) (u ++s s) = split_aux sep 0 s.
Proof. induction u as [|x u IH]; [done|]. apply IH. Qed.

Lemma split_aux_until c sep x s : has c x = false ->
  split_aux (String c sep) 0 (x ++s s) = (let '(h, t) := split_aux (String c sep) 0 s in (x ++s h, t)).
Proof.
  induction x as [|a x IH]; cbn [has String.append]; [by destruct (split_aux _ 0 s)|].
  intros [Ha Hx]%orb_false_iff. cbn [split_aux].
  replace (String.prefix (String c sep) (String a (x ++s s))) with false; cycle 1.
  { cbn. destruct (ascii_dec c a) as [->|]; [by rewrite Ascii.eqb_refl in Ha|done]. }
  rewrite IH by done. by destruct (split_aux _ 0 s).
Qed.

Lemma split_join_long c sep (l : list string) :
  l <> [] -> Forall (fun s => has c s = false) l -> split (join (String c sep) l) (String c sep) = l.
Proof.
  intros Hl Hf. induction Hf as [|x l Hx Hf IH]; [done|]. unfold split. destruct l as [|y l].
  - cbn [join]. rewrite <- (sapp_nil_r x) at 1. rewrite split_aux_until by done. cbn. by rewrite sapp_nil_r.
  - specialize (IH ltac:(done)). unfold split in IH.
    change (join (String c sep) (x :: y :: l)) with (x ++s String c (sep ++s join (String c sep) (y :: l))).
    rewrite split_aux_until by done. pose proof (prefix_self (String c sep) (join (String c sep) (y :: l))) as Hp.
    change (String c sep ++s ?r) with (String c (sep ++s r)) in Hp. cbn [split_aux]. rewrite Hp.
    cbn [String.length pred]. rewrite split_aux_skip. destruct (split_aux (String c sep) 0 _). by rewrite sapp_nil_r, IH.
Qed.

Lemma replace_all_absent c new s : has c s = false -> replace_all s (String c "") new = s.
Proof. intros H. unfold replace_all. by rewrite split_no_sep. Qed.

(** Sorting. *)
Lemma sort_strings_perm l : sort_strings l ≡ₚ l.
Proof. apply merge_sort_Permutation. Qed.
Lemma sort_strings_sorted l : StronglySorted String.le (sort_strings l).
Proof. apply StronglySorted_merge_sort; apply _. Qed.
Lemma sort_strings_ext l1 l2 : l1 ≡ₚ l2 -> sort_strings l1 = sort_strings l2.
Proof.
  intros H. apply (StronglySorted_unique_perm String.le); try apply sort_strings_sorted.
  by rewrite !sort_strings_perm.
Qed.
Lemma sort_strings_length l : length (sort_strings l) = length l.
Proof. by rewrite sort_strings_perm. Qed.
#[export] Instance sort_strings_proper : Proper ((≡ₚ) ==> (=)) sort_strings.
Proof. intros ???. by apply sort_strings_ext. Qed.

(** Decimal round trip. *)
Lemma digit_val_chr d : (0 <= d < 10)%Z -> digit_val (digit_chr d) = Some d.
Proof.
  intros H. assert (d ∈ [0; 1; 2; 3; 4; 5; 6; 7; 8; 9]%Z) as Hd by (rewrite !elem_of_cons; lia).
  rewrite !elem_of_cons, elem_of_nil in Hd.
  repeat (destruct Hd as [->|Hd]; [reflexivity|]). done.
Qed.

Lemma digits_val_utoa f n acc k :
  (0 <= n < 2 ^ Z.of_nat f)%Z -> f <> O ->
  exists p, (0 <= p)%Z /\ digits_val (utoa f n acc) k = digits_val acc (k * 10 ^ p + n)%Z.
Proof.
  revert n acc k; induction f as [|f IH]; intros n acc k Hn Hf; [done|]. simpl.
  pose proof (Z.mod_pos_bound n 10 ltac:(lia)) as Hm.
  pose proof (Z.div_mod n 10 ltac:(lia)) as Hdm.
  destruct (Z.eqb_spec (n / 10) 0) as [H0|H0].
  - exists 1%Z. split; [lia|]. simpl. rewrite digit_val_chr by lia. f_equal. lia.
  - assert (0 <= n / 10 < 2 ^ Z.of_nat f)%Z as Hq.
    { rewrite Nat2Z.inj_succ, Z.pow_succ_r in Hn by lia.
      split; [apply Z.div_pos; lia|]. apply Z.div_lt_upper_bound; lia. }
    assert (f <> O) by (intros ->; simpl in Hq; lia).
    destruct (IH (n / 10)%Z (String (digit_chr (n mod 10)) acc) k Hq ltac:(done)) as (p & Hp & ->).
    exists (Z.succ p). split; [lia|]. simpl. rewrite digit_val_chr by lia. f_equal.
    rewrite Z.pow_succ_r by lia. lia.
Qed.

Lemma utoa_nonempty f n acc : f <> O -> utoa f n acc <> "".
Proof.
  revert n acc; induction f as [|f IH]; intros n acc Hf; [done|]. simpl.
  destruct (n / 10 =? 0)%Z; [done|]. destruct f; [done|]. by apply IH.
Qed.

Definition is_digit (a : ascii) : bool := match digit_val a with Some _ => true | None => false end.
Fixpoint all_bytes (p : ascii -> bool) (s : string) : bool :=
  match s with "" => true | String a s' => p a && all_bytes p s' end.

Lemma utoa_digits f n acc : (0 <= n)%Z -> all_bytes is_digit acc = true -> all_bytes is_digit (utoa f n acc) = true.
Proof.
  revert n acc; induction f as [|f IH]; intros n acc Hn Ha; [done|]. simpl.
  assert (all_bytes is_digit (String (digit_chr (n mod 10)) acc) = true) as H.
  { simpl. unfold is_digit at 1. rewrite digit_val_chr; [done|]. apply Z.mod_pos_bound; lia. }
  destruct (n / 10 =? 0)%Z; [done|]. apply IH; [|done]. apply Z.div_pos; lia.
Qed.

Lemma log2_fuel n : (0 <= n)%Z -> (0 <= n < 2 ^ Z.of_nat (S (Z.to_nat (Z.log2 n))))%Z.
Proof.
  intros H. split; [done|]. rewrite Nat2Z.inj_succ, Z2Nat.id by apply Z.log2_nonneg.
  destruct (decide (n = 0%Z)) as [->|]; [reflexivity|]. apply Z.log2_spec. lia.
Qed.

Lemma parse_int_unsigned s n bits :
  all_bytes is_digit s = true -> s <> "" -> digits_val s 0 = Some n ->
  parse_int s bits = if ((- 2 ^ (bits - 1) <=? n) && (n <? 2 ^ (bits - 1)))%Z then Some n else None.
Proof.
  intros Hd Hs Hv. unfold parse_int, read_int. destruct s as [|a s]; [done|].
  simpl in Hd. apply andb_true_iff in Hd as [Ha _].
  destruct a as [[] [] [] [] [] [] [] []]; try discriminate Ha; by rewrite Hv.
Qed.

(** [ParseInt(Itoa(z), 10, bits) = z] on integers of that width. *)
Lemma parse_int_itoa bits z : (- 2 ^ (bits - 1) <= z < 2 ^ (bits - 1))%Z -> parse_int (itoa z) bits = Some z.
Proof.
  intros Hz. unfold itoa.
  set (n := Z.abs z). set (d := utoa _ n "").
  assert (all_bytes is_digit d = true) as Hd by (apply utoa_digits; [lia|done]).
  assert (d <> "") as Hne by by apply utoa_nonempty.
  destruct (digits_val_utoa (S (Z.to_nat (Z.log2 n))) n "" 0) as (p & _ & Hv);
    [apply log2_fuel; lia|done|].
  rewrite Z.mul_0_l, Z.add_0_l in Hv. change (digits_val "" n) with (Some n) in Hv. fold d in Hv.
  destruct (Z.ltb_spec z 0).
  - unfold parse_int, read_int. destruct d eqn:Ed; [done|]. rewrite Hv.
    replace (- n)%Z with z by lia.
    destruct (Z.leb_spec (- 2 ^ (bits - 1)) z), (Z.ltb_spec z (2 ^ (bits - 1))); simpl; try done; lia.
  - rewrite (parse_int_unsigned d n) by done.
    replace n with z by lia.
    destruct (Z.leb_spec (- 2 ^ (bits - 1)) z), (Z.ltb_spec z (2 ^ (bits - 1))); simpl; try done; lia.
Qed.

Lemma itoa_nonempty z : itoa z <> "".
Proof. unfold itoa. destruct (z <? 0)%Z; [done|]. by apply utoa_nonempty. Qed.

(** [Atoi(Itoa(z)) = z] on [int64]. *)
Lemma atoi_itoa z : in_i64 z -> atoi (itoa z) = Some z.
Proof. apply (parse_int_itoa 64). Qed.

Lemma itoa_inj z1 z2 : in_i64 z1 -> in_i64 z2 -> itoa z1 = itoa z2 -> z1 = z2.
Proof. intros H1 H2 H. pose proof (atoi_itoa z1 H1). pose proof (atoi_itoa z2 H2). congruence. Qed.

Lemma all_bytes_has p c s : p c = false -> all_bytes p s = true -> has c s = false.
Proof.
  intros Hc. induction s as [|a s IH]; simpl; [done|]. intros [Ha Hs]%andb_true_iff.
  rewrite IH by done. destruct (Ascii.eqb_spec a c); [congruence|done].
Qed.

(** A decimal numeral contains no byte other than the sign and digits. *)
Lemma itoa_has c z : is_digit c = false -> c <> "-"%char -> has c (itoa z) = false.
Proof.
  intros Hc Hm. unfold itoa. set (d := utoa _ _ _).
  assert (has c d = false) as Hd.
  { apply (all_bytes_has is_digit); [done|]. apply utoa_digits; [lia|done]. }
  destruct (z <? 0)%Z; [|done]. cbn [has]. rewrite Hd.
  destruct (Ascii.eqb_spec "-" c); [congruence|done].
Qed.

#[export] Hint Rewrite sapp_nil_r sapp_assoc sapp_length : gostr.
