(* ===== verification/Hash.v ===== *)
(** The two digests the program takes from Go's standard library: MD5
    ([crypto/md5] with [encoding/hex]), which names every counter, and the
    IEEE CRC-32 ([hash/crc32]) that spreads the graph cache over its slots.
    Both are written out and evaluate. *)
From S2P Require Export GoStr.
From Stdlib Require Import Ascii.
Local Open Scope Z_scope.

Definition byte_of (a : ascii) : Z := Z.of_N (N_of_ascii a).
Fixpoint bytes_of (s : string) : list Z :=
  match s with EmptyString => [] | String a s' => byte_of a :: bytes_of s' end.

Definition w32 (z : Z) : Z := Z.land z 0xffffffff.
Definition rotl32 (x n : Z) : Z := w32 (Z.lor (Z.shiftl x n) (Z.shiftr x (32 - n))).

(** * MD5 *)
Module MD5.

(** Per step: the additive constant, the rotation and the message word. *)
Definition steps : list (Z * Z * Z) :=
  [(3614090360, 7, 0); (3905402710, 12, 1); (606105819, 17, 2); (3250441966, 22, 3);
   (4118548399, 7, 4); (1200080426, 12, 5); (2821735955, 17, 6); (4249261313, 22, 7);
   (1770035416, 7, 8); (2336552879, 12, 9); (4294925233, 17, 10); (2304563134, 22, 11);
   (1804603682, 7, 12); (4254626195, 12, 13); (2792965006, 17, 14); (1236535329, 22, 15);
   (4129170786, 5, 1); (3225465664, 9, 6); (643717713, 14, 11); (3921069994, 20, 0);
   (3593408605, 5, 5); (38016083, 9, 10); (3634488961, 14, 15); (3889429448, 20, 4);
   (568446438, 5, 9); (3275163606, 9, 14); (4107603335, 14, 3); (1163531501, 20, 8);
   (2850285829, 5, 13); (4243563512, 9, 2); (1735328473, 14, 7); (2368359562, 20, 12);
   (4294588738, 4, 5); (2272392833, 11, 8); (1839030562, 16, 11); (4259657740, 23, 14);
   (2763975236, 4, 1); (1272893353, 11, 4); (4139469664, 16, 7); (3200236656, 23, 10);
   (681279174, 4, 13); (3936430074, 11, 0); (3572445317, 16, 3); (76029189, 23, 6);
   (3654602809, 4, 9); (3873151461, 11, 12); (530742520, 16, 15); (3299628645, 23, 2);
   (4096336452, 6, 0); (1126891415, 10, 7); (2878612391, 15, 14); (4237533241, 21, 5);
   (1700485571, 6, 12); (2399980690, 10, 3); (4293915773, 15, 10); (2240044497, 21, 1);
   (1873313359, 6, 8); (4264355552, 10, 15); (2734768916, 15, 6); (1309151649, 21, 13);
   (4149444226, 6, 4); (3174756917, 10, 11); (718787259, 15, 2); (3951481745, 21, 9)].

Definition le_word (bs : list Z) : Z :=
  fold_right (fun b acc => b + Z.shiftl acc 8) 0 bs.

Fixpoint words (n : nat) (bs : list Z) : list Z :=
  match n with O => [] | S n' => le_word (take 4 bs) :: words n' (drop 4 bs) end.

Definition le_bytes (n : nat) (z : Z) : list Z :=
  map (fun i => Z.land (Z.shiftr z (8 * Z.of_nat i)) 255) (seq 0 n).

Definition pad (bs : list Z) : list Z :=
  let len := length bs in
  let zeros := if (55 <? len mod 64)%nat then (119 - len mod 64)%nat else (55 - len mod 64)%nat in
  bs ++ 128 :: repeat 0 zeros ++ le_bytes 8 ((8 * Z.of_nat len) mod 2 ^ 64).

Definition step (m : list Z) (st : nat * (Z * Z * Z * Z)) (k : Z * Z * Z) : nat * (Z * Z * Z * Z) :=
  let '(i, (a, b, c, d)) := st in
  let '(kc, s, g) := k in
  let nb := Z.lxor b 0xffffffff in
  let nd := Z.lxor d 0xffffffff in
  let f :=
    if (i <? 16)%nat then Z.lor (Z.land b c) (Z.land nb d)
    else if (i <? 32)%nat then Z.lor (Z.land d b) (Z.land nd c)
    else if (i <? 48)%nat then Z.lxor (Z.lxor b c) d
    else Z.lxor c (Z.lor b nd) in
  let x := w32 (f + a + kc + nth (Z.to_nat g) m 0) in
  (S i, (d, w32 (b + rotl32 x s), b, c)).

Definition block (st : Z * Z * Z * Z) (bs : list Z) : Z * Z * Z * Z :=
  let m := words 16 bs in
  let '(a0, b0, c0, d0) := st in
  let '(_, (a, b, c, d)) := fold_left (step m) steps (O, st) in
  (w32 (a0 + a), w32 (b0 + b), w32 (c0 + c), w32 (d0 + d)).

Fixpoint blocks (n : nat) (st : Z * Z * Z * Z) (bs : list Z) : Z * Z * Z * Z :=
  match n with O => st | S n' => blocks n' (block st (take 64 bs)) (drop 64 bs) end.

(** [md5.Sum]: sixteen bytes. *)
Definition sum (bs : list Z) : list Z :=
  let p := pad bs in
  let '(a, b, c, d) := blocks (length p / 64) (0x67452301, 0xefcdab89, 0x98badcfe, 0x10325476) p in
  le_bytes 4 a ++ le_bytes 4 b ++ le_bytes 4 c ++ le_bytes 4 d.

End MD5.

(** * Hexadecimal *)

Definition hex_digits : list ascii := String.list_ascii_of_string "0123456789abcdef".
Definition hex_chr (d : Z) : ascii := nth (Z.to_nat d) hex_digits "0"%char.

(** [hex.EncodeToString]. *)
Fixpoint hex_encode (bs : list Z) : string :=
  match bs with
  | [] => EmptyString
  | b :: bs' => String (hex_chr (Z.shiftr b 4)) (String (hex_chr (Z.land b 15)) (hex_encode bs'))
  end.

Definition md5_hex (raw : string) : string := hex_encode (MD5.sum (bytes_of raw)).

Example md5_empty : md5_hex "" = "d41d8cd98f00b204e9800998ecf8427e"%string.
Proof. vm_compute. reflexivity. Qed.
Example md5_fox : md5_hex "The quick brown fox jumps over the lazy dog, twice over the lazy dog." = "6617bca4e69cf2f638d1c114ba36249f"%string.
Proof. vm_compute. reflexivity. Qed.

(** * CRC-32 *)

Definition crc_bit (c : Z) : Z :=
  if Z.testbit c 0 then Z.lxor (Z.shiftr c 1) 0xedb88320 else Z.shiftr c 1.
Definition crc_byte (c b : Z) : Z := Nat.iter 8 crc_bit (Z.lxor c b).
(** [crc32.ChecksumIEEE]. *)
Definition crc32 (bs : list Z) : Z := Z.lxor (fold_left crc_byte bs 0xffffffff) 0xffffffff.

Example crc_check : crc32 (bytes_of "123456789") = 0xcbf43926.
Proof. vm_compute. reflexivity. Qed.

(** * Shape of the digests *)

Lemma hex_encode_length bs : String.length (hex_encode bs) = (2 * length bs)%nat.
Proof. induction bs; simpl; [done|]. lia. Qed.

Lemma hex_chr_in d : hex_chr d ∈ hex_digits.
Proof.
  unfold hex_chr. destruct (le_lt_dec (length hex_digits) (Z.to_nat d)) as [H|H].
  - rewrite nth_overflow by done. simpl. by left.
  - apply list_elem_of_In, nth_In. done.
Qed.

Lemma md5_sum_length bs : length (MD5.sum bs) = 16%nat.
Proof. unfold MD5.sum. destruct (MD5.blocks _ _ _) as [[[a b] c] d]. done. Qed.

Lemma md5_hex_length s : String.length (md5_hex s) = 32%nat.
Proof. unfold md5_hex. by rewrite hex_encode_length, md5_sum_length. Qed.

(** The two leading characters are hexadecimal digits. *)
Lemma md5_hex_prefix s :
  exists a b t, md5_hex s = String a (String b t) /\ a ∈ hex_digits /\ b ∈ hex_digits.
Proof.
  unfold md5_hex. pose proof (md5_sum_length (bytes_of s)) as H.
  destruct (MD5.sum (bytes_of s)) as [|x l]; [done|].
  do 3 eexists. split; [reflexivity|]. split; apply hex_chr_in.
Qed.

Lemma w32_range z : 0 <= w32 z < 2 ^ 32.
Proof.
  unfold w32. change 0xffffffff with (Z.ones 32). rewrite Z.land_ones by lia.
  apply Z.mod_pos_bound. lia.
Qed.

Lemma bytes_of_nonneg s : Forall (fun b => 0 <= b) (bytes_of s).
Proof. induction s as [|a s IH]; constructor; [unfold byte_of; lia|done]. Qed.

Lemma crc_bit_nonneg c : 0 <= c -> 0 <= crc_bit c.
Proof.
  intros H. unfold crc_bit. destruct (Z.testbit c 0); [|by apply Z.shiftr_nonneg].
  apply Z.lxor_nonneg. split; intros _; [done|by apply Z.shiftr_nonneg].
Qed.

(** A checksum is an unsigned word, at least not negative. *)
Lemma crc32_nonneg s : 0 <= crc32 (bytes_of s).
Proof.
  unfold crc32. apply Z.lxor_nonneg. split; intros _; [done|].
  pose proof (bytes_of_nonneg s) as Hb. revert Hb. assert (0 <= 0xffffffff) as Hc by done. revert Hc.
  generalize 0xffffffff (bytes_of s). intros c l. revert c.
  induction l as [|b l IH]; intros c Hc Hb; [done|]. cbn [fold_left].
  inversion Hb; subst. apply IH; [|done]. unfold crc_byte.
  assert (0 <= Z.lxor c b) as Hx by by apply Z.lxor_nonneg. revert Hx. generalize (Z.lxor c b).
  intros z Hz. cbn [Nat.iter nat_rect]. repeat apply crc_bit_nonneg. done.
Qed.
