(* ===== verification/Utils.v ===== *)
(** The naming of counters: tag strings, primary keys and checksums
    ([common/utils]).  A Go [map[string]string] of tags is a [gmap string
    string]; [nil] and the empty map are read alike by all the code below and
    are both [∅].  The round trips show that a counter's name determines its
    metric and tags as soon as the parts are free of the separators. *)
From S2P Require Export Hash.
From Stdlib Require Import Ascii.
Local Open Scope string_scope.

(** The loop [for j, key := range keys] of [SortedTags]: a comma after every
    key but the last. *)
Fixpoint write_tags (tags : gmap string string) (size j : nat) (keys : list string) : string :=
  match keys with
  | [] => ""
  | key :: ks =>
      key ++s "=" ++s default "" (tags !! key) ++s
      (if (j =? size - 1)%nat then "" else ",") ++s write_tags tags size (S j) ks
  end.

(** Source: common/utils/tags.go, SortedTags. *)
Definition SortedTags (tags : gmap string string) : string :=
  let size := size tags in
  if (size =? 0)%nat then ""
  else if (size =? 1)%nat then
    match map_to_list tags with
    | (k, v) :: _ => k ++s "=" ++s v
    | [] => ""
    end
  else
    let keys := sort_strings (map_to_list tags).*1 in
    write_tags tags size 0 keys.

(** The body of the loop of [DictedTagstring]. *)
Definition dict_tag (d : gmap string string) (tag : string) : gmap string string :=
  match cut "=" tag with Some (k, v) => <[k := v]> d | None => d end.

(** Source: common/utils/tags.go, DictedTagstring. *)
Definition DictedTagstring (s : string) : gmap string string :=
  if is_empty s then ∅
  else
    let s := if has " " s then replace_all s " " "" else s in
    fold_left dict_tag (split s ",") ∅.

(** Source: common/utils/tags.go, ConunterToMetricAndTags. *)
Definition ConunterToMetricAndTags (counter : string) : string * gmap string string :=
  match splitn2 counter "/" with
  | [metric; tagStr] => (metric, DictedTagstring tagStr)
  | _ => (counter, ∅)
  end.

Fixpoint split_tags_loop (tags : gmap string string) (l : list string) : option string * gmap string string :=
  match l with
  | [] => (None, tags)
  | tag :: l' =>
      match splitn2 tag "=" with
      | [k; v] => split_tags_loop (<[k := v]> tags) l'
      | _ => (Some ("bad tag " ++s tag), tags)
      end
  end.

(** Source: common/utils/tags.go, SplitTagsString. The error first, then the tags read so far. *)
Definition SplitTagsString (s : string) : option string * gmap string string :=
  let s := replace_all s " " "" in
  if is_empty s then (None, ∅) else split_tags_loop ∅ (split s ",").

(** Source: common/utils/counter.go, Counter. *)
Definition Counter (metric : string) (tags : gmap string string) : string :=
  if (size tags =? 0)%nat then metric else metric ++s "/" ++s SortedTags tags.

(** Source: common/utils/func.go, CompressStr. [\s] is a tab, a line feed, a form feed, a carriage return or a space. *)
Definition CompressStr (str : string) : string :=
  let ws a := (let n := nat_of_ascii a in Nat.eqb n 9 || Nat.eqb n 10 || Nat.eqb n 12 || Nat.eqb n 13 || Nat.eqb n 32)%bool in
  (fix strip s := match s with "" => "" | String a t => if ws a then strip t else String a (strip t) end) str.

(** Source: common/utils/func.go, PK. *)
Definition PK (endpoint metric : string) (tags : gmap string string) : string :=
  if (size tags =? 0)%nat then endpoint ++s "/" ++s metric
  else endpoint ++s "/" ++s metric ++s "/" ++s SortedTags tags.

(** Source: common/utils/func.go, PK2. *)
Definition PK2 (endpoint counter : string) : string := endpoint ++s "/" ++s counter.

(** Source: common/utils/func.go, UUID. *)
Definition UUID (endpoint metric : string) (tags : gmap string string) (dstype : string) (step : Z) : string :=
  if (size tags =? 0)%nat
  then endpoint ++s "/" ++s metric ++s "/" ++s dstype ++s "/" ++s itoa step
  else endpoint ++s "/" ++s metric ++s "/" ++s SortedTags tags ++s "/" ++s dstype ++s "/" ++s itoa step.

(** Source: common/utils/md5.go, Md5. *)
Definition Md5 (raw : string) : string := md5_hex raw.

(** Source: common/utils/func.go, Checksum. *)
Definition Checksum (endpoint metric : string) (tags : gmap string string) : string :=
  Md5 (PK endpoint metric tags).

(** Source: common/utils/func.go, ChecksumOfUUID. *)
Definition ChecksumOfUUID (endpoint metric : string) (tags : gmap string string) (dstype : string) (step : Z) : string :=
  Md5 (UUID endpoint metric tags dstype step).

(** Source: common/utils/map.go, KeysOfMap. *)
Definition KeysOfMap (m : gmap string string) : list string := sort_strings (map_to_list m).*1.

(** * The cases of the repository's own tests *)

Example SortedTags_test :
  SortedTags {["1" := "1"; "2" := "2"; "0" := "0"]} = "0=0,1=1,2=2".
Proof. vm_compute. reflexivity. Qed.
Example DictedTagstring_test :
  map_to_list (DictedTagstring "0=0, 1=1,=7,2") ≡ₚ [("0", "0"); ("1", "1"); ("", "7")].
Proof. vm_compute. repeat constructor. Qed.
Example UUID_test :
  UUID "endpoint1" "metric1" {["k2" := "v2"; "k1" := "v1"]} "ds" 10 = "endpoint1/metric1/k1=v1,k2=v2/ds/10".
Proof. vm_compute. reflexivity. Qed.

(** * What a name determines *)

(** Tags whose keys and values avoid the separators of the tag syntax. *)
Definition clean_key (s : string) : Prop := has "," s = false /\ has " " s = false /\ has "=" s = false.
Definition clean_val (s : string) : Prop := has "," s = false /\ has " " s = false.
Definition clean_tags (tags : gmap string string) : Prop :=
  map_Forall (fun k v => clean_key k /\ clean_val v) tags.
#[export] Instance clean_key_dec s : Decision (clean_key s).
Proof. unfold clean_key. apply _. Defined.
#[export] Instance clean_val_dec s : Decision (clean_val s).
Proof. unfold clean_val. apply _. Defined.
#[export] Instance clean_tags_dec tags : Decision (clean_tags tags).
Proof. unfold clean_tags. apply _. Defined.

Definition tag_str (kv : string * string) : string := kv.1 ++s "=" ++s kv.2.

(** The tags in the order of their sorted keys. *)
Definition sorted_pairs (tags : gmap string string) : list (string * string) :=
  map (fun k => (k, default "" (tags !! k))) (KeysOfMap tags).

Lemma sorted_pairs_perm tags : sorted_pairs tags ≡ₚ map_to_list tags.
Proof.
  unfold sorted_pairs, KeysOfMap. rewrite sort_strings_perm.
  rewrite <- list_fmap_compose. rewrite <- (list_fmap_id (map_to_list tags)) at 2.
  apply reflexive_eq, list_fmap_ext. intros i [k v] Hi. simpl.
  apply list_elem_of_lookup_2, elem_of_map_to_list in Hi. by rewrite Hi.
Qed.

Lemma write_tags_join tags size keys j :
  j + length keys = size ->
  write_tags tags size j keys = join "," (map (fun k => tag_str (k, default "" (tags !! k))) keys).
Proof.
  revert j; induction keys as [|k keys IH]; intros j Hj; [done|]. cbn [write_tags map].
  rewrite IH by (simpl in Hj; lia). unfold tag_str. cbn [fst snd].
  destruct keys as [|k' keys]; simpl in Hj.
  - replace (j =? size - 1)%nat with true by (symmetry; apply Nat.eqb_eq; lia).
    simpl. by rewrite !sapp_nil_r.
  - replace (j =? size - 1)%nat with false by (symmetry; apply Nat.eqb_neq; lia).
    cbn [map join]. by rewrite !sapp_assoc.
Qed.

(** The three branches of [SortedTags] compute the same function. *)
Lemma SortedTags_join tags : SortedTags tags = join "," (map tag_str (sorted_pairs tags)).
Proof.
  unfold SortedTags. pose proof (sorted_pairs_perm tags) as Hp.
  pose proof (length_map_to_list tags) as Hl.
  destruct (Nat.eqb_spec (size tags) 0) as [H0|H0].
  { rewrite H0 in Hl. apply nil_length_inv in Hl. rewrite Hl in Hp.
    by apply Permutation_nil_r in Hp as ->. }
  destruct (Nat.eqb_spec (size tags) 1) as [H1|H1].
  { rewrite H1 in Hl. destruct (map_to_list tags) as [|[k v] [|? ?]] eqn:E; try done.
    by apply Permutation_singleton_r in Hp as ->. }
  rewrite write_tags_join.
  - unfold sorted_pairs, KeysOfMap. by rewrite map_map.
  - rewrite sort_strings_length, length_fmap. lia.
Qed.

Lemma tag_str_clean tags : clean_tags tags -> Forall (fun s => has "," s = false) (map tag_str (sorted_pairs tags)).
Proof.
  intros Hc. rewrite sorted_pairs_perm. apply Forall_fmap, Forall_forall.
  intros [k v] Hkv%elem_of_map_to_list. specialize (Hc k v Hkv) as [(Hk & _ & _) [Hv _]].
  unfold compose, tag_str. cbn [fst snd]. by rewrite !has_app, Hk, Hv.
Qed.

Lemma has_join c sep l : has c sep = false -> Forall (fun s => has c s = false) l -> has c (join sep l) = false.
Proof.
  intros Hs Hf. induction Hf as [|x l Hx Hf IH]; [done|]. destruct l as [|y l]; [done|].
  change (join sep (x :: y :: l)) with (x ++s sep ++s join sep (y :: l)).
  by rewrite !has_app, Hx, Hs, IH.
Qed.

Lemma SortedTags_no_space tags : clean_tags tags -> has " " (SortedTags tags) = false.
Proof.
  intros Hc. rewrite SortedTags_join. apply has_join; [done|].
  rewrite sorted_pairs_perm. apply Forall_fmap, Forall_forall.
  intros [k v] Hkv%elem_of_map_to_list. specialize (Hc k v Hkv) as [(_ & Hk & _) [_ Hv]].
  unfold compose, tag_str. cbn [fst snd]. by rewrite !has_app, Hk, Hv.
Qed.

Lemma SortedTags_split tags :
  clean_tags tags -> tags <> ∅ -> split (SortedTags tags) "," = map tag_str (sorted_pairs tags).
Proof.
  intros Hc Hne. rewrite SortedTags_join. apply split_join; [|by apply tag_str_clean].
  intros Hnil. apply Hne, map_to_list_empty_iff, Permutation_nil_r.
  rewrite <- sorted_pairs_perm. by destruct (sorted_pairs tags).
Qed.

Lemma SortedTags_nonempty tags : tags <> ∅ -> SortedTags tags <> "".
Proof.
  intros Hne. rewrite SortedTags_join. pose proof (sorted_pairs_perm tags) as Hp.
  destruct (sorted_pairs tags) as [|[k v] l].
  { apply Permutation_nil_l in Hp. symmetry in Hp. by apply map_to_list_empty_iff in Hp. }
  destruct l as [|y l]; simpl; unfold tag_str; cbn [fst snd]; destruct k; done.
Qed.

Lemma cut_tag_str k v : has "=" k = false -> cut "=" (tag_str (k, v)) = Some (k, v).
Proof. intros. unfold tag_str. cbn [fst snd]. change ("=" ++s v) with (String "=" v). by rewrite cut_app. Qed.

Lemma fold_dict_tag tags (d : gmap string string) l :
  clean_tags tags -> l ⊆ map_to_list tags ->
  fold_left dict_tag (map tag_str l) d = fold_left (fun d kv => <[kv.1 := kv.2]> d) l d.
Proof.
  intros Hc. revert d; induction l as [|[k v] l IH]; intros d Hl; [done|]. cbn [map fold_left].
  assert (tags !! k = Some v) as Hkv by (apply elem_of_map_to_list, Hl; by left).
  destruct (Hc k v Hkv) as [(_ & _ & Hk) _].
  unfold dict_tag at 2. rewrite cut_tag_str by done.
  apply IH. intros x Hx. apply Hl. by right.
Qed.

Lemma fold_sorted_pairs tags :
  fold_left (fun d kv => <[kv.1 := kv.2]> d) (sorted_pairs tags) (∅ : gmap string string) = tags.
Proof.
  pose proof (sorted_pairs_perm tags) as Hp.
  assert (NoDup (sorted_pairs tags).*1) as Hnd by (rewrite Hp; apply NoDup_fst_map_to_list).
  rewrite fold_insert_union; [|done|intros; apply lookup_empty].
  rewrite (right_id_L ∅ (∪)). rewrite (list_to_map_proper _ (map_to_list tags)); [|done|done].
  apply list_to_map_to_list.
Qed.

Lemma dicted_sorted tags : clean_tags tags -> DictedTagstring (SortedTags tags) = tags.
Proof.
  intros Hc. unfold DictedTagstring. destruct (decide (tags = ∅)) as [->|Hne]; [reflexivity|].
  destruct (is_empty (SortedTags tags)) eqn:E.
  { by apply SortedTags_nonempty in Hne; destruct (SortedTags tags). }
  rewrite SortedTags_no_space, SortedTags_split by done.
  rewrite (fold_dict_tag tags) by (done || by rewrite sorted_pairs_perm).
  apply fold_sorted_pairs.
Qed.

Lemma SortedTags_inj t1 t2 : clean_tags t1 -> clean_tags t2 -> SortedTags t1 = SortedTags t2 -> t1 = t2.
Proof.
  intros H1 H2 H. rewrite <- (dicted_sorted t1), <- (dicted_sorted t2) by done.
  by rewrite H.
Qed.

Lemma split_tags_loop_pairs tags d l :
  clean_tags tags -> l ⊆ map_to_list tags ->
  split_tags_loop d (map tag_str l) = (None, fold_left (fun d kv => <[kv.1 := kv.2]> d) l d).
Proof.
  intros Hc. revert d; induction l as [|[k v] l IH]; intros d Hl; [done|]. cbn [map fold_left split_tags_loop].
  assert (tags !! k = Some v) as Hkv by (apply elem_of_map_to_list, Hl; by left).
  destruct (Hc k v Hkv) as [(_ & _ & Hk) _].
  unfold splitn2. rewrite cut_tag_str by done.
  apply IH. intros x Hx. apply Hl. by right.
Qed.

Lemma split_tags_sorted tags : clean_tags tags -> SplitTagsString (SortedTags tags) = (None, tags).
Proof.
  intros Hc. unfold SplitTagsString. rewrite replace_all_absent by by apply SortedTags_no_space.
  destruct (decide (tags = ∅)) as [->|Hne]; [reflexivity|].
  destruct (is_empty (SortedTags tags)) eqn:E.
  { by apply SortedTags_nonempty in Hne; destruct (SortedTags tags). }
  rewrite SortedTags_split by done.
  rewrite (split_tags_loop_pairs tags) by (done || by rewrite sorted_pairs_perm).
  by rewrite fold_sorted_pairs.
Qed.

(** * Names are injective *)

Definition slash_free (s : string) : Prop := has "/" s = false.
#[export] Instance slash_free_dec s : Decision (slash_free s).
Proof. unfold slash_free. apply _. Defined.

Lemma size_zero_iff (tags : gmap string string) : (size tags =? 0)%nat = true <-> tags = ∅.
Proof. rewrite Nat.eqb_eq. apply map_size_empty_iff. Qed.

Lemma cut_slash a b : slash_free a -> cut "/" (a ++s "/" ++s b) = Some (a, b).
Proof. intros. change ("/" ++s b) with (String "/" b). by apply cut_app. Qed.

Lemma Counter_cut m tags :
  slash_free m ->
  cut "/" (Counter m tags) = if (size tags =? 0)%nat then None else Some (m, SortedTags tags).
Proof.
  intros Hm. unfold Counter. destruct (size tags =? 0)%nat; [by apply cut_none|by apply cut_slash].
Qed.

Lemma PK_counter e m tags : PK e m tags = PK2 e (Counter m tags).
Proof. unfold PK, PK2, Counter. by destruct (size tags =? 0)%nat. Qed.

Lemma PK2_inj e1 e2 c1 c2 : slash_free e1 -> slash_free e2 -> PK2 e1 c1 = PK2 e2 c2 -> e1 = e2 /\ c1 = c2.
Proof.
  unfold PK2. intros H1 H2 H. pose proof (cut_slash e1 c1 H1) as E1. pose proof (cut_slash e2 c2 H2) as E2.
  rewrite H in E1. rewrite E1 in E2. by simplify_eq.
Qed.

Lemma Counter_inj m1 m2 t1 t2 :
  slash_free m1 -> slash_free m2 -> clean_tags t1 -> clean_tags t2 ->
  Counter m1 t1 = Counter m2 t2 -> m1 = m2 /\ t1 = t2.
Proof.
  intros Hm1 Hm2 Ht1 Ht2 H.
  pose proof (Counter_cut m1 t1 Hm1) as E1. pose proof (Counter_cut m2 t2 Hm2) as E2.
  rewrite H, E2 in E1. unfold Counter in H.
  destruct (size t1 =? 0)%nat eqn:Z1, (size t2 =? 0)%nat eqn:Z2; try done.
  - split; [done|]. apply size_zero_iff in Z1 as ->. by apply size_zero_iff in Z2 as ->.
  - injection E1 as E1 E3. split; [done|]. by apply SortedTags_inj.
Qed.

Lemma UUID_suffix e m tags d1 d2 s1 s2 :
  slash_free d1 -> slash_free d2 -> in_i64 s1 -> in_i64 s2 ->
  UUID e m tags d1 s1 = UUID e m tags d2 s2 -> d1 = d2 /\ s1 = s2.
Proof.
  intros Hd1 Hd2 Hs1 Hs2 H.
  assert (d1 ++s "/" ++s itoa s1 = d2 ++s "/" ++s itoa s2) as Hd.
  { unfold UUID in H. destruct (size tags =? 0)%nat;
      repeat (apply sapp_cancel in H); done. }
  pose proof (cut_slash d1 (itoa s1) Hd1) as E1. pose proof (cut_slash d2 (itoa s2) Hd2) as E2.
  rewrite Hd, E2 in E1. injection E1 as -> E. split; [done|]. symmetry in E. by apply itoa_inj.
Qed.

(** ** Properties *)

(** Printing tags and reading them back is the identity, with either
    reader, on every tag map whose keys and values are free of commas and
    spaces and whose keys are free of equal signs. *)
Theorem tags_roundtrip tags :
  clean_tags tags ->
  DictedTagstring (SortedTags tags) = tags /\ SplitTagsString (SortedTags tags) = (None, tags).
Proof. intros H. split; [by apply dicted_sorted|by apply split_tags_sorted]. Qed.

Lemma tags_roundtrip_witness :
  DictedTagstring (SortedTags {["project" := "falcon"; "module" := "judge"; "port" := "a=b"]})
    = {["project" := "falcon"; "module" := "judge"; "port" := "a=b"]} /\
  SplitTagsString (SortedTags {["project" := "falcon"; "module" := "judge"; "port" := "a=b"]})
    = (None, {["project" := "falcon"; "module" := "judge"; "port" := "a=b"]}).
Proof. apply tags_roundtrip. by_compute. Defined.

(** The primary key of a series determines its endpoint, its metric and
    its tags: two series share a history, a judge node or a graph node by name
    only if they are the same series. *)
Theorem PK_injective e1 e2 m1 m2 t1 t2 :
  slash_free e1 -> slash_free e2 -> slash_free m1 -> slash_free m2 -> clean_tags t1 -> clean_tags t2 ->
  PK e1 m1 t1 = PK e2 m2 t2 -> e1 = e2 /\ m1 = m2 /\ t1 = t2.
Proof.
  intros He1 He2 Hm1 Hm2 Ht1 Ht2. rewrite !PK_counter. intros H.
  apply PK2_inj in H as [-> H]; [|done..]. by apply Counter_inj in H as [-> ->].
Qed.

Lemma PK_injective_witness :
  ("h1" = "h1" /\ "cpu" = "cpu" /\ {["a" := "1"; "b" := "2"]} = (<["b" := "2"]> {["a" := "1"]} : gmap string string)).
Proof. apply PK_injective; by_compute. Defined.

(** A counter's name splits back into its metric and its tags. *)
Theorem counter_roundtrip m tags :
  slash_free m -> clean_tags tags -> ConunterToMetricAndTags (Counter m tags) = (m, tags).
Proof.
  intros Hm Ht. unfold ConunterToMetricAndTags, splitn2. rewrite Counter_cut by done.
  destruct (size tags =? 0)%nat eqn:E.
  - apply size_zero_iff in E as ->. done.
  - by rewrite dicted_sorted.
Qed.

Lemma counter_roundtrip_witness :
  ConunterToMetricAndTags (Counter "df.bytes.free" {["mount" := "/home"; "fstype" := "ext4"]})
  = ("df.bytes.free", {["mount" := "/home"; "fstype" := "ext4"]}).
Proof. apply counter_roundtrip; by_compute. Defined.
