(* ===== verification/Model.v ===== *)
(** The messages the modules exchange ([common/model]): metric values as they
    are pushed, the items sent to the judge and to the graph, strategies,
    expressions, templates and alarm events, with the accessors of [Event].
    A Go pointer field is an [option]; reading through [nil] panics. *)
From S2P Require Export GoFloat Utils.
Local Open Scope string_scope.

Notation tagmap := (gmap string string).

(** * Items *)

(** Source: common/model/metric.go, type MetricValue. The interface value is one of the dynamic types the receiver tells apart. *)
Inductive value :=
  | VString (s : string)
  | VFloat (f : f64)
  | VInt (z : Z)
  | VOther.

(** Source: common/model/metric.go, type MetricValue. *)
Record MetricValue := mkMetricValue {
  mv_Endpoint : string; mv_Metric : string; mv_Value : value; mv_Step : Z;
  mv_Type : string; mv_Tags : string; mv_Timestamp : Z }.

(** Source: common/model/metric.go, type MetaData. *)
Record MetaData := mkMetaData {
  md_Metric : string; md_Endpoint : string; md_Timestamp : Z; md_Step : Z;
  md_Value : f64; md_CounterType : string; md_Tags : tagmap }.

(** Source: common/model/metric.go, type JsonMetaData. *)
Record JsonMetaData := mkJsonMetaData {
  jm_Metric : string; jm_Endpoint : string; jm_Timestamp : Z; jm_Step : Z;
  jm_Value : value; jm_CounterType : string; jm_Tags : string }.

(** Source: common/model/metric.go, MetaData.PK. *)
Definition MetaData_PK (t : MetaData) : string := PK (md_Endpoint t) (md_Metric t) (md_Tags t).

(** Source: common/model/judge.go, type JudgeItem. *)
Record JudgeItem := mkJudgeItem {
  ji_Endpoint : string; ji_Metric : string; ji_Value : f64; ji_Timestamp : Z;
  ji_JudgeType : string; ji_Tags : tagmap }.

(** Source: common/model/judge.go, JudgeItem.PrimaryKey. *)
Definition JudgeItem_PrimaryKey (i : JudgeItem) : string :=
  Md5 (PK (ji_Endpoint i) (ji_Metric i) (ji_Tags i)).

(** Source: common/model/judge.go, type HistoryData. *)
Record HistoryData := mkHistoryData { hd_Timestamp : Z; hd_Value : f64 }.

(** Source: common/model/graph.go, type GraphItem. *)
Record GraphItem := mkGraphItem {
  gi_Endpoint : string; gi_Metric : string; gi_Tags : tagmap; gi_Value : f64;
  gi_Timestamp : Z; gi_DsType : string; gi_Step : Z; gi_Heartbeat : Z;
  gi_Min : string; gi_Max : string }.

(** The zero value of [GraphItem]. *)
Definition GraphItem_zero : GraphItem := mkGraphItem "" "" ∅ fzero 0 "" 0 0 "" "".

(** Source: common/model/graph.go, GraphItem.PrimaryKey. *)
Definition GraphItem_PrimaryKey (i : GraphItem) : string := PK (gi_Endpoint i) (gi_Metric i) (gi_Tags i).
(** Source: common/model/graph.go, GraphItem.Checksum. *)
Definition GraphItem_Checksum (i : GraphItem) : string := Checksum (gi_Endpoint i) (gi_Metric i) (gi_Tags i).
(** Source: common/model/graph.go, GraphItem.UUID. *)
Definition GraphItem_UUID (i : GraphItem) : string :=
  UUID (gi_Endpoint i) (gi_Metric i) (gi_Tags i) (gi_DsType i) (gi_Step i).

(** Source: common/model/graph.go, type RRDData. *)
Record RRDData := mkRRDData { rd_Timestamp : Z; rd_Value : f64 }.
(** Source: common/model/graph.go, type GraphLastResp. *)
Record GraphLastResp := mkLastResp { gl_Endpoint : string; gl_Counter : string; gl_Value : option RRDData }.
(** Source: common/model/graph.go, NewRRDData. *)
Definition NewRRDData (ts : Z) (val : f64) : RRDData := mkRRDData ts val.

(** Source: common/model/tsdb.go, type TsdbItem. *)
Record TsdbItem := mkTsdbItem { ts_Metric : string; ts_Tags : tagmap; ts_Value : f64; ts_Timestamp : Z }.

(** Source: common/model/poly.go, type PolyRequest. *)
Record PolyRequest := mkPolyRequest {
  pr_PolyName : string; pr_EndPoint : string; pr_Type : string; pr_Value : f64 }.

(** Source: common/model/kafka.go, type KafkaData. *)
Record KafkaData := mkKafkaData {
  kd_Endpoint : string; kd_Timestamp : Z; kd_MetricValue : gmap string f64 }.

#[export] Instance MetaData_eq_dec : EqDecision MetaData. Proof. solve_decision. Defined.
#[export] Instance JudgeItem_eq_dec : EqDecision JudgeItem. Proof. solve_decision. Defined.
#[export] Instance HistoryData_eq_dec : EqDecision HistoryData. Proof. solve_decision. Defined.
#[export] Instance GraphItem_eq_dec : EqDecision GraphItem. Proof. solve_decision. Defined.
#[export] Instance RRDData_eq_dec : EqDecision RRDData. Proof. solve_decision. Defined.
#[export] Instance PolyRequest_eq_dec : EqDecision PolyRequest. Proof. solve_decision. Defined.

(** * Alarm rules *)

(** Source: common/model/template.go, type Template. *)
Record Template := mkTemplate {
  tpl_Id : Z; tpl_Name : string; tpl_ParentId : Z; tpl_ActionId : Z; tpl_Creator : string }.

(** Source: common/model/strategy.go, type Strategy. *)
Record Strategy := mkStrategy {
  st_Id : Z; st_Metric : string; st_Tags : tagmap; st_Func : string; st_Operator : string;
  st_RightValue : f64; st_MaxStep : Z; st_Priority : Z; st_Note : string;
  st_Tpl : option Template; st_UnionStrategyId : Z }.

(** Source: common/model/expression.go, type Expression. *)
Record Expression := mkExpression {
  ex_Id : Z; ex_Metric : string; ex_Tags : tagmap; ex_Func : string; ex_Operator : string;
  ex_RightValue : f64; ex_MaxStep : Z; ex_Priority : Z; ex_Note : string; ex_ActionId : Z }.

#[export] Instance Template_eq_dec : EqDecision Template. Proof. solve_decision. Defined.
#[export] Instance Strategy_eq_dec : EqDecision Strategy. Proof. solve_decision. Defined.
#[export] Instance Expression_eq_dec : EqDecision Expression. Proof. solve_decision. Defined.

(** * Events *)

(** The two values of [Event.Status]. *)
Definition PROBLEM : string := "PROBLEM".
Definition OK : string := "OK".

(** Source: common/model/event.go, type Event. *)
Inductive Event := mkEvent {
  ev_Id : string; ev_Strategy : option Strategy; ev_Expression : option Expression;
  ev_Status : string; ev_Endpoint : string; ev_LeftValue : f64; ev_CurrentStep : Z;
  ev_EventTime : Z; ev_PushedTags : tagmap; ev_EventChain : list Event }.

Definition set_Status (s : string) (e : Event) : Event :=
  mkEvent (ev_Id e) (ev_Strategy e) (ev_Expression e) s (ev_Endpoint e) (ev_LeftValue e)
    (ev_CurrentStep e) (ev_EventTime e) (ev_PushedTags e) (ev_EventChain e).
Definition set_CurrentStep (n : Z) (e : Event) : Event :=
  mkEvent (ev_Id e) (ev_Strategy e) (ev_Expression e) (ev_Status e) (ev_Endpoint e) (ev_LeftValue e)
    n (ev_EventTime e) (ev_PushedTags e) (ev_EventChain e).
Definition set_EventChain (c : list Event) (e : Event) : Event :=
  mkEvent (ev_Id e) (ev_Strategy e) (ev_Expression e) (ev_Status e) (ev_Endpoint e) (ev_LeftValue e)
    (ev_CurrentStep e) (ev_EventTime e) (ev_PushedTags e) c.

(** A field that an event takes from its strategy, or else from its
    expression: the shape of the accessors below. *)
Definition from_rule {A} (e : Event) (fs : Strategy -> A) (fe : Expression -> A) : res A :=
  match ev_Strategy e with
  | Some s => Ret (fs s)
  | None => let! x := deref (ev_Expression e) in Ret (fe x)
  end.

(** Source: common/model/event.go, Event.ExpressionId. *)
Definition Event_ExpressionId (e : Event) : Z :=
  match ev_Expression e with Some x => ex_Id x | None => 0 end.
(** Source: common/model/event.go, Event.StrategyId. *)
Definition Event_StrategyId (e : Event) : Z :=
  match ev_Strategy e with Some s => st_Id s | None => 0 end.
(** Source: common/model/event.go, Event.TplId. *)
Definition Event_TplId (e : Event) : res Z :=
  match ev_Strategy e with
  | Some s => let! t := deref (st_Tpl s) in Ret (tpl_Id t)
  | None => Ret 0%Z
  end.
(** Source: common/model/event.go, Event.Tpl. *)
Definition Event_Tpl (e : Event) : option Template :=
  match ev_Strategy e with Some s => st_Tpl s | None => None end.
(** Source: common/model/event.go, Event.ActionId. *)
Definition Event_ActionId (e : Event) : res Z :=
  match ev_Expression e with
  | Some x => Ret (ex_ActionId x)
  | None =>
      let! s := deref (ev_Strategy e) in
      let! t := deref (st_Tpl s) in Ret (tpl_ActionId t)
  end.
(** Source: common/model/event.go, Event.Priority. *)
Definition Event_Priority (e : Event) : res Z := from_rule e st_Priority ex_Priority.
(** Source: common/model/event.go, Event.Note. *)
Definition Event_Note (e : Event) : res string := from_rule e st_Note ex_Note.
(** Source: common/model/event.go, Event.Metric. *)
Definition Event_Metric (e : Event) : res string :=
  match ev_Strategy e with
  | Some s =>
      fold_res (fun oS c => let! cs := deref (ev_Strategy c) in Ret (oS ++s "," ++s st_Metric cs))
        (st_Metric s) (ev_EventChain e)
  | None => let! x := deref (ev_Expression e) in Ret (ex_Metric x)
  end.
(** Source: common/model/event.go, Event.RightValue. *)
Definition Event_RightValue (e : Event) : res f64 := from_rule e st_RightValue ex_RightValue.
(** Source: common/model/event.go, Event.Operator. *)
Definition Event_Operator (e : Event) : res string := from_rule e st_Operator ex_Operator.
(** Source: common/model/event.go, Event.Func. *)
Definition Event_Func (e : Event) : res string := from_rule e st_Func ex_Func.
(** Source: common/model/event.go, Event.MaxStep. *)
Definition Event_MaxStep (e : Event) : res Z := from_rule e st_MaxStep ex_MaxStep.
(** Source: common/model/event.go, Event.Counter. *)
Definition Event_Counter (e : Event) : res string :=
  let! m := Event_Metric e in
  Ret (ev_Endpoint e ++s "/" ++s m ++s " " ++s SortedTags (ev_PushedTags e)).
