(* ===== verification/JudgeFunc.v ===== *)
(** The judge's histories and threshold functions
    ([modules/judge/store/linkedlist.go], [func.go]).  A history is the list
    of the items of one series, newest first; [HistoryData] turns it into the
    points a function looks at (values for gauges, rates for counters), and
    [Compute] of each function decides whether an alarm triggers. *)
From S2P Require Export Model.
From Stdlib Require Import Ascii.
Local Open Scope string_scope.

(** Source: modules/judge/store/linkedlist.go, type SafeLinkedList. The front of the list comes first. *)
Abbreviation SafeLinkedList := (list JudgeItem).

(** * Histories *)

(** Source: modules/judge/store/linkedlist.go, SafeLinkedList.Front. *)
Definition Front (L : SafeLinkedList) : option JudgeItem := head L.
(** Source: modules/judge/store/linkedlist.go, SafeLinkedList.Len. *)
Definition Len (L : SafeLinkedList) : Z := Z.of_nat (length L).
(** Source: modules/judge/store/linkedlist.go, SafeLinkedList.ToSlice. *)
Definition ToSlice (L : SafeLinkedList) : list JudgeItem := L.
(** Source: modules/judge/store/linkedlist.go, SafeLinkedList.PushFront. *)
Definition PushFront (v : JudgeItem) (L : SafeLinkedList) : SafeLinkedList := v :: L.

(** [for i := 0; i < del; i++ { L.Remove(L.Back()) }]. *)
Fixpoint remove_back (del : nat) (L : SafeLinkedList) : res SafeLinkedList :=
  match del with
  | O => Ret L
  | S d => match L with [] => Panic NilDeref | _ => remove_back d (removelast L) end
  end.

(** Source: modules/judge/store/linkedlist.go, SafeLinkedList.PushFrontAndMaintain. *)
Definition PushFrontAndMaintain (v : JudgeItem) (maxCount : Z) (L : SafeLinkedList) : res (SafeLinkedList * bool) :=
  let sz := Len L in
  if match L with
     | [] => false
     | f :: _ => ((ji_Timestamp v <=? ji_Timestamp f) || (ji_Timestamp v <=? 0))%Z
     end
  then Ret (L, false)
  else
    let L := v :: L in
    let sz := (sz + 1)%Z in
    if (sz <=? maxCount)%Z then Ret (L, true)
    else
      let del := Z.to_nat (sz -! maxCount) in
      let! L := remove_back del L in Ret (L, true).

Definition gauge_point (i : JudgeItem) : HistoryData := mkHistoryData (ji_Timestamp i) (ji_Value i).
(** The rate between an item and the one before it. *)
Definition counter_point (cur next : JudgeItem) : HistoryData :=
  let diffVal := fsub (ji_Value cur) (ji_Value next) in
  let diffTs := (ji_Timestamp cur -! ji_Timestamp next)%Z in
  mkHistoryData (ji_Timestamp cur) (fdiv diffVal (f64_of_Z diffTs)).

(** The two copying loops: [n] further elements after the current one. *)
Fixpoint gauge_loop (n : nat) (rest : list JudgeItem) : res (list HistoryData) :=
  match n with
  | O => Ret []
  | S n' =>
      match rest with
      | [] => Panic NilDeref
      | next :: rest' => let! vs := gauge_loop n' rest' in Ret (gauge_point next :: vs)
      end
  end.
Fixpoint counter_loop (n : nat) (cur : JudgeItem) (rest : list JudgeItem) : res (list HistoryData) :=
  match n with
  | O => Ret []
  | S n' =>
      match rest with
      | [] => Panic NilDeref
      | next :: rest' => let! vs := counter_loop n' next rest' in Ret (counter_point cur next :: vs)
      end
  end.

Definition is_gauge (judgeType : ascii) : bool := Ascii.eqb judgeType "G" || Ascii.eqb judgeType "g".

(** Source: modules/judge/store/linkedlist.go, lines 62-122. The body, which may panic. Symbol: SafeLinkedList.HistoryData. *)
Definition HistoryData_body (L : SafeLinkedList) (limit : Z) : res (list HistoryData * bool) :=
  if (limit <? 1)%Z then Ret ([], false)
  else
    let size := Len L in
    match L with
    | [] => Ret ([], false)
    | firstItem :: rest =>
        let! judgeType := first_byte (ji_JudgeType firstItem) in
        if is_gauge judgeType then
          let '(limit, isEnough) := if (size <? limit)%Z then (size, false) else (limit, true) in
          if negb (make_ok limit) then Panic MakeLen
          else
            let! vs := gauge_loop (Z.to_nat (limit - 1)) rest in
            Ret (gauge_point firstItem :: vs, isEnough)
        else
          let '(limit, isEnough) := if (size <? limit +! 1)%Z then (size - 1, false)%Z else (limit, true) in
          if negb (make_ok limit) then Panic MakeLen
          else
            let! vs := counter_loop (Z.to_nat limit) firstItem rest in
            Ret (vs, isEnough)
    end.

(** Source: modules/judge/store/linkedlist.go, SafeLinkedList.HistoryData. The deferred [recover] turns a panic into the zero results. *)
Definition HistoryData_of (L : SafeLinkedList) (limit : Z) : list HistoryData * bool :=
  match HistoryData_body L limit with Ret r => r | Panic _ => ([], false) end.

(** * Threshold functions *)

(** Source: modules/judge/store/func.go, checkIsTriggered. *)
Definition checkIsTriggered (leftValue : f64) (operator : string) (rightValue : f64) : bool :=
  if String.eqb operator "=" || String.eqb operator "==" then
    flt (fabs (fsub leftValue rightValue)) (f64_dec 1 4)
  else if String.eqb operator "!=" then
    flt (f64_dec 1 4) (fabs (fsub leftValue rightValue))
  else if String.eqb operator "<" then flt leftValue rightValue
  else if String.eqb operator "<=" then fle leftValue rightValue
  else if String.eqb operator ">" then flt rightValue leftValue
  else if String.eqb operator ">=" then fle rightValue leftValue
  else false.

(** What [Compute] returns: [vs], [leftValue], [isTriggered], [isEnough]. *)
Record computed := mkComputed {
  c_vs : list HistoryData; c_leftValue : f64; c_isTriggered : bool; c_isEnough : bool }.
Definition not_enough (vs : list HistoryData) : computed := mkComputed vs fzero false false.

(** A [for i := i0; i < i0 + n; i++] loop over [vs[i].Value] with an accumulator. *)
Fixpoint values_loop {A} (f : A -> f64 -> A) (vs : list HistoryData) (i : Z) (n : nat) (acc : A) : res A :=
  match n with
  | O => Ret acc
  | S n' => let! v := at_index vs i in values_loop f vs (i + 1) n' (f acc (hd_Value v))
  end.

(** The same with [break]: [inr] ends the loop. *)
Fixpoint break_loop {A} (f : A -> f64 -> A + A) (vs : list HistoryData) (i : Z) (n : nat) (acc : A) : res A :=
  match n with
  | O => Ret acc
  | S n' =>
      let! v := at_index vs i in
      match f acc (hd_Value v) with
      | inl acc' => break_loop f vs (i + 1) n' acc'
      | inr acc' => Ret acc'
      end
  end.

(** Source: modules/judge/store/func.go, MaxFunction.Compute. *)
Definition Max_Compute (Limit : Z) (Operator : string) (RightValue : f64) (L : SafeLinkedList) : res computed :=
  let '(vs, isEnough) := HistoryData_of L Limit in
  if negb isEnough then Ret (not_enough vs)
  else
    let! v0 := at_index vs 0 in
    let! leftValue := values_loop (fun max v => if flt max v then v else max) vs 1 (Z.to_nat (Limit - 1)) (hd_Value v0) in
    Ret (mkComputed vs leftValue (checkIsTriggered leftValue Operator RightValue) true).

(** Source: modules/judge/store/func.go, MinFunction.Compute. *)
Definition Min_Compute (Limit : Z) (Operator : string) (RightValue : f64) (L : SafeLinkedList) : res computed :=
  let '(vs, isEnough) := HistoryData_of L Limit in
  if negb isEnough then Ret (not_enough vs)
  else
    let! v0 := at_index vs 0 in
    let! leftValue := values_loop (fun min v => if flt v min then v else min) vs 1 (Z.to_nat (Limit - 1)) (hd_Value v0) in
    Ret (mkComputed vs leftValue (checkIsTriggered leftValue Operator RightValue) true).

(** Source: modules/judge/store/func.go, AllFunction.Compute. *)
Definition All_Compute (Limit : Z) (Operator : string) (RightValue : f64) (L : SafeLinkedList) : res computed :=
  let '(vs, isEnough) := HistoryData_of L Limit in
  if negb isEnough then Ret (not_enough vs)
  else
    let! isTriggered := break_loop
      (fun _ v => let t := checkIsTriggered v Operator RightValue in if t then inl true else inr false)
      vs 0 (Z.to_nat Limit) true in
    let! v0 := at_index vs 0 in
    Ret (mkComputed vs (hd_Value v0) isTriggered true).

(** Source: modules/judge/store/func.go, LookupFunction.Compute. *)
Definition Lookup_Compute (Num Limit : Z) (Operator : string) (RightValue : f64) (L : SafeLinkedList) : res computed :=
  let '(vs, isEnough) := HistoryData_of L Limit in
  if negb isEnough then Ret (not_enough vs)
  else
    let! v0 := at_index vs 0 in
    let! (_, isTriggered) := break_loop
      (fun '(n, t) v =>
         if checkIsTriggered v Operator RightValue
         then let n := (n + 1)%Z in if (n =? Num)%Z then inr (n, true) else inl (n, t)
         else inl (n, t))
      vs 0 (Z.to_nat Limit) (0%Z, false) in
    Ret (mkComputed vs (hd_Value v0) isTriggered true).

(** Source: modules/judge/store/func.go, SumFunction.Compute. *)
Definition Sum_Compute (Limit : Z) (Operator : string) (RightValue : f64) (L : SafeLinkedList) : res computed :=
  let '(vs, isEnough) := HistoryData_of L Limit in
  if negb isEnough then Ret (not_enough vs)
  else
    let! leftValue := values_loop fadd vs 0 (Z.to_nat Limit) fzero in
    Ret (mkComputed vs leftValue (checkIsTriggered leftValue Operator RightValue) true).

(** Source: modules/judge/store/func.go, AvgFunction.Compute. *)
Definition Avg_Compute (Limit : Z) (Operator : string) (RightValue : f64) (L : SafeLinkedList) : res computed :=
  let '(vs, isEnough) := HistoryData_of L Limit in
  if negb isEnough then Ret (not_enough vs)
  else
    let! sum := values_loop fadd vs 0 (Z.to_nat Limit) fzero in
    let leftValue := fdiv sum (f64_of_Z Limit) in
    Ret (mkComputed vs leftValue (checkIsTriggered leftValue Operator RightValue) true).

(** Source: modules/judge/store/func.go, DiffFunction.Compute. *)
Definition Diff_Compute (Limit : Z) (Operator : string) (RightValue : f64) (L : SafeLinkedList) : res computed :=
  let '(vs, isEnough) := HistoryData_of L (Limit +! 1) in
  if negb isEnough then Ret (not_enough vs)
  else if (length vs =? 0)%nat then Ret (not_enough vs)
  else
    let! v0 := at_index vs 0 in
    let first := hd_Value v0 in
    let! (leftValue, isTriggered) := break_loop
      (fun '(_, _) v =>
         let leftValue := fsub first v in
         if checkIsTriggered leftValue Operator RightValue then inr (leftValue, true) else inl (leftValue, false))
      vs 1 (Z.to_nat Limit) (fzero, false) in
    Ret (mkComputed vs leftValue isTriggered true).

(** Source: modules/judge/store/func.go, PDiffFunction.Compute. *)
Definition PDiff_Compute (Limit : Z) (Operator : string) (RightValue : f64) (L : SafeLinkedList) : res computed :=
  let '(vs, isEnough) := HistoryData_of L (Limit +! 1) in
  if negb isEnough then Ret (not_enough vs)
  else if (length vs =? 0)%nat then Ret (not_enough vs)
  else
    let! v0 := at_index vs 0 in
    let first := hd_Value v0 in
    let! (leftValue, isTriggered) := break_loop
      (fun '(l, t) v =>
         if feq v fzero then inl (l, t)
         else
           let leftValue := fmul (fdiv (fsub first v) v) (f64_of_Z 100) in
           if checkIsTriggered leftValue Operator RightValue then inr (leftValue, true) else inl (leftValue, false))
      vs 1 (Z.to_nat Limit) (fzero, false) in
    Ret (mkComputed vs leftValue isTriggered true).

(** Source: modules/judge/store/func.go, type Function. One constructor per implementation. *)
Inductive Function :=
  | MaxFunction (Limit : Z) (Operator : string) (RightValue : f64)
  | MinFunction (Limit : Z) (Operator : string) (RightValue : f64)
  | AllFunction (Limit : Z) (Operator : string) (RightValue : f64)
  | LookupFunction (Num Limit : Z) (Operator : string) (RightValue : f64)
  | SumFunction (Limit : Z) (Operator : string) (RightValue : f64)
  | AvgFunction (Limit : Z) (Operator : string) (RightValue : f64)
  | DiffFunction (Limit : Z) (Operator : string) (RightValue : f64)
  | PDiffFunction (Limit : Z) (Operator : string) (RightValue : f64).

Definition Compute (fn : Function) (L : SafeLinkedList) : res computed :=
  match fn with
  | MaxFunction n o r => Max_Compute n o r L
  | MinFunction n o r => Min_Compute n o r L
  | AllFunction n o r => All_Compute n o r L
  | LookupFunction k n o r => Lookup_Compute k n o r L
  | SumFunction n o r => Sum_Compute n o r L
  | AvgFunction n o r => Avg_Compute n o r L
  | DiffFunction n o r => Diff_Compute n o r L
  | PDiffFunction n o r => PDiff_Compute n o r L
  end.

(** Source: modules/judge/store/func.go, atois. [None] is the conversion error. *)
Definition atois (s : string) : option (list Z) := mapM atoi (split s ",").

(** Source: modules/judge/store/func.go, ParseFuncFromString. [inl] is the returned error. *)
Definition ParseFuncFromString (str operator : string) (rightValue : f64) : res (string + Function) :=
  if is_empty str then Ret (inl "func can not be null!")
  else
    let idx := str_index str "#" in
    let! body := slice str (idx + 1) (slen str - 1) in
    match atois body with
    | None => Ret (inl "strconv.Atoi: parsing")
    | Some args =>
        let! name := slice str 0 (idx - 1) in
        if String.eqb name "max" then let! a := at_index args 0 in Ret (inr (MaxFunction a operator rightValue))
        else if String.eqb name "min" then let! a := at_index args 0 in Ret (inr (MinFunction a operator rightValue))
        else if String.eqb name "all" then let! a := at_index args 0 in Ret (inr (AllFunction a operator rightValue))
        else if String.eqb name "sum" then let! a := at_index args 0 in Ret (inr (SumFunction a operator rightValue))
        else if String.eqb name "avg" then let! a := at_index args 0 in Ret (inr (AvgFunction a operator rightValue))
        else if String.eqb name "diff" then let! a := at_index args 0 in Ret (inr (DiffFunction a operator rightValue))
        else if String.eqb name "pdiff" then let! a := at_index args 0 in Ret (inr (PDiffFunction a operator rightValue))
        else if String.eqb name "lookup" then
          let! n := at_index args 0 in
          let! a := at_index args 1 in
          Ret (inr (LookupFunction n a operator rightValue))
        else Ret (inl "not_supported_method")
    end.

Example parse_all : ParseFuncFromString "all(#3)" ">" fzero = Ret (inr (AllFunction 3 ">" fzero)).
Proof. reflexivity. Qed.
Example parse_lookup : ParseFuncFromString "lookup(#2,10)" ">" fzero = Ret (inr (LookupFunction 2 10 ">" fzero)).
Proof. reflexivity. Qed.

(** * What a history shows *)

Fixpoint rates (L : SafeLinkedList) : list HistoryData :=
  match L with
  | a :: ((b :: _) as t) => counter_point a b :: rates t
  | _ => []
  end.

(** All the points of a history, newest first: the reference for [HistoryData]. *)
Definition points (L : SafeLinkedList) : list HistoryData :=
  match L with
  | [] => []
  | f :: _ =>
      match ji_JudgeType f with
      | EmptyString => []
      | String t _ => if is_gauge t then map gauge_point L else rates L
      end
  end.

(** A history the judge can hold: its front has a counter type and its length
    is addressable. *)
Definition wf_history (L : SafeLinkedList) : Prop :=
  match L with [] => True | f :: _ => ji_JudgeType f <> "" end /\ (Len L <= 2 ^ 45)%Z.
#[export] Instance wf_history_dec L : Decision (wf_history L).
Proof. unfold wf_history. destruct L; apply _. Defined.

Lemma rates_length L : length (rates L) = pred (length L).
Proof. induction L as [|a [|b L] IH]; simpl in *; auto. Qed.

Lemma gauge_loop_take n rest : n <= length rest -> gauge_loop n rest = Ret (map gauge_point (take n rest)).
Proof.
  revert rest; induction n as [|n IH]; intros rest Hn; [done|].
  destruct rest as [|x rest]; simpl in *; [lia|]. by rewrite IH by lia.
Qed.

Lemma counter_loop_take n cur rest : n <= length rest -> counter_loop n cur rest = Ret (take n (rates (cur :: rest))).
Proof.
  revert cur rest; induction n as [|n IH]; intros cur rest Hn; [done|].
  destruct rest as [|x rest]; [simpl in Hn; lia|]. cbn [counter_loop]. rewrite IH by (simpl in Hn; lia). done.
Qed.

Lemma make_ok_true n : (0 <= n <= 2 ^ 45)%Z -> make_ok n = true.
Proof. unfold make_ok. intros. rewrite andb_true_iff, !Z.leb_le. lia. Qed.

(** [HistoryData] returns the newest [limit] points and says whether there
    were that many. *)
Lemma HistoryData_points L limit :
  wf_history L -> (1 <= limit)%Z -> in_i64 (limit + 1) ->
  HistoryData_of L limit = (take (Z.to_nat limit) (points L), (limit <=? Z.of_nat (length (points L)))%Z).
Proof.
  intros [Ht Hlen] Hl Hw. unfold HistoryData_of, HistoryData_body, points.
  destruct (Z.ltb_spec limit 1); [lia|].
  destruct L as [|f rest].
  { simpl. rewrite take_nil. by zcase. }
  destruct (ji_JudgeType f) as [|t jt] eqn:Ej; [done|]. unfold Len in *. cbn [first_byte rbind].
  destruct (is_gauge t).
  - destruct (Z.ltb_spec (Z.of_nat (length (f :: rest))) limit) as [Hs|Hs].
    + rewrite make_ok_true by lia. cbn [negb]. rewrite gauge_loop_take by (simpl; lia). cbn [rbind].
      rewrite !take_ge by (rewrite ?length_map; simpl in *; lia).
      rewrite length_map. by zcase.
    + rewrite make_ok_true by lia. cbn [negb]. rewrite gauge_loop_take by (simpl in *; lia). cbn [rbind].
      rewrite length_map. zcase.
      replace (Z.to_nat limit) with (S (Z.to_nat (limit - 1))) by lia. cbn [map take]. by rewrite firstn_map.
  - rewrite wrap64_id by done. rewrite rates_length.
    destruct (Z.ltb_spec (Z.of_nat (length (f :: rest))) (limit + 1)) as [Hs|Hs].
    + rewrite make_ok_true by (simpl in *; lia). cbn [negb].
      rewrite counter_loop_take by (simpl; lia). cbn [rbind].
      rewrite !take_ge by (rewrite rates_length; simpl in *; lia).
      by zcase.
    + rewrite make_ok_true by lia. cbn [negb]. rewrite counter_loop_take by (simpl in *; lia). cbn [rbind].
      by zcase.
Qed.

Lemma HistoryData_small L limit : (limit < 1)%Z -> HistoryData_of L limit = ([], false).
Proof. intros. unfold HistoryData_of, HistoryData_body. destruct (Z.ltb_spec limit 1); [done|lia]. Qed.

(** An item without a counter type panics inside [HistoryData] and is
    recovered there: the functions see too few points. *)
Lemma HistoryData_no_type f L limit :
  ji_JudgeType f = "" -> HistoryData_of (f :: L) limit = ([], false).
Proof. intros H. unfold HistoryData_of, HistoryData_body. destruct (limit <? 1)%Z; [done|]. by rewrite H. Qed.

(** * Loops over a window *)

Definition values (vs : list HistoryData) : list f64 := map hd_Value vs.

Lemma at_index_Z {A} (vs : list A) (i : nat) : i < length vs -> exists v, at_index vs (Z.of_nat i) = Ret v /\ vs !! i = Some v.
Proof. intros H. apply lookup_lt_is_Some in H as [v Hv]. exists v. split; [by apply at_index_lookup|done]. Qed.

Lemma values_loop_fold {A} (f : A -> f64 -> A) vs i n acc :
  i + n <= length vs ->
  values_loop f vs (Z.of_nat i) n acc = Ret (fold_left f (values (take n (drop i vs))) acc).
Proof.
  revert i acc; induction n as [|n IH]; intros i acc Hn; [done|]. cbn [values_loop].
  destruct (at_index_Z vs i ltac:(lia)) as (v & -> & Hv). cbn [rbind].
  replace (Z.of_nat i + 1)%Z with (Z.of_nat (S i)) by lia. rewrite IH by lia.
  by rewrite (drop_S _ _ _ Hv).
Qed.

(** The list form of a loop with [break]. *)
Fixpoint fold_break {A} (f : A -> f64 -> A + A) (l : list f64) (acc : A) : A :=
  match l with
  | [] => acc
  | v :: l' => match f acc v with inl a => fold_break f l' a | inr a => a end
  end.

Lemma break_loop_fold {A} (f : A -> f64 -> A + A) vs i n acc :
  i + n <= length vs ->
  break_loop f vs (Z.of_nat i) n acc = Ret (fold_break f (values (take n (drop i vs))) acc).
Proof.
  revert i acc; induction n as [|n IH]; intros i acc Hn; [done|]. cbn [break_loop].
  destruct (at_index_Z vs i ltac:(lia)) as (v & -> & Hv). cbn [rbind].
  rewrite (drop_S _ _ _ Hv). cbn [take values map fold_break].
  destruct (f acc (hd_Value v)) as [a|a]; [|done].
  replace (Z.of_nat i + 1)%Z with (Z.of_nat (S i)) by lia. by rewrite IH by lia.
Qed.

Lemma fold_break_all (p : f64 -> bool) l :
  fold_break (fun (_ : bool) v => let t := p v in if t then inl true else inr false) l true = forallb p l.
Proof. induction l as [|v l IH]; [done|]. cbn [fold_break forallb]. by destruct (p v). Qed.

Definition count (p : f64 -> bool) (l : list f64) : Z := Z.of_nat (length (List.filter p l)).

Lemma fold_break_lookup (p : f64 -> bool) k l n :
  (fold_break (fun '(n, t) v =>
      if p v then let n := (n + 1)%Z in if (n =? k)%Z then inr (n, true) else inl (n, t) else inl (n, t))
    l (n, false)).2 = (n <? k)%Z && (k <=? n + count p l)%Z.
Proof.
  revert n; induction l as [|v l IH]; intros n; cbn [fold_break].
  { unfold count. simpl. repeat zcase; done. }
  unfold count in *. cbn [List.filter]. destruct (p v); [|by rewrite IH].
  cbn [length]. destruct (Z.eqb_spec (n + 1) k); [cbn [snd]; by repeat zcase|].
  rewrite IH. repeat zcase; done.
Qed.

(** The early exit of [diff] and [pdiff]: points that are skipped ([p v =
    None]) leave the last computed value in place. *)
Lemma fold_break_exists (g : f64 -> option f64) (q : f64 -> bool) l x :
  (fold_break (fun '(x, t) v =>
      match g v with
      | None => inl (x, t)
      | Some y => if q y then inr (y, true) else inl (y, false)
      end) l (x, false)).2 = existsb (fun v => match g v with Some y => q y | None => false end) l.
Proof.
  revert x; induction l as [|v l IH]; intros x; [done|]. cbn [fold_break existsb].
  destruct (g v) as [y|]; [|apply IH]. destruct (q y); [done|apply IH].
Qed.

Lemma fold_break_ext {A} (f g : A -> f64 -> A + A) l acc :
  (forall a v, f a v = g a v) -> fold_break f l acc = fold_break g l acc.
Proof.
  intros H. revert acc; induction l as [|v l IH]; intros acc; [done|]. cbn [fold_break]. rewrite H.
  by destruct (g acc v).
Qed.

(** * Reference semantics of the threshold functions *)

Definition fmax (a b : f64) : f64 := if flt a b then b else a.
Definition fmin (a b : f64) : f64 := if flt b a then b else a.

(** How many points a function looks at. *)
Definition need (fn : Function) : Z :=
  match fn with
  | MaxFunction n _ _ | MinFunction n _ _ | AllFunction n _ _ | LookupFunction _ n _ _
  | SumFunction n _ _ | AvgFunction n _ _ => n
  | DiffFunction n _ _ | PDiffFunction n _ _ => (n + 1)%Z
  end.

(** Limits for which [Limit + 1] and [Limit + 2] do not wrap. *)
Definition wf_function (fn : Function) : Prop := in_i64 (need fn) /\ in_i64 (need fn + 1).
#[export] Instance wf_function_dec fn : Decision (wf_function fn).
Proof. unfold wf_function. apply _. Defined.

(** Percentage change from [v] to [v0]; none from zero. *)
Definition pdiff (v0 v : f64) : option f64 :=
  if feq v fzero then None else Some (fmul (fdiv (fsub v0 v) v) (f64_of_Z 100)).

(** Whether a function triggers on the values of its window, newest first. *)
Definition ref_triggered (fn : Function) (vals : list f64) : bool :=
  match vals with
  | [] => false
  | v0 :: vs =>
      match fn with
      | MaxFunction _ o r => checkIsTriggered (fold_left fmax vs v0) o r
      | MinFunction _ o r => checkIsTriggered (fold_left fmin vs v0) o r
      | AllFunction _ o r => forallb (fun v => checkIsTriggered v o r) vals
      | LookupFunction k _ o r => (0 <? k)%Z && (k <=? count (fun v => checkIsTriggered v o r) vals)%Z
      | SumFunction _ o r => checkIsTriggered (fold_left fadd vals fzero) o r
      | AvgFunction n o r => checkIsTriggered (fdiv (fold_left fadd vals fzero) (f64_of_Z n)) o r
      | DiffFunction _ o r => existsb (fun v => checkIsTriggered (fsub v0 v) o r) vs
      | PDiffFunction _ o r =>
          existsb (fun v => match pdiff v0 v with Some d => checkIsTriggered d o r | None => false end) vs
      end
  end.

(** The value reported with the event. *)
Definition ref_left (fn : Function) (vals : list f64) : option f64 :=
  match vals with
  | [] => None
  | v0 :: vs =>
      match fn with
      | MaxFunction _ _ _ => Some (fold_left fmax vs v0)
      | MinFunction _ _ _ => Some (fold_left fmin vs v0)
      | AllFunction _ _ _ | LookupFunction _ _ _ _ => Some v0
      | SumFunction _ _ _ => Some (fold_left fadd vals fzero)
      | AvgFunction n _ _ => Some (fdiv (fold_left fadd vals fzero) (f64_of_Z n))
      | DiffFunction _ _ _ | PDiffFunction _ _ _ => None
      end
  end.

Definition window (fn : Function) (L : SafeLinkedList) : list HistoryData := take (Z.to_nat (need fn)) (points L).
Definition enough (fn : Function) (L : SafeLinkedList) : bool :=
  (1 <=? need fn)%Z && (need fn <=? Z.of_nat (length (points L)))%Z.

Lemma window_cons fn L :
  enough fn L = true ->
  exists v0 vs, window fn L = v0 :: vs /\ length (window fn L) = Z.to_nat (need fn) /\
    at_index (window fn L) 0 = Ret v0.
Proof.
  unfold enough, window. intros H. zbool.
  assert (length (take (Z.to_nat (need fn)) (points L)) = Z.to_nat (need fn)) as Hl
    by (rewrite length_take; lia).
  destruct (take _ _) as [|v0 vs]; [simpl in Hl; lia|]. by exists v0, vs.
Qed.

(** The result of [Compute] against the reference. *)
Definition computes_reference (fn : Function) (L : SafeLinkedList) (c : computed) : Prop :=
  c_isEnough c = enough fn L /\
  (c_isEnough c = false -> c_isTriggered c = false) /\
  (c_isEnough c = true ->
     c_vs c = window fn L /\ c_isTriggered c = ref_triggered fn (values (window fn L)) /\
     match ref_left fn (values (window fn L)) with Some l => c_leftValue c = l | None => True end).

Lemma not_enough_reference fn L vs : enough fn L = false -> computes_reference fn L (not_enough vs).
Proof. intros H. unfold computes_reference. simpl. by rewrite H. Qed.

Lemma HistoryData_window fn L :
  wf_history L -> wf_function fn ->
  exists vs, HistoryData_of L (need fn) = (vs, enough fn L) /\ (enough fn L = true -> vs = window fn L).
Proof.
  intros Hw Hi. unfold enough. destruct (Z.leb_spec 1 (need fn)).
  - rewrite HistoryData_points by (done || by destruct Hi). eexists. by split.
  - rewrite HistoryData_small by lia. eexists. by split.
Qed.

(** Enter [Compute] of [fn]: either there are too few points, or the window is
    [v0 :: vs]. *)
Ltac enter_window fn :=
  match goal with
  | Hw : wf_history ?L, Hi : wf_function _ |- _ =>
      let w := fresh "w" in let E := fresh "E" in let Hww := fresh "Hww" in
      destruct (HistoryData_window fn L Hw Hi) as (w & E & Hww);
      cbn [need] in E; rewrite ?wrap64_id by (by destruct Hi); rewrite E; clear E;
      destruct (enough fn L) eqn:En; cbn [negb];
      [rewrite (Hww eq_refl) in *; clear Hww
      |eexists; split; [reflexivity|by apply not_enough_reference]]
  end.

Lemma window_loop0 fn L :
  enough fn L = true -> take (Z.to_nat (need fn)) (drop 0 (window fn L)) = window fn L.
Proof. intros H. destruct (window_cons fn L H) as (? & ? & _ & Hl & _). rewrite drop_0. apply take_ge. lia. Qed.

Lemma enough_pos fn L : enough fn L = true -> (1 <= need fn)%Z.
Proof. unfold enough. intros. by zbool. Qed.

Lemma values_loop_window {A} (f : A -> f64 -> A) fn L acc n :
  enough fn L = true -> n = Z.to_nat (need fn) ->
  values_loop f (window fn L) 0 n acc = Ret (fold_left f (values (window fn L)) acc).
Proof.
  intros He ->. destruct (window_cons fn L He) as (? & ? & _ & Hl & _).
  change 0%Z with (Z.of_nat 0). rewrite values_loop_fold by lia. by rewrite window_loop0.
Qed.

Lemma break_loop_window {A} (f : A -> f64 -> A + A) fn L acc n :
  enough fn L = true -> n = Z.to_nat (need fn) ->
  break_loop f (window fn L) 0 n acc = Ret (fold_break f (values (window fn L)) acc).
Proof.
  intros He ->. destruct (window_cons fn L He) as (? & ? & _ & Hl & _).
  change 0%Z with (Z.of_nat 0). rewrite break_loop_fold by lia. by rewrite window_loop0.
Qed.

Lemma values_loop_tail {A} (f : A -> f64 -> A) v0 vs acc n :
  n = length vs -> values_loop f (v0 :: vs) 1 n acc = Ret (fold_left f (values vs) acc).
Proof.
  intros ->. change 1%Z with (Z.of_nat 1). rewrite values_loop_fold by done. cbn [drop].
  by rewrite take_ge by done.
Qed.

Lemma break_loop_tail {A} (f : A -> f64 -> A + A) v0 vs acc n :
  n = length vs -> break_loop f (v0 :: vs) 1 n acc = Ret (fold_break f (values vs) acc).
Proof.
  intros ->. change 1%Z with (Z.of_nat 1). rewrite break_loop_fold by done. cbn [drop].
  by rewrite take_ge by done.
Qed.

Section compute.
Context (L : SafeLinkedList) (Hw : wf_history L).

Lemma Extremum_reference (f : f64 -> f64 -> f64) n o r fn :
  (fn = MaxFunction n o r /\ f = fmax \/ fn = MinFunction n o r /\ f = fmin) -> enough fn L = true ->
  exists v0,
    at_index (window fn L) 0 = Ret v0 /\
    exists l, values_loop f (window fn L) 1 (Z.to_nat (n - 1)) (hd_Value v0) = Ret l /\
      computes_reference fn L (mkComputed (window fn L) l (checkIsTriggered l o r) true).
Proof.
  intros Hfn En. destruct (window_cons fn L En) as (v0 & vs & Ewin & Hl & E0).
  exists v0. split; [done|]. rewrite Ewin in *. pose proof (enough_pos _ _ En).
  assert (need fn = n) as Hneed by (by destruct Hfn as [[-> ->]|[-> ->]]).
  eexists. split; [apply values_loop_tail; simpl in Hl; lia|].
  unfold computes_reference. rewrite En, Ewin. do 2 (split; [done|]). intros _.
  by destruct Hfn as [[-> ->]|[-> ->]].
Qed.

Lemma Max_reference n o r :
  wf_function (MaxFunction n o r) -> exists c, Compute (MaxFunction n o r) L = Ret c /\ computes_reference (MaxFunction n o r) L c.
Proof using Hw.
  intros Hi. cbn [Compute]. unfold Max_Compute. enter_window (MaxFunction n o r).
  destruct (Extremum_reference fmax n o r (MaxFunction n o r) ltac:(auto) En) as (v0 & -> & l & El & Hc). cbn [rbind].
  change (fun max v : f64 => if flt max v then v else max) with fmax. rewrite El. eauto.
Qed.

Lemma Min_reference n o r :
  wf_function (MinFunction n o r) -> exists c, Compute (MinFunction n o r) L = Ret c /\ computes_reference (MinFunction n o r) L c.
Proof using Hw.
  intros Hi. cbn [Compute]. unfold Min_Compute. enter_window (MinFunction n o r).
  destruct (Extremum_reference fmin n o r (MinFunction n o r) ltac:(auto) En) as (v0 & -> & l & El & Hc). cbn [rbind].
  change (fun min v : f64 => if flt v min then v else min) with fmin. rewrite El. eauto.
Qed.

Lemma All_reference n o r :
  wf_function (AllFunction n o r) -> exists c, Compute (AllFunction n o r) L = Ret c /\ computes_reference (AllFunction n o r) L c.
Proof using Hw.
  intros Hi. cbn [Compute]. unfold All_Compute. enter_window (AllFunction n o r).
  rewrite (break_loop_window _ (AllFunction n o r)) by done. cbn [rbind].
  destruct (window_cons (AllFunction n o r) L En) as (v0 & vs & Ewin & Hl & ->). cbn [rbind].
  eexists. split; [reflexivity|]. unfold computes_reference. rewrite En. do 2 (split; [done|]). intros _.
  rewrite (fold_break_all (fun v => checkIsTriggered v o r)). by rewrite Ewin.
Qed.

Lemma Lookup_reference k n o r :
  wf_function (LookupFunction k n o r) -> exists c, Compute (LookupFunction k n o r) L = Ret c /\ computes_reference (LookupFunction k n o r) L c.
Proof using Hw.
  intros Hi. cbn [Compute]. unfold Lookup_Compute. enter_window (LookupFunction k n o r).
  destruct (window_cons (LookupFunction k n o r) L En) as (v0 & vs & Ewin & Hl & ->). cbn [rbind].
  rewrite (break_loop_window _ (LookupFunction k n o r)) by done. cbn [rbind].
  pose proof (fold_break_lookup (fun v => checkIsTriggered v o r) k (values (window (LookupFunction k n o r) L)) 0) as Hf.
  destruct (fold_break _ (values (window (LookupFunction k n o r) L)) (0%Z, false)) as [x t]. cbn [snd] in Hf.
  eexists. split; [reflexivity|]. unfold computes_reference. rewrite En. do 2 (split; [done|]). intros _.
  cbn [c_isTriggered c_vs c_leftValue]. rewrite Hf. by rewrite Ewin.
Qed.

Lemma Sum_reference n o r :
  wf_function (SumFunction n o r) -> exists c, Compute (SumFunction n o r) L = Ret c /\ computes_reference (SumFunction n o r) L c.
Proof using Hw.
  intros Hi. cbn [Compute]. unfold Sum_Compute. enter_window (SumFunction n o r).
  rewrite (values_loop_window _ (SumFunction n o r)) by done. cbn [rbind].
  destruct (window_cons (SumFunction n o r) L En) as (v0 & vs & Ewin & Hl & _).
  eexists. split; [reflexivity|]. unfold computes_reference. rewrite En. do 2 (split; [done|]). intros _.
  by rewrite Ewin.
Qed.

Lemma Avg_reference n o r :
  wf_function (AvgFunction n o r) -> exists c, Compute (AvgFunction n o r) L = Ret c /\ computes_reference (AvgFunction n o r) L c.
Proof using Hw.
  intros Hi. cbn [Compute]. unfold Avg_Compute. enter_window (AvgFunction n o r).
  rewrite (values_loop_window _ (AvgFunction n o r)) by done. cbn [rbind].
  destruct (window_cons (AvgFunction n o r) L En) as (v0 & vs & Ewin & Hl & _).
  eexists. split; [reflexivity|]. unfold computes_reference. rewrite En. do 2 (split; [done|]). intros _.
  by rewrite Ewin.
Qed.

Lemma Diff_reference n o r :
  wf_function (DiffFunction n o r) -> exists c, Compute (DiffFunction n o r) L = Ret c /\ computes_reference (DiffFunction n o r) L c.
Proof using Hw.
  intros Hi. cbn [Compute]. unfold Diff_Compute. enter_window (DiffFunction n o r).
  destruct (window_cons (DiffFunction n o r) L En) as (v0 & vs & Ewin & Hl & E0).
  pose proof (enough_pos _ _ En). rewrite Ewin in *. cbn [length Nat.eqb]. rewrite E0. cbn [rbind need] in *.
  rewrite break_loop_tail by (cbn [length] in Hl; lia). cbn [rbind].
  pose proof (fold_break_exists (fun v => Some (fsub (hd_Value v0) v)) (fun d => checkIsTriggered d o r) (values vs) fzero) as Hf.
  cbn beta iota in Hf. destruct (fold_break _ (values vs) (fzero, false)) as [x t]. cbn [snd] in Hf.
  eexists. split; [reflexivity|]. unfold computes_reference. rewrite En, Ewin. do 2 (split; [done|]). intros _.
  by rewrite Hf.
Qed.

Lemma PDiff_reference n o r :
  wf_function (PDiffFunction n o r) -> exists c, Compute (PDiffFunction n o r) L = Ret c /\ computes_reference (PDiffFunction n o r) L c.
Proof using Hw.
  intros Hi. cbn [Compute]. unfold PDiff_Compute. enter_window (PDiffFunction n o r).
  destruct (window_cons (PDiffFunction n o r) L En) as (v0 & vs & Ewin & Hl & E0).
  pose proof (enough_pos _ _ En). rewrite Ewin in *. cbn [length Nat.eqb]. rewrite E0. cbn [rbind need] in *.
  rewrite break_loop_tail by (cbn [length] in Hl; lia). cbn [rbind].
  pose proof (fold_break_exists (pdiff (hd_Value v0)) (fun d => checkIsTriggered d o r) (values vs) fzero) as Hf.
  erewrite fold_break_ext in Hf.
  - destruct (fold_break _ (values vs) (fzero, false)) as [x t] eqn:Eb. cbn [snd] in Hf.
    setoid_rewrite Eb.
    eexists. split; [reflexivity|]. unfold computes_reference. rewrite En, Ewin. do 2 (split; [done|]). intros _.
    by rewrite Hf.
  - intros [a b] v. unfold pdiff. by destruct (feq v fzero).
Qed.

(** Every function computes its reference and never panics. *)
Lemma Compute_reference fn :
  wf_function fn -> exists c, Compute fn L = Ret c /\ computes_reference fn L c.
Proof using Hw.
  destruct fn; [apply Max_reference|apply Min_reference|apply All_reference|apply Lookup_reference
    |apply Sum_reference|apply Avg_reference|apply Diff_reference|apply PDiff_reference].
Qed.
End compute.

(** * Pushing an item *)

(** Newest first, strictly: the order of a history. *)
Definition newer (a b : JudgeItem) : Prop := (ji_Timestamp b < ji_Timestamp a)%Z.
Definition decreasing (L : SafeLinkedList) : Prop := StronglySorted newer L.

#[export] Instance newer_dec : RelDecision newer.
Proof. intros a b. unfold newer. apply _. Defined.

(** The test at the head of [PushFrontAndMaintain]. *)
Definition accepts (v : JudgeItem) (L : SafeLinkedList) : bool :=
  match L with [] => true | f :: _ => (ji_Timestamp f <? ji_Timestamp v)%Z && (0 <? ji_Timestamp v)%Z end.

Lemma remove_back_take d L : d <= length L -> remove_back d L = Ret (take (length L - d) L).
Proof.
  revert L; induction d as [|d IH]; intros L Hd.
  { rewrite Nat.sub_0_r, take_ge by lia. done. }
  destruct L as [|x L]; [simpl in Hd; lia|]. cbn [remove_back].
  rewrite removelast_firstn_len. rewrite IH by (rewrite length_firstn; simpl in *; lia).
  rewrite length_firstn, firstn_firstn. do 2 f_equal. simpl in *. lia.
Qed.

Lemma push_spec v maxCount L :
  (1 <= maxCount)%Z -> in_i64 maxCount -> (Len L < 2 ^ 45)%Z ->
  PushFrontAndMaintain v maxCount L =
  Ret (if accepts v L then take (Z.to_nat maxCount) (v :: L) else L, accepts v L).
Proof.
  intros Hm Hi Hl. unfold PushFrontAndMaintain, Len in *.
  assert (match L with [] => false | f :: _ => (ji_Timestamp v <=? ji_Timestamp f)%Z || (ji_Timestamp v <=? 0)%Z end
          = negb (accepts v L)) as ->.
  { destruct L as [|f L]; [done|]. simpl. repeat zcase; done. }
  destruct (accepts v L); [|done]. cbn [negb]. unfold in_i64 in Hi. zcase.
  - by rewrite take_ge by (simpl; lia).
  - rewrite wrap64_id by (unfold in_i64; lia). rewrite remove_back_take by (simpl; lia). cbn [rbind].
    do 2 f_equal. f_equal. simpl. lia.
Qed.

Lemma decreasing_take n L : decreasing L -> decreasing (take n L).
Proof.
  intros H. revert n; induction H as [|x L HL IH Hx]; intros [|n]; simpl; [constructor..|].
  constructor; [apply IH|by apply Forall_take].
Qed.

Lemma push_decreasing v L : decreasing L -> accepts v L = true -> decreasing (v :: L).
Proof.
  intros HL Ha. constructor; [done|]. destruct L as [|f L]; [constructor|].
  simpl in Ha. zbool. constructor; [done|].
  inversion HL as [|? ? ? Hf]; subst. eapply Forall_impl; [exact Hf|]. unfold newer. intros. lia.
Qed.

(** * Function strings *)

Lemma substring_app_l a b : String.substring 0 (String.length a) (a ++s b) = a.
Proof. induction a as [|x a IH]; simpl; [by destruct b|]. by rewrite IH. Qed.
Lemma substring_drop a b n : String.substring (String.length a) n (a ++s b) = String.substring 0 n b.
Proof. induction a as [|x a IH]; simpl; done. Qed.

(** [(a ++ b ++ c)[len(a) : len(a)+len(b)] = b]. *)
Lemma slice_middle a b c : slice (a ++s b ++s c) (slen a) (slen a + slen b) = Ret b.
Proof.
  unfold slice, slen. rewrite !sapp_length.
  repeat zcase. cbn [andb]. f_equal.
  rewrite Nat2Z.id. replace (Z.to_nat _) with (String.length b) by lia.
  by rewrite substring_drop, substring_app_l.
Qed.

Lemma prefix_nil s : String.prefix "" s = true.
Proof. by destruct s. Qed.

(** The text of a function in a strategy, e.g. [all(#3)]. *)
Definition func_string (name : string) (args : list Z) : string :=
  name ++s "(#" ++s join "," (map itoa args) ++s ")".

Lemma mapM_atoi_itoa l : Forall in_i64 l -> mapM atoi (map itoa l) = Some l.
Proof. induction 1 as [|x l Hx Hl IH]; [done|]. cbn [map mapM]. rewrite atoi_itoa by done. simpl. by rewrite IH. Qed.

Lemma atois_itoa l : l <> [] -> Forall in_i64 l -> atois (join "," (map itoa l)) = Some l.
Proof.
  intros Hn Hl. unfold atois. rewrite split_join.
  - by apply mapM_atoi_itoa.
  - by destruct l.
  - apply Forall_fmap, Forall_forall. intros. by apply itoa_has.
Qed.

Definition func_names : list string := ["max"; "min"; "all"; "sum"; "avg"; "diff"; "pdiff"; "lookup"].

Lemma func_string_parse name args op r :
  name ∈ func_names -> args <> [] -> Forall in_i64 args ->
  ParseFuncFromString (func_string name args) op r =
  (if String.eqb name "max" then let! a := at_index args 0 in Ret (inr (MaxFunction a op r))
   else if String.eqb name "min" then let! a := at_index args 0 in Ret (inr (MinFunction a op r))
   else if String.eqb name "all" then let! a := at_index args 0 in Ret (inr (AllFunction a op r))
   else if String.eqb name "sum" then let! a := at_index args 0 in Ret (inr (SumFunction a op r))
   else if String.eqb name "avg" then let! a := at_index args 0 in Ret (inr (AvgFunction a op r))
   else if String.eqb name "diff" then let! a := at_index args 0 in Ret (inr (DiffFunction a op r))
   else if String.eqb name "pdiff" then let! a := at_index args 0 in Ret (inr (PDiffFunction a op r))
   else let! n := at_index args 0 in let! a := at_index args 1 in Ret (inr (LookupFunction n a op r))).
Proof.
  intros Hname Hn Hl. unfold ParseFuncFromString, func_string.
  set (body := join "," (map itoa args)).
  assert (str_index (name ++s "(#" ++s body ++s ")") "#" = slen name + 1)%Z as Hidx.
  { unfold func_names in Hname. rewrite !elem_of_cons, elem_of_nil in Hname.
    repeat (destruct Hname as [->|Hname]; [unfold str_index; cbn; by rewrite prefix_nil|]). done. }
  assert (is_empty (name ++s "(#" ++s body ++s ")") = false) as ->.
  { destruct name; done. }
  rewrite Hidx.
  replace (slice _ (slen name + 1 + 1) _) with (Ret (A:=string) body).
  2:{ symmetry. rewrite <- (slice_middle (name ++s "(#") body ")"). rewrite !sapp_assoc. f_equal;
      unfold slen; rewrite !sapp_length; simpl; lia. }
  cbn [rbind]. unfold body. rewrite atois_itoa by done.
  replace (slice _ 0 _) with (Ret (A:=string) name).
  2:{ symmetry. rewrite <- (slice_middle "" name ("(#" ++s join "," (map itoa args) ++s ")")). f_equal.
      unfold slen. cbn [String.length]. lia. }
  cbn [rbind]. unfold func_names in Hname. rewrite !elem_of_cons, elem_of_nil in Hname.
  repeat (destruct Hname as [->|Hname]; [reflexivity|]). done.
Qed.

(** * Operators *)

Lemma checkIsTriggered_nan l op r : is_nan l = true \/ is_nan r = true -> checkIsTriggered l op r = false.
Proof.
  intros H.
  assert (is_nan (fabs (fsub l r)) = true) as Hd.
  { destruct H as [H|H]; [by destruct l|]. destruct r; try done. by destruct l as [?|[]| |[] ? ?]. }
  assert (forall x y, is_nan x = true \/ is_nan y = true -> flt x y = false /\ fle x y = false) as Hc.
  { intros x y Hxy. unfold flt, fle, SFltb, SFleb. by rewrite SFcompare_nan. }
  unfold checkIsTriggered. destruct (_ || _); [apply Hc; by left|].
  repeat (case_match; [apply Hc; tauto|]). done.
Qed.

Lemma fold_extremum (f : f64 -> f64 -> f64) (R : f64 -> f64 -> bool) vs v0 :
  (forall a b, is_nan a = false -> is_nan b = false ->
     (f a b = a \/ f a b = b) /\ R a (f a b) = true /\ R b (f a b) = true) ->
  (forall a b c, R a b = true -> R b c = true -> R a c = true) ->
  (forall a, is_nan a = false -> R a a = true) ->
  Forall (fun v => is_nan v = false) (v0 :: vs) ->
  let m := fold_left f vs v0 in m ∈ v0 :: vs /\ Forall (fun v => R v m = true) (v0 :: vs).
Proof.
  intros Hf Ht Hr. revert v0; induction vs as [|v vs IH]; intros v0 Hn; simpl.
  { inversion Hn; subst. split; [by left|]. constructor; auto. }
  inversion Hn as [|? ? Hn0 Hn']; subst. inversion Hn' as [|? ? Hnv Hnvs]; subst.
  destruct (Hf v0 v Hn0 Hnv) as (Hor & H0 & H1).
  destruct (IH (f v0 v)) as [Hin Hall]; [constructor; [by destruct Hor as [->| ->]|done]|].
  simpl in Hin, Hall. inversion Hall as [|? ? Hm Hvs]; subst. split.
  - rewrite elem_of_cons in Hin. destruct Hin as [->|Hin]; [|by do 2 right].
    destruct Hor as [->| ->]; [by left|by right; left].
  - constructor; [by eapply Ht|]. constructor; [by eapply Ht|done].
Qed.

Lemma fmax_spec a b :
  is_nan a = false -> is_nan b = false ->
  (fmax a b = a \/ fmax a b = b) /\ fle a (fmax a b) = true /\ fle b (fmax a b) = true.
Proof.
  intros Ha Hb. unfold fmax. destruct (flt a b) eqn:E.
  - split; [by right|]. eauto with falcon.
  - split; [by left|]. split; [by apply fle_refl|]. by apply flt_false.
Qed.

Lemma fmin_spec a b :
  is_nan a = false -> is_nan b = false ->
  (fmin a b = a \/ fmin a b = b) /\ fle (fmin a b) a = true /\ fle (fmin a b) b = true.
Proof.
  intros Ha Hb. unfold fmin. destruct (flt b a) eqn:E.
  - split; [by right|]. eauto with falcon.
  - split; [by left|]. split; [by apply fle_refl|]. by apply flt_false.
Qed.

(** ** Properties *)

(** A history keeps its items in strictly decreasing order of time and
    within its bound: an item is accepted exactly when the history is empty or
    it is newer than the front (and positive), an accepted item goes to the
    front and the oldest items beyond [maxCount] are dropped, a rejected one
    changes nothing. *)
Theorem history_maintained v maxCount L :
  (1 <= maxCount)%Z -> in_i64 maxCount -> (Len L <= maxCount)%Z -> (Len L < 2 ^ 45)%Z -> decreasing L ->
  exists L',
    PushFrontAndMaintain v maxCount L = Ret (L', accepts v L) /\
    L' = (if accepts v L then take (Z.to_nat maxCount) (v :: L) else L) /\
    decreasing L' /\ (Len L' <= maxCount)%Z.
Proof.
  intros Hm Hi Hl Hb Hd. eexists. split; [by rewrite push_spec|]. split; [done|].
  destruct (accepts v L) eqn:Ha.
  - split; [by apply decreasing_take, push_decreasing|]. unfold Len. rewrite length_take. lia.
  - done.
Qed.

Definition item (ts : Z) (v : Z) : JudgeItem := mkJudgeItem "h" "cpu.idle" (f64_of_Z v) ts "GAUGE" ∅.

Lemma history_maintained_witness :
  exists L',
    PushFrontAndMaintain (item 180 3) 2 [item 120 2; item 60 1] = Ret (L', true) /\
    L' = [item 180 3; item 120 2] /\ decreasing L' /\ (Len L' <= 2)%Z.
Proof.
  apply (history_maintained (item 180 3) 2 [item 120 2; item 60 1]); by_compute.
Defined.

(** C19: [HistoryData(limit)] returns the newest [limit] points of the history
    (its values for a gauge, the rates between consecutive items for a
    counter) and reports whether there were that many. *)
Theorem HistoryData_newest L limit :
  wf_history L -> (1 <= limit)%Z -> in_i64 (limit + 1) ->
  HistoryData_of L limit = (take (Z.to_nat limit) (points L), (limit <=? Z.of_nat (length (points L)))%Z).
Proof. apply HistoryData_points. Qed.

Lemma HistoryData_newest_witness :
  HistoryData_of [item 120 2; item 60 1] 1 = ([mkHistoryData 120 (f64_of_Z 2)], true).
Proof. apply (HistoryData_newest [item 120 2; item 60 1] 1); by_compute. Defined.

(** C37: every threshold function runs to completion without an index out of
    range and agrees with its reference semantics: [all] is a conjunction,
    [diff] and [pdiff] disjunctions over the earlier points, [lookup] a
    threshold on a count, [max], [min], [sum] and [avg] a test of the folded
    value; without enough points nothing triggers. *)
Theorem Compute_correct fn L :
  wf_history L -> wf_function fn -> exists c, Compute fn L = Ret c /\ computes_reference fn L c.
Proof. intros. by apply Compute_reference. Qed.

Lemma Compute_correct_witness :
  exists c, Compute (LookupFunction 2 3 ">" (f64_of_Z 1)) [item 180 3; item 120 1; item 60 2] = Ret c /\
    computes_reference (LookupFunction 2 3 ">" (f64_of_Z 1)) [item 180 3; item 120 1; item 60 2] c.
Proof. apply Compute_correct; by_compute. Defined.

(** On a full window of numbers, [max] and [min] report values of the
    window that bound all its values from above and from below. *)
Theorem extrema_bound n op r L (w := values (window (MaxFunction n op r) L)) :
  wf_history L -> wf_function (MaxFunction n op r) -> enough (MaxFunction n op r) L = true ->
  Forall (fun v => is_nan v = false) w ->
  exists hi lo,
    Compute (MaxFunction n op r) L = Ret hi /\ Compute (MinFunction n op r) L = Ret lo /\
    c_leftValue hi ∈ w /\ c_leftValue lo ∈ w /\
    Forall (fun v => fle v (c_leftValue hi) = true /\ fle (c_leftValue lo) v = true) w.
Proof.
  intros Hw Hf He Hn.
  destruct (Compute_reference L Hw (MaxFunction n op r) Hf) as (hi & Ehi & H1 & _ & H2).
  destruct (Compute_reference L Hw (MinFunction n op r) Hf) as (lo & Elo & H3 & _ & H4).
  exists hi, lo. do 2 (split; [done|]).
  destruct (H2 ltac:(congruence)) as (_ & _ & Hhi). destruct (H4 ltac:(rewrite H3; exact He)) as (_ & _ & Hlo).
  change (window (MinFunction n op r) L) with (window (MaxFunction n op r) L) in Hlo. fold w in Hhi, Hlo.
  destruct (window_cons _ _ He) as (v0 & vs & Ew & _). unfold w in *. rewrite Ew in *.
  cbn [values map ref_left] in *. rewrite Hhi, Hlo.
  destruct (fold_extremum fmax fle (values vs) (hd_Value v0) fmax_spec fle_trans fle_refl Hn) as [Ha Hb].
  destruct (fold_extremum fmin (fun a b => fle b a) (values vs) (hd_Value v0) fmin_spec) as [Hc Hd];
    [intros a b c Hab Hbc; by eapply fle_trans|apply fle_refl|done|].
  do 2 (split; [done|]). apply Forall_and. by split.
Qed.

Lemma extrema_bound_witness :
  let L := [item 180 6; item 120 7; item 60 5] in
  exists hi lo,
    Compute (MaxFunction 3 ">" fzero) L = Ret hi /\ Compute (MinFunction 3 ">" fzero) L = Ret lo /\
    c_leftValue hi ∈ values (window (MaxFunction 3 ">" fzero) L) /\
    c_leftValue lo ∈ values (window (MaxFunction 3 ">" fzero) L) /\
    Forall (fun v => fle v (c_leftValue hi) = true /\ fle (c_leftValue lo) v = true)
      (values (window (MaxFunction 3 ">" fzero) L)).
Proof. apply extrema_bound; by_compute. Defined.

(** A NaN on either side of a comparison, a zero divided by zero in a
    counter or an average, never raises an alarm, whatever the operator. *)
Theorem nan_never_triggers l op r :
  is_nan l = true \/ is_nan r = true -> checkIsTriggered l op r = false.
Proof. apply checkIsTriggered_nan. Qed.

Lemma nan_never_triggers_witness : checkIsTriggered fnan "!=" fzero = false.
Proof. apply nan_never_triggers. by left. Defined.

(** The text of every supported function with one numeric argument, as the
    portal writes it, parses to that function; [lookup] takes two arguments
    and, given one, makes the parser index past its arguments and panic. *)
Theorem functions_parse n k op r :
  in_i64 n -> in_i64 k ->
  ParseFuncFromString (func_string "max" [n]) op r = Ret (inr (MaxFunction n op r)) /\
  ParseFuncFromString (func_string "min" [n]) op r = Ret (inr (MinFunction n op r)) /\
  ParseFuncFromString (func_string "all" [n]) op r = Ret (inr (AllFunction n op r)) /\
  ParseFuncFromString (func_string "sum" [n]) op r = Ret (inr (SumFunction n op r)) /\
  ParseFuncFromString (func_string "avg" [n]) op r = Ret (inr (AvgFunction n op r)) /\
  ParseFuncFromString (func_string "diff" [n]) op r = Ret (inr (DiffFunction n op r)) /\
  ParseFuncFromString (func_string "pdiff" [n]) op r = Ret (inr (PDiffFunction n op r)) /\
  ParseFuncFromString (func_string "lookup" [k; n]) op r = Ret (inr (LookupFunction k n op r)) /\
  ParseFuncFromString (func_string "lookup" [n]) op r = Panic IndexOutOfRange.
Proof.
  intros Hn Hk.
  repeat split; (rewrite func_string_parse;
    [reflexivity|unfold func_names; set_solver|done|by rewrite ?Forall_cons, Forall_nil]).
Qed.

Lemma functions_parse_witness :
  ParseFuncFromString "all(#3)" ">" fzero = Ret (inr (AllFunction 3 ">" fzero)) /\
  ParseFuncFromString "lookup(#3)" ">" fzero = Panic IndexOutOfRange.
Proof.
  destruct (functions_parse 3 2 ">" fzero ltac:(by_compute) ltac:(by_compute)) as (_ & _ & H & _ & _ & _ & _ & _ & H').
  exact (conj H H').
Defined.
