(* ===== verification/JudgeStore.v ===== *)
(** The judge ([modules/judge]): its process state, the RPC handlers [Send] and
    [UnionJudge] with everything they call, the alarm state machine kept in
    [LastEvents], the cleaning of stale histories and the rebuilding of the
    expression map.

    The state record holds the package variables; what the process sends out
    is the list [js_out], oldest first.  An answer from outside (the clock, a
    call to HBS or to a union judge, the order in which Go iterates a map) is
    taken from [Env] at the current [js_tick], which every such look advances:
    a theorem over all [Env] covers every behaviour of the outside.  Handlers
    run one at a time here; the locks of the code make each map operation
    atomic but not the handlers, so interleavings of two handlers on the same
    series are not covered. *)
From S2P Require Export JudgeFunc.
From Stdlib Require Import Ascii.
Local Open Scope string_scope.

(** * State *)

(** What leaves the process: an LPUSH to redis, the log line of an event that
    cannot be marshalled, a call to the union judge and whether it worked. *)
Inductive output :=
  | Pushed (key : string) (e : Event)
  | MarshalFailed (e : Event)
  | UnionCalled (addr : string) (try : nat) (ok : bool) (e : Event).

(** Source: modules/judge/g/var.go, lines 57-67. The package variables, with [HistoryBigMap], [UnionJudgeHistoryMap] and [HostSSCache]. Symbol: var. *)
Record JudgeState := mkJudge {
  js_HistoryBigMap : gmap string (gmap string SafeLinkedList);
  js_LastEvents : gmap string Event;
  js_UnionLastEvents : gmap string Event;
  js_ExpressionMap : gmap string (list Expression);
  js_StrategyMap : gmap string (list Strategy);
  js_FilterMap : gmap string string;
  js_HostSSCache : gmap string (list Strategy * Z);
  js_UnionJudgeHistoryMap : gmap string (gmap string Event);
  js_out : list output;
  js_tick : nat }.

Definition set_History v s := mkJudge v (js_LastEvents s) (js_UnionLastEvents s) (js_ExpressionMap s)
  (js_StrategyMap s) (js_FilterMap s) (js_HostSSCache s) (js_UnionJudgeHistoryMap s) (js_out s) (js_tick s).
Definition set_LastEvents v s := mkJudge (js_HistoryBigMap s) v (js_UnionLastEvents s) (js_ExpressionMap s)
  (js_StrategyMap s) (js_FilterMap s) (js_HostSSCache s) (js_UnionJudgeHistoryMap s) (js_out s) (js_tick s).
Definition set_UnionLastEvents v s := mkJudge (js_HistoryBigMap s) (js_LastEvents s) v (js_ExpressionMap s)
  (js_StrategyMap s) (js_FilterMap s) (js_HostSSCache s) (js_UnionJudgeHistoryMap s) (js_out s) (js_tick s).
Definition set_ExpressionMap v s := mkJudge (js_HistoryBigMap s) (js_LastEvents s) (js_UnionLastEvents s) v
  (js_StrategyMap s) (js_FilterMap s) (js_HostSSCache s) (js_UnionJudgeHistoryMap s) (js_out s) (js_tick s).
Definition set_StrategyMap v s := mkJudge (js_HistoryBigMap s) (js_LastEvents s) (js_UnionLastEvents s)
  (js_ExpressionMap s) v (js_FilterMap s) (js_HostSSCache s) (js_UnionJudgeHistoryMap s) (js_out s) (js_tick s).
Definition set_FilterMap v s := mkJudge (js_HistoryBigMap s) (js_LastEvents s) (js_UnionLastEvents s)
  (js_ExpressionMap s) (js_StrategyMap s) v (js_HostSSCache s) (js_UnionJudgeHistoryMap s) (js_out s) (js_tick s).
Definition set_HostSSCache v s := mkJudge (js_HistoryBigMap s) (js_LastEvents s) (js_UnionLastEvents s)
  (js_ExpressionMap s) (js_StrategyMap s) (js_FilterMap s) v (js_UnionJudgeHistoryMap s) (js_out s) (js_tick s).
Definition set_UnionHistory v s := mkJudge (js_HistoryBigMap s) (js_LastEvents s) (js_UnionLastEvents s)
  (js_ExpressionMap s) (js_StrategyMap s) (js_FilterMap s) (js_HostSSCache s) v (js_out s) (js_tick s).
Definition add_out o s := mkJudge (js_HistoryBigMap s) (js_LastEvents s) (js_UnionLastEvents s)
  (js_ExpressionMap s) (js_StrategyMap s) (js_FilterMap s) (js_HostSSCache s) (js_UnionJudgeHistoryMap s)
  (js_out s ++ [o]) (js_tick s).
Definition next_tick s := mkJudge (js_HistoryBigMap s) (js_LastEvents s) (js_UnionLastEvents s)
  (js_ExpressionMap s) (js_StrategyMap s) (js_FilterMap s) (js_HostSSCache s) (js_UnionJudgeHistoryMap s)
  (js_out s) (S (js_tick s)).

(** The outside. [None] is a failed call. *)
Record Env := mkEnv {
  e_nano : nat -> Z;
  e_hbs : nat -> string -> option (list Strategy);
  e_hbs_union : nat -> Z -> option (list Strategy);
  e_hbs_expr : nat -> option (list Expression);
  e_union_rpc : nat -> bool;
  e_keys : nat -> list string -> list string;
  e_keys_perm : forall n l, e_keys n l ≡ₚ l }.

(** Source: modules/judge/g/cfg.go, type GlobalConfig. The fields the handlers read; [cf_Queue] is [QueuePattern] applied to a priority and [cf_ring] the node the consistent ring gives for a key. *)
Record Config := mkConfig {
  cf_Remain : Z; cf_MinInterval : Z; cf_Queue : Z -> string;
  cf_Cluster : gmap string string; cf_ring : string -> string }.

Notation J := (M JudgeState).

(** One look at the outside. *)
Definition look {A} (f : nat -> A) : J A := fun s => Ret (f (js_tick s), next_tick s).

(** [time.Now().Unix()]. *)
Definition unix (nano : Z) : Z := (nano / 10 ^ 9)%Z.

(** The slot names ["00"] to ["ff"]. *)
Definition arr : list string :=
  ["0"; "1"; "2"; "3"; "4"; "5"; "6"; "7"; "8"; "9"; "a"; "b"; "c"; "d"; "e"; "f"].
Definition slots : list string := a ← arr; b ← arr; [a ++s b].

(** * One slot of the history map ([store/history.go]) *)

(** Source: modules/judge/store/history.go, NewJudgeItemMap. *)
Definition NewJudgeItemMap : gmap string SafeLinkedList := ∅.
(** Source: modules/judge/store/history.go, JudgeItemMap.Get. *)
Definition JIM_Get (key : string) (m : gmap string SafeLinkedList) : option SafeLinkedList := m !! key.
(** Source: modules/judge/store/history.go, JudgeItemMap.Set. *)
Definition JIM_Set (key : string) (val : SafeLinkedList) (m : gmap string SafeLinkedList) := <[key := val]> m.
(** Source: modules/judge/store/history.go, JudgeItemMap.Len. *)
Definition JIM_Len (m : gmap string SafeLinkedList) : Z := Z.of_nat (size m).
(** Source: modules/judge/store/history.go, JudgeItemMap.Delete. *)
Definition JIM_Delete (key : string) (m : gmap string SafeLinkedList) := delete key m.
(** Source: modules/judge/store/history.go, JudgeItemMap.BatchDelete. *)
Definition JIM_BatchDelete (keys : list string) (m : gmap string SafeLinkedList) : gmap string SafeLinkedList :=
  fold_left (fun m k => delete k m) keys m.
(** Source: modules/judge/store/history.go, lines 74-83. The key of a history whose newest item is too old. Symbol: JudgeItemMap.CleanStale. *)
Definition stale_key (before : Z) (kL : string * SafeLinkedList) : option string :=
  match Front kL.2 with
  | None => None
  | Some front => if (ji_Timestamp front <? before)%Z then Some kL.1 else None
  end.
(** Source: modules/judge/store/history.go, JudgeItemMap.CleanStale. *)
Definition JIM_CleanStale (before : Z) (m : gmap string SafeLinkedList) : gmap string SafeLinkedList :=
  let keys := omap (stale_key before) (map_to_list m) in
  JIM_BatchDelete keys m.

(** Source: modules/judge/store/history.go, InitHistoryBigMap. *)
Definition InitHistoryBigMap (m : gmap string (gmap string SafeLinkedList)) : gmap string (gmap string SafeLinkedList) :=
  fold_left (fun m a => fold_left (fun m b => <[a ++s b := NewJudgeItemMap]> m) arr m) arr m.

Definition init_judge : JudgeState := mkJudge (InitHistoryBigMap ∅) ∅ ∅ ∅ ∅ ∅ ∅ ∅ [] 0.

Section judge.
Context (env : Env) (cfg : Config).

(** * Strategies of a host ([g/call.go]) *)

(** Source: modules/judge/g/var.go, SafeEventMap.Get. *)
Definition LastEvents_Get (key : string) : J (option Event) := gets (fun s => js_LastEvents s !! key).
(** Source: modules/judge/g/var.go, SafeEventMap.Set. *)
Definition LastEvents_Set (key : string) (e : Event) : J unit :=
  modify (fun s => set_LastEvents (<[key := e]> (js_LastEvents s)) s).

Definition GlobalCacheTtl : Z := (120 * 10 ^ 9)%Z.

(** [HostSSCache.Get]: present and not past its expiry. *)
Definition HostSSCache_Get (hostname : string) : J (option (list Strategy)) :=
  do! hit := gets (fun s => js_HostSSCache s !! hostname) in
  match hit with
  | None => ret None
  | Some (v, expiration) =>
      if (0 <? expiration)%Z
      then do! now := look (e_nano env) in
           ret (if (expiration <? now)%Z then None else Some v)
      else ret (Some v)
  end.
Definition HostSSCache_Set (hostname : string) (v : list Strategy) : J unit :=
  do! now := look (e_nano env) in
  modify (fun s => set_HostSSCache (<[hostname := (v, now +! GlobalCacheTtl)]> (js_HostSSCache s)) s).

(** Source: modules/judge/g/call.go, GetOneStrategy. A failed call gives no strategies. *)
Definition GetOneStrategy (hostname : string) : J (list Strategy) :=
  do! r := look (e_hbs env) in
  ret (match r hostname with Some l => l | None => [] end).

(** Source: modules/judge/g/call.go, GetOneUnionStrategy. *)
Definition GetOneUnionStrategy (id : Z) : J (list Strategy) :=
  do! r := look (e_hbs_union env) in
  ret (match r id with Some l => l | None => [] end).

(** Source: modules/judge/g/call.go, JudgeHostStrategies. *)
Definition JudgeHostStrategies (hostname : string) : J (list Strategy) :=
  do! hit := HostSSCache_Get hostname in
  match hit with
  | Some res => ret res
  | None =>
      do! res := GetOneStrategy hostname in
      do! _ := HostSSCache_Set hostname res in
      ret res
  end.

(** Source: modules/judge/g/call.go, CheckNeedJudge. *)
Definition CheckNeedJudge (hostname metric : string) : J (list Strategy) :=
  do! ss := JudgeHostStrategies hostname in
  if (length ss =? 0)%nat then ret []
  else ret (List.filter (fun i => String.eqb (st_Metric i) metric) ss).

(** * Sending an event *)

Definition finite (x : f64) : bool := negb (is_nan x) && negb (is_inf x).
(** [json.Marshal] of an event fails on a float that is not finite. *)
Fixpoint json_ok (e : Event) : bool :=
  finite (ev_LeftValue e)
  && match ev_Strategy e with Some s => finite (st_RightValue s) | None => true end
  && match ev_Expression e with Some x => finite (ex_RightValue x) | None => true end
  && forallb json_ok (ev_EventChain e).

Definition emit (o : output) : J unit := modify (add_out o).

(** Source: modules/judge/store/judge.go, sendEventToRedis. *)
Definition sendEventToRedis (event : Event) : J unit :=
  if negb (json_ok event) then emit (MarshalFailed event)
  else
    do! p := lift (Event_Priority event) in
    emit (Pushed (cf_Queue cfg p) event).

(** Source: modules/judge/store/judge.go, sendEvent. *)
Definition sendEvent (event : Event) : J unit :=
  do! _ := LastEvents_Set (ev_Id event) event in
  sendEventToRedis event.

(** [string(i)] of an integer: the UTF-8 encoding of the code point. *)
Definition byte_chr (n : Z) : ascii := ascii_of_nat (Z.to_nat n).
Definition string_of_rune (r : Z) : string :=
  let r := if (r <? 0)%Z || (1114111 <? r)%Z || ((55296 <=? r)%Z && (r <=? 57343)%Z) then 65533%Z else r in
  if (r <? 128)%Z then String (byte_chr r) ""
  else if (r <? 2048)%Z then
    String (byte_chr (192 + r / 64)) (String (byte_chr (128 + r mod 64)) "")
  else if (r <? 65536)%Z then
    String (byte_chr (224 + r / 4096)) (String (byte_chr (128 + (r / 64) mod 64)) (String (byte_chr (128 + r mod 64)) ""))
  else
    String (byte_chr (240 + r / 262144)) (String (byte_chr (128 + (r / 4096) mod 64))
      (String (byte_chr (128 + (r / 64) mod 64)) (String (byte_chr (128 + r mod 64)) ""))).

(** At most [n] further attempts from the [i]-th; [true] if one succeeds. *)
Fixpoint union_attempts (addr : string) (event : Event) (i n : nat) : J bool :=
  match n with
  | O => ret false
  | S n' =>
      do! ok := look (e_union_rpc env) in
      do! _ := emit (UnionCalled addr i ok event) in
      if ok : bool then ret true else union_attempts addr event (S i) n'
  end.

(** Source: modules/judge/store/judge.go, sendEventForUnionStrategy. *)
Definition sendEventForUnionStrategy (event : Event) : J unit :=
  do! st := lift (deref (ev_Strategy event)) in
  if (st_UnionStrategyId st <=? 0)%Z then skip
  else
    do! _ := LastEvents_Set (ev_Id event) event in
    let pk := string_of_rune (st_UnionStrategyId st) in
    let node := cf_ring cfg pk in
    let addr := default "" (cf_Cluster cfg !! node) in
    do! _ := union_attempts addr event 0 3 in
    skip.

(** Source: modules/judge/store/judge.go, sendEventProxy. *)
Definition sendEventProxy (event : Event) : J unit :=
  do! st := lift (deref (ev_Strategy event)) in
  if (0 <? st_UnionStrategyId st)%Z then sendEventForUnionStrategy event else sendEvent event.

(** The first byte of the status is tested: it panics on an empty one. *)
Definition status_is (c : ascii) (e : Event) : J bool :=
  do! b := lift (first_byte (ev_Status e)) in ret (Ascii.eqb b c).

(** Source: modules/judge/store/judge.go, sendEventIfNeed. *)
Definition sendEventIfNeed (historyData : list HistoryData) (isTriggered : bool) (now : Z)
    (event : Event) (maxStep : Z) : J unit :=
  do! lastEvent := LastEvents_Get (ev_Id event) in
  if isTriggered then
    let event := set_Status PROBLEM event in
    do! fresh := match lastEvent with None => ret true | Some l => status_is "O" l end in
    if fresh : bool then
      let event := set_CurrentStep 1 event in
      if (maxStep =? 0)%Z then skip else sendEventProxy event
    else
      do! l := lift (deref lastEvent) in
      if (maxStep <=? ev_CurrentStep l)%Z then skip
      else
        do! oldest := lift (at_index historyData (Z.of_nat (length historyData) - 1)) in
        if (hd_Timestamp oldest <=? ev_EventTime l)%Z then skip
        else if (now -! ev_EventTime l <? cf_MinInterval cfg)%Z then skip
        else sendEventProxy (set_CurrentStep (ev_CurrentStep l +! 1) event)
  else
    match lastEvent with
    | None => skip
    | Some l =>
        do! problem := status_is "P" l in
        if problem : bool then sendEventProxy (set_CurrentStep 1 (set_Status OK event)) else skip
    end.

(** * Judging an item *)

(** Source: modules/judge/store/judge.go, lines 76-86. The loop over the rule's tags. Symbol: CheckStrategy. *)
Definition related (tags itemTags : tagmap) : bool :=
  forallb (fun '(tagKey, tagVal) =>
    match itemTags !! tagKey with Some myVal => String.eqb myVal tagVal | None => false end) (map_to_list tags).

(** Source: modules/judge/store/judge.go, judgeItemWithStrategy. *)
Definition judgeItemWithStrategy (L : SafeLinkedList) (strategy : Strategy) (firstItem : JudgeItem) (now : Z) : J unit :=
  do! fn := lift (ParseFuncFromString (st_Func strategy) (st_Operator strategy) (st_RightValue strategy)) in
  match fn with
  | inl err => skip
  | inr fn =>
      do! c := lift (Compute fn L) in
      if negb (c_isEnough c) then skip
      else
        let event := mkEvent ("s_" ++s itoa (st_Id strategy) ++s "_" ++s JudgeItem_PrimaryKey firstItem)
          (Some strategy) None "" (ji_Endpoint firstItem) (c_leftValue c) 0 (ji_Timestamp firstItem)
          (ji_Tags firstItem) [] in
        sendEventIfNeed (c_vs c) (c_isTriggered c) now event (st_MaxStep strategy)
  end.

(** Source: modules/judge/store/judge.go, CheckStrategy. *)
Definition CheckStrategy (L : SafeLinkedList) (firstItem : JudgeItem) (now : Z) : J unit :=
  do! filterSS := CheckNeedJudge (ji_Endpoint firstItem) (ji_Metric firstItem) in
  if (length filterSS =? 0)%nat then skip
  else forM filterSS (fun s =>
    if related (st_Tags s) (ji_Tags firstItem) then judgeItemWithStrategy L s firstItem now else skip).

(** Source: modules/judge/store/judge.go, judgeItemWithExpression. *)
Definition judgeItemWithExpression (L : SafeLinkedList) (expression : Expression) (firstItem : JudgeItem) (now : Z) : J unit :=
  do! fn := lift (ParseFuncFromString (ex_Func expression) (ex_Operator expression) (ex_RightValue expression)) in
  match fn with
  | inl err => skip
  | inr fn =>
      do! c := lift (Compute fn L) in
      if negb (c_isEnough c) then skip
      else
        let event := mkEvent ("e_" ++s itoa (ex_Id expression) ++s "_" ++s JudgeItem_PrimaryKey firstItem)
          None (Some expression) "" (ji_Endpoint firstItem) (c_leftValue c) 0 (ji_Timestamp firstItem)
          (ji_Tags firstItem) [] in
        sendEventIfNeed (c_vs c) (c_isTriggered c) now event (ex_MaxStep expression)
  end.

(** Source: modules/judge/store/judge.go, copyItemTags. *)
Definition copyItemTags (item : JudgeItem) : tagmap :=
  let ret : tagmap := {["endpoint" := ji_Endpoint item]} in
  if (0 <? size (ji_Tags item))%nat
  then fold_left (fun ret kv => <[kv.1 := kv.2]> ret) (map_to_list (ji_Tags item)) ret
  else ret.

(** Source: modules/judge/store/judge.go, filterRelatedExpressions. *)
Definition filterRelatedExpressions (expressions : list Expression) (firstItem : JudgeItem) : list Expression :=
  if (length expressions =? 0)%nat then []
  else List.filter (fun exp =>
    let itemTagsCopy := match ex_Tags exp !! "endpoint" with
                        | Some _ => copyItemTags firstItem
                        | None => ji_Tags firstItem
                        end in
    related (ex_Tags exp) itemTagsCopy) expressions.

(** Source: modules/judge/store/judge.go, buildKeysFromMetricAndTags. *)
Definition buildKeysFromMetricAndTags (item : JudgeItem) : J (list string) :=
  do! order := look (e_keys env) in
  let ks := order (map_to_list (ji_Tags item)).*1 in
  ret (map (fun k => ji_Metric item ++s "/" ++s k ++s "=" ++s default "" (ji_Tags item !! k)) ks
       ++ [ji_Metric item ++s "/endpoint=" ++s ji_Endpoint item])%list.

(** Source: modules/judge/store/judge.go, lines 195-202. The expressions under one key, each handled once. Symbol: CheckExpression. *)
Definition check_related (L : SafeLinkedList) (firstItem : JudgeItem) (now : Z)
    (handled : list Z) (expressions : list Expression) : J (list Z) :=
  foldM (fun handled exp =>
    if bool_decide (ex_Id exp ∈ handled) then ret handled
    else
      do! _ := judgeItemWithExpression L exp firstItem now in
      ret (ex_Id exp :: handled)) handled (filterRelatedExpressions expressions firstItem).

(** Source: modules/judge/store/judge.go, CheckExpression. *)
Definition CheckExpression (L : SafeLinkedList) (firstItem : JudgeItem) (now : Z) : J unit :=
  do! keys := buildKeysFromMetricAndTags firstItem in
  if (length keys =? 0)%nat then skip
  else
    do! expressionMap := gets js_ExpressionMap in
    do! _ := foldM (fun handled key =>
      match expressionMap !! key with
      | None => ret handled
      | Some expressions => check_related L firstItem now handled expressions
      end) [] keys in
    skip.

(** Source: modules/judge/store/judge.go, Judge. *)
Definition Judge (L : SafeLinkedList) (firstItem : JudgeItem) (now : Z) : J unit :=
  do! _ := CheckStrategy L firstItem now in
  CheckExpression L firstItem now.

(** * Receiving items *)

(** Source: modules/judge/store/history.go, JudgeItemMap.PushFrontAndMaintain. On the slot [slot] of [HistoryBigMap]. *)
Definition JIM_PushFrontAndMaintain (slot key : string) (val : JudgeItem) (maxCount now : Z) : J unit :=
  do! big := gets js_HistoryBigMap in
  do! m := lift (deref (big !! slot)) in
  match JIM_Get key m with
  | Some linkedList =>
      do! (L, needJudge) := lift (PushFrontAndMaintain val maxCount linkedList) in
      do! _ := modify (fun s => set_History (<[slot := JIM_Set key L m]> (js_HistoryBigMap s)) s) in
      if needJudge : bool then Judge L val now else skip
  | None =>
      let NL := PushFront val [] in
      do! _ := modify (fun s => set_History (<[slot := JIM_Set key NL m]> (js_HistoryBigMap s)) s) in
      Judge NL val now
  end.

(** Source: modules/judge/rpc/receiver.go, lines 41-52. One item. Symbol: Judge.Send. *)
Definition Send_item (now : Z) (item : JudgeItem) : J unit :=
  if (ji_Timestamp item <=? 0)%Z then skip
  else
    do! filterSS := CheckNeedJudge (ji_Endpoint item) (ji_Metric item) in
    if (length filterSS =? 0)%nat then skip
    else
      let pk := JudgeItem_PrimaryKey item in
      do! slot := lift (slice pk 0 2) in
      JIM_PushFrontAndMaintain slot pk item (cf_Remain cfg) now.

(** Source: modules/judge/rpc/receiver.go, Judge.Send. *)
Definition Send (items : list JudgeItem) : J unit :=
  do! nano := look (e_nano env) in
  forM items (Send_item (unix nano)).

(** * Union strategies ([store/union_judge.go]) *)

(** Source: modules/judge/store/union_judge.go, NewUnionJudgeEvent. *)
Definition NewUnionJudgeEvent : gmap string Event := ∅.
(** Source: modules/judge/store/union_judge.go, SafeUnionJudgeHistoryMap.Get. *)
Definition UnionJudgeHistoryMap_Get (key : string) : J (option (gmap string Event)) :=
  gets (fun s => js_UnionJudgeHistoryMap s !! key).
(** Source: modules/judge/store/union_judge.go, SafeUnionJudgeHistoryMap.Set. *)
Definition UnionJudgeHistoryMap_Set (key : string) (v : gmap string Event) : J unit :=
  modify (fun s => set_UnionHistory (<[key := v]> (js_UnionJudgeHistoryMap s)) s).
Definition UnionLastEvents_Set (key : string) (e : Event) : J unit :=
  modify (fun s => set_UnionLastEvents (<[key := e]> (js_UnionLastEvents s)) s).

Definition is_status (st : string) (e : Event) : bool := String.eqb (ev_Status e) st.

(** Source: modules/judge/store/union_judge.go, UnionJudge.SetAndJudge. The result is the object's map [M]; the pushed event is the pointer stored in it. *)
Definition SetAndJudge (key : string) (event : Event) (m : gmap string Event) : J (gmap string Event) :=
  do! st := lift (deref (ev_Strategy event)) in
  let unionId := st_UnionStrategyId st in
  do! sChain := GetOneUnionStrategy unionId in
  let sNums := length sChain in
  let m := <[key := event]> m in
  if negb (sNums =? size m)%nat then ret m
  else
    do! order := look (e_keys env) in
    let evs := omap (fun k => e ← m !! k; Some (k, e)) (order (map_to_list m).*1) in
    let okNum := length (List.filter (fun ke => is_status "OK" ke.2) evs) in
    let eChain := map snd (List.filter (fun ke => negb (String.eqb key ke.1)) evs) in
    let event := set_EventChain eChain event in
    let m := <[key := event]> m in
    do! nano := look (e_nano env) in
    let now := unix nano in
    if (okNum =? sNums)%nat then
      do! _ := UnionLastEvents_Set (itoa unionId) event in
      do! _ := sendEvent event in
      ret m
    else if (okNum =? 0)%nat then
      do! last := gets (fun s => js_UnionLastEvents s !! itoa unionId) in
      match last with
      | None =>
          do! _ := UnionLastEvents_Set (itoa unionId) event in
          do! _ := sendEvent event in
          ret m
      | Some lastEvent =>
          if is_status "OK" lastEvent then
            let event := set_CurrentStep 1 event in
            do! _ := UnionLastEvents_Set (itoa unionId) event in
            do! _ := sendEvent event in
            ret (<[key := event]> m)
          else
            do! maxStep := lift (Event_MaxStep lastEvent) in
            if (maxStep <=? ev_CurrentStep lastEvent)%Z then ret m
            else if (now -! ev_EventTime lastEvent <? cf_MinInterval cfg)%Z then ret m
            else
              let event := set_CurrentStep (ev_CurrentStep lastEvent +! 1) event in
              do! _ := UnionLastEvents_Set (itoa unionId) event in
              do! _ := sendEvent event in
              ret (<[key := event]> m)
      end
    else ret m.

(** Source: modules/judge/rpc/receiver.go, Judge.UnionJudge. The result is the returned error. *)
Definition UnionJudge (event : Event) : J (option string) :=
  do! st := lift (deref (ev_Strategy event)) in
  if (st_UnionStrategyId st <=? 0)%Z then ret (Some "not union strategy")
  else
    let thisCounter := Counter (st_Metric st) (st_Tags st) in
    do! thisUnionStrategies := GetOneUnionStrategy (st_UnionStrategyId st) in
    let unionIDSlice := "" :: map (fun i => Counter (st_Metric i) (st_Tags i)) thisUnionStrategies in
    let unionID := fold_left String.append (sort_strings unionIDSlice) "" in
    do! found := UnionJudgeHistoryMap_Get unionID in
    let unionJudge := match found with Some u => u | None => NewUnionJudgeEvent end in
    do! unionJudge := SetAndJudge thisCounter event unionJudge in
    do! _ := UnionJudgeHistoryMap_Set unionID unionJudge in
    ret None.

(** * Periodic work ([cron]) *)

(** Source: modules/judge/cron/cleaner.go, cleanStale. *)
Definition cleanStale : J unit :=
  do! nano := look (e_nano env) in
  let before := (unix nano -! 3600 * 24 * 7)%Z in
  forM slots (fun slot =>
    do! big := gets js_HistoryBigMap in
    do! m := lift (deref (big !! slot)) in
    modify (fun s => set_History (<[slot := JIM_CleanStale before m]> (js_HistoryBigMap s)) s)).

(** [m[key] = append(m[key], v)]. *)
Definition append_at {V} (m : gmap string (list V)) (key : string) (v : V) : gmap string (list V) :=
  <[key := (default [] (m !! key) ++ [v])%list]> m.

(** Source: modules/judge/cron/strategy.go, rebuildStrategyMap. *)
Definition rebuildStrategyMap (hostStrategies : list (string * list Strategy)) : J unit :=
  let m := fold_left (fun m hs =>
    fold_left (fun m strategy => append_at m (hs.1 ++s "/" ++s st_Metric strategy) strategy) hs.2 m)
    hostStrategies ∅ in
  modify (set_StrategyMap m).

(** Source: modules/judge/cron/strategy.go, lines 95-105. The new map. Symbol: rebuildExpressionMap. *)
Definition expression_map (expressions : list Expression) : gmap string (list Expression) :=
  fold_left (fun m exp =>
    fold_left (fun m kv => append_at m (ex_Metric exp ++s "/" ++s kv.1 ++s "=" ++s kv.2) exp)
      (map_to_list (ex_Tags exp)) m)
    expressions ∅.

(** Source: modules/judge/cron/strategy.go, rebuildExpressionMap. *)
Definition rebuildExpressionMap (expressions : list Expression) : J unit :=
  modify (set_ExpressionMap (expression_map expressions)).

(** Source: modules/judge/cron/strategy.go, syncExpression. *)
Definition syncExpression : J unit :=
  do! r := look (e_hbs_expr env) in
  match r with None => skip | Some l => rebuildExpressionMap l end.

(** Source: modules/judge/cron/strategy.go, syncFilter. *)
Definition syncFilter : J unit :=
  do! strategyMap := gets js_StrategyMap in
  do! expressionMap := gets js_ExpressionMap in
  let m := fold_left (fun m st => <[st_Metric st := st_Metric st]> m) (concat (map_to_list strategyMap).*2) ∅ in
  let m := fold_left (fun m ex => <[ex_Metric ex := ex_Metric ex]> m) (concat (map_to_list expressionMap).*2) m in
  modify (set_FilterMap m).
End judge.
