(* ===== verification/JudgeStoreThms.v ===== *)
(** Theorems on the judge's handlers: the alarm state machine as a trace
    property of every run, the invariant of the history maps, what expressions
    and union strategies do, and the effect of a failed call to HBS. *)
From S2P Require Export JudgeStore.
From Stdlib Require Import Ascii.
Local Open Scope string_scope.

(** * Relatedness *)

Lemma related_subset tags it : related tags it = true <-> tags ⊆ it.
Proof.
  unfold related. rewrite forallb_forall, map_subseteq_spec. split.
  - intros H k v Hk. specialize (H (k, v)). simpl in H.
    rewrite <- list_elem_of_In, elem_of_map_to_list in H. specialize (H Hk).
    destruct (it !! k); [|done]. by apply String.eqb_eq in H as ->.
  - intros H [k v] Hk%list_elem_of_In%elem_of_map_to_list. rewrite (H k v Hk). apply String.eqb_refl.
Qed.

Lemma fold_insert_map_to_list (m d : tagmap) :
  fold_left (fun ret kv => <[kv.1 := kv.2]> ret) (map_to_list m) d = m ∪ d.
Proof.
  revert d. induction m as [|k v m Hk Hf IH] using map_first_key_ind; intros d.
  { rewrite map_to_list_empty. by rewrite (left_id_L ∅ (∪)). }
  rewrite map_to_list_insert_first_key by done. simpl. rewrite IH.
  rewrite <- insert_union_r by done. by rewrite insert_union_l.
Qed.

(** An item's tags with its endpoint; a tag named [endpoint] wins. *)
Lemma copyItemTags_union item : copyItemTags item = ji_Tags item ∪ {["endpoint" := ji_Endpoint item]}.
Proof.
  unfold copyItemTags. destruct (Nat.ltb_spec 0 (size (ji_Tags item))) as [H|H].
  - apply fold_insert_map_to_list.
  - assert (ji_Tags item = ∅) as -> by (apply map_size_empty_iff; lia). by rewrite (left_id_L ∅ (∪)).
Qed.

Lemma filterRelated_spec exps item exp :
  exp ∈ filterRelatedExpressions exps item <->
  exp ∈ exps /\ ex_Tags exp ⊆ ji_Tags item ∪ {["endpoint" := ji_Endpoint item]}.
Proof.
  unfold filterRelatedExpressions. destruct exps as [|e0 exps]; [simpl; rewrite elem_of_nil; tauto|].
  cbn [length Nat.eqb]. rewrite !list_elem_of_In, filter_In. apply and_iff_compat_l.
  rewrite related_subset, copyItemTags_union. destruct (ex_Tags exp !! "endpoint") eqn:E; [done|].
  split.
  - intros H. etrans; [exact H|]. apply map_union_subseteq_l.
  - rewrite !map_subseteq_spec. intros H k v Hk. specialize (H k v Hk).
    rewrite lookup_union_Some_raw in H. destruct H as [H|[_ H]]; [done|].
    apply lookup_singleton_Some in H as [<- _]. congruence.
Qed.

(** * What each statement changes *)

Definition same_histories (s s' : JudgeState) : Prop := js_HistoryBigMap s = js_HistoryBigMap s'.
#[export] Instance same_histories_pre : PreOrder same_histories.
Proof. split; [done|]. intros ? ? ?. unfold same_histories. congruence. Qed.

(** Everything but the caches, the sent events and the clock. *)
Definition quiet (s s' : JudgeState) : Prop :=
  js_HistoryBigMap s = js_HistoryBigMap s' /\ js_LastEvents s = js_LastEvents s' /\ js_out s = js_out s' /\
  js_ExpressionMap s = js_ExpressionMap s'.
#[export] Instance quiet_pre : PreOrder quiet.
Proof. split; [done|]. intros ? ? ?. unfold quiet. intuition congruence. Qed.

Lemma look_quiet {A} (f : nat -> A) : moves quiet (look f).
Proof. by intros s a s' [= <- <-]. Qed.
Lemma look_same {A} (f : nat -> A) : moves same_histories (look f).
Proof. by intros s a s' [= <- <-]. Qed.

(** Walk through the statements of a handler that preserve a relation. *)
Ltac mv L := apply L; try exact _.
Ltac walk := repeat match goal with
  | |- moves _ (mthen _ _) => mv @moves_then; [|intros]
  | |- moves _ (ret _) => mv @moves_ret
  | |- moves _ skip => mv @moves_ret
  | |- moves _ (gets _) => mv @moves_gets
  | |- moves _ (lift _) => mv @moves_lift
  | |- moves quiet (look _) => apply look_quiet
  | |- moves same_histories (look _) => apply look_same
  | |- moves _ (forM _ _) => mv @moves_forM; intros
  | |- moves _ (foldM _ _ _) => mv @moves_foldM; intros
  | |- moves _ (match ?x with _ => _ end) => destruct x
  | |- moves _ (modify _) => mv @moves_modify; done
  end.

Section effects.
Context (env : Env) (cfg : Config).

Lemma CheckNeedJudge_quiet h m : moves quiet (CheckNeedJudge env h m).
Proof using Type.
  unfold CheckNeedJudge, JudgeHostStrategies, HostSSCache_Get, HostSSCache_Set, GetOneStrategy. walk.
Qed.

Lemma union_attempts_same addr e i n : moves same_histories (union_attempts env addr e i n).
Proof using Type.
  revert i; induction n as [|n IH]; intros i; cbn [union_attempts]; unfold emit; walk. apply IH.
Qed.

Lemma sendEventProxy_same e : moves same_histories (sendEventProxy env cfg e).
Proof using Type.
  unfold sendEventProxy, sendEventForUnionStrategy, sendEvent, sendEventToRedis, LastEvents_Set, emit.
  walk; apply union_attempts_same.
Qed.

Lemma sendEventIfNeed_same h t now e m : moves same_histories (sendEventIfNeed env cfg h t now e m).
Proof using Type.
  unfold sendEventIfNeed, LastEvents_Get, status_is. walk; apply sendEventProxy_same.
Qed.

Lemma Judge_same L item now : moves same_histories (Judge env cfg L item now).
Proof using Type.
  unfold Judge, CheckStrategy, CheckExpression, check_related, judgeItemWithStrategy, judgeItemWithExpression,
    buildKeysFromMetricAndTags. walk; try apply sendEventIfNeed_same.
  intros s a s' H. by apply CheckNeedJudge_quiet in H as (? & _).
Qed.

Lemma SetAndJudge_same key e m : moves same_histories (SetAndJudge env cfg key e m).
Proof using Type.
  unfold SetAndJudge, GetOneUnionStrategy, UnionLastEvents_Set, sendEvent, sendEventToRedis, LastEvents_Set, emit. walk.
Qed.
End effects.

(** * The history maps *)

Lemma slots_spec slot : slot ∈ slots <-> exists a b, a ∈ arr /\ b ∈ arr /\ slot = a ++s b.
Proof.
  unfold slots. rewrite list_elem_of_bind. setoid_rewrite list_elem_of_bind.
  setoid_rewrite list_elem_of_singleton. naive_solver.
Qed.

Lemma hex_digit_arr a : a ∈ hex_digits -> String a "" ∈ arr.
Proof.
  intros H. unfold hex_digits in H. cbn in H. unfold arr.
  rewrite !elem_of_cons in H. rewrite !elem_of_cons. repeat destruct H as [->|H]; try tauto.
  by apply elem_of_nil in H.
Qed.

Lemma PrimaryKey_slot item : exists slot, slice (JudgeItem_PrimaryKey item) 0 2 = Ret slot /\ slot ∈ slots.
Proof.
  unfold JudgeItem_PrimaryKey, Md5.
  destruct (md5_hex_prefix (PK (ji_Endpoint item) (ji_Metric item) (ji_Tags item))) as (a & b & t & E & Ha & Hb).
  rewrite E. exists (String a (String b "")). split.
  - unfold slice, slen. cbn [String.length]. repeat zcase. cbn. by destruct t.
  - apply slots_spec. exists (String a ""), (String b ""). auto using hex_digit_arr.
Qed.

Lemma init_slots slot : is_Some (InitHistoryBigMap ∅ !! slot) <-> slot ∈ slots.
Proof.
  rewrite <- elem_of_dom, <- (elem_of_list_to_set (C:=gset string)).
  enough (dom (InitHistoryBigMap ∅) = list_to_set slots) as -> by done. by_compute.
Qed.
#[local] Opaque slots.
Lemma init_empty slot m : InitHistoryBigMap ∅ !! slot = Some m -> m = ∅.
Proof.
  intros H.
  assert (map_Forall (fun _ m => m = ∅) (InitHistoryBigMap ∅)) as Ha; [|by eapply Ha].
  clear. unfold InitHistoryBigMap.
  assert (forall l l2 (m : gmap string (gmap string SafeLinkedList)), map_Forall (fun _ m => m = ∅) m ->
    map_Forall (fun _ m => m = ∅) (fold_left (fun m a => fold_left (fun m b => <[a ++s b := NewJudgeItemMap]> m) l2 m) l m)) as H.
  { induction l as [|a l IH]; intros l2 m Hm; [done|]. cbn [fold_left]. apply IH.
    clear IH. revert m Hm. induction l2 as [|b l2 IH]; intros m Hm; [done|]. cbn [fold_left]. apply IH.
    by apply map_Forall_insert_2. }
  apply H, map_Forall_empty.
Qed.

(** What the judge promises of every history it keeps: newest first, at most
    [Remain] items, all of the series whose checksum is the key, filed in the
    slot of that key. *)
Definition history_ok (cfg : Config) (slot key : string) (L : SafeLinkedList) : Prop :=
  L <> [] /\ decreasing L /\ (Len L <= cf_Remain cfg)%Z /\
  Forall (fun i => JudgeItem_PrimaryKey i = key /\ (0 < ji_Timestamp i)%Z) L /\ slice key 0 2 = Ret slot.
Definition histories_ok (cfg : Config) (s : JudgeState) : Prop :=
  (forall slot, is_Some (js_HistoryBigMap s !! slot) <-> slot ∈ slots) /\
  map_Forall (fun slot m => map_Forall (history_ok cfg slot) m) (js_HistoryBigMap s).

Definition remain_ok (cfg : Config) : Prop := (1 <= cf_Remain cfg < 2 ^ 45)%Z.

Section histories.
Context (env : Env) (cfg : Config) (Hremain : remain_ok cfg).

Lemma histories_ok_same s s' : same_histories s s' -> histories_ok cfg s -> histories_ok cfg s'.
Proof using Type. unfold same_histories, histories_ok. by intros ->. Qed.

Lemma histories_ok_set s slot m :
  histories_ok cfg s -> slot ∈ slots -> map_Forall (history_ok cfg slot) m ->
  histories_ok cfg (set_History (<[slot := m]> (js_HistoryBigMap s)) s).
Proof using Type.
  intros [Hd Hf] Hs Hm. split; cbn.
  - intros slot'. destruct (decide (slot' = slot)) as [->|Hne].
    + rewrite lookup_insert_eq. naive_solver.
    + by rewrite lookup_insert_ne.
  - by apply map_Forall_insert_2.
Qed.

(** Pushing an accepted item on a good history. *)
Lemma push_history_ok slot key v L :
  history_ok cfg slot key L -> JudgeItem_PrimaryKey v = key -> (0 < ji_Timestamp v)%Z ->
  exists L', PushFrontAndMaintain v (cf_Remain cfg) L = Ret (L', accepts v L) /\ history_ok cfg slot key L' /\
    (accepts v L = true -> head L' = Some v).
Proof using Hremain.
  intros (Hne & Hd & Hl & Hall & Hs) Hk Ht. unfold remain_ok in Hremain.
  rewrite push_spec by (unfold in_i64; lia). eexists. split; [done|].
  destruct (accepts v L) eqn:Ha; [|done].
  assert (exists r, Z.to_nat (cf_Remain cfg) = S r) as [r Hr] by (exists (pred (Z.to_nat (cf_Remain cfg))); lia).
  split; [|intros _; by rewrite Hr]. repeat split.
  - by rewrite Hr.
  - by apply decreasing_take, push_decreasing.
  - unfold Len. rewrite length_take. lia.
  - apply Forall_take. by constructor.
  - done.
Qed.

Lemma new_history_ok slot v :
  slice (JudgeItem_PrimaryKey v) 0 2 = Ret slot -> (0 < ji_Timestamp v)%Z ->
  history_ok cfg slot (JudgeItem_PrimaryKey v) [v].
Proof using Hremain.
  intros. unfold remain_ok in Hremain. repeat split; try done.
  - repeat constructor.
  - unfold Len. simpl. lia.
  - by repeat constructor.
Qed.

(** What [JIM_PushFrontAndMaintain] does before judging. *)
Lemma JIM_Push_run slot v now s :
  histories_ok cfg s -> slice (JudgeItem_PrimaryKey v) 0 2 = Ret slot -> slot ∈ slots -> (0 < ji_Timestamp v)%Z ->
  exists L s1 j,
    JIM_PushFrontAndMaintain env cfg slot (JudgeItem_PrimaryKey v) v (cf_Remain cfg) now s
      = (if j : bool then Judge env cfg L v now else skip) s1 /\
    s1 = set_History (js_HistoryBigMap s1) s /\ histories_ok cfg s1 /\
    history_ok cfg slot (JudgeItem_PrimaryKey v) L /\ (j = true -> head L = Some v).
Proof using Hremain.
  intros Hok Hsl Hin Hts. pose proof Hok as [Hd Hf].
  destruct (js_HistoryBigMap s !! slot) as [m|] eqn:Em.
  2:{ apply Hd in Hin as [? ?]. congruence. }
  pose proof (Hf slot m Em) as Hm. cbn in Hm.
  unfold JIM_PushFrontAndMaintain, mthen at 1, gets. rewrite Em. cbn [deref]. unfold lift at 1, mthen at 1, JIM_Get.
  destruct (m !! JudgeItem_PrimaryKey v) as [L|] eqn:EL.
  - destruct (push_history_ok slot _ v L (Hm _ _ EL) eq_refl Hts) as (L' & E & HL' & Hh).
    rewrite E. eexists L', _, (accepts v L). split; [reflexivity|]. split; [done|]. split; [|done].
    apply histories_ok_set; [done..|]. by apply map_Forall_insert_2.
  - pose proof (new_history_ok slot v Hsl Hts) as HL.
    eexists [v], _, true. split; [reflexivity|]. split; [done|]. split; [|done].
    apply histories_ok_set; [done..|]. by apply map_Forall_insert_2.
Qed.

Lemma Send_item_histories now item : keeps (histories_ok cfg) (Send_item env cfg now item).
Proof using Hremain.
  intros s a s' Hs H. unfold Send_item in H. destruct (Z.leb_spec (ji_Timestamp item) 0); [by injection H as <- <-|].
  step_inv H. apply CheckNeedJudge_quiet in E as [E _].
  apply (histories_ok_same _ _ E) in Hs. destruct (_ =? _)%nat; [by injection H as <- <-|].
  destruct (PrimaryKey_slot item) as (slot & Es & Hin). rewrite Es in H. cbn [lift mthen] in H.
  destruct (JIM_Push_run slot item now s0 Hs Es Hin ltac:(lia)) as (L & s1 & j & Hrun & _ & Hs1 & _ & _).
  unfold lift, mthen in H. rewrite Hrun in H. eapply histories_ok_same; [|exact Hs1].
  destruct j; [by eapply Judge_same|by injection H as <- <-].
Qed.

Lemma Send_histories items : keeps (histories_ok cfg) (Send env cfg items).
Proof using Hremain.
  unfold Send. apply keeps_then; [|intros nano; apply keeps_forM; intros; apply Send_item_histories].
  intros s a s' Hs [= <- <-]. done.
Qed.

Lemma BatchDelete_subseteq keys m : JIM_BatchDelete keys m ⊆ m.
Proof using Type.
  unfold JIM_BatchDelete. revert m; induction keys as [|k keys IH]; intros m; [done|]. cbn [fold_left].
  etrans; [apply IH|]. apply delete_subseteq.
Qed.

Lemma cleanStale_histories : keeps (histories_ok cfg) (cleanStale env).
Proof using Type.
  unfold cleanStale. apply keeps_then; [by intros s a s' Hs [= <- <-]|].
  intros nano. apply keeps_forM. intros slot Hslot s a s' Hs H.
  unfold mthen at 1, gets, lift in H. cbn in H. destruct (js_HistoryBigMap s !! slot) as [m|] eqn:E; [|done].
  cbn in H. injection H as <- <-. apply histories_ok_set; [done..|].
  intros k L Hk. eapply (proj2 Hs _ _ E). eapply lookup_weaken; [exact Hk|]. apply BatchDelete_subseteq.
Qed.

Lemma UnionJudge_histories e : keeps (histories_ok cfg) (UnionJudge env cfg e).
Proof using Type.
  intros s a s' Hs H. eapply histories_ok_same; [|exact Hs]. revert H.
  generalize s, a, s'. clear s a s' Hs. change (moves same_histories (UnionJudge env cfg e)).
  unfold UnionJudge, GetOneUnionStrategy, UnionJudgeHistoryMap_Get, UnionJudgeHistoryMap_Set. walk.
  apply SetAndJudge_same.
Qed.

Lemma syncExpression_histories : keeps (histories_ok cfg) (syncExpression env).
Proof using Type.
  unfold syncExpression. apply keeps_then; [by intros s a s' Hs [= <- <-]|].
  intros [l|]; [|apply keeps_ret]. by apply keeps_modify.
Qed.
End histories.

(** ** Runs *)

(** One handler or periodic task of a judge. *)
Inductive judge_step (env : Env) (cfg : Config) : JudgeState -> JudgeState -> Prop :=
  | step_Send items s s' : Send env cfg items s = Ret (tt, s') -> judge_step env cfg s s'
  | step_UnionJudge e r s s' : UnionJudge env cfg e s = Ret (r, s') -> judge_step env cfg s s'
  | step_cleanStale s s' : cleanStale env s = Ret (tt, s') -> judge_step env cfg s s'
  | step_syncExpression s s' : syncExpression env s = Ret (tt, s') -> judge_step env cfg s s'.

Lemma init_histories_ok cfg : histories_ok cfg init_judge.
Proof.
  split; [exact init_slots|]. intros slot m Hm. cbn in Hm. apply init_empty in Hm as ->. apply map_Forall_empty.
Qed.

Lemma reachable_histories env cfg s :
  remain_ok cfg -> rtc (judge_step env cfg) init_judge s -> histories_ok cfg s.
Proof.
  intros Hr. apply (rtc_ind_r (fun s => histories_ok cfg s)).
  - apply init_histories_ok.
  - intros s1 s2 _ Hstep Hs1. destruct Hstep as [? ? ? H|? ? ? ? H|? ? H|? ? H].
    + by eapply Send_histories.
    + by eapply UnionJudge_histories.
    + by eapply cleanStale_histories.
    + by eapply syncExpression_histories.
Qed.

(** * Traces of alarms *)

(** The event a line of output hands on, counted once per alarm. *)
Definition sent_of (o : output) : option Event :=
  match o with
  | Pushed _ e | MarshalFailed e | UnionCalled _ 0 _ e => Some e
  | UnionCalled _ (S _) _ _ => None
  end.
(** The alarms handed on so far for one event id, oldest first. *)
Definition trace (id : string) (s : JudgeState) : list Event :=
  List.filter (fun e => String.eqb (ev_Id e) id) (omap sent_of (js_out s)).

(** What may come after the event [p] (or first): alarm 1 unless the rule is
    muted, the next alarm up to the rule's maximum and about a newer point, or
    one recovery. *)
Definition follows (p : option Event) (e : Event) : Prop :=
  exists m, Event_MaxStep e = Ret m /\
  match p with
  | Some p =>
      if String.eqb (ev_Status p) PROBLEM
      then (ev_Status e = OK /\ ev_CurrentStep e = 1)%Z \/
           (ev_Status e = PROBLEM /\ ev_CurrentStep p < m /\ ev_EventTime p < ev_EventTime e /\
            (in_i64 m -> ev_CurrentStep e = ev_CurrentStep p + 1))%Z
      else (ev_Status e = PROBLEM /\ ev_CurrentStep e = 1 /\ m <> 0)%Z
  | None => (ev_Status e = PROBLEM /\ ev_CurrentStep e = 1 /\ m <> 0)%Z
  end.
Fixpoint chained (p : option Event) (l : list Event) : Prop :=
  match l with [] => True | e :: l' => follows p e /\ chained (Some e) l' end.

Definition status_ok (e : Event) : Prop := ev_Status e = PROBLEM \/ ev_Status e = OK.
Definition traces_ok (s : JudgeState) : Prop :=
  forall id, chained None (trace id s) /\ last (trace id s) = js_LastEvents s !! id /\
    forall e, js_LastEvents s !! id = Some e -> status_ok e /\ in_i64 (ev_CurrentStep e).

Lemma chained_snoc p l e :
  chained p (l ++ [e])%list <-> chained p l /\ follows (match last l with Some x => Some x | None => p end) e.
Proof.
  revert p; induction l as [|x l IH]; intros p; cbn [chained app]; [tauto|]. rewrite IH.
  destruct l as [|y l]; [cbn; tauto|]. rewrite !last_cons. destruct (last l); tauto.
Qed.

Lemma traces_ok_quiet s s' : quiet s s' -> traces_ok s -> traces_ok s'.
Proof. unfold quiet, traces_ok, trace. intros (_ & <- & <- & _). done. Qed.

Lemma event_MaxStep_status st e : Event_MaxStep (set_Status st e) = Event_MaxStep e.
Proof. done. Qed.

Section traces.
Context (env : Env) (cfg : Config).

(** Handing on one event: it becomes the last event of its id, and the output
    grows by it alone. *)
Definition hands_on (e : Event) (s s' : JudgeState) : Prop :=
  js_LastEvents s' = <[ev_Id e := e]> (js_LastEvents s) /\
  exists os, js_out s' = (js_out s ++ os)%list /\ omap sent_of os = [e].

Lemma hands_on_traces e s s' :
  hands_on e s s' -> follows (js_LastEvents s !! ev_Id e) e -> status_ok e -> in_i64 (ev_CurrentStep e) ->
  traces_ok s -> traces_ok s'.
Proof using Type.
  intros (Hl & os & Ho & Hos) Hf Hst Hi Hs id. destruct (Hs id) as (Hc & Hlast & Hall).
  unfold trace. rewrite Ho, omap_app, Hos, List.filter_app. fold (trace id s). cbn [List.filter]. rewrite Hl.
  destruct (String.eqb_spec (ev_Id e) id) as [<-|Hne].
  - rewrite lookup_insert_eq, last_snoc, chained_snoc. split; [|split; [done|by intros ? [= <-]]].
    split; [done|]. rewrite Hlast. by destruct (js_LastEvents s !! ev_Id e).
  - rewrite lookup_insert_ne by done. by rewrite app_nil_r.
Qed.

Lemma sendEvent_hands e s s' : sendEvent cfg e s = Ret (tt, s') -> hands_on e s s'.
Proof using Type.
  unfold sendEvent, sendEventToRedis, LastEvents_Set, emit, modify. intros H. step_inv H. injection E as <- <-.
  destruct (json_ok e); cbn [negb] in H.
  - step_inv H. unfold lift in E. destruct (Event_Priority e); [|done]. injection E as <- <-.
    injection H as <-. split; [done|]. by eexists [_].
  - injection H as <-. split; [done|]. by eexists [_].
Qed.

Lemma union_attempts_hands addr e i n s b s' :
  union_attempts env addr e i n s = Ret (b, s') ->
  js_LastEvents s' = js_LastEvents s /\ js_HistoryBigMap s' = js_HistoryBigMap s /\
  exists os, js_out s' = (js_out s ++ os)%list /\ omap sent_of os = match i, n with O, S _ => [e] | _, _ => [] end.
Proof using Type.
  revert i s; induction n as [|n IH]; intros i s; cbn [union_attempts].
  { intros [= <- <-]. do 2 (split; [done|]). exists []. rewrite app_nil_r. by destruct i. }
  intros H. step_inv H. injection E as <- <-. step_inv H. injection E as <- <-.
  destruct (e_union_rpc env (js_tick s)).
  - injection H as <- <-. do 2 (split; [done|]). eexists [_]. split; [done|]. by destruct i.
  - apply IH in H as (-> & -> & os & -> & Hos). do 2 (split; [done|]). cbn [add_out next_tick js_out].
    rewrite <- app_assoc. eexists. split; [done|]. cbn [app omap list_omap]. rewrite Hos. by destruct i.
Qed.

Lemma sendEventProxy_hands e s s' : sendEventProxy env cfg e s = Ret (tt, s') -> hands_on e s s'.
Proof using Type.
  unfold sendEventProxy. intros H. step_inv H. unfold lift in E. destruct (deref (ev_Strategy e)) eqn:Ed; [|done].
  injection E as <- <-. destruct (Z.ltb_spec 0 (st_UnionStrategyId a0)); [|by apply sendEvent_hands].
  unfold sendEventForUnionStrategy in H. rewrite Ed in H. unfold lift, mthen at 1 in H.
  destruct (Z.leb_spec (st_UnionStrategyId a0) 0); [lia|]. unfold LastEvents_Set, modify in H.
  step_inv H. injection E as <- <-. step_inv H. apply union_attempts_hands in E as (E1 & _ & E2).
  injection H as <-. split; [by rewrite E1|exact E2].
Qed.

Lemma status_is_run c e s b s' :
  status_ok e -> status_is c e s = Ret (b, s') ->
  s' = s /\ b = Ascii.eqb (if String.eqb (ev_Status e) PROBLEM then "P" else "O") c.
Proof using Type. unfold status_is, lift, mthen, ret. intros [-> | ->] [= <- <-]; done. Qed.

Lemma sendEventIfNeed_traces h t now e m :
  Event_MaxStep e = Ret m -> Forall (fun p => (hd_Timestamp p <= ev_EventTime e)%Z) h ->
  keeps traces_ok (sendEventIfNeed env cfg h t now e m).
Proof using Type.
  intros Hm Hh s [] s' Hs H. unfold sendEventIfNeed, LastEvents_Get, gets, mthen at 1 in H.
  destruct (Hs (ev_Id e)) as (_ & _ & Hlast).
  assert (forall st n, follows (js_LastEvents s !! ev_Id e) (set_CurrentStep n (set_Status st e)) ->
    st = PROBLEM \/ st = OK -> in_i64 n ->
    sendEventProxy env cfg (set_CurrentStep n (set_Status st e)) s = Ret (tt, s') -> traces_ok s') as Hsend.
  { intros st n Hf Hst Hn Hp. apply sendEventProxy_hands in Hp. eapply hands_on_traces; eauto. }
  destruct t.
  - destruct (js_LastEvents s !! ev_Id e) as [l|] eqn:El.
    + destruct (Hlast l eq_refl) as [Hst Hi]. step_inv H. apply status_is_run in E as [-> ->]; [|done].
      destruct (String.eqb_spec (ev_Status l) PROBLEM) as [Hp|Hp]; cbn [Ascii.eqb] in H.
      * cbn in H. destruct (Z.leb_spec m (ev_CurrentStep l)); [by injection H as <-|].
        step_inv H. unfold lift in E. destruct (at_index h _) as [o|] eqn:Eo; [|done]. injection E as <- <-.
        destruct (Z.leb_spec (hd_Timestamp o) (ev_EventTime l)); [by injection H as <-|].
        destruct (_ <? _)%Z; [by injection H as <-|].
        apply at_index_ret in Eo as [_ Eo]. apply (Forall_lookup_1 _ _ _ _ Hh) in Eo.
        eapply (Hsend PROBLEM); [|by left|apply wrap64_range|exact H].
        exists m. split; [done|]. rewrite Hp. right. cbn. repeat split; [lia..|].
        intros Hm'. apply wrap64_id. unfold in_i64 in *. lia.
      * cbn in H. destruct (Z.eqb_spec m 0); [by injection H as <-|].
        apply (Hsend PROBLEM 1%Z); [|by left|by_compute|exact H]. exists m. split; [done|].
        destruct (String.eqb_spec (ev_Status l) PROBLEM); [done|]. done.
    + cbn in H. destruct (Z.eqb_spec m 0); [by injection H as <-|].
      apply (Hsend PROBLEM 1%Z); [|by left|by_compute|exact H]. by exists m.
  - destruct (js_LastEvents s !! ev_Id e) as [l|] eqn:El; [|by injection H as <-].
    destruct (Hlast l eq_refl) as [Hst Hi]. step_inv H. apply status_is_run in E as [-> ->]; [|done].
    destruct (String.eqb_spec (ev_Status l) PROBLEM) as [Hp|Hp]; cbn in H; [|by injection H as <-].
    apply (Hsend OK 1%Z); [|by right|by_compute|exact H]. exists m. split; [done|]. rewrite Hp. by left.
Qed.
End traces.

(** ** The points a function looked at *)

Definition from_history (L : SafeLinkedList) (h : HistoryData) : Prop := exists i, i ∈ L /\ hd_Timestamp h = ji_Timestamp i.

Lemma gauge_loop_from n rest vs : gauge_loop n rest = Ret vs -> Forall (from_history rest) vs.
Proof.
  revert rest vs; induction n as [|n IH]; intros rest vs; cbn [gauge_loop]; [intros [= <-]; constructor|].
  destruct rest as [|x rest]; [done|]. destruct (gauge_loop n rest) eqn:E; [|done]. intros [= <-].
  constructor; [exists x; split; [by left|done]|]. eapply Forall_impl; [by apply IH|].
  intros h (i & ? & ?). exists i. split; [by right|done].
Qed.

Lemma counter_loop_from n cur rest vs : counter_loop n cur rest = Ret vs -> Forall (from_history (cur :: rest)) vs.
Proof.
  revert cur rest vs; induction n as [|n IH]; intros cur rest vs; cbn [counter_loop]; [intros [= <-]; constructor|].
  destruct rest as [|x rest]; [done|]. destruct (counter_loop n x rest) eqn:E; [|done]. intros [= <-].
  constructor; [exists cur; split; [by left|done]|]. eapply Forall_impl; [by apply IH|].
  intros h (i & ? & ?). exists i. split; [by right|done].
Qed.

Lemma HistoryData_from L limit : Forall (from_history L) (HistoryData_of L limit).1.
Proof.
  unfold HistoryData_of. destruct (HistoryData_body L limit) as [[vs b]|] eqn:E; [|constructor].
  unfold HistoryData_body in E. destruct (limit <? 1)%Z; [injection E as <- <-; constructor|].
  destruct L as [|f rest]; [injection E as <- <-; constructor|].
  destruct (ji_JudgeType f) as [|c t]; [done|]. cbn [first_byte rbind] in E.
  destruct (is_gauge c), (_ <? _)%Z; destruct (negb _); try done.
  1,2: destruct (gauge_loop _ rest) eqn:Eg; [|done]; injection E as <- <-; cbn [fst];
    constructor; [exists f; split; [by left|done]|]; eapply Forall_impl; [by eapply gauge_loop_from|];
    intros h (i & ? & ?); exists i; split; [by right|done].
  all: destruct (counter_loop _ f rest) eqn:Eg; [|done]; injection E as <- <-; by eapply counter_loop_from.
Qed.

Lemma Compute_vs fn L c : Compute fn L = Ret c -> exists n, c_vs c = (HistoryData_of L n).1.
Proof.
  assert (forall n (k : res computed) vs b,
    HistoryData_of L n = (vs, b) ->
    (forall c, k = Ret c -> c_vs c = vs) ->
    (if negb b then Ret (not_enough vs) else k) = Ret c -> exists n, c_vs c = (HistoryData_of L n).1) as Hgo.
  { intros n k vs b E Hk Hc. exists n. rewrite E. destruct b; [by apply Hk|]. by injection Hc as <-. }
  intros H.
  destruct fn; unfold Compute, Max_Compute, Min_Compute, All_Compute, Lookup_Compute, Sum_Compute, Avg_Compute,
    Diff_Compute, PDiff_Compute in H;
    match type of H with context [HistoryData_of L ?n] => destruct (HistoryData_of L n) as [vs b] eqn:E end;
    (eapply (Hgo _ _ _ _ E); [|exact H]); clear; intros c H; cbn beta in H;
    try (destruct (length vs =? 0)%nat; [by injection H as <-|]);
    repeat match type of H with rbind ?e _ = _ => destruct e as [?|]; cbn [rbind] in H; [|done] end;
    repeat match type of H with (let '(_, _) := ?x in _) = _ => destruct x end; by injection H as <-.
Qed.

(** Points older than (or as old as) the item being judged. *)
Definition up_to (ts : Z) (L : SafeLinkedList) : Prop := Forall (fun i => (ji_Timestamp i <= ts)%Z) L.

Lemma Compute_up_to fn L c ts :
  Compute fn L = Ret c -> up_to ts L -> Forall (fun p => (hd_Timestamp p <= ts)%Z) (c_vs c).
Proof.
  intros [n ->]%Compute_vs HL. eapply Forall_impl; [apply HistoryData_from|].
  intros h (i & Hi & ->). by eapply (proj1 (Forall_forall _ _) HL).
Qed.

Lemma head_up_to v L : decreasing L -> head L = Some v -> up_to (ji_Timestamp v) L.
Proof.
  destruct L as [|x L]; [done|]. intros Hd [= ->]. inversion Hd as [|? ? ? Hf]; subst.
  constructor; [lia|]. eapply Forall_impl; [exact Hf|]. unfold newer. intros; lia.
Qed.

Section runs.
Context (env : Env) (cfg : Config).

Lemma judge_rule_traces L item :
  up_to (ji_Timestamp item) L ->
  (forall st now, keeps traces_ok (judgeItemWithStrategy env cfg L st item now)) /\
  (forall ex now, keeps traces_ok (judgeItemWithExpression env cfg L ex item now)).
Proof using Type.
  intros HL. split; intros r now s [] s' Hs H;
    (unfold judgeItemWithStrategy in H || unfold judgeItemWithExpression in H);
    step_inv H; unfold lift in E; destruct (ParseFuncFromString _ _ _) as [f|]; try done; injection E as <- <-;
    (destruct f as [err|fn]; [by injection H as <-|]);
    step_inv H; unfold lift in E; destruct (Compute fn L) as [c|] eqn:Ec; try done; injection E as <- <-;
    (destruct (negb (c_isEnough c)); [by injection H as <-|]);
    (eapply sendEventIfNeed_traces; [..|exact Hs|exact H]; [done|by eapply Compute_up_to]).
Qed.

Lemma look_traces {A} (f : nat -> A) : keeps traces_ok (look f).
Proof using Type. by intros s a s' Hs [= <- <-]. Qed.

Lemma Judge_traces L item now : up_to (ji_Timestamp item) L -> keeps traces_ok (Judge env cfg L item now).
Proof using Type.
  intros HL. destruct (judge_rule_traces L item HL) as [Hst Hex]. unfold Judge. apply keeps_then.
  - unfold CheckStrategy. apply keeps_then.
    { intros s a s' Hs H. eapply traces_ok_quiet; [by eapply CheckNeedJudge_quiet|done]. }
    intros ss. destruct (_ =? _)%nat; [apply keeps_ret|]. apply keeps_forM. intros st _.
    destruct (related _ _); [apply Hst|apply keeps_ret].
  - intros _. unfold CheckExpression, buildKeysFromMetricAndTags, check_related.
    apply keeps_then; [apply keeps_then; [apply look_traces|intros; apply keeps_ret]|].
    intros keys. destruct (_ =? _)%nat; [apply keeps_ret|]. apply keeps_then; [apply keeps_gets|]. intros emap.
    apply keeps_then; [|intros; apply keeps_ret]. apply keeps_foldM. intros handled key _.
    destruct (emap !! key); [|apply keeps_ret]. apply keeps_foldM. intros h ex _.
    destruct (bool_decide _); [apply keeps_ret|]. apply keeps_then; [apply Hex|intros; apply keeps_ret].
Qed.

Definition run_ok (s : JudgeState) : Prop := histories_ok cfg s /\ traces_ok s.

Lemma traces_ok_set_History v s : traces_ok s -> traces_ok (set_History v s).
Proof using Type. done. Qed.

Lemma Send_item_run now item : remain_ok cfg -> keeps run_ok (Send_item env cfg now item).
Proof using Type.
  intros Hr s [] s' [Hh Ht] H. split; [by eapply Send_item_histories|].
  unfold Send_item in H. destruct (Z.leb_spec (ji_Timestamp item) 0); [by injection H as <-|].
  step_inv H. apply CheckNeedJudge_quiet in E as Hq. apply (traces_ok_quiet _ _ Hq) in Ht.
  apply (histories_ok_same _ _ _ (proj1 Hq)) in Hh. destruct (_ =? _)%nat; [by injection H as <-|].
  destruct (PrimaryKey_slot item) as (slot & Es & Hin). rewrite Es in H.
  destruct (JIM_Push_run env cfg Hr slot item now s0 Hh Es Hin ltac:(lia)) as (L & s1 & j & Hrun & Hs1 & _ & HL & Hj).
  unfold lift, mthen in H. rewrite Hrun in H. rewrite Hs1 in H.
  apply (traces_ok_set_History (js_HistoryBigMap s1)) in Ht.
  destruct j; [|by injection H as <-]. eapply Judge_traces; [|exact Ht|exact H].
  apply head_up_to; [apply HL|by apply Hj].
Qed.

Lemma Send_run items : remain_ok cfg -> keeps run_ok (Send env cfg items).
Proof using Type.
  intros Hr. unfold Send. apply keeps_then; [by intros s a s' Hs [= <- <-]|].
  intros nano. apply keeps_forM. intros. by apply Send_item_run.
Qed.

Lemma cleanStale_run : keeps run_ok (cleanStale env).
Proof using Type.
  intros s [] s' [Hh Ht] H. split; [by eapply cleanStale_histories|].
  revert H. assert (keeps traces_ok (cleanStale env)) as Hk; [|by apply Hk].
  unfold cleanStale. apply keeps_then; [apply look_traces|]. intros nano. apply keeps_forM. intros slot _.
  apply keeps_then; [apply keeps_gets|]. intros big. apply keeps_then; [apply keeps_lift|].
  intros m. by apply keeps_modify.
Qed.

Lemma syncExpression_run : keeps run_ok (syncExpression env).
Proof using Type.
  intros s [] s' [Hh Ht] H. split; [by eapply syncExpression_histories|].
  revert H. assert (keeps traces_ok (syncExpression env)) as Hk; [|by apply Hk].
  unfold syncExpression. apply keeps_then; [apply look_traces|]. intros [l|]; [|apply keeps_ret]. by apply keeps_modify.
Qed.

(** A step of a judge that does not serve union judging itself. *)
Definition plain_step (s s' : JudgeState) : Prop :=
  (exists items, Send env cfg items s = Ret (tt, s')) \/ cleanStale env s = Ret (tt, s') \/
  syncExpression env s = Ret (tt, s').

Lemma reachable_run s : remain_ok cfg -> rtc plain_step init_judge s -> run_ok s.
Proof using Type.
  intros Hr. apply (rtc_ind_r (fun s => run_ok s)).
  - split; [apply init_histories_ok|]. intros id. split; [done|]. split; [done|]. intros e He. by cbn in He.
  - intros s1 s2 _ [[items H]|[H|H]] Hs1; [by eapply Send_run|by eapply cleanStale_run|by eapply syncExpression_run].
Qed.
End runs.

(** * Totality of [Send] *)

(** A rule whose function text the parser accepts or reports. *)
Definition good_rule (st : Strategy) : Prop :=
  (exists fn, ParseFuncFromString (st_Func st) (st_Operator st) (st_RightValue st) = Ret (inr fn) /\ wf_function fn) \/
  (exists err, ParseFuncFromString (st_Func st) (st_Operator st) (st_RightValue st) = Ret (inl err)).
(** HBS sends rules of that kind and no expressions. *)
Definition env_good (env : Env) : Prop :=
  (forall n h l, e_hbs env n h = Some l -> Forall good_rule l) /\ (forall n l, e_hbs_expr env n = Some l -> l = []).
Definition rules_good (s : JudgeState) : Prop :=
  map_Forall (fun _ c => Forall good_rule c.1) (js_HostSSCache s) /\ js_ExpressionMap s = ∅.

Lemma Compute_total fn L : (Len L <= 2 ^ 45)%Z -> wf_function fn -> exists c, Compute fn L = Ret c /\ (c_isEnough c = true -> c_vs c <> []).
Proof.
  intros Hl Hf. destruct (decide (wf_history L)) as [Hw|Hw].
  - destruct (Compute_reference L Hw fn Hf) as (c & E & He & _ & Hc). exists c. split; [done|]. intros Ht.
    destruct (Hc Ht) as [-> _]. rewrite He in Ht. destruct (window_cons _ _ Ht) as (v0 & vs & -> & _). done.
  - assert (forall n, HistoryData_of L n = ([], false)) as Hn.
    { intros n. unfold HistoryData_of, HistoryData_body. destruct (n <? 1)%Z; [done|].
      destruct L as [|f L]; [done|]. destruct (ji_JudgeType f) eqn:E; [done|]. exfalso. apply Hw. split; [by rewrite E|done]. }
    exists (not_enough []). split; [|done].
    destruct fn; unfold Compute, Max_Compute, Min_Compute, All_Compute, Lookup_Compute, Sum_Compute, Avg_Compute,
      Diff_Compute, PDiff_Compute; by rewrite Hn.
Qed.

Section totality.
Context (env : Env) (cfg : Config) (Henv : env_good env).

Lemma sendEventProxy_returns e s : is_Some (ev_Strategy e) -> exists s', sendEventProxy env cfg e s = Ret (tt, s').
Proof using Type.
  intros [st Est]. unfold sendEventProxy, mthen at 1, lift. rewrite Est. cbn [deref].
  destruct (Z.ltb_spec 0 (st_UnionStrategyId st)).
  - unfold sendEventForUnionStrategy, LastEvents_Set, modify. rewrite Est. cbn.
    destruct (Z.leb_spec (st_UnionStrategyId st) 0); [lia|]. unfold skip, ret, mthen, look, emit, modify; cbn.
    repeat (destruct (e_union_rpc env _); cbn; eauto).
  - unfold sendEvent, sendEventToRedis, LastEvents_Set, modify, emit, mthen, lift.
    destruct (json_ok e); cbn; [|eauto]. unfold Event_Priority, from_rule. rewrite Est. cbn. unfold modify. eauto.
Qed.

Lemma sendEventIfNeed_returns h t now e m s :
  traces_ok s -> is_Some (ev_Strategy e) -> h <> [] -> exists s', sendEventIfNeed env cfg h t now e m s = Ret (tt, s').
Proof using Type.
  intros Hs He Hh. unfold sendEventIfNeed, LastEvents_Get, gets, mthen at 1.
  destruct (Hs (ev_Id e)) as (_ & _ & Hlast).
  assert (forall st n, exists s', sendEventProxy env cfg (set_CurrentStep n (set_Status st e)) s = Ret (tt, s')) as Hsend
    by (intros; by apply sendEventProxy_returns).
  assert (exists o, at_index h (Z.of_nat (length h) - 1) = Ret o) as [o Ho].
  { destruct (lookup_lt_is_Some_2 h (pred (length h))) as [o Ho]; [destruct h; [done|simpl; lia]|].
    exists o. apply at_index_lookup in Ho. rewrite <- Ho. f_equal. destruct h; [done|simpl; lia]. }
  destruct (js_LastEvents s !! ev_Id e) as [l|]; cycle 1.
  { destruct t; cbn; [|eauto]. destruct (m =? 0)%Z; [by eexists|apply Hsend]. }
  destruct (Hlast l eq_refl) as [Hst _].
  assert (forall c, exists b, status_is c l s = Ret (b, s)) as Hsi.
  { intros c. unfold status_is, lift, mthen, ret. destruct Hst as [-> | ->]; cbn; eauto. }
  destruct t.
  - destruct (Hsi "O"%char) as [b Eb]. rewrite (mthen_run _ _ _ _ _ Eb). destruct b.
    + destruct (m =? 0)%Z; [by eexists|apply Hsend].
    + cbn. destruct (m <=? ev_CurrentStep l)%Z; [by eexists|]. rewrite Ho. cbn.
      destruct (_ <=? _)%Z; [by eexists|]. destruct (_ <? _)%Z; [by eexists|apply Hsend].
  - destruct (Hsi "P"%char) as [b Eb]. rewrite (mthen_run _ _ _ _ _ Eb). destruct b; [apply Hsend|by eexists].
Qed.

Lemma CheckNeedJudge_good h m s :
  rules_good s -> exists l s', CheckNeedJudge env h m s = Ret (l, s') /\ Forall good_rule l /\ rules_good s'.
Proof using Henv.
  intros [Hc Hx].
  assert (forall l s', Forall good_rule l -> rules_good s' ->
    exists l' s'', (if (length l =? 0)%nat then ret [] else ret (List.filter (fun i => String.eqb (st_Metric i) m) l)) s' = Ret (l', s'')
      /\ Forall good_rule l' /\ rules_good s'') as Hfin.
  { intros l s' Hl Hs'. destruct (_ =? _)%nat; do 2 eexists; (split; [done|]); (split; [|done]); [constructor|].
    rewrite Forall_forall. intros x Hx'. apply list_elem_of_In, filter_In in Hx' as [Hx' _].
    apply list_elem_of_In in Hx'. by eapply (proj1 (Forall_forall _ _) Hl). }
  assert (forall l s', Forall good_rule l -> rules_good s' ->
    rules_good (set_HostSSCache (<[h := (l, e_nano env (js_tick s') +! GlobalCacheTtl)]> (js_HostSSCache s')) (next_tick s'))) as Hset.
  { intros l s' Hl [Hc' Hx']. split; [|done]. by apply map_Forall_insert_2. }
  assert (forall s', rules_good s' -> Forall good_rule (match e_hbs env (js_tick s') h with Some l => l | None => [] end)) as Hget.
  { intros s' _. destruct (e_hbs env (js_tick s') h) eqn:E; [|constructor]. by eapply (proj1 Henv). }
  unfold CheckNeedJudge, JudgeHostStrategies, HostSSCache_Get, HostSSCache_Set, GetOneStrategy, mthen, gets, look, ret, modify.
  destruct (js_HostSSCache s !! h) as [[v x]|] eqn:E.
  - pose proof (Hc h _ E) as Hv. cbn in Hv. destruct (0 <? x)%Z; [destruct (x <? e_nano env (js_tick s))%Z|].
    + apply Hfin; [by apply (Hget (next_tick s))|]. by apply (Hset _ (next_tick (next_tick s)) (Hget (next_tick s) (conj Hc Hx))).
    + by apply Hfin.
    + by apply Hfin.
  - apply Hfin; [by apply (Hget s)|]. by apply (Hset _ (next_tick s) (Hget s (conj Hc Hx))).
Qed.

(** Without expressions a handler leaves the rules alone. *)
Definition same_rules (s s' : JudgeState) : Prop :=
  js_HostSSCache s = js_HostSSCache s' /\ js_ExpressionMap s = js_ExpressionMap s'.
#[local] Instance same_rules_pre : PreOrder same_rules.
Proof using Type. split; [done|]. intros ? ? ?. unfold same_rules. intuition congruence. Qed.

Lemma rules_good_same s s' : same_rules s s' -> rules_good s -> rules_good s'.
Proof using Type. unfold same_rules, rules_good. by intros [-> ->]. Qed.

Lemma union_attempts_rules addr e i n : moves same_rules (union_attempts env addr e i n).
Proof using Type.
  revert i; induction n as [|n IH]; intros i; cbn [union_attempts]; unfold emit; walk; [|apply IH].
  by intros s a' s' [= <- <-].
Qed.

Lemma sendEventIfNeed_rules h t now e m : moves same_rules (sendEventIfNeed env cfg h t now e m).
Proof using Type.
  assert (forall e, moves same_rules (sendEventProxy env cfg e)) as Hs.
  { intros e'. unfold sendEventProxy, sendEventForUnionStrategy, sendEvent, sendEventToRedis, LastEvents_Set, emit.
    walk; apply union_attempts_rules. }
  unfold sendEventIfNeed, LastEvents_Get, status_is. walk; apply Hs.
Qed.

Lemma judge_rule_returns L st item now s :
  good_rule st -> (Len L <= 2 ^ 45)%Z -> up_to (ji_Timestamp item) L -> traces_ok s -> rules_good s ->
  exists s', judgeItemWithStrategy env cfg L st item now s = Ret (tt, s') /\ traces_ok s' /\ rules_good s'.
Proof using Type.
  intros Hg Hl Hu Ht Hr. destruct (judge_rule_traces env cfg L item Hu) as [Hk _].
  assert (exists s', judgeItemWithStrategy env cfg L st item now s = Ret (tt, s')) as [s' E].
  { unfold judgeItemWithStrategy, mthen at 1, lift at 1. destruct Hg as [(fn & -> & Hf)|(err & ->)]; [|by eexists].
    unfold mthen at 1, lift at 1. destruct (Compute_total fn L Hl Hf) as (c & -> & Hc).
    destruct (c_isEnough c); cbn [negb]; [|by eexists]. by apply sendEventIfNeed_returns; [|by eexists|apply Hc]. }
  exists s'. split; [done|]. split; [by eapply Hk|]. revert E. unfold judgeItemWithStrategy. intros E.
  step_inv E. unfold lift in E0. destruct (ParseFuncFromString _ _ _) as [f|]; [|done]. injection E0 as <- <-.
  destruct f as [err|fn]; [by injection E as <-|]. step_inv E. unfold lift in E0.
  destruct (Compute fn L); [|done]. injection E0 as <- <-. destruct (negb _); [by injection E as <-|].
  eapply rules_good_same; [by eapply sendEventIfNeed_rules|done].
Qed.

Lemma no_expressions {V} (f : list Z -> V -> J (list Z)) keys h s :
  foldM (fun handled (key : string) =>
    match (∅ : gmap string V) !! key with None => ret handled | Some x => f handled x end) h keys s = Ret (h, s).
Proof using Type. induction keys as [|k l IH]; [done|]. cbn [foldM]. rewrite lookup_empty. exact IH. Qed.

Lemma Judge_returns L item now s :
  (Len L <= 2 ^ 45)%Z -> up_to (ji_Timestamp item) L -> traces_ok s -> rules_good s ->
  exists s', Judge env cfg L item now s = Ret (tt, s') /\ traces_ok s' /\ rules_good s'.
Proof using Henv.
  intros Hl Hu Ht Hr. unfold Judge.
  assert (exists s1, CheckStrategy env cfg L item now s = Ret (tt, s1) /\ traces_ok s1 /\ rules_good s1) as (s1 & E & Ht1 & Hr1).
  { unfold CheckStrategy. destruct (CheckNeedJudge_good (ji_Endpoint item) (ji_Metric item) s Hr) as (ss & s1 & E & Hss & Hr1).
    rewrite (mthen_run _ _ _ _ _ E). apply CheckNeedJudge_quiet in E. apply (traces_ok_quiet _ _ E) in Ht.
    destruct (_ =? _)%nat; [by exists s1|].
    apply (forM_total (fun s => traces_ok s /\ rules_good s)); [|done].
    intros st s2 Hst [Ht2 Hr2]. destruct (related _ _); [|by exists s2].
    apply judge_rule_returns; try done. by eapply (proj1 (Forall_forall _ _) Hss). }
  rewrite (mthen_run _ _ _ _ _ E). unfold CheckExpression, buildKeysFromMetricAndTags, look, mthen, gets, ret. cbn.
  destruct (_ =? _)%nat; [by eexists|]. cbn. rewrite (proj2 Hr1).
  rewrite no_expressions. by eexists.
Qed.

Definition fine (s : JudgeState) : Prop := run_ok cfg s /\ rules_good s.

Lemma Send_item_returns now item s :
  remain_ok cfg -> fine s -> exists s', Send_item env cfg now item s = Ret (tt, s') /\ fine s'.
Proof using Henv.
  intros Hr [Hrun Hg]. enough (exists s', Send_item env cfg now item s = Ret (tt, s') /\ rules_good s') as (s' & E & Hg').
  { exists s'. split; [done|]. split; [by eapply Send_item_run|done]. }
  unfold Send_item. destruct (Z.leb_spec (ji_Timestamp item) 0); [by exists s|].
  destruct (CheckNeedJudge_good (ji_Endpoint item) (ji_Metric item) s Hg) as (ss & s1 & E & _ & Hg1).
  rewrite (mthen_run _ _ _ _ _ E). apply CheckNeedJudge_quiet in E. destruct Hrun as [Hh Ht].
  apply (traces_ok_quiet _ _ E) in Ht. apply (histories_ok_same _ _ _ (proj1 E)) in Hh.
  destruct (_ =? _)%nat; [by exists s1|].
  destruct (PrimaryKey_slot item) as (slot & Es & Hin). rewrite Es. cbn [lift mthen]. unfold mthen, lift.
  destruct (JIM_Push_run env cfg Hr slot item now s1 Hh Es Hin ltac:(lia)) as (L & s2 & j & -> & Hs2 & _ & HL & Hj).
  assert (rules_good s2) as Hg2 by (rewrite Hs2; done).
  assert (traces_ok s2) as Ht2 by (rewrite Hs2; done).
  destruct j; [|by exists s2]. destruct HL as (_ & Hd & Hlen & _).
  destruct (Judge_returns L item now s2) as (s' & E' & _ & Hg'); [unfold remain_ok in Hr; lia|by apply head_up_to; auto|done|done|].
  by exists s'.
Qed.

Lemma Send_fine items s :
  remain_ok cfg -> fine s -> exists s', Send env cfg items s = Ret (tt, s') /\ fine s'.
Proof using Henv.
  intros Hr Hf. unfold Send, mthen at 1, look.
  apply (forM_total fine); [|done]. intros item s1 _ Hs1. by apply Send_item_returns.
Qed.

Lemma cleanStale_rules : keeps rules_good (cleanStale env).
Proof using Type.
  intros s a s' Hs H. eapply rules_good_same; [|exact Hs]. revert H. generalize s, a, s'. clear.
  change (moves same_rules (cleanStale env)). unfold cleanStale. walk. by intros s a' s' [= <- <-].
Qed.

Lemma reachable_fine s : remain_ok cfg -> rtc (plain_step env cfg) init_judge s -> fine s.
Proof using Henv.
  intros Hr Hs. split; [by eapply reachable_run|]. revert s Hs. apply (rtc_ind_r (fun s => rules_good s)).
  - split; [apply map_Forall_empty|done].
  - intros s1 s2 Hrun Hstep Hg. destruct Hstep as [[items H]|[H|H]].
    + destruct (Send_fine items s1 Hr) as (s' & E & Hf); [split; [by eapply reachable_run|done]|].
      rewrite E in H. injection H as <-. apply Hf.
    + by eapply cleanStale_rules.
    + unfold syncExpression in H. step_inv H. injection E as <- <-.
      destruct (e_hbs_expr env (js_tick s1)) as [l|] eqn:El; [|by injection H as <-].
      apply (proj2 Henv) in El as ->. injection H as <-. split; [apply Hg|done].
Qed.
End totality.

(** * Expressions *)

Definition expr_key (exp : Expression) (k v : string) : string := ex_Metric exp ++s "/" ++s k ++s "=" ++s v.

Lemma append_at_lookup {V} (m : gmap string (list V)) key v k x :
  x ∈ default [] (append_at m key v !! k) <-> x ∈ default [] (m !! k) \/ (k = key /\ x = v).
Proof.
  unfold append_at. destruct (decide (k = key)) as [->|Hne].
  - rewrite lookup_insert_eq. cbn. rewrite elem_of_app, list_elem_of_singleton. naive_solver.
  - rewrite lookup_insert_ne by done. naive_solver.
Qed.

Lemma expression_map_spec exps key exp :
  exp ∈ default [] (expression_map exps !! key) <->
  exp ∈ exps /\ exists k v, ex_Tags exp !! k = Some v /\ key = expr_key exp k v.
Proof.
  unfold expression_map. set (f := fun m exp => fold_left _ (map_to_list (ex_Tags exp)) m).
  assert (forall l e (m : gmap string (list Expression)), exp ∈ default [] (fold_left (fun m kv =>
      append_at m (ex_Metric e ++s "/" ++s kv.1 ++s "=" ++s kv.2) e) l m !! key) <->
    exp ∈ default [] (m !! key) \/ (exp = e /\ exists kv, kv ∈ l /\ key = expr_key e kv.1 kv.2)) as Hin.
  { intros l e. induction l as [|kv l IH]; intros m; cbn [fold_left].
    { split; [by left|]. intros [?|(_ & ? & H%elem_of_nil & _)]; done. }
    rewrite IH, append_at_lookup. setoid_rewrite elem_of_cons. unfold expr_key. naive_solver. }
  assert (forall l (m : gmap string (list Expression)), exp ∈ default [] (fold_left f l m !! key) <->
    exp ∈ default [] (m !! key) \/ (exp ∈ l /\ exists k v, ex_Tags exp !! k = Some v /\ key = expr_key exp k v)) as Hout.
  { induction l as [|e l IH]; intros m; cbn [fold_left].
    { rewrite elem_of_nil. naive_solver. }
    rewrite IH. unfold f at 1. rewrite Hin, elem_of_cons.
    assert ((exists kv, kv ∈ map_to_list (ex_Tags e) /\ key = expr_key e kv.1 kv.2) <->
      exists k v, ex_Tags e !! k = Some v /\ key = expr_key e k v) as ->; [|naive_solver].
    split; [intros ([k v] & H%elem_of_map_to_list & ->); eauto|].
    intros (k & v & H & ->). exists (k, v). by rewrite elem_of_map_to_list. }
  rewrite Hout, lookup_empty. cbn. rewrite elem_of_nil. tauto.
Qed.

(** The keys built for an item, whatever the order of its tags. *)
Lemma build_keys_in env item s keys s' k v :
  buildKeysFromMetricAndTags env item s = Ret (keys, s') ->
  (ji_Tags item ∪ {["endpoint" := ji_Endpoint item]}) !! k = Some v ->
  ji_Metric item ++s "/" ++s k ++s "=" ++s v ∈ keys.
Proof.
  unfold buildKeysFromMetricAndTags, look, mthen, ret. intros [= <- <-] Hk.
  apply elem_of_app. apply lookup_union_Some_raw in Hk as [Hk|[_ Hk]].
  - left. apply list_elem_of_fmap. exists k. rewrite Hk. split; [done|].
    rewrite e_keys_perm. apply list_elem_of_fmap. exists (k, v). by rewrite elem_of_map_to_list.
  - right. apply lookup_singleton_Some in Hk as [<- <-]. by apply list_elem_of_singleton.
Qed.

(** * Caching of host strategies *)

Lemma cache_hit env h s v x :
  js_HostSSCache s !! h = Some (v, x) -> (0 < x)%Z -> (e_nano env (js_tick s) <= x)%Z ->
  JudgeHostStrategies env h s = Ret (v, next_tick s).
Proof.
  intros E Hx Hn. unfold JudgeHostStrategies, HostSSCache_Get, mthen, gets, look, ret. rewrite E. repeat zcase. done.
Qed.

(** * Stale histories *)

Lemma BatchDelete_lookup keys m k :
  JIM_BatchDelete keys m !! k = if bool_decide (k ∈ keys) then None else m !! k.
Proof.
  unfold JIM_BatchDelete. revert m; induction keys as [|k' keys IH]; intros m; cbn [fold_left]; [done|].
  rewrite IH. repeat case_bool_decide; set_unfold; try naive_solver.
  - destruct (decide (k = k')) as [->|]; [by rewrite lookup_delete_eq|]. naive_solver.
  - rewrite lookup_delete_ne by naive_solver. done.
Qed.

Lemma CleanStale_lookup before m k :
  JIM_CleanStale before m !! k =
  match m !! k with
  | Some (f :: L) => if (ji_Timestamp f <? before)%Z then None else Some (f :: L)
  | o => o
  end.
Proof.
  unfold JIM_CleanStale. rewrite BatchDelete_lookup.
  assert (k ∈ omap (stale_key before) (map_to_list m) <->
    exists f L, m !! k = Some (f :: L) /\ (ji_Timestamp f <? before)%Z = true) as Hiff.
  { rewrite list_elem_of_omap. split.
    - intros ([k' L] & Hin%elem_of_map_to_list & H). destruct L as [|f L]; [done|]. unfold stale_key in H. cbn in H.
      destruct (ji_Timestamp f <? before)%Z eqn:E; [|done]. injection H as ->. eauto.
    - intros (f & L & Hm & E). exists (k, f :: L). rewrite elem_of_map_to_list. split; [done|].
      unfold stale_key. cbn. by rewrite E. }
  case_bool_decide as Hin.
  - apply Hiff in Hin as (f & L & -> & ->). done.
  - destruct (m !! k) as [[|f L]|] eqn:E; try done. destruct (ji_Timestamp f <? before)%Z eqn:Et; [|done].
    exfalso. apply Hin, Hiff. eauto.
Qed.

(** * Union strategies *)

Section union.
Context (env : Env) (cfg : Config).

(** The members present, in the order Go iterates them. *)
Definition members (n : nat) (m : gmap string Event) : list (string * Event) :=
  omap (fun k => e ← m !! k; Some (k, e)) (e_keys env n (map_to_list m).*1).

Lemma members_perm n m : members n m ≡ₚ map_to_list m.
Proof using Type.
  unfold members. rewrite e_keys_perm.
  assert (forall l, l ⊆ map_to_list m -> omap (fun k => e ← m !! k; Some (k, e)) l.*1 = l) as H.
  { induction l as [|[k e] l IH]; intros Hl; [done|]. cbn.
    assert (m !! k = Some e) as Hk by (apply elem_of_map_to_list, Hl; by left).
    rewrite Hk. cbn. f_equal. apply IH. intros x Hx. apply Hl. by right. }
  by rewrite H.
Qed.

Lemma members_all n m (st : string) :
  length (List.filter (fun ke => is_status st ke.2) (members n m)) = size m <-> map_Forall (fun _ e => ev_Status e = st) m.
Proof using Type.
  rewrite <- length_map_to_list, <- (members_perm n m). rewrite map_Forall_to_list, <- (members_perm n m).
  generalize (members n m). induction l as [|[k e] l IH]; cbn; [split; [constructor|done]|].
  unfold is_status at 1. cbn. destruct (String.eqb_spec (ev_Status e) st); cbn.
  - rewrite Forall_cons. cbn. rewrite <- IH. split; [|lia]. intros H. split; [done|lia].
  - rewrite Forall_cons. cbn. split; [|naive_solver]. intros H.
    pose proof (filter_length_le (fun ke => is_status st ke.2) l). lia.
Qed.

Lemma members_none n m (st : string) :
  length (List.filter (fun ke => is_status st ke.2) (members n m)) = 0 <-> map_Forall (fun _ e => ev_Status e <> st) m.
Proof using Type.
  rewrite map_Forall_to_list, <- (members_perm n m).
  generalize (members n m). induction l as [|[k e] l IH]; cbn; [split; [constructor|done]|].
  unfold is_status at 1. cbn. rewrite Forall_cons. cbn.
  destruct (String.eqb_spec (ev_Status e) st); cbn; [naive_solver|]. rewrite IH. naive_solver.
Qed.
End union.

Section union_judging.
Context (env : Env) (cfg : Config).

(** The strategies of a union as HBS gives them at a tick; a failed call gives none. *)
Definition union_rules (n : nat) (id : Z) : list Strategy :=
  match e_hbs_union env n id with Some l => l | None => [] end.
Definition statuses (m : gmap string Event) : gmap string string := ev_Status <$> m.

Lemma statuses_set key x e m :
  ev_Status x = ev_Status e -> statuses (<[key := x]> m) = statuses (<[key := e]> m).
Proof using Type. intros H. unfold statuses. by rewrite !fmap_insert, H. Qed.

(** What is announced: a complete union whose members are all OK, or none. *)
Definition unanimous (rules : list Strategy) (st : gmap string string) : Prop :=
  length rules = size st /\ (map_Forall (fun _ x => x = OK) st \/ map_Forall (fun _ x => x <> OK) st).

Lemma unanimous_all n rules m :
  length rules = size m ->
  length (List.filter (fun ke => is_status OK ke.2) (members env n m)) = length rules -> unanimous rules (statuses m).
Proof using Type.
  intros Hn Hl. unfold statuses. split; [by rewrite map_size_fmap|]. left. rewrite Hn in Hl.
  apply members_all in Hl. by apply map_Forall_fmap.
Qed.
Lemma unanimous_none n rules m :
  length rules = size m ->
  length (List.filter (fun ke => is_status OK ke.2) (members env n m)) = 0 -> unanimous rules (statuses m).
Proof using Type.
  intros Hn Hl. unfold statuses. split; [by rewrite map_size_fmap|]. right.
  apply members_none in Hl. by apply map_Forall_fmap.
Qed.

Lemma SetAndJudge_sound key e m s m' s' st :
  ev_Strategy e = Some st -> SetAndJudge env cfg key e m s = Ret (m', s') ->
  statuses m' = statuses (<[key := e]> m) /\
  (js_out s' = js_out s \/ unanimous (union_rules (js_tick s) (st_UnionStrategyId st)) (statuses m')).
Proof using Type.
  intros Hst H. unfold SetAndJudge in H. rewrite Hst in H. cbn [deref] in H. unfold lift at 1 in H. unfold mthen at 1 in H.
  unfold GetOneUnionStrategy in H. step_inv H. step_inv E. injection E0 as <- <-. injection E as <- <-.
  fold (union_rules (js_tick s) (st_UnionStrategyId st)) in H. set (rules := union_rules _ _) in *.
  destruct (Nat.eqb_spec (length rules) (size (<[key:=e]> m))) as [Hn|Hn]; cbn [negb] in H.
  2:{ injection H as <- <-. split; [done|by left]. }
  step_inv H. injection E as <- <-. step_inv H. injection E as <- <-. cbn [js_tick next_tick] in H.
  fold (members env (S (js_tick s)) (<[key:=e]> m)) in H.
  set (e1 := set_EventChain _ e) in *. clearbody rules.
  assert (forall x, ev_Status x = ev_Status e -> statuses (<[key:=x]> (<[key:=e]> m)) = statuses (<[key:=e]> m)) as Hx.
  { intros x Hx. by rewrite insert_insert_eq, (statuses_set key x e). }
  assert (forall x, ev_Status x = ev_Status e -> statuses (<[key:=x]> (<[key:=e1]> (<[key:=e]> m))) = statuses (<[key:=e]> m)) as Hxx.
  { intros x Hx'. rewrite (insert_insert_eq _ key x e1). by apply Hx. }
  specialize (unanimous_all (S (js_tick s)) rules _ Hn) as Ua. specialize (unanimous_none (S (js_tick s)) rules _ Hn) as Un.
  destruct (Nat.eqb_spec (length (List.filter (fun ke => is_status "OK" ke.2) (members env (S (js_tick s)) (<[key:=e]> m)))) (length rules)) as [Hall|_].
  { step_inv H. step_inv H. injection H as <- <-. rewrite Hx by done. split; [done|right; by apply Ua]. }
  destruct (Nat.eqb_spec (length (List.filter (fun ke => is_status "OK" ke.2) (members env (S (js_tick s)) (<[key:=e]> m)))) 0) as [Hnone|_].
  2:{ injection H as <- <-. rewrite Hx by done. split; [done|by left]. }
  specialize (Un Hnone). step_inv H. injection E as <- <-.
  destruct (js_UnionLastEvents _ !! _) as [le|]; [|step_inv H; step_inv H; injection H as <- <-; rewrite Hx by done; by auto].
  destruct (is_status "OK" le); [step_inv H; step_inv H; injection H as <- <-; rewrite Hxx by done; by auto|].
  step_inv H. unfold lift in E. destruct (Event_MaxStep le); [|done]. injection E as <- <-.
  destruct (_ <=? _)%Z; [injection H as <- <-; rewrite Hx by done; by auto|].
  destruct (_ <? _)%Z; [injection H as <- <-; rewrite Hx by done; by auto|].
  step_inv H. step_inv H. injection H as <- <-. rewrite Hxx by done. by auto.
Qed.

(** Every event of a complete union that is all OK is sent on. *)
Lemma SetAndJudge_all_ok key e m s st :
  ev_Strategy e = Some st -> length (union_rules (js_tick s) (st_UnionStrategyId st)) = size (<[key := e]> m) ->
  map_Forall (fun _ x => ev_Status x = OK) (<[key := e]> m) ->
  exists m' s' e', SetAndJudge env cfg key e m s = Ret (m', s') /\ ev_Id e' = ev_Id e /\ ev_Status e' = OK /\ hands_on e' s s'.
Proof using Type.
  intros Hst Hn Hall. assert (ev_Status e = OK) as Hok by (apply (Hall key), lookup_insert_eq).
  apply members_all with (env := env) (n := S (js_tick s)) in Hall. rewrite <- Hn in Hall.
  unfold SetAndJudge. rewrite Hst. cbn [deref]. unfold lift at 1, GetOneUnionStrategy, look at 1, mthen at 1 2 3, ret at 1.
  fold (union_rules (js_tick s) (st_UnionStrategyId st)). rewrite Hn. rewrite Nat.eqb_refl. cbn [negb].
  unfold look at 1, mthen at 1. cbn [js_tick next_tick]. fold (members env (S (js_tick s)) (<[key:=e]> m)).
  set (e1 := set_EventChain _ e) in *. unfold look at 1, mthen at 1.
  rewrite <- Hn. change "OK" with OK. rewrite Hall, Nat.eqb_refl.
  unfold UnionLastEvents_Set, modify, mthen at 1. unfold mthen.
  destruct (sendEvent cfg e1 _) as [[[] s']|p] eqn:E.
  - exists (<[key:=e1]> (<[key:=e]> m)), s', e1. apply sendEvent_hands in E. split; [done|]. split; [done|]. split; [exact Hok|]. exact E.
  - exfalso. unfold sendEvent, sendEventToRedis, LastEvents_Set, modify, emit, mthen, lift in E.
    destruct (json_ok e1); cbn in E; [|done]. unfold Event_Priority, from_rule in E. cbn in E. rewrite Hst in E. done.
Qed.
End union_judging.

(** * Events without a strategy, and cleaning a slot *)

Lemma sendEventProxy_no_rule env cfg e s : ev_Strategy e = None -> sendEventProxy env cfg e s = Panic NilDeref.
Proof. intros H. unfold sendEventProxy, mthen, lift. by rewrite H. Qed.

Lemma status_is_state c e s b s' : status_is c e s = Ret (b, s') -> s' = s.
Proof. unfold status_is, lift, mthen, ret. destruct (first_byte _); [|done]. by intros [= _ <-]. Qed.

Lemma sendEventIfNeed_no_rule env cfg h t now e m s s' :
  ev_Strategy e = None -> sendEventIfNeed env cfg h t now e m s = Ret (tt, s') -> s' = s.
Proof.
  intros He H. unfold sendEventIfNeed, LastEvents_Get, gets, mthen at 1 in H.
  assert (forall st n s, sendEventProxy env cfg (set_CurrentStep n (set_Status st e)) s = Panic NilDeref) as Hp
    by (intros; by apply sendEventProxy_no_rule).
  destruct t, (js_LastEvents s !! ev_Id e) as [l|]; cbn in H.
  - step_inv H. apply status_is_state in E as ->. destruct a.
    { destruct (m =? 0)%Z; [by injection H as <-|by rewrite Hp in H]. }
    unfold mthen at 1, lift at 1 in H. destruct (_ <=? _)%Z; [by injection H as <-|].
    step_inv H. unfold lift in E. destruct (at_index _ _); [|done]. injection E as <- <-.
    destruct (_ <=? _)%Z; [by injection H as <-|]. destruct (_ <? _)%Z; [by injection H as <-|by rewrite Hp in H].
  - destruct (m =? 0)%Z; [by injection H as <-|by rewrite Hp in H].
  - step_inv H. apply status_is_state in E as ->. destruct a; [by rewrite Hp in H|by injection H as <-].
  - by injection H as <-.
Qed.

Lemma cleanStale_loop before l s s' slot m :
  forM l (fun slot =>
    do! big := gets js_HistoryBigMap in
    do! m := lift (deref (big !! slot)) in
    modify (fun s => set_History (<[slot := JIM_CleanStale before m]> (js_HistoryBigMap s)) s)) s = Ret (tt, s') ->
  NoDup l -> js_HistoryBigMap s !! slot = Some m ->
  js_HistoryBigMap s' !! slot = Some (if bool_decide (slot ∈ l) then JIM_CleanStale before m else m).
Proof.
  revert s m; induction l as [|x l IH]; intros s m H Hnd Hs; cbn [forM] in H; [by injection H as <-|].
  apply NoDup_cons in Hnd as [Hx Hnd]. step_inv H. step_inv E. injection E0 as <- <-. step_inv E.
  unfold lift in E0. destruct (js_HistoryBigMap s !! x) as [mx|] eqn:Ex; [|done]. injection E0 as <- <-. injection E as <- <-.
  destruct (decide (slot = x)) as [->|Hne].
  - erewrite IH; [|exact H|done|cbn; apply lookup_insert_eq].
    rewrite Hs in Ex. injection Ex as <-. rewrite bool_decide_eq_false_2 by done. by rewrite bool_decide_eq_true_2 by by left.
  - erewrite IH; [|exact H|done|cbn; by rewrite lookup_insert_ne]. f_equal.
    rewrite (bool_decide_ext (slot ∈ x :: l) (slot ∈ l)) by (rewrite elem_of_cons; naive_solver). done.
Qed.

Lemma slots_NoDup : NoDup slots.
Proof. by_compute. Qed.

Lemma cleanStale_slot env s s' slot m key :
  cleanStale env s = Ret (tt, s') -> slot ∈ slots -> js_HistoryBigMap s !! slot = Some m ->
  exists m', js_HistoryBigMap s' !! slot = Some m' /\
  m' !! key = match m !! key with
              | Some (f :: L) =>
                  if (ji_Timestamp f <? unix (e_nano env (js_tick s)) -! 604800)%Z then None else Some (f :: L)
              | o => o
              end.
Proof.
  intros H Hin Hm. unfold cleanStale in H. step_inv H. injection E as <- <-.
  apply cleanStale_loop with (slot := slot) (m := m) in H; [|apply slots_NoDup|done].
  rewrite bool_decide_eq_true_2 in H by done. eexists. split; [exact H|]. apply CleanStale_lookup.
Qed.

(** ** Terms of the statements below *)

(** What an item is matched against: its tags and its endpoint; a tag named [endpoint] wins. *)
Definition item_view (item : JudgeItem) : tagmap := ji_Tags item ∪ {["endpoint" := ji_Endpoint item]}.
(** The id of an expression's event about the series of an item. *)
Definition expression_event (ex : Expression) (item : JudgeItem) : string :=
  "e_" ++s itoa (ex_Id ex) ++s "_" ++s JudgeItem_PrimaryKey item.
(** An item dropped: at most the clock was read. *)
Definition dropped (s s' : JudgeState) : Prop := s' = s \/ s' = next_tick s.
(** What is left of a history when those older than [before] go. *)
Definition kept_after (before : Z) (o : option SafeLinkedList) : option SafeLinkedList :=
  match o with
  | Some (f :: L) => if (ji_Timestamp f <? before)%Z then None else Some (f :: L)
  | o => o
  end.

(** * A small judge to evaluate the theorems on *)

Definition demo_rule : Strategy := mkStrategy 7 "cpu.idle" ∅ "all(#1)" ">" (f64_of_Z 5) 3 0 "busy" None 0.
Definition demo_env : Env :=
  mkEnv (fun n => (1000 * 10 ^ 9 + 10 ^ 9 * Z.of_nat n)%Z) (fun _ _ => Some [demo_rule]) (fun _ _ => Some [demo_rule])
    (fun _ => None) (fun _ => true) (fun _ l => l) (fun _ l => reflexivity l).
Definition demo_cfg : Config := mkConfig 11 300 (fun p => "event:p" ++s itoa p) ∅ (fun _ => "").
Definition after {A} (m : J A) (s : JudgeState) : JudgeState := match m s with Ret (_, s') => s' | Panic _ => s end.
Definition demo_1 : JudgeState := after (Send demo_env demo_cfg [item 60 10]) init_judge.
Definition demo_2 : JudgeState := after (Send demo_env demo_cfg [item 120 1]) demo_1.
Definition demo_id : string := "s_7_" ++s JudgeItem_PrimaryKey (item 60 10).

Definition returns {A} (m : J A) (s : JudgeState) : bool := match m s with Ret _ => true | Panic _ => false end.
Lemma returns_after (m : J unit) s : returns m s = true -> m s = Ret (tt, after m s).
Proof. unfold returns, after. by destruct (m s) as [[[] ?]|]. Qed.

Lemma returns_run {A} (m : J A) s : returns m s = true -> exists a, m s = Ret (a, after m s).
Proof. unfold returns, after. destruct (m s) as [[a s']|]; [by exists a|done]. Qed.

(** A judge before [InitHistoryBigMap]: enough for the handlers that read no history. *)
Definition empty_judge : JudgeState := mkJudge ∅ ∅ ∅ ∅ ∅ ∅ ∅ ∅ [] 0.

Lemma demo_step_1 : Send demo_env demo_cfg [item 60 10] init_judge = Ret (tt, demo_1).
Proof. apply returns_after. vm_cast_no_check (eq_refl true). Qed.
Lemma demo_step_2 : Send demo_env demo_cfg [item 120 1] demo_1 = Ret (tt, demo_2).
Proof. apply returns_after. vm_cast_no_check (eq_refl true). Qed.
Lemma demo_reachable : rtc (plain_step demo_env demo_cfg) init_judge demo_2.
Proof.
  eapply rtc_l; [left; eexists; exact demo_step_1|]. apply rtc_once. left. eexists. exact demo_step_2.
Qed.
Lemma demo_remain : remain_ok demo_cfg.
Proof. by_compute. Qed.

(** ** Properties *)

(** C1: in every run of a judge that serves no union, the alarms handed on for
    one event id form a proper chain and end with the remembered last event:
    the first one is PROBLEM 1, a PROBLEM is followed by the next PROBLEM
    number, below the rule's maximum and about a later point, or by one OK,
    and an OK only by a new PROBLEM 1; a rule with maximum 0 is mute. *)
Theorem alarm_traces_chained env cfg s id :
  remain_ok cfg -> rtc (plain_step env cfg) init_judge s ->
  chained None (trace id s) /\ last (trace id s) = js_LastEvents s !! id.
Proof. intros Hr Hs. destruct (reachable_run env cfg s Hr Hs) as [_ Ht]. by destruct (Ht id) as (? & ? & _). Qed.

Lemma alarm_traces_chained_witness :
  map ev_Status (trace demo_id demo_2) = [PROBLEM; OK] /\
  chained None (trace demo_id demo_2) /\ last (trace demo_id demo_2) = js_LastEvents demo_2 !! demo_id.
Proof.
  split; [vm_cast_no_check (eq_refl [PROBLEM; OK])|]. apply (alarm_traces_chained demo_env demo_cfg); [apply demo_remain|apply demo_reachable].
Defined.

(** C35: in every run, union judging included, the history maps stay well
    formed: exactly the 256 slots, and every history non-empty, strictly
    newest first, at most [Remain] long, made of the items of the one series
    whose checksum is its key, and filed under the slot of that key. *)
Theorem histories_well_formed env cfg s :
  remain_ok cfg -> rtc (judge_step env cfg) init_judge s ->
  (forall slot, is_Some (js_HistoryBigMap s !! slot) <-> slot ∈ slots) /\
  (forall slot m key L, js_HistoryBigMap s !! slot = Some m -> m !! key = Some L -> history_ok cfg slot key L).
Proof.
  intros Hr Hs. destruct (reachable_histories env cfg s Hr Hs) as [H1 H2]. split; [done|].
  intros slot m key L Hm HL. exact (H2 slot m Hm key L HL).
Qed.

Lemma histories_well_formed_witness :
  exists s,
    (forall slot, is_Some (js_HistoryBigMap s !! slot) <-> slot ∈ slots) /\
    (forall slot m key L, js_HistoryBigMap s !! slot = Some m -> m !! key = Some L -> history_ok demo_cfg slot key L).
Proof.
  exists demo_1. apply (histories_well_formed demo_env demo_cfg); [apply demo_remain|].
  apply rtc_once. apply (step_Send _ _ [item 60 10]). exact demo_step_1.
Defined.

(** In every run a judge whose strategies parse and which has no
    expressions handles every batch of items to the end: no index is out of
    range, no slot is missing, no nil is dereferenced. *)
Theorem Send_returns env cfg s items :
  remain_ok cfg -> env_good env -> rtc (plain_step env cfg) init_judge s ->
  exists s', Send env cfg items s = Ret (tt, s').
Proof.
  intros Hr He Hs. destruct (Send_fine env cfg He items s Hr) as (s' & E & _); [|by exists s'].
  by apply (reachable_fine env cfg He).
Qed.

Lemma demo_env_good : env_good demo_env.
Proof.
  split; [|done]. intros n h l [= <-]. apply Forall_singleton. left. eexists. split; [reflexivity|]. by_compute.
Qed.

Lemma Send_returns_witness : exists s', Send demo_env demo_cfg [item 180 9; item 240 9] demo_2 = Ret (tt, s').
Proof. apply Send_returns; [apply demo_remain|apply demo_env_good|apply demo_reachable]. Defined.

(** C39: an expression never gives an alarm: judging one either leaves all
    that was sent unchanged or panics, and it panics, taking the process down,
    as soon as the expression triggers for the first time with a non-zero
    maximum. *)
Theorem expression_alarms_panic env cfg L ex item now s :
  (forall s', judgeItemWithExpression env cfg L ex item now s = Ret (tt, s') -> s' = s) /\
  (forall fn c,
     ParseFuncFromString (ex_Func ex) (ex_Operator ex) (ex_RightValue ex) = Ret (inr fn) -> Compute fn L = Ret c ->
     c_isEnough c = true -> c_isTriggered c = true -> ex_MaxStep ex <> 0%Z ->
     js_LastEvents s !! expression_event ex item = None ->
     judgeItemWithExpression env cfg L ex item now s = Panic NilDeref).
Proof.
  split.
  - intros s' H. unfold judgeItemWithExpression in H. step_inv H. unfold lift in E.
    destruct (ParseFuncFromString _ _ _) as [f|]; [|done]. injection E as <- <-.
    destruct f as [err|fn]; [by injection H as <-|]. step_inv H. unfold lift in E.
    destruct (Compute fn L) as [c|]; [|done]. injection E as <- <-. destruct (negb _); [by injection H as <-|].
    by eapply sendEventIfNeed_no_rule in H.
  - intros fn c Hp Hc He Ht Hm Hl. unfold judgeItemWithExpression, mthen at 1, lift at 1. rewrite Hp.
    unfold mthen at 1, lift at 1. rewrite Hc, He. cbn [negb]. rewrite Ht.
    unfold sendEventIfNeed, LastEvents_Get, gets, mthen at 1. cbn [ev_Id]. unfold expression_event in Hl; rewrite Hl. cbn.
    by apply Z.eqb_neq in Hm as ->.
Qed.

Definition demo_expr : Expression := mkExpression 3 "cpu.idle" ∅ "all(#1)" ">" (f64_of_Z 5) 3 0 "" 1.
Lemma expression_alarms_panic_witness :
  judgeItemWithExpression demo_env demo_cfg [item 60 10] demo_expr (item 60 10) 100 empty_judge = Panic NilDeref.
Proof.
  destruct (expression_alarms_panic demo_env demo_cfg [item 60 10] demo_expr (item 60 10) 100 empty_judge) as [_ H].
  apply (H (AllFunction 1 ">" (f64_of_Z 5)) (mkComputed [mkHistoryData 60 (f64_of_Z 10)] (f64_of_Z 10) true true));
    vm_compute; reflexivity || discriminate.
Defined.

(** The expression index is complete and sound: after the rebuild, an
    expression with at least one tag whose tags are all among the item's tags
    and endpoint is found under one of the keys built for an item of its
    metric, in whatever order the item's tags are iterated, and every
    expression found under a key is one of the list with all its tags among
    them. *)
Theorem expressions_found env exps item exp s keys s' :
  buildKeysFromMetricAndTags env item s = Ret (keys, s') -> ex_Metric exp = ji_Metric item -> ex_Tags exp <> ∅ ->
  (exp ∈ exps /\ ex_Tags exp ⊆ item_view item) <->
  exists key, key ∈ keys /\ exp ∈ filterRelatedExpressions (default [] (expression_map exps !! key)) item.
Proof.
  intros Hk Hm Hne. split.
  - intros [Hin Hsub]. apply map_choose in Hne as (k & v & Hkv).
    exists (expr_key exp k v). split.
    + unfold expr_key. rewrite Hm. eapply build_keys_in; [exact Hk|]. eapply lookup_weaken; done.
    + apply filterRelated_spec. split; [|done]. apply expression_map_spec. eauto.
  - intros (key & _ & H). apply filterRelated_spec in H as [H Hsub]. apply expression_map_spec in H as [H _]. done.
Qed.

Definition demo_tagged : Expression := mkExpression 4 "cpu.idle" {["endpoint" := "h"]} "all(#1)" ">" fzero 3 0 "" 1.
Lemma expressions_found_witness :
  exists key, key ∈ ["cpu.idle/endpoint=h"] /\
    demo_tagged ∈ filterRelatedExpressions (default [] (expression_map [demo_tagged] !! key)) (item 60 1).
Proof.
  apply (expressions_found demo_env [demo_tagged] (item 60 1) demo_tagged empty_judge ["cpu.idle/endpoint=h"] (next_tick empty_judge));
    [vm_compute; reflexivity|reflexivity|done|].
  split; [by left|]. by_compute.
Defined.

(** When the call to HBS for the strategies of a host fails, the empty
    answer is cached: for the next 120 seconds no item of the host is judged,
    whatever HBS would answer. *)
Theorem hbs_failure_silences env h m s :
  js_HostSSCache s !! h = None -> e_hbs env (js_tick s) h = None ->
  let now := e_nano env (S (js_tick s)) in
  (0 < now < 2 ^ 62)%Z ->
  exists s1, CheckNeedJudge env h m s = Ret ([], s1) /\
  forall s2 item t, js_HostSSCache s2 !! h = js_HostSSCache s1 !! h ->
    (e_nano env (js_tick s2) <= now + 120 * 10 ^ 9)%Z -> ji_Endpoint item = h ->
    forall cfg, exists s3, Send_item env cfg t item s2 = Ret (tt, s3) /\ dropped s2 s3.
Proof.
  intros Hc Hf now Hnow. eexists. split.
  { unfold CheckNeedJudge, JudgeHostStrategies, HostSSCache_Get, HostSSCache_Set, GetOneStrategy, mthen, gets, ret, look, modify.
    rewrite Hc. cbn. rewrite Hf. reflexivity. }
  intros s2 it t Hs2 Hle <- cfg. cbn in Hs2. rewrite lookup_insert_eq in Hs2. fold now in Hs2.
  unfold GlobalCacheTtl in Hs2. rewrite wrap64_id in Hs2 by (unfold in_i64; lia).
  unfold Send_item. destruct (_ <=? 0)%Z; [by exists s2; split; [|left]|].
  exists (next_tick s2). split; [|by right].
  unfold CheckNeedJudge, mthen at 1 2. erewrite cache_hit by (exact Hs2 || lia). done.
Qed.

Definition mute_env : Env :=
  mkEnv (fun n => (1000 * 10 ^ 9 + 10 ^ 9 * Z.of_nat n)%Z) (fun n _ => if (n =? 0)%nat then None else Some [demo_rule])
    (fun _ _ => None) (fun _ => None) (fun _ => true) (fun _ l => l) (fun _ l => reflexivity l).
Lemma hbs_failure_silences_witness :
  exists s1, CheckNeedJudge mute_env "h" "cpu.idle" empty_judge = Ret ([], s1) /\
    exists s3, Send_item mute_env demo_cfg 1002 (item 60 10) s1 = Ret (tt, s3) /\ dropped s1 s3.
Proof.
  destruct (hbs_failure_silences mute_env "h" "cpu.idle" empty_judge) as (s1 & E & H); [reflexivity|reflexivity|by_compute|].
  exists s1. split; [exact E|]. apply H; [reflexivity| |reflexivity].
  vm_compute in E. injection E as <-. vm_compute. discriminate.
Defined.

(** A union event is sent on only when every strategy of the union has
    reported and all reports agree, all OK or all in alarm; the report just
    received replaces the one of the same counter and no other report
    changes its status. *)
Theorem union_alarm_unanimous env cfg key e m s m' s' st :
  ev_Strategy e = Some st -> SetAndJudge env cfg key e m s = Ret (m', s') ->
  statuses m' = <[key := ev_Status e]> (statuses m) /\
  (js_out s' <> js_out s -> unanimous (union_rules env (js_tick s) (st_UnionStrategyId st)) (statuses m')).
Proof.
  intros Hst H. destruct (SetAndJudge_sound env cfg key e m s m' s' st Hst H) as [E [Ho|Hu]].
  - split; [|done]. rewrite E. unfold statuses. by rewrite fmap_insert.
  - split; [|done]. rewrite E. unfold statuses. by rewrite fmap_insert.
Qed.

Definition demo_event (st : string) : Event :=
  mkEvent demo_id (Some demo_rule) None st "h" (f64_of_Z 10) 1 60 ∅ [].
Lemma union_alarm_unanimous_witness :
  exists m', unanimous (union_rules demo_env 0 0) (statuses m').
Proof.
  destruct (returns_run (SetAndJudge demo_env demo_cfg "cpu.idle" (demo_event PROBLEM) ∅) empty_judge) as [m' E];
    [vm_cast_no_check (eq_refl true)|].
  exists m'. apply (union_alarm_unanimous demo_env demo_cfg "cpu.idle" (demo_event PROBLEM) ∅ empty_judge m' _ demo_rule eq_refl E).
  intros H%(f_equal length). revert H.
  assert (length (js_out (after (SetAndJudge demo_env demo_cfg "cpu.idle" (demo_event PROBLEM) ∅) empty_judge)) = 1) as ->
    by vm_cast_no_check (eq_refl 1). done.
Defined.

(** A complete union whose reports are all OK announces a recovery with
    every report, even when no union alarm was ever sent. *)
Theorem union_recovery_unprompted env cfg key e m s st :
  ev_Strategy e = Some st -> length (union_rules env (js_tick s) (st_UnionStrategyId st)) = size (<[key := e]> m) ->
  map_Forall (fun _ x => ev_Status x = OK) (<[key := e]> m) ->
  exists m' s' e', SetAndJudge env cfg key e m s = Ret (m', s') /\ ev_Id e' = ev_Id e /\ ev_Status e' = OK /\ hands_on e' s s'.
Proof. apply SetAndJudge_all_ok. Qed.

Lemma union_recovery_unprompted_witness :
  exists m' s' e', SetAndJudge demo_env demo_cfg "cpu.idle" (demo_event OK) ∅ empty_judge = Ret (m', s') /\
    ev_Id e' = demo_id /\ ev_Status e' = OK /\ hands_on e' empty_judge s'.
Proof.
  apply (union_recovery_unprompted demo_env demo_cfg "cpu.idle" (demo_event OK) ∅ empty_judge demo_rule);
    [reflexivity|reflexivity|]. apply map_Forall_insert_2; [reflexivity|apply map_Forall_empty].
Defined.

(** Cleaning deletes exactly the histories whose newest item is older
    than a week and keeps the others unchanged. *)
Theorem stale_histories_cleaned env s s' slot m key :
  cleanStale env s = Ret (tt, s') -> slot ∈ slots -> js_HistoryBigMap s !! slot = Some m ->
  exists m', js_HistoryBigMap s' !! slot = Some m' /\
  m' !! key = kept_after (unix (e_nano env (js_tick s)) -! 604800)%Z (m !! key).
Proof.
  intros H Hin Hm. destruct (cleanStale_slot env s s' slot m key H Hin Hm) as (m' & E & Ek).
  exists m'. split; [done|]. rewrite Ek. by destruct (m !! key) as [[|f L]|].
Qed.

Definition demo_cleaned : JudgeState := after (cleanStale demo_env) demo_1.
Lemma demo_clean : cleanStale demo_env demo_1 = Ret (tt, demo_cleaned).
Proof. apply returns_after. vm_cast_no_check (eq_refl true). Qed.
Lemma demo_slot : js_HistoryBigMap demo_1 !! "00" = Some ∅.
Proof. vm_cast_no_check (eq_refl (Some (∅ : gmap string SafeLinkedList))). Qed.
Lemma demo_slot_in : "00" ∈ slots.
Proof. apply slots_spec. exists "0", "0". split; [by left|split; [by left|reflexivity]]. Qed.

Lemma stale_histories_cleaned_witness :
  exists m', js_HistoryBigMap demo_cleaned !! "00" = Some m' /\ m' !! "k" = None.
Proof.
  pose proof (stale_histories_cleaned demo_env demo_1 demo_cleaned "00" ∅ "k" demo_clean demo_slot_in demo_slot) as H.
  rewrite (lookup_empty "k") in H. exact H.
Defined.
