(* ===== verification/HashRing.v ===== *)
(** The hash ring the graph finds the old owner of a series with
    ([vendor/consistent-crc32]): every member owns [NumberOfReplicas] points of
    a circle of CRC-32 sums, and a name belongs to the member of the first point
    above its own sum.

    [Add], [Remove] and [Get] are modelled, which are all the program calls.  The
    capacity of the slice of the sums is left out but for the division that
    computes it. *)
From S2P Require Export Prelude GoStr Hash.
Local Open Scope string_scope.

(** Source: vendor/consistent-crc32/consistent.go, type Consistent. *)
Record Consistent := mkConsistent {
  circle : gmap Z string;
  members_of : gset string;
  sortedHashes : list Z;
  NumberOfReplicas : Z;
  members_count : Z }.

(** Source: vendor/consistent-crc32/consistent.go, New. *)
Definition ring_New : Consistent := mkConsistent ∅ ∅ [] 20 0.
(** Source: vendor/consistent-crc32/consistent.go, Consistent.eltKey. *)
Definition eltKey (elt : string) (idx : Z) : string := itoa idx ++s elt.
(** Source: vendor/consistent-crc32/consistent.go, Consistent.hashKey. Both branches sum the bytes of the key. *)
Definition ring_hashKey (key : string) : Z := crc32 (bytes_of key).

(** [sort.Search(n, f)]: the halving of [i, j), [fuel] bounding the steps. *)
Fixpoint sort_Search (fuel : nat) (i j : Z) (f : Z -> res bool) : res Z :=
  match fuel with
  | O => Ret i
  | S fuel =>
      if (i <? j)%Z then
        let h := Z.shiftr (i + j) 1 in
        let! b := f h in
        if negb b then sort_Search fuel (h + 1) j f else sort_Search fuel i h f
      else Ret i
  end.

(** Source: vendor/consistent-crc32/consistent.go, Consistent.updateSortedHashes. *)
Definition updateSortedHashes (c : Consistent) : res Consistent :=
  let! _ := go_quot 0 (NumberOfReplicas c *! 4) in
  Ret (mkConsistent (circle c) (members_of c) (merge_sort Z.le (map_to_list (circle c)).*1) (NumberOfReplicas c) (members_count c)).

(** The sums of the points of a member. *)
Definition replicas (n : Z) (elt : string) : list Z := map (fun i => ring_hashKey (eltKey elt i)) (seqZ 0 n).

(** Source: vendor/consistent-crc32/consistent.go, Consistent.add. *)
Definition ring_add (elt : string) (c : Consistent) : res Consistent :=
  let points := fold_left (fun m k => <[k := elt]> m) (replicas (NumberOfReplicas c) elt) (circle c) in
  let! c := updateSortedHashes (mkConsistent points ({[elt]} ∪ members_of c) (sortedHashes c) (NumberOfReplicas c) (members_count c)) in
  Ret (mkConsistent (circle c) (members_of c) (sortedHashes c) (NumberOfReplicas c) (members_count c +! 1)).
(** Source: vendor/consistent-crc32/consistent.go, Consistent.remove. *)
Definition ring_remove (elt : string) (c : Consistent) : res Consistent :=
  let points := fold_left (fun m k => delete k m) (replicas (NumberOfReplicas c) elt) (circle c) in
  let! c := updateSortedHashes (mkConsistent points (members_of c ∖ {[elt]}) (sortedHashes c) (NumberOfReplicas c) (members_count c)) in
  Ret (mkConsistent (circle c) (members_of c) (sortedHashes c) (NumberOfReplicas c) (members_count c -! 1)).

(** Source: vendor/consistent-crc32/consistent.go, Consistent.search. *)
Definition ring_search (key : Z) (c : Consistent) : res Z :=
  let n := Z.of_nat (length (sortedHashes c)) in
  let! i := sort_Search (S (length (sortedHashes c))) 0 n (fun x => let! h := at_index (sortedHashes c) x in Ret (key <? h)%Z) in
  Ret (if (n <=? i)%Z then 0%Z else i).
(** Source: vendor/consistent-crc32/consistent.go, Consistent.Get. [None] is the error of an empty circle; a sum without a member reads as the empty string, as a missing key of a map does. *)
Definition ring_Get (name : string) (c : Consistent) : res (option string) :=
  if (size (circle c) =? 0)%nat then Ret None
  else
    let! i := ring_search (ring_hashKey name) c in
    let! h := at_index (sortedHashes c) i in
    Ret (Some (default "" (circle c !! h))).

(** * What [Get] finds *)

(** The slice of sums is the domain of the circle, sorted. *)
Definition ring_ok (c : Consistent) : Prop := sortedHashes c = merge_sort Z.le (map_to_list (circle c)).*1.

(** [h] is the first point of the circle [m] after [key], the first of all when there is none. *)
Definition next_point (key : Z) (m : gmap Z string) (h : Z) : Prop :=
  is_Some (m !! h) /\
  ((key < h)%Z /\ (forall h', is_Some (m !! h') -> (key < h')%Z -> (h <= h')%Z) \/
   (forall h', is_Some (m !! h') -> (h' <= key)%Z /\ (h <= h')%Z)).

(** The binary search of a predicate that stays true once it is. *)
Lemma sort_Search_spec (p : nat -> bool) (f : Z -> res bool) (n fuel : nat) (i j : Z) :
  (forall k, (k < n)%nat -> f (Z.of_nat k) = Ret (p k)) -> (forall a b, a <= b -> p a = true -> p b = true) ->
  (0 <= i <= j)%Z -> (j <= Z.of_nat n)%Z -> (Z.to_nat (j - i) < fuel)%nat ->
  (forall k, (Z.of_nat k < i)%Z -> p k = false) -> (forall k, (j <= Z.of_nat k)%Z -> (k < n)%nat -> p k = true) ->
  exists r : nat, sort_Search fuel i j f = Ret (Z.of_nat r) /\ r <= n /\
    (forall k, k < r -> p k = false) /\ (forall k, r <= k -> k < n -> p k = true).
Proof.
  intros Hf Hp. revert i j. induction fuel as [|fuel IH]; intros i j Hij Hjn Hfuel Hlo Hhi; [lia|]. cbn [sort_Search].
  destruct (Z.ltb_spec i j) as [Hlt|Hge].
  - set (h := Z.shiftr (i + j) 1). assert (i <= h < j)%Z as Hh.
    { unfold h. rewrite Z.shiftr_div_pow2 by lia. change (2 ^ 1)%Z with 2%Z. split; [apply Z.div_le_lower_bound|apply Z.div_lt_upper_bound]; lia. }
    assert (f h = Ret (p (Z.to_nat h))) as Efh by (rewrite <- Hf by lia; by rewrite Z2Nat.id by lia). cbv zeta. fold h. rewrite Efh. cbn [rbind]. destruct (p (Z.to_nat h)) eqn:Eh; cbn [negb].
    + apply IH; try lia; [done|]. intros k Hk Hkn. apply (Hp (Z.to_nat h)); [lia|done].
    + apply IH; try lia; [|done]. intros k Hk. destruct (p k) eqn:Ek; [|done].
      rewrite (Hp k (Z.to_nat h)) in Eh; [done|lia|done].
  - exists (Z.to_nat i). rewrite Z2Nat.id by lia. split; [done|]. split; [lia|]. split; intros k Hk; [apply Hlo; lia|apply Hhi; lia].
Qed.

Lemma sorted_le (l : list Z) (i j : nat) a b : StronglySorted Z.le l -> l !! i = Some a -> l !! j = Some b -> i <= j -> (a <= b)%Z.
Proof.
  intros Hl. revert i j. induction Hl as [|x l _ IH Hx]; intros i j Hi Hj Hij; [done|].
  destruct i as [|i], j as [|j]; cbn in Hi, Hj; [simplify_eq; lia| |lia|apply (IH i j); [done..|lia]].
  injection Hi as <-. rewrite Forall_forall in Hx. apply Hx. by apply list_elem_of_lookup_2 in Hj.
Qed.

Lemma ring_points_sorted c : ring_ok c -> StronglySorted Z.le (sortedHashes c).
Proof. intros ->. apply Sorted_StronglySorted; [intros ?; lia|]. apply Sorted_merge_sort. intros ??; lia. Qed.
Lemma ring_points_in c h : ring_ok c -> h ∈ sortedHashes c <-> is_Some (circle c !! h).
Proof.
  intros ->. rewrite merge_sort_Permutation, list_elem_of_fmap. split.
  - intros ([k v] & -> & H). apply elem_of_map_to_list in H. by exists v.
  - intros [v H]. exists (h, v). split; [done|]. by apply elem_of_map_to_list.
Qed.

(** [Get] gives the member of the next point. *)
Lemma ring_Get_spec name c :
  ring_ok c -> circle c <> ∅ ->
  exists h, next_point (ring_hashKey name) (circle c) h /\ ring_Get name c = Ret (circle c !! h).
Proof.
  intros Hok Hne. unfold ring_Get. rewrite (proj2 (Nat.eqb_neq _ _)) by (by rewrite map_size_empty_iff).
  set (key := ring_hashKey name). set (l := sortedHashes c). pose proof (ring_points_sorted c Hok) as Hs. fold l in Hs.
  unfold ring_search. fold l.
  set (p k := match l !! k with Some h => (key <? h)%Z | None => true end).
  destruct (sort_Search_spec p (fun x => let! h := at_index l x in Ret (key <? h)%Z) (length l) (S (length l)) 0 (Z.of_nat (length l)))
    as (r & -> & Hr & Hbelow & Habove); try lia.
  { intros k Hk. unfold p. destruct (lookup_lt_is_Some_2 l k Hk) as [x Hx]. by rewrite (at_index_lookup _ _ _ Hx), Hx. }
  { intros a b Hab. unfold p. destruct (l !! a) as [x|] eqn:Ea, (l !! b) as [y|] eqn:Eb; [|done| |done].
    - pose proof (sorted_le l a b x y Hs Ea Eb Hab). zbool. lia.
    - apply lookup_ge_None in Ea. apply lookup_lt_Some in Eb. lia. }
  cbn [rbind]. assert (l <> []) as Hl.
  { intros El. apply Hne, map_eq. intros h. rewrite lookup_empty. destruct (circle c !! h) eqn:E; [|done].
    assert (h ∈ l) as Hin by (apply ring_points_in; [done|by eexists]). rewrite El in Hin. by apply not_elem_of_nil in Hin. }
  set (i := if (Z.of_nat (length l) <=? Z.of_nat r)%Z then 0%Z else Z.of_nat r).
  assert (exists k x, i = Z.of_nat k /\ l !! k = Some x /\ next_point key (circle c) x) as (k & x & -> & Hk & Hx).
  2:{ exists x. split; [done|]. rewrite (at_index_lookup _ _ _ Hk). cbn. destruct (proj1 Hx) as [v Hv]. by rewrite Hv. }
  assert (forall h, is_Some (circle c !! h) -> exists k, l !! k = Some h) as Hpos.
  { intros h Hh. apply list_elem_of_lookup. by apply ring_points_in. }
  unfold i. zcase.
  - destruct l as [|x l'] eqn:El; [done|]. exists 0, x. split; [done|]. split; [done|]. split.
    { apply ring_points_in; [done|]. fold l. rewrite El. left. }
    right. intros h' Hh'. destruct (Hpos h' Hh') as [k Hk]. split.
    + pose proof (lookup_lt_Some _ _ _ Hk). assert (p k = false) as Hp by (apply Hbelow; lia). unfold p in Hp. rewrite Hk in Hp. zbool. lia.
    + eapply (sorted_le (x :: l') 0 k); [done|done|exact Hk|lia].
  - destruct (lookup_lt_is_Some_2 l r) as [x Hx]; [lia|]. exists r, x. split; [done|]. split; [done|]. split.
    { apply ring_points_in; [done|]. by apply list_elem_of_lookup_2 in Hx. }
    left. split.
    + assert (p r = true) as Hp by (apply Habove; lia). unfold p in Hp. rewrite Hx in Hp. by zbool.
    + intros h' Hh' Hlt. destruct (Hpos h' Hh') as [k Hk]. destruct (decide (r <= k)); [by eapply (sorted_le l r k)|].
      assert (p k = false) as Hp by (apply Hbelow; lia). unfold p in Hp. rewrite Hk in Hp. zbool. lia.
Qed.

Lemma next_point_unique key m h h' : next_point key m h -> next_point key m h' -> h = h'.
Proof.
  intros [Hh H] [Hh' H']. destruct H as [[? H]|H], H' as [[? H']|H'].
  - pose proof (H h' Hh'). pose proof (H' h Hh). lia.
  - destruct (H' h Hh). lia.
  - destruct (H h' Hh'). lia.
  - destruct (H h' Hh'), (H' h Hh). lia.
Qed.

(** The next point stays the next one when other points are taken away. *)
Lemma next_point_fewer key (m m' : gmap Z string) h :
  (forall k, is_Some (m' !! k) -> is_Some (m !! k)) -> next_point key m h -> is_Some (m' !! h) -> next_point key m' h.
Proof. intros Hsub [_ H] Hh. split; [done|]. destruct H as [[? H]|H]; [left|right]; naive_solver. Qed.

Lemma add_points elt l (m : gmap Z string) k :
  fold_left (fun m k => <[k := elt]> m) l m !! k = if decide (k ∈ l) then Some elt else m !! k.
Proof.
  revert m; induction l as [|x l IH]; intros m; cbn; [done|]. rewrite IH.
  destruct (decide (k ∈ l)) as [H|H]; [by rewrite decide_True by (by right)|].
  destruct (decide (k = x)) as [->|Hx]; [rewrite lookup_insert_eq, decide_True; [done|left]|].
  rewrite lookup_insert_ne by done. rewrite decide_False; [done|]. by intros [?|?]%elem_of_cons.
Qed.
Lemma remove_points l (m : gmap Z string) k :
  fold_left (fun m k => delete k m) l m !! k = if decide (k ∈ l) then None else m !! k.
Proof.
  revert m; induction l as [|x l IH]; intros m; cbn; [done|]. rewrite IH.
  destruct (decide (k ∈ l)) as [H|H]; [by rewrite decide_True by (by right)|].
  destruct (decide (k = x)) as [->|Hx]; [rewrite lookup_delete_eq, decide_True; [done|left]|].
  rewrite lookup_delete_ne by done. rewrite decide_False; [done|]. by intros [?|?]%elem_of_cons.
Qed.

(** The ring can be changed: the number of points of a member is such that the capacity can be computed. *)
Definition replicas_ok (c : Consistent) : Prop := (0 < NumberOfReplicas c < 2 ^ 40)%Z.

Lemma updateSortedHashes_ret c : replicas_ok c ->
  exists c', updateSortedHashes c = Ret c' /\ circle c' = circle c /\ members_of c' = members_of c /\ ring_ok c' /\
    NumberOfReplicas c' = NumberOfReplicas c /\ members_count c' = members_count c.
Proof.
  intros Hr. unfold updateSortedHashes, go_quot. unfold replicas_ok in Hr. rewrite wrap64_id by (unfold in_i64; lia).
  rewrite (proj2 (Z.eqb_neq _ 0)) by lia. cbn. by eexists.
Qed.

Lemma ring_add_ret elt c : replicas_ok c ->
  exists c', ring_add elt c = Ret c' /\ ring_ok c' /\ members_of c' = {[elt]} ∪ members_of c /\ NumberOfReplicas c' = NumberOfReplicas c /\
    forall h, circle c' !! h = if decide (h ∈ replicas (NumberOfReplicas c) elt) then Some elt else circle c !! h.
Proof.
  intros Hr. unfold ring_add. edestruct updateSortedHashes_ret as (c1 & -> & Hc & Hm & Hok & Hn & _); [exact Hr|]. cbn in Hc, Hm, Hn |- *.
  eexists. split; [done|]. split; [exact Hok|]. split; [exact Hm|]. split; [exact Hn|]. intros h. cbn. rewrite Hc. apply add_points.
Qed.
Lemma ring_remove_ret elt c : replicas_ok c ->
  exists c', ring_remove elt c = Ret c' /\ ring_ok c' /\ members_of c' = members_of c ∖ {[elt]} /\ NumberOfReplicas c' = NumberOfReplicas c /\
    forall h, circle c' !! h = if decide (h ∈ replicas (NumberOfReplicas c) elt) then None else circle c !! h.
Proof.
  intros Hr. unfold ring_remove. edestruct updateSortedHashes_ret as (c1 & -> & Hc & Hm & Hok & Hn & _); [exact Hr|]. cbn in Hc, Hm, Hn |- *.
  eexists. split; [done|]. split; [exact Hok|]. split; [exact Hm|]. split; [exact Hn|]. intros h. cbn. rewrite Hc. apply remove_points.
Qed.

Lemma replicas_nonempty n elt : (0 < n)%Z -> exists h, h ∈ replicas n elt.
Proof.
  intros H. exists (ring_hashKey (eltKey elt 0)). unfold replicas. apply list_elem_of_fmap. exists 0%Z. split; [done|].
  apply elem_of_seqZ. lia.
Qed.

(** A member that joins the ring takes names over and moves none between the
    others; when it leaves again, the names of the others stay where they are. *)
Theorem ring_changes_little (c : Consistent) (elt name : string) :
  ring_ok c -> replicas_ok c ->
  exists c1 c2, ring_add elt c = Ret c1 /\ ring_remove elt c1 = Ret c2 /\ ring_ok c1 /\ ring_ok c2 /\
    (circle c <> ∅ -> ring_Get name c1 = ring_Get name c \/ ring_Get name c1 = Ret (Some elt)) /\
    (forall x, x <> elt -> ring_Get name c1 = Ret (Some x) -> ring_Get name c2 = Ret (Some x)).
Proof.
  intros Hok Hr. destruct (ring_add_ret elt c Hr) as (c1 & E1 & Hok1 & _ & Hn1 & H1).
  assert (replicas_ok c1) as Hr1 by (unfold replicas_ok; by rewrite Hn1).
  destruct (ring_remove_ret elt c1 Hr1) as (c2 & E2 & Hok2 & _ & _ & H2). rewrite Hn1 in H2.
  exists c1, c2. do 4 (split; [done|]).
  assert (circle c1 <> ∅) as Hne1.
  { destruct (replicas_nonempty (NumberOfReplicas c) elt) as [h Hh]; [apply Hr|]. intros E. specialize (H1 h). by rewrite E, decide_True in H1. }
  destruct (ring_Get_spec name c1 Hok1 Hne1) as (h & Hh & ->). split.
  - intros Hne. destruct (decide (circle c1 !! h = Some elt)) as [->|Helt]; [by right|]. left.
    assert (circle c1 !! h = circle c !! h) as Eh by (specialize (H1 h); destruct (decide _); congruence).
    destruct (ring_Get_spec name c Hok Hne) as (h' & Hh' & ->). rewrite Eh. do 2 f_equal.
    eapply next_point_unique; [|exact Hh']. eapply next_point_fewer; [|exact Hh|].
    + intros k Hk. rewrite H1. by destruct (decide _).
    + rewrite <- Eh. apply Hh.
  - intros x Hx [= Eh].
    assert (circle c2 !! h = Some x) as Eh2 by (rewrite H2; specialize (H1 h); destruct (decide _); congruence).
    assert (circle c2 <> ∅) as Hne2 by (intros E; by rewrite E in Eh2).
    destruct (ring_Get_spec name c2 Hok2 Hne2) as (h' & Hh' & ->). rewrite <- Eh2. do 2 f_equal.
    eapply next_point_unique; [exact Hh'|]. eapply next_point_fewer; [|exact Hh|by rewrite Eh2].
    intros k Hk. rewrite H2 in Hk. by destruct (decide _).
Qed.

Definition ring_demo : Consistent :=
  match ring_add "graph-00" ring_New with Ret c => match ring_add "graph-01" c with Ret c => c | Panic _ => ring_New end | Panic _ => ring_New end.
Lemma ring_demo_ok : ring_ok ring_demo /\ replicas_ok ring_demo /\ circle ring_demo <> ∅.
Proof.
  unfold ring_demo. destruct (ring_add_ret "graph-00" ring_New) as (c1 & -> & _ & _ & Hn1 & _); [done|].
  destruct (ring_add_ret "graph-01" c1) as (c2 & -> & Hok & _ & Hn2 & H2); [unfold replicas_ok; by rewrite Hn1|].
  split; [done|]. split; [unfold replicas_ok; by rewrite Hn2, Hn1|]. intros E.
  destruct (replicas_nonempty (NumberOfReplicas c1) "graph-01") as [h Hh]; [by rewrite Hn1|]. specialize (H2 h). by rewrite E, decide_True in H2.
Qed.
Lemma ring_changes_little_witness : exists c1, ring_add "graph-02" ring_demo = Ret c1 /\
  (ring_Get "host1/cpu.idle" c1 = ring_Get "host1/cpu.idle" ring_demo \/ ring_Get "host1/cpu.idle" c1 = Ret (Some "graph-02")).
Proof.
  destruct (ring_changes_little ring_demo "graph-02" "host1/cpu.idle") as (c1 & c2 & E & _ & _ & _ & H & _); [apply ring_demo_ok..|].
  exists c1. split; [exact E|]. apply H, ring_demo_ok.
Defined.
