(* ===== verification/GoCache.v ===== *)
(** The cache of [vendor/github.com/patrickmn/go-cache]: a map whose entries
    expire.  Hbs keeps its answers in such caches, alarm those of the API. *)
From S2P Require Import Prelude.

(** A cache of [patrickmn/go-cache]: a value and the nanosecond it expires at, 0 for never. *)
Definition Ttl (T : Type) : Type := gmap string (T * Z).
(** Source: vendor/github.com/patrickmn/go-cache/cache.go, cache.Get. *)
Definition cache_Get {T} (nano : Z) (k : string) (c : Ttl T) : option T :=
  '(x, e) ← c !! k; if (0 <? e)%Z && (e <? nano)%Z then None else Some x.
(** Source: vendor/github.com/patrickmn/go-cache/cache.go, cache.Set. A time to live of 0 stands for one without end. *)
Definition cache_Set {T} (nano ttl : Z) (k : string) (x : T) (c : Ttl T) : Ttl T :=
  let d := if (ttl =? 0)%Z then (-1)%Z else ttl in
  <[k := (x, if (0 <? d)%Z then nano +! d else 0%Z)]> c.

(** What was just set is found, and nothing else changes. *)
Lemma cache_Get_Set {T} nano ttl k (x : T) c : in_i64 nano -> (0 <= ttl < 2 ^ 62)%Z -> cache_Get nano k (cache_Set nano ttl k x c) = Some x.
Proof.
  intros Hn Ht. unfold cache_Get, cache_Set, Ttl in *. rewrite lookup_insert_eq. cbn [option_bind mbind].
  destruct (Z.eqb_spec ttl 0); cbn; [done|]. destruct (Z.ltb_spec 0 ttl); cbn; [|done].
  assert ((0 <? nano +! ttl) && (nano +! ttl <? nano) = false)%Z as ->; [|done].
  unfold wrap64, in_i64 in *. destruct (Z.ltb_spec (nano + ttl) (2 ^ 63)).
  - rewrite Z.mod_small by lia. apply andb_false_iff. right. apply Z.ltb_ge. lia.
  - apply andb_false_iff. left. apply Z.ltb_ge.
    replace (nano + ttl + 2 ^ 63)%Z with (nano + ttl - 2 ^ 63 + 1 * 2 ^ 64)%Z by lia. rewrite Z.mod_add by lia. rewrite Z.mod_small by lia. lia.
Qed.
Lemma cache_Get_other {T} nano nano' ttl k k' (x : T) c : k <> k' -> cache_Get nano' k (cache_Set nano ttl k' x c) = cache_Get nano' k c.
Proof. intros Hk. unfold cache_Get, cache_Set, Ttl in *. by rewrite lookup_insert_ne. Qed.
