(* ===== verification/GraphStore.v ===== *)
(** The graph's in-memory stores ([modules/graph/store], [modules/graph/g/utils.go]):
    the points of each series waiting for the disk ([GraphItems]), hashed over
    [Size] maps, and the last three points of each series ([HistoryCache]). *)
From S2P Require Export Model Hash.
From Stdlib Require Import Ascii.
Local Open Scope string_scope.

Definition GAUGE : string := "GAUGE".
Definition DERIVE : string := "DERIVE".
Definition COUNTER : string := "COUNTER".

(** * Names ([g/utils.go]) *)

(** Source: modules/graph/g/utils.go, RrdFileName. *)
Definition RrdFileName (baseDir md5 dsType : string) (step : Z) : res string :=
  let! p := slice md5 0 2 in
  Ret (baseDir ++s "/" ++s p ++s "/" ++s md5 ++s "_" ++s dsType ++s "_" ++s itoa step ++s ".rrd").

(** Source: modules/graph/g/utils.go, FormRrdCacheKey. *)
Definition FormRrdCacheKey (md5 dsType : string) (step : Z) : string :=
  md5 ++s "_" ++s dsType ++s "_" ++s itoa step.

(** Source: modules/graph/g/utils.go, SplitRrdCacheKey. The fourth result is the error. *)
Definition SplitRrdCacheKey (ckey : string) : string * string * Z * bool :=
  match split ckey "_" with
  | [md5; dsType; s] =>
      match parse_int s 32 with
      | Some stepInt64 => (md5, dsType, stepInt64, false)
      | None => (md5, dsType, 0%Z, true)
      end
  | _ => ("", "", 0%Z, true)
  end.

(** The UTF-8 decoding of [[]rune(str)]: an invalid byte gives U+FFFD. *)
Definition byte_at (s : string) : option (Z * string) :=
  match s with "" => None | String a t => Some (Z.of_nat (nat_of_ascii a), t) end.
Definition cont (b : Z) : bool := ((128 <=? b) && (b <=? 191))%Z.
Definition decode_rune (b0 : Z) (t : string) : Z * string :=
  let bad := (65533%Z, t) in
  if (b0 <? 128)%Z then (b0, t)
  else if ((194 <=? b0) && (b0 <=? 223))%Z then
    match byte_at t with
    | Some (b1, t1) => if cont b1 then ((b0 - 192) * 64 + (b1 - 128), t1)%Z else bad
    | None => bad
    end
  else if ((224 <=? b0) && (b0 <=? 239))%Z then
    match byte_at t with
    | Some (b1, t1) =>
        let lo := if (b0 =? 224)%Z then 160%Z else 128%Z in
        let hi := if (b0 =? 237)%Z then 159%Z else 191%Z in
        if ((lo <=? b1) && (b1 <=? hi))%Z then
          match byte_at t1 with
          | Some (b2, t2) => if cont b2 then ((b0 - 224) * 4096 + (b1 - 128) * 64 + (b2 - 128), t2)%Z else bad
          | None => bad
          end
        else bad
    | None => bad
    end
  else if ((240 <=? b0) && (b0 <=? 244))%Z then
    match byte_at t with
    | Some (b1, t1) =>
        let lo := if (b0 =? 240)%Z then 144%Z else 128%Z in
        let hi := if (b0 =? 244)%Z then 143%Z else 191%Z in
        if ((lo <=? b1) && (b1 <=? hi))%Z then
          match byte_at t1 with
          | Some (b2, t2) =>
              if cont b2 then
                match byte_at t2 with
                | Some (b3, t3) =>
                    if cont b3 then ((b0 - 240) * 262144 + (b1 - 128) * 4096 + (b2 - 128) * 64 + (b3 - 128), t3)%Z else bad
                | None => bad
                end
              else bad
          | None => bad
          end
        else bad
    | None => bad
    end
  else bad.

Fixpoint runes_fuel (fuel : nat) (s : string) : list Z :=
  match fuel with
  | O => []
  | S f => match byte_at s with None => [] | Some (b, t) => let '(r, t') := decode_rune b t in r :: runes_fuel f t' end
  end.
(** One rune consumes at least one byte, so the length of the string is fuel enough. *)
Definition runes (s : string) : list Z := runes_fuel (String.length s) s.

Section valid.
(** [unicode.IsPrint] of the runes beyond ASCII. *)
Context (unicode_print : Z -> bool).

Definition IsPrint (r : Z) : bool :=
  if ((0 <=? r) && (r <? 128))%Z then ((32 <=? r) && (r <=? 126))%Z else unicode_print r.

(** Source: modules/graph/g/utils.go, IsValidString. *)
Definition IsValidString (str : string) : bool :=
  forallb (fun t =>
    if (t =? 13) || (t =? 10) || (t =? 39) || (t =? 34) || (t =? 62) || (t =? 26) then false
    else IsPrint t)%Z (runes str).
End valid.

(** * The list of one series ([store/linkedlist.go]) *)

(** Source: modules/graph/store/linkedlist.go, type SafeLinkedList. The front of [sl_L] comes first. *)
Record GList := mkGList { sl_Flag : Z; sl_L : list GraphItem }.

(** Source: modules/graph/store/linkedlist.go, NewSafeLinkedList. *)
Definition NewSafeLinkedList : GList := mkGList 0 [].
(** Source: modules/graph/store/linkedlist.go, SafeLinkedList.PushFront. *)
Definition SL_PushFront (v : GraphItem) (l : GList) : GList := mkGList (sl_Flag l) (v :: sl_L l).
(** Source: modules/graph/store/linkedlist.go, SafeLinkedList.Front. *)
Definition SL_Front (l : GList) : option GraphItem := head (sl_L l).
(** Source: modules/graph/store/linkedlist.go, SafeLinkedList.PopBack. *)
Definition SL_PopBack (l : GList) : option GraphItem * GList :=
  match last (sl_L l) with
  | Some back => (Some back, mkGList (sl_Flag l) (removelast (sl_L l)))
  | None => (None, l)
  end.
(** Source: modules/graph/store/linkedlist.go, SafeLinkedList.Back. *)
Definition SL_Back (l : GList) : option GraphItem := last (sl_L l).
(** Source: modules/graph/store/linkedlist.go, SafeLinkedList.Len. *)
Definition SL_Len (l : GList) : Z := Z.of_nat (length (sl_L l)).

(** [for i := 0; i < size; i++ { item := L.Back(); ret = append(ret, item); L.Remove(item) }]. *)
Fixpoint pop_loop (n : nat) (L ret : list GraphItem) : res (list GraphItem * list GraphItem) :=
  match n with
  | O => Ret (ret, L)
  | S n' =>
      let! item := deref (last L) in
      pop_loop n' (removelast L) (ret ++ [item])%list
  end.
(** Source: modules/graph/store/linkedlist.go, SafeLinkedList.PopAll. *)
Definition SL_PopAll (l : GList) : res (list GraphItem * GList) :=
  let size := SL_Len l in
  if (size <=? 0)%Z then Ret ([], l)
  else
    let! (ret, L) := pop_loop (Z.to_nat size) (sl_L l) [] in
    Ret (ret, mkGList (sl_Flag l) L).

(** [for i := size - 1; i >= 0; i-- { L.PushBack(items[i]) }]. *)
Fixpoint push_back_loop (n : nat) (items L : list GraphItem) : res (list GraphItem) :=
  match n with
  | O => Ret L
  | S i => let! it := at_index items (Z.of_nat i) in push_back_loop i items (L ++ [it])%list
  end.
(** Source: modules/graph/store/linkedlist.go, SafeLinkedList.PushAll. *)
Definition SL_PushAll (items : list GraphItem) (l : GList) : res GList :=
  let! L := push_back_loop (length items) items (sl_L l) in Ret (mkGList (sl_Flag l) L).

(** Source: modules/graph/store/linkedlist.go, SafeLinkedList.FetchAll. From the back to the front. *)
Definition SL_FetchAll (l : GList) : list GraphItem * Z := (rev (sl_L l), sl_Flag l).

(** * The map of the series ([store/store.go]) *)

(** Source: modules/graph/store/store.go, type GraphItemMap. *)
Record GraphItemMap := mkGIM { gm_A : list (gmap string GList); gm_Size : Z }.

(** Source: modules/graph/store/store.go, hashKey. Both branches hash the bytes of the key. *)
Definition hashKey (key : string) : Z := crc32 (bytes_of key).

(** [CACHE_TIME / FLUSH_DISK_STEP]. *)
Definition CACHE_TIME : Z := 1800000.
Definition FLUSH_DISK_STEP : Z := 1000.
(** Source: modules/graph/store/store.go, lines 236-249. Symbol: init. *)
Definition init_GraphItems : GraphItemMap :=
  let size := Z.quot CACHE_TIME FLUSH_DISK_STEP in
  mkGIM (replicate (Z.to_nat size) ∅) size.

Definition idx_of (t : GraphItemMap) (key : string) : res Z := go_rem (hashKey key) (gm_Size t).
(** [this.A[idx]]. *)
Definition bucket (t : GraphItemMap) (key : string) : res (gmap string GList) :=
  let! idx := idx_of t key in at_index (gm_A t) idx.
(** [this.A[idx][key] = val], the index being in range. *)
Definition put_bucket (t : GraphItemMap) (key : string) (f : gmap string GList -> gmap string GList) : res GraphItemMap :=
  let! idx := idx_of t key in
  let! b := at_index (gm_A t) idx in
  Ret (mkGIM (<[Z.to_nat idx := f b]> (gm_A t)) (gm_Size t)).

(** Source: modules/graph/store/store.go, GraphItemMap.Get. *)
Definition GM_Get (t : GraphItemMap) (key : string) : res (option GList) :=
  let! b := bucket t key in Ret (b !! key).
(** Source: modules/graph/store/store.go, GraphItemMap.Remove. *)
Definition GM_Remove (t : GraphItemMap) (key : string) : res (bool * GraphItemMap) :=
  let! b := bucket t key in
  match b !! key with
  | None => Ret (false, t)
  | Some _ => let! t := put_bucket t key (delete key) in Ret (true, t)
  end.
(** Source: modules/graph/store/store.go, GraphItemMap.Getitems. *)
Definition GM_Getitems (t : GraphItemMap) (idx : Z) : res (gmap string GList * GraphItemMap) :=
  let! items := at_index (gm_A t) idx in
  Ret (items, mkGIM (<[Z.to_nat idx := ∅]> (gm_A t)) (gm_Size t)).
(** Source: modules/graph/store/store.go, GraphItemMap.Set. *)
Definition GM_Set (t : GraphItemMap) (key : string) (val : GList) : res GraphItemMap :=
  put_bucket t key (fun b => <[key := val]> b).
(** Source: modules/graph/store/store.go, GraphItemMap.Len. *)
Definition GM_Len (t : GraphItemMap) : res Z :=
  fold_res (fun l i => let! b := at_index (gm_A t) i in Ret (l + Z.of_nat (size b))%Z) 0%Z (seqZ 0 (gm_Size t)).
(** Source: modules/graph/store/store.go, GraphItemMap.First. *)
Definition GM_First (t : GraphItemMap) (key : string) : res (option GraphItem) :=
  let! sl := GM_Get t key in
  match sl with None => Ret None | Some sl => Ret (SL_Front sl) end.
(** Source: modules/graph/store/store.go, GraphItemMap.PushAll. The boolean is the error. *)
Definition GM_PushAll (t : GraphItemMap) (key : string) (items : list GraphItem) : res (bool * GraphItemMap) :=
  let! sl := GM_Get t key in
  match sl with
  | None => Ret (true, t)
  | Some sl =>
      let! sl := SL_PushAll items sl in
      let! t := GM_Set t key sl in Ret (false, t)
  end.
(** Source: modules/graph/store/store.go, GraphItemMap.GetFlag. [None] is the error. *)
Definition GM_GetFlag (t : GraphItemMap) (key : string) : res (option Z) :=
  let! sl := GM_Get t key in Ret (sl_Flag <$> sl).
(** Source: modules/graph/store/store.go, GraphItemMap.SetFlag. *)
Definition GM_SetFlag (t : GraphItemMap) (key : string) (flag : Z) : res (bool * GraphItemMap) :=
  let! sl := GM_Get t key in
  match sl with
  | None => Ret (true, t)
  | Some sl => let! t := GM_Set t key (mkGList flag (sl_L sl)) in Ret (false, t)
  end.
(** Source: modules/graph/store/store.go, GraphItemMap.PopAll. *)
Definition GM_PopAll (t : GraphItemMap) (key : string) : res (list GraphItem * GraphItemMap) :=
  let! sl := GM_Get t key in
  match sl with
  | None => Ret ([], t)
  | Some sl =>
      let! (items, sl) := SL_PopAll sl in
      let! t := GM_Set t key sl in Ret (items, t)
  end.
(** Source: modules/graph/store/store.go, GraphItemMap.FetchAll. *)
Definition GM_FetchAll (t : GraphItemMap) (key : string) : res (list GraphItem * Z) :=
  let! sl := GM_Get t key in
  match sl with None => Ret ([], 0%Z) | Some sl => Ret (SL_FetchAll sl) end.
(** Source: modules/graph/store/store.go, getWts. *)
Definition getWts (key : string) (now : Z) : Z :=
  (now +! CACHE_TIME -! Z.rem (hashKey key) CACHE_TIME)%Z.
(** Source: modules/graph/store/store.go, GraphItemMap.KeysByIndex. In the order [order] gives the keys of the map. *)
Definition GM_KeysByIndex (order : list string -> list string) (t : GraphItemMap) (idx : Z) : res (list string) :=
  let! b := at_index (gm_A t) idx in
  if (size b =? 0)%nat then Ret [] else Ret (order (map_to_list b).*1).
(** Source: modules/graph/store/store.go, GraphItemMap.Back. *)
Definition GM_Back (t : GraphItemMap) (key : string) : res (option GraphItem) :=
  let! sl := GM_Get t key in
  match sl with None => Ret None | Some L => Ret (SL_Back L) end.
(** Source: modules/graph/store/store.go, GraphItemMap.ItemCnt. *)
Definition GM_ItemCnt (t : GraphItemMap) (key : string) : res Z :=
  let! sl := GM_Get t key in
  match sl with None => Ret 0%Z | Some L => Ret (SL_Len L) end.

(** [GRAPH_F_MISS] and the following flags. *)
Definition GRAPH_F_MISS : Z := 1.
Definition GRAPH_F_ERR : Z := 2.
Definition GRAPH_F_SENDING : Z := 4.
Definition GRAPH_F_FETCHING : Z := 8.

(** Source: modules/graph/store/store.go, GraphItemMap.PushFront. [miss] tells that migration is on and the file of the series does not exist. *)
Definition GM_PushFront (miss : bool) (t : GraphItemMap) (key : string) (item : GraphItem) : res GraphItemMap :=
  let! sl := GM_Get t key in
  match sl with
  | Some linkedList => GM_Set t key (SL_PushFront item linkedList)
  | None =>
      let safeList := SL_PushFront item NewSafeLinkedList in
      let safeList := if miss then mkGList GRAPH_F_MISS (sl_L safeList) else safeList in
      GM_Set t key safeList
  end.

(** * The last points of a series ([store/history.go]) *)

(** Source: modules/graph/store/history.go, const defaultHistorySize. *)
Definition defaultHistorySize : nat := 3.

(** Source: vendor/github.com/toolkits/container/list/safelist.go, SafeListLimited.PushFrontViolently. The front comes first. *)
Definition PushFrontViolently {A} (maxSize : nat) (v : A) (l : list A) : list A :=
  let l := v :: l in
  if (maxSize <? length l)%nat then removelast l else l.

Notation HistoryCacheMap := (gmap string (list GraphItem)).

(** Source: modules/graph/store/history.go, GetLastItem. *)
Definition GetLastItem (h : HistoryCacheMap) (key : string) : GraphItem :=
  match h !! key with
  | None => GraphItem_zero
  | Some itemlist => match head itemlist with None => GraphItem_zero | Some first => first end
  end.
(** Source: modules/graph/store/history.go, GetAllItems. *)
Definition GetAllItems (h : HistoryCacheMap) (key : string) : list GraphItem :=
  match h !! key with None => [] | Some all => all end.
(** Source: modules/graph/store/history.go, AddItem. *)
Definition AddItem (key : string) (val : GraphItem) (h : HistoryCacheMap) : HistoryCacheMap :=
  let slist := match h !! key with None => [] | Some l => l end in
  match head slist with
  | None => <[key := PushFrontViolently defaultHistorySize val slist]> h
  | Some first =>
      if (gi_Timestamp first <? gi_Timestamp val)%Z
      then <[key := PushFrontViolently defaultHistorySize val slist]> h
      else <[key := slist]> h
  end.
