(* ===== verification/GraphApi.v ===== *)
(** The graph ([modules/graph]): the index of the series it has seen
    ([index]), the flushing of the waiting points to the rrd files
    ([rrdtool]), the handlers that receive, query and delete ([api]), and the
    periodic cleaning ([cron/clean.go]).

    The rrd files are [gs_disk]: for each file the points handed to rrdlite,
    oldest first.  What rrdlite answers to a fetch, what MySQL answers, the
    clock, the success of disk writes and map iteration orders come from
    [GEnv] at the current tick, as in [JudgeStore]; the SQL statements sent are
    the list [gs_sql].  The goroutines of an index update run one after the
    other here. *)
From S2P Require Export GraphStore.
Local Open Scope string_scope.

(** * State *)

(** Source: modules/graph/index/cache.go, type IndexCacheItem. *)
Record IndexCacheItem := mkIci { ici_UUID : string; ici_Item : GraphItem }.
(** Source: modules/graph/index/cache.go, NewIndexCacheItem. *)
Definition NewIndexCacheItem (uuid : string) (item : GraphItem) : IndexCacheItem := mkIci uuid item.

(** The statements sent to MySQL. *)
Inductive stmt :=
  | InsertEndpoint (endpoint : string) (ts : Z)
  | UpdateEndpoint (ts : Z) (endpoint : string)
  | InsertTag (tag : string) (endpointId ts : Z)
  | UpdateTag (ts endpointId : Z) (tag : string)
  | InsertCounter (endpointId : Z) (counter : string) (step : Z) (type : string) (ts : Z)
  | UpdateCounter (ts step : Z) (type : string) (endpointId : Z) (counter : string).

(** The text of a statement, as [fmt.Sprintf] builds it. *)
Definition q (s : string) : string := "'" ++s s ++s "'".
Definition sql_text (s : stmt) : string :=
  match s with
  | InsertEndpoint e ts =>
      "INSERT INTO endpoint(endpoint, ts, t_create) VALUES (" ++s q e ++s ", " ++s q (itoa ts) ++s ", NOW())"
  | UpdateEndpoint ts e =>
      "UPDATE  endpoint set ts=" ++s q (itoa ts) ++s ",t_modify=NOW() where endpoint=" ++s q e
  | InsertTag tag id ts =>
      "INSERT INTO tag_endpoint(tag, endpoint_id, ts, t_create) VALUES (" ++s q tag ++s ", " ++s q (itoa id) ++s ", "
        ++s q (itoa ts) ++s ", NOW())"
  | UpdateTag ts id tag =>
      "UPDATE tag_endpoint set ts=" ++s q (itoa ts) ++s ", t_modify=NOW() where endpoint_id=" ++s q (itoa id)
        ++s " and tag=" ++s q tag ++s " "
  | InsertCounter id c step ty ts =>
      "INSERT INTO endpoint_counter(endpoint_id,counter,step,type,ts,t_create) VALUES (" ++s q (itoa id) ++s ","
        ++s q c ++s "," ++s q (itoa step) ++s "," ++s q ty ++s "," ++s q (itoa ts) ++s ",NOW())"
  | UpdateCounter ts step ty id c =>
      "UPDATE endpoint_counter set ts=" ++s q (itoa ts) ++s ",step=" ++s q (itoa step) ++s ",type=" ++s q ty
        ++s ",t_modify=NOW() where endpoint_id=" ++s q (itoa id) ++s " and counter=" ++s q c ++s " "
  end.

(** What a SELECT of one row gives. *)
Inductive row (A : Type) := Row (a : A) | NoRows | QueryError.
Arguments Row {A} a. Arguments NoRows {A}. Arguments QueryError {A}.

Record GraphState := mkGraph {
  gs_items : GraphItemMap;
  gs_history : HistoryCacheMap;
  gs_indexed : gmap string IndexCacheItem;
  gs_unindexed : gmap string IndexCacheItem;
  gs_dbEndpoint : gmap string (Z * Z);
  gs_dbCounter : gmap string (string * Z);
  gs_disk : gmap string (list GraphItem);
  gs_sql : list (stmt * bool);
  gs_cnt : gmap string Z;
  gs_tick : nat }.

Definition set_items v s := mkGraph v (gs_history s) (gs_indexed s) (gs_unindexed s) (gs_dbEndpoint s)
  (gs_dbCounter s) (gs_disk s) (gs_sql s) (gs_cnt s) (gs_tick s).
Definition set_history v s := mkGraph (gs_items s) v (gs_indexed s) (gs_unindexed s) (gs_dbEndpoint s)
  (gs_dbCounter s) (gs_disk s) (gs_sql s) (gs_cnt s) (gs_tick s).
Definition set_indexed v s := mkGraph (gs_items s) (gs_history s) v (gs_unindexed s) (gs_dbEndpoint s)
  (gs_dbCounter s) (gs_disk s) (gs_sql s) (gs_cnt s) (gs_tick s).
Definition set_unindexed v s := mkGraph (gs_items s) (gs_history s) (gs_indexed s) v (gs_dbEndpoint s)
  (gs_dbCounter s) (gs_disk s) (gs_sql s) (gs_cnt s) (gs_tick s).
Definition set_dbEndpoint v s := mkGraph (gs_items s) (gs_history s) (gs_indexed s) (gs_unindexed s) v
  (gs_dbCounter s) (gs_disk s) (gs_sql s) (gs_cnt s) (gs_tick s).
Definition set_dbCounter v s := mkGraph (gs_items s) (gs_history s) (gs_indexed s) (gs_unindexed s) (gs_dbEndpoint s)
  v (gs_disk s) (gs_sql s) (gs_cnt s) (gs_tick s).
Definition set_disk v s := mkGraph (gs_items s) (gs_history s) (gs_indexed s) (gs_unindexed s) (gs_dbEndpoint s)
  (gs_dbCounter s) v (gs_sql s) (gs_cnt s) (gs_tick s).
Definition add_sql x s := mkGraph (gs_items s) (gs_history s) (gs_indexed s) (gs_unindexed s) (gs_dbEndpoint s)
  (gs_dbCounter s) (gs_disk s) (gs_sql s ++ [x]) (gs_cnt s) (gs_tick s).
Definition set_cnt v s := mkGraph (gs_items s) (gs_history s) (gs_indexed s) (gs_unindexed s) (gs_dbEndpoint s)
  (gs_dbCounter s) (gs_disk s) (gs_sql s) v (gs_tick s).
Definition graph_tick s := mkGraph (gs_items s) (gs_history s) (gs_indexed s) (gs_unindexed s) (gs_dbEndpoint s)
  (gs_dbCounter s) (gs_disk s) (gs_sql s) (gs_cnt s) (S (gs_tick s)).

(** Errors of the file system, and how a write to a new file ends: done, not
    opened, or stopped with [left] in the file. *)
Inductive os_err := ErrNotExist | ErrExist | ErrOther.
Inductive write_end := WriteDone | OpenFailed (e : os_err) | WriteStopped (left : list GraphItem) (e : os_err).

(** A fetch answers the start of the data, the seconds between two points and the values. *)
Record GEnv := mkGEnv {
  g_nano : nat -> Z;
  g_print : Z -> bool;
  g_fetch : nat -> string -> string -> Z -> Z -> Z -> option (Z * Z * list f64);
  g_create : nat -> bool;
  g_update : nat -> bool;
  g_read : nat -> bool;
  g_mkdir : nat -> option os_err;
  g_write : nat -> write_end;
  g_dbconn : nat -> bool;
  g_exec : nat -> stmt -> bool;
  g_endpoint_id : nat -> string -> row Z;
  g_counter_row : nat -> Z -> string -> row (string * Z);
  g_remote_query : nat -> list RRDData;
  g_send : nat -> bool;
  g_keys : nat -> list string -> list string;
  g_keys_perm : forall n l, g_keys n l ≡ₚ l }.

(** Source: modules/graph/g/cfg.go, type GlobalConfig. The storage directory and the switch of the migration. *)
Record GConfig := mkGConfig { gc_Storage : string; gc_Migrate : bool }.

Notation G := (M GraphState).
Definition glook {A} (f : nat -> A) : G A := fun s => Ret (f (gs_tick s), graph_tick s).

(** A statistics counter. *)
Definition count (name : string) (n : Z) : G unit :=
  modify (fun s => set_cnt (<[name := (default 0 (gs_cnt s !! name) + n)%Z]> (gs_cnt s)) s).
Definition set_count (name : string) (n : Z) : G unit :=
  modify (fun s => set_cnt (<[name := n]> (gs_cnt s)) s).

(** Run a partial operation of the item map on the state. *)
Definition items_read {A} (f : GraphItemMap -> res A) : G A :=
  do! t := gets gs_items in lift (f t).
Definition items_update {A} (f : GraphItemMap -> res (A * GraphItemMap)) : G A :=
  do! t := gets gs_items in
  do! (a, t) := lift (f t) in
  do! _ := modify (set_items t) in
  ret a.

Section graph.
Context (env : GEnv) (cfg : GConfig).

(** * The index ([index]) *)

(** Source: modules/graph/index/cache.go, IndexCacheBase.Put. *)
Definition IndexPut (key : string) (item : IndexCacheItem) (m : gmap string IndexCacheItem) := <[key := item]> m.
(** Source: modules/graph/index/cache.go, IndexCacheBase.Remove. *)
Definition IndexRemove (key : string) (m : gmap string IndexCacheItem) := delete key m.
(** Source: modules/graph/index/cache.go, IndexCacheBase.Get. *)
Definition IndexGet (key : string) (m : gmap string IndexCacheItem) : option IndexCacheItem := m !! key.
(** Source: modules/graph/index/cache.go, IndexCacheBase.ContainsKey. *)
Definition IndexContainsKey (key : string) (m : gmap string IndexCacheItem) : bool := bool_decide (is_Some (m !! key)).
(** Source: modules/graph/index/cache.go, IndexCacheBase.Size. *)
Definition IndexSize (m : gmap string IndexCacheItem) : Z := Z.of_nat (size m).
(** Source: modules/graph/index/cache.go, IndexCacheBase.Keys. *)
Definition IndexKeys (order : list string -> list string) (m : gmap string IndexCacheItem) : list string :=
  if (size m =? 0)%nat then [] else order (map_to_list m).*1.

Definition CacheTtl : Z := (600 * 10 ^ 9)%Z.

(** Source: modules/graph/index/cache.go, GetEndpointFromCache. *)
Definition GetEndpointFromCache (endpoint : string) : G (option Z) :=
  do! hit := gets (fun s => gs_dbEndpoint s !! endpoint) in
  do! now := glook (g_nano env) in
  match (match hit with Some (id, exp) => if (exp <? now)%Z then None else Some id | None => None end) with
  | Some id => ret (Some id)
  | None =>
      do! r := glook (g_endpoint_id env) in
      match r endpoint with
      | Row id =>
          if (id <? 0)%Z then ret None
          else
            do! now := glook (g_nano env) in
            do! _ := modify (fun s => set_dbEndpoint (<[endpoint := (id, now +! CacheTtl)]> (gs_dbEndpoint s)) s) in
            ret (Some id)
      | NoRows => ret None
      | QueryError => ret None
      end
  end.

(** Source: modules/graph/index/cache.go, GetCounterFromCache. *)
Definition GetCounterFromCache (endpointId : Z) (counter : string) : G (option (string * Z)) :=
  let key := itoa endpointId ++s "-" ++s counter in
  do! hit := gets (fun s => gs_dbCounter s !! key) in
  do! now := glook (g_nano env) in
  match (match hit with Some (v, exp) => if (exp <? now)%Z then None else Some v | None => None end) with
  | Some dsTypeStep =>
      let arr := split dsTypeStep "_" in
      do! a1 := lift (at_index arr 1) in
      match atoi a1 with
      | None => ret None
      | Some step => do! dsType := lift (at_index arr 0) in ret (Some (dsType, step))
      end
  | None =>
      do! r := glook (g_counter_row env) in
      match r endpointId counter with
      | Row (dsType, step) =>
          do! now := glook (g_nano env) in
          do! _ := modify (fun s => set_dbCounter (<[key := (dsType ++s "_" ++s itoa step, now +! CacheTtl)]> (gs_dbCounter s)) s) in
          ret (Some (dsType, step))
      | NoRows => ret None
      | QueryError => ret None
      end
  end.

(** Source: modules/graph/index/cache.go, GetTypeAndStep. *)
Definition GetTypeAndStep (endpoint counter : string) : G (option (string * Z)) :=
  let pk := Md5 (endpoint ++s "/" ++s counter) in
  do! icitem := gets (fun s => IndexGet pk (gs_indexed s)) in
  match icitem with
  | Some ic => ret (Some (gi_DsType (ici_Item ic), gi_Step (ici_Item ic)))
  | None =>
      do! _ := count "GraphLoadDbCnt" 1 in
      do! endpointId := GetEndpointFromCache endpoint in
      match endpointId with
      | Some id => GetCounterFromCache id counter
      | None => ret None
      end
  end.

(** [file.IsExist]. *)
Definition IsRrdFileExist (filename : string) : G bool :=
  gets (fun s => bool_decide (is_Some (gs_disk s !! filename))).

(** Source: modules/graph/index/index.go, ReceiveItem. *)
Definition ReceiveItem (item : GraphItem) (md5 : string) : G unit :=
  let uuid := GraphItem_UUID item in
  do! indexed := gets gs_indexed in
  if IndexContainsKey md5 indexed then
    do! old := lift (deref (IndexGet md5 indexed)) in
    if String.eqb uuid (ici_UUID old)
    then modify (fun s => set_indexed (IndexPut md5 (NewIndexCacheItem uuid item) (gs_indexed s)) s)
    else modify (fun s => set_unindexed (IndexPut md5 (NewIndexCacheItem uuid item) (gs_unindexed s)) s)
  else
    do! rrdFileName := lift (RrdFileName (gc_Storage cfg) md5 (gi_DsType item) (gi_Step item)) in
    do! ex := IsRrdFileExist rrdFileName in
    if ex : bool
    then modify (fun s => set_indexed (IndexPut md5 (NewIndexCacheItem uuid item) (gs_indexed s)) s)
    else modify (fun s => set_unindexed (IndexPut md5 (NewIndexCacheItem uuid item) (gs_unindexed s)) s).

(** Source: modules/graph/index/index.go, RemoveItem. *)
Definition RemoveItem (item : GraphItem) : G unit :=
  let md5 := GraphItem_Checksum item in
  do! _ := modify (fun s => set_indexed (IndexRemove md5 (gs_indexed s)) s) in
  do! _ := modify (fun s => set_unindexed (IndexRemove md5 (gs_unindexed s)) s) in
  let checksum := GraphItem_Checksum item in
  let key := FormRrdCacheKey checksum (gi_DsType item) (gi_Step item) in
  do! _ := items_update (fun t => GM_PopAll t key) in
  do! rrdFileName := lift (RrdFileName (gc_Storage cfg) md5 (gi_DsType item) (gi_Step item)) in
  modify (fun s => set_disk (delete rrdFileName (gs_disk s)) s).

(** [conn.Exec]: whether it worked. *)
Definition exec (st : stmt) : G bool :=
  do! r := glook (g_exec env) in
  do! _ := modify (add_sql (st, r st)) in
  ret (r st).

(** Source: modules/graph/index/index_update_all_task.go, updateIndexFromOneItem. [true] when it returns an error. *)
Definition updateIndexFromOneItem (item : GraphItem) : G bool :=
  let ts := gi_Timestamp item in
  do! ok := exec (InsertEndpoint (gi_Endpoint item) ts) in
  do! _ := (if ok : bool then skip
            else do! _ := exec (UpdateEndpoint ts (gi_Endpoint item)) in skip) in
  do! _ := count "IndexUpdateIncrDbEndpointInsertCnt" 1 in
  do! r := glook (g_endpoint_id env) in
  match r (gi_Endpoint item) with
  | NoRows => ret true
  | QueryError => ret true
  | Row endpointId =>
      if (endpointId <=? 0)%Z then ret true
      else
        do! order := glook (g_keys env) in
        do! _ := forM (order (map_to_list (gi_Tags item)).*1) (fun tagKey =>
          let tag := tagKey ++s "=" ++s default "" (gi_Tags item !! tagKey) in
          do! ok := exec (InsertTag tag endpointId ts) in
          do! _ := (if ok : bool then skip
                    else do! _ := exec (UpdateTag ts endpointId tag) in skip) in
          count "IndexUpdateIncrDbTagEndpointInsertCnt" 1) in
        let counter := gi_Metric item in
        let counter := if (0 <? size (gi_Tags item))%nat then counter ++s "/" ++s SortedTags (gi_Tags item) else counter in
        do! ok := exec (InsertCounter endpointId counter (gi_Step item) (gi_DsType item) ts) in
        do! _ := (if ok : bool then skip
                  else do! _ := exec (UpdateCounter ts (gi_Step item) (gi_DsType item) endpointId counter) in skip) in
        do! _ := count "IndexUpdateIncrDbEndpointCounterInsertCnt" 1 in
        ret false
  end.

(** Source: modules/graph/index/index_update_incr_task.go, updateIndexIncr. *)
Definition updateIndexIncr : G Z :=
  do! n := gets (fun s => IndexSize (gs_unindexed s)) in
  if (n <=? 0)%Z then ret 0%Z
  else
    do! conn := glook (g_dbconn env) in
    if negb conn then ret 0%Z
    else
      do! order := glook (g_keys env) in
      do! keys := gets (fun s => IndexKeys order (gs_unindexed s)) in
      foldM (fun cnt key =>
        do! icitem := gets (fun s => IndexGet key (gs_unindexed s)) in
        do! _ := modify (fun s => set_unindexed (IndexRemove key (gs_unindexed s)) s) in
        match icitem with
        | None => ret cnt
        | Some icitem =>
            do! err := updateIndexFromOneItem (ici_Item icitem) in
            do! _ := (if err : bool then count "IndexUpdateIncrErrorCnt" 1
                      else modify (fun s => set_indexed (IndexPut key icitem (gs_indexed s)) s)) in
            ret (cnt + 1)%Z
        end) 0%Z keys.

(** Source: modules/graph/index/index_update_all_task.go, updateIndexAll. *)
Definition updateIndexAll (updateStepInSec : Z) : G Z :=
  do! n := gets (fun s => IndexSize (gs_indexed s)) in
  if (n <=? 0)%Z then ret 0%Z
  else
    do! conn := glook (g_dbconn env) in
    if negb conn then ret 0%Z
    else
      do! nano := glook (g_nano env) in
      let ts := (nano / 10 ^ 9)%Z in
      let lastTs := (ts -! updateStepInSec)%Z in
      do! order := glook (g_keys env) in
      do! keys := gets (fun s => IndexKeys order (gs_indexed s)) in
      foldM (fun cnt key =>
        do! icitem := gets (fun s => IndexGet key (gs_indexed s)) in
        match icitem with
        | None => ret cnt
        | Some icitem =>
            let gitem := ici_Item icitem in
            if (gi_Timestamp gitem <? lastTs)%Z then
              do! _ := modify (fun s => set_indexed (IndexRemove key (gs_indexed s)) s) in
              ret cnt
            else
              do! err := updateIndexFromOneItem gitem in
              do! _ := (if err : bool then count "IndexUpdateAllErrorCnt" 1 else skip) in
              ret (cnt + 1)%Z
        end) 0%Z keys.

(** Source: modules/graph/index/index_update_all_task.go, UpdateIndexOne. The result is the error. *)
Definition UpdateIndexOne (endpoint metric : string) (tags : tagmap) (dstype : string) (step : Z) : G (option string) :=
  let itemDemo := mkGraphItem endpoint metric tags fzero 0 dstype step 0 "" "" in
  let md5 := GraphItem_Checksum itemDemo in
  let uuid := GraphItem_UUID itemDemo in
  do! cached := gets (fun s => IndexGet md5 (gs_indexed s)) in
  match cached with
  | None => ret (Some "not found")
  | Some icitem =>
      if negb (String.eqb (ici_UUID icitem) uuid) then ret (Some "bad type or step")
      else
        do! conn := glook (g_dbconn env) in
        if negb conn then ret (Some "make dbConn fail")
        else
          do! err := updateIndexFromOneItem (ici_Item icitem) in
          ret (if err : bool then Some "update index" else None)
  end.

(** * The disk ([rrdtool]) *)

(** Points rrdlite cannot store are left out; counters are stored as integers. *)
Definition f1e300 : f64 := f64_of_Z (10 ^ 300).
Definition f1em300 : f64 := f64_dec 1 300.
(** Source: modules/graph/rrdtool/rrdtool.go, lines 120-130. The points cached in the updater. Symbol: update. *)
Definition update_points (items : list GraphItem) : list GraphItem :=
  List.filter (fun item =>
    let v := fabs (gi_Value item) in
    negb (flt f1e300 v || (flt v f1em300 && flt fzero v))) items.

(** Source: modules/graph/rrdtool/rrdtool.go, flushrrd. The boolean is the error; [create] is rrdlite's. *)
Definition flushrrd (filename : string) (items : list GraphItem) : G bool :=
  match items with
  | [] => ret true
  | _ :: _ =>
      do! ex := IsRrdFileExist filename in
      do! ok := (if ex : bool then ret true
                 else
                   do! ok := glook (g_create env) in
                   do! _ := (if ok : bool then modify (fun s => set_disk (<[filename := []]> (gs_disk s)) s) else skip) in
                   ret ok) in
      if negb ok then ret true
      else
        do! ok := glook (g_update env) in
        if ok : bool then
          do! _ := modify (fun s => set_disk (<[filename := (default [] (gs_disk s !! filename) ++ update_points items)%list]> (gs_disk s)) s) in
          ret false
        else ret true
  end.

(** Source: modules/graph/rrdtool/rrdtool.go, FlushFile. Through the io worker, which runs the task at once here. *)
Definition FlushFile (filename md5 : string) (items : list GraphItem) : G bool :=
  do! _ := count "disk_counter" 1 in
  flushrrd filename items.

(** Source: modules/graph/rrdtool/rrdtool.go, fetch. *)
Definition fetch (filename cf : string) (start stop step : Z) : G (option (list RRDData)) :=
  do! f := glook (g_fetch env) in
  match f filename cf start stop step with
  | None => ret None
  | Some (start_ts, step_s, values) =>
      ret (Some (imap (fun i val => mkRRDData (start_ts +! Z.of_nat (i + 1) *! step_s)%Z val) values))
  end.

(** Source: modules/graph/rrdtool/rrdtool.go, Fetch. On an error the data is the empty slice. *)
Definition Fetch (filename md5 cf : string) (start stop step : Z) : G (list RRDData) :=
  do! r := fetch filename cf start stop step in
  ret (match r with Some d => d | None => [] end).

(** Source: modules/graph/rrdtool/rrdtool.go, CommitByKey. *)
Definition CommitByKey (key : string) : G unit :=
  let '(md5, dsType, step, err) := SplitRrdCacheKey key in
  if err then skip
  else
    do! filename := lift (RrdFileName (gc_Storage cfg) md5 dsType step) in
    do! items := items_update (fun t => GM_PopAll t key) in
    if (length items =? 0)%nat then skip
    else do! _ := FlushFile filename md5 items in skip.

Definition FLUSH_MIN_COUNT : Z := 6.
Definition FLUSH_MAX_WAIT : Z := 86400.

(** Source: modules/graph/rrdtool/rrdtool.go, shouldFlush. *)
Definition shouldFlush (key : string) : G bool :=
  do! n := items_read (fun t => GM_ItemCnt t key) in
  if (FLUSH_MIN_COUNT <=? n)%Z then ret true
  else
    do! nano := glook (g_nano env) in
    let deadline := (nano / 10 ^ 9 -! FLUSH_MAX_WAIT)%Z in
    do! back := items_read (fun t => GM_Back t key) in
    match back with
    | Some b => ret (gi_Timestamp b <=? deadline)%Z
    | None => ret false
    end.

(** Source: modules/graph/rrdtool/rrdtool.go, FlushRRD. A missing file under migration is left to [PullByKey], whose network task runs in the background. *)
Definition FlushRRD (idx : Z) (force : bool) : G unit :=
  do! order := glook (g_keys env) in
  do! keys := items_read (fun t => GM_KeysByIndex order t idx) in
  if (length keys =? 0)%nat then skip
  else forM keys (fun key =>
    do! flag := items_read (fun t => GM_GetFlag t key) in
    let flag := default 0%Z flag in
    if negb force && gc_Migrate cfg && negb (Z.land flag GRAPH_F_MISS =? 0)%Z then skip
    else
      do! due := (if force then ret true else shouldFlush key) in
      if due : bool then CommitByKey key else skip).

(** Source: modules/graph/rrdtool/rrdtool.go, FlushAll. *)
Definition FlushAll (force : bool) : G unit :=
  do! n := gets (fun s => gm_Size (gs_items s)) in
  forM (seqZ 0 n) (fun i => FlushRRD i force).

(** Source: modules/graph/rrdtool/migrate.go, send_data. Hand the points of a series to another graph; they are put back when three calls fail. [true] is the error. *)
Definition send_data (key : string) : G bool :=
  do! flag := items_read (fun t => GM_GetFlag t key) in
  match flag with
  | None => ret true
  | Some flag =>
      do! _ := items_update (fun t => GM_SetFlag t key (Z.lor flag GRAPH_F_SENDING)) in
      do! items := items_update (fun t => GM_PopAll t key) in
      do! err := (if (length items =? 0)%nat then ret false
                  else
                    do! ok1 := glook (g_send env) in
                    if ok1 : bool then ret false
                    else
                      do! ok2 := glook (g_send env) in
                      if ok2 : bool then ret false
                      else
                        do! ok3 := glook (g_send env) in
                        if ok3 : bool then ret false
                        else
                          do! _ := items_update (fun t => GM_PushAll t key items) in
                          ret true) in
      let flag := Z.land flag (Z.lnot GRAPH_F_SENDING) in
      do! _ := items_update (fun t => GM_SetFlag t key flag) in
      ret err
  end.

(** * Handlers ([api/graph.go]) *)

(** Source: modules/graph/api/graph.go, lines 86-127. One item. Symbol: handleItems. *)
Definition handleItem (item : option GraphItem) : G unit :=
  match item with
  | None => skip
  | Some item =>
      let endpoint := gi_Endpoint item in
      if negb (IsValidString (g_print env) endpoint) then count "invalidEnpoint" 1
      else
        let counter := Counter (gi_Metric item) (gi_Tags item) in
        if negb (IsValidString (g_print env) counter) then count "invalidCounter" 1
        else
          let dsType := gi_DsType item in
          let step := gi_Step item in
          let checksum := GraphItem_Checksum item in
          let key := FormRrdCacheKey checksum dsType step in
          do! _ := count "GraphRpcRecvCnt" 1 in
          do! first := items_read (fun t => GM_First t key) in
          if match first with Some f => (gi_Timestamp item <=? gi_Timestamp f)%Z | None => false end then skip
          else
            do! rrdFileName := lift (RrdFileName (gc_Storage cfg) checksum dsType step) in
            do! ex := IsRrdFileExist rrdFileName in
            do! _ := items_update (fun t => let! t := GM_PushFront (gc_Migrate cfg && negb ex) t key item in Ret (tt, t)) in
            do! _ := ReceiveItem item checksum in
            modify (fun s => set_history (AddItem checksum item (gs_history s)) s)
  end.

(** Source: modules/graph/api/graph.go, handleItems. *)
Definition handleItems (items : list (option GraphItem)) : G unit :=
  if (length items =? 0)%nat then skip else forM items handleItem.

(** Source: modules/graph/api/graph.go, Graph.Send. The background goroutine runs at once here. *)
Definition Graph_Send (items : list (option GraphItem)) : G unit := handleItems items.

(** Source: common/model/graph.go, type GraphQueryParam. *)
Record GraphQueryParam := mkGQP {
  qp_Start : Z; qp_End : Z; qp_ConsolFun : string; qp_Endpoint : string; qp_Counter : string; qp_Step : Z }.
(** Source: common/model/graph.go, type GraphQueryResponse. *)
Record GraphQueryResponse := mkGQR {
  qr_Endpoint : string; qr_Counter : string; qr_DsType : string; qr_Step : Z; qr_Values : list RRDData }.

Definition RRA1PointCnt : Z := 720.

Definition in_range (lo hi ts : Z) : bool := ((lo <=? ts) && (ts <=? hi))%Z.

(** Source: modules/graph/api/graph.go, lines 214-235. The rates of the cached items; [None] when the fuel runs out. Symbol: Graph.Query. *)
Fixpoint rate_points (fuel : nat) (items : list GraphItem) (step itemEndTs start_ts end_ts : Z)
    (ts : Z) (itemIdx : Z) (cache : list RRDData) : res (option (list RRDData)) :=
  match fuel with
  | O => Ret None
  | S fuel =>
      if negb (ts <? itemEndTs)%Z then Ret (Some cache)
      else
        let! (val, itemIdx) :=
          (if (itemIdx <? Z.of_nat (length items) - 1)%Z then
             let! it := at_index items itemIdx in
             if (ts =? gi_Timestamp it)%Z then
               let! next := at_index items (itemIdx + 1) in
               let val := if (ts =? gi_Timestamp next -! step)%Z
                          then fdiv (fsub (gi_Value next) (gi_Value it)) (f64_of_Z step) else fnan in
               let val := if flt val fzero then fnan else val in
               Ret (val, (itemIdx + 1)%Z)
             else Ret (fnan, itemIdx)
           else Ret (fnan, itemIdx)) in
        let cache := if in_range start_ts end_ts ts then (cache ++ [mkRRDData ts val])%list else cache in
        rate_points fuel items step itemEndTs start_ts end_ts (ts +! step)%Z itemIdx cache
  end.

(** Source: modules/graph/api/graph.go, lines 236-251. The values of the cached items. Symbol: Graph.Query. *)
Fixpoint gauge_points (fuel : nat) (items : list GraphItem) (step itemEndTs start_ts end_ts : Z)
    (ts : Z) (itemIdx : Z) (cache : list RRDData) : res (option (list RRDData)) :=
  match fuel with
  | O => Ret None
  | S fuel =>
      if negb (ts <=? itemEndTs)%Z then Ret (Some cache)
      else
        let! (val, itemIdx) :=
          (if (itemIdx <? Z.of_nat (length items))%Z then
             let! it := at_index items itemIdx in
             if (ts =? gi_Timestamp it)%Z then Ret (gi_Value it, (itemIdx + 1)%Z) else Ret (fnan, itemIdx)
           else Ret (fnan, itemIdx)) in
        let cache := if in_range start_ts end_ts ts then (cache ++ [mkRRDData ts val])%list else cache in
        gauge_points fuel items step itemEndTs start_ts end_ts (ts +! step)%Z itemIdx cache
  end.

(** Source: modules/graph/api/graph.go, lines 205-252. The cached items as points of the grid. Symbol: Graph.Query. *)
Definition cached_points (fuel : nat) (dsType : string) (items : list GraphItem) (step start_ts end_ts : Z)
    : res (option (list RRDData)) :=
  let! first := at_index items 0 in
  let ts := gi_Timestamp first in
  let! lst := at_index items (Z.of_nat (length items) - 1) in
  let itemEndTs := gi_Timestamp lst in
  if String.eqb dsType DERIVE || String.eqb dsType COUNTER
  then rate_points fuel items step itemEndTs start_ts end_ts ts 0 []
  else if String.eqb dsType GAUGE
  then gauge_points fuel items step itemEndTs start_ts end_ts ts 0 []
  else Ret (Some []).

(** Source: modules/graph/api/graph.go, lines 268-275. The last point before the cached ones, and its index or -1. Symbol: Graph.Query. *)
Fixpoint junction (n : nat) (merged : list RRDData) (c0 lastTs : Z) : res (Z * Z) :=
  match n with
  | O => Ret (-1, lastTs)%Z
  | S i =>
      let! m := at_index merged (Z.of_nat i) in
      if (rd_Timestamp m <? c0)%Z then Ret (Z.of_nat i, rd_Timestamp m) else junction i merged c0 lastTs
  end.

(** Source: modules/graph/api/graph.go, lines 278-280. Symbol: Graph.Query. *)
Fixpoint fix_missing (fuel : nat) (ts c0 step : Z) (merged : list RRDData) : option (list RRDData) :=
  match fuel with
  | O => None
  | S fuel =>
      if (ts <? c0)%Z then fix_missing fuel (ts +! step)%Z c0 step (merged ++ [mkRRDData ts fnan])%list
      else Some merged
  end.

(** Source: modules/graph/api/graph.go, lines 284-293. Symbol: Graph.Query. *)
Fixpoint overlay (cache : list RRDData) (rrdDataIdx rrdDataSize : Z) (merged : list RRDData) : res (list RRDData) :=
  match cache with
  | [] => Ret merged
  | c :: cache =>
      let! merged :=
        (if (rrdDataIdx <? rrdDataSize)%Z then
           if negb (is_nan (rd_Value c)) then
             let! _ := at_index merged rrdDataIdx in Ret (<[Z.to_nat rrdDataIdx := c]> merged)
           else Ret merged
         else Ret (merged ++ [c])%list) in
      overlay cache (rrdDataIdx + 1) rrdDataSize merged
  end.

(** Source: modules/graph/api/graph.go, lines 254-294. Merge the cached points into the stored ones. Symbol: Graph.Query. *)
Definition merge_points (fuel : nat) (datas cache : list RRDData) (step start_ts end_ts : Z) : res (option (list RRDData)) :=
  let merged := List.filter (fun v => in_range start_ts end_ts (rd_Timestamp v)) datas in
  match cache with
  | [] => Ret (Some merged)
  | c0 :: _ =>
      let rrdDataSize := Z.of_nat (length merged) in
      let! (rrdDataIdx, lastTs) := junction (length merged) merged (rd_Timestamp c0) (rd_Timestamp c0) in
      match fix_missing fuel (lastTs +! step)%Z (rd_Timestamp c0) step merged with
      | None => Ret None
      | Some merged =>
          let! merged := overlay cache (rrdDataIdx + 1) rrdDataSize merged in
          Ret (Some merged)
      end
  end.

(** Source: modules/graph/api/graph.go, lines 303-313. The answer, one point per step. Symbol: Graph.Query. *)
Fixpoint format_points (n : nat) (ts step : Z) (mergedIdx : Z) (merged : list RRDData) : res (list RRDData) :=
  match n with
  | O => Ret []
  | S n =>
      let! (p, mergedIdx) :=
        (if (mergedIdx <? Z.of_nat (length merged))%Z then
           let! m := at_index merged mergedIdx in
           if (ts =? rd_Timestamp m)%Z then Ret (m, (mergedIdx + 1)%Z) else Ret (mkRRDData ts fnan, mergedIdx)
         else Ret (mkRRDData ts fnan, mergedIdx)) in
      let! rest := format_points n (ts +! step)%Z step mergedIdx merged in
      Ret (p :: rest)
  end.

(** Source: modules/graph/api/graph.go, lines 205-315. Symbol: Graph.Query. *)
Definition merge_answer (fuel : nat) (dsType : string) (items : list GraphItem) (datas : list RRDData)
    (step start_ts end_ts : Z) : res (option (list RRDData)) :=
  let! cache := cached_points fuel dsType items step start_ts end_ts in
  match cache with
  | None => Ret None
  | Some cache =>
      let! merged := merge_points fuel datas cache step start_ts end_ts in
      match merged with
      | None => Ret None
      | Some merged =>
          let! n := go_quot (end_ts -! start_ts)%Z step in
          let ret_size := if String.eqb dsType GAUGE then (n +! 1)%Z else n in
          if negb (make_ok ret_size) then Panic MakeLen
          else let! r := format_points (Z.to_nat ret_size) start_ts step 0 merged in Ret (Some r)
      end
  end.

(** Source: modules/graph/api/graph.go, Graph.Query. [None] when a loop needs more than [fuel] turns. *)
Definition Query (fuel : nat) (param : GraphQueryParam) : G (option GraphQueryResponse) :=
  do! _ := count "GraphQueryCnt" 1 in
  let resp := mkGQR (qp_Endpoint param) (qp_Counter param) in
  do! ts := GetTypeAndStep (qp_Endpoint param) (qp_Counter param) in
  match ts with
  | None => ret (Some (resp "" 0%Z []))
  | Some (dsType, step) =>
      let resp := resp dsType step in
      do! r1 := lift (go_rem (qp_Start param) step) in
      do! r2 := lift (go_rem (qp_End param) step) in
      let start_ts := (qp_Start param -! r1)%Z in
      let end_ts := (qp_End param -! r2 +! step)%Z in
      if (end_ts -! start_ts -! step <? 1)%Z then ret (Some (resp []))
      else
        let md5 := Md5 (qp_Endpoint param ++s "/" ++s qp_Counter param) in
        let key := FormRrdCacheKey md5 dsType step in
        do! filename := lift (RrdFileName (gc_Storage cfg) md5 dsType step) in
        do! (items, flag) := items_read (fun t => GM_FetchAll t key) in
        do! datas := (if gc_Migrate cfg && negb (Z.land flag GRAPH_F_MISS =? 0)%Z
                      then glook (g_remote_query env)
                      else Fetch filename md5 (qp_ConsolFun param) (start_ts -! step)%Z end_ts step) in
        do! nano := glook (g_nano env) in
        let nowTs := (nano / 10 ^ 9)%Z in
        do! r3 := lift (go_rem nowTs step) in
        let lastUpTs := (nowTs -! r3)%Z in
        let rra1StartTs := (lastUpTs -! RRA1PointCnt *! step)%Z in
        do! values := (if (start_ts <? rra1StartTs)%Z then ret (Some datas)
                       else if (length items <? 1)%nat then ret (Some datas)
                       else lift (merge_answer fuel dsType items datas step start_ts end_ts)) in
        match values with
        | None => ret None
        | Some values =>
            do! _ := count "GraphQueryItemCnt" (Z.of_nat (length values)) in
            ret (Some (resp values))
        end
  end.

(** Source: common/model/graph.go, type GraphDeleteParam. *)
Record GraphDeleteParam := mkGDP {
  dp_Endpoint : string; dp_Metric : string; dp_Step : Z; dp_DsType : string; dp_Tags : string }.

(** Source: modules/graph/api/graph.go, Graph.Delete. *)
Definition Graph_Delete (params : list GraphDeleteParam) : G unit :=
  forM params (fun param =>
    let '(err, tags) := SplitTagsString (dp_Tags param) in
    match err with
    | Some _ => skip
    | None => RemoveItem (mkGraphItem (dp_Endpoint param) (dp_Metric param) tags fzero 0 (dp_DsType param) (dp_Step param) 0 "" "")
    end).

(** Source: modules/graph/api/graph.go, Graph.Info. The consolidation function, the step and the file. *)
Definition Graph_Info (endpoint counter : string) : G (string * Z * string) :=
  do! _ := count "GraphInfoCnt" 1 in
  do! ts := GetTypeAndStep endpoint counter in
  match ts with
  | None => ret ("", 0%Z, "")
  | Some (dsType, step) =>
      let md5 := Md5 (endpoint ++s "/" ++s counter) in
      do! p := lift (slice md5 0 2) in
      ret (dsType, step, gc_Storage cfg ++s "/" ++s p ++s "/" ++s md5 ++s "_" ++s dsType ++s "_" ++s itoa step ++s ".rrd")
  end.

(** Source: modules/graph/api/graph.go, GetLastRaw. *)
Definition GetLastRaw (endpoint counter : string) : G RRDData :=
  let md5 := Md5 (endpoint ++s "/" ++s counter) in
  do! item := gets (fun s => GetLastItem (gs_history s) md5) in
  ret (NewRRDData (gi_Timestamp item) (gi_Value item)).

(** Source: modules/graph/api/graph.go, GetLast. *)
Definition GetLast (endpoint counter : string) : G RRDData :=
  do! ts := GetTypeAndStep endpoint counter in
  match ts with
  | None => ret (NewRRDData 0 fzero)
  | Some (dsType, step) =>
      if String.eqb dsType GAUGE then GetLastRaw endpoint counter
      else if String.eqb dsType COUNTER || String.eqb dsType DERIVE then
        let md5 := Md5 (endpoint ++s "/" ++s counter) in
        do! items := gets (fun s => GetAllItems (gs_history s) md5) in
        if (length items <? 2)%nat then ret (NewRRDData 0 fzero)
        else
          do! f0 := lift (at_index items 0) in
          do! f1 := lift (at_index items 1) in
          let delta_ts := (gi_Timestamp f0 -! gi_Timestamp f1)%Z in
          let delta_v := fsub (gi_Value f0) (gi_Value f1) in
          if negb (delta_ts =? step)%Z || (delta_ts <=? 0)%Z then ret (NewRRDData 0 fzero)
          else
            let delta_v := if flt delta_v fzero then fzero else delta_v in
            ret (NewRRDData (gi_Timestamp f0) (fdiv delta_v (f64_of_Z delta_ts)))
      else ret (NewRRDData 0 fzero)
  end.

(** Source: modules/graph/api/graph.go, Graph.Last. *)
Definition Graph_Last (endpoint counter : string) : G RRDData :=
  do! _ := count "GraphLastCnt" 1 in GetLast endpoint counter.
(** Source: modules/graph/api/graph.go, Graph.LastRaw. *)
Definition Graph_LastRaw (endpoint counter : string) : G RRDData :=
  do! _ := count "GraphLastRawCnt" 1 in GetLastRaw endpoint counter.

(** * Cleaning ([cron/clean.go]) *)

(** Source: modules/graph/cron/clean.go, DeleteInvalidItems. *)
Definition DeleteInvalidItems : G Z :=
  do! n := gets (fun s => gm_Size (gs_items s)) in
  do! deleteCnt := foldM (fun deleteCnt idx =>
    do! order := glook (g_keys env) in
    do! keys := items_read (fun t => GM_KeysByIndex order t idx) in
    foldM (fun deleteCnt key =>
      let tmp := split key "_" in
      do! indexed := gets gs_indexed in
      do! bad := lift (if (length tmp =? 3)%nat
                       then let! md5 := at_index tmp 0 in Ret (negb (IndexContainsKey md5 indexed))
                       else Ret false) in
      if bad : bool then
        do! _ := items_update (fun t => GM_Remove t key) in
        ret (deleteCnt + 1)%Z
      else ret deleteCnt) deleteCnt keys) 0%Z (seqZ 0 n) in
  do! currentCnt := items_read GM_Len in
  do! _ := set_count "GraphItemsCacheCnt" currentCnt in
  do! _ := set_count "GraphItemsCacheInvalidCnt" deleteCnt in
  ret deleteCnt.

(** Source: modules/graph/cron/clean.go, DeleteInvalidHistory. *)
Definition DeleteInvalidHistory : G Z :=
  do! order := glook (g_keys env) in
  do! keys := gets (fun s => order (map_to_list (gs_history s)).*1) in
  do! deleteCnt := foldM (fun deleteCnt key =>
    do! indexed := gets gs_indexed in
    if negb (IndexContainsKey key indexed) then
      do! _ := modify (fun s => set_history (delete key (gs_history s)) s) in
      ret (deleteCnt + 1)%Z
    else ret deleteCnt) 0%Z keys in
  do! currentCnt := gets (fun s => Z.of_nat (size (gs_history s))) in
  do! _ := set_count "HistoryCacheCnt" currentCnt in
  do! _ := set_count "HistoryCacheInvalidCnt" deleteCnt in
  ret deleteCnt.
End graph.
