(* ===== verification/GraphThms.v ===== *)
(** Theorems on the graph: the hashed item map is a map, no waiting point is
    lost or reordered, the names of files and cache keys, the last points, the
    index. *)
From S2P Require Export GraphApi.
From Stdlib Require Import Ascii.
Local Open Scope string_scope.

(** * Cache keys *)

Lemma split_three a b c :
  has "_" a = false -> has "_" b = false -> has "_" c = false ->
  split (a ++s "_" ++s b ++s "_" ++s c) "_" = [a; b; c].
Proof.
  intros Ha Hb Hc. change ("_" ++s b ++s "_" ++s c) with (String "_" (b ++s String "_" c)).
  rewrite split_one, cut_app by done. f_equal. rewrite split_one, cut_app by done. by rewrite split_no_sep.
Qed.

(** * Popping and pushing back *)

Lemma pop_loop_rev L ret : pop_loop (length L) L ret = Ret ((ret ++ rev L)%list, []).
Proof.
  revert ret. induction L as [|x L IH] using rev_ind; intros ret; cbn [pop_loop]; [by rewrite app_nil_r|].
  rewrite length_app, Nat.add_1_r. cbn [pop_loop]. rewrite last_snoc. cbn [deref rbind].
  rewrite removelast_last, IH, rev_app_distr. by rewrite <- app_assoc.
Qed.

(** Popping gives the points from the oldest to the newest and empties the list. *)
Lemma SL_PopAll_spec l : SL_PopAll l = Ret (rev (sl_L l), mkGList (sl_Flag l) []).
Proof.
  destruct l as [f L]. unfold SL_PopAll, SL_Len. cbn. destruct (Z.leb_spec (Z.of_nat (length L)) 0) as [H|H].
  - destruct L; [done|simpl in H; lia].
  - by rewrite Nat2Z.id, pop_loop_rev.
Qed.

Lemma push_back_loop_spec n items L :
  n <= length items -> push_back_loop n items L = Ret ((L ++ rev (take n items))%list).
Proof.
  revert L; induction n as [|n IH]; intros L Hn; cbn [push_back_loop]; [by rewrite take_0, app_nil_r|].
  destruct (lookup_lt_is_Some_2 items n) as [x Hx]; [lia|].
  rewrite (at_index_lookup _ _ _ Hx). cbn [rbind]. rewrite IH by lia.
  by rewrite (take_S_r _ _ _ Hx), rev_app_distr, <- app_assoc.
Qed.

Lemma SL_PushAll_spec items l : SL_PushAll items l = Ret (mkGList (sl_Flag l) (sl_L l ++ rev items)%list).
Proof. unfold SL_PushAll. rewrite push_back_loop_spec by done. by rewrite firstn_all. Qed.

(** * The hashed map is a map *)

(** Every key is in the bucket of its hash. *)
Definition gm_ok (t : GraphItemMap) : Prop :=
  (0 < gm_Size t)%Z /\ Z.of_nat (length (gm_A t)) = gm_Size t /\
  forall i b key, gm_A t !! i = Some b -> is_Some (b !! key) -> (hashKey key mod gm_Size t)%Z = Z.of_nat i.

(** The map it stands for. *)
Definition view (t : GraphItemMap) (key : string) : option GList :=
  b ← gm_A t !! Z.to_nat (hashKey key mod gm_Size t); b !! key.

Lemma hash_idx t key : (0 < gm_Size t)%Z -> idx_of t key = Ret (hashKey key mod gm_Size t)%Z.
Proof.
  intros H. unfold idx_of, go_rem. destruct (Z.eqb_spec (gm_Size t) 0); [lia|].
  rewrite Z.rem_mod_nonneg; [done|apply crc32_nonneg|done].
Qed.

Lemma bucket_spec t key : gm_ok t -> exists b,
  bucket t key = Ret b /\ gm_A t !! Z.to_nat (hashKey key mod gm_Size t) = Some b /\ view t key = b !! key.
Proof.
  intros (Hs & Hl & _). unfold bucket. rewrite hash_idx by done. cbn [rbind].
  pose proof (Z.mod_pos_bound (hashKey key) _ Hs) as Hm.
  destruct (lookup_lt_is_Some_2 (gm_A t) (Z.to_nat (hashKey key mod gm_Size t))) as [b Hb]; [lia|].
  exists b. split; [|split; [done|unfold view; by rewrite Hb]].
  unfold at_index. zcase. by rewrite Hb.
Qed.

(** Changing the bucket of a key at that key only. *)
Lemma put_bucket_spec t key f (o : option GList) :
  gm_ok t -> (forall b, f b !! key = o) -> (forall b k, k <> key -> f b !! k = b !! k) ->
  exists t', put_bucket t key f = Ret t' /\ gm_ok t' /\ gm_Size t' = gm_Size t /\
    forall k, view t' k = if decide (k = key) then o else view t k.
Proof.
  intros Hok Ho Hne. destruct (bucket_spec t key Hok) as (b & Hb & Hlk & _). destruct Hok as (Hs & Hl & Hbk).
  unfold bucket in Hb. unfold put_bucket. rewrite hash_idx in * by done. cbn [rbind] in *. rewrite Hb. cbn [rbind].
  set (i := Z.to_nat (hashKey key mod gm_Size t)) in *.
  assert (i < length (gm_A t)) as Hi by (by eapply lookup_lt_Some).
  pose proof (Z.mod_pos_bound (hashKey key) _ Hs) as Hm.
  eexists. split; [done|]. split; [|split; [done|]].
  - repeat split; cbn; [done|by rewrite length_insert|]. intros j b' k Hj [x Hx].
    destruct (decide (j = i)) as [->|Hji].
    + rewrite list_lookup_insert_eq in Hj by done. injection Hj as <-.
      destruct (decide (k = key)) as [->|Hk]; [unfold i; lia|]. rewrite Hne in Hx by done. by apply (Hbk i b).
    + rewrite list_lookup_insert_ne in Hj by done. by eapply Hbk.
  - intros k. unfold view. cbn. destruct (decide (k = key)) as [->|Hk].
    + fold i. rewrite list_lookup_insert_eq by done. cbn. apply Ho.
    + destruct (decide (Z.to_nat (hashKey k mod gm_Size t) = i)) as [->|Hki].
      * rewrite list_lookup_insert_eq by done. cbn. rewrite Hlk. cbn. by apply Hne.
      * by rewrite list_lookup_insert_ne.
Qed.

Lemma GM_Get_spec t key : gm_ok t -> GM_Get t key = Ret (view t key).
Proof. intros H. destruct (bucket_spec t key H) as (b & Hb & _ & ->). unfold GM_Get. by rewrite Hb. Qed.

(** The outcome of an update: the map is well formed and changed at one key. *)
Definition updated (t t' : GraphItemMap) (key : string) (o : option GList) : Prop :=
  gm_ok t' /\ gm_Size t' = gm_Size t /\ forall k, view t' k = if decide (k = key) then o else view t k.

Lemma updated_same t key : gm_ok t -> updated t t key (view t key).
Proof. intros H. split; [done|]. split; [done|]. intros k. by destruct (decide (k = key)) as [->|]. Qed.

Lemma GM_Set_spec t key v : gm_ok t -> exists t', GM_Set t key v = Ret t' /\ updated t t' key (Some v).
Proof.
  intros H. unfold GM_Set. apply put_bucket_spec; [done|intros; apply lookup_insert_eq|intros; by rewrite lookup_insert_ne].
Qed.
Lemma GM_Remove_spec t key : gm_ok t ->
  exists t', GM_Remove t key = Ret (bool_decide (is_Some (view t key)), t') /\ updated t t' key None.
Proof.
  intros H. unfold GM_Remove. destruct (bucket_spec t key H) as (b & -> & _ & Hv). cbn [rbind]. rewrite Hv.
  destruct (b !! key) eqn:E.
  - destruct (put_bucket_spec t key (delete key) None) as (t' & -> & Ht'); [done|intros; apply lookup_delete_eq|
      intros; by rewrite lookup_delete_ne|]. by exists t'.
  - exists t. split; [done|]. rewrite <- Hv. by apply updated_same.
Qed.
Lemma GM_First_spec t key : gm_ok t -> GM_First t key = Ret (sl ← view t key; SL_Front sl).
Proof. intros H. unfold GM_First. rewrite GM_Get_spec by done. cbn. by destruct (view t key). Qed.
Lemma GM_FetchAll_spec t key : gm_ok t ->
  GM_FetchAll t key = Ret (match view t key with Some sl => (rev (sl_L sl), sl_Flag sl) | None => ([], 0%Z) end).
Proof. intros H. unfold GM_FetchAll. rewrite GM_Get_spec by done. cbn. by destruct (view t key). Qed.
Lemma GM_PopAll_spec t key : gm_ok t ->
  exists t', GM_PopAll t key = Ret (match view t key with Some sl => rev (sl_L sl) | None => [] end, t') /\
    updated t t' key ((fun sl => mkGList (sl_Flag sl) []) <$> view t key).
Proof.
  intros H. unfold GM_PopAll. rewrite GM_Get_spec by done. cbn. destruct (view t key) as [sl|] eqn:E.
  - rewrite SL_PopAll_spec. cbn. destruct (GM_Set_spec t key (mkGList (sl_Flag sl) []) H) as (t' & -> & Ht'). by exists t'.
  - exists t. split; [done|]. cbn. rewrite <- E. by apply updated_same.
Qed.
Lemma GM_PushAll_spec t key items : gm_ok t ->
  exists t', GM_PushAll t key items = Ret (bool_decide (view t key = None), t') /\
    updated t t' key ((fun sl => mkGList (sl_Flag sl) (sl_L sl ++ rev items)%list) <$> view t key).
Proof.
  intros H. unfold GM_PushAll. rewrite GM_Get_spec by done. cbn. destruct (view t key) as [sl|] eqn:E.
  - rewrite SL_PushAll_spec. cbn. destruct (GM_Set_spec t key (mkGList (sl_Flag sl) (sl_L sl ++ rev items)) H) as (t' & -> & Ht').
    by exists t'.
  - exists t. split; [done|]. cbn. rewrite <- E. by apply updated_same.
Qed.
Lemma GM_SetFlag_spec t key flag : gm_ok t ->
  exists t', GM_SetFlag t key flag = Ret (bool_decide (view t key = None), t') /\
    updated t t' key ((fun sl => mkGList flag (sl_L sl)) <$> view t key).
Proof.
  intros H. unfold GM_SetFlag. rewrite GM_Get_spec by done. cbn. destruct (view t key) as [sl|] eqn:E.
  - destruct (GM_Set_spec t key (mkGList flag (sl_L sl)) H) as (t' & -> & Ht'). by exists t'.
  - exists t. split; [done|]. cbn. rewrite <- E. by apply updated_same.
Qed.
(** The list after a push. *)
Definition pushed (miss : bool) (item : GraphItem) (o : option GList) : GList :=
  match o with
  | Some sl => SL_PushFront item sl
  | None => mkGList (if miss then GRAPH_F_MISS else 0%Z) [item]
  end.
Lemma GM_PushFront_spec miss t key item : gm_ok t ->
  exists t', GM_PushFront miss t key item = Ret t' /\ updated t t' key (Some (pushed miss item (view t key))).
Proof.
  intros H. unfold GM_PushFront. rewrite GM_Get_spec by done. cbn.
  destruct (view t key) as [sl|]; [by apply GM_Set_spec|].
  replace (if miss then _ else _) with (pushed miss item None) by (by destruct miss). by apply GM_Set_spec.
Qed.

Lemma init_gm_ok : gm_ok init_GraphItems.
Proof.
  split; [done|]. split; [done|]. intros i b key Hb. unfold init_GraphItems in Hb. cbn [gm_A] in Hb.
  apply lookup_replicate in Hb as [-> _]. rewrite lookup_empty. by intros [? ?].
Qed.
Lemma init_view key : view init_GraphItems key = None.
Proof.
  unfold view, init_GraphItems. cbn [gm_A gm_Size].
  destruct (replicate _ _ !! _) as [b|] eqn:E; [|done]. by apply lookup_replicate in E as [-> _].
Qed.

(** * The last points *)

Definition older (a b : GraphItem) : Prop := (gi_Timestamp b < gi_Timestamp a)%Z.
(** Strictly newest first. *)
Definition newest_first (l : list GraphItem) : Prop := StronglySorted older l.

Lemma newest_first_cons x l :
  newest_first l -> match head l with Some f => older x f | None => True end -> newest_first (x :: l).
Proof.
  intros Hl Hx. constructor; [done|]. destruct l as [|f l]; [constructor|]. cbn in Hx.
  constructor; [done|]. inversion Hl as [|? ? _ Hf]; subst. eapply Forall_impl; [exact Hf|]. unfold older in *. intros; lia.
Qed.

Lemma StronglySorted_take {A} (R : relation A) n (l : list A) : StronglySorted R l -> StronglySorted R (take n l).
Proof.
  intros H. revert n; induction H as [|x l HL IH Hx]; intros [|n]; simpl; [constructor..|].
  constructor; [apply IH|by apply Forall_take].
Qed.

Lemma PushFrontViolently_take {A} n (v : A) l : length l <= n -> PushFrontViolently n v l = take n (v :: l).
Proof.
  intros H. unfold PushFrontViolently. destruct (Nat.ltb_spec n (length (v :: l))) as [Hl|Hl].
  - rewrite removelast_firstn_len. f_equal. simpl in *. lia.
  - by rewrite take_ge.
Qed.

Definition history_fine (h : HistoryCacheMap) : Prop :=
  map_Forall (fun _ l => newest_first l /\ length l <= defaultHistorySize) h.

Lemma AddItem_fine key v h : history_fine h -> history_fine (AddItem key v h).
Proof.
  intros H. unfold AddItem.
  assert (newest_first (default [] (h !! key)) /\ length (default [] (h !! key)) <= defaultHistorySize) as [Hs Hl].
  { destruct (h !! key) eqn:E; cbn; [by apply (H key)|split; [constructor|lia]]. }
  change (match h !! key with Some l => l | None => [] end) with (default [] (h !! key)).
  set (l := default [] (h !! key)) in *.
  assert (match head l with Some f => older v f | None => True end ->
    history_fine (<[key:=PushFrontViolently defaultHistorySize v l]> h)) as Hpush.
  { intros Hh. apply map_Forall_insert_2; [|done]. rewrite PushFrontViolently_take by done. split.
    - by apply StronglySorted_take, newest_first_cons.
    - rewrite length_take. lia. }
  destruct (head l) as [f|]; [|by apply Hpush]. destruct (Z.ltb_spec (gi_Timestamp f) (gi_Timestamp v)); [by apply Hpush|].
  by apply map_Forall_insert_2.
Qed.

(** * The invariant of the stores *)

Definition graph_ok (s : GraphState) : Prop :=
  gm_ok (gs_items s) /\ (forall key sl, view (gs_items s) key = Some sl -> newest_first (sl_L sl)) /\
  history_fine (gs_history s).

(** Handlers that change neither the waiting points nor the last points. *)
Definition same_points (s s' : GraphState) : Prop := gs_items s = gs_items s' /\ gs_history s = gs_history s'.
#[export] Instance same_points_pre : PreOrder same_points.
Proof. split; [done|]. intros ? ? ?. unfold same_points. intuition congruence. Qed.

Lemma graph_ok_same s s' : same_points s s' -> graph_ok s -> graph_ok s'.
Proof. unfold same_points, graph_ok. by intros [-> ->]. Qed.

Lemma moves_keeps {A} (m : G A) : moves same_points m -> keeps graph_ok m.
Proof. intros Hm s a s' Hs H. eapply graph_ok_same; [by eapply Hm|done]. Qed.

Lemma glook_same {A} (f : nat -> A) : moves same_points (glook f).
Proof. by intros s a s' [= <- <-]. Qed.

Ltac gmv L := apply L; try exact _.
Ltac gwalk := repeat match goal with
  | |- moves _ (mthen _ _) => gmv @moves_then; [|intros]
  | |- moves _ (ret _) => gmv @moves_ret
  | |- moves _ skip => gmv @moves_ret
  | |- moves _ (gets _) => gmv @moves_gets
  | |- moves _ (lift _) => gmv @moves_lift
  | |- moves same_points (glook _) => apply glook_same
  | |- moves _ (forM _ _) => gmv @moves_forM; intros
  | |- moves _ (foldM _ _ _) => gmv @moves_foldM; intros
  | |- moves _ (match ?x with _ => _ end) => destruct x
  | |- moves _ (modify _) => gmv @moves_modify; done
  | |- moves _ (items_read _) => unfold items_read
  | |- moves _ (count _ _) => unfold count
  | |- moves _ (set_count _ _) => unfold set_count
  end.

(** An update of the item map that leaves ordered lists. *)
Lemma keeps_items_update {A} (f : GraphItemMap -> res (A * GraphItemMap)) :
  (forall t a t', gm_ok t -> (forall key sl, view t key = Some sl -> newest_first (sl_L sl)) -> f t = Ret (a, t') ->
     exists key o, updated t t' key o /\ match o with Some sl => newest_first (sl_L sl) | None => True end) ->
  keeps graph_ok (items_update f).
Proof.
  intros Hf s a s' (Hg & Hv & Hh) H. unfold items_update, gets, lift, modify, mthen, ret in H.
  destruct (f (gs_items s)) as [[a' t']|] eqn:E; [|done]. injection H as <- <-.
  destruct (Hf _ _ _ Hg Hv E) as (key & o & (Hg' & _ & Hview) & Ho).
  split; [done|]. split; [|done]. cbn. intros k sl. rewrite Hview.
  destruct (decide (k = key)) as [->|]; [|apply Hv]. by intros ->.
Qed.

Lemma PopAll_keeps key : keeps graph_ok (items_update (fun t => GM_PopAll t key)).
Proof.
  apply keeps_items_update. intros t a t' Hg _ H. destruct (GM_PopAll_spec t key Hg) as (t1 & E & Hu).
  rewrite E in H. injection H as <- <-. exists key. eexists. split; [exact Hu|]. destruct (view t key); [constructor|done].
Qed.
Lemma Remove_keeps key : keeps graph_ok (items_update (fun t => GM_Remove t key)).
Proof.
  apply keeps_items_update. intros t a t' Hg _ H. destruct (GM_Remove_spec t key Hg) as (t1 & E & Hu).
  rewrite E in H. injection H as <- <-. by exists key, None.
Qed.
Lemma SetFlag_keeps key flag : keeps graph_ok (items_update (fun t => GM_SetFlag t key flag)).
Proof.
  apply keeps_items_update. intros t a t' Hg Hv H. destruct (GM_SetFlag_spec t key flag Hg) as (t1 & E & Hu).
  rewrite E in H. injection H as <- <-. exists key. eexists. split; [exact Hu|].
  destruct (view t key) eqn:Ev; [|done]. cbn. by eapply Hv.
Qed.

Section ordered.
Context (env : GEnv) (cfg : GConfig).

Lemma ReceiveItem_same item md5 : moves same_points (ReceiveItem cfg item md5).
Proof using Type. unfold ReceiveItem, IsRrdFileExist. gwalk. Qed.

Lemma items_read_inv {A} (f : GraphItemMap -> res A) s a s' :
  items_read f s = Ret (a, s') -> f (gs_items s) = Ret a /\ s' = s.
Proof using Type. unfold items_read. intros H. step_inv H. injection E as <- <-. by apply lift_inv in H. Qed.

Lemma items_update_inv {A} (f : GraphItemMap -> res (A * GraphItemMap)) s a s' :
  items_update f s = Ret (a, s') -> exists t, f (gs_items s) = Ret (a, t) /\ s' = set_items t s.
Proof using Type.
  unfold items_update. intros H. step_inv H. injection E as <- <-. step_inv H. apply lift_inv in E as [E ->].
  destruct a0 as [a0 t]. step_inv H. injection E0 as <- <-. injection H as <- <-. by exists t.
Qed.

Lemma AddItem_keeps key item : keeps graph_ok (modify (fun s => set_history (AddItem key item (gs_history s)) s)).
Proof using Type. apply keeps_modify. intros s (Hg & Hv & Hh). split; [done|]. split; [done|]. by apply AddItem_fine. Qed.

Lemma handleItem_keeps item : keeps graph_ok (handleItem env cfg item).
Proof using Type.
  destruct item as [item|]; [|apply keeps_ret]. unfold handleItem.
  destruct (negb _); [apply moves_keeps; gwalk|]. destruct (negb _); [apply moves_keeps; gwalk|].
  set (key := FormRrdCacheKey _ _ _). apply keeps_then; [apply moves_keeps; gwalk|]. intros _ s a s' Hs H.
  pose proof Hs as (Hg & Hv & Hh). step_inv H. apply items_read_inv in E as [E ->].
  rewrite GM_First_spec in E by done. injection E as <-.
  destruct (match mbind _ _ with Some f => _ | None => false end) eqn:Enew; [by injection H as <- <-|].
  step_inv H. apply lift_inv in E as [_ ->]. step_inv H. injection E as <- <-. step_inv H.
  refine (keeps_then graph_ok _ _ _ _ _ _ _ _ H); [apply moves_keeps, ReceiveItem_same|intros; apply AddItem_keeps|]. clear H.
  apply items_update_inv in E as (t & E & ->).
  match type of E with context [GM_PushFront ?miss _ _ _] =>
    destruct (GM_PushFront_spec miss (gs_items s) key item Hg) as (t1 & E1 & Hg1 & _ & Hv1) end.
  rewrite E1 in E. injection E as _ <-. split; [done|]. split; [|done]. cbn. intros k sl. rewrite Hv1.
  destruct (decide (k = key)) as [->|]; [|apply Hv]. intros [= <-].
  destruct (view (gs_items s) key) as [sl|] eqn:Ev; cbn; [|by repeat constructor].
  apply newest_first_cons; [by eapply Hv|]. cbn in Enew. unfold SL_Front in Enew.
  destruct (head (sl_L sl)); [|done]. apply Z.leb_gt in Enew. done.
Qed.

Lemma handleItems_keeps items : keeps graph_ok (handleItems env cfg items).
Proof using Type.
  unfold handleItems. destruct (_ =? _)%nat; [apply keeps_ret|]. apply keeps_forM. intros. apply handleItem_keeps.
Qed.

Lemma RemoveItem_keeps item : keeps graph_ok (RemoveItem cfg item).
Proof using Type.
  unfold RemoveItem. do 2 (apply keeps_then; [by apply keeps_modify|intros _]).
  apply keeps_then; [apply PopAll_keeps|intros _]. apply keeps_then; [apply keeps_lift|]. intros f. by apply keeps_modify.
Qed.

Lemma Delete_keeps params : keeps graph_ok (Graph_Delete cfg params).
Proof using Type.
  unfold Graph_Delete. apply keeps_forM. intros p _. destruct (SplitTagsString _) as [[?|] tags]; [apply keeps_ret|].
  apply RemoveItem_keeps.
Qed.

Lemma FlushFile_same filename md5 items : moves same_points (FlushFile env filename md5 items).
Proof using Type. unfold FlushFile, flushrrd, IsRrdFileExist. gwalk. Qed.

Lemma CommitByKey_keeps key : keeps graph_ok (CommitByKey env cfg key).
Proof using Type.
  unfold CommitByKey. destruct (SplitRrdCacheKey key) as [[[md5 ds] step] []]; [apply keeps_ret|].
  apply keeps_then; [apply keeps_lift|]. intros f. apply keeps_then; [apply PopAll_keeps|]. intros items.
  destruct (_ =? _)%nat; [apply keeps_ret|]. apply moves_keeps. gwalk. apply FlushFile_same.
Qed.

Lemma FlushRRD_keeps idx force : keeps graph_ok (FlushRRD env cfg idx force).
Proof using Type.
  unfold FlushRRD, shouldFlush. apply keeps_then; [apply moves_keeps; gwalk|]. intros order.
  apply keeps_then; [apply moves_keeps; gwalk|]. intros keys. destruct (_ =? _)%nat; [apply keeps_ret|].
  apply keeps_forM. intros key _. apply keeps_then; [apply moves_keeps; gwalk|]. intros flag.
  destruct (_ && _); [apply keeps_ret|]. apply keeps_then; [apply moves_keeps; gwalk|].
  intros []; [apply CommitByKey_keeps|apply keeps_ret].
Qed.

Lemma FlushAll_keeps force : keeps graph_ok (FlushAll env cfg force).
Proof using Type.
  unfold FlushAll. apply keeps_then; [apply keeps_gets|]. intros n. apply keeps_forM. intros. apply FlushRRD_keeps.
Qed.

Lemma updateIndexFromOneItem_same item : moves same_points (updateIndexFromOneItem env item).
Proof using Type. unfold updateIndexFromOneItem, exec. gwalk. Qed.
Lemma updateIndexIncr_same : moves same_points (updateIndexIncr env).
Proof using Type. unfold updateIndexIncr. gwalk. apply updateIndexFromOneItem_same. Qed.
Lemma updateIndexAll_same n : moves same_points (updateIndexAll env n).
Proof using Type. unfold updateIndexAll. gwalk. apply updateIndexFromOneItem_same. Qed.

Lemma DeleteInvalidItems_keeps : keeps graph_ok (DeleteInvalidItems env).
Proof using Type.
  unfold DeleteInvalidItems. apply keeps_then; [apply keeps_gets|]. intros n.
  apply keeps_then; [|intros; apply moves_keeps; gwalk]. apply keeps_foldM. intros d idx _.
  apply keeps_then; [apply moves_keeps; gwalk|]. intros order. apply keeps_then; [apply moves_keeps; gwalk|]. intros keys.
  apply keeps_foldM. intros d' key _. apply keeps_then; [apply keeps_gets|]. intros ix.
  apply keeps_then; [apply keeps_lift|]. intros []; [|apply keeps_ret].
  apply keeps_then; [apply Remove_keeps|]. intros; apply keeps_ret.
Qed.

Lemma DeleteInvalidHistory_keeps : keeps graph_ok (DeleteInvalidHistory env).
Proof using Type.
  unfold DeleteInvalidHistory. apply keeps_then; [apply moves_keeps; gwalk|]. intros order.
  apply keeps_then; [apply keeps_gets|]. intros keys.
  apply keeps_then; [|intros; apply moves_keeps; gwalk]. apply keeps_foldM. intros d key _.
  apply keeps_then; [apply keeps_gets|]. intros ix. destruct (negb _); [|apply keeps_ret].
  apply keeps_then; [|intros; apply keeps_ret]. apply keeps_modify. intros s (Hg & Hv & Hh). split; [done|]. split; [done|].
  by apply map_Forall_delete.
Qed.

Lemma Query_same fuel p : moves same_points (Query env cfg fuel p).
Proof using Type.
  unfold Query, GetTypeAndStep, GetEndpointFromCache, GetCounterFromCache, Fetch, fetch. gwalk.
Qed.
End ordered.

(** * Handing points over during a migration *)

(** Two maps that show the same series with the same points. *)
Definition same_lists (t t' : GraphItemMap) : Prop := forall key, sl_L <$> view t' key = sl_L <$> view t key.

(** The points of one series as a map update sees them. *)
Lemma send_data_steps env key s b s' :
  gm_ok (gs_items s) -> send_data env key s = Ret (b, s') ->
  gm_ok (gs_items s') /\ gs_history s' = gs_history s /\ forall k, sl_L <$> view (gs_items s') k =
    (if decide (k = key) then (if b then sl_L <$> view (gs_items s) key else (fun _ => []) <$> view (gs_items s) key)
     else sl_L <$> view (gs_items s) k).
Proof.
  intros Hg H. unfold send_data in H. step_inv H. apply items_read_inv in E as [E ->].
  unfold GM_GetFlag in E. rewrite GM_Get_spec in E by done. injection E as <-.
  destruct (view (gs_items s) key) as [sl|] eqn:Ev; cbn in H.
  2:{ injection H as <- <-. split; [done|]. split; [done|]. intros k. by destruct (decide (k = key)) as [->|]; [rewrite Ev|]. }
  step_inv H. apply items_update_inv in E as (t1 & E & ->).
  destruct (GM_SetFlag_spec (gs_items s) key (Z.lor (sl_Flag sl) GRAPH_F_SENDING) Hg) as (t1' & E1 & Hg1 & _ & Hv1).
  rewrite E1 in E. injection E as <- <-. step_inv H. apply items_update_inv in E as (t2 & E & ->).
  destruct (GM_PopAll_spec t1' key Hg1) as (t2' & E2 & Hg2 & _ & Hv2). cbn in E. rewrite E2 in E. injection E as <- <-.
  step_inv H. step_inv H. apply items_update_inv in E0 as (t4 & E4 & ->). injection H as <- <-.
  set (items := match view t1' key with Some sl => rev (sl_L sl) | None => [] end) in *.
  assert (items = rev (sl_L sl)) as Hitems by (unfold items; rewrite Hv1, decide_True, Ev by done; done).
  assert (gm_ok (gs_items s0) /\ gs_history s0 = gs_history s /\ forall k, sl_L <$> view (gs_items s0) k =
    if decide (k = key) then Some (if a then sl_L sl else []) else sl_L <$> view (gs_items s) k) as (Hg3 & Hh3 & Hv3).
  { assert (forall k, sl_L <$> view t2' k = if decide (k = key) then Some [] else sl_L <$> view (gs_items s) k) as Hv2'.
    { intros k. rewrite Hv2, !Hv1. destruct (decide (k = key)) as [->|]; [by rewrite decide_True, Ev|done]. }
    revert E. fold items. destruct (length items =? 0)%nat eqn:El.
    { intros [= <- <-]. done. }
    intros E. do 3 (step_inv E; injection E0 as <- <-; match type of E with (if ?c then _ else _) _ = _ => destruct c end;
      [by injection E as <- <-|]).
    step_inv E. apply items_update_inv in E0 as (t3 & E3 & ->). injection E as <- <-. cbn in E3.
    destruct (GM_PushAll_spec t2' key items Hg2) as (t3' & E3' & Hg3 & _ & Hv3). rewrite E3' in E3. injection E3 as <- <-.
    split; [done|]. split; [done|]. intros k. cbn. rewrite Hv3. destruct (decide (k = key)) as [->|Hk].
    - specialize (Hv2' key). rewrite decide_True in Hv2' by done. destruct (view t2' key); [|done].
      cbn in *. injection Hv2' as ->. by rewrite Hitems, rev_involutive.
    - rewrite Hv2'. by rewrite decide_False. }
  destruct (GM_SetFlag_spec (gs_items s0) key (Z.land (sl_Flag sl) (Z.lnot GRAPH_F_SENDING)) Hg3) as (t4' & E4' & Hg4 & _ & Hv4).
  rewrite E4' in E4. injection E4 as <- <-. split; [done|]. split; [done|]. intros k. cbn. rewrite Hv4. specialize (Hv3 k).
  destruct (decide (k = key)) as [->|]; [|done].
  destruct (view (gs_items s0) key); [|done]. cbn in *. rewrite Hv3. by destruct a.
Qed.
