(* ===== verification/GraphProps.v ===== *)
(** Properties of the graph: what its runs keep, what a report, a flush, a
    deletion, a cleaning, a migration and an index update do to the points,
    and what the last point of a series is. *)
From S2P Require Export GraphThms.
From Stdlib Require Import Ascii.
Local Open Scope string_scope.

(** * Runs *)

(** One call of a handler or of a periodic task. *)
Inductive graph_op :=
  | OpSend (items : list (option GraphItem))
  | OpQuery (fuel : nat) (p : GraphQueryParam)
  | OpDelete (params : list GraphDeleteParam)
  | OpFlush (force : bool)
  | OpIndexIncr
  | OpIndexAll (step : Z)
  | OpCleanItems
  | OpCleanHistory.

Definition run_op (env : GEnv) (cfg : GConfig) (op : graph_op) : G unit :=
  match op with
  | OpSend items => Graph_Send env cfg items
  | OpQuery fuel p => do! _ := Query env cfg fuel p in skip
  | OpDelete params => Graph_Delete cfg params
  | OpFlush force => FlushAll env cfg force
  | OpIndexIncr => do! _ := updateIndexIncr env in skip
  | OpIndexAll step => do! _ := updateIndexAll env step in skip
  | OpCleanItems => do! _ := DeleteInvalidItems env in skip
  | OpCleanHistory => do! _ := DeleteInvalidHistory env in skip
  end.
Definition graph_run (env : GEnv) (cfg : GConfig) (ops : list graph_op) : G unit := forM ops (run_op env cfg).

(** A graph that starts over the rrd files [disk]. *)
Definition graph_init (disk : gmap string (list GraphItem)) : GraphState :=
  mkGraph init_GraphItems ∅ ∅ ∅ ∅ ∅ disk [] ∅ 0.

(** The waiting points of a series, oldest first. *)
Definition waiting (s : GraphState) (key : string) : list GraphItem :=
  match view (gs_items s) key with Some sl => rev (sl_L sl) | None => [] end.
(** Times strictly increase. *)
Definition ascending (l : list GraphItem) : Prop := StronglySorted (fun a b => (gi_Timestamp a < gi_Timestamp b)%Z) l.

Lemma graph_init_ok disk : graph_ok (graph_init disk).
Proof. split; [apply init_gm_ok|]. split; [intros key sl; cbn; by rewrite init_view|]. apply map_Forall_empty. Qed.

Lemma run_op_keeps env cfg op : keeps graph_ok (run_op env cfg op).
Proof.
  destruct op; cbn [run_op]; try (apply keeps_then; [|intros; apply keeps_ret]).
  - apply handleItems_keeps.
  - apply moves_keeps, Query_same.
  - apply Delete_keeps.
  - apply FlushAll_keeps.
  - apply moves_keeps, updateIndexIncr_same.
  - apply moves_keeps, updateIndexAll_same.
  - apply DeleteInvalidItems_keeps.
  - apply DeleteInvalidHistory_keeps.
Qed.

Lemma StronglySorted_rev {A} (R : relation A) (l : list A) : StronglySorted R l -> StronglySorted (flip R) (rev l).
Proof.
  induction 1 as [|x l Hs IH Hx]; [constructor|]. cbn. apply StronglySorted_app. split_and!; [|done|by repeat constructor].
  intros a b Ha Hb%list_elem_of_singleton. subst b. rewrite Forall_forall in Hx. apply Hx. by apply list_elem_of_In, in_rev, list_elem_of_In.
Qed.

(** ** Handlers return *)

(** The form of a key of the item map. *)
Definition key_form (key : string) : Prop := exists x rest, key = Md5 x ++s String "_" rest.
(** A well formed item map of [n] buckets, with the keys of series. *)
Definition sized (n : Z) (s : GraphState) : Prop :=
  gm_ok (gs_items s) /\ gm_Size (gs_items s) = n /\ forall key, is_Some (view (gs_items s) key) -> key_form key.

Lemma key_form_key x ds step : key_form (FormRrdCacheKey (Md5 x) ds step).
Proof. by exists x, (ds ++s "_" ++s itoa step). Qed.

Lemma hex_no_underscore bs : has "_" (hex_encode bs) = false.
Proof.
  induction bs as [|b bs IH]; [done|]. cbn [hex_encode has]. rewrite IH, !orb_false_r.
  assert (forall d, Ascii.eqb (hex_chr d) "_" = false) as H.
  { intros d. pose proof (hex_chr_in d) as Hin. destruct (Ascii.eqb_spec (hex_chr d) "_") as [E|]; [|done].
    rewrite E in Hin. exfalso. revert Hin. apply (bool_decide_unpack _). by vm_compute. }
  by rewrite !H.
Qed.
Lemma md5_no_underscore x : has "_" (Md5 x) = false.
Proof. apply hex_no_underscore. Qed.

Lemma RrdFileName_md5 base x ds step : exists f, RrdFileName base (Md5 x) ds step = Ret f.
Proof. unfold RrdFileName, slice, slen, Md5. rewrite md5_hex_length. cbn. eauto. Qed.

(** What the key of a series splits into. *)
Lemma split_key_form key : key_form key -> exists x rest, split key "_" = Md5 x :: rest.
Proof. intros (x & rest & ->). exists x, (split rest "_"). rewrite split_one, cut_app by apply md5_no_underscore. done. Qed.

Section returns.
Context (env : GEnv) (cfg : GConfig) (n : Z).

Lemma runs_glook {A} (f : nat -> A) : runs (sized n) (glook f).
Proof using Type. intros s Hs. by exists (f (gs_tick s)), (graph_tick s). Qed.
Lemma runs_items_read {A} (f : GraphItemMap -> res A) :
  (forall t, gm_ok t -> gm_Size t = n -> exists a, f t = Ret a) -> runs (sized n) (items_read f).
Proof using Type.
  intros Hf s (Hg & Hn & Hk). destruct (Hf _ Hg Hn) as [a E]. exists a, s. split; [|done]. unfold items_read, mthen, gets, lift. by rewrite E.
Qed.
Lemma runs_items_update {A} (f : GraphItemMap -> res (A * GraphItemMap)) :
  (forall t, gm_ok t -> exists a t' key o, f t = Ret (a, t') /\ updated t t' key o /\ (is_Some o -> is_Some (view t key) \/ key_form key)) ->
  runs (sized n) (items_update f).
Proof using Type.
  intros Hf s (Hg & Hn & Hk). destruct (Hf _ Hg) as (a & t' & key & o & E & (Hg' & Hn' & Hv) & Ho).
  exists a, (set_items t' s). split; [unfold items_update, mthen, gets, lift; by rewrite E|]. split; [done|]. split; [cbn; congruence|].
  cbn. intros k. rewrite Hv. destruct (decide (k = key)) as [->|]; [|apply Hk]. intros H. destruct (Ho H); auto.
Qed.
Lemma runs_filename base x ds step : runs (sized n) (lift (RrdFileName base (Md5 x) ds step)).
Proof using Type. apply runs_lift, RrdFileName_md5. Qed.
Lemma runs_PopAll key : runs (sized n) (items_update (fun t => GM_PopAll t key)).
Proof using Type.
  apply runs_items_update. intros t Hg. destruct (GM_PopAll_spec t key Hg) as (t' & E & Hu). do 4 eexists. split; [exact E|].
  split; [exact Hu|]. intros H. left. by apply fmap_is_Some in H.
Qed.
Lemma runs_Remove key : runs (sized n) (items_update (fun t => GM_Remove t key)).
Proof using Type.
  apply runs_items_update. intros t Hg. destruct (GM_Remove_spec t key Hg) as (t' & E & Hu). do 4 eexists. split; [exact E|].
  split; [exact Hu|]. by intros [? ?].
Qed.
End returns.

Ltac rwalk := repeat match goal with
  | |- runs _ (mthen _ _) => apply runs_then; [|intros]
  | |- runs _ (ret _) => apply runs_ret
  | |- runs _ skip => apply runs_ret
  | |- runs _ (gets _) => apply runs_gets
  | |- runs _ (glook _) => apply runs_glook
  | |- runs _ (forM _ _) => apply runs_forM; intros
  | |- runs _ (foldM _ _ _) => apply runs_foldM; intros
  | |- runs _ (match ?x with _ => _ end) => destruct x eqn:?
  | |- runs _ (modify _) => apply runs_modify; done
  | |- runs _ (lift (RrdFileName _ (Md5 _) _ _)) => apply runs_filename
  | |- runs _ (items_update (fun t => GM_PopAll t _)) => apply runs_PopAll
  | |- runs _ (items_update (fun t => GM_Remove t _)) => apply runs_Remove
  | |- runs _ (count _ _) => unfold count
  | |- runs _ (set_count _ _) => unfold set_count
  end.

Section handlers_return.
Context (env : GEnv) (cfg : GConfig) (n : Z).

Lemma ReceiveItem_runs item x : runs (sized n) (ReceiveItem cfg item (Md5 x)).
Proof using Type.
  unfold ReceiveItem, IsRrdFileExist. rwalk. apply runs_lift. unfold IndexContainsKey, IndexGet in *.
  match goal with H : bool_decide _ = true |- _ => apply bool_decide_eq_true in H as [ic ->] end. by exists ic.
Qed.

Lemma handleItem_runs item : runs (sized n) (handleItem env cfg item).
Proof using Type.
  unfold handleItem, IsRrdFileExist, GraphItem_Checksum, Checksum. rwalk.
  - apply runs_items_read. intros t Hg _. rewrite GM_First_spec by done. eauto.
  - apply runs_items_update. intros t Hg.
    match goal with |- context [GM_PushFront ?m t ?k ?i] => destruct (GM_PushFront_spec m t k i Hg) as (t' & E & Hu) end.
    rewrite E. do 4 eexists. split; [reflexivity|]. split; [exact Hu|]. intros _. right. apply key_form_key.
  - apply ReceiveItem_runs.
Qed.

Lemma handleItems_runs items : runs (sized n) (handleItems env cfg items).
Proof using Type. unfold handleItems. rwalk. apply handleItem_runs. Qed.

Lemma Delete_runs params : runs (sized n) (Graph_Delete cfg params).
Proof using Type. unfold Graph_Delete, RemoveItem, GraphItem_Checksum, Checksum. rwalk. Qed.

Lemma CommitByKey_runs key : key_form key -> runs (sized n) (CommitByKey env cfg key).
Proof using Type.
  intros (x & rest & E)%split_key_form. unfold CommitByKey, SplitRrdCacheKey. rewrite E.
  unfold FlushFile, flushrrd, IsRrdFileExist. destruct rest as [|ds [|st [|? ?]]]; try apply runs_ret.
  destruct (parse_int st 32); rwalk.
Qed.

Lemma view_bucket t key b : gm_ok t -> forall i, gm_A t !! i = Some b -> is_Some (b !! key) -> is_Some (view t key).
Proof using Type.
  intros (H0 & Hl & Hb) i Hi Hs. unfold view. rewrite (Hb i b key Hi Hs), Nat2Z.id, Hi. done.
Qed.

(** The keys of a bucket are keys of series. *)
Lemma runs_keys {A} order idx (k : list string -> G A) :
  (forall l, order l ≡ₚ l) -> (0 <= idx < n)%Z ->
  (forall keys, (forall key, key ∈ keys -> key_form key) -> runs (sized n) (k keys)) ->
  runs (sized n) (do! keys := items_read (fun t => GM_KeysByIndex order t idx) in k keys).
Proof using Type.
  intros Ho Hi Hk. apply (runs_then_post _ (fun keys => forall key, key ∈ keys -> key_form key)); [|done].
  intros s (Hg & Hn & Hf). destruct (lookup_lt_is_Some_2 (gm_A (gs_items s)) (Z.to_nat idx)) as [b Hb];
    [destruct Hg as (? & ? & ?); lia|].
  unfold items_read, mthen, gets, lift, GM_KeysByIndex. rewrite <- (Z2Nat.id idx) by lia. rewrite (at_index_lookup _ _ _ Hb). cbn.
  destruct (size b =? 0)%nat; [exists [], s; split; [done|]; split; [done|]; intros ? H; by apply elem_of_nil in H|].
  exists (order (map_to_list b).*1), s. split; [done|]. split; [done|]. intros key Hkey. rewrite Ho in Hkey.
  apply list_elem_of_fmap in Hkey as ([k' v] & -> & Hkv%elem_of_map_to_list). apply Hf. eapply view_bucket; [done|exact Hb|by exists v].
Qed.

Lemma FlushRRD_runs idx force : (0 <= idx < n)%Z -> runs (sized n) (FlushRRD env cfg idx force).
Proof using Type.
  intros Hi. unfold FlushRRD. apply (runs_then_post _ (fun order => forall l, order l ≡ₚ l)).
  { intros s Hs. exists (g_keys env (gs_tick s)), (graph_tick s). split; [done|]. split; [done|]. apply g_keys_perm. }
  intros order Ho. apply runs_keys; [done..|]. intros keys Hkeys. destruct (_ =? _)%nat; [apply runs_ret|].
  apply runs_forM. intros key Hkey. apply runs_then.
  { apply runs_items_read. intros t Hg _. unfold GM_GetFlag. rewrite GM_Get_spec by done. cbn. eauto. }
  intros flag. destruct (_ && _); [apply runs_ret|]. apply runs_then; [|intros []; [by apply CommitByKey_runs, Hkeys|apply runs_ret]].
  destruct force; [apply runs_ret|]. unfold shouldFlush. apply runs_then.
  { apply runs_items_read. intros t Hg _. unfold GM_ItemCnt. rewrite GM_Get_spec by done. cbn. destruct (view t key); eauto. }
  intros m. destruct (_ <=? _)%Z; [apply runs_ret|]. apply runs_then; [apply runs_glook|]. intros nano.
  apply runs_then; [|intros; rwalk]. apply runs_items_read. intros t Hg _. unfold GM_Back. rewrite GM_Get_spec by done. cbn.
  destruct (view t key); eauto.
Qed.

Lemma runs_size {A} (k : Z -> G A) : runs (sized n) (k n) -> runs (sized n) (do! m := gets (fun s => gm_Size (gs_items s)) in k m).
Proof using Type.
  intros H. apply (runs_then_post _ (fun m => m = n)); [|by intros ? ->]. intros s Hs. exists n, s.
  destruct Hs as (? & Hn & ?). split; [|done]. unfold gets. by rewrite Hn.
Qed.

Lemma FlushAll_runs force : runs (sized n) (FlushAll env cfg force).
Proof using Type.
  unfold FlushAll. apply runs_size, runs_forM. intros i Hi%elem_of_seqZ. apply FlushRRD_runs. lia.
Qed.

Lemma updateIndexFromOneItem_runs item : runs (sized n) (updateIndexFromOneItem env item).
Proof using Type. unfold updateIndexFromOneItem, exec. rwalk. Qed.
Lemma updateIndexIncr_runs : runs (sized n) (updateIndexIncr env).
Proof using Type. unfold updateIndexIncr. rwalk; apply updateIndexFromOneItem_runs. Qed.
Lemma updateIndexAll_runs step : runs (sized n) (updateIndexAll env step).
Proof using Type. unfold updateIndexAll. rwalk; apply updateIndexFromOneItem_runs. Qed.

Lemma GM_Len_ret t : gm_ok t -> exists l, GM_Len t = Ret l.
Proof using Type.
  intros (H0 & Hl & _). unfold GM_Len.
  destruct (fold_res_total (fun l i => let! b := at_index (gm_A t) i in Ret (l + Z.of_nat (size b))%Z) (fun _ => True)
    (seqZ 0 (gm_Size t))) with (s := 0%Z) as (l & H & _); [|done|by exists l]. intros l i Hi%elem_of_seqZ _.
  destruct (lookup_lt_is_Some_2 (gm_A t) (Z.to_nat i)) as [b Hb]; [lia|]. rewrite <- (Z2Nat.id i) by lia.
  rewrite (at_index_lookup _ _ _ Hb). cbn. eauto.
Qed.

Lemma DeleteInvalidItems_runs : runs (sized n) (DeleteInvalidItems env).
Proof using Type.
  unfold DeleteInvalidItems. apply runs_size. apply runs_then; [|intros; rwalk; apply runs_items_read; intros; by apply GM_Len_ret].
  apply runs_foldM. intros d idx Hi%elem_of_seqZ. apply (runs_then_post _ (fun order => forall l, order l ≡ₚ l)).
  { intros s Hs. exists (g_keys env (gs_tick s)), (graph_tick s). split; [done|]. split; [done|]. apply g_keys_perm. }
  intros order Ho. apply runs_keys; [done|lia|]. intros keys _. rwalk. apply runs_lift.
  destruct (Nat.eqb_spec (length (split a "_")) 3) as [E|]; [|by eexists].
  destruct (split a "_") as [|x ?]; [done|]. cbn. by eexists.
Qed.

Lemma DeleteInvalidHistory_runs : runs (sized n) (DeleteInvalidHistory env).
Proof using Type. unfold DeleteInvalidHistory. rwalk. Qed.
End handlers_return.

Lemma graph_init_sized disk : sized 1800 (graph_init disk).
Proof. split; [apply init_gm_ok|]. split; [done|]. intros key. cbn. rewrite init_view. by intros [? ?]. Qed.

(** Every operation but the query. *)
Definition is_update (op : graph_op) : Prop := match op with OpQuery _ _ => False | _ => True end.

Lemma run_op_runs env cfg n op : is_update op -> runs (sized n) (run_op env cfg op).
Proof.
  destruct op; cbn [run_op is_update]; intros Hop; try (apply runs_then; [|intros; apply runs_ret]).
  - apply handleItems_runs.
  - done.
  - apply Delete_runs.
  - apply FlushAll_runs.
  - apply updateIndexIncr_runs.
  - apply updateIndexAll_runs.
  - apply DeleteInvalidItems_runs.
  - apply DeleteInvalidHistory_runs.
Qed.

(** * Properties *)

(** C3: In every run of the graph, from any files on disk, each series is in the
    bucket of its key, its waiting points are in strictly increasing order of
    time, and its history is at most three points, the newest first. *)
Theorem graph_points_ordered (env : GEnv) (cfg : GConfig) (ops : list graph_op) disk s :
  graph_run env cfg ops (graph_init disk) = Ret (tt, s) ->
  gm_ok (gs_items s) /\ (forall key, ascending (waiting s key)) /\ history_fine (gs_history s).
Proof.
  intros H. assert (graph_ok s) as (Hg & Hv & Hh).
  { eapply (keeps_forM graph_ok ops (run_op env cfg)); [intros; apply run_op_keeps|apply (graph_init_ok disk)|exact H]. }
  split; [done|]. split; [|done]. intros key. unfold waiting. destruct (view (gs_items s) key) as [sl|] eqn:E; [|constructor].
  specialize (Hv key sl E). apply StronglySorted_rev in Hv. exact Hv.
Qed.

(** Reports, deletions, flushes, index updates and cleanings always return:
    whatever they are given, and whatever MySQL, rrdlite and the clock answer,
    no run of them panics, and the run goes on for as many as there are. *)
Theorem graph_updates_return (env : GEnv) (cfg : GConfig) (ops : list graph_op) disk :
  Forall is_update ops -> exists s, graph_run env cfg ops (graph_init disk) = Ret (tt, s).
Proof.
  intros H. destruct (runs_forM (sized 1800) ops (run_op env cfg)) with (s := graph_init disk) as ([] & s & E & _).
  - intros op Hop. apply run_op_runs. rewrite Forall_forall in H. by apply H.
  - apply graph_init_sized.
  - by exists s.
Qed.

(** ** Reports *)

(** The key of the series of an item. *)
Definition series_key (item : GraphItem) : string :=
  FormRrdCacheKey (GraphItem_Checksum item) (gi_DsType item) (gi_Step item).
(** Whether a report is kept: its names are printable and it is newer than what waits. *)
Definition accepted (env : GEnv) (s : GraphState) (item : GraphItem) : bool :=
  IsValidString (g_print env) (gi_Endpoint item) &&
  IsValidString (g_print env) (Counter (gi_Metric item) (gi_Tags item)) &&
  match last (waiting s (series_key item)) with Some p => (gi_Timestamp p <? gi_Timestamp item)%Z | None => true end.

Lemma last_rev {A} (l : list A) : last (rev l) = head l.
Proof. destruct l as [|x l]; [done|]. cbn. by rewrite last_snoc. Qed.

Lemma waiting_same s s' : same_points s s' -> forall k, waiting s' k = waiting s k.
Proof. intros [H _] k. unfold waiting. by rewrite H. Qed.

(** Handlers that leave the files alone. *)
Definition same_disk (s s' : GraphState) : Prop := gs_disk s = gs_disk s'.
#[export] Instance same_disk_pre : PreOrder same_disk.
Proof. split; [done|]. intros ? ? ?. unfold same_disk. congruence. Qed.
Lemma ReceiveItem_disk cfg item md5 : moves same_disk (ReceiveItem cfg item md5).
Proof. unfold ReceiveItem, IsRrdFileExist. gwalk. Qed.

(** A report appends its point to the waiting points of its series when the
    names are printable and the point is newer than the last one waiting, and
    drops it otherwise; no other series and no file is touched. *)
Theorem report_kept_or_dropped (env : GEnv) (cfg : GConfig) (s : GraphState) (item : GraphItem) :
  graph_ok s -> (exists n, sized n s) ->
  exists s', handleItem env cfg (Some item) s = Ret (tt, s') /\ gs_disk s' = gs_disk s /\
    forall k, waiting s' k =
      (waiting s k ++ (if decide (k = series_key item) then if accepted env s item then [item] else [] else []))%list.
Proof.
  intros Hs [n Hn]. destruct (handleItem_runs env cfg n (Some item) s Hn) as ([] & s' & E & _). exists s'. split; [done|].
  revert E. unfold handleItem, accepted. fold (series_key item). intros H.
  destruct (IsValidString (g_print env) (gi_Endpoint item)); cbn [negb andb] in *; cycle 1.
  { injection H as <-. split; [done|]. intros k. by destruct (decide _); rewrite app_nil_r. }
  destruct (IsValidString (g_print env) (Counter (gi_Metric item) (gi_Tags item))); cbn [negb andb] in *; cycle 1.
  { injection H as <-. split; [done|]. intros k. by destruct (decide _); rewrite app_nil_r. }
  destruct Hs as (Hg & _ & _). step_inv H. injection E as <- <-. step_inv H. apply items_read_inv in E as [E ->].
  cbn [gs_items set_cnt] in E. fold (series_key item) in *. rewrite GM_First_spec in E by done. injection E as <-.
  assert (match last (waiting s (series_key item)) with Some p => (gi_Timestamp p <? gi_Timestamp item)%Z | None => true end =
    negb (match (sl ← view (gs_items s) (series_key item); SL_Front sl) with Some f => (gi_Timestamp item <=? gi_Timestamp f)%Z | None => false end)) as ->.
  { unfold waiting. destruct (view (gs_items s) (series_key item)) as [sl|]; cbn; [|done]. rewrite last_rev. unfold SL_Front.
    destruct (head (sl_L sl)); [|done]. by rewrite Z.leb_antisym, negb_involutive. }
  destruct (match mbind _ _ with Some f => _ | None => false end); cbn [negb] in *.
  { injection H as <-. split; [done|]. intros k. by destruct (decide _); rewrite app_nil_r. }
  step_inv H. apply lift_inv in E as [_ ->]. step_inv H. injection E as <- <-. step_inv H.
  apply items_update_inv in E as (t & E & ->).
  match type of E with context [GM_PushFront ?miss _ _ _] =>
    destruct (GM_PushFront_spec miss (gs_items s) (series_key item) item Hg) as (t1 & E1 & Hg1 & _ & Hv1) end.
  cbn [gs_items set_cnt] in E. rewrite E1 in E. injection E as _ <-. step_inv H.
  pose proof (ReceiveItem_same cfg item (GraphItem_Checksum item) _ _ _ E) as [Hsame _].
  injection H as <-. assert (gs_disk s0 = gs_disk s) as Hdisk.
  { symmetry. apply (ReceiveItem_disk cfg item (GraphItem_Checksum item) _ _ _ E). }
  split; [done|]. intros k. unfold waiting at 1. cbn [gs_items set_history]. rewrite <- Hsame. cbn [gs_items set_items]. rewrite Hv1.
  unfold waiting. destruct (decide (k = series_key item)) as [->|]; [|by rewrite app_nil_r].
  by destruct (view (gs_items s) (series_key item)) as [sl|].
Qed.

(** ** Flushing *)

(** The name of a series splits back into the digest, the type and the step,
    for steps of 32 bits and types without an underscore. *)
Theorem cache_key_roundtrip (x dsType : string) (step : Z) :
  has "_" dsType = false -> (- 2 ^ 31 <= step < 2 ^ 31)%Z ->
  SplitRrdCacheKey (FormRrdCacheKey (Md5 x) dsType step) = (Md5 x, dsType, step, false) /\ key_form (FormRrdCacheKey (Md5 x) dsType step).
Proof.
  intros Hd Hs. split; [|apply key_form_key]. unfold SplitRrdCacheKey, FormRrdCacheKey.
  rewrite split_three; [|apply md5_no_underscore|done|by apply itoa_has]. by rewrite (parse_int_itoa 32) by done.
Qed.

(** What a flush of one series reads and writes. *)
Lemma CommitByKey_split env cfg x dsType step s :
  gm_ok (gs_items s) -> has "_" dsType = false -> (- 2 ^ 31 <= step < 2 ^ 31)%Z ->
  let key := FormRrdCacheKey (Md5 x) dsType step in
  exists filename s1, RrdFileName (gc_Storage cfg) (Md5 x) dsType step = Ret filename /\
    gs_disk s1 = gs_disk s /\ gs_tick s1 = gs_tick s /\ (forall k, waiting s1 k = if decide (k = key) then [] else waiting s k) /\
    CommitByKey env cfg key s =
      (if (length (waiting s key) =? 0)%nat then skip
       else do! _ := FlushFile env filename (Md5 x) (waiting s key) in skip) s1.
Proof.
  intros Hg Hd Hs key. destruct (RrdFileName_md5 (gc_Storage cfg) x dsType step) as [filename Hf].
  destruct (GM_PopAll_spec (gs_items s) key Hg) as (t & E & Hg' & _ & Hv).
  exists filename, (set_items t s). split_and!; [done|done|done| |].
  - intros k. unfold waiting. cbn. rewrite Hv. destruct (decide (k = key)) as [->|]; [|done]. by destruct (view (gs_items s) key).
  - unfold CommitByKey. assert (SplitRrdCacheKey key = (Md5 x, dsType, step, false)) as ->.
    { unfold SplitRrdCacheKey, key, FormRrdCacheKey. rewrite split_three; [|apply md5_no_underscore|done|by apply itoa_has].
      by rewrite (parse_int_itoa 32) by done. }
    unfold mthen at 1. unfold lift. rewrite Hf. unfold mthen at 1. unfold items_update, mthen, gets, lift, modify, ret.
    rewrite E. done.
Qed.

(** A flush of a series hands every waiting point, the oldest first, to its
    file when rrdlite creates and updates it, leaving out only the values it
    cannot hold; the series then waits for nothing and no other series or file
    is touched. *)
Theorem flush_hands_over (env : GEnv) (cfg : GConfig) (s : GraphState) (x dsType : string) (step : Z) :
  gm_ok (gs_items s) -> has "_" dsType = false -> (- 2 ^ 31 <= step < 2 ^ 31)%Z ->
  (forall n, g_create env n = true) -> (forall n, g_update env n = true) ->
  let key := FormRrdCacheKey (Md5 x) dsType step in
  exists filename s', RrdFileName (gc_Storage cfg) (Md5 x) dsType step = Ret filename /\
    CommitByKey env cfg key s = Ret (tt, s') /\
    (forall k, waiting s' k = if decide (k = key) then [] else waiting s k) /\
    forall f, gs_disk s' !! f =
      if decide (f = filename /\ waiting s key <> [])
      then Some (default [] (gs_disk s !! f) ++ update_points (waiting s key))%list else gs_disk s !! f.
Proof.
  intros Hg Hd Hs Hc Hu key. destruct (CommitByKey_split env cfg x dsType step s Hg Hd Hs) as (filename & s1 & Hf & Hdisk & Ht & Hw & E).
  exists filename. fold key in Hw, E. rewrite E. clear E. destruct (waiting s key) as [|it its] eqn:Ew.
  { exists s1. split; [done|]. split; [done|]. split; [done|]. intros f. rewrite decide_False by tauto. by rewrite Hdisk. }
  cbn [length Nat.eqb]. unfold FlushFile, flushrrd, IsRrdFileExist, count.
  unfold mthen, modify, gets, skip, ret, glook. cbn [gs_disk set_cnt gs_tick].
  destruct (bool_decide (is_Some (gs_disk s1 !! filename))) eqn:Eex; cbn [negb]; rewrite ?Hc, ?Hu; cbn [negb]; rewrite ?Hu;
    eexists; (split; [done|]); (split; [reflexivity|]); (split; [exact Hw|]); intros f; cbn [gs_disk set_disk set_cnt graph_tick];
    rewrite !Hdisk; destruct (decide (f = filename)) as [->|Hne];
    [rewrite decide_True by done|rewrite decide_False by tauto|rewrite decide_True by done|rewrite decide_False by tauto];
    rewrite ?lookup_insert_eq, ?lookup_insert_ne by done; try done.
  cbn. apply bool_decide_eq_false in Eex. rewrite Hdisk in Eex. destruct (gs_disk s !! filename); [by destruct Eex|done].
Qed.

(** The points of a series are gone once a flush has taken them, whether or
    not rrdlite stores them: when it refuses the update they are neither waiting
    any more nor in any file. *)
Theorem failed_flush_loses_points (env : GEnv) (cfg : GConfig) (s : GraphState) (x dsType : string) (step : Z) :
  gm_ok (gs_items s) -> has "_" dsType = false -> (- 2 ^ 31 <= step < 2 ^ 31)%Z ->
  (forall n, g_update env n = false) ->
  let key := FormRrdCacheKey (Md5 x) dsType step in
  exists s', CommitByKey env cfg key s = Ret (tt, s') /\ waiting s' key = [] /\
    forall f, default [] (gs_disk s' !! f) = default [] (gs_disk s !! f).
Proof.
  intros Hg Hd Hs Hu key. destruct (CommitByKey_split env cfg x dsType step s Hg Hd Hs) as (filename & s1 & Hf & Hdisk & Ht & Hw & E).
  fold key in Hw, E. rewrite E. clear E. assert (waiting s1 key = []) as Hw1 by (rewrite Hw; by rewrite decide_True).
  destruct (length (waiting s key) =? 0)%nat eqn:El; [exists s1; split; [done|]; split; [done|]; intros f; by rewrite Hdisk|].
  destruct (waiting s key) as [|it its]; [done|]. unfold FlushFile, flushrrd, IsRrdFileExist, count.
  unfold mthen, modify, gets, skip, ret, glook. cbn [gs_disk set_cnt gs_tick].
  destruct (bool_decide (is_Some (gs_disk s1 !! filename))) eqn:Eex; cbn [negb]; rewrite ?Hu;
    [eexists; split; [reflexivity|]; split; [done|]; intros f; cbn; by rewrite Hdisk|].
  destruct (g_create env _); cbn [negb]; rewrite ?Hu; eexists; (split; [reflexivity|]); (split; [done|]);
    intros f; cbn; rewrite Hdisk; [|done].
  apply bool_decide_eq_false in Eex. rewrite Hdisk in Eex. destruct (decide (f = filename)) as [->|];
    [rewrite lookup_insert_eq; destruct (gs_disk s !! filename); [by destruct Eex|done]|by rewrite lookup_insert_ne].
Qed.

(** ** Migration *)

(** A hand-over of the waiting points of a series to another graph either
    succeeds, and the series waits for nothing, or reports its failure, and the
    points wait as before; no other series is touched. *)
Theorem migration_keeps_points (env : GEnv) (key : string) (s : GraphState) :
  gm_ok (gs_items s) ->
  exists err s', send_data env key s = Ret (err, s') /\ gm_ok (gs_items s') /\
    forall k, waiting s' k = if decide (k = key /\ err = false) then [] else waiting s k.
Proof.
  intros Hg. assert (exists err s', send_data env key s = Ret (err, s')) as (err & s' & E).
  { unfold send_data, items_read, items_update, mthen, gets, lift, modify, ret, glook, GM_GetFlag.
    rewrite GM_Get_spec by done. cbn. destruct (view (gs_items s) key) as [sl|] eqn:Ev; cbn; [|by do 2 eexists].
    destruct (GM_SetFlag_spec (gs_items s) key (Z.lor (sl_Flag sl) GRAPH_F_SENDING) Hg) as (t1 & -> & Hg1 & _ & _). cbn.
    destruct (GM_PopAll_spec t1 key Hg1) as (t2 & -> & Hg2 & _ & _). cbn.
    set (items := match view t1 key with Some sl => rev (sl_L sl) | None => [] end).
    assert (forall t, gm_ok t -> exists b t', GM_SetFlag t key (Z.land (sl_Flag sl) (Z.lnot GRAPH_F_SENDING)) = Ret (b, t')) as Hset.
    { intros t Ht. destruct (GM_SetFlag_spec t key (Z.land (sl_Flag sl) (Z.lnot GRAPH_F_SENDING)) Ht) as (t' & -> & _). by do 2 eexists. }
    destruct (Hset t2 Hg2) as (b2 & t2' & E2). destruct (GM_PushAll_spec t2 key items Hg2) as (t3 & E3 & Hg3 & _).
    destruct (Hset t3 Hg3) as (b3 & t3' & E3').
    destruct (length items =? 0)%nat; cbn; rewrite ?E2; [by do 2 eexists|].
    do 3 (destruct (g_send env _); cbn; rewrite ?E2; [by do 2 eexists|]). rewrite E3. cbn. rewrite E3'. by do 2 eexists. }
  exists err, s'. split; [done|]. destruct (send_data_steps env key s err s' Hg E) as (Hg' & _ & Hv). split; [done|].
  intros k. specialize (Hv k). unfold waiting. destruct (decide (k = key)) as [->|Hk].
  - destruct err; [rewrite decide_False by (by intros [_ ?])|rewrite decide_True by done];
      destruct (view (gs_items s) key), (view (gs_items s') key); cbn in Hv; try done; by injection Hv as ->.
  - rewrite decide_False by tauto. destruct (view (gs_items s) k), (view (gs_items s') k); cbn in Hv; try done; by injection Hv as ->.
Qed.

(** ** Deletion *)

(** The series a deletion names. *)
Definition deleted_item (p : GraphDeleteParam) (tags : tagmap) : GraphItem :=
  mkGraphItem (dp_Endpoint p) (dp_Metric p) tags fzero 0 (dp_DsType p) (dp_Step p) 0 "" "".

(** A deletion with readable tags takes the series out of both indexes, drops
    its waiting points and its file, and touches nothing else: the last points it
    answers from and the rows in MySQL stay. *)
Theorem delete_forgets (cfg : GConfig) (p : GraphDeleteParam) (tags : tagmap) (s : GraphState) :
  gm_ok (gs_items s) -> SplitTagsString (dp_Tags p) = (None, tags) ->
  let item := deleted_item p tags in let md5 := GraphItem_Checksum item in
  exists filename s', RrdFileName (gc_Storage cfg) md5 (dp_DsType p) (dp_Step p) = Ret filename /\
    Graph_Delete cfg [p] s = Ret (tt, s') /\
    gs_indexed s' = delete md5 (gs_indexed s) /\ gs_unindexed s' = delete md5 (gs_unindexed s) /\
    gs_disk s' = delete filename (gs_disk s) /\
    (forall k, waiting s' k = if decide (k = series_key item) then [] else waiting s k) /\
    gs_history s' = gs_history s /\ gs_sql s' = gs_sql s.
Proof.
  intros Hg Ht item md5. destruct (RrdFileName_md5 (gc_Storage cfg) (PK (dp_Endpoint p) (dp_Metric p) tags) (dp_DsType p) (dp_Step p)) as [filename Hf].
  destruct (GM_PopAll_spec (gs_items s) (series_key item) Hg) as (t & E & Hg' & _ & Hv).
  exists filename. eexists. split; [exact Hf|]. split.
  { unfold Graph_Delete. cbn [forM]. rewrite Ht. fold (deleted_item p tags) item. unfold RemoveItem, items_update, mthen, modify, gets, lift, ret, skip.
    cbn [gs_items set_indexed set_unindexed]. fold (series_key item). rewrite E. change (GraphItem_Checksum item) with (Md5 (PK (dp_Endpoint p) (dp_Metric p) tags)).
    cbn [gi_DsType gi_Step item deleted_item]. rewrite Hf. reflexivity. }
  cbn. split_and!; try done. intros k. unfold waiting. cbn. rewrite Hv.
  destruct (decide (k = series_key item)) as [->|]; [|done]. by destruct (view (gs_items s) (series_key item)).
Qed.

(** ** Index *)

(** MySQL refuses every row. *)
Definition refuses_rows (env : GEnv) : Prop := forall n st, g_exec env n st = false.

(** An index update of an item reports no error, and the item then counts as
    indexed, although MySQL refused every row: only the look-up of the endpoint is
    checked. *)
Theorem refused_rows_unnoticed (env : GEnv) (item : GraphItem) (s : GraphState) (id : Z) :
  refuses_rows env -> (0 < id)%Z -> (forall n, g_endpoint_id env n (gi_Endpoint item) = Row id) ->
  exists s' l, updateIndexFromOneItem env item s = Ret (false, s') /\ gs_sql s' = (gs_sql s ++ l)%list /\
    Forall (fun e => e.2 = false) l /\ (InsertEndpoint (gi_Endpoint item) (gi_Timestamp item), false) ∈ l.
Proof.
  intros Hex Hid Hrow. unfold refuses_rows in Hex.
  set (I := fun s' => exists l, gs_sql s' = (gs_sql s ++ (InsertEndpoint (gi_Endpoint item) (gi_Timestamp item), false) :: l)%list /\
    Forall (fun e : stmt * bool => e.2 = false) l).
  assert (forall st, runs I (exec env st)) as Hrun.
  { intros st s1 (l & E & Hl). do 2 eexists. unfold exec, mthen, glook, modify, ret. split; [reflexivity|].
    exists (l ++ [(st, false)])%list. cbn. rewrite Hex, E, <- app_assoc. split; [done|]. apply Forall_app. split; [done|by repeat constructor]. }
  assert (forall (m : G bool), runs I m -> (forall s1 a s2, m s1 = Ret (a, s2) -> a = false) ->
    forall s1, I s1 -> exists s' l, m s1 = Ret (false, s') /\ gs_sql s' = (gs_sql s ++ l)%list /\
    Forall (fun e => e.2 = false) l /\ (InsertEndpoint (gi_Endpoint item) (gi_Timestamp item), false) ∈ l) as Hfin.
  { intros m Hm Ha s1 H1. destruct (Hm s1 H1) as (a & s2 & E & l & El & Hl). exists s2. eexists. rewrite (Ha _ _ _ E) in E. split; [done|].
    split; [exact El|]. split; [by constructor|by left]. }
  unfold updateIndexFromOneItem. unfold mthen at 1. unfold exec at 1. unfold mthen at 1 2, glook at 1, modify at 1, ret at 1.
  rewrite Hex. apply Hfin; clear Hfin.
  - assert (forall k, runs I (count k 1)) as Hc by (intros k; apply runs_modify; done).
    assert (forall A (f : nat -> A), runs I (glook f)) as Hg by (intros A f s1 H1; by exists (f (gs_tick s1)), (graph_tick s1)).
    assert (forall (b : bool) st, runs I (if b then skip else do! _ := exec env st in skip)) as Hif.
    { intros [] st; [apply runs_ret|]. apply runs_then; [apply Hrun|intros; apply runs_ret]. }
    apply runs_then; [apply runs_then; [apply Hrun|intros; apply runs_ret]|intros _].
    apply runs_then; [apply Hc|intros _]. apply runs_then; [apply Hg|]. intros r.
    destruct (r (gi_Endpoint item)); [|apply runs_ret..]. destruct (_ <=? 0)%Z; [apply runs_ret|].
    apply runs_then; [apply Hg|]. intros order. apply runs_then.
    { apply runs_forM. intros tag _. apply runs_then; [apply Hrun|]. intros b. apply runs_then; [apply Hif|]. intros _. apply Hc. }
    intros _. apply runs_then; [apply Hrun|]. intros b. apply runs_then; [apply Hif|]. intros _. apply runs_then; [apply Hc|]. intros; apply runs_ret.
  - intros s1 a s2 H. do 3 step_inv H. injection E1 as <- <-. rewrite Hrow in H. destruct (Z.leb_spec id 0); [lia|].
    do 5 step_inv H. by injection H as <- <-.
  - exists []. split; [done|constructor].
Qed.

(** ** Cleaning *)

(** The digest in the name of a series is no longer indexed. *)
Definition stale (s : GraphState) (key : string) : bool :=
  match split key "_" with [md5; _; _] => negb (IndexContainsKey md5 (gs_indexed s)) | _ => false end.

Section clean.
Context (s : GraphState).

(** The cleaning has gone through the buckets before [i]. *)
Definition cleaned_to (i : Z) (s' : GraphState) : Prop :=
  gm_ok (gs_items s') /\ gm_Size (gs_items s') = gm_Size (gs_items s) /\ gs_indexed s' = gs_indexed s /\
  (forall k, stale s k = false -> view (gs_items s') k = view (gs_items s) k) /\
  (forall k, stale s k = true -> (hashKey k mod gm_Size (gs_items s) < i)%Z -> view (gs_items s') k = None).

Lemma clean_bucket i keys d s' :
  cleaned_to i s' ->
  (forall k, stale s k = true -> (hashKey k mod gm_Size (gs_items s) = i)%Z -> is_Some (view (gs_items s') k) -> k ∈ keys) ->
  exists d' s'', foldM (fun deleteCnt key =>
      let tmp := split key "_" in
      do! indexed := gets gs_indexed in
      do! bad := lift (if (length tmp =? 3)%nat
                       then let! md5 := at_index tmp 0 in Ret (negb (IndexContainsKey md5 indexed))
                       else Ret false) in
      if bad : bool then
        do! _ := items_update (fun t => GM_Remove t key) in
        ret (deleteCnt + 1)%Z
      else ret deleteCnt) d keys s' = Ret (d', s'') /\ cleaned_to (i + 1) s''.
Proof using Type.
  revert d s'; induction keys as [|key keys IH]; intros d s' Hc Hk; cbn [foldM].
  - exists d, s'. split; [done|]. destruct Hc as (Hg & Hn & Hi & H1 & H2). split_and!; try done.
    intros k Hs Hlt. destruct (decide (hashKey k mod gm_Size (gs_items s) = i)%Z) as [He|]; [|apply H2; [done|lia]].
    destruct (view (gs_items s') k) eqn:E; [|done]. specialize (Hk k Hs He). rewrite E in Hk. by apply elem_of_nil in Hk.
  - assert (forall idx, lift (S := GraphState) (if (length (split key "_") =? 3)%nat then
        let! md5 := at_index (split key "_") 0 in Ret (negb (IndexContainsKey md5 idx)) else Ret false) s' =
      Ret (match split key "_" with [md5; _; _] => negb (IndexContainsKey md5 idx) | _ => false end, s')) as Hlift.
    { intros idx. by destruct (split key "_") as [|? [|? [|? [|? ?]]]]. }
    unfold mthen at 1 2, gets at 1. unfold mthen at 1. rewrite Hlift. destruct Hc as (Hg & Hn & Hi & H1 & H2). rewrite Hi. fold (stale s key).
    destruct (stale s key) eqn:Est.
    + destruct (GM_Remove_spec (gs_items s') key Hg) as (t & E & Hg' & Hn' & Hv).
      unfold mthen at 1, items_update at 1, mthen at 1 2, gets at 1, lift at 1. rewrite E. unfold modify, mthen at 1, ret.
      apply IH.
      * split; [done|]. split; [cbn; congruence|]. split; [done|]. split.
        -- intros k Hs. cbn. rewrite Hv. destruct (decide (k = key)); [congruence|by apply H1].
        -- intros k Hs Hlt. cbn. rewrite Hv. destruct (decide (k = key)); [done|by apply H2].
      * intros k Hs He. cbn. rewrite Hv. destruct (decide (k = key)); [by intros [? ?]|]. intros Hsome.
        specialize (Hk k Hs He Hsome). by apply elem_of_cons in Hk as [->|].
    + unfold ret. apply IH; [done|]. intros k Hs He Hsome. specialize (Hk k Hs He Hsome). apply elem_of_cons in Hk as [->|]; [congruence|done].
Qed.
End clean.

(** A cleaning of the waiting points removes exactly the series whose digest
    is no longer indexed, waiting points and all, and keeps the others as they are. *)
Theorem clean_removes_unindexed (env : GEnv) (s : GraphState) :
  gm_ok (gs_items s) ->
  exists cnt s', DeleteInvalidItems env s = Ret (cnt, s') /\ gs_indexed s' = gs_indexed s /\
    forall key, view (gs_items s') key = if stale s key then None else view (gs_items s) key.
Proof.
  intros Hg. pose proof Hg as (Hpos & Hlen & _). unfold DeleteInvalidItems. unfold mthen at 1, gets at 1. set (n := gm_Size (gs_items s)) in *.
  assert (forall m i d s', (0 <= i)%Z -> (i + Z.of_nat m = n)%Z -> cleaned_to s i s' ->
    exists d' s'', foldM (fun deleteCnt idx =>
      do! order := glook (g_keys env) in
      do! keys := items_read (fun t => GM_KeysByIndex order t idx) in
      foldM (fun deleteCnt key =>
        let tmp := split key "_" in
        do! indexed := gets gs_indexed in
        do! bad := lift (if (length tmp =? 3)%nat
                         then let! md5 := at_index tmp 0 in Ret (negb (IndexContainsKey md5 indexed))
                         else Ret false) in
        if bad : bool then
          do! _ := items_update (fun t => GM_Remove t key) in
          ret (deleteCnt + 1)%Z
        else ret deleteCnt) deleteCnt keys) d (seqZ i (Z.of_nat m)) s' = Ret (d', s'') /\ cleaned_to s n s'') as Hloop.
  { induction m as [|m IH]; intros i d s' Hi Hm Hc; [exists d, s'; split; [done|]; by replace n with i by lia|].
    rewrite seqZ_cons by lia. replace (Z.pred (Z.of_nat (S m))) with (Z.of_nat m) by lia. cbn [foldM].
    pose proof Hc as (Hg' & Hn' & _). pose proof Hg' as (_ & Hl' & Hb').
    destruct (lookup_lt_is_Some_2 (gm_A (gs_items s')) (Z.to_nat i)) as [b Hb]; [lia|].
    set (keys := if (size b =? 0)%nat then [] else g_keys env (gs_tick s') (map_to_list b).*1).
    assert (items_read (fun t => GM_KeysByIndex (g_keys env (gs_tick s')) t i) (graph_tick s') = Ret (keys, graph_tick s')) as Hread.
    { unfold items_read, mthen, gets, lift, GM_KeysByIndex. cbn [gs_items graph_tick].
      assert (at_index (gm_A (gs_items s')) i = Ret b) as -> by (rewrite <- (Z2Nat.id i) by lia; by apply at_index_lookup).
      cbn [rbind]. unfold keys. by destruct (size b =? 0)%nat. }
    unfold mthen at 1. rewrite (mthen_run _ _ s' _ _ eq_refl). rewrite (mthen_run _ _ _ _ _ Hread).
    destruct (clean_bucket s i keys d (graph_tick s')) as (d' & s'' & E1 & Hc'); [exact Hc| |cbn zeta in E1; rewrite E1; apply IH; [lia..|done]].
    intros k Hs He. cbn [gs_items graph_tick]. fold n in He. unfold view. rewrite Hn'. fold n. rewrite He, Hb. cbn. intros [v Hv].
    unfold keys. assert (b <> ∅) as Hne by (intros ->; done). destruct (Nat.eqb_spec (size b) 0) as [H0|]; [by apply map_size_empty_inv in H0|].
    rewrite g_keys_perm. apply list_elem_of_fmap. exists (k, v). split; [done|]. by apply elem_of_map_to_list. }
  destruct (Hloop (Z.to_nat n) 0%Z 0%Z s) as (cnt & s' & E & Hc); [lia..| |].
  { split_and!; try done. intros k _ Hlt. pose proof (Z.mod_pos_bound (hashKey k) n). fold n in Hlt. lia. }
  rewrite Z2Nat.id in E by lia. rewrite (mthen_run _ _ _ _ _ E). destruct Hc as (Hg' & Hn' & Hi & H1 & H2).
  destruct (GM_Len_ret (gs_items s') Hg') as [len Elen].
  exists cnt. eexists. unfold items_read, mthen, gets, lift, set_count, modify, ret. rewrite Elen. split; [reflexivity|]. split; [exact Hi|].
  intros key. cbn. destruct (stale s key) eqn:Es; [|by apply H1]. apply H2; [done|]. fold n. apply Z.mod_pos_bound. lia.
Qed.

(** * Witnesses *)

(** A graph whose disk works as [ok] says, before an SQL server that refuses rows. *)
Definition demo_env (ok : bool) : GEnv :=
  mkGEnv (fun _ => 10 ^ 18)%Z (fun _ => true) (fun _ _ _ _ _ _ => None) (fun _ => ok) (fun _ => ok) (fun _ => true)
    (fun _ => None) (fun _ => WriteDone) (fun _ => true) (fun _ _ => false) (fun _ _ => Row 7%Z) (fun _ _ _ => NoRows) (fun _ => []) (fun _ => false) (fun _ l => l) (fun _ l => Permutation_refl l).
Definition demo_cfg : GConfig := mkGConfig "/data" false.
Definition demo_point (ts : Z) : GraphItem := mkGraphItem "h" "cpu" ∅ (f64_of_Z 3) ts GAUGE 60 120 "U" "U".
Definition demo_ops : list graph_op := [OpSend [Some (demo_point 60); None; Some (demo_point 120)]; OpIndexIncr; OpCleanItems].

Lemma demo_runs : is_ret (graph_run (demo_env true) demo_cfg demo_ops (graph_init ∅)) = true.
Proof. vm_cast_no_check (eq_refl true). Qed.

Lemma graph_points_ordered_witness :
  exists s, graph_run (demo_env true) demo_cfg demo_ops (graph_init ∅) = Ret (tt, s) /\ forall key, ascending (waiting s key).
Proof.
  destruct (is_ret_run _ _ demo_runs) as [s E]. exists s. split; [exact E|].
  apply (graph_points_ordered (demo_env true) demo_cfg demo_ops ∅ s E).
Defined.

Lemma graph_updates_return_witness :
  Forall is_update demo_ops /\ exists s, graph_run (demo_env true) demo_cfg demo_ops (graph_init ∅) = Ret (tt, s).
Proof. split; [by repeat constructor|]. apply (graph_updates_return (demo_env true) demo_cfg demo_ops ∅). by repeat constructor. Defined.

(** The graph after one report. *)
Definition demo_state : GraphState :=
  match handleItem (demo_env true) demo_cfg (Some (demo_point 60)) (graph_init ∅) with Ret (_, s) => s | Panic _ => graph_init ∅ end.
Definition demo_key : string := FormRrdCacheKey (Md5 (PK "h" "cpu" ∅)) GAUGE 60.

Lemma demo_state_ok : graph_ok demo_state /\ sized 1800 demo_state.
Proof.
  unfold demo_state. destruct (handleItem_runs (demo_env true) demo_cfg 1800 (Some (demo_point 60)) (graph_init ∅) (graph_init_sized ∅)) as ([] & s & E & Hs).
  rewrite E. split; [|done]. eapply handleItem_keeps; [apply (graph_init_ok ∅)|exact E].
Qed.
Lemma demo_waiting : waiting demo_state demo_key = [demo_point 60].
Proof. vm_cast_no_check (eq_refl [demo_point 60]). Qed.
Lemma demo_accepts : accepted (demo_env true) demo_state (demo_point 120) = true /\ accepted (demo_env true) demo_state (demo_point 60) = false.
Proof. vm_cast_no_check (conj (eq_refl true) (eq_refl false)). Qed.

Lemma report_kept_or_dropped_witness :
  exists s', handleItem (demo_env true) demo_cfg (Some (demo_point 120)) demo_state = Ret (tt, s') /\
    waiting s' demo_key = [demo_point 60; demo_point 120].
Proof.
  destruct (report_kept_or_dropped (demo_env true) demo_cfg demo_state (demo_point 120)) as (s' & E & _ & Hw);
    [apply demo_state_ok|exists 1800%Z; apply demo_state_ok|]. exists s'. split; [exact E|].
  rewrite Hw, demo_waiting, decide_True by done. by rewrite (proj1 demo_accepts).
Defined.

Lemma cache_key_roundtrip_witness :
  SplitRrdCacheKey (FormRrdCacheKey (Md5 "h/cpu") GAUGE 60) = (Md5 "h/cpu", GAUGE, 60%Z, false).
Proof. apply (cache_key_roundtrip "h/cpu" GAUGE 60); [reflexivity|lia]. Defined.

Lemma flush_hands_over_witness :
  exists filename s', CommitByKey (demo_env true) demo_cfg demo_key demo_state = Ret (tt, s') /\
    waiting s' demo_key = [] /\ gs_disk s' !! filename = Some (default [] (gs_disk demo_state !! filename) ++ update_points [demo_point 60])%list.
Proof.
  destruct (flush_hands_over (demo_env true) demo_cfg demo_state (PK "h" "cpu" ∅) GAUGE 60) as (filename & s' & _ & E & Hw & Hd);
    [apply demo_state_ok|reflexivity|lia|reflexivity|reflexivity|]. fold demo_key in E, Hw, Hd. rewrite demo_waiting in Hd.
  exists filename, s'. split; [exact E|]. split; [rewrite Hw, decide_True; reflexivity|].
  rewrite Hd, decide_True; [reflexivity|]. split; [reflexivity|discriminate].
Defined.

Lemma failed_flush_loses_points_witness :
  waiting demo_state demo_key = [demo_point 60] /\
  exists s', CommitByKey (demo_env false) demo_cfg demo_key demo_state = Ret (tt, s') /\ waiting s' demo_key = [].
Proof.
  split; [exact demo_waiting|].
  destruct (failed_flush_loses_points (demo_env false) demo_cfg demo_state (PK "h" "cpu" ∅) GAUGE 60) as (s' & E & Hw & _);
    [apply demo_state_ok|reflexivity|lia|reflexivity|]. fold demo_key in E, Hw. exists s'. split; [exact E|exact Hw].
Defined.

Lemma migration_keeps_points_witness :
  exists err s', send_data (demo_env true) demo_key demo_state = Ret (err, s') /\ (err = true -> waiting s' demo_key = [demo_point 60]).
Proof.
  destruct (migration_keeps_points (demo_env true) demo_key demo_state) as (err & s' & E & _ & Hw); [apply demo_state_ok|].
  exists err, s'. split; [exact E|]. intros ->. rewrite Hw, decide_False by (by intros [_ ?]). exact demo_waiting.
Defined.

Definition demo_param : GraphDeleteParam := mkGDP "h" "cpu" 60 GAUGE "".
Lemma delete_forgets_witness :
  exists s', Graph_Delete demo_cfg [demo_param] demo_state = Ret (tt, s') /\
    waiting s' (series_key (deleted_item demo_param ∅)) = [] /\ gs_history s' = gs_history demo_state.
Proof.
  destruct (delete_forgets demo_cfg demo_param ∅ demo_state) as (filename & s' & _ & E & _ & _ & _ & Hw & Hh & _);
    [apply demo_state_ok|reflexivity|]. exists s'. split; [exact E|]. split; [by rewrite Hw, decide_True|exact Hh].
Defined.

Lemma refused_rows_unnoticed_witness :
  exists s', updateIndexFromOneItem (demo_env true) (demo_point 60) demo_state = Ret (false, s').
Proof.
  destruct (refused_rows_unnoticed (demo_env true) (demo_point 60) demo_state 7) as (s' & l & E & _);
    [intros ? ?; reflexivity|lia|reflexivity|]. by exists s'.
Defined.

Lemma clean_removes_unindexed_witness :
  exists cnt s', DeleteInvalidItems (demo_env true) demo_state = Ret (cnt, s') /\ view (gs_items s') demo_key = if stale demo_state demo_key then None else view (gs_items demo_state) demo_key.
Proof.
  destruct (clean_removes_unindexed (demo_env true) demo_state) as (cnt & s' & E & _ & Hv); [apply demo_state_ok|].
  exists cnt, s'. split; [exact E|apply Hv].
Defined.
