(* ===== verification/GraphQuery.v ===== *)
(** The answer of a graph query: the loops of [Graph.Query] that merge the
    waiting points into the stored ones compute, for every step of the
    requested range, the waiting point if there is a number, else the stored
    one, else NaN. *)
From S2P Require Export GraphApi.
Local Open Scope Z_scope.

(** * Points by time *)

(** The first point at a time. *)
Fixpoint val (l : list RRDData) (t : Z) : option f64 :=
  match l with [] => None | x :: l' => if (rd_Timestamp x =? t)%Z then Some (rd_Value x) else val l' t end.

(** Times on the grid of [step], strictly increasing, none before [lo]. *)
Definition earlier (a b : RRDData) : Prop := rd_Timestamp a < rd_Timestamp b.
Definition times_ok (step lo : Z) (l : list RRDData) : Prop :=
  StronglySorted earlier l /\ Forall (fun x => lo <= rd_Timestamp x /\ (step | rd_Timestamp x - lo)) l.

(** [n] points from [ts], one per step, with the values of [l] and NaN elsewhere. *)
Definition spread (step ts : Z) (n : nat) (l : list RRDData) : list RRDData :=
  map (fun i => let t := ts + Z.of_nat i * step in mkRRDData t (default fnan (val l t))) (seq 0 n).

(** The points of a list of values, one per step from [a]. *)
Definition grid (step a : Z) (vs : list f64) : list RRDData := imap (fun i v => mkRRDData (a + Z.of_nat i * step) v) vs.

(** ** Lemmas *)

Lemma val_none l t : Forall (fun x => rd_Timestamp x <> t) l -> val l t = None.
Proof. induction 1 as [|x l Hx Hl IH]; cbn; [done|]. destruct (Z.eqb_spec (rd_Timestamp x) t); done. Qed.

Lemma val_elem l t v : val l t = Some v -> mkRRDData t v ∈ l.
Proof.
  induction l as [|[t' v'] l IH]; cbn; [done|]. destruct (Z.eqb_spec t' t) as [->|]; [intros [= ->]; by left|].
  intros. right. auto.
Qed.

Lemma times_ok_tail step lo x l :
  times_ok step lo (x :: l) -> times_ok step (rd_Timestamp x + step) l \/ step <= 0.
Proof.
  intros [Hs Hf]. destruct (Z.leb_spec step 0); [by right|]. left.
  inversion Hs as [|? ? Hs' Hx]; subst. inversion Hf as [|? ? [H1 [k Hk]] Hf']; subst. split; [done|].
  rewrite Forall_forall in Hx, Hf' |- *. intros y Hy. specialize (Hx y Hy). destruct (Hf' y Hy) as [H2 [j Hj]].
  unfold earlier in Hx. assert ((step | rd_Timestamp y - rd_Timestamp x)) as [m Hm] by (exists (j - k); lia).
  split; [|exists (m - 1); lia]. assert (0 < m) by nia. nia.
Qed.

Lemma times_ok_later step lo lo' l :
  0 < step -> times_ok step lo l -> lo' = lo + step -> Forall (fun x => rd_Timestamp x <> lo) l -> times_ok step lo' l.
Proof.
  intros Hst [Hs Hf] -> Hne. split; [done|]. rewrite Forall_forall in Hf, Hne |- *. intros y Hy.
  destruct (Hf y Hy) as [H1 [k Hk]]. specialize (Hne y Hy). split; [|exists (k - 1); lia].
  assert (0 < k) by nia. nia.
Qed.

Lemma times_ok_ge step lo l t : times_ok step lo l -> t < lo -> val l t = None.
Proof.
  intros [_ Hf] Ht. apply val_none. eapply Forall_impl; [exact Hf|]. intros x [? _]. lia.
Qed.

Lemma spread_S step ts n l :
  spread step ts (S n) l = mkRRDData ts (default fnan (val l ts)) :: spread step (ts + step) n l.
Proof.
  unfold spread. cbn [seq map]. rewrite Z.mul_0_l, Z.add_0_r. f_equal. rewrite <- seq_shift, map_map.
  apply map_ext. intros i. rewrite Nat2Z.inj_succ. by replace (ts + Z.succ (Z.of_nat i) * step) with (ts + step + Z.of_nat i * step) by lia.
Qed.

Lemma spread_skip step ts n x l :
  0 < step -> rd_Timestamp x < ts -> spread step ts n (x :: l) = spread step ts n l.
Proof.
  intros Hst Hx. unfold spread. apply map_ext. intros i. cbn. destruct (Z.eqb_spec (rd_Timestamp x) (ts + Z.of_nat i * step)); [nia|done].
Qed.

(** The pointer walk shared by the loops of the query: consume the next point
    when its time has come. *)
Fixpoint walk_points (step ts : Z) (n : nat) (l : list RRDData) : list RRDData :=
  match n with
  | O => []
  | S n =>
      match l with
      | x :: l' => if (ts =? rd_Timestamp x) then x :: walk_points step (ts + step) n l'
                   else mkRRDData ts fnan :: walk_points step (ts + step) n l
      | [] => mkRRDData ts fnan :: walk_points step (ts + step) n []
      end
  end.

Lemma walk_spread step ts n l : 0 < step -> times_ok step ts l -> walk_points step ts n l = spread step ts n l.
Proof.
  intros Hst. revert ts l; induction n as [|n IH]; intros ts l Hl; [done|]. rewrite spread_S. cbn [walk_points].
  destruct l as [|[t v] l]; [cbn; f_equal; apply IH; split; constructor|]. cbn [val rd_Timestamp rd_Value].
  destruct (Z.eqb_spec ts t) as [->|Hne].
  - rewrite Z.eqb_refl. cbn. f_equal. destruct (times_ok_tail _ _ _ _ Hl) as [Ht|]; [|lia]. cbn in Ht.
    rewrite IH by done. rewrite spread_skip by (cbn; lia). done.
  - destruct (Z.eqb_spec t ts); [congruence|].
    pose proof Hl as [Hs Hf]. inversion Hs as [|? ? Hs' Hx]; subst. inversion Hf as [|? ? [H1 _] Hf']; subst. cbn in H1.
    assert (Forall (fun x => rd_Timestamp x <> ts) ((mkRRDData t v) :: l)) as Hno.
    { constructor; [cbn; lia|]. eapply Forall_impl; [exact Hx|]. unfold earlier. cbn. intros; lia. }
    rewrite val_none by by inversion Hno. cbn. f_equal. apply IH. by eapply times_ok_later.
Qed.

(** ** The three loops are the walk *)

Definition small (z : Z) : Prop := 0 <= z <= 2 ^ 61.

Lemma wrap_small z : - 2 ^ 63 <= z < 2 ^ 63 -> wrap64 z = z.
Proof. intros. by apply wrap64_id. Qed.

Definition item_points (items : list GraphItem) : list RRDData :=
  map (fun it => mkRRDData (gi_Timestamp it) (gi_Value it)) items.

(** Rates between neighbours one step apart; no number elsewhere or when the counter went back. *)
Definition rate (step : Z) (it next : GraphItem) : f64 :=
  let val := if (gi_Timestamp it =? gi_Timestamp next -! step)
             then fdiv (fsub (gi_Value next) (gi_Value it)) (f64_of_Z step) else fnan in
  if flt val fzero then fnan else val.
Fixpoint rate_list (step : Z) (items : list GraphItem) : list RRDData :=
  match items with
  | it :: ((next :: _) as rest) => mkRRDData (gi_Timestamp it) (rate step it next) :: rate_list step rest
  | _ => []
  end.

Definition inside (lo hi : Z) (l : list RRDData) : list RRDData :=
  List.filter (fun v => in_range lo hi (rd_Timestamp v)) l.

Lemma inside_cons lo hi x l : inside lo hi (x :: l) = if in_range lo hi (rd_Timestamp x) then x :: inside lo hi l else inside lo hi l.
Proof. done. Qed.

Lemma drop_item {A} (l : list A) i x : l !! i = Some x -> drop i l = x :: drop (S i) l.
Proof. intros. by apply drop_S. Qed.

(** The number of turns of the two loops. *)
Definition turns (step ts iend : Z) : nat := Z.to_nat ((iend - ts) / step).

Lemma turns_S step ts iend :
  0 < step -> ts + step <= iend -> turns step ts iend = S (turns step (ts + step) iend).
Proof.
  intros Hst H. unfold turns. replace (iend - ts) with ((iend - (ts + step)) + 1 * step) by lia.
  rewrite Z.div_add by lia. pose proof (Z.div_pos (iend - (ts + step)) step). lia.
Qed.

Lemma turns_0 step ts iend : 0 < step -> iend < ts + step -> turns step ts iend = O.
Proof.
  intros Hst H. unfold turns. destruct (Z.leb_spec ts iend); [rewrite Z.div_small; lia|].
  assert ((iend - ts) / step < 0) by (apply Z.div_lt_upper_bound; lia). lia.
Qed.

Lemma drop_points {A B} (f : A -> B) (l : list A) i : map f (drop i l) = drop i (map f l).
Proof. revert i; induction l as [|x l IH]; intros [|i]; cbn; auto. Qed.

(** One turn of a loop that appends the points in range. *)
Lemma inside_step lo hi ts v (cache rest : list RRDData) :
  ((if in_range lo hi ts then cache ++ [mkRRDData ts v] else cache) ++ inside lo hi rest =
   cache ++ inside lo hi (mkRRDData ts v :: rest))%list.
Proof. rewrite inside_cons. cbn [rd_Timestamp]. destruct (in_range lo hi ts); [by rewrite <- app_assoc|done]. Qed.

Section loops.
Context (step lo hi iend : Z) (Hst : 0 < step <= 2 ^ 61) (Hie : small iend).

Lemma gauge_points_walk items fuel ts idx cache n :
  0 <= ts <= 2 ^ 62 -> (idx <= length items)%nat -> n = (if iend <? ts then O else S (turns step ts iend)) -> (n < fuel)%nat ->
  gauge_points fuel items step iend lo hi ts (Z.of_nat idx) cache =
  Ret (Some (cache ++ inside lo hi (walk_points step ts n (drop idx (item_points items))))%list).
Proof using Hst Hie.
  revert ts idx cache n; induction fuel as [|fuel IH]; intros ts idx cache n Hts Hidx Hn Hf; [lia|].
  cbn [gauge_points]. unfold small in *. destruct (Z.leb_spec ts iend) as [Hle|Hgt]; cbn [negb].
  2:{ destruct (Z.ltb_spec iend ts); [|lia]. subst n. cbn. by rewrite app_nil_r. }
  destruct (Z.ltb_spec iend ts); [lia|]. rewrite (wrap_small (ts + step)) by lia. subst n.
  set (n := turns step ts iend) in *.
  assert (n = (if iend <? ts + step then O else S (turns step (ts + step) iend))) as Hn.
  { unfold n. destruct (Z.ltb_spec iend (ts + step)); [apply turns_0; lia|apply turns_S; lia]. }
  rewrite <- Nat2Z.inj_0 in *. cbn [walk_points].
  assert (forall v i, (i <= length items)%nat ->
    gauge_points fuel items step iend lo hi (ts + step) (Z.of_nat i) (if in_range lo hi ts then cache ++ [mkRRDData ts v] else cache)%list =
    Ret (Some (cache ++ inside lo hi (mkRRDData ts v :: walk_points step (ts + step) n (drop i (item_points items))))%list)) as Hgo.
  { intros v i Hi. rewrite (IH (ts + step) i _ n) by (done || lia). by rewrite inside_step. }
  destruct (Z.ltb_spec (Z.of_nat idx) (Z.of_nat (length items))) as [Hlt|Hge]; cycle 1.
  { cbn [rbind]. rewrite (drop_ge (item_points items)) by (unfold item_points; rewrite length_map; lia).
    rewrite (Hgo fnan idx) by done. by rewrite (drop_ge (item_points items)) by (unfold item_points; rewrite length_map; lia). }
  destruct (lookup_lt_is_Some_2 items idx) as [it Hit]; [lia|].
  assert (item_points items !! idx = Some (mkRRDData (gi_Timestamp it) (gi_Value it))) as Hp.
  { unfold item_points. rewrite <- list_fmap_map || idtac. rewrite list_lookup_fmap. by rewrite Hit. }
  rewrite (at_index_lookup _ _ _ Hit). cbn [rbind]. rewrite (drop_S _ _ _ Hp). cbn [rd_Timestamp].
  destruct (Z.eqb_spec ts (gi_Timestamp it)) as [->|Hne]; cbn [rbind].
  - replace (Z.of_nat idx + 1) with (Z.of_nat (S idx)) by lia. by rewrite Hgo by lia.
  - rewrite <- (drop_S _ _ _ Hp). by rewrite Hgo by lia.
Qed.

Lemma rate_list_length items : length (rate_list step items) = pred (length items).
Proof using Type. induction items as [|a [|b l] IH]; [done..|]. cbn [rate_list length pred] in *. by rewrite IH. Qed.

Lemma rate_list_lookup items i it next :
  items !! i = Some it -> items !! S i = Some next ->
  rate_list step items !! i = Some (mkRRDData (gi_Timestamp it) (rate step it next)).
Proof using Type.
  revert i; induction items as [|a [|b l] IH]; intros [|i] H1 H2; cbn in *; try done; [by simplify_eq|].
  by apply IH.
Qed.

Lemma rate_points_walk items fuel ts idx cache n :
  0 <= ts <= 2 ^ 62 -> (idx <= pred (length items))%nat -> Forall (fun it => small (gi_Timestamp it)) items ->
  (step | iend - ts) -> n = (if iend <=? ts then O else turns step ts iend) -> (n < fuel)%nat ->
  rate_points fuel items step iend lo hi ts (Z.of_nat idx) cache =
  Ret (Some (cache ++ inside lo hi (walk_points step ts n (drop idx (rate_list step items))))%list).
Proof using Hst Hie.
  revert ts idx cache n; induction fuel as [|fuel IH]; intros ts idx cache n Hts Hidx Hsm Hdiv Hn Hf; [lia|].
  cbn [rate_points]. unfold small in *. destruct (Z.ltb_spec ts iend) as [Hlt|Hge]; cbn [negb].
  2:{ destruct (Z.leb_spec iend ts); [|lia]. subst n. cbn. by rewrite app_nil_r. }
  destruct (Z.leb_spec iend ts); [lia|]. rewrite (wrap_small (ts + step)) by lia. subst n.
  assert (ts + step <= iend) as Hnext by (destruct Hdiv as [k Hk]; assert (0 < k) by nia; nia).
  rewrite turns_S in Hf |- * by lia. set (n := turns step (ts + step) iend) in *.
  assert (n = (if iend <=? ts + step then O else turns step (ts + step) iend)) as Hn.
  { unfold n. destruct (Z.leb_spec iend (ts + step)); [apply turns_0; lia|done]. }
  cbn [walk_points].
  assert (forall v i, (i <= pred (length items))%nat ->
    rate_points fuel items step iend lo hi (ts + step) (Z.of_nat i) (if in_range lo hi ts then cache ++ [mkRRDData ts v] else cache)%list =
    Ret (Some (cache ++ inside lo hi (mkRRDData ts v :: walk_points step (ts + step) n (drop i (rate_list step items))))%list)) as Hgo.
  { intros v i Hi. rewrite (IH (ts + step) i _ n) by (done || lia || (destruct Hdiv as [k Hk]; exists (k - 1); lia)).
    by rewrite inside_step. }
  destruct (Z.ltb_spec (Z.of_nat idx) (Z.of_nat (length items) - 1)) as [Hlti|Hgei]; cycle 1.
  { cbn [rbind]. rewrite (drop_ge (rate_list step items)) by (rewrite rate_list_length; lia).
    rewrite (Hgo fnan idx) by done. by rewrite (drop_ge (rate_list step items)) by (rewrite rate_list_length; lia). }
  destruct (lookup_lt_is_Some_2 items idx) as [it Hit]; [lia|].
  destruct (lookup_lt_is_Some_2 items (S idx)) as [next Hnx]; [lia|].
  rewrite (at_index_lookup _ _ _ Hit). replace (Z.of_nat idx + 1) with (Z.of_nat (S idx)) by lia.
  rewrite (at_index_lookup _ _ _ Hnx). cbn [rbind].
  pose proof (rate_list_lookup _ _ _ _ Hit Hnx) as Hp. rewrite (drop_S _ _ _ Hp). cbn [rd_Timestamp].
  destruct (Z.eqb_spec ts (gi_Timestamp it)) as [->|Hne]; cbn [rbind].
  - fold (rate step it next). by rewrite Hgo by lia.
  - rewrite <- (drop_S _ _ _ Hp). by rewrite Hgo by lia.
Qed.

Lemma format_points_walk n ts idx merged :
  0 <= ts -> ts + Z.of_nat n * step <= 2 ^ 62 -> (idx <= length merged)%nat ->
  format_points n ts step (Z.of_nat idx) merged = Ret (walk_points step ts n (drop idx merged)).
Proof using Hst.
  revert ts idx; induction n as [|n IH]; intros ts idx Hts Hb Hidx; [done|]. cbn [format_points walk_points].
  rewrite (wrap_small (ts + step)) by lia.
  assert (forall i, (i <= length merged)%nat ->
    format_points n (ts + step) step (Z.of_nat i) merged = Ret (walk_points step (ts + step) n (drop i merged))) as Hgo.
  { intros i Hi. apply IH; lia. }
  destruct (Z.ltb_spec (Z.of_nat idx) (Z.of_nat (length merged))) as [Hlt|Hge]; cycle 1.
  { cbn [rbind]. rewrite (drop_ge merged) by lia. rewrite Hgo by done. cbn. by rewrite (drop_ge merged) by lia. }
  destruct (lookup_lt_is_Some_2 merged idx) as [m Hm]; [lia|].
  rewrite (at_index_lookup _ _ _ Hm). cbn [rbind]. rewrite (drop_S _ _ _ Hm).
  destruct (Z.eqb_spec ts (rd_Timestamp m)) as [->|Hne]; cbn [rbind].
  - replace (Z.of_nat idx + 1) with (Z.of_nat (S idx)) by lia. by rewrite Hgo by lia.
  - rewrite <- (drop_S _ _ _ Hm). by rewrite Hgo by lia.
Qed.
End loops.

(** * Merging *)

Lemma grid_cons step a v vs : grid step a (v :: vs) = mkRRDData a v :: grid step (a + step) vs.
Proof.
  unfold grid. cbn [imap]. rewrite Z.mul_0_l, Z.add_0_r. f_equal. apply imap_ext. intros i x _. cbn. f_equal. lia.
Qed.

Lemma grid_app step a us vs : grid step a (us ++ vs) = (grid step a us ++ grid step (a + Z.of_nat (length us) * step) vs)%list.
Proof.
  revert a; induction us as [|u us IH]; intros a; cbn [app length]; [unfold grid at 2; cbn; f_equal; lia|].
  rewrite !grid_cons, IH. cbn [app]. do 3 f_equal. lia.
Qed.

Lemma grid_length step a vs : length (grid step a vs) = length vs.
Proof. apply length_imap. Qed.
Lemma grid_lookup step a vs i : grid step a vs !! i = (fun v => mkRRDData (a + Z.of_nat i * step) v) <$> vs !! i.
Proof. unfold grid. by rewrite list_lookup_imap. Qed.

Lemma val_grid step a vs i : 0 < step -> val (grid step a vs) (a + Z.of_nat i * step) = vs !! i.
Proof.
  intros Hst. revert a i; induction vs as [|v vs IH]; intros a i; [done|]. rewrite grid_cons. cbn [val rd_Timestamp rd_Value].
  destruct (Z.eqb_spec a (a + Z.of_nat i * step)) as [H|H].
  - assert (i = O) as -> by nia. done.
  - destruct i as [|i]; [lia|]. cbn. rewrite <- (IH (a + step)). f_equal. lia.
Qed.

Lemma val_grid_before step a vs t : 0 < step -> t < a -> val (grid step a vs) t = None.
Proof.
  intros Hst Ht. apply val_none, Forall_lookup_2. intros i x Hx. rewrite grid_lookup in Hx.
  destruct (vs !! i); [|done]. injection Hx as <-. cbn. nia.
Qed.

Lemma grid_times_ok step a vs lo : 0 < step -> lo <= a -> (step | a - lo) -> times_ok step lo (grid step a vs).
Proof.
  intros Hst. revert a; induction vs as [|v vs IH]; intros a Hlo Hd; [split; constructor|]. rewrite grid_cons.
  destruct (IH (a + step)) as [H1 H2]; [lia|destruct Hd as [k Hk]; exists (k + 1); lia|].
  split; [constructor; [exact H1|]|constructor; [cbn; by split|]].
  2:{ eapply Forall_impl; [exact H2|]. done. }
  apply Forall_lookup_2. intros i x Hx. rewrite grid_lookup in Hx. destruct (vs !! i); [|done]. injection Hx as <-.
  unfold earlier. cbn. nia.
Qed.

(** Overlaying the values [ws] from the [K]-th place on. *)
Fixpoint blend (vs ws : list f64) : list f64 :=
  match vs, ws with
  | v :: vs, w :: ws => (if is_nan w then v else w) :: blend vs ws
  | [], ws => ws
  | vs, [] => vs
  end.
Definition padded (vs : list f64) (K : nat) : list f64 := vs ++ replicate (K - length vs) fnan.
Definition overlaid (vs ws : list f64) (K : nat) : list f64 := take K (padded vs K) ++ blend (drop K vs) ws.

Lemma blend_lookup vs ws i :
  default fnan (blend vs ws !! i) =
  match ws !! i with Some w => if is_nan w then default fnan (vs !! i) else w | None => default fnan (vs !! i) end.
Proof.
  revert ws i; induction vs as [|v vs IH]; intros [|w ws] [|i]; cbn; try done; try apply IH;
    try (by destruct w); by destruct (ws !! i) as [[]|].
Qed.

Lemma overlaid_lookup vs ws K i :
  default fnan (overlaid vs ws K !! i) =
  match (if decide (K <= i)%nat then ws !! (i - K)%nat else None) with
  | Some w => if is_nan w then default fnan (vs !! i) else w
  | None => default fnan (vs !! i)
  end.
Proof.
  unfold overlaid, padded. assert (length (take K (vs ++ replicate (K - length vs) fnan)) = K) as Hl.
  { rewrite length_take, length_app, length_replicate. lia. }
  destruct (decide (K <= i)%nat) as [Hi|Hi].
  - rewrite lookup_app_r by lia. rewrite Hl, blend_lookup, lookup_drop. by replace (K + (i - K))%nat with i by lia.
  - rewrite lookup_app_l by lia. rewrite lookup_take_lt by lia.
    destruct (decide (i < length vs)%nat) as [Hv|Hv]; [by rewrite lookup_app_l|].
    rewrite lookup_app_r by lia. rewrite (lookup_ge_None_2 vs) by lia. rewrite lookup_replicate_2 by lia. done.
Qed.

Section merge.
Context (step : Z) (Hst : 0 < step).

Lemma junction_grid n m0 vs K lastTs :
  (n <= length vs)%nat ->
  junction n (grid step m0 vs) (m0 + Z.of_nat K * step) lastTs =
  Ret (if decide (Nat.min n K = 0)%nat then (-1, lastTs)
       else (Z.of_nat (Nat.min n K) - 1, m0 + (Z.of_nat (Nat.min n K) - 1) * step)).
Proof using Hst.
  revert lastTs; induction n as [|n IH]; intros lastTs Hn; cbn [junction]; [done|].
  destruct (lookup_lt_is_Some_2 vs n) as [v Hv]; [lia|].
  rewrite (at_index_lookup _ n (mkRRDData (m0 + Z.of_nat n * step) v)) by (rewrite grid_lookup, Hv; done).
  cbn [rbind rd_Timestamp]. destruct (Z.ltb_spec (m0 + Z.of_nat n * step) (m0 + Z.of_nat K * step)) as [H|H].
  - assert (n < K)%nat by nia. replace (Nat.min (S n) K) with (S n) by lia. destruct (decide (S n = 0)%nat); [lia|].
    do 2 f_equal; lia.
  - assert (K <= n)%nat by nia. rewrite IH by lia. by replace (Nat.min (S n) K) with (Nat.min n K) by lia.
Qed.

Lemma fix_missing_late fuel ts c0 merged : c0 <= ts -> (0 < fuel)%nat -> fix_missing fuel ts c0 step merged = Some merged.
Proof using Type. intros H Hf. destruct fuel; [lia|]. cbn. destruct (Z.ltb_spec ts c0); [lia|done]. Qed.

Lemma fix_missing_grid fuel d c0 merged :
  (d < fuel)%nat -> 0 <= c0 <= 2 ^ 61 -> step <= 2 ^ 61 -> 0 <= c0 - Z.of_nat d * step ->
  fix_missing fuel (c0 - Z.of_nat d * step) c0 step merged =
  Some (merged ++ grid step (c0 - Z.of_nat d * step) (replicate d fnan))%list.
Proof using Hst.
  revert fuel merged; induction d as [|d IH]; intros fuel merged Hf Hc Hs H0.
  { rewrite fix_missing_late by lia. by rewrite app_nil_r. }
  destruct fuel as [|fuel]; [lia|]. cbn [fix_missing]. destruct (Z.ltb_spec (c0 - Z.of_nat (S d) * step) c0); [|nia].
  rewrite wrap_small by nia. replace (c0 - Z.of_nat (S d) * step + step) with (c0 - Z.of_nat d * step) by lia.
  rewrite IH by lia. cbn [replicate]. rewrite grid_cons, <- app_assoc. cbn [app]. do 4 f_equal. lia.
Qed.

Lemma overlay_append cache idx size merged :
  size <= idx -> overlay cache idx size merged = Ret (merged ++ cache)%list.
Proof using Type.
  revert idx merged; induction cache as [|c cache IH]; intros idx merged H; cbn [overlay]; [by rewrite app_nil_r|].
  destruct (Z.ltb_spec idx size); [lia|]. cbn [rbind]. rewrite IH by lia. by rewrite <- app_assoc.
Qed.

Lemma insert_grid m0 vs i v : grid step m0 (<[i := v]> vs) = <[i := mkRRDData (m0 + Z.of_nat i * step) v]> (grid step m0 vs).
Proof using Type.
  apply list_eq. intros j. rewrite grid_lookup. destruct (decide (i = j)) as [->|Hne].
  - destruct (decide (j < length vs)%nat).
    + rewrite !list_lookup_insert_eq by (rewrite ?grid_length; lia). done.
    + by rewrite !lookup_ge_None_2 by (rewrite ?length_insert, ?grid_length; lia).
  - rewrite !list_lookup_insert_ne by done. by rewrite grid_lookup.
Qed.

Lemma overlay_grid ws m0 vs K :
  (K <= length vs)%nat ->
  overlay (grid step (m0 + Z.of_nat K * step) ws) (Z.of_nat K) (Z.of_nat (length vs)) (grid step m0 vs) =
  Ret (grid step m0 (take K vs ++ blend (drop K vs) ws)%list).
Proof using Hst.
  revert vs K; induction ws as [|w ws IH]; intros vs K HK.
  { cbn [grid overlay imap]. f_equal. f_equal. assert (forall l, blend l [] = l) as -> by by intros []. by rewrite take_drop. }
  destruct (decide (K = length vs)) as [->|HKl].
  { rewrite overlay_append by done. rewrite take_ge by done. rewrite drop_ge by done. cbn [blend]. by rewrite grid_app. }
  rewrite grid_cons. cbn [overlay rd_Value]. destruct (Z.ltb_spec (Z.of_nat K) (Z.of_nat (length vs))); [|lia].
  destruct (lookup_lt_is_Some_2 vs K) as [v Hv]; [lia|].
  set (v' := if is_nan w then v else w).
  assert ((if negb (is_nan w) then let! _ := at_index (grid step m0 vs) (Z.of_nat K) in
             Ret (<[Z.to_nat (Z.of_nat K) := mkRRDData (m0 + Z.of_nat K * step) w]> (grid step m0 vs))
           else Ret (grid step m0 vs)) = Ret (grid step m0 (<[K := v']> vs))) as ->.
  { unfold v'. destruct (is_nan w); cbn [negb].
    - by rewrite list_insert_id.
    - rewrite (at_index_lookup _ K (mkRRDData (m0 + Z.of_nat K * step) v)) by (rewrite grid_lookup, Hv; done).
      cbn [rbind]. by rewrite Nat2Z.id, insert_grid. }
  cbn [rbind]. replace (m0 + Z.of_nat K * step + step) with (m0 + Z.of_nat (S K) * step) by lia.
  replace (Z.of_nat K + 1) with (Z.of_nat (S K)) by lia.
  replace (Z.of_nat (length vs)) with (Z.of_nat (length (<[K:=v']> vs))) by (by rewrite length_insert).
  rewrite IH by (rewrite length_insert; lia). f_equal. f_equal.
  rewrite (drop_S _ _ _ Hv). cbn [blend]. fold v'.
  rewrite (take_S_r _ _ v') by (apply list_lookup_insert_eq; lia).
  rewrite take_insert_ge by lia. rewrite drop_insert_lt by lia. by rewrite <- app_assoc.
Qed.

(** The merged points, from the grids of the stored and of the waiting ones. *)
Lemma merge_points_grid fuel datas lo hi m0 vs K ws :
  inside lo hi datas = grid step m0 vs -> ws <> [] -> 0 <= m0 -> m0 + Z.of_nat K * step <= 2 ^ 61 -> step <= 2 ^ 61 ->
  (vs = [] -> K = O) -> (K < fuel)%nat ->
  merge_points fuel datas (grid step (m0 + Z.of_nat K * step) ws) step lo hi = Ret (Some (grid step m0 (overlaid vs ws K))).
Proof using Hst.
  intros Hin Hws Hm0 Hc0 Hs Hemp Hf. unfold merge_points. fold (inside lo hi datas). rewrite Hin, grid_length.
  set (c0 := m0 + Z.of_nat K * step) in *.
  destruct ws as [|w ws]; [done|]. rewrite grid_cons. rewrite <- grid_cons. cbn [rd_Timestamp].
  unfold c0 at 1. rewrite junction_grid by done. cbn [rbind].
  destruct (decide (Nat.min (length vs) K = 0)%nat) as [H0|H0].
  - assert (K = O) as -> by (destruct vs; [auto|cbn [length] in H0; lia]). cbn [rbind].
    rewrite wrap_small by (unfold c0 in *; lia). rewrite fix_missing_late by lia. cbn [rbind].
    replace (-1 + 1) with (Z.of_nat 0) by lia. unfold c0. rewrite overlay_grid by lia. cbn [rbind].
    unfold overlaid, padded. by rewrite !take_0.
  - cbn [rbind]. replace (Z.of_nat (Nat.min (length vs) K) - 1 + 1) with (Z.of_nat (Nat.min (length vs) K)) by lia.
    destruct (decide (K <= length vs)%nat) as [HK|HK].
    + rewrite Nat.min_r by done. replace (m0 + (Z.of_nat K - 1) * step + step) with c0 by (unfold c0; lia).
      rewrite wrap_small by (unfold c0 in *; nia). rewrite fix_missing_late by lia.
      unfold c0. rewrite overlay_grid by done. cbn [rbind]. unfold overlaid, padded.
      replace (K - length vs)%nat with O by lia. cbn. by rewrite app_nil_r.
    + rewrite Nat.min_l by lia. rewrite wrap_small by (unfold c0 in *; nia).
      replace (m0 + (Z.of_nat (length vs) - 1) * step + step) with (c0 - Z.of_nat (K - length vs) * step) by (unfold c0; nia).
      rewrite fix_missing_grid by (unfold c0 in *; nia). cbn [rbind]. rewrite overlay_append by lia. cbn [rbind].
      unfold overlaid, padded. rewrite drop_ge by lia. rewrite take_ge by (rewrite length_app, length_replicate; lia).
      cbn [blend]. rewrite !grid_app, length_app, length_replicate. do 5 f_equal; unfold c0; nia.
Qed.
End merge.

(** * The reference answer *)

(** The number to show at a time: the waiting point's, else the stored one's. *)
Definition best (waiting stored : list RRDData) (t : Z) : f64 :=
  match val waiting t with
  | Some v => if is_nan v then default fnan (val stored t) else v
  | None => default fnan (val stored t)
  end.

(** The points the waiting items of a series stand for. *)
Definition waiting_points (dsType : string) (step : Z) (items : list GraphItem) : list RRDData :=
  if String.eqb dsType DERIVE || String.eqb dsType COUNTER then rate_list step items
  else if String.eqb dsType GAUGE then item_points items else [].

(** Waiting items as the graph keeps them and the transfer aligned them:
    oldest first, one grid. *)
Definition items_fine (step : Z) (items : list GraphItem) : Prop :=
  exists lo, times_ok step lo (item_points items) /\ (step | lo) /\ 0 <= lo /\
    Forall (fun it => small (gi_Timestamp it)) items.

Lemma val_inside lo hi l t : val (inside lo hi l) t = if in_range lo hi t then val l t else None.
Proof.
  induction l as [|[ts v] l IH]; cbn; [by destruct (in_range lo hi t)|].
  unfold inside in *. destruct (in_range lo hi ts) eqn:E; cbn.
  - destruct (Z.eqb_spec ts t) as [->|]; [by rewrite E|done].
  - rewrite IH. destruct (Z.eqb_spec ts t) as [->|]; [by rewrite E|done].
Qed.

Section answer.
Context (step : Z) (Hst : 0 < step).

Lemma inside_grid_after lo hi a vs : hi < a -> inside lo hi (grid step a vs) = [].
Proof using Hst.
  revert a; induction vs as [|v vs IH]; intros a H; [done|]. rewrite grid_cons, inside_cons. cbn [rd_Timestamp].
  unfold in_range. destruct (Z.leb_spec a hi); [lia|]. rewrite andb_false_r. apply IH. lia.
Qed.

(** The part of a grid inside an aligned range is the grid from its first point inside. *)
Lemma inside_grid lo hi a vs :
  (step | lo - a) -> exists vs', inside lo hi (grid step a vs) = grid step (Z.max lo a) vs'.
Proof using Hst.
  revert a; induction vs as [|v vs IH]; intros a Hd; [by exists []|]. rewrite grid_cons, inside_cons. cbn [rd_Timestamp].
  destruct (IH (a + step)) as [vs' E]; [destruct Hd as [k Hk]; exists (k - 1); lia|]. rewrite E.
  unfold in_range. destruct (Z.leb_spec lo a) as [Hlo|Hlo], (Z.leb_spec a hi) as [Hhi|Hhi]; cbn [andb].
  - exists (v :: vs'). rewrite grid_cons. rewrite !Z.max_r by lia. done.
  - exists []. rewrite Z.max_r in E by lia. rewrite inside_grid_after in E by lia.
    rewrite (Z.max_r lo (a + step)) by lia. by rewrite <- E.
  - exists vs'. f_equal. destruct Hd as [k Hk]. assert (1 <= k) by nia. assert (a + step <= lo) by nia. lia.
  - exists vs'. f_equal. destruct Hd as [k Hk]. assert (1 <= k) by nia. assert (a + step <= lo) by nia. lia.
Qed.

Lemma lookup_map {A B} (f : A -> B) (l : list A) i : map f l !! i = f <$> l !! i.
Proof using Type. revert i; induction l as [|x l IH]; intros [|i]; cbn; auto. Qed.

Lemma spread_grid ts n l : spread step ts n l = grid step ts (map (fun i => default fnan (val l (ts + Z.of_nat i * step))) (seq 0 n)).
Proof using Type.
  apply list_eq. intros i. rewrite grid_lookup. unfold spread. rewrite !lookup_map.
  destruct (decide (i < n)%nat); [by rewrite lookup_seq_lt by lia|by rewrite lookup_seq_ge by lia].
Qed.

Lemma val_spread ts n l i :
  val (spread step ts n l) (ts + Z.of_nat i * step) = if decide (i < n)%nat then Some (default fnan (val l (ts + Z.of_nat i * step))) else None.
Proof using Hst.
  rewrite spread_grid, val_grid by done. rewrite lookup_map. destruct (decide (i < n)%nat).
  - by rewrite lookup_seq_lt by lia.
  - by rewrite lookup_seq_ge by lia.
Qed.

(** Spreading points over a range that covers them changes no answer. *)
Lemma best_spread ts n l stored t :
  times_ok step ts l -> Forall (fun x => rd_Timestamp x < ts + Z.of_nat n * step) l -> (step | t - ts) ->
  best (spread step ts n l) stored t = best l stored t.
Proof using Hst.
  intros Hok Hlt [k Hk]. unfold best. destruct (Z.ltb_spec t ts) as [Hb|Hb].
  { rewrite spread_grid, val_grid_before by done. by rewrite (times_ok_ge _ _ _ _ Hok Hb). }
  assert (0 <= k) by nia. replace t with (ts + Z.of_nat (Z.to_nat k) * step) by nia. rewrite val_spread.
  destruct (decide (Z.to_nat k < n)%nat) as [H1|H1]; [by destruct (val l _)|].
  rewrite (val_none l); [done|].
  assert (Z.of_nat n * step <= Z.of_nat (Z.to_nat k) * step) by (apply Z.mul_le_mono_nonneg_r; lia).
  eapply Forall_impl; [exact Hlt|]. intros x Hx. cbn in *. lia.
Qed.
End answer.

(** ** The waiting items as points *)

Section waiting.
Context (step : Z) (Hst : 0 < step <= 2 ^ 61).

Lemma rate_list_times (Q : Z -> Prop) init lst :
  Forall (fun x => Q (rd_Timestamp x)) (item_points init) -> Forall (fun x => Q (rd_Timestamp x)) (rate_list step (init ++ [lst])).
Proof using Type.
  induction init as [|a init IH]; intros H; [constructor|]. inversion H as [|? ? H1 H2]; subst.
  destruct init as [|b init]; [by repeat constructor|]. constructor; [exact H1|by apply IH].
Qed.

Lemma rate_list_ok lo items : times_ok step lo (item_points items) -> times_ok step lo (rate_list step items).
Proof using Type.
  assert (forall (Q : Z -> Prop) items, Forall (fun x => Q (rd_Timestamp x)) (item_points items) ->
    Forall (fun x => Q (rd_Timestamp x)) (rate_list step items)) as Hall.
  { intros Q its H. destruct its as [|lst init _] using rev_ind; [constructor|]. apply rate_list_times.
    unfold item_points in *. rewrite map_app in H. by apply Forall_app in H as [H _]. }
  intros [Hs Hf]. split; [|by apply (Hall (fun t => lo <= t /\ (step | t - lo)))]. clear Hf.
  induction items as [|a [|b items] IH]; [constructor..|].
  change (item_points (a :: b :: items)) with (mkRRDData (gi_Timestamp a) (gi_Value a) :: item_points (b :: items)) in Hs.
  inversion Hs as [|? ? Hs' Hx]; subst. change (rate_list step (a :: b :: items)) with (mkRRDData (gi_Timestamp a) (rate step a b) :: rate_list step (b :: items)).
  constructor; [by apply IH|]. unfold earlier in *. cbn [rd_Timestamp] in *. by apply (Hall (fun t => gi_Timestamp a < t)).
Qed.

Lemma sorted_last l x : StronglySorted earlier (l ++ [x]) -> Forall (fun y => rd_Timestamp y < rd_Timestamp x) l.
Proof using Type.
  induction l as [|y l IH]; intros H; [constructor|]. cbn in H. inversion H as [|? ? H1 H2]; subst.
  apply Forall_app in H2 as [_ H2]. constructor; [by inversion H2|by apply IH].
Qed.

Lemma items_fine_first it0 items :
  items_fine step (it0 :: items) ->
  times_ok step (gi_Timestamp it0) (item_points (it0 :: items)) /\ (step | gi_Timestamp it0) /\ small (gi_Timestamp it0).
Proof using Hst.
  intros (lo & [Hs Hf] & Hd & Hlo & Hsm). inversion Hf as [|? ? [H1 H2] H3]; subst. cbn in H1, H2.
  inversion Hs as [|? ? H4 H5]; subst. inversion Hsm; subst.
  assert (step | gi_Timestamp it0) by (replace (gi_Timestamp it0) with (gi_Timestamp it0 - lo + lo) by lia; by apply Z.divide_add_r).
  split; [|done]. split; [done|]. constructor; [cbn; split; [lia|exists 0; lia]|].
  rewrite Forall_forall in H3, H5 |- *. intros x Hx. specialize (H5 x Hx). destruct (H3 x Hx) as [_ Hdx].
  unfold earlier in H5. cbn in H5. split; [lia|]. replace (rd_Timestamp x - gi_Timestamp it0) with ((rd_Timestamp x - lo) - (gi_Timestamp it0 - lo)) by lia.
  by apply Z.divide_sub_r.
Qed.

(** The cached points of the query are the waiting points, spread over their range. *)
Lemma cached_points_are fuel dsType it0 items lo hi lst :
  items_fine step (it0 :: items) -> last (it0 :: items) = Some lst ->
  (Z.to_nat ((gi_Timestamp lst - gi_Timestamp it0) / step) + 1 < fuel)%nat ->
  exists n, let pts := waiting_points dsType step (it0 :: items) in
    cached_points fuel dsType (it0 :: items) step lo hi = Ret (Some (inside lo hi (spread step (gi_Timestamp it0) n pts))) /\
    times_ok step (gi_Timestamp it0) pts /\
    Forall (fun x => rd_Timestamp x < gi_Timestamp it0 + Z.of_nat n * step) pts.
Proof using Hst.
  intros Hfine Hlast Hfuel. pose proof (items_fine_first _ _ Hfine) as (Hok & Hdv & Hsm0).
  destruct Hfine as (lo' & _ & _ & _ & Hsm). set (its := it0 :: items) in *. set (a0 := gi_Timestamp it0) in *.
  apply last_Some in Hlast as [init Hits]. rewrite Hits in Hok, Hsm |- *.
  assert (small (gi_Timestamp lst)) as Hsml by (apply Forall_app in Hsm as [_ Hsm]; by inversion Hsm).
  assert (item_points (init ++ [lst]) = item_points init ++ [mkRRDData (gi_Timestamp lst) (gi_Value lst)]) as Hip
    by (unfold item_points; by rewrite map_app).
  pose proof Hok as [Hs Hf]. rewrite Hip in Hs, Hf. apply sorted_last in Hs. cbn [rd_Timestamp] in Hs.
  assert (a0 <= gi_Timestamp lst /\ (step | gi_Timestamp lst - a0)) as [Hle [q Hq]].
  { apply Forall_app in Hf as [_ Hf]. by inversion Hf. }
  assert ((gi_Timestamp lst - a0) / step = q) as Hdiv by (rewrite Hq; apply Z.div_mul; lia). rewrite Hdiv in Hfuel.
  assert (0 <= q) by nia. unfold cached_points.
  assert (at_index (init ++ [lst]) 0 = Ret it0) as -> by (rewrite <- Hits; done). cbn [rbind].
  assert (at_index (init ++ [lst]) (Z.of_nat (length (init ++ [lst])) - 1) = Ret lst) as ->.
  { replace (Z.of_nat (length (init ++ [lst])) - 1) with (Z.of_nat (length init)) by (rewrite length_app; cbn; lia).
    apply at_index_lookup. rewrite lookup_app_r by lia. by rewrite Nat.sub_diag. }
  cbn [rbind]. fold a0. unfold waiting_points. unfold small in *.
  destruct (String.eqb dsType DERIVE || String.eqb dsType COUNTER).
  - exists (Z.to_nat q). cbn zeta. rewrite <- (walk_spread step) by (lia || by apply rate_list_ok).
    change 0 with (Z.of_nat 0) at 1. split_and!; [|by apply rate_list_ok|].
    + rewrite (rate_points_walk step lo hi (gi_Timestamp lst) Hst Hsml _ _ _ _ _ (Z.to_nat q)); [by rewrite drop_0|lia|cbn; lia|done|by exists q| |lia].
      unfold turns. rewrite Hdiv. destruct (Z.leb_spec (gi_Timestamp lst) a0); [nia|done].
    + apply (rate_list_times (fun t => t < a0 + Z.of_nat (Z.to_nat q) * step)). eapply Forall_impl; [exact Hs|]. intros x Hx. cbn in *. nia.
  - destruct (String.eqb dsType GAUGE); [|exists O; cbn; by repeat constructor].
    exists (S (Z.to_nat q)). cbn zeta. rewrite <- (walk_spread step) by (lia || done).
    change 0 with (Z.of_nat 0) at 1. split_and!; [|done|].
    + rewrite (gauge_points_walk step lo hi (gi_Timestamp lst) Hst Hsml _ _ _ _ _ (S (Z.to_nat q))); [by rewrite drop_0|lia|cbn; lia| |lia].
      unfold turns. rewrite Hdiv. destruct (Z.ltb_spec (gi_Timestamp lst) a0); [nia|done].
    + rewrite Hip. apply Forall_app. split; [|constructor; [cbn; nia|constructor]].
      eapply Forall_impl; [exact Hs|]. intros x Hx. cbn in *. nia.
Qed.
End waiting.

(** ** The merged points *)

Section merged.
Context (step lo hi : Z) (Hst : 0 < step <= 2 ^ 61) (Hlo : small lo) (Hhi : small hi) (Hdlo : (step | lo)).

(** Stored points as [rrdtool.fetch] gives them: one per step, from no later than [lo]. *)
Definition stored_fine (datas : list RRDData) : Prop :=
  exists d0 us, datas = grid step d0 us /\ d0 <= lo /\ (step | d0).

Lemma best_ext w w' s s' t : val w t = val w' t -> val s t = val s' t -> best w s t = best w' s' t.
Proof using Type. unfold best. intros -> ->. done. Qed.

Lemma in_range_true t : lo <= t <= hi -> in_range lo hi t = true.
Proof using Type. intros. unfold in_range. apply andb_true_intro. lia. Qed.

(** A grid overlaid with a later one answers as [best] does. *)
Lemma val_overlaid m0 vs K ws t :
  (step | t - m0) -> m0 <= t ->
  default fnan (val (grid step m0 (overlaid vs ws K)) t) =
  best (grid step (m0 + Z.of_nat K * step) ws) (grid step m0 vs) t.
Proof using Hst.
  intros [k Hk] Hle. assert (0 <= k) by nia. replace t with (m0 + Z.of_nat (Z.to_nat k) * step) by nia.
  set (i := Z.to_nat k). unfold best. rewrite !val_grid by lia. rewrite overlaid_lookup.
  destruct (decide (K <= i)%nat).
  - replace (m0 + Z.of_nat i * step) with (m0 + Z.of_nat K * step + Z.of_nat (i - K) * step) by (rewrite Nat2Z.inj_sub by done; lia). by rewrite val_grid by lia.
  - rewrite val_grid_before by nia. done.
Qed.

Lemma merge_points_best fuel datas a0 ws0 :
  stored_fine datas -> (step | a0) -> small a0 -> (Z.to_nat ((hi - lo) / step) + 1 < fuel)%nat ->
  exists merged, merge_points fuel datas (inside lo hi (grid step a0 ws0)) step lo hi = Ret (Some merged) /\
    times_ok step lo merged /\
    forall t, lo <= t <= hi -> (step | t) -> default fnan (val merged t) = best (grid step a0 ws0) datas t.
Proof using Hst Hlo Hhi Hdlo.
  intros (d0 & us & Hd & Hd0 & Hdd) Hda Ha Hf. unfold small in *.
  destruct (inside_grid step ltac:(lia) lo hi d0 us) as [vs Hvs]; [by apply Z.divide_sub_r|].
  rewrite Z.max_l in Hvs by done. rewrite <- Hd in Hvs.
  destruct (inside_grid step ltac:(lia) lo hi a0 ws0) as [ws Hws]; [by apply Z.divide_sub_r|].
  assert (step | Z.max lo a0 - lo) as [q Hq] by (apply Z.divide_sub_r; [destruct (Z.max_spec lo a0) as [[_ ->]|[_ ->]]; done|done]).
  assert (forall t, lo <= t <= hi -> best (inside lo hi (grid step a0 ws0)) (inside lo hi datas) t = best (grid step a0 ws0) datas t) as Hin.
  { intros t Ht. apply best_ext; by rewrite val_inside, in_range_true. }
  destruct ws as [|w ws].
  { exists (inside lo hi datas). rewrite Hws. split; [done|]. split; [rewrite Hvs; apply grid_times_ok; [lia|lia|exists 0; lia]|].
    intros t Ht _. rewrite <- Hin, Hws by done. done. }
  assert (Z.max lo a0 <= hi) as Hc0.
  { assert (mkRRDData (Z.max lo a0) w ∈ inside lo hi (grid step a0 ws0)) as Hel by (rewrite Hws, grid_cons; left).
    unfold inside in Hel. apply list_elem_of_In, filter_In in Hel as [_ Hr]. unfold in_range in Hr. cbn in Hr. lia. }
  assert (0 <= q) by nia. assert (Z.max lo a0 = lo + Z.of_nat (Z.to_nat q) * step) as Hmax by nia.
  assert (q <= (hi - lo) / step) by (apply Z.div_le_lower_bound; lia).
  destruct vs as [|v vs].
  - exists (grid step (Z.max lo a0) (overlaid [] (w :: ws) 0)). rewrite Hws. split_and!.
    + replace (grid step (Z.max lo a0) (w :: ws)) with (grid step (Z.max lo a0 + Z.of_nat 0 * step) (w :: ws)) by (f_equal; lia).
      apply merge_points_grid; [lia|done|done|lia|lia|lia|done|lia].
    + apply grid_times_ok; [lia|lia|]. exists q. done.
    + intros t Ht Hdt. rewrite <- Hin, Hvs, Hws by done. destruct (Z.leb_spec (Z.max lo a0) t) as [Hge|Hlt].
      * rewrite val_overlaid; [|replace (t - Z.max lo a0) with (t - lo - q * step) by lia; apply Z.divide_sub_r; [by apply Z.divide_sub_r|by exists q]|done].
        apply best_ext; [f_equal; f_equal; lia|done].
      * unfold best. rewrite !val_grid_before by lia. done.
  - exists (grid step lo (overlaid (v :: vs) (w :: ws) (Z.to_nat q))). rewrite Hws, Hmax. split_and!.
    + apply merge_points_grid; [lia|done|done|lia|lia|lia|done|lia].
    + apply grid_times_ok; [lia|lia|exists 0; lia].
    + intros t Ht Hdt. rewrite <- Hin, Hvs, Hws, Hmax by done. apply val_overlaid; [by apply Z.divide_sub_r|lia].
Qed.
End merged.

(** * The theorem *)

(** How many points the answer has. *)
Definition answer_size (dsType : string) (step lo hi : Z) : nat :=
  Z.to_nat ((hi - lo) / step + (if String.eqb dsType GAUGE then 1 else 0)).

(** C2: Where a query merges waiting points into stored ones, it returns (no index out of
    range, no loop without end), one point for each step of the range, and the
    value at a time is the waiting point's where that is a number, else the
    stored one's, else NaN.  The waiting points are, as the transfer sends them,
    on the grid of the step and in order, the stored ones and the range on it. *)
Theorem query_merges (fuel : nat) (dsType : string) (it0 lst : GraphItem) (items : list GraphItem) (datas : list RRDData) (step lo hi : Z) :
  0 < step <= 2 ^ 61 -> small lo -> small hi -> (step | lo) -> (step | hi) -> lo < hi ->
  items_fine step (it0 :: items) -> last (it0 :: items) = Some lst -> stored_fine step lo datas ->
  (Z.to_nat ((gi_Timestamp lst - gi_Timestamp it0) / step) + 1 < fuel)%nat ->
  (Z.to_nat ((hi - lo) / step) + 1 < fuel)%nat -> (hi - lo) / step < 2 ^ 45 ->
  merge_answer fuel dsType (it0 :: items) datas step lo hi =
  Ret (Some (map (fun i => let t := lo + Z.of_nat i * step in
                           mkRRDData t (best (waiting_points dsType step (it0 :: items)) datas t))
                 (seq 0 (answer_size dsType step lo hi)))).
Proof.
  intros Hst Hlo Hhi Hdlo Hdhi Hlt Hitems Hlast Hdatas Hf1 Hf2 Hsz.
  destruct (cached_points_are step Hst fuel dsType it0 items lo hi lst) as (n & Hc & Hok & Hcov); [done..|].
  pose proof (items_fine_first step Hst _ _ Hitems) as (_ & Hda & Hsa). unfold merge_answer. rewrite Hc. cbn [rbind].
  rewrite spread_grid. destruct (merge_points_best step lo hi Hst Hlo Hhi Hdlo fuel datas (gi_Timestamp it0)
    (map (fun i => default fnan (val (waiting_points dsType step (it0 :: items)) (gi_Timestamp it0 + Z.of_nat i * step))) (seq 0 n)))
    as (merged & -> & Hm & Hval); [done..|]. cbn [rbind]. unfold small in *.
  rewrite (wrap_small (hi - lo)) by lia. unfold go_quot. destruct (Z.eqb_spec step 0); [lia|]. cbn [rbind].
  assert (0 <= (hi - lo) / step) by (apply Z.div_pos; lia).
  rewrite Z.quot_div_nonneg by lia. rewrite (wrap_small ((hi - lo) / step)) by lia.
  assert ((if String.eqb dsType GAUGE then (hi - lo) / step +! 1 else (hi - lo) / step) =
          (hi - lo) / step + (if String.eqb dsType GAUGE then 1 else 0)) as ->
    by (destruct (String.eqb dsType GAUGE); [apply wrap_small; lia|lia]).
  fold (answer_size dsType step lo hi). set (len := (hi - lo) / step + _).
  assert (Hlen : 0 <= len <= (hi - lo) / step + 1) by (unfold len; destruct (String.eqb dsType GAUGE); lia).
  assert (step * ((hi - lo) / step) = hi - lo) as Hmul.
  { destruct (Z.divide_sub_r _ _ _ Hdhi Hdlo) as [k Hk]. rewrite Hk, Z.div_mul by lia. lia. }
  replace (negb (make_ok len)) with false by (symmetry; unfold make_ok; lia).
  change 0 with (Z.of_nat 0) at 1. fold (answer_size dsType step lo hi). assert (Z.of_nat (answer_size dsType step lo hi) = len) as Has by (unfold answer_size; fold len; lia).
  rewrite (format_points_walk step ltac:(lia)) by (nia || lia). rewrite drop_0. cbn [rbind].
  rewrite walk_spread by (lia || done). unfold spread. do 2 f_equal. apply map_ext_in. intros i Hi. apply in_seq in Hi.
  cbn zeta. f_equal. set (t := lo + Z.of_nat i * step).
  assert (lo <= t <= hi) by (unfold t; assert (Z.of_nat i * step <= (hi - lo) / step * step) by (apply Z.mul_le_mono_nonneg_r; lia); nia).
  assert (step | t) by (unfold t; apply Z.divide_add_r; [done|by exists (Z.of_nat i)]).
  rewrite Hval by done. rewrite <- spread_grid. apply best_spread; [lia|done|done|by apply Z.divide_sub_r].
Qed.

(** A gauge with three stored points, the last of them not a number, and two waiting ones. *)
Definition gauge_item (ts : Z) (v : Z) : GraphItem := mkGraphItem "h" "m" ∅ (f64_of_Z v) ts GAUGE 60 120 "U" "U".
Definition stored_three : list RRDData := grid 60 60 [f64_of_Z 1; f64_of_Z 2; fnan; fnan].

Lemma query_merges_witness :
  merge_answer 100 GAUGE [gauge_item 240 7; gauge_item 360 8] stored_three 60 120 360 =
  Ret (Some [mkRRDData 120 (f64_of_Z 2); mkRRDData 180 fnan; mkRRDData 240 (f64_of_Z 7); mkRRDData 300 fnan; mkRRDData 360 (f64_of_Z 8)]).
Proof.
  rewrite (query_merges 100 GAUGE (gauge_item 240 7) (gauge_item 360 8)); [reflexivity|lia|split; lia|split; lia|by exists 2|by exists 6|lia| |done| |vm_compute; lia|vm_compute; lia|reflexivity].
  - exists 240. split_and!; [|by exists 4|lia|by repeat constructor].
    split; [repeat constructor|]. repeat constructor; try (cbn; lia); [by exists 0|by exists 2].
  - exists 60, [f64_of_Z 1; f64_of_Z 2; fnan; fnan]. split_and!; [done|lia|by exists 1].
Defined.
