(* ===== verification/GraphMigrate.v ===== *)
(** The migration between graphs ([modules/graph/rrdtool/migrate.go] with the
    tasks of [sync_disk.go] and [rrdtool.go] it uses, and [GetRrd] of
    [api/graph.go]): a graph that gets a series it has no file of asks the
    owner of the series on the old ring for the file.

    The state is the local graph, the graphs of the old cluster by address, the
    channels of the tasks and the workers.  A worker runs up to its next call
    of the network or of the disk and its place in the code is its [pc], so
    that workers, reports and flushes interleave.  How a call ends and how late
    a flush is come from [MEnv] at the current tick. *)
From S2P Require Export GraphApi HashRing.
From Stdlib Require Import Ascii.
Local Open Scope string_scope.

(** * Tasks of the disk ([sync_disk.go], [rrdtool.go], [utils.go]) *)

(** [strconv.ParseInt(s, 16, 64)]. *)
Definition hex_val (a : ascii) : option Z :=
  let n := byte_of a in
  if ((48 <=? n) && (n <=? 57))%Z then Some (n - 48)%Z
  else if ((97 <=? n) && (n <=? 102))%Z then Some (n - 87)%Z
  else if ((65 <=? n) && (n <=? 70))%Z then Some (n - 55)%Z
  else None.
Fixpoint hex_digits_val (s : string) (acc : Z) : option Z :=
  match s with "" => Some acc | String a s => d ← hex_val a; hex_digits_val s (acc * 16 + d)%Z end.
Definition parse_hex (s : string) : option Z :=
  v ← match s with
      | "" => None
      | String "+" t => if String.eqb t "" then None else hex_digits_val t 0
      | String "-" t => if String.eqb t "" then None else Z.opp <$> hex_digits_val t 0
      | _ => hex_digits_val s 0
      end;
  if ((- 2 ^ 63 <=? v) && (v <? 2 ^ 63))%Z then Some v else None.
(** The number of digits of [strconv.FormatInt(n, 16)]; sixteen are enough for an [int64]. *)
Fixpoint hex_length (fuel : nat) (n : Z) : Z :=
  match fuel with O => 0 | S fuel => if (n <? 16)%Z then 1 else 1 + hex_length fuel (Z.shiftr n 4) end.

(** Source: modules/graph/g/cfg.go, lines 104-110. The check of the number of io workers, and how much of a checksum chooses one. Symbol: ParseConfig. *)
Definition FirstBytesSize_of (IOWorkerNum : Z) : option Z :=
  if (IOWorkerNum =? 0)%Z || negb (Z.land IOWorkerNum (IOWorkerNum - 1) =? 0)%Z then None
  else Some (if (IOWorkerNum <? 0)%Z then 1 + hex_length 16 (- IOWorkerNum) else hex_length 16 IOWorkerNum)%Z.

(** Source: modules/graph/rrdtool/utils.go, getIndex. *)
Definition getIndex (IOWorkerNum FirstBytesSize : Z) (md5 : string) : res Z :=
  if (IOWorkerNum <=? 1)%Z || (Z.of_nat (String.length md5) <? FirstBytesSize)%Z || (FirstBytesSize =? 0)%Z then Ret 0%Z
  else
    let! p := slice md5 0 FirstBytesSize in
    match parse_hex p with
    | None => Ret 0%Z
    | Some m => go_rem m IOWorkerNum
    end.

Section disk.
Context (env : GEnv).

(** Source: modules/graph/rrdtool/rrdtool.go, ReadFile. On an error the text of it. *)
Definition ReadFile (filename : string) : G (list GraphItem + string) :=
  do! f := gets (fun s => gs_disk s !! filename) in
  match f with
  | None => ret (inr ("open " ++s filename ++s ": no such file or directory"))
  | Some body =>
      do! ok := glook (g_read env) in
      ret (if ok : bool then inl body else inr ("read " ++s filename ++s ": input/output error"))
  end.

(** Source: modules/graph/rrdtool/sync_disk.go, writeFile. The file must not exist. *)
Definition writeFile (filename : string) (data : list GraphItem) : G (option os_err) :=
  do! ex := IsRrdFileExist filename in
  if ex : bool then ret (Some ErrExist)
  else
    do! r := glook (g_write env) in
    match r with
    | OpenFailed e => ret (Some e)
    | WriteDone =>
        do! _ := modify (fun s => set_disk (<[filename := data]> (gs_disk s)) s) in ret None
    | WriteStopped rest e =>
        do! _ := modify (fun s => set_disk (<[filename := rest]> (gs_disk s)) s) in ret (Some e)
    end.

(** Source: modules/graph/rrdtool/sync_disk.go, lines 106-114. What is sent on [done]: when the directory cannot be made, its error and then that of the write. Symbol: ioWorker. *)
Definition io_write (filename : string) (body : list GraphItem) : G (list (option os_err)) :=
  do! d := glook (g_mkdir env) in
  do! w := writeFile filename body in
  ret (match d with Some e => [Some e; w] | None => [w] end).
End disk.

(** * The old owner of a series ([api/graph.go]) *)

(** Source: modules/graph/api/graph.go, Graph.GetRrd. The body of the file, or the text of the error. *)
Definition GetRrd (env : GEnv) (cfg : GConfig) (key : string) : G (list GraphItem + string) :=
  let '(md5, dsType, step, err) := SplitRrdCacheKey key in
  if err then ret (inr "split rrd cache key error")
  else
    do! filename := lift (RrdFileName (gc_Storage cfg) md5 dsType step) in
    do! items := items_update (fun t => GM_PopAll t key) in
    do! _ := (if (0 <? length items)%nat then do! _ := FlushFile env filename md5 items in skip else skip) in
    ReadFile env filename.

(** * State *)

Definition NET_TASK_M_SEND : Z := 1.
Definition NET_TASK_M_QUERY : Z := 2.
Definition NET_TASK_M_PULL : Z := 3.

(** Source: modules/graph/rrdtool/migrate.go, type Net_task_t. [nt_Done] tells whether somebody waits for the result. *)
Record Net_task_t := mkTask { nt_Method : Z; nt_Key : string; nt_Done : bool; nt_Args : option GraphQueryParam }.

(** The errors a task can end with. *)
Inductive net_err :=
  | ENotFound | ETimeout | EShutdown | EBroken | EServer (text : string) | EWrite (e : os_err) | EMethod.
(** [os.IsNotExist]: the text of an error a server sent is not looked at. *)
Definition IsNotExist (e : net_err) : bool := match e with EWrite ErrNotExist => true | _ => false end.

(** How a call ends: answered, given up after the timeout or broken off (having
    [ran] on the server or not), or refused because the client is shut down,
    when so many dials fail before one works. *)
Inductive fate := Answered | TimedOut (ran : bool) | Broken (ran : bool) | Refused (failed : nat).

(** Where a worker is: before a task or before a call or write of one. *)
Inductive pc :=
  | Idle
  | InSend (task : Net_task_t) (flag : Z) (items : list GraphItem) (i : nat)
  | InFetch (task : Net_task_t) (flag : Z) (filename : string) (i : nat)
  | InWrite (task : Net_task_t) (flag : Z) (filename : string) (body : list GraphItem)
  | InQuery (task : Net_task_t) (args : GraphQueryParam) (i : nat).

(** Source: modules/graph/rrdtool/migrate.go, lines 136-150. A worker: its channel, the address of its client and its place. Symbol: migrate_start. *)
Record net_worker := mkWorker { wk_node : string; wk_addr : string; wk_pc : pc }.

(** Source: modules/graph/rrdtool/migrate.go, lines 65-71. With the graph itself, the graphs behind the clients, the answered calls of [Graph.Send] and the results of the tasks. Symbol: var. *)
Record MigState := mkMig {
  mg_local : GraphState;
  mg_remote : gmap string GraphState;
  mg_ring : Consistent;
  mg_tasks : gmap string (list Net_task_t);
  mg_workers : list net_worker;
  mg_timeout : bool;
  mg_stat : gmap string Z;
  mg_sent : list (string * list GraphItem);
  mg_results : list (Net_task_t * option net_err * list RRDData);
  mg_tick : nat }.

Definition w_set_local v w := mkMig v (mg_remote w) (mg_ring w) (mg_tasks w) (mg_workers w) (mg_timeout w) (mg_stat w) (mg_sent w) (mg_results w) (mg_tick w).
Definition w_set_remote v w := mkMig (mg_local w) v (mg_ring w) (mg_tasks w) (mg_workers w) (mg_timeout w) (mg_stat w) (mg_sent w) (mg_results w) (mg_tick w).
Definition w_set_tasks v w := mkMig (mg_local w) (mg_remote w) (mg_ring w) v (mg_workers w) (mg_timeout w) (mg_stat w) (mg_sent w) (mg_results w) (mg_tick w).
Definition w_set_workers v w := mkMig (mg_local w) (mg_remote w) (mg_ring w) (mg_tasks w) v (mg_timeout w) (mg_stat w) (mg_sent w) (mg_results w) (mg_tick w).
Definition w_set_timeout v w := mkMig (mg_local w) (mg_remote w) (mg_ring w) (mg_tasks w) (mg_workers w) v (mg_stat w) (mg_sent w) (mg_results w) (mg_tick w).
Definition w_set_stat v w := mkMig (mg_local w) (mg_remote w) (mg_ring w) (mg_tasks w) (mg_workers w) (mg_timeout w) v (mg_sent w) (mg_results w) (mg_tick w).
Definition w_add_sent x w := mkMig (mg_local w) (mg_remote w) (mg_ring w) (mg_tasks w) (mg_workers w) (mg_timeout w) (mg_stat w) (mg_sent w ++ [x]) (mg_results w) (mg_tick w).
Definition w_add_result x w := mkMig (mg_local w) (mg_remote w) (mg_ring w) (mg_tasks w) (mg_workers w) (mg_timeout w) (mg_stat w) (mg_sent w) (mg_results w ++ [x]) (mg_tick w).
Definition w_next w := mkMig (mg_local w) (mg_remote w) (mg_ring w) (mg_tasks w) (mg_workers w) (mg_timeout w) (mg_stat w) (mg_sent w) (mg_results w) (S (mg_tick w)).

(** The oracles and the settings, of this graph and of the old ones by address. *)
Record MEnv := mkMEnv {
  m_fate : nat -> fate;
  m_late : nat -> bool;
  m_fuel : nat;
  m_genv : GEnv;
  m_gcfg : GConfig;
  m_remote_env : string -> GEnv;
  m_remote_cfg : string -> GConfig }.

Notation W := (M MigState).
Definition mlook {A} (f : nat -> A) : W A := fun w => Ret (f (mg_tick w), w_next w).
Definition bump (name : string) : W unit := modify (fun w => w_set_stat (<[name := (default 0 (mg_stat w !! name) + 1)%Z]> (mg_stat w)) w).

(** A handler of the local graph, or of the graph at an address. *)
Definition on_local {A} (m : G A) : W A := fun w =>
  match m (mg_local w) with Ret (a, g) => Ret (a, w_set_local g w) | Panic p => Panic p end.
Definition on_remote {A} (addr : string) (m : G A) : W A := fun w =>
  match mg_remote w !! addr with
  | None => Panic NilDeref
  | Some g => match m g with Ret (a, g) => Ret (a, w_set_remote (<[addr := g]> (mg_remote w)) w) | Panic p => Panic p end
  end.

Section migrate.
Context (env : MEnv).

(** * Calls and their tasks ([migrate.go]) *)

(** Source: modules/graph/rrdtool/migrate.go, reconnection. [failed] dials fail before one works. *)
Definition reconnection (addr : string) (failed : nat) : W unit :=
  do! _ := bump "CONN_S_ERR" in
  do! _ := bump "CONN_S_DIAL" in
  forM (replicate failed tt) (fun _ => bump "CONN_S_DIAL").

(** Source: modules/graph/rrdtool/migrate.go, rpc_call. With the number of dials that fail when the client is shut down. *)
Definition rpc_call {A} (addr : string) (handler : G (A + string)) : W (A + net_err * nat) :=
  do! f := mlook (m_fate env) in
  match f with
  | Answered =>
      do! r := on_remote addr handler in
      ret (match r with inl a => inl a | inr text => inr (EServer text, 0) end)
  | TimedOut ran =>
      do! _ := (if ran : bool then do! _ := on_remote addr handler in skip else skip) in ret (inr (ETimeout, 0))
  | Broken ran =>
      do! _ := (if ran : bool then do! _ := on_remote addr handler in skip else skip) in ret (inr (EBroken, 0))
  | Refused failed => ret (inr (EShutdown, failed))
  end.

(** [if err == rpc.ErrShutdown { reconnection(client, addr) }]. *)
Definition after_error (addr : string) (e : net_err) (failed : nat) : W unit :=
  match e with EShutdown => reconnection addr failed | _ => skip end.

(** The place of worker [id]. *)
Definition goto (id : nat) (p : pc) : W unit :=
  modify (fun w => w_set_workers (alter (fun k => mkWorker (wk_node k) (wk_addr k) p) id (mg_workers w)) w).

(** Source: modules/graph/rrdtool/migrate.go, lines 208-210. The end of a task: who waits gets the error. With the count of the files pulled, [rrdtool.go], line 286. Symbol: net_task_worker. *)
Definition task_done (id : nat) (task : Net_task_t) (err : option net_err) (values : list RRDData) : W unit :=
  do! _ := (if nt_Done task then modify (w_add_result (task, err, values)) else skip) in
  do! _ := (if nt_Done task && (nt_Method task =? NET_TASK_M_PULL)%Z && bool_decide (err = None) then bump "net_counter" else skip) in
  goto id Idle.

(** The flag of a series, [None] when the series is not there, and setting it. *)
Definition get_flag (key : string) : W (option Z) := on_local (items_read (fun t => GM_GetFlag t key)).
Definition set_flag (key : string) (flag : Z) : W unit :=
  do! _ := on_local (items_update (fun t => GM_SetFlag t key flag)) in skip.

(** Source: modules/graph/rrdtool/migrate.go, lines 161-168. What the worker counts after [send_data], here and at lines 180-186. Symbol: net_task_worker. *)
Definition sent_task (id : nat) (task : Net_task_t) (err : option net_err) : W unit :=
  do! _ := bump (match err with Some _ => "SEND_S_ERR" | None => "SEND_S_SUCCESS" end) in
  task_done id task err [].

(** Source: modules/graph/rrdtool/migrate.go, lines 295-298. The way out of [send_data]. Symbol: send_data. *)
Definition send_out (id : nat) (task : Net_task_t) (flag : Z) (err : option net_err) : W unit :=
  do! _ := set_flag (nt_Key task) (Z.land flag (Z.lnot GRAPH_F_SENDING)) in
  sent_task id task err.

(** Source: modules/graph/rrdtool/migrate.go, lines 258-279. [send_data] up to its first call. Symbol: send_data. *)
Definition send_begin (id : nat) (task : Net_task_t) : W unit :=
  let key := nt_Key task in
  do! flag := get_flag key in
  match flag with
  | None => sent_task id task (Some ENotFound)
  | Some flag =>
      do! _ := set_flag key (Z.lor flag GRAPH_F_SENDING) in
      do! items := on_local (items_update (fun t => GM_PopAll t key)) in
      if (length items =? 0)%nat then send_out id task flag None
      else goto id (InSend task flag items 0)
  end.

(** Source: modules/graph/rrdtool/migrate.go, lines 281-293. One call of [Graph.Send]; the points are put back after the third failure. Symbol: send_data. *)
Definition send_call (id : nat) (addr : string) (task : Net_task_t) (flag : Z) (items : list GraphItem) (i : nat) : W unit :=
  do! r := rpc_call addr (do! _ := Graph_Send (m_remote_env env addr) (m_remote_cfg env addr) (map Some items) in ret (inl tt)) in
  match r with
  | inl _ =>
      do! _ := modify (w_add_sent (addr, items)) in
      send_out id task flag None
  | inr (e, failed) =>
      do! _ := after_error addr e failed in
      if (i <? 2)%nat then goto id (InSend task flag items (S i))
      else
        do! _ := on_local (items_update (fun t => GM_PushAll t (nt_Key task) items)) in
        send_out id task flag (Some e)
  end.

(** Source: modules/graph/rrdtool/migrate.go, lines 188-204. What the worker does after [fetch_rrd]. Symbol: net_task_worker. *)
Definition fetched_task (id : nat) (task : Net_task_t) (err : option net_err) : W unit :=
  do! _ := (match err with
            | Some e =>
                if IsNotExist e then
                  do! _ := bump "FETCH_S_ISNOTEXIST" in
                  do! _ := set_flag (nt_Key task) 0 in
                  on_local (CommitByKey (m_genv env) (m_gcfg env) (nt_Key task))
                else bump "FETCH_S_ERR"
            | None => bump "FETCH_S_SUCCESS"
            end) in
  task_done id task err [].

(** Source: modules/graph/rrdtool/migrate.go, lines 351-354. The way out of [fetch_rrd]. Symbol: fetch_rrd. *)
Definition fetch_out (id : nat) (task : Net_task_t) (flag : Z) (err : option net_err) : W unit :=
  do! _ := set_flag (nt_Key task) (Z.land flag (Z.lnot GRAPH_F_FETCHING)) in
  fetched_task id task err.

(** Source: modules/graph/rrdtool/migrate.go, lines 302-322. [fetch_rrd] up to its first call. Symbol: fetch_rrd. *)
Definition fetch_begin (id : nat) (task : Net_task_t) : W unit :=
  let key := nt_Key task in
  do! flag := get_flag key in
  match flag with
  | None => fetched_task id task (Some ENotFound)
  | Some flag =>
      do! _ := set_flag key (Z.lor flag GRAPH_F_FETCHING) in
      let '(md5, dsType, step, _) := SplitRrdCacheKey key in
      do! filename := lift (RrdFileName (gc_Storage (m_gcfg env)) md5 dsType step) in
      goto id (InFetch task flag filename 0)
  end.

(** Source: modules/graph/rrdtool/migrate.go, lines 324-350. One call of [Graph.GetRrd]. Symbol: fetch_rrd. *)
Definition fetch_call (id : nat) (addr : string) (task : Net_task_t) (flag : Z) (filename : string) (i : nat) : W unit :=
  do! r := rpc_call addr (GetRrd (m_remote_env env addr) (m_remote_cfg env addr) (nt_Key task)) in
  match r with
  | inl body => goto id (InWrite task flag filename body)
  | inr (e, failed) =>
      do! _ := after_error addr e failed in
      if (i <? 2)%nat then goto id (InFetch task flag filename (S i)) else fetch_out id task flag (Some e)
  end.

(** Source: modules/graph/rrdtool/migrate.go, lines 328-343. The file is written through the io worker; the first error is taken. Symbol: fetch_rrd. *)
Definition fetch_write (id : nat) (task : Net_task_t) (flag : Z) (filename : string) (body : list GraphItem) : W unit :=
  do! results := on_local (io_write (m_genv env) filename body) in
  match results with
  | Some e :: _ => fetch_out id task flag (Some (EWrite e))
  | _ => fetch_out id task (Z.land flag (Z.lnot GRAPH_F_MISS)) None
  end.

(** Source: modules/graph/rrdtool/migrate.go, lines 169-176. What the worker counts after [query_data]. Symbol: net_task_worker. *)
Definition queried_task (id : nat) (task : Net_task_t) (err : option net_err) (values : list RRDData) : W unit :=
  do! _ := bump (match err with Some _ => "QUERY_S_ERR" | None => "QUERY_S_SUCCESS" end) in
  task_done id task err values.

(** Source: modules/graph/rrdtool/migrate.go, query_data. One call of [Graph.Query]. *)
Definition query_call (id : nat) (addr : string) (task : Net_task_t) (args : GraphQueryParam) (i : nat) : W unit :=
  do! r := rpc_call addr (do! r := Query (m_remote_env env addr) (m_remote_cfg env addr) (m_fuel env) args in
                          ret (inl (match r with Some r => qr_Values r | None => [] end))) in
  match r with
  | inl values => queried_task id task None values
  | inr (e, failed) =>
      do! _ := after_error addr e failed in
      if (i <? 2)%nat then goto id (InQuery task args (S i)) else queried_task id task (Some e) []
  end.

(** Source: modules/graph/rrdtool/migrate.go, lines 158-207. A task by its method. Symbol: net_task_worker. *)
Definition start_task (id : nat) (task : Net_task_t) : W unit :=
  if (nt_Method task =? NET_TASK_M_SEND)%Z then send_begin id task
  else if (nt_Method task =? NET_TASK_M_QUERY)%Z then
    match nt_Args task with
    | Some args => goto id (InQuery task args 0)
    | None => queried_task id task (Some (EServer "")) []
    end
  else if (nt_Method task =? NET_TASK_M_PULL)%Z then
    do! busy := gets mg_timeout in
    if busy : bool then send_begin id task else fetch_begin id task
  else task_done id task (Some EMethod) [].

(** Source: modules/graph/rrdtool/migrate.go, net_task_worker. One step of worker [id]. *)
Definition net_task_worker (id : nat) : W unit :=
  do! k := gets (fun w => mg_workers w !! id) in
  match k with
  | None => skip
  | Some k =>
      match wk_pc k with
      | Idle =>
          do! tasks := gets (fun w => default [] (mg_tasks w !! wk_node k)) in
          match tasks with
          | [] => skip
          | task :: tasks =>
              do! _ := modify (fun w => w_set_tasks (<[wk_node k := tasks]> (mg_tasks w)) w) in
              start_task id task
          end
      | InSend task flag items i => send_call id (wk_addr k) task flag items i
      | InFetch task flag filename i => fetch_call id (wk_addr k) task flag filename i
      | InWrite task flag filename body => fetch_write id task flag filename body
      | InQuery task args i => query_call id (wk_addr k) task args i
      end
  end.

(** * Asking for a series ([rrdtool.go], [api/graph.go]) *)

(** Put a task on the channel of a node, which holds 16; [false] when the sender has to wait. *)
Definition push_task (node : string) (task : Net_task_t) : W bool :=
  do! q := gets (fun w => mg_tasks w !! node) in
  match q with
  | None => ret false
  | Some q =>
      if (length q <? 16)%nat then
        do! _ := modify (fun w => w_set_tasks (<[node := (q ++ [task])%list]> (mg_tasks w)) w) in ret true
      else ret false
  end.

(** Source: modules/graph/rrdtool/rrdtool.go, PullByKey. [false] when the channel is full. *)
Definition PullByKey (key : string) : W bool :=
  do! item := on_local (items_read (fun t => GM_First t key)) in
  match item with
  | None => ret true
  | Some item =>
      do! ring := gets mg_ring in
      do! node := lift (ring_Get (GraphItem_PrimaryKey item) ring) in
      match node with
      | None => ret true
      | Some node => push_task node (mkTask NET_TASK_M_PULL key true None)
      end
  end.

(** Source: modules/graph/rrdtool/rrdtool.go, lines 301-315. The loop of [FlushRRD] for one key. Symbol: FlushRRD. *)
Definition flush_key (key : string) (force : bool) : W bool :=
  do! flag := get_flag key in
  let flag := default 0%Z flag in
  if negb force && gc_Migrate (m_gcfg env) && negb (Z.land flag GRAPH_F_MISS =? 0)%Z then
    do! late := mlook (m_late env) in
    do! _ := (if late : bool then modify (w_set_timeout true) else skip) in
    PullByKey key
  else
    do! due := (if force then ret true else on_local (shouldFlush (m_genv env) key)) in
    do! _ := (if due : bool then on_local (CommitByKey (m_genv env) (m_gcfg env) key) else skip) in
    ret true.

(** Source: modules/graph/api/graph.go, lines 168-176. The question of [Graph.Query] about a series that is elsewhere. Symbol: Graph.Query. *)
Definition ask_remote (param : GraphQueryParam) : W bool :=
  do! ring := gets mg_ring in
  do! node := lift (ring_Get (qp_Endpoint param ++s "/" ++s qp_Counter param) ring) in
  push_task (default "" node) (mkTask NET_TASK_M_QUERY "" true (Some param)).

(** * Start ([migrate.go]) *)

(** Source: modules/graph/rrdtool/migrate.go, migrate_start. [None] when a dial fails, which ends the process; [dial] says whether the [i]-th dial to an address works. *)
Definition migrate_start (cluster : gmap string string) (Replicas : Z) (Concurrency : nat) (dial : string -> nat -> bool)
    (local : GraphState) (remote : gmap string GraphState) : res (option MigState) :=
  let w := mkMig local remote ring_New ∅ [] false ∅ [] [] 0 in
  if negb (gc_Migrate (m_gcfg env)) then Ret (Some w)
  else
    let ring := mkConsistent (circle ring_New) (members_of ring_New) (sortedHashes ring_New) Replicas (members_count ring_New) in
    fold_res (fun w node =>
      match w with
      | None => Ret None
      | Some w =>
          let addr := default "" (cluster !! node) in
          let! ring := ring_add node (mg_ring w) in
          if forallb (dial addr) (seq 0 Concurrency) then
            Ret (Some (mkMig (mg_local w) (mg_remote w) ring (<[node := []]> (mg_tasks w))
              (mg_workers w ++ replicate Concurrency (mkWorker node addr Idle)) (mg_timeout w) (mg_stat w) (mg_sent w) (mg_results w) (mg_tick w)))
          else Ret None
      end)
      (Some (mkMig local remote ring ∅ [] false ∅ [] [] 0)) (sort_strings (map_to_list cluster).*1).
End migrate.
