(* ===== verification/GraphMigrateThms.v ===== *)
(** Theorems on the migration between graphs: no point is lost while workers,
    reports and flushes interleave ([migration_loses_nothing]), a pull brings
    the whole series ([pull_brings_series]), and what becomes of a series that
    the old graph does not have ([new_series_never_flushed]). *)
From S2P Require Export GraphMigrate GraphProps.
From Stdlib Require Import Ascii.
Local Open Scope string_scope.

(** * Runs *)

(** One step of the graph: a report, the start of a [FlushRRD], its loop for one
    key, a query about a series that is elsewhere, and a step of a worker. *)
Inductive mig_op :=
  | OpReport (items : list (option GraphItem))
  | OpFlushBegin
  | OpFlushKey (key : string) (force : bool)
  | OpAsk (param : GraphQueryParam)
  | OpWork (id : nat).

Definition run_mig_op (env : MEnv) (op : mig_op) : W unit :=
  match op with
  | OpReport items => on_local (Graph_Send (m_genv env) (m_gcfg env) items)
  | OpFlushBegin => modify (w_set_timeout false)
  | OpFlushKey key force => do! _ := flush_key env key force in skip
  | OpAsk param => do! _ := ask_remote param in skip
  | OpWork id => net_task_worker env id
  end.
Definition mig_run (env : MEnv) (ops : list mig_op) : W unit := forM ops (run_mig_op env).

(** * What a graph keeps of the points it took *)

(** A value rrdlite cannot hold. *)
Definition unstorable (p : GraphItem) : Prop := update_points [p] = [].
(** The point is in the file of the series. *)
Definition in_file (cfg : GConfig) (s : GraphState) (key : string) (p : GraphItem) : Prop :=
  exists md5 ds step filename l, SplitRrdCacheKey key = (md5, ds, step, false) /\
    RrdFileName (gc_Storage cfg) md5 ds step = Ret filename /\ gs_disk s !! filename = Some l /\ p ∈ l.
Definition stored (cfg : GConfig) (s : GraphState) (key : string) (p : GraphItem) : Prop :=
  p ∈ waiting s key \/ in_file cfg s key p \/ unstorable p.

(** rrdlite creates and updates the files. *)
Definition disk_works (env : GEnv) : Prop := (forall n, g_create env n = true) /\ forall n, g_update env n = true.

(** The files only grow, the waiting points are the same. *)
Definition files_grow (s s' : GraphState) : Prop :=
  gs_items s = gs_items s' /\
  forall f l, gs_disk s !! f = Some l -> exists l', gs_disk s' !! f = Some l' /\ forall p, p ∈ l -> p ∈ l'.
#[export] Instance files_grow_pre : PreOrder files_grow.
Proof.
  split; [split; [done|]; eauto|]. intros s1 s2 s3 [H1 F1] [H2 F2]. split; [congruence|]. intros f l Hl.
  destruct (F1 f l Hl) as (l2 & Hl2 & Hs2). destruct (F2 f l2 Hl2) as (l3 & Hl3 & Hs3). eauto.
Qed.
Lemma glook_grows {A} (f : nat -> A) : moves files_grow (glook f).
Proof. intros s a s' [= <- <-]. split; [done|]. cbn. eauto. Qed.

(** A graph that forgets no series and keeps what it stored. *)
Definition grows (cfg : GConfig) (s s' : GraphState) : Prop :=
  gm_ok (gs_items s) ->
  gm_ok (gs_items s') /\ (forall k, is_Some (view (gs_items s) k) -> is_Some (view (gs_items s') k)) /\
  forall k p, stored cfg s k p -> stored cfg s' k p.
#[export] Instance grows_pre cfg : PreOrder (grows cfg).
Proof.
  split; [done|]. intros s1 s2 s3 H12 H23 Hok. destruct (H12 Hok) as (H2 & V12 & S12). destruct (H23 H2) as (H3 & V23 & S23).
  split_and!; eauto.
Qed.

Lemma files_grow_grows cfg s s' : files_grow s s' -> grows cfg s s'.
Proof.
  intros [Hi Hf] Hok. rewrite <- Hi. split; [done|]. split; [done|]. intros k p. unfold stored, waiting, in_file. rewrite <- Hi.
  intros [H|[(md5 & ds & step & f & l & H1 & H2 & H3 & H4)|H]]; [by left| |by right; right].
  destruct (Hf f l H3) as (l' & H3' & Hsub). right. left. exists md5, ds, step, f, l'. eauto.
Qed.
Lemma moves_grows {A} cfg (m : G A) : moves files_grow m -> moves (grows cfg) m.
Proof. intros H s a s' E. by eapply files_grow_grows, H. Qed.

(** A change of the waiting points of one series that keeps them. *)
Lemma items_update_grows {A} cfg (f : GraphItemMap -> res (A * GraphItemMap)) :
  (forall t a t', gm_ok t -> f t = Ret (a, t') -> exists key o, updated t t' key o /\
     (is_Some (view t key) -> is_Some o) /\ forall sl p, view t key = Some sl -> p ∈ sl_L sl -> exists sl', o = Some sl' /\ p ∈ sl_L sl') ->
  moves (grows cfg) (items_update f).
Proof.
  intros Hf s a s' H Hok. apply items_update_inv in H as (t & E & ->). destruct (Hf _ _ _ Hok E) as (key & o & (Hg & _ & Hv) & Ho & Hp).
  split; [done|]. split; cbn.
  - intros k Hk. rewrite Hv. destruct (decide (k = key)) as [->|]; auto.
  - intros k p [H|H]; [|right; exact H]. left. revert H. unfold waiting. cbn. rewrite Hv. destruct (decide (k = key)) as [->|]; [|done].
    destruct (view (gs_items s) key) as [sl|] eqn:Ev; [|intros H; by apply not_elem_of_nil in H].
    rewrite rev_reverse, elem_of_reverse. intros H. destruct (Hp sl p eq_refl H) as (sl' & -> & Hin). by rewrite rev_reverse, elem_of_reverse.
Qed.
Lemma PushFront_grows cfg miss key item : moves (grows cfg) (items_update (fun t => let! t := GM_PushFront miss t key item in Ret (tt, t))).
Proof.
  apply items_update_grows. intros t a t' Hg. destruct (GM_PushFront_spec miss t key item Hg) as (t1 & -> & Hu). intros [= _ <-].
  exists key. eexists. split; [exact Hu|]. split; [done|]. intros sl p -> Hp. eexists. split; [done|]. cbn. by right.
Qed.
Lemma PushAll_grows cfg key items : moves (grows cfg) (items_update (fun t => GM_PushAll t key items)).
Proof.
  apply items_update_grows. intros t a t' Hg. destruct (GM_PushAll_spec t key items Hg) as (t1 & -> & Hu). intros [= _ <-].
  exists key. eexists. split; [exact Hu|]. split; [intros [? ->]; done|]. intros sl p -> Hp. eexists. split; [done|]. cbn. apply elem_of_app. by left.
Qed.
Lemma SetFlag_grows cfg key flag : moves (grows cfg) (items_update (fun t => GM_SetFlag t key flag)).
Proof.
  apply items_update_grows. intros t a t' Hg. destruct (GM_SetFlag_spec t key flag Hg) as (t1 & -> & Hu). intros [= _ <-].
  exists key. eexists. split; [exact Hu|]. split; [intros [? ->]; done|]. intros sl p -> Hp. eexists. split; [done|]. done.
Qed.

(** Walk through the statements of a handler. *)
Ltac grow_step := match goal with
  | |- moves files_grow (glook _) => apply glook_grows
  | |- moves (grows _) (items_update (fun t => rbind (GM_PushFront _ t _ _) _)) => apply PushFront_grows
  | |- moves (grows _) (items_update (fun t => GM_SetFlag t _ _)) => apply SetFlag_grows
  | |- moves (grows _) (glook _) => apply moves_grows, glook_grows
  end.
Ltac grow_walk := repeat (gwalk; try grow_step).

Lemma modify_grows cfg f : (forall s, files_grow s (f s)) -> moves (grows cfg) (modify f).
Proof. intros H. apply moves_grows. intros s a s' [= <- <-]. apply H. Qed.
Lemma same_grows s s' : gs_items s = gs_items s' -> gs_disk s = gs_disk s' -> files_grow s s'.
Proof. intros H1 H2. split; [done|]. rewrite H2. eauto. Qed.

Section local.
Context (env : GEnv) (cfg : GConfig) (Hdisk : disk_works env).

Lemma ReceiveItem_files item md5 : moves files_grow (ReceiveItem cfg item md5).
Proof using Type. unfold ReceiveItem, IsRrdFileExist. gwalk; (intros ? ? ? [= <- <-]; by apply same_grows). Qed.

Lemma handleItem_grows item : moves (grows cfg) (handleItem env cfg item).
Proof using Type.
  unfold handleItem, IsRrdFileExist. grow_walk; try (apply modify_grows; intros; by apply same_grows).
  apply moves_grows, ReceiveItem_files.
Qed.
Lemma handleItems_grows items : moves (grows cfg) (handleItems env cfg items).
Proof using Type. unfold handleItems. grow_walk. apply handleItem_grows. Qed.

Lemma update_points_in items p : p ∈ items -> p ∈ update_points items \/ unstorable p.
Proof using Type.
  unfold unstorable, update_points. intros H. cbn [List.filter]. destruct (negb _) eqn:E; [left|by right].
  apply list_elem_of_In, filter_In. split; [by apply list_elem_of_In|exact E].
Qed.

Lemma flushrrd_in filename items s b s' :
  items <> [] -> flushrrd env filename items s = Ret (b, s') ->
  files_grow s s' /\ exists l, gs_disk s' !! filename = Some l /\ forall p, p ∈ update_points items -> p ∈ l.
Proof using Hdisk.
  destruct Hdisk as [Hc Hu]. destruct items as [|it its]; [done|]. intros _. unfold flushrrd, IsRrdFileExist, mthen, gets, glook, modify, skip, ret.
  generalize (update_points (it :: its)). intros u. destruct (bool_decide (is_Some (gs_disk s !! filename))) eqn:Eex; cbn [negb]; rewrite ?Hc, ?Hu; cbn [negb]; rewrite ?Hu; intros [= <- <-].
  - apply bool_decide_eq_true in Eex as [l0 El0]. split.
    + split; [done|]. intros f l Hl. cbn. rewrite El0. cbn. destruct (decide (f = filename)) as [->|]; [|rewrite lookup_insert_ne by done; eauto].
      rewrite lookup_insert_eq. eexists. split; [done|]. intros p Hp. apply elem_of_app. left. congruence.
    + cbn. rewrite lookup_insert_eq. eexists. split; [done|]. intros p Hp. apply elem_of_app. by right.
  - apply bool_decide_eq_false in Eex. split.
    + split; [done|]. intros f l Hl. cbn. destruct (decide (f = filename)) as [->|]; [by destruct Eex; eexists|].
      rewrite !lookup_insert_ne by done. eauto.
    + cbn. rewrite !lookup_insert_eq. eexists. split; [done|]. intros p Hp. apply elem_of_app. by right.
Qed.

(** The waiting points that are popped. *)
Lemma PopAll_run key s items s' :
  gm_ok (gs_items s) -> items_update (fun t => GM_PopAll t key) s = Ret (items, s') ->
  items = waiting s key /\ gs_disk s' = gs_disk s /\ updated (gs_items s) (gs_items s') key ((fun sl => mkGList (sl_Flag sl) []) <$> view (gs_items s) key).
Proof using Type.
  intros Hg H. apply items_update_inv in H as (t & E & ->). destruct (GM_PopAll_spec (gs_items s) key Hg) as (t1 & E1 & Hu).
  rewrite E1 in E. injection E as <- <-. done.
Qed.
Lemma popped_waiting t0 s s' key : gs_items s = t0 -> updated t0 (gs_items s') key ((fun sl => mkGList (sl_Flag sl) []) <$> view t0 key) ->
  (forall k, is_Some (view (gs_items s) k) -> is_Some (view (gs_items s') k)) /\
  forall k, waiting s' k = if decide (k = key) then [] else waiting s k.
Proof using Type.
  intros <- (_ & _ & Hv). split.
  - intros k Hk. rewrite Hv. destruct (decide (k = key)) as [->|]; [by apply fmap_is_Some|done].
  - intros k. unfold waiting. rewrite Hv. destruct (decide (k = key)) as [->|]; [|done]. by destruct (view (gs_items s) key).
Qed.

Lemma CommitByKey_grows key : moves (grows cfg) (CommitByKey env cfg key).
Proof using Hdisk.
  intros s a s' H Hok. unfold CommitByKey in H. destruct (SplitRrdCacheKey key) as [[[md5 ds] step] err] eqn:Ek.
  destruct err; [injection H as _ <-; split_and!; auto|]. step_inv H. apply lift_inv in E as [Ef ->]. step_inv H.
  destruct (PopAll_run key s a1 s0 Hok E) as (-> & Hd & Hu). pose proof Hu as [Hg0 _].
  destruct (popped_waiting _ s s0 key eq_refl Hu) as [Hv Hw].
  assert (forall k p, stored cfg s k p -> k <> key -> stored cfg s0 k p) as Hother.
  { intros k p [Hp|[Hp|Hp]] Hk; [left; rewrite Hw; by rewrite decide_False| |by right; right]. right. left. unfold in_file in *. by rewrite Hd. }
  destruct (length (waiting s key) =? 0)%nat eqn:El.
  - injection H as _ <-. split_and!; [done|done|]. intros k p Hp. destruct (decide (k = key)) as [->|]; [|by apply Hother].
    destruct Hp as [Hp|[Hp|Hp]]; [|right; left; unfold in_file in *; by rewrite Hd|by right; right].
    destruct (waiting s key); [by apply not_elem_of_nil in Hp|done].
  - step_inv H. injection H as _ <-. unfold FlushFile, count in E0. step_inv E0. injection E1 as _ <-.
    destruct (flushrrd_in a0 (waiting s key) _ _ _ ltac:(by destruct (waiting s key)) E0) as [Hgrow (l & Hl & Hsub)].
    destruct (files_grow_grows cfg _ _ Hgrow Hg0) as (Hg1 & Hv1 & Hs1). split_and!; [done|auto|].
    intros k p Hp. destruct (decide (k = key)) as [->|].
    + destruct Hp as [Hp|[Hp|Hp]]; [|apply Hs1; right; left; unfold in_file in *; cbn; by rewrite Hd|by right; right].
      destruct (update_points_in _ p Hp) as [Hp'|]; [|by right; right]. right. left. exists md5, ds, step, a0, l. auto.
    + apply Hs1. destruct (Hother k p Hp) as [H'|H']; [done|by left|by right].
Qed.

Lemma io_write_grows filename body : moves (grows cfg) (io_write env filename body).
Proof using Type.
  apply moves_grows. intros s a s' H. unfold io_write in H. step_inv H. injection E as <- <-. step_inv H. injection H as <- <-.
  unfold writeFile, IsRrdFileExist in E. step_inv E. injection E0 as <- <-.
  destruct (bool_decide _) eqn:Eex; [injection E as <- <-; by apply same_grows|]. cbn in Eex. apply bool_decide_eq_false in Eex.
  step_inv E. injection E0 as <- <-.
  assert (forall l s2, gs_items s2 = gs_items s -> gs_disk s2 = <[filename := l]> (gs_disk s) -> files_grow s s2) as Hnew.
  { intros l s2 H1 H2. split; [done|]. rewrite H2. intros f l0 Hl. destruct (decide (f = filename)) as [->|]; [by destruct Eex; eexists|].
    rewrite lookup_insert_ne by done. eauto. }
  destruct (g_write env _); [step_inv E| |step_inv E]; [| injection E as <- <-; by apply same_grows|];
    injection E0 as _ <-; injection E as <- <-; by eapply Hnew.
Qed.

Lemma shouldFlush_grows key : moves (grows cfg) (shouldFlush env key).
Proof using Type. unfold shouldFlush. grow_walk. Qed.
End local.

(** * What the migrating graph keeps *)

(** Worker [j] is about to send [items]. *)
Definition sending (w : MigState) (j : nat) (task : Net_task_t) (flag : Z) (items : list GraphItem) (i : nat) : Prop :=
  exists k, mg_workers w !! j = Some k /\ wk_pc k = InSend task flag items i.
(** The point is on its way in the hands of worker [j]. *)
Definition flying (w : MigState) (j : nat) (key : string) (p : GraphItem) : Prop :=
  exists task flag items i, sending w j task flag items i /\ nt_Key task = key /\ p ∈ items.
(** A graph answered a call that handed the point over. *)
Definition handed_over (w : MigState) (p : GraphItem) : Prop := exists addr items, (addr, items) ∈ mg_sent w /\ p ∈ items.
(** The point is waiting, in the file, on its way or handed over; or no file can hold it. *)
Definition held (env : MEnv) (w : MigState) (key : string) (p : GraphItem) : Prop :=
  stored (m_gcfg env) (mg_local w) key p \/ (exists j, flying w j key p) \/ handed_over w p.
(** The item map is well formed and the series whose points are on their way are in it. *)
Definition mig_ok (w : MigState) : Prop :=
  gm_ok (gs_items (mg_local w)) /\
  forall j task flag items i, sending w j task flag items i -> is_Some (view (gs_items (mg_local w)) (nt_Key task)).

Lemma sending_same w w' id task flag items i t f its j :
  mg_workers w' = mg_workers w -> sending w id task flag items i -> sending w' id t f its j -> t = task /\ its = items.
Proof. intros Ew (k & Hk & E) (k' & Hk' & E'). rewrite Ew, Hk in Hk'. injection Hk' as <-. rewrite E in E'. by injection E' as -> _ -> _. Qed.

Section world.
Context (env : MEnv) (Hdisk : disk_works (m_genv env)).

(** The same without what worker [id] has in its hands. *)
Definition held_but (id : nat) (w : MigState) (key : string) (p : GraphItem) : Prop :=
  stored (m_gcfg env) (mg_local w) key p \/ (exists j, j <> id /\ flying w j key p) \/ handed_over w p.
Definition keeps_but (id : nat) (w w' : MigState) : Prop :=
  gm_ok (gs_items (mg_local w)) ->
  gm_ok (gs_items (mg_local w')) /\
  (forall k, is_Some (view (gs_items (mg_local w)) k) -> is_Some (view (gs_items (mg_local w')) k)) /\
  (forall j, j <> id -> mg_workers w' !! j = mg_workers w !! j) /\
  (forall task flag items i, sending w' id task flag items i -> sending w id task flag items i) /\
  forall k p, held_but id w k p -> held_but id w' k p.
#[local] Instance keeps_but_pre id : PreOrder (keeps_but id).
Proof using Type.
  split; [intros w H; split_and!; done|]. intros w1 w2 w3 H12 H23 Hok. destruct (H12 Hok) as (H2 & V12 & W12 & F12 & S12).
  destruct (H23 H2) as (H3 & V23 & W23 & F23 & S23). split_and!; [done|auto| |auto|auto]. intros j Hj. by rewrite W23, W12.
Qed.

(** Statements that leave the graph and the other workers alone. *)
Definition aside (id : nat) (w w' : MigState) : Prop :=
  mg_local w = mg_local w' /\ (forall j, j <> id -> mg_workers w' !! j = mg_workers w !! j) /\
  (forall task flag items i, sending w' id task flag items i -> sending w id task flag items i) /\ forall x, x ∈ mg_sent w -> x ∈ mg_sent w'.
#[local] Instance aside_pre id : PreOrder (aside id).
Proof using Type.
  split; [by intros w|]. intros w1 w2 w3 (H12 & W12 & F12 & S12) (H23 & W23 & F23 & S23). split_and!; [congruence| |auto|auto].
  intros j Hj. by rewrite W23, W12.
Qed.
Lemma aside_keeps id w w' : aside id w w' -> keeps_but id w w'.
Proof using Type.
  intros (Hl & Hw & Hf & Hs) Hok. rewrite <- Hl. split_and!; [done|done|done|done|]. intros k p [H|[(j & Hj & H)|H]].
  - left. by rewrite <- Hl.
  - right. left. exists j. split; [done|]. unfold flying, sending in *. by rewrite Hw.
  - right. right. destruct H as (addr & items & Hin & Hp). exists addr, items. auto.
Qed.
Lemma moves_aside {A} id (m : W A) : moves (aside id) m -> moves (keeps_but id) m.
Proof using Type. intros H s a s' E. by eapply aside_keeps, H. Qed.

Lemma on_local_keeps {A} id (m : G A) : moves (grows (m_gcfg env)) m -> moves (keeps_but id) (on_local m).
Proof using Type.
  intros H w a w' E Hok. unfold on_local in E. destruct (m (mg_local w)) as [[a0 g]|] eqn:Em; [|done]. injection E as <- <-.
  destruct (H _ _ _ Em Hok) as (Hok' & Hv & Hs). split_and!; [done|done|done|done|]. intros k p [Hp|Hp]; [left; by apply Hs|right; exact Hp].
Qed.
Lemma on_remote_aside {A} id addr (m : G A) : moves (aside id) (on_remote addr m).
Proof using Type.
  intros w a w' E. unfold on_remote in E. destruct (mg_remote w !! addr) as [g|]; [|done]. destruct (m g) as [[a0 g']|]; [|done].
  by injection E as <- <-.
Qed.
Lemma mlook_aside {A} id (f : nat -> A) : moves (aside id) (mlook f).
Proof using Type. by intros w a w' [= <- <-]. Qed.
Lemma goto_aside id p : (forall task flag items i, p <> InSend task flag items i) -> moves (aside id) (goto id p).
Proof using Type.
  intros Hp w a w' [= <- <-]. split_and!; [done| | |done].
  - intros j Hj. cbn. by rewrite list_lookup_alter_ne.
  - intros task flag items i (k & Hk & Ek). cbn in Hk. rewrite list_lookup_alter_eq in Hk.
    destruct (mg_workers w !! id); [|done]. injection Hk as <-. by destruct (Hp task flag items i).
Qed.
Lemma bump_aside id name : moves (aside id) (bump name).
Proof using Type. by intros w a w' [= <- <-]. Qed.

Ltac aside_walk := repeat match goal with
  | |- moves _ (mthen _ _) => apply moves_then; [exact _| |intros]
  | |- moves _ (ret _) => apply moves_ret; exact _
  | |- moves _ skip => apply moves_ret; exact _
  | |- moves _ (gets _) => apply moves_gets; exact _
  | |- moves _ (lift _) => apply moves_lift; exact _
  | |- moves _ (forM _ _) => apply moves_forM; [exact _|intros]
  | |- moves (aside _) (on_remote _ _) => apply on_remote_aside
  | |- moves (aside _) (mlook _) => apply mlook_aside
  | |- moves (aside _) (goto _ _) => apply goto_aside; done
  | |- moves (aside _) (bump _) => apply bump_aside
  | |- moves (aside _) (modify _) => by (intros ? ? ? [= <- <-])
  | |- moves (keeps_but ?id) (on_remote _ _) => apply moves_aside
  | |- moves (keeps_but ?id) (mlook _) => apply moves_aside
  | |- moves (keeps_but ?id) (goto _ _) => apply moves_aside
  | |- moves (keeps_but ?id) (bump _) => apply moves_aside
  | |- moves (keeps_but ?id) (modify _) => apply moves_aside
  | |- moves (keeps_but ?id) (on_local _) => apply on_local_keeps
  | |- moves _ (match ?x with _ => _ end) => destruct x
  end.

Lemma rpc_call_aside {A} id addr (h : G (A + string)) : moves (aside id) (rpc_call env addr h).
Proof using Type. unfold rpc_call. aside_walk. Qed.
Lemma after_error_aside id addr e failed : moves (aside id) (after_error addr e failed).
Proof using Type. unfold after_error, reconnection. aside_walk. Qed.
Lemma task_done_aside id task err values : moves (aside id) (task_done id task err values).
Proof using Type. unfold task_done. aside_walk. Qed.
Lemma set_flag_keeps id key flag : moves (keeps_but id) (set_flag key flag).
Proof using Type. unfold set_flag. aside_walk. apply SetFlag_grows. Qed.
Lemma sent_task_aside id task err : moves (aside id) (sent_task id task err).
Proof using Type. unfold sent_task. aside_walk. apply task_done_aside. Qed.
Lemma send_out_keeps id task flag err : moves (keeps_but id) (send_out id task flag err).
Proof using Type. unfold send_out. aside_walk; [apply set_flag_keeps|apply moves_aside, sent_task_aside]. Qed.
Lemma queried_task_aside id task err values : moves (aside id) (queried_task id task err values).
Proof using Type. unfold queried_task. aside_walk. apply task_done_aside. Qed.
Lemma fetched_task_keeps id task err : moves (keeps_but id) (fetched_task env id task err).
Proof using Hdisk.
  unfold fetched_task. aside_walk; try (by apply set_flag_keeps); try (by apply moves_aside, task_done_aside). by apply CommitByKey_grows.
Qed.
Lemma fetch_out_keeps id task flag err : moves (keeps_but id) (fetch_out env id task flag err).
Proof using Hdisk. unfold fetch_out. aside_walk; [apply set_flag_keeps|apply fetched_task_keeps]. Qed.
Lemma get_flag_keeps id key : moves (keeps_but id) (get_flag key).
Proof using Type. unfold get_flag. aside_walk. grow_walk. Qed.
Lemma fetch_begin_keeps id task : moves (keeps_but id) (fetch_begin env id task).
Proof using Hdisk. unfold fetch_begin. aside_walk; [apply get_flag_keeps|apply set_flag_keeps|apply fetched_task_keeps]. Qed.
Lemma fetch_call_keeps id addr task flag filename i : moves (keeps_but id) (fetch_call env id addr task flag filename i).
Proof using Hdisk.
  unfold fetch_call. aside_walk; [apply moves_aside, rpc_call_aside|apply moves_aside, after_error_aside|apply fetch_out_keeps].
Qed.
Lemma fetch_write_keeps id task flag filename body : moves (keeps_but id) (fetch_write env id task flag filename body).
Proof using Hdisk. unfold fetch_write. aside_walk; try apply fetch_out_keeps. apply io_write_grows. Qed.
Lemma query_call_aside id addr task args i : moves (aside id) (query_call env id addr task args i).
Proof using Type. unfold query_call. aside_walk; [apply rpc_call_aside|apply queried_task_aside|apply after_error_aside|apply queried_task_aside]. Qed.

(** One step of worker [id], knowing what becomes of what it carries. *)
Lemma step_held id w w' :
  mig_ok w -> gm_ok (gs_items (mg_local w')) ->
  (forall k, is_Some (view (gs_items (mg_local w)) k) -> is_Some (view (gs_items (mg_local w')) k)) ->
  (forall j, j <> id -> mg_workers w' !! j = mg_workers w !! j) ->
  (forall task flag items i, sending w' id task flag items i -> is_Some (view (gs_items (mg_local w')) (nt_Key task))) ->
  (forall k p, held_but id w k p -> held env w' k p) ->
  (forall task flag items i p, sending w id task flag items i -> p ∈ items -> held env w' (nt_Key task) p) ->
  mig_ok w' /\ forall k p, held env w k p -> held env w' k p.
Proof using Type.
  intros [_ Hfly] Hok' Hv Hw Hf Hs Hid. split.
  - split; [done|]. intros j task flag items i Hj. destruct (decide (j = id)) as [->|Hne]; [by eapply Hf|]. apply Hv.
    eapply (Hfly j task flag items i). unfold sending in *. by rewrite <- Hw.
  - intros k p [H|[(j & H)|H]]; [apply Hs; by left| |apply Hs; by right; right].
    destruct (decide (j = id)) as [->|Hne]; [|apply Hs; right; left; by exists j].
    destruct H as (task & flag & items & i & Hsend & <- & Hp). by eapply Hid.
Qed.
Lemma held_but_held id w k p : held_but id w k p -> held env w k p.
Proof using Type. intros [H|[(j & _ & H)|H]]; [by left|right; left; by exists j|by right; right]. Qed.

(** A step that starts with nothing in the hands of the worker. *)
Lemma step_keeps id w w' :
  mig_ok w -> keeps_but id w w' -> (forall task flag items i, ~ sending w id task flag items i) ->
  mig_ok w' /\ forall k p, held env w k p -> held env w' k p.
Proof using Type.
  intros Hok Hk Hno. destruct (Hk (proj1 Hok)) as (Hok' & Hv & Hw & Hf & Hs). apply (step_held id); try done.
  - intros task flag items i H. by destruct (Hno task flag items i (Hf _ _ _ _ H)).
  - intros k p H. by apply (held_but_held id), Hs.
  - intros task flag items i p H. by destruct (Hno _ _ _ _ H).
Qed.

Lemma goto_sending id task flag items i w w' task' flag' items' i' :
  goto id (InSend task flag items i) w = Ret (tt, w') -> sending w' id task' flag' items' i' ->
  task' = task /\ flag' = flag /\ items' = items /\ i' = i.
Proof using Type.
  intros [= <-] (k & Hk & E). cbn in Hk. rewrite list_lookup_alter_eq in Hk. destruct (mg_workers w !! id); [|done].
  injection Hk as <-. by injection E as <- <- <- <-.
Qed.
Lemma goto_others id p w w' : goto id p w = Ret (tt, w') ->
  mg_local w' = mg_local w /\ (forall j, j <> id -> mg_workers w' !! j = mg_workers w !! j) /\ mg_sent w' = mg_sent w.
Proof using Type. intros [= <-]. split_and!; [done| |done]. intros j Hj. cbn. by rewrite list_lookup_alter_ne. Qed.
Lemma goto_back id task flag items i w w' k : goto id (InSend task flag items i) w = Ret (tt, w') ->
  mg_workers w !! id = Some k -> sending w' id task flag items i.
Proof using Type. intros [= <-] Hk. eexists. cbn. rewrite list_lookup_alter_eq, Hk. by split. Qed.
Lemma held_but_same id w w' :
  mg_local w' = mg_local w -> (forall j, j <> id -> mg_workers w' !! j = mg_workers w !! j) -> mg_sent w' = mg_sent w ->
  forall k p, held_but id w k p -> held_but id w' k p.
Proof using Type.
  intros Hl Hw Hs k p [H|[(j & Hj & H)|H]]; [left; by rewrite Hl|right; left; exists j; split; [done|]|right; right].
  - unfold flying, sending in *. by rewrite Hw.
  - unfold handed_over in *. by rewrite Hs.
Qed.

(** The beginning of a sending: what is popped is in the hands of the worker. *)
Lemma send_begin_held id task w w' k :
  mig_ok w -> mg_workers w !! id = Some k -> (forall task flag items i, ~ sending w id task flag items i) ->
  send_begin id task w = Ret (tt, w') -> mig_ok w' /\ forall k p, held env w k p -> held env w' k p.
Proof using Type.
  intros Hok Hk Hno H. unfold send_begin in H. step_inv H. pose proof (get_flag_keeps id _ _ _ _ E) as H1.
  assert (mg_workers s = mg_workers w) as Ew1.
  { unfold get_flag, on_local in E. destruct (items_read _ _) as [[? ?]|]; [|done]. by injection E as <- <-. }
  destruct a as [flag|].
  2:{ apply (step_keeps id w); [done| |done]. etransitivity; [exact H1|]. eapply aside_keeps, sent_task_aside, H. }
  step_inv H. pose proof (set_flag_keeps id _ _ _ _ _ E0) as H2.
  assert (mg_workers s0 = mg_workers w) as Ew2.
  { rewrite <- Ew1. unfold set_flag in E0. step_inv E0. injection E0 as _ <-. unfold on_local in E1. destruct (items_update _ _) as [[? ?]|]; [|done].
    by injection E1 as _ <-. }
  step_inv H. unfold on_local in E1. destruct (items_update _ (mg_local s0)) as [[items g]|] eqn:Ep; [|done]. injection E1 as <- <-.
  assert (keeps_but id w s0) as H12 by (etransitivity; eassumption).
  destruct (H12 (proj1 Hok)) as (Hok0 & Hv0 & Hw0 & Hf0 & Hs0).
  destruct (PopAll_run (nt_Key task) _ _ _ Hok0 Ep) as (-> & Hd & Hu). pose proof Hu as [Hg _].
  destruct (popped_waiting _ (mg_local s0) g (nt_Key task) eq_refl Hu) as [Hvg Hwg].
  assert (forall k p, held_but id s0 k p -> held_but id (w_set_local g s0) k p \/ (k = nt_Key task /\ p ∈ waiting (mg_local s0) (nt_Key task))) as Hpop.
  { intros k' p [[Hp|[Hp|Hp]]|Hp].
    - destruct (decide (k' = nt_Key task)) as [->|Hne]; [by right|]. left. left. left. cbn. rewrite Hwg. by rewrite decide_False.
    - left. left. right. left. unfold in_file in *. cbn. by rewrite Hd.
    - left. left. by right; right.
    - left. right. exact Hp. }
  destruct (length (waiting (mg_local s0) (nt_Key task)) =? 0)%nat eqn:El.
  - destruct (waiting (mg_local s0) (nt_Key task)) as [|] eqn:Ewait; [|done].
    destruct (send_out_keeps id _ _ _ _ _ _ H Hg) as (Hok' & Hv' & Hw' & Hf' & Hs'). apply (step_held id); try done.
    + auto.
    + intros j Hj. by rewrite Hw', <- Hw0.
    + intros t f its i Hse. destruct (Hno t f its i). apply Hf0. by apply Hf' in Hse.
    + intros k' p Hp. apply (held_but_held id), Hs'. destruct (Hpop _ _ (Hs0 _ _ Hp)) as [?|[_ Hin]]; [done|]. by apply not_elem_of_nil in Hin.
    + intros t f its i p Hse. by destruct (Hno _ _ _ _ Hse).
  - destruct (goto_others _ _ _ _ H) as (Hl & Hw' & Hs'). apply (step_held id); try done.
    + by rewrite Hl.
    + intros k'. rewrite Hl. cbn. auto.
    + intros j Hj. rewrite Hw' by done. by apply Hw0.
    + intros t f its i Hse. destruct (goto_sending _ _ _ _ _ _ _ _ _ _ _ H Hse) as (-> & _). rewrite Hl. cbn. apply Hvg.
      destruct (view (gs_items (mg_local s0)) (nt_Key task)) as [sl|] eqn:Ev; [by eexists|]. unfold waiting in El. by rewrite Ev in El.
    + intros k' p Hp. destruct (Hpop _ _ (Hs0 _ _ Hp)) as [Hp'|[-> Hin]].
      * apply (held_but_held id). eapply held_but_same; [exact Hl|exact Hw'|exact Hs'|exact Hp'].
      * right. left. exists id, task, flag, (waiting (mg_local s0) (nt_Key task)), 0. split; [|done]. eapply goto_back; [exact H|]. cbn. by rewrite Ew2.
    + intros t f its i p Hse. by destruct (Hno _ _ _ _ Hse).
Qed.

(** Calls and reconnections change neither the graph nor the workers. *)
Definition still (w w' : MigState) : Prop := mg_local w = mg_local w' /\ mg_workers w = mg_workers w' /\ mg_sent w = mg_sent w'.
#[local] Instance still_pre : PreOrder still.
Proof using Type. split; [done|]. intros ? ? ?. unfold still. intuition congruence. Qed.
Ltac still_walk := repeat match goal with
  | |- moves still (mthen _ _) => apply moves_then; [exact _| |intros]
  | |- moves still (ret _) => apply moves_ret; exact _
  | |- moves still skip => apply moves_ret; exact _
  | |- moves still (forM _ _) => apply moves_forM; [exact _|intros]
  | |- moves still (mlook _) => by (intros ? ? ? [= <- <-])
  | |- moves still (bump _) => by (intros ? ? ? [= <- <-])
  | |- moves still (match ?x with _ => _ end) => destruct x
  end.
Lemma on_remote_still {A} addr (m : G A) : moves still (on_remote addr m).
Proof using Type.
  intros w a w' E. unfold on_remote in E. destruct (mg_remote w !! addr) as [g|]; [|done]. destruct (m g) as [[a0 g']|]; [|done].
  by injection E as <- <-.
Qed.
Lemma rpc_call_still {A} addr (h : G (A + string)) : moves still (rpc_call env addr h).
Proof using Type. unfold rpc_call. still_walk; apply on_remote_still. Qed.
Lemma after_error_still addr e failed : moves still (after_error addr e failed).
Proof using Type. unfold after_error, reconnection. still_walk. Qed.

(** The way out of a sending that leaves nothing unaccounted for. *)
Lemma send_out_held id task flag items i err w w1 w' :
  mig_ok w -> sending w id task flag items i ->
  gm_ok (gs_items (mg_local w1)) -> (forall k, is_Some (view (gs_items (mg_local w)) k) -> is_Some (view (gs_items (mg_local w1)) k)) ->
  mg_workers w1 = mg_workers w -> (forall k p, held_but id w k p -> held_but id w1 k p) ->
  (forall p, p ∈ items -> held_but id w1 (nt_Key task) p) ->
  send_out id task flag err w1 = Ret (tt, w') -> mig_ok w' /\ forall k p, held env w k p -> held env w' k p.
Proof using Type.
  intros Hok Hsend Hg Hv Ew Hb Hitems H. destruct (send_out_keeps id _ _ _ _ _ _ H Hg) as (Hg' & Hv' & Hw' & Hf' & Hs').
  assert (forall t f its j, sending w' id t f its j -> t = task /\ its = items) as Honly.
  { intros t f its j Hse. apply Hf' in Hse. by eapply sending_same. }
  apply (step_held id); try done.
  - auto.
  - intros j Hj. rewrite Hw' by done. by rewrite Ew.
  - intros t f its j Hse. destruct (Honly _ _ _ _ Hse) as [-> _]. apply Hv', Hv. by eapply (proj2 Hok).
  - intros k p Hp. by apply (held_but_held id), Hs', Hb.
  - intros t f its j p Hse Hp. destruct (sending_same w w id task flag items i t f its j) as [-> ->]; [done..|].
    by apply (held_but_held id), Hs', Hitems.
Qed.

(** One call of a sending: the points are handed over, kept in hand, or put back. *)
Lemma send_call_held id addr task flag items i w w' :
  mig_ok w -> sending w id task flag items i ->
  send_call env id addr task flag items i w = Ret (tt, w') -> mig_ok w' /\ forall k p, held env w k p -> held env w' k p.
Proof using Type.
  intros Hok Hsend H. unfold send_call in H. step_inv H. destruct (rpc_call_still _ _ _ _ _ E) as (Hl & Hw & Hs).
  destruct a as [[]|[e failed]].
  - step_inv H. injection E0 as _ <-.
    eapply (send_out_held id task flag items i None w (w_add_sent (addr, items) s)); try done.
    + cbn. rewrite <- Hl. apply Hok.
    + cbn. by rewrite <- Hl.
    + intros k p [Hp|[(j & Hj & Hp)|(ad & its & Hin & Hp)]]; [left; cbn; by rewrite <- Hl|right; left; exists j; split; [done|]|right; right].
      * unfold flying, sending in *. cbn. by rewrite <- Hw.
      * exists ad, its. split; [|done]. cbn. apply elem_of_app. left. by rewrite <- Hs.
    + intros p Hp. right. right. exists addr, items. split; [|done]. cbn. apply elem_of_app. right. by left.
  - step_inv H. destruct (after_error_still _ _ _ _ _ _ E0) as (Hl0 & Hw0 & Hs0).
    assert (forall k p, held_but id w k p -> held_but id s0 k p) as Hb.
    { apply held_but_same; [congruence| |congruence]. intros j _. congruence. }
    destruct (i <? 2)%nat.
    + destruct (goto_others _ _ _ _ H) as (Hl' & Hw' & Hs'). apply (step_held id); try done.
      * rewrite Hl', <- Hl0, <- Hl. apply Hok.
      * intros k. by rewrite Hl', <- Hl0, <- Hl.
      * intros j Hj. rewrite Hw' by done. congruence.
      * intros t f its j Hse. destruct (goto_sending _ _ _ _ _ _ _ _ _ _ _ H Hse) as (-> & _). rewrite Hl', <- Hl0, <- Hl. by eapply (proj2 Hok).
      * intros k p Hp. apply (held_but_held id). eapply held_but_same; [exact Hl'|exact Hw'|exact Hs'|by apply Hb].
      * intros t f its j p Hse Hp. destruct (sending_same w w id task flag items i t f its j) as [-> ->]; [done..|].
        right. left. exists id, task, flag, items, (S i). split; [|done]. destruct Hsend as (k & Hk & _). eapply goto_back; [exact H|].
        rewrite <- Hw0, <- Hw. exact Hk.
    + step_inv H. pose proof (proj2 Hok _ _ _ _ _ Hsend) as Hin. unfold on_local in E1.
      destruct (items_update _ (mg_local s0)) as [[b g]|] eqn:Ep; [|done]. injection E1 as _ <-.
      assert (gm_ok (gs_items (mg_local s0))) as Hg0 by (rewrite <- Hl0, <- Hl; apply Hok).
      destruct (PushAll_grows (m_gcfg env) _ _ _ _ _ Ep Hg0) as (Hg1 & Hv1 & Hs1).
      eapply (send_out_held id task flag items i (Some e) w (w_set_local g s0)); try done.
      * intros k Hk. cbn. apply Hv1. by rewrite <- Hl0, <- Hl.
      * cbn. congruence.
      * intros k p Hp. destruct (Hb k p Hp) as [Hp'|Hp']; [left; cbn; by apply Hs1|right; exact Hp'].
      * intros p Hp. left. left. apply items_update_inv in Ep as (t & Ep & ->). destruct (GM_PushAll_spec (gs_items (mg_local s0)) (nt_Key task) items Hg0) as (t1 & Et & _ & _ & Hvt).
        rewrite Et in Ep. injection Ep as _ <-. unfold waiting. cbn. rewrite Hvt, decide_True by done.
        rewrite Hl, Hl0 in Hin. destruct Hin as [sl ->]. cbn. rewrite rev_app_distr, rev_involutive. apply elem_of_app. by left.
Qed.

Lemma start_task_held id task w w' k tasks node :
  mig_ok w -> mg_workers w !! id = Some k -> (forall task flag items i, ~ sending w id task flag items i) ->
  start_task env id task (w_set_tasks (<[node := tasks]> (mg_tasks w)) w) = Ret (tt, w') ->
  mig_ok w' /\ forall k p, held env w k p -> held env w' k p.
Proof using Hdisk.
  set (w1 := w_set_tasks _ w). intros Hok Hk Hno H. assert (mig_ok w1) as Hok1 by exact Hok.
  change (forall k p, held env w k p -> held env w' k p) with (forall k p, held env w1 k p -> held env w' k p).
  assert (forall t f its j, ~ sending w1 id t f its j) as Hno1 by exact Hno. assert (mg_workers w1 !! id = Some k) as Hk1 by exact Hk.
  clearbody w1. unfold start_task in H. destruct (_ =? _)%Z; [by eapply send_begin_held|]. destruct (_ =? _)%Z.
  { apply (step_keeps id); [done| |done]. eapply aside_keeps.
    destruct (nt_Args task); [by eapply goto_aside; [|exact H]|by eapply queried_task_aside]. }
  destruct (_ =? _)%Z; [|apply (step_keeps id); [done| |done]; by eapply aside_keeps, task_done_aside].
  step_inv H. injection E as <- <-. destruct (mg_timeout w1); [by eapply send_begin_held|].
  apply (step_keeps id); [done|by eapply fetch_begin_keeps|done].
Qed.

Lemma net_task_worker_held id w w' :
  mig_ok w -> net_task_worker env id w = Ret (tt, w') -> mig_ok w' /\ forall k p, held env w k p -> held env w' k p.
Proof using Hdisk.
  intros Hok H. unfold net_task_worker in H. step_inv H. injection E as <- <-. destruct (mg_workers w !! id) as [k|] eqn:Ek; [|by injection H as <-].
  assert ((forall task flag items i, wk_pc k <> InSend task flag items i) -> forall task flag items i, ~ sending w id task flag items i) as Hno.
  { intros Hne task flag items i (k0 & Hk0 & E0). rewrite Ek in Hk0. injection Hk0 as <-. by eapply Hne. }
  destruct (wk_pc k) eqn:Epc.
  - assert (forall task flag items i, ~ sending w id task flag items i) as Hidle by (apply Hno; done).
    step_inv H. injection E as <- <-. destruct (default [] (mg_tasks w !! wk_node k)) as [|task tasks]; [by injection H as <-|].
    step_inv H. injection E as _ <-. eapply start_task_held; [exact Hok|exact Ek|exact Hidle|exact H].
  - by eapply send_call_held; [exact Hok|exists k|exact H].
  - apply (step_keeps id); [done|by eapply fetch_call_keeps|by apply Hno].
  - apply (step_keeps id); [done|by eapply fetch_write_keeps|by apply Hno].
  - apply (step_keeps id); [done|by eapply aside_keeps, query_call_aside|by apply Hno].
Qed.

Lemma push_task_aside id node task : moves (aside id) (push_task node task).
Proof using Type. unfold push_task. aside_walk. Qed.
Lemma ask_remote_aside id param : moves (aside id) (ask_remote param).
Proof using Type. unfold ask_remote. aside_walk. apply push_task_aside. Qed.
Lemma flush_key_keeps id key force : moves (keeps_but id) (flush_key env key force).
Proof using Hdisk.
  unfold flush_key, PullByKey. aside_walk; try apply get_flag_keeps; try (by apply CommitByKey_grows); try (by apply moves_aside, push_task_aside);
    try (by apply shouldFlush_grows); grow_walk.
Qed.

(** Everything but a step of a worker leaves the workers alone; no worker has this number. *)
Lemma others_held w w' : mig_ok w -> keeps_but (length (mg_workers w)) w w' -> mig_ok w' /\ forall k p, held env w k p -> held env w' k p.
Proof using Type.
  intros Hok Hk. apply (step_keeps (length (mg_workers w))); [done..|]. intros task flag items i (k & Hk' & _).
  apply lookup_lt_Some in Hk'. lia.
Qed.

Lemma run_mig_op_held op w w' :
  mig_ok w -> run_mig_op env op w = Ret (tt, w') -> mig_ok w' /\ forall k p, held env w k p -> held env w' k p.
Proof using Hdisk.
  intros Hok H. destruct op; cbn [run_mig_op] in H; [| | | |by eapply net_task_worker_held]; apply others_held; try done.
  - revert H. apply on_local_keeps. apply handleItems_grows.
  - injection H as <-. by apply aside_keeps.
  - step_inv H. injection H as <-. by eapply flush_key_keeps.
  - step_inv H. injection H as <-. by eapply aside_keeps, ask_remote_aside.
Qed.
End world.

(** * Steps return *)

(** A key with three parts, the first a digest. *)
Definition key_parts (key : string) : Prop := exists x ds step, split key "_" = [Md5 x; ds; step].
Lemma key_parts_form key : key_parts key -> exists x ds step err, SplitRrdCacheKey key = (Md5 x, ds, step, err).
Proof. intros (x & ds & st & E). unfold SplitRrdCacheKey. rewrite E. destruct (parse_int st 32); eauto. Qed.

Definition task_wf (t : Net_task_t) : Prop := key_parts (nt_Key t) /\ nt_Method t <> NET_TASK_M_QUERY.
Definition pc_wf (p : pc) : Prop :=
  match p with
  | Idle => True
  | InSend t _ _ _ | InFetch t _ _ _ | InWrite t _ _ _ => task_wf t
  | InQuery _ _ _ => False
  end.
(** Steps that ask no question about a series, and flush keys of series. *)
Definition op_wf (op : mig_op) : Prop :=
  match op with OpFlushKey key _ => key_parts key | OpAsk _ => False | _ => True end.

(** Well formed graphs, here and behind the addresses [A] of the workers, and tasks about series. *)
Record mig_wf (n : Z) (A : gset string) (w : MigState) : Prop := {
  wf_local : sized n (mg_local w);
  wf_remote : forall a, a ∈ A -> exists g m, mg_remote w !! a = Some g /\ sized m g;
  wf_workers : forall k, k ∈ mg_workers w -> wk_addr k ∈ A /\ pc_wf (wk_pc k);
  wf_ring : ring_ok (mg_ring w);
  wf_tasks : forall node q t, mg_tasks w !! node = Some q -> t ∈ q -> task_wf t }.

Section returns.
Context (env : MEnv) (n : Z) (A : gset string).
Notation P := (mig_wf n A).

(** Statements that keep what well-formedness speaks about. *)
Lemma wf_same w w' :
  mg_local w' = mg_local w -> mg_remote w' = mg_remote w -> mg_workers w' = mg_workers w -> mg_ring w' = mg_ring w ->
  mg_tasks w' = mg_tasks w -> P w -> P w'.
Proof using Type. intros H1 H2 H3 H4 H5 [? ? ? ? ?]. by split; rewrite ?H1, ?H2, ?H3, ?H4, ?H5. Qed.
Lemma mlook_runs {B} (f : nat -> B) : runs P (mlook f).
Proof using Type. intros w Hw. exists (f (mg_tick w)), (w_next w). split; [done|]. by apply (wf_same w). Qed.
Lemma bump_runs name : runs P (bump name).
Proof using Type. apply runs_modify. intros w Hw. by apply (wf_same w). Qed.
Lemma on_local_runs {B} (m : G B) : runs (sized n) m -> runs P (on_local m).
Proof using Type.
  intros Hm w [H1 H2 H3 H4 H5]. destruct (Hm _ H1) as (b & g & E & Hg). exists b, (w_set_local g w). unfold on_local. rewrite E. done.
Qed.
Lemma on_remote_runs {B} addr (m : G B) : addr ∈ A -> (forall k, runs (sized k) m) -> runs P (on_remote addr m).
Proof using Type.
  intros Ha Hm w [H1 H2 H3 H4 H5]. destruct (H2 addr Ha) as (g & k & Eg & Hg). destruct (Hm k g Hg) as (b & g' & E & Hg').
  exists b, (w_set_remote (<[addr := g']> (mg_remote w)) w). unfold on_remote. rewrite Eg, E. split; [done|]. split; try done.
  intros a Ha'. cbn. destruct (decide (a = addr)) as [->|]; [rewrite lookup_insert_eq; eauto|rewrite lookup_insert_ne by done; eauto].
Qed.
Lemma goto_runs id p : pc_wf p -> runs P (goto id p).
Proof using Type.
  intros Hp. apply runs_modify. intros w [H1 H2 H3 H4 H5]. split; try done. cbn. intros k Hk.
  apply list_elem_of_lookup in Hk as [i Hk]. destruct (decide (i = id)) as [->|Hne].
  - rewrite list_lookup_alter_eq in Hk. destruct (mg_workers w !! id) as [k0|] eqn:E; [|done]. injection Hk as <-. cbn.
    split; [|done]. apply list_elem_of_lookup_2 in E. by apply H3 in E as [? _].
  - rewrite list_lookup_alter_ne in Hk by done. apply list_elem_of_lookup_2 in Hk. by apply H3.
Qed.

Lemma get_flag_runs key : runs P (get_flag key).
Proof using Type.
  apply on_local_runs, runs_items_read. intros t Hg _. unfold GM_GetFlag. rewrite GM_Get_spec by done. cbn. eauto.
Qed.
Lemma SetFlag_runs m key flag : runs (sized m) (items_update (fun t => GM_SetFlag t key flag)).
Proof using Type.
  apply runs_items_update. intros t Hg. destruct (GM_SetFlag_spec t key flag Hg) as (t' & E & Hu). do 4 eexists. split; [exact E|].
  split; [exact Hu|]. intros H. left. by apply fmap_is_Some in H.
Qed.
Lemma PushAll_runs m key items : runs (sized m) (items_update (fun t => GM_PushAll t key items)).
Proof using Type.
  apply runs_items_update. intros t Hg. destruct (GM_PushAll_spec t key items Hg) as (t' & E & Hu). do 4 eexists. split; [exact E|].
  split; [exact Hu|]. intros H. left. by apply fmap_is_Some in H.
Qed.

Ltac mwalk := repeat match goal with
  | |- runs _ (mthen _ _) => apply runs_then; [|intros]
  | |- runs _ (ret _) => apply runs_ret
  | |- runs _ skip => apply runs_ret
  | |- runs _ (gets _) => apply runs_gets
  | |- runs _ (forM _ _) => apply runs_forM; intros
  | |- runs _ (mlook _) => apply mlook_runs
  | |- runs _ (bump _) => apply bump_runs
  | |- runs _ (goto _ _) => apply goto_runs; try done
  | |- runs _ (get_flag _) => apply get_flag_runs
  | |- runs _ (match ?x with _ => _ end) => destruct x
  | |- runs _ (modify _) => apply runs_modify; intros ?w ?Hw; by apply (wf_same w)
  end.

Lemma set_flag_runs key flag : runs P (set_flag key flag).
Proof using Type. unfold set_flag. mwalk. apply on_local_runs, SetFlag_runs. Qed.
Lemma rpc_call_runs {B} addr (h : G (B + string)) : addr ∈ A -> (forall k, runs (sized k) h) -> runs P (rpc_call env addr h).
Proof using Type. intros Ha Hh. unfold rpc_call. mwalk; by apply on_remote_runs. Qed.
Lemma after_error_runs addr e failed : runs P (after_error addr e failed).
Proof using Type. unfold after_error, reconnection. mwalk. Qed.
Lemma task_done_runs id task err values : runs P (task_done id task err values).
Proof using Type. unfold task_done. mwalk. Qed.
Lemma send_out_runs id task flag err : runs P (send_out id task flag err).
Proof using Type. unfold send_out, sent_task. mwalk; [apply set_flag_runs|apply task_done_runs]. Qed.
Lemma send_begin_runs id task : task_wf task -> runs P (send_begin id task).
Proof using Type.
  intros Ht. unfold send_begin, sent_task. mwalk; [apply set_flag_runs|apply on_local_runs, runs_PopAll|apply send_out_runs|apply task_done_runs].
Qed.
Lemma send_call_runs id addr task flag items i : addr ∈ A -> task_wf task -> runs P (send_call env id addr task flag items i).
Proof using Type.
  intros Ha Ht. unfold send_call. mwalk; try apply send_out_runs; try apply after_error_runs; [|apply on_local_runs, PushAll_runs].
  apply rpc_call_runs; [done|]. intros k. unfold Graph_Send. apply runs_then; [apply handleItems_runs|intros; apply runs_ret].
Qed.
Lemma key_parts_key_form key : key_parts key -> exists x rest, split key "_" = Md5 x :: rest.
Proof using Type. intros (x & ds & st & E). eauto. Qed.
Lemma CommitByKey_parts_runs g cfg m key : key_parts key -> runs (sized m) (CommitByKey g cfg key).
Proof using Type.
  intros (x & ds & step & err & E)%key_parts_form. unfold CommitByKey. rewrite E. unfold FlushFile, flushrrd, IsRrdFileExist. rwalk.
Qed.
Lemma fetch_out_runs id task flag err : task_wf task -> runs P (fetch_out env id task flag err).
Proof using Type.
  intros [Hk _]. unfold fetch_out, fetched_task. mwalk; try apply set_flag_runs; try apply task_done_runs. by apply on_local_runs, CommitByKey_parts_runs.
Qed.
Lemma fetch_begin_runs id task : task_wf task -> runs P (fetch_begin env id task).
Proof using Type.
  intros [Hk Hm]. unfold fetch_begin. destruct (key_parts_form _ Hk) as (x & ds & step & err & E). rewrite E.
  apply runs_then; [mwalk|]. intros [flag|].
  - apply runs_then; [apply set_flag_runs|intros]. apply runs_then; [apply runs_lift, RrdFileName_md5|intros]. by mwalk.
  - unfold fetched_task. mwalk; [apply set_flag_runs|by apply on_local_runs, CommitByKey_parts_runs|apply task_done_runs].
Qed.
Lemma GetRrd_runs g cfg m key : key_parts key -> runs (sized m) (GetRrd g cfg key).
Proof using Type.
  intros (x & ds & step & err & E)%key_parts_form. unfold GetRrd. rewrite E. unfold FlushFile, flushrrd, IsRrdFileExist, ReadFile. rwalk.
Qed.
Lemma fetch_call_runs id addr task flag filename i : addr ∈ A -> task_wf task -> runs P (fetch_call env id addr task flag filename i).
Proof using Type.
  intros Ha Ht. unfold fetch_call. mwalk; try apply after_error_runs; try by apply fetch_out_runs.
  apply rpc_call_runs; [done|]. intros k. apply GetRrd_runs, Ht.
Qed.
Lemma fetch_write_runs id task flag filename body : task_wf task -> runs P (fetch_write env id task flag filename body).
Proof using Type.
  intros Ht. unfold fetch_write. mwalk; try by apply fetch_out_runs. apply on_local_runs. unfold io_write, writeFile, IsRrdFileExist. rwalk.
Qed.

Lemma start_task_runs id t : task_wf t -> runs P (start_task env id t).
Proof using Type.
  intros Ht. unfold start_task. destruct (_ =? _)%Z; [by apply send_begin_runs|].
  destruct (Z.eqb_spec (nt_Method t) NET_TASK_M_QUERY); [by destruct Ht|].
  mwalk; [by apply send_begin_runs|by apply fetch_begin_runs|apply task_done_runs].
Qed.
Lemma net_task_worker_runs id : runs P (net_task_worker env id).
Proof using Type.
  intros w Hw. unfold net_task_worker. unfold mthen at 1. unfold gets at 1.
  destruct (mg_workers w !! id) as [k|] eqn:Ek; [|by apply runs_ret].
  destruct (wf_workers _ _ _ Hw k) as [Ha Hp]; [by apply list_elem_of_lookup_2 in Ek|].
  destruct (wk_pc k); [|by apply send_call_runs|by apply fetch_call_runs|by apply fetch_write_runs|done].
  unfold mthen at 1. unfold gets at 1. destruct (mg_tasks w !! wk_node k) as [[|t q]|] eqn:Eq; cbn [default]; try by apply runs_ret.
  assert (task_wf t) as Ht by (apply (wf_tasks _ _ _ Hw _ _ _ Eq); left). unfold mthen at 1. unfold modify at 1.
  assert (P (w_set_tasks (<[wk_node k := q]> (mg_tasks w)) w)) as Hw1.
  { destruct Hw as [H1 H2 H3 H4 H5]. split; try done. cbn. intros node q' t' Hq' Ht'. destruct (decide (node = wk_node k)) as [->|].
    - rewrite lookup_insert_eq in Hq'. injection Hq' as <-. apply (H5 _ _ _ Eq). by right.
    - rewrite lookup_insert_ne in Hq' by done. by eapply H5. }
  exact (start_task_runs id t Ht _ Hw1).
Qed.

Lemma ring_Get_runs name w : P w -> exists r, ring_Get name (mg_ring w) = Ret r.
Proof using Type.
  intros Hw. destruct (decide (circle (mg_ring w) = ∅)) as [E|E].
  - unfold ring_Get. rewrite E, map_size_empty. by exists None.
  - destruct (ring_Get_spec name (mg_ring w) (wf_ring _ _ _ Hw) E) as (h & _ & ->). eauto.
Qed.
Lemma push_task_runs node task : task_wf task -> runs P (push_task node task).
Proof using Type.
  intros Ht w Hw. unfold push_task. unfold mthen at 1. unfold gets at 1. destruct (mg_tasks w !! node) as [q|] eqn:Eq; [|by apply runs_ret].
  destruct (length q <? 16)%nat; [|by apply runs_ret]. do 2 eexists. split; [reflexivity|].
  destruct Hw as [H1 H2 H3 H4 H5]. split; try done. cbn. intros node' q' t' Hq' Ht'. destruct (decide (node' = node)) as [->|].
  - rewrite lookup_insert_eq in Hq'. injection Hq' as <-. apply elem_of_app in Ht' as [Ht'|Ht']; [by eapply H5|].
    apply list_elem_of_singleton in Ht' as ->. done.
  - rewrite lookup_insert_ne in Hq' by done. by eapply H5.
Qed.
Lemma PullByKey_runs key : key_parts key -> runs P (PullByKey key).
Proof using Type.
  intros Hk. unfold PullByKey. apply runs_then.
  - apply on_local_runs, runs_items_read. intros t Hg _. rewrite GM_First_spec by done. eauto.
  - intros [item|]; [|apply runs_ret]. intros w Hw. unfold mthen, gets, lift.
    destruct (ring_Get_runs (GraphItem_PrimaryKey item) w Hw) as [[node|] ->]; [|by apply runs_ret]. by apply push_task_runs.
Qed.
Lemma flush_key_runs key force : key_parts key -> runs P (flush_key env key force).
Proof using Type.
  intros Hk. unfold flush_key. mwalk; try by apply PullByKey_runs.
  - apply on_local_runs. unfold shouldFlush. rwalk; apply runs_items_read; intros t Hg _;
      [unfold GM_ItemCnt|unfold GM_Back]; rewrite GM_Get_spec by done; cbn; destruct (view t key); eauto.
  - by apply on_local_runs, CommitByKey_parts_runs.
Qed.
Lemma run_mig_op_runs op : op_wf op -> runs P (run_mig_op env op).
Proof using Type.
  destruct op; cbn [run_mig_op op_wf]; intros Hop; [| | |done|apply net_task_worker_runs].
  - apply on_local_runs, handleItems_runs.
  - mwalk.
  - mwalk. by apply flush_key_runs.
Qed.
End returns.

(** * No point is lost *)

(** C4: While points come in, keys are flushed, questions are asked and any number
    of workers send and fetch series over calls that may fail in every way, in
    any order: a point that waits, is in its file, is on its way or was handed to
    another graph stays one of these, as long as rrdlite writes the local files,
    but for a value its text format cannot hold, beyond 1e300;
    and from a well-formed graph every such order of steps runs, questions apart. *)
Theorem migration_loses_nothing (env : MEnv) (ops : list mig_op) (w : MigState) :
  disk_works (m_genv env) -> mig_ok w ->
  (forall w', mig_run env ops w = Ret (tt, w') -> mig_ok w' /\ forall key p, held env w key p -> held env w' key p) /\
  (forall n A, mig_wf n A w -> Forall op_wf ops -> exists w', mig_run env ops w = Ret (tt, w') /\ mig_wf n A w').
Proof.
  intros Hdisk Hok. split.
  - revert w Hok. induction ops as [|op ops IH]; intros w Hok w' H; [by injection H as <-|].
    unfold mig_run in H. cbn [forM] in H. step_inv H. destruct a.
    destruct (run_mig_op_held env Hdisk op w s Hok E) as [Hs Hh]. destruct (IH s Hs w' H) as [Hw' Hh']. auto.
  - intros n A Hw Hops. rewrite Forall_forall in Hops.
    destruct (runs_forM (mig_wf n A) ops (run_mig_op env)) with (s := w) as ([] & w' & E & Hw'); [|done|by exists w'].
    intros op Hop. by apply run_mig_op_runs, Hops.
Qed.

(** * A series the old graph does not have *)

(** A key that is written as [FormRrdCacheKey] writes it. *)
Definition canonical (key : string) : Prop :=
  forall md5 ds step, SplitRrdCacheKey key = (md5, ds, step, false) -> key = FormRrdCacheKey md5 ds step.

Lemma app_inj_length (a a' b b' : string) : String.length a = String.length a' -> a ++s b = a' ++s b' -> a = a' /\ b = b'.
Proof.
  revert a'; induction a as [|x a IH]; intros [|y a'] Hl H; try done. injection H as -> H. injection Hl as Hl.
  by destruct (IH a' Hl H) as [-> ->].
Qed.
Lemma app_inj_right (a a' b : string) : a ++s b = a' ++s b -> a = a'.
Proof.
  intros H. assert (String.length (a ++s b) = String.length (a' ++s b)) as E by (by rewrite H). rewrite !sapp_length in E.
  apply (app_inj_length a a' b b); [lia|exact H].
Qed.
Lemma substring_length n s : n <= String.length s -> String.length (String.substring 0 n s) = n.
Proof. revert n; induction s as [|a s IH]; intros [|n] H; simpl in *; try lia. f_equal. apply IH. lia. Qed.

(** The file of a series tells its key. *)
Lemma RrdFileName_inv base md5 ds step f :
  RrdFileName base md5 ds step = Ret f ->
  exists p, String.length p = 2 /\ f = base ++s "/" ++s p ++s "/" ++s FormRrdCacheKey md5 ds step ++s ".rrd".
Proof.
  unfold RrdFileName, slice, slen. destruct (_ && _) eqn:E; [|done]. intros [= <-]. exists (String.substring 0 2 md5). split.
  - apply substring_length. apply andb_prop in E as [_ E]. apply Z.leb_le in E. lia.
  - unfold FormRrdCacheKey. by autorewrite with gostr.
Qed.
Lemma RrdFileName_key base md5 ds step md5' ds' step' f :
  RrdFileName base md5 ds step = Ret f -> RrdFileName base md5' ds' step' = Ret f ->
  FormRrdCacheKey md5 ds step = FormRrdCacheKey md5' ds' step'.
Proof.
  intros (p & Hp & ->)%RrdFileName_inv (p' & Hp' & E)%RrdFileName_inv. apply sapp_cancel, sapp_cancel in E.
  apply app_inj_length in E as [_ E]; [|congruence]. apply sapp_cancel in E. by apply app_inj_right in E.
Qed.

Section stuck.
Context (k md5 ds : string) (step : Z) (L0 : list GraphItem).
Context (Hk : SplitRrdCacheKey k = (md5, ds, step, false)) (Hcan : canonical k).

(** The series is flagged as missing and its points are still there. *)
Definition local_stuck (s : GraphState) : Prop :=
  gm_ok (gs_items s) /\
  exists sl l, view (gs_items s) k = Some sl /\ Z.testbit (sl_Flag sl) 0 = true /\ sl_L sl = (l ++ L0)%list.

Lemma stuck_same_points {A} (m : G A) : moves same_points m -> keeps local_stuck m.
Proof using Type. intros Hm s a s' H E. destruct (Hm _ _ _ E) as [Hi _]. unfold local_stuck in *. by rewrite <- Hi. Qed.
Lemma stuck_update {A} (f : GraphItemMap -> res (A * GraphItemMap)) key o (g : option GList -> option GList) :
  (forall t, gm_ok t -> exists t', f t = Ret (o t, t') /\ updated t t' key (g (view t key))) ->
  (key = k -> forall sl l, Z.testbit (sl_Flag sl) 0 = true -> sl_L sl = (l ++ L0)%list ->
     exists sl' l', g (Some sl) = Some sl' /\ Z.testbit (sl_Flag sl') 0 = true /\ sl_L sl' = (l' ++ L0)%list) ->
  keeps local_stuck (items_update f).
Proof using Type.
  intros Hf Hg s a s' (Hok & sl & l & Hv & Hb & Hl) H. apply items_update_inv in H as (t & E & ->).
  destruct (Hf _ Hok) as (t' & E' & Hok' & _ & Hv'). rewrite E' in E. injection E as _ <-. split; [done|]. cbn. rewrite Hv'.
  destruct (decide (k = key)) as [<-|Hne]; [|by exists sl, l]. rewrite Hv. by apply (Hg eq_refl sl l).
Qed.
Lemma stuck_SetFlag key flag : (key = k -> Z.testbit flag 0 = true) -> keeps local_stuck (items_update (fun t => GM_SetFlag t key flag)).
Proof using Type.
  intros Hb. eapply (stuck_update _ key _ (fun o => (fun sl => mkGList flag (sl_L sl)) <$> o)).
  - intros t Hg. by apply GM_SetFlag_spec.
  - intros E sl l _ Hl. do 2 eexists. split; [reflexivity|]. split; [by apply Hb|exact Hl].
Qed.
Lemma stuck_PopAll key : key <> k -> keeps local_stuck (items_update (fun t => GM_PopAll t key)).
Proof using Type.
  intros Hne. eapply (stuck_update _ key _ (fun o => (fun sl => mkGList (sl_Flag sl) []) <$> o)); [|done].
  intros t Hg. by apply GM_PopAll_spec.
Qed.
Lemma stuck_PushFront miss key item : keeps local_stuck (items_update (fun t => let! t := GM_PushFront miss t key item in Ret (tt, t))).
Proof using Type.
  eapply (stuck_update _ key (fun _ => tt) (fun o => Some (pushed miss item o))).
  - intros t Hg. destruct (GM_PushFront_spec miss t key item Hg) as (t' & -> & Hu). by exists t'.
  - intros E sl l Hb Hl. exists (SL_PushFront item sl), (item :: l). split; [done|]. split; [done|]. cbn. by rewrite Hl.
Qed.

Section with_env.
Context (env : GEnv) (cfg : GConfig).
Lemma stuck_handleItems items : keeps local_stuck (handleItems env cfg items).
Proof using Type.
  unfold handleItems. destruct (_ =? _)%nat; [apply keeps_ret|]. apply keeps_forM. intros [item|] _; unfold handleItem; [|apply keeps_ret].
  destruct (negb _); [apply stuck_same_points; gwalk|]. destruct (negb _); [apply stuck_same_points; gwalk|].
  apply keeps_then; [apply stuck_same_points; gwalk|]. intros _. apply keeps_then; [apply stuck_same_points; gwalk|]. intros first.
  destruct (match first with Some _ => _ | None => false end); [apply keeps_ret|].
  apply keeps_then; [apply keeps_lift|]. intros name. apply keeps_then; [apply stuck_same_points; unfold IsRrdFileExist; gwalk|]. intros ex.
  apply keeps_then; [apply stuck_PushFront|]. intros _. apply keeps_then; [apply stuck_same_points, ReceiveItem_same|]. intros _.
  apply keeps_modify. intros s H. exact H.
Qed.
Lemma stuck_CommitByKey key : key <> k -> keeps local_stuck (CommitByKey env cfg key).
Proof using Type.
  intros Hne. unfold CommitByKey. destruct (SplitRrdCacheKey key) as [[[md5' ds'] step'] err]. destruct err; [apply keeps_ret|].
  apply keeps_then; [apply keeps_lift|]. intros name. apply keeps_then; [by apply stuck_PopAll|]. intros items.
  destruct (_ =? _)%nat; [apply keeps_ret|]. apply keeps_then; [apply stuck_same_points, FlushFile_same|]. intros. apply keeps_ret.
Qed.
Lemma io_write_same filename body : moves same_points (io_write env filename body).
Proof using Type. unfold io_write, writeFile, IsRrdFileExist. gwalk. Qed.

(** A graph with no file of the series and nothing waiting for it. *)
Definition lacks (s : GraphState) : Prop :=
  gm_ok (gs_items s) /\ waiting s k = [] /\ forall f, RrdFileName (gc_Storage cfg) md5 ds step = Ret f -> gs_disk s !! f = None.

Lemma flushrrd_files filename items s b s' :
  flushrrd env filename items s = Ret (b, s') -> gs_items s' = gs_items s /\ forall f, f <> filename -> gs_disk s' !! f = gs_disk s !! f.
Proof using Type.
  unfold flushrrd, IsRrdFileExist, mthen, gets, glook, modify, skip, ret. destruct items as [|it its]; [by intros [= _ <-]|].
  generalize (update_points (it :: its)). intros u. destruct (bool_decide _); cbn [negb].
  - destruct (g_update env _); intros [= _ <-]; (split; [done|]); intros f Hf; cbn; by rewrite ?lookup_insert_ne.
  - destruct (g_create env _); cbn [negb]; [destruct (g_update env _)|]; intros [= _ <-]; (split; [done|]); intros f Hf; cbn; by rewrite ?lookup_insert_ne.
Qed.
Lemma ReadFile_same filename s r s' : ReadFile env filename s = Ret (r, s') ->
  gs_items s' = gs_items s /\ gs_disk s' = gs_disk s /\ (gs_disk s !! filename = None -> exists text, r = inr text).
Proof using Type.
  unfold ReadFile, mthen, gets, glook, ret. destruct (gs_disk s !! filename); intros [= <- <-]; split_and!; try done. eauto.
Qed.

Lemma GetRrd_lacks key s r s' :
  canonical key -> lacks s -> GetRrd env cfg key s = Ret (r, s') -> lacks s' /\ (key = k -> exists text, r = inr text).
Proof using Hk Hcan.
  intros Hkey (Hg & Hw & Hd) H. unfold GetRrd in H. destruct (SplitRrdCacheKey key) as [[[md5' ds'] step'] err] eqn:Es.
  destruct err; [injection H as <- <-; split; [done|]; eauto|]. step_inv H. apply lift_inv in E as [Ef ->]. step_inv H.
  destruct (PopAll_run key s a0 s0 Hg E) as (-> & Hd0 & Hu). pose proof Hu as [Hg0 _]. destruct (popped_waiting _ s s0 key eq_refl Hu) as [_ Hw0].
  assert (waiting s0 k = []) as Hwk by (rewrite Hw0; by destruct (decide _)).
  step_inv H. destruct (ReadFile_same _ _ _ _ H) as (Hi' & Hd' & Hr).
  assert (gs_items s1 = gs_items s0 /\ (key = k -> gs_disk s1 = gs_disk s0) /\ forall f, f <> a -> gs_disk s1 !! f = gs_disk s0 !! f) as (Hi1 & Hd1 & Hf1).
  { destruct (0 <? length (waiting s key))%nat eqn:El; [|by injection E0 as _ <-]. step_inv E0. injection E0 as _ <-.
    unfold FlushFile, count in E1. step_inv E1. injection E0 as _ <-. destruct (flushrrd_files _ _ _ _ _ E1) as [H1 H2].
    split_and!; [exact H1| |exact H2]. intros ->. by rewrite Hw in El. }
  assert (forall f, RrdFileName (gc_Storage cfg) md5 ds step = Ret f -> gs_disk s1 !! f = None) as Hlack.
  { intros f Hf. destruct (decide (key = k)) as [->|Hne]; [rewrite (Hd1 eq_refl), Hd0; by apply Hd|].
    rewrite Hf1, Hd0; [by apply Hd|]. intros ->. apply Hne. rewrite (Hkey _ _ _ Es), (Hcan _ _ _ Hk). by eapply RrdFileName_key. }
  split.
  - unfold lacks, waiting. rewrite Hi', Hi1, Hd'. split_and!; [done|exact Hwk|done].
  - intros ->. apply Hr, Hlack. rewrite Hk in Es. by injection Es as <- <- <-.
Qed.
End with_env.
End stuck.

Lemma start_task_pull env id t : nt_Method t = NET_TASK_M_PULL ->
  start_task env id t = do! busy := gets mg_timeout in if busy : bool then send_begin id t else fetch_begin env id t.
Proof. intros H. unfold start_task. by rewrite H. Qed.

Section stuck_world.
Context (env : MEnv) (k md5 ds : string) (step : Z) (L0 : list GraphItem).
Context (Hk : SplitRrdCacheKey k = (md5, ds, step, false)) (Hcan : canonical k).
Context (Hon : gc_Migrate (m_gcfg env) = true) (Hlate : forall n, m_late env n = false).

Definition pull_of (t : Net_task_t) : Prop := nt_Method t = NET_TASK_M_PULL /\ canonical (nt_Key t).
Definition stuck_pc (p : pc) : Prop :=
  match p with
  | Idle => True
  | InFetch t flag _ _ => pull_of t /\ (nt_Key t = k -> Z.testbit flag 0 = true)
  | InWrite t _ _ _ => pull_of t /\ nt_Key t <> k
  | InSend _ _ _ _ | InQuery _ _ _ => False
  end.
(** No flush was late, the tasks are pulls, and no graph on the old ring has the series. *)
Record stuck (w : MigState) : Prop := {
  st_local : local_stuck k L0 (mg_local w);
  st_remote : forall a g, mg_remote w !! a = Some g -> lacks k md5 ds step (m_remote_cfg env a) g;
  st_timeout : mg_timeout w = false;
  st_tasks : forall node q t, mg_tasks w !! node = Some q -> t ∈ q -> pull_of t;
  st_workers : forall x, x ∈ mg_workers w -> stuck_pc (wk_pc x) }.

Lemma stuck_same w w' :
  mg_local w' = mg_local w -> mg_remote w' = mg_remote w -> mg_timeout w' = mg_timeout w ->
  mg_tasks w' = mg_tasks w -> mg_workers w' = mg_workers w -> stuck w -> stuck w'.
Proof using Type. intros H1 H2 H3 H4 H5 [? ? ? ? ?]. by split; rewrite ?H1, ?H2, ?H3, ?H4, ?H5. Qed.
Lemma stuck_modify f : (forall w, mg_local (f w) = mg_local w /\ mg_remote (f w) = mg_remote w /\ mg_timeout (f w) = mg_timeout w /\
  mg_tasks (f w) = mg_tasks w /\ mg_workers (f w) = mg_workers w) -> keeps stuck (modify f).
Proof using Type. intros H. apply keeps_modify. intros w Hw. destruct (H w) as (? & ? & ? & ? & ?). by eapply stuck_same. Qed.
Lemma stuck_mlook {A} (f : nat -> A) : keeps stuck (mlook f).
Proof using Type. intros w a w' Hw [= <- <-]. by apply (stuck_same w). Qed.
Lemma stuck_goto id p : stuck_pc p -> keeps stuck (goto id p).
Proof using Type.
  intros Hp. apply keeps_modify. intros w [H1 H2 H3 H4 H5]. split; try done. cbn. intros x Hx.
  apply list_elem_of_lookup in Hx as [i Hx]. destruct (decide (i = id)) as [->|Hne].
  - rewrite list_lookup_alter_eq in Hx. destruct (mg_workers w !! id); [|done]. by injection Hx as <-.
  - rewrite list_lookup_alter_ne in Hx by done. apply list_elem_of_lookup_2 in Hx. by apply H5.
Qed.
Lemma stuck_local {A} (m : G A) : keeps (local_stuck k L0) m -> keeps stuck (on_local m).
Proof using Type.
  intros Hm w a w' [H1 H2 H3 H4 H5] E. unfold on_local in E. destruct (m (mg_local w)) as [[b g]|] eqn:Em; [|done]. injection E as <- <-.
  split; try done. by eapply Hm.
Qed.

Ltac stuck_walk := repeat match goal with
  | |- keeps _ (mthen _ _) => apply keeps_then; [|intros]
  | |- keeps _ (ret _) => apply keeps_ret
  | |- keeps _ skip => apply keeps_ret
  | |- keeps _ (gets _) => apply keeps_gets
  | |- keeps _ (lift _) => apply keeps_lift
  | |- keeps _ (forM _ _) => apply keeps_forM; intros
  | |- keeps stuck (mlook _) => apply stuck_mlook
  | |- keeps stuck (bump _) => apply stuck_modify; done
  | |- keeps stuck (modify _) => apply stuck_modify; done
  | |- keeps stuck (goto _ _) => apply stuck_goto; try done
  | |- keeps _ (match ?x with _ => _ end) => destruct x eqn:?
  end.

Lemma set_flag_stuck key flag : (key = k -> Z.testbit flag 0 = true) -> keeps stuck (set_flag key flag).
Proof using Type. intros H. unfold set_flag. stuck_walk. by apply stuck_local, stuck_SetFlag. Qed.
Lemma task_done_stuck id task err values : keeps stuck (task_done id task err values).
Proof using Type. unfold task_done. stuck_walk. Qed.
Lemma after_error_stuck addr e failed : keeps stuck (after_error addr e failed).
Proof using Type. unfold after_error, reconnection. stuck_walk. Qed.
Lemma fetched_stuck id task err :
  (nt_Key task = k -> match err with Some e => IsNotExist e = false | None => True end) -> keeps stuck (fetched_task env id task err).
Proof using Type.
  intros He. unfold fetched_task. stuck_walk; try apply task_done_stuck.
  - apply set_flag_stuck. intros ->%He. done.
  - apply stuck_local, stuck_CommitByKey. intros E%He. congruence.
Qed.
Lemma testbit_without f b : Z.testbit f 0 = true -> Z.testbit b 0 = false -> Z.testbit (Z.land f (Z.lnot b)) 0 = true.
Proof using Type. intros Hf Hb. rewrite Z.land_spec, Z.lnot_spec by lia. by rewrite Hf, Hb. Qed.
Lemma fetch_out_stuck id task flag err :
  (nt_Key task = k -> Z.testbit flag 0 = true /\ match err with Some e => IsNotExist e = false | None => True end) ->
  keeps stuck (fetch_out env id task flag err).
Proof using Type.
  intros H. unfold fetch_out. stuck_walk; [|apply fetched_stuck; intros Ek; by apply H].
  apply set_flag_stuck. intros Ek. apply testbit_without; [by apply H|done].
Qed.

(** What a call of [GetRrd] answers. *)
Lemma rpc_GetRrd_stuck addr key w r w' :
  canonical key -> stuck w -> rpc_call env addr (GetRrd (m_remote_env env addr) (m_remote_cfg env addr) key) w = Ret (r, w') ->
  stuck w' /\ match r with inl _ => key <> k | inr (e, _) => IsNotExist e = false end.
Proof using Hk Hcan.
  intros Hkey Hw H. unfold rpc_call in H. step_inv H.
  assert (stuck s) as Hs by (by eapply stuck_mlook).
  assert (forall b w1, on_remote addr (GetRrd (m_remote_env env addr) (m_remote_cfg env addr) key) s = Ret (b, w1) ->
    stuck w1 /\ (key = k -> exists text, b = inr text)) as Hcall.
  { intros b w1 Hb. unfold on_remote in Hb. destruct (mg_remote s !! addr) as [g|] eqn:Eg; [|done].
    destruct (GetRrd _ _ key g) as [[b' g']|] eqn:Er; [|done]. injection Hb as <- <-.
    destruct (GetRrd_lacks k md5 ds step Hk Hcan _ _ key g b' g' Hkey (st_remote _ Hs _ _ Eg) Er) as [Hg' Hr']. split; [|done].
    destruct Hs as [H1 H2 H3 H4 H5]. split; try done. cbn. intros a' g1 Ha'. destruct (decide (a' = addr)) as [->|].
    - rewrite lookup_insert_eq in Ha'. by injection Ha' as <-.
    - rewrite lookup_insert_ne in Ha' by done. by apply H2. }
  destruct a as [|ran|ran|failed].
  - step_inv H. injection H as <- <-. destruct (Hcall _ _ E0) as [Hs' Hr]. split; [done|]. destruct a; [|done]. intros [? [=]]%Hr.
  - step_inv H. injection H as <- <-. destruct ran; [step_inv E0; injection E0 as _ <-; by destruct (Hcall _ _ E1)|by injection E0 as _ <-].
  - step_inv H. injection H as <- <-. destruct ran; [step_inv E0; injection E0 as _ <-; by destruct (Hcall _ _ E1)|by injection E0 as _ <-].
  - by injection H as <- <-.
Qed.

Lemma fetch_call_stuck id addr task flag filename i :
  pull_of task -> (nt_Key task = k -> Z.testbit flag 0 = true) -> keeps stuck (fetch_call env id addr task flag filename i).
Proof using Hk Hcan.
  intros [Hm Hc] Hb w a w' Hw H. unfold fetch_call in H. step_inv H. destruct (rpc_GetRrd_stuck _ _ _ _ _ Hc Hw E) as [Hs Hr].
  destruct a0 as [body|[e failed]]; [by eapply stuck_goto; [| |exact H]|]. step_inv H.
  pose proof (after_error_stuck _ _ _ _ _ _ Hs E0) as Hs0. destruct (i <? 2)%nat; [by eapply stuck_goto; [| |exact H]|].
  by eapply fetch_out_stuck; [| |exact H]; [intros Ek; auto|].
Qed.
Lemma fetch_write_stuck id task flag filename body : nt_Key task <> k -> keeps stuck (fetch_write env id task flag filename body).
Proof using Type.
  intros Hne. unfold fetch_write. stuck_walk; try (by apply fetch_out_stuck). apply stuck_local, stuck_same_points, io_write_same.
Qed.
Lemma fetch_begin_stuck id task : pull_of task -> keeps stuck (fetch_begin env id task).
Proof using Type.
  intros [Hm Hc] w a w' Hw H. unfold fetch_begin in H. step_inv H. unfold get_flag, on_local in E.
  destruct (items_read _ (mg_local w)) as [[b g]|] eqn:Eg; [|done]. injection E as <- <-. apply items_read_inv in Eg as [Eg ->].
  pose proof (st_local _ Hw) as (Hok & sl & l & Hv & Hbit & _). unfold GM_GetFlag in Eg. rewrite GM_Get_spec in Eg by done. injection Eg as <-.
  assert (stuck (w_set_local (mg_local w) w)) as Hw1 by (by apply (stuck_same w)).
  destruct (view (gs_items (mg_local w)) (nt_Key task)) as [sl'|] eqn:Ev; cbn [fmap option_fmap option_map] in H.
  - assert (nt_Key task = k -> Z.testbit (sl_Flag sl') 0 = true) as Hb by (intros Ek; rewrite Ek, Hv in Ev; by injection Ev as <-).
    step_inv H. assert (stuck s) as Hs.
    { refine (set_flag_stuck (nt_Key task) (Z.lor (sl_Flag sl') GRAPH_F_FETCHING) _ _ _ _ Hw1 E). intros Ek. rewrite Z.lor_spec. by rewrite Hb. }
    destruct (SplitRrdCacheKey (nt_Key task)) as [[[? ?] ?] ?]. step_inv H. apply lift_inv in E0 as [_ ->].
    by eapply stuck_goto; [| |exact H].
  - eapply fetched_stuck; [|exact Hw1|exact H]. intros Ek. by rewrite Ek, Hv in Ev.
Qed.

Lemma net_task_worker_stuck id : keeps stuck (net_task_worker env id).
Proof using Hk Hcan.
  intros w a w' Hw H. unfold net_task_worker in H. step_inv H. injection E as <- <-.
  destruct (mg_workers w !! id) as [x|] eqn:Ex; [|by injection H as _ <-].
  pose proof (st_workers _ Hw x) as Hx. specialize (Hx ltac:(by apply list_elem_of_lookup_2 in Ex)).
  destruct (wk_pc x); [|done|by eapply fetch_call_stuck; [apply Hx..|exact Hw|exact H]|by eapply fetch_write_stuck; [apply Hx|exact Hw|exact H]|done].
  step_inv H. injection E as <- <-. destruct (default [] (mg_tasks w !! wk_node x)) as [|t q] eqn:Ed; [by injection H as _ <-|].
  assert (mg_tasks w !! wk_node x = Some (t :: q)) as Eq by (destruct (mg_tasks w !! wk_node x); cbn in Ed; congruence).
  destruct (st_tasks _ Hw _ _ t Eq) as [Hm Hc]; [left|]. step_inv H. injection E as _ <-.
  assert (stuck (w_set_tasks (<[wk_node x := q]> (mg_tasks w)) w)) as Hw1.
  { destruct Hw as [H1 H2 H3 H4 H5]. split; try done. cbn. intros node q' t' Hq' Ht'. destruct (decide (node = wk_node x)) as [->|].
    - rewrite lookup_insert_eq in Hq'. injection Hq' as <-. apply (H4 _ _ _ Eq). by right.
    - rewrite lookup_insert_ne in Hq' by done. by eapply H4. }
  rewrite (start_task_pull env id t Hm) in H. step_inv H. injection E as <- <-. cbn [mg_timeout w_set_tasks] in H. rewrite (st_timeout _ Hw) in H.
  by eapply fetch_begin_stuck; [|exact Hw1|exact H].
Qed.

Lemma push_task_stuck node t : pull_of t -> keeps stuck (push_task node t).
Proof using Type.
  intros Ht w a w' Hw H. unfold push_task in H. step_inv H. injection E as <- <-. destruct (mg_tasks w !! node) as [q|] eqn:Eq; [|by injection H as _ <-].
  destruct (length q <? 16)%nat; [|by injection H as _ <-]. step_inv H. injection E as _ <-. injection H as _ <-.
  destruct Hw as [H1 H2 H3 H4 H5]. split; try done. cbn. intros node' q' t' Hq' Ht'. destruct (decide (node' = node)) as [->|].
  - rewrite lookup_insert_eq in Hq'. injection Hq' as <-. apply elem_of_app in Ht' as [Ht'|Ht'%list_elem_of_singleton]; [by eapply H4|by subst].
  - rewrite lookup_insert_ne in Hq' by done. by eapply H4.
Qed.
Lemma PullByKey_stuck key : canonical key -> keeps stuck (PullByKey key).
Proof using Type.
  intros Hc. unfold PullByKey. stuck_walk; [|by apply push_task_stuck]. apply stuck_local, stuck_same_points. gwalk.
Qed.
Lemma flush_key_stuck key : canonical key -> keeps stuck (flush_key env key false).
Proof using Hon Hlate.
  intros Hc w a w' Hw H. unfold flush_key in H. rewrite Hon in H. cbn [negb andb] in H. step_inv H. unfold get_flag, on_local in E.
  destruct (items_read _ (mg_local w)) as [[b g]|] eqn:Eg; [|done]. injection E as <- <-. apply items_read_inv in Eg as [Eg ->].
  pose proof (st_local _ Hw) as (Hok & sl & l & Hv & Hbit & _). unfold GM_GetFlag in Eg. rewrite GM_Get_spec in Eg by done. injection Eg as <-.
  assert (stuck (w_set_local (mg_local w) w)) as Hw1 by (by apply (stuck_same w)).
  assert (forall f, Z.testbit f 0 = true -> Z.land f GRAPH_F_MISS <> 0%Z) as Hland.
  { intros f Hf E. assert (Z.testbit (Z.land f GRAPH_F_MISS) 0 = true) as Et by (by rewrite Z.land_spec, Hf). by rewrite E in Et. }
  destruct (negb _) eqn:Emiss.
  - step_inv H. injection E as <- <-. rewrite Hlate in H. step_inv H. injection E as _ <-.
    assert (stuck (w_next (w_set_local (mg_local w) w))) as Hw2 by (by apply (stuck_same w)).
    refine (PullByKey_stuck key Hc _ _ _ Hw2 H).
  - step_inv H. assert (key <> k) as Hne.
    { intros ->. rewrite Hv in Emiss. cbn in Emiss. apply negb_false_iff, Z.eqb_eq in Emiss. by apply Hland in Hbit. }
    assert (stuck s) as Hs.
    { refine (stuck_local _ _ _ _ _ Hw1 E). apply stuck_same_points. unfold shouldFlush. gwalk. }
    step_inv H. injection H as _ <-. destruct a0; [|by injection E0 as _ <-].
    refine (stuck_local _ _ _ _ _ Hs E0). by apply stuck_CommitByKey.
Qed.
Lemma run_mig_op_stuck op :
  match op with OpFlushKey key force => canonical key /\ force = false | OpAsk _ => False | _ => True end -> keeps stuck (run_mig_op env op).
Proof using Hk Hcan Hon Hlate.
  destruct op; cbn [run_mig_op]; intros Hop; [| | |done|apply net_task_worker_stuck].
  - apply stuck_local, stuck_handleItems.
  - apply keeps_modify. intros w [H1 H2 H3 H4 H5]. by split.
  - destruct Hop as [Hc ->]. stuck_walk. by apply flush_key_stuck.
Qed.
End stuck_world.

(** A series the graphs on the old ring do not have is never written while they
    answer: the error of a missing file comes back as a text that [os.IsNotExist]
    does not recognise, so the branch that gives the series up to the local disk
    is not taken. As long as no flush is late, whatever comes in and however often
    the series is flushed and pulled, all its points stay in memory, in front of
    them what came since, and it stays flagged as missing. *)
Theorem new_series_never_flushed (env : MEnv) (ops : list mig_op) (w : MigState) (n : Z) (A : gset string)
    (k md5 ds : string) (step : Z) (sl : GList) :
  SplitRrdCacheKey k = (md5, ds, step, false) -> canonical k ->
  gc_Migrate (m_gcfg env) = true -> (forall n, m_late env n = false) ->
  mig_wf n A w -> view (gs_items (mg_local w)) k = Some sl -> stuck env k md5 ds step (sl_L sl) w ->
  Forall (fun op => op_wf op /\ match op with OpFlushKey key force => canonical key /\ force = false | _ => True end) ops ->
  exists w' sl' newer, mig_run env ops w = Ret (tt, w') /\
    view (gs_items (mg_local w')) k = Some sl' /\ sl_L sl' = (newer ++ sl_L sl)%list /\ Z.testbit (sl_Flag sl') 0 = true /\
    forall a g, mg_remote w' !! a = Some g -> lacks k md5 ds step (m_remote_cfg env a) g.
Proof.
  intros Hk Hcan Hon Hlate Hwf Hv Hw Hops. rewrite Forall_forall in Hops.
  destruct (runs_forM (mig_wf n A) ops (run_mig_op env)) with (s := w) as ([] & w' & H & _); [|done|].
  { intros op Hop. apply run_mig_op_runs. by apply Hops. }
  assert (stuck env k md5 ds step (sl_L sl) w') as [(_ & sl' & l & Hv' & Hb & Hl) Hr _ _ _].
  { refine (keeps_forM (stuck env k md5 ds step (sl_L sl)) ops (run_mig_op env) _ _ _ _ Hw H).
    intros op Hop. apply run_mig_op_stuck; [exact Hk|exact Hcan|exact Hon|exact Hlate|]. specialize (Hops _ Hop). destruct op; cbn in Hops |- *; tauto. }
  by exists w', sl', l.
Qed.

(** * A pull *)

(** What the file of a series would hold after a flush, when there is anything of it. *)
Definition content (g : GraphState) (filename key : string) : option (list GraphItem) :=
  match gs_disk g !! filename, waiting g key with
  | None, [] => None
  | old, items => Some (default [] old ++ update_points items)%list
  end.

Section pull.
Context (key x ds : string) (step : Z) (Hsplit : SplitRrdCacheKey key = (Md5 x, ds, step, false)).

Lemma GetRrd_content env cfg g filename body :
  disk_works env -> (forall n, g_read env n = true) -> gm_ok (gs_items g) ->
  RrdFileName (gc_Storage cfg) (Md5 x) ds step = Ret filename -> content g filename key = Some body ->
  exists g', GetRrd env cfg key g = Ret (inl body, g') /\ gm_ok (gs_items g') /\ content g' filename key = Some body /\ waiting g' key = [].
Proof using Hsplit.
  intros [Hc Hu] Hr Hg Hf Hbody. unfold GetRrd. rewrite Hsplit. unfold mthen at 1. unfold lift. rewrite Hf.
  destruct (GM_PopAll_spec (gs_items g) key Hg) as (t & E & Hupd).
  assert (items_update (fun t => GM_PopAll t key) g = Ret (waiting g key, set_items t g)) as Epop.
  { unfold items_update, mthen, gets, lift, modify, ret. by rewrite E. }
  unfold mthen at 1. rewrite Epop. pose proof Hupd as [Hg' _].
  destruct (popped_waiting (gs_items g) g (set_items t g) key eq_refl Hupd) as [_ Hw]. specialize (Hw key). rewrite decide_True in Hw by done.
  assert (forall g', gs_items g' = t -> gs_disk g' !! filename = Some body ->
    exists g'', ReadFile env filename g' = Ret (inl body, g'') /\ gm_ok (gs_items g'') /\ content g'' filename key = Some body /\ waiting g'' key = []) as Hread.
  { intros g' Hi Hd. unfold ReadFile, mthen, gets, glook, ret. rewrite Hd, Hr. eexists. split; [done|]. cbn. rewrite Hi. split; [done|].
    unfold content, waiting in *. cbn in *. rewrite Hi, Hd, Hw. split; [|done]. cbn. by rewrite app_nil_r. }
  unfold content in Hbody. destruct (waiting g key) as [|it its] eqn:Ew.
  - refine (Hread (set_items t g) eq_refl _). cbn [gs_disk set_items]. destruct (gs_disk g !! filename); [|done]. cbn in Hbody. by rewrite app_nil_r in Hbody.
  - change (0 <? length (it :: its))%nat with true. cbv iota. unfold FlushFile, flushrrd, IsRrdFileExist, count, skip.
    revert Hbody. generalize (update_points (it :: its)). intros u Hbody.
    assert ((default [] (gs_disk g !! filename) ++ u)%list = body) as Hb by (destruct (gs_disk g !! filename); by injection Hbody). clear Hbody.
    unfold mthen, modify, gets, ret, glook. cbn [gs_disk set_cnt set_items gs_tick].
    destruct (bool_decide (is_Some (gs_disk g !! filename))) eqn:Eex; cbn [negb]; rewrite ?Hc, ?Hu; cbn [negb]; rewrite ?Hu; apply Hread; try done; cbn.
    + by rewrite lookup_insert_eq, Hb.
    + rewrite !lookup_insert_eq. cbn. apply bool_decide_eq_false in Eex. destruct (gs_disk g !! filename); [by destruct Eex|]. by rewrite <- Hb.
Qed.

(** A worker at the call of [GetRrd], the remote graph having something of the series. *)
Section at_fetch.
Context (env : MEnv) (id : nat) (node addr : string) (task : Net_task_t) (flag : Z) (filename rname : string) (body : list GraphItem) (l1 : GraphState).
Context (Htask : nt_Key task = key).
Context (Hremote : disk_works (m_remote_env env addr)) (Hread : forall n, g_read (m_remote_env env addr) n = true).
Context (Hrname : RrdFileName (gc_Storage (m_remote_cfg env addr)) (Md5 x) ds step = Ret rname).

Definition has_series (w : MigState) : Prop :=
  exists g, mg_remote w !! addr = Some g /\ gm_ok (gs_items g) /\ content g rname key = Some body.
Definition at_pc (p : pc) (tick : nat) (w : MigState) : Prop :=
  mg_local w = l1 /\ has_series w /\ mg_workers w !! id = Some (mkWorker node addr p) /\ mg_tick w = tick.

Lemma after_error_at e failed p tick : runs (at_pc p tick) (after_error addr e failed).
Proof using Type.
  unfold after_error, reconnection. destruct e; try apply runs_ret. apply runs_then; [by apply runs_modify|]. intros _.
  apply runs_then; [by apply runs_modify|]. intros _. apply runs_forM. intros. by apply runs_modify.
Qed.
Lemma goto_at p q tick w : at_pc p tick w -> exists w', goto id q w = Ret (tt, w') /\ at_pc q tick w'.
Proof using Type.
  intros (H1 & H2 & H3 & H4). eexists. split; [done|]. split_and!; [done|done| |done]. cbn. by rewrite list_lookup_alter_eq, H3.
Qed.
Lemma on_remote_GetRrd p tick w : at_pc p tick w ->
  exists w', on_remote addr (GetRrd (m_remote_env env addr) (m_remote_cfg env addr) key) w = Ret (inl body, w') /\ at_pc p tick w' /\
    exists g, mg_remote w' !! addr = Some g /\ waiting g key = [].
Proof using Hsplit Hremote Hread Hrname.
  intros (H1 & (g & Hg & Hok & Hc) & H3 & H4). unfold on_remote. rewrite Hg.
  destruct (GetRrd_content _ (m_remote_cfg env addr) g rname body Hremote Hread Hok Hrname Hc) as (g' & -> & Hok' & Hc' & Hw').
  eexists. split; [done|]. split; [|exists g'; cbn; by rewrite lookup_insert_eq]. split_and!; [done| |done|done].
  exists g'. cbn. by rewrite lookup_insert_eq.
Qed.

(** A call that fails leaves the series where it was. *)
Lemma fetch_fails i tick w :
  at_pc (InFetch task flag filename i) tick w -> m_fate env tick <> Answered -> (i < 2)%nat ->
  exists w', net_task_worker env id w = Ret (tt, w') /\ at_pc (InFetch task flag filename (S i)) (S tick) w'.
Proof using Hsplit Htask Hremote Hread Hrname.
  intros Hw Hfate Hi. pose proof Hw as (_ & _ & Hk & Ht). unfold net_task_worker. unfold mthen at 1. unfold gets at 1. rewrite Hk.
  cbn [wk_pc wk_addr]. unfold fetch_call. rewrite Htask.
  assert (exists e failed w1, rpc_call env addr (GetRrd (m_remote_env env addr) (m_remote_cfg env addr) key) w = Ret (inr (e, failed), w1) /\
    at_pc (InFetch task flag filename i) (S tick) w1) as (e & failed & w1 & Ecall & Hw1).
  { assert (at_pc (InFetch task flag filename i) (S tick) (w_next w)) as Hn by (destruct Hw as (? & ? & ? & <-); done).
    unfold rpc_call. unfold mthen at 1. unfold mlook. rewrite Ht. destruct (on_remote_GetRrd _ _ _ Hn) as (w2 & E2 & Hw2 & _).
    destruct (m_fate env tick) as [|[]|[]|failed]; [done| | | | |]; unfold mthen; rewrite ?E2; by do 3 eexists. }
  unfold mthen at 1. rewrite Ecall. destruct (after_error_at e failed _ _ w1 Hw1) as ([] & w2 & E2 & Hw2). unfold mthen. rewrite E2.
  rewrite (proj2 (Nat.ltb_lt i 2)) by done. by eapply goto_at.
Qed.
Lemma fetch_answered i tick w :
  at_pc (InFetch task flag filename i) tick w -> m_fate env tick = Answered ->
  exists w', net_task_worker env id w = Ret (tt, w') /\ at_pc (InWrite task flag filename body) (S tick) w' /\
    exists g, mg_remote w' !! addr = Some g /\ waiting g key = [].
Proof using Hsplit Htask Hremote Hread Hrname.
  intros Hw Hfate. pose proof Hw as (_ & _ & Hk & Ht). unfold net_task_worker. unfold mthen at 1. unfold gets at 1. rewrite Hk.
  cbn [wk_pc wk_addr]. unfold fetch_call. rewrite Htask.
  assert (at_pc (InFetch task flag filename i) (S tick) (w_next w)) as Hn by (destruct Hw as (? & ? & ? & <-); done).
  destruct (on_remote_GetRrd _ _ _ Hn) as (w2 & E2 & Hw2 & Hg2).
  unfold rpc_call, mthen, mlook. rewrite Ht, Hfate, E2. unfold ret. destruct (goto_at _ (InWrite task flag filename body) _ _ Hw2) as (w3 & E3 & Hw3).
  rewrite E3. exists w3. split; [done|]. split; [done|]. injection E3 as <-. exact Hg2.
Qed.
Lemma fetch_fails_many n i tick w :
  at_pc (InFetch task flag filename i) tick w -> (forall j, (j < n)%nat -> m_fate env (tick + j) <> Answered) -> (i + n <= 2)%nat ->
  exists w', mig_run env (replicate n (OpWork id)) w = Ret (tt, w') /\ at_pc (InFetch task flag filename (i + n)) (tick + n) w'.
Proof using Hsplit Htask Hremote Hread Hrname.
  revert i tick w. induction n as [|n IH]; intros i tick w Hw Hf Hi.
  - exists w. rewrite !Nat.add_0_r. done.
  - destruct (fetch_fails i tick w Hw) as (w1 & E1 & Hw1); [rewrite <- (Nat.add_0_r tick); apply Hf; lia|lia|].
    destruct (IH (S i) (S tick) w1 Hw1) as (w' & E & Hw'); [|lia|].
    { intros j Hj. replace (S tick + j)%nat with (tick + S j)%nat by lia. apply Hf. lia. }
    exists w'. replace (i + S n)%nat with (S i + n)%nat by lia. replace (tick + S n)%nat with (S tick + n)%nat by lia. split; [|done].
    unfold mig_run in *. cbn [replicate forM run_mig_op]. unfold mthen. by rewrite E1.
Qed.
End at_fetch.
End pull.

Lemma set_flag_run key flag w :
  gm_ok (gs_items (mg_local w)) ->
  exists t, set_flag key flag w = Ret (tt, w_set_local (set_items t (mg_local w)) w) /\
    updated (gs_items (mg_local w)) t key ((fun sl => mkGList flag (sl_L sl)) <$> view (gs_items (mg_local w)) key).
Proof.
  intros Hok. destruct (GM_SetFlag_spec (gs_items (mg_local w)) key flag Hok) as (t & E & Hu). exists t. split; [|done].
  unfold set_flag, on_local, items_update, mthen, gets, lift, modify, skip, ret. by rewrite E.
Qed.
Lemma updated_waiting s t key sl flag : view (gs_items s) key = Some sl ->
  updated (gs_items s) t key ((fun sl => mkGList flag (sl_L sl)) <$> view (gs_items s) key) ->
  forall k, waiting (set_items t s) k = waiting s k.
Proof.
  intros Hv (_ & _ & Hview) k. unfold waiting. cbn. rewrite Hview. destruct (decide (k = key)) as [->|]; [|done]. by rewrite Hv.
Qed.

(** The beginning of a pull. *)
Lemma fetch_begin_run env id task w x ds step filename sl :
  SplitRrdCacheKey (nt_Key task) = (Md5 x, ds, step, false) -> RrdFileName (gc_Storage (m_gcfg env)) (Md5 x) ds step = Ret filename ->
  gm_ok (gs_items (mg_local w)) -> view (gs_items (mg_local w)) (nt_Key task) = Some sl ->
  exists t, fetch_begin env id task w = goto id (InFetch task (sl_Flag sl) filename 0) (w_set_local (set_items t (mg_local w)) w) /\
    updated (gs_items (mg_local w)) t (nt_Key task)
      ((fun sl' => mkGList (Z.lor (sl_Flag sl) GRAPH_F_FETCHING) (sl_L sl')) <$> view (gs_items (mg_local w)) (nt_Key task)).
Proof.
  intros Hs Hf Hok Hv. destruct (set_flag_run (nt_Key task) (Z.lor (sl_Flag sl) GRAPH_F_FETCHING) w Hok) as (t & E & Hu). exists t. split; [|done].
  unfold fetch_begin. unfold mthen at 1. unfold get_flag, on_local, items_read, GM_GetFlag.
  unfold mthen at 1. unfold gets, lift. rewrite GM_Get_spec by done. rewrite Hv. cbn [rbind fmap option_fmap option_map].
  replace (w_set_local (mg_local w) w) with w by (by destruct w). unfold mthen at 1. rewrite E. rewrite Hs. unfold mthen, lift. by rewrite Hf.
Qed.

(** The end of a pull whose file can be written. *)
Lemma fetch_write_run env id task flag filename body w sl :
  (forall n, g_mkdir (m_genv env) n = None) -> (forall n, g_write (m_genv env) n = WriteDone) ->
  gm_ok (gs_items (mg_local w)) -> view (gs_items (mg_local w)) (nt_Key task) = Some sl -> gs_disk (mg_local w) !! filename = None ->
  exists w', fetch_write env id task flag filename body w = Ret (tt, w') /\
    gs_disk (mg_local w') = <[filename := body]> (gs_disk (mg_local w)) /\ (forall k, waiting (mg_local w') k = waiting (mg_local w) k) /\
    view (gs_items (mg_local w')) (nt_Key task) = Some (mkGList (Z.land (Z.land flag (Z.lnot GRAPH_F_MISS)) (Z.lnot GRAPH_F_FETCHING)) (sl_L sl)) /\
    mg_remote w' = mg_remote w /\ mg_workers w' = alter (fun k => mkWorker (wk_node k) (wk_addr k) Idle) id (mg_workers w).
Proof.
  intros Hm Hwr Hok Hv Hd.
  assert (exists s, io_write (m_genv env) filename body (mg_local w) = Ret ([None], s) /\ gs_items s = gs_items (mg_local w) /\
    gs_disk s = <[filename := body]> (gs_disk (mg_local w))) as (s & E & Hi & Hds).
  { unfold io_write, writeFile, IsRrdFileExist, mthen, gets, glook, modify, ret. cbn [gs_disk graph_tick]. rewrite bool_decide_eq_false_2 by (rewrite Hd; by intros [? ?]).
    rewrite Hwr, Hm. by eexists. }
  unfold fetch_write. unfold mthen at 1. unfold on_local. rewrite E. unfold fetch_out, fetched_task, task_done.
  destruct (set_flag_run (nt_Key task) (Z.land (Z.land flag (Z.lnot GRAPH_F_MISS)) (Z.lnot GRAPH_F_FETCHING)) (w_set_local s w)) as (t & Es & Hu);
    [cbn; by rewrite Hi|]. cbn [mg_local w_set_local] in Es, Hu.
  unfold mthen at 1. rewrite Es. assert (view (gs_items s) (nt_Key task) = Some sl) as Hvs by (by rewrite Hi).
  pose proof (updated_waiting s t _ sl _ Hvs Hu) as Hw. destruct Hu as (_ & _ & Hview).
  destruct (nt_Done task); destruct (nt_Method task =? NET_TASK_M_PULL)%Z; rewrite ?bool_decide_eq_true_2 by done;
    (eexists; split; [reflexivity|]; split_and!; [exact Hds| | |done|done]);
    try (intros k; cbn [mg_local w_set_local w_set_workers w_set_stat w_add_result]; change (waiting (set_items t s) k = waiting (mg_local w) k); rewrite Hw; unfold waiting; by rewrite Hi);
    cbn; by rewrite Hview, decide_True, Hvs.
Qed.

(** A pull gets the whole series: when one of its three calls is answered and the
    old graph's disk works, the file the old graph would have after a flush,
    with the points still waiting there, is the local file, the old graph
    waits for nothing more, the flag is taken off, and the points waiting here
    go on waiting. *)
Theorem pull_brings_series (env : MEnv) (w : MigState) (id : nat) (node addr key x ds : string) (step : Z) (tasks : list Net_task_t)
    (sl : GList) (g : GraphState) (filename rname : string) (body : list GraphItem) (n : nat) :
  SplitRrdCacheKey key = (Md5 x, ds, step, false) ->
  mg_workers w !! id = Some (mkWorker node addr Idle) ->
  mg_tasks w !! node = Some (mkTask NET_TASK_M_PULL key true None :: tasks) -> mg_timeout w = false ->
  gm_ok (gs_items (mg_local w)) -> view (gs_items (mg_local w)) key = Some sl ->
  RrdFileName (gc_Storage (m_gcfg env)) (Md5 x) ds step = Ret filename -> gs_disk (mg_local w) !! filename = None ->
  (forall n, g_mkdir (m_genv env) n = None) -> (forall n, g_write (m_genv env) n = WriteDone) ->
  mg_remote w !! addr = Some g -> gm_ok (gs_items g) -> disk_works (m_remote_env env addr) -> (forall n, g_read (m_remote_env env addr) n = true) ->
  RrdFileName (gc_Storage (m_remote_cfg env addr)) (Md5 x) ds step = Ret rname -> content g rname key = Some body ->
  (n <= 2)%nat -> (forall j, (j < n)%nat -> m_fate env (mg_tick w + j) <> Answered) -> m_fate env (mg_tick w + n) = Answered ->
  exists w' g', mig_run env (replicate (S (n + 2)) (OpWork id)) w = Ret (tt, w') /\
    gs_disk (mg_local w') = <[filename := body]> (gs_disk (mg_local w)) /\ (forall k, waiting (mg_local w') k = waiting (mg_local w) k) /\
    view (gs_items (mg_local w')) key = Some (mkGList (Z.land (Z.land (sl_Flag sl) (Z.lnot GRAPH_F_MISS)) (Z.lnot GRAPH_F_FETCHING)) (sl_L sl)) /\
    mg_remote w' !! addr = Some g' /\ waiting g' key = [] /\ content g' rname key = Some body /\
    mg_workers w' !! id = Some (mkWorker node addr Idle).
Proof.
  intros Hsplit Hk Hq Hbusy Hok Hv Hf Hd Hmk Hwr Hg Hgok Hrd Hrr Hrf Hc Hn Hfail Hans.
  set (task := mkTask NET_TASK_M_PULL key true None). set (w0 := w_set_tasks (<[node := tasks]> (mg_tasks w)) w).
  destruct (fetch_begin_run env id task w0 x ds step filename sl Hsplit Hf Hok Hv) as (t & E0 & Hu).
  set (l1 := set_items t (mg_local w)). set (w1 := w_set_local l1 w0).
  assert (exists w2, net_task_worker env id w = Ret (tt, w2) /\
    at_pc key id node addr rname body l1 (InFetch task (sl_Flag sl) filename 0) (mg_tick w) w2) as (w2 & E2 & Hw2).
  { unfold net_task_worker. unfold mthen at 1. unfold gets at 1. rewrite Hk. cbn [wk_pc wk_node]. unfold mthen at 1. unfold gets at 1. rewrite Hq. cbn [default from_option].
    change (exists w2, start_task env id task w0 = Ret (tt, w2) /\ at_pc key id node addr rname body l1 (InFetch task (sl_Flag sl) filename 0) (mg_tick w) w2).
    rewrite (start_task_pull env id task eq_refl). unfold mthen at 1. unfold gets at 1. change (mg_timeout w0) with (mg_timeout w). rewrite Hbusy.
    change (exists w2, fetch_begin env id task w0 = Ret (tt, w2) /\ at_pc key id node addr rname body l1 (InFetch task (sl_Flag sl) filename 0) (mg_tick w) w2).
    rewrite E0. eexists. split; [done|]. split_and!; [done| | |done]; [by exists g|]. cbn. by rewrite list_lookup_alter_eq, Hk. }
  destruct (fetch_fails_many key x ds step Hsplit env id node addr task (sl_Flag sl) filename rname body l1 eq_refl Hrd Hrr Hrf n 0 (mg_tick w) w2 Hw2 Hfail ltac:(lia))
    as (w3 & E3 & Hw3). cbn [Nat.add] in Hw3.
  destruct (fetch_answered key x ds step Hsplit env id node addr task (sl_Flag sl) filename rname body l1 eq_refl Hrd Hrr Hrf _ _ w3 Hw3 Hans)
    as (w4 & E4 & (Hl4 & (g4 & Hg4 & Hok4 & Hc4) & Hk4 & _) & (g' & Hg' & Hw')).
  rewrite Hg4 in Hg'. injection Hg' as <-. pose proof Hu as (Hok1 & _ & Hview).
  destruct (fetch_write_run env id task (sl_Flag sl) filename body w4 (mkGList (Z.lor (sl_Flag sl) GRAPH_F_FETCHING) (sl_L sl)) Hmk Hwr) as (w5 & E5 & Hd5 & Hw5 & Hv5 & Hr5 & Hk5).
  { by rewrite Hl4. }
  { rewrite Hl4. unfold l1. cbn [gs_items set_items]. rewrite Hview, decide_True by done. cbn. by rewrite Hv. }
  { by rewrite Hl4. }
  exists w5, g4. split.
  - unfold mig_run in *. cbn [replicate forM run_mig_op]. unfold mthen at 1. rewrite E2. rewrite replicate_add, forM_app. unfold mthen at 1.
    rewrite E3. cbn [replicate forM run_mig_op]. unfold mthen. rewrite E4. unfold net_task_worker, mthen, gets. rewrite Hk4. cbn [wk_pc]. by rewrite E5.
  - rewrite Hd5, Hl4. split_and!; [done| |exact Hv5|by rewrite Hr5|done|done|].
    + intros k. rewrite Hw5, Hl4. unfold l1. by eapply updated_waiting.
    + by rewrite Hk5, list_lookup_alter_eq, Hk4.
Qed.

(** * The io worker of a series *)

Lemma hex_val_digit a : a ∈ hex_digits -> exists d, hex_val a = Some d /\ (0 <= d < 16)%Z.
Proof.
  intros H. assert (forallb (fun a => match hex_val a with Some d => (0 <=? d) && (d <? 16) | None => false end)%Z hex_digits = true) as Hall by reflexivity.
  rewrite forallb_forall in Hall. specialize (Hall a). rewrite <- list_elem_of_In in Hall. specialize (Hall H).
  destruct (hex_val a) as [d|]; [|done]. exists d. split; [done|]. zbool. lia.
Qed.
Definition hex_text (s : string) : Prop := forall a, a ∈ String.list_ascii_of_string s -> a ∈ hex_digits.
Lemma hex_digits_val_nonneg s acc : hex_text s -> (0 <= acc)%Z -> exists v, hex_digits_val s acc = Some v /\ (0 <= v)%Z.
Proof.
  revert acc; induction s as [|a s IH]; intros acc Hs Hacc; [by exists acc|]. cbn.
  destruct (hex_val_digit a) as (d & -> & Hd); [apply Hs; left|]. cbn. apply IH; [|lia]. intros b Hb. apply Hs. by right.
Qed.
Lemma substring_hex n s : hex_text s -> hex_text (String.substring 0 n s).
Proof.
  revert n; induction s as [|a s IH]; intros [|n] H b Hb; cbn in Hb; try by apply not_elem_of_nil in Hb.
  apply elem_of_cons in Hb as [->|Hb]; [apply H; left|]. eapply (IH n); [|exact Hb]. intros c Hc. apply H. by right.
Qed.
Lemma md5_hex_text x : hex_text (Md5 x).
Proof.
  unfold Md5, md5_hex. generalize (MD5.sum (bytes_of x)). intros l. induction l as [|b l IH]; intros a Ha; cbn in Ha; [by apply not_elem_of_nil in Ha|].
  apply elem_of_cons in Ha as [->|Ha]; [apply hex_chr_in|]. apply elem_of_cons in Ha as [->|Ha]; [apply hex_chr_in|]. by apply IH.
Qed.

Lemma signs_not_hex : ~ ("+"%char ∈ hex_digits) /\ ~ ("-"%char ∈ hex_digits).
Proof. split; by_compute. Qed.

Lemma parse_hex_plain a s v : a <> "+"%char -> a <> "-"%char -> hex_digits_val (String a s) 0 = Some v ->
  parse_hex (String a s) = if ((- 2 ^ 63 <=? v) && (v <? 2 ^ 63))%Z then Some v else None.
Proof.
  intros H1 H2 Ev. unfold parse_hex.
  assert (match a with "+"%char => if String.eqb s "" then None else hex_digits_val s 0
          | "-"%char => if String.eqb s "" then None else Z.opp <$> hex_digits_val s 0 | _ => hex_digits_val (String a s) 0 end = Some v) as E.
  { rewrite Ev. clear Ev. destruct a as [[] [] [] [] [] [] [] []]; first [reflexivity|by destruct H1|by destruct H2]. }
  rewrite E. reflexivity.
Qed.

(** The number of workers being a power of two, the worker of a series exists,
    whatever part of its digest the number of workers makes [getIndex] read. *)
Theorem io_worker_exists (IOWorkerNum FirstBytesSize : Z) (x : string) :
  (0 < IOWorkerNum < 2 ^ 63)%Z -> FirstBytesSize_of IOWorkerNum = Some FirstBytesSize ->
  exists i, getIndex IOWorkerNum FirstBytesSize (Md5 x) = Ret i /\ (0 <= i < IOWorkerNum)%Z.
Proof.
  intros Hn Hf.
  assert (forall fuel z, (0 <= hex_length fuel z)%Z) as Hpos.
  { induction fuel as [|fuel IH]; intros z; cbn; [lia|]. destruct (_ <? _)%Z; [lia|]. specialize (IH (Z.shiftr z 4)). lia. }
  unfold FirstBytesSize_of in Hf. specialize (Hpos 16 IOWorkerNum). set (h := hex_length 16 IOWorkerNum) in *. clearbody h.
  destruct (_ || _); [done|]. destruct (Z.ltb_spec IOWorkerNum 0); [lia|]. injection Hf as Hf.
  unfold getIndex. destruct (_ || _ || _) eqn:Eb; [exists 0%Z; split; [done|lia]|].
  apply orb_false_elim in Eb as [[_ El]%orb_false_elim _]. apply Z.ltb_ge in El. unfold slice, slen. rewrite Z.sub_0_r.
  rewrite (proj2 (Z.leb_le 0 FirstBytesSize)) by lia. rewrite (proj2 (Z.leb_le _ _) El). cbn [andb rbind Z.leb].
  change (0 <=? 0)%Z with true. cbn [andb rbind]. change (Z.to_nat 0) with 0. pose proof (substring_hex (Z.to_nat FirstBytesSize) _ (md5_hex_text x)) as Hh.
  set (s := String.substring 0 (Z.to_nat FirstBytesSize) (Md5 x)) in *. clearbody s.
  assert (match parse_hex s with Some m => (0 <= m < 2 ^ 63)%Z | None => True end) as Hp.
  { destruct s as [|a s]; [done|]. destruct (hex_digits_val_nonneg (String a s) 0 Hh) as (v & Ev & Hv); [lia|].
    assert (a <> "+"%char /\ a <> "-"%char) as [H1 H2].
    { destruct signs_not_hex as [Hplus Hminus]. assert (a ∈ hex_digits) as Ha by (apply Hh; left). split; intros ->; auto. }
    rewrite (parse_hex_plain a s v H1 H2 Ev). destruct ((- 2 ^ 63 <=? v) && (v <? 2 ^ 63))%Z eqn:E; [|exact I]. apply andb_prop in E as [_ E]. apply Z.ltb_lt in E. lia. }
  destruct (parse_hex s) as [m|]; [|exists 0%Z; split; [done|lia]]. unfold go_rem. rewrite (proj2 (Z.eqb_neq IOWorkerNum 0)) by lia.
  eexists. split; [done|]. apply Z.rem_bound_pos; lia.
Qed.
Lemma io_worker_exists_witness : exists i, getIndex 64 2 (Md5 "h/cpu") = Ret i /\ (0 <= i < 64)%Z.
Proof. apply (io_worker_exists 64 2 "h/cpu"); [lia|reflexivity]. Defined.

(** * Witnesses *)

Definition mig_cfg : GConfig := mkGConfig "/data" true.
(** Calls are answered but for the first [failing]. *)
Definition mig_env (failing : nat) : MEnv :=
  mkMEnv (fun n => if (n <? failing)%nat then TimedOut true else Answered) (fun _ => false) 0 (demo_env true) mig_cfg (fun _ => demo_env true) (fun _ => demo_cfg).
(** A graph that took one report of a series it has no file of. *)
Definition mig_local_demo : GraphState :=
  match handleItem (demo_env true) mig_cfg (Some (demo_point 60)) (graph_init ∅) with Ret (_, s) => s | Panic _ => graph_init ∅ end.
Definition demo_file : string := match RrdFileName "/data" (Md5 (PK "h" "cpu" ∅)) GAUGE 60 with Ret f => f | Panic _ => "" end.
Definition mig_world (remote : GraphState) (tasks : list Net_task_t) : MigState :=
  mkMig mig_local_demo {["a0" := remote]} ring_demo {["graph-00" := tasks; "graph-01" := []]} [mkWorker "graph-00" "a0" Idle] false ∅ [] [] 0.
Definition demo_pull : Net_task_t := mkTask NET_TASK_M_PULL demo_key true None.

Lemma mig_local_ok : gm_ok (gs_items mig_local_demo) /\ sized 1800 mig_local_demo.
Proof.
  unfold mig_local_demo. destruct (handleItem_runs (demo_env true) mig_cfg 1800 (Some (demo_point 60)) (graph_init ∅) (graph_init_sized ∅)) as ([] & s & E & Hs).
  rewrite E. split; [apply Hs|done].
Qed.
Lemma mig_local_view : view (gs_items mig_local_demo) demo_key = Some (mkGList 1 [demo_point 60]).
Proof. vm_cast_no_check (eq_refl (Some (mkGList 1 [demo_point 60]))). Qed.
Lemma mig_local_disk : gs_disk mig_local_demo !! demo_file = None.
Proof. vm_cast_no_check (eq_refl (@None (list GraphItem))). Qed.
Lemma demo_key_split : SplitRrdCacheKey demo_key = (Md5 (PK "h" "cpu" ∅), GAUGE, 60%Z, false).
Proof.
  unfold SplitRrdCacheKey, demo_key, FormRrdCacheKey. rewrite split_three; [|apply md5_no_underscore|done|by apply itoa_has].
  by rewrite (parse_int_itoa 32) by done.
Qed.
Lemma demo_key_parts : key_parts demo_key.
Proof.
  exists (PK "h" "cpu" ∅), GAUGE, (itoa 60). unfold demo_key, FormRrdCacheKey. rewrite split_three; [done|apply md5_no_underscore|done|by apply itoa_has].
Qed.
Lemma parts_inj {A B C D} (a a' : A) (b b' : B) (c c' : C) (d d' : D) : (a, b, c, d) = (a', b', c', d') -> a = a' /\ b = b' /\ c = c'.
Proof. by intros [= -> -> ->]. Qed.
Lemma demo_key_canonical : canonical demo_key.
Proof. intros m d s H. rewrite demo_key_split in H. by destruct (parts_inj _ _ _ _ _ _ _ _ H) as (<- & <- & <-). Qed.
Lemma demo_file_name : RrdFileName "/data" (Md5 (PK "h" "cpu" ∅)) GAUGE 60 = Ret demo_file.
Proof. unfold demo_file. by destruct (RrdFileName_md5 "/data" (PK "h" "cpu" ∅) GAUGE 60) as [f ->]. Qed.

Lemma mig_world_wf remote tasks : (exists m, sized m remote) -> Forall task_wf tasks -> mig_wf 1800 {["a0"]} (mig_world remote tasks).
Proof.
  intros [m Hm] Ht. split; cbn.
  - apply mig_local_ok.
  - intros a ->%elem_of_singleton. exists remote, m. by rewrite lookup_singleton_eq.
  - intros k ->%list_elem_of_singleton. split; [by apply elem_of_singleton|done].
  - apply ring_demo_ok.
  - intros node q t Hq Hin. destruct (decide (node = "graph-00")) as [->|H0].
    + rewrite lookup_insert_eq in Hq. injection Hq as <-. rewrite Forall_forall in Ht. by apply Ht.
    + rewrite lookup_insert_ne in Hq by done. destruct (decide (node = "graph-01")) as [->|H1];
        [rewrite lookup_singleton_eq in Hq; injection Hq as <-; by apply not_elem_of_nil in Hin|by rewrite lookup_singleton_ne in Hq].
Qed.

Definition mig_ops : list mig_op := [OpReport [Some (demo_point 120)]; OpFlushBegin; OpFlushKey demo_key false; OpWork 0; OpWork 0; OpWork 0].
Lemma mig_ops_wf : Forall (fun op => op_wf op /\ match op with OpFlushKey key force => canonical key /\ force = false | _ => True end) mig_ops.
Proof.
  unfold mig_ops. do 2 (constructor; [split; exact I|]).
  constructor; [split; [exact demo_key_parts|split; [exact demo_key_canonical|reflexivity]]|]. do 3 (constructor; [split; exact I|]). constructor.
Qed.

Lemma migration_loses_nothing_witness :
  exists w', mig_run (mig_env 1) mig_ops (mig_world (graph_init ∅) []) = Ret (tt, w') /\ held (mig_env 1) w' demo_key (demo_point 60).
Proof.
  destruct (migration_loses_nothing (mig_env 1) mig_ops (mig_world (graph_init ∅) [])) as [Hheld Hruns].
  - by split.
  - split; [apply mig_local_ok|]. intros j task flag items i (k & Hk & E). apply list_lookup_singleton_Some in Hk as [_ <-]. discriminate E.
  - destruct (Hruns 1800%Z {["a0"]}) as (w' & E & _).
    + apply mig_world_wf; [exists 1800%Z; apply graph_init_sized|done].
    + eapply Forall_impl; [exact mig_ops_wf|]. by intros op [? _].
    + exists w'. split; [exact E|]. apply (proj2 (Hheld w' E)). left. left. unfold waiting. cbn [mg_local mig_world]. rewrite mig_local_view. left.
Defined.

Lemma stuck_world_demo : stuck (mig_env 0) demo_key (Md5 (PK "h" "cpu" ∅)) GAUGE 60 [demo_point 60] (mig_world (graph_init ∅) [demo_pull]).
Proof.
  split; cbn.
  - split; [apply mig_local_ok|]. exists (mkGList 1 [demo_point 60]), []. split; [exact mig_local_view|done].
  - intros a g. rewrite lookup_singleton_Some. intros [_ <-]. split; [apply init_gm_ok|]. split; [unfold waiting; cbn; by rewrite init_view|done].
  - done.
  - intros node q t Hq Hin. destruct (decide (node = "graph-00")) as [->|H0].
    + rewrite lookup_insert_eq in Hq. injection Hq as <-. apply list_elem_of_singleton in Hin as ->. split; [done|exact demo_key_canonical].
    + rewrite lookup_insert_ne in Hq by done. destruct (decide (node = "graph-01")) as [->|H1];
        [rewrite lookup_singleton_eq in Hq; injection Hq as <-; by apply not_elem_of_nil in Hin|by rewrite lookup_singleton_ne in Hq].
  - by intros x ->%list_elem_of_singleton.
Qed.
Lemma new_series_never_flushed_witness :
  exists w' sl' newer, mig_run (mig_env 0) mig_ops (mig_world (graph_init ∅) [demo_pull]) = Ret (tt, w') /\
    view (gs_items (mg_local w')) demo_key = Some sl' /\ sl_L sl' = (newer ++ [demo_point 60])%list.
Proof.
  destruct (new_series_never_flushed (mig_env 0) mig_ops (mig_world (graph_init ∅) [demo_pull]) 1800 {["a0"]} demo_key (Md5 (PK "h" "cpu" ∅)) GAUGE 60
    (mkGList 1 [demo_point 60])) as (w' & sl' & newer & E & Hv & Hl & _).
  - exact demo_key_split.
  - exact demo_key_canonical.
  - reflexivity.
  - done.
  - apply mig_world_wf; [exists 1800%Z; apply graph_init_sized|]. constructor; [split; [exact demo_key_parts|done]|constructor].
  - exact mig_local_view.
  - exact stuck_world_demo.
  - exact mig_ops_wf.
  - exists w', sl', newer. split; [exact E|]. split; [exact Hv|exact Hl].
Defined.

Lemma pull_brings_series_witness :
  exists w', mig_run (mig_env 1) (replicate 4 (OpWork 0)) (mig_world (graph_init {[demo_file := [demo_point 0]]}) [demo_pull]) = Ret (tt, w') /\
    gs_disk (mg_local w') = <[demo_file := [demo_point 0]]> (gs_disk mig_local_demo) /\ waiting (mg_local w') demo_key = [demo_point 60].
Proof.
  destruct (pull_brings_series (mig_env 1) (mig_world (graph_init {[demo_file := [demo_point 0]]}) [demo_pull]) 0 "graph-00" "a0" demo_key
    (PK "h" "cpu" ∅) GAUGE 60 [] (mkGList 1 [demo_point 60]) (graph_init {[demo_file := [demo_point 0]]}) demo_file demo_file [demo_point 0] 1)
    as (w' & g' & E & Hd & Hw & _).
  - exact demo_key_split.
  - reflexivity.
  - apply lookup_insert_eq.
  - reflexivity.
  - apply mig_local_ok.
  - exact mig_local_view.
  - exact demo_file_name.
  - exact mig_local_disk.
  - done.
  - done.
  - apply lookup_singleton_eq.
  - apply init_gm_ok.
  - by split.
  - done.
  - exact demo_file_name.
  - unfold content. cbn [gs_disk graph_init]. rewrite lookup_singleton_eq. unfold waiting. cbn [gs_items graph_init]. by rewrite init_view.
  - lia.
  - intros j Hj. destruct j as [|j]; [done|lia].
  - reflexivity.
  - exists w'. split; [exact E|]. split; [exact Hd|]. rewrite Hw. unfold waiting. cbn [mg_local mig_world]. by rewrite mig_local_view.
Defined.
