(* ===== verification/GoNum.v ===== *)
(** Reading numbers and words the way Go's [strconv] and [strings] do:
    [ParseFloat] as in Go 1.6 to 1.8 (a sign, decimal digits with at most one
    point, an exponent, or one of the special words), correctly rounded, and
    an error for a value out of range; [Fields], [Trim], [TrimSpace]. *)
From S2P Require Export GoFloat GoStr.
From Stdlib Require Import Ascii.
Local Open Scope string_scope.

(** * [strconv.ParseFloat(s, 64)] *)

(** Digits with at most one point: the digits read, how many are behind the
    point, whether there was a digit, and the rest of the string. *)
Fixpoint read_mantissa (s : string) (m frac : Z) (dot digits : bool) : Z * Z * bool * string :=
  match s with
  | String a t =>
      match digit_val a with
      | Some d => read_mantissa t (m * 10 + d)%Z (if dot then (frac + 1)%Z else frac) dot true
      | None => if Ascii.eqb a "." && negb dot then read_mantissa t m frac true digits else (m, frac, digits, s)
      end
  | "" => (m, frac, digits, s)
  end.

(** The digits of an exponent, which stops growing at ten thousand. *)
Fixpoint read_exp (s : string) (e : Z) : Z * string :=
  match s with
  | String a t =>
      match digit_val a with
      | Some d => read_exp t (if (e <? 10000)%Z then (e * 10 + d)%Z else e)
      | None => (e, s)
      end
  | "" => (e, s)
  end.

Definition sign_of (s : string) : bool * string :=
  match s with
  | String "-" t => (true, t)
  | String "+" t => (false, t)
  | _ => (false, s)
  end.

(** [m * 10 ^ e] with a sign, rounded. *)
Definition decimal (neg : bool) (m e : Z) : f64 :=
  if (m =? 0)%Z then S754_zero neg
  else
    let v := if (0 <=? e)%Z then f64_of_Z (m * 10 ^ e) else f64_dec m (Z.to_N (- e)) in
    if neg then SFopp v else v.

Definition lower (s : string) : string := map_bytes lower_ascii s.
Definition special (s : string) : option f64 :=
  let l := lower s in
  if String.eqb l "nan" then Some fnan
  else if String.eqb l "inf" || String.eqb l "infinity" || String.eqb l "+inf" || String.eqb l "+infinity" then Some (S754_infinity false)
  else if String.eqb l "-inf" || String.eqb l "-infinity" then Some (S754_infinity true)
  else None.

(** The number a text stands for, rounded, or an infinity. *)
Definition read_float (s : string) : option f64 :=
  let '(neg, body) := sign_of s in
  let '(m, frac, digits, rest) := read_mantissa body 0 0 false false in
  if negb digits then None
  else
    let exp :=
      match rest with
      | "" => Some 0%Z
      | String a t =>
          if Ascii.eqb a "e" || Ascii.eqb a "E" then
            let '(eneg, t) := sign_of t in
            match t with
            | String b _ =>
                match digit_val b with
                | Some _ => let '(e, t) := read_exp t 0 in
                            if is_empty t then Some (if eneg : bool then (- e)%Z else e) else None
                | None => None
                end
            | "" => None
            end
          else None
      end in
    e ← exp; Some (decimal neg m (e - frac)).

(** [ParseFloat]: the value, or [None] with an error. *)
Definition ParseFloat (s : string) : option f64 :=
  match special s with
  | Some v => Some v
  | None => v ← read_float s; if is_inf v then None else Some v
  end.
(** The value [ParseFloat] gives beside its error: zero for a text that is no
    number, an infinity for one out of range. *)
Definition ParseFloat_value (s : string) : f64 :=
  match special s with Some v => v | None => default fzero (read_float s) end.

Example pf_int : ParseFloat "42" = Some (f64_of_Z 42). Proof. reflexivity. Qed.
Example pf_frac : ParseFloat "-0.1" = Some (SFopp (f64_dec 1 1)). Proof. reflexivity. Qed.
Example pf_exp : ParseFloat "1.5e2" = Some (f64_of_Z 150). Proof. reflexivity. Qed.
Example pf_words : ParseFloat "NaN" = Some fnan /\ ParseFloat "-Inf" = Some (S754_infinity true). Proof. done. Qed.
Example pf_range : ParseFloat "1e400" = None. Proof. vm_compute. reflexivity. Qed.
Example pf_bad : ParseFloat "" = None /\ ParseFloat "." = None /\ ParseFloat "1e" = None /\ ParseFloat "0x1" = None /\ ParseFloat "1_0" = None.
Proof. done. Qed.

(** * Words *)

(** The white space of [unicode.IsSpace] among the bytes below 128. *)
Definition is_space (a : ascii) : bool :=
  let n := nat_of_ascii a in (Nat.leb 9 n && Nat.leb n 13) || Nat.eqb n 32.

Fixpoint fields_aux (s : string) (word : string) : list string :=
  match s with
  | "" => if is_empty word then [] else [word]
  | String a t =>
      if is_space a then (if is_empty word then fields_aux t "" else word :: fields_aux t "")
      else fields_aux t (word ++s String a "")
  end.
(** [strings.Fields]. *)
Definition Fields (s : string) : list string := fields_aux s "".

Fixpoint trim_left (p : ascii -> bool) (s : string) : string :=
  match s with String a t => if p a then trim_left p t else s | "" => "" end.
Fixpoint trim_right (p : ascii -> bool) (s : string) : string :=
  match s with
  | "" => ""
  | String a t => match trim_right p t with "" => if p a then "" else String a "" | t' => String a t' end
  end.
(** [strings.TrimFunc]. *)
Definition trim (p : ascii -> bool) (s : string) : string := trim_right p (trim_left p s).
(** [strings.TrimSpace]. *)
Definition TrimSpace (s : string) : string := trim is_space s.

Example fields_ex : Fields "  update h  cpu	1 " = ["update"; "h"; "cpu"; "1"]. Proof. reflexivity. Qed.
Example trim_ex : TrimSpace " a b
" = "a b". Proof. reflexivity. Qed.
