(* ===== verification/Transfer.v ===== *)
(** The transfer ([modules/transfer]): the receiver that checks and converts
    what agents report ([receiver/rpc/rpc_transfer.go], the telnet line format
    of [receiver/socket]), and the sender that spreads it over the queues of
    the judges, graphs, poly and tsdb nodes ([sender]).

    The consistent-hash rings are the functions of [Rings]; a queue that the
    code finds by an unknown name is nil, and pushing to it panics.  The Kafka
    channel has its bound and its reader, and a report that finds it full
    waits.  [PromeWork] runs in a goroutine of its own: the state records the
    batches such goroutines were started on, and a panic in one ends the
    process.  The registry of the Prometheus client is a parameter. *)
From S2P Require Export Model GoNum.
Local Open Scope string_scope.

Definition T_GAUGE : string := "GAUGE".
Definition T_COUNTER : string := "COUNTER".
Definition T_DERIVE : string := "DERIVE".
Definition PolyStringSep : string := "||".
Definition MultiPolySep : string := "@@".
Definition DEFAULT_STEP : Z := 60.

(** Source: modules/transfer/sender/sender.go, const DefaultSendQueueMaxSize. *)
Definition DefaultSendQueueMaxSize : Z := 102400.
(** Source: modules/transfer/sender/sender.go, lines 73-73. What the Kafka channel buffers. Symbol: KafkaQueue. *)
Definition KafkaQueueSize : Z := 64000.

(** * State *)

(** Source: modules/transfer/g/cfg.go, type GlobalConfig. The switches the receiver and the sender read, and the graph cluster. *)
Record TConfig := mkTConfig {
  tc_MinStep : Z;
  tc_Graph : bool; tc_Judge : bool; tc_Poly : bool; tc_Tsdb : bool; tc_Kafka : bool; tc_DatabusChannel : string; tc_Prome : bool;
  tc_JudgeCluster : gmap string string; tc_PolyCluster : gmap string string;
  tc_ClusterList : gmap string (list string) }.

(** Source: common/model/metric.go, type PromeMetaData. *)
Record PromeMetaData := mkProme { pm_FalconMetaData : MetaData; pm_Polys : list string }.

(** The variables of the package [sender] and of [cron]. The front of a queue comes first. The Kafka channel
    comes in the order it is read: what it buffers, then what the calls
    waiting to send to it hold. *)
Record TransState := mkTrans {
  tr_Judge : gmap string (list JudgeItem);
  tr_Graph : gmap string (list GraphItem);
  tr_Poly : gmap string (list PolyRequest);
  tr_Tsdb : option (list TsdbItem);
  tr_Kafka : list KafkaData;
  tr_Prome : list (list PromeMetaData);
  tr_EndPoly : gmap string string;
  tr_PolyCounter : gmap string MetaData;
  tr_cnt : gmap string Z }.

Definition t_set_judge v s := mkTrans v (tr_Graph s) (tr_Poly s) (tr_Tsdb s) (tr_Kafka s) (tr_Prome s) (tr_EndPoly s) (tr_PolyCounter s) (tr_cnt s).
Definition t_set_graph v s := mkTrans (tr_Judge s) v (tr_Poly s) (tr_Tsdb s) (tr_Kafka s) (tr_Prome s) (tr_EndPoly s) (tr_PolyCounter s) (tr_cnt s).
Definition t_set_poly v s := mkTrans (tr_Judge s) (tr_Graph s) v (tr_Tsdb s) (tr_Kafka s) (tr_Prome s) (tr_EndPoly s) (tr_PolyCounter s) (tr_cnt s).
Definition t_set_tsdb v s := mkTrans (tr_Judge s) (tr_Graph s) (tr_Poly s) v (tr_Kafka s) (tr_Prome s) (tr_EndPoly s) (tr_PolyCounter s) (tr_cnt s).
Definition t_set_kafka v s := mkTrans (tr_Judge s) (tr_Graph s) (tr_Poly s) (tr_Tsdb s) v (tr_Prome s) (tr_EndPoly s) (tr_PolyCounter s) (tr_cnt s).
Definition t_set_prome v s := mkTrans (tr_Judge s) (tr_Graph s) (tr_Poly s) (tr_Tsdb s) (tr_Kafka s) v (tr_EndPoly s) (tr_PolyCounter s) (tr_cnt s).
Definition t_set_endpoly v s := mkTrans (tr_Judge s) (tr_Graph s) (tr_Poly s) (tr_Tsdb s) (tr_Kafka s) (tr_Prome s) v (tr_PolyCounter s) (tr_cnt s).
Definition t_set_polycounter v s := mkTrans (tr_Judge s) (tr_Graph s) (tr_Poly s) (tr_Tsdb s) (tr_Kafka s) (tr_Prome s) (tr_EndPoly s) v (tr_cnt s).
Definition t_set_cnt v s := mkTrans (tr_Judge s) (tr_Graph s) (tr_Poly s) (tr_Tsdb s) (tr_Kafka s) (tr_Prome s) (tr_EndPoly s) (tr_PolyCounter s) v.

Notation T := (M TransState).
Definition incr_by (name : string) (n : Z) : T unit :=
  modify (fun s => t_set_cnt (<[name := (default 0 (tr_cnt s !! name) + n)%Z]> (tr_cnt s)) s).
Definition set_to (name : string) (n : Z) : T unit := modify (fun s => t_set_cnt (<[name := n]> (tr_cnt s)) s).

(** The hash rings: the node of a key, [None] for the error. *)
Record Rings := mkRings {
  JudgeNodeRing : string -> option string; GraphNodeRing : string -> option string; PolyNodeRing : string -> option string }.

(** * Queues *)

(** Source: vendor/github.com/toolkits/container/list/safelist.go, SafeListLimited.PushFront. *)
Definition SLL_PushFront {A} (v : A) (q : list A) : bool * list A :=
  if (DefaultSendQueueMaxSize <=? Z.of_nat (length q))%Z then (false, q) else (true, v :: q).
(** Source: vendor/github.com/toolkits/container/list/safelist.go, SafeList.PopBackBy. The oldest first. *)
Definition SL_PopBackBy {A} (max : Z) (q : list A) : res (list A * list A) :=
  let count := Z.of_nat (length q) in
  if (count =? 0)%Z then Ret ([], q)
  else
    let count := if (max <? count)%Z then max else count in
    if negb (make_ok count) then Panic MakeLen
    else Ret (take (Z.to_nat count) (rev q), take (length q - Z.to_nat count) q).

(** Source: modules/transfer/sender/send_queues.go, initSendQueues. *)
Definition initSendQueues (cfg : TConfig) (s : TransState) : TransState :=
  mkTrans ((fun _ => []) <$> tc_JudgeCluster cfg)
    (map_fold (fun node addrs m => fold_left (fun m addr => <[node ++s addr := []]> m) addrs m) ∅ (tc_ClusterList cfg))
    ((fun _ => []) <$> tc_PolyCluster cfg)
    (if tc_Tsdb cfg then Some [] else None) (tr_Kafka s) (tr_Prome s) (tr_EndPoly s) (tr_PolyCounter s) (tr_cnt s).

(** Source: modules/transfer/sender/sender.go, lines 79-82. The smallest step. Symbol: Start. *)
Definition start_MinStep (configured : Z) : Z := if (configured <? 1)%Z then 30%Z else configured.

(** * Conversion *)

(** Source: modules/transfer/sender/sender.go, alignTs. *)
Definition alignTs (ts period : Z) : res Z := let! r := go_rem ts period in Ret (ts -! r)%Z.

Section transfer.
Context (cfg : TConfig) (rings : Rings).

(** Source: modules/transfer/sender/sender.go, convert2GraphItem. [None] is the error. *)
Definition convert2GraphItem (d : MetaData) : res (option GraphItem) :=
  let step := if (md_Step d <? tc_MinStep cfg)%Z then tc_MinStep cfg else md_Step d in
  let item ds mn mx ts := mkGraphItem (md_Endpoint d) (md_Metric d) (md_Tags d) (md_Value d) ts ds step (step *! 2)%Z mn mx in
  if String.eqb (md_CounterType d) T_GAUGE then
    let! ts := alignTs (md_Timestamp d) step in Ret (Some (item (md_CounterType d) "U" "U" ts))
  else if String.eqb (md_CounterType d) T_COUNTER then
    let! ts := alignTs (md_Timestamp d) step in Ret (Some (item T_DERIVE "0" "U" ts))
  else if String.eqb (md_CounterType d) T_DERIVE then
    let! ts := alignTs (md_Timestamp d) step in Ret (Some (item T_DERIVE "0" "U" ts))
  else Ret None.

(** Source: modules/transfer/sender/sender.go, convert2TsdbItem. *)
Definition convert2TsdbItem (d : MetaData) : TsdbItem :=
  mkTsdbItem (md_Metric d) (<["endpoint" := md_Endpoint d]> (md_Tags d)) (md_Value d) (md_Timestamp d).

(** Source: modules/transfer/sender/sender.go, lines 248-262. The item a judge is sent. Symbol: Push2JudgeSendQueue. *)
Definition judge_item (item : MetaData) : res JudgeItem :=
  let step := md_Step item in
  let step := if (step <? tc_MinStep cfg)%Z then tc_MinStep cfg else step in
  let! ts := alignTs (md_Timestamp item) step in
  Ret (mkJudgeItem (md_Endpoint item) (md_Metric item) (md_Value item) ts (md_CounterType item) (md_Tags item)).

(** * The sender *)

(** Source: modules/transfer/sender/sender.go, Push2JudgeSendQueue. *)
Definition Push2JudgeSendQueue (items : list MetaData) : T unit :=
  forM items (fun item =>
    let pk := MetaData_PK item in
    match JudgeNodeRing rings pk with
    | None => skip
    | Some node =>
        do! judgeItem := lift (judge_item item) in
        do! q := gets (fun s => tr_Judge s !! node) in
        do! q := lift (deref q) in
        let '(isSuccess, q) := SLL_PushFront judgeItem q in
        do! _ := modify (fun s => t_set_judge (<[node := q]> (tr_Judge s)) s) in
        if negb isSuccess then incr_by "SendToJudgeDropCnt" 1 else skip
    end).

(** Source: modules/transfer/sender/sender.go, Push2PolySendQueue. *)
Definition Push2PolySendQueue (items : list PolyRequest) : T unit :=
  forM items (fun item =>
    match PolyNodeRing rings (pr_PolyName item) with
    | None => skip
    | Some node =>
        do! q := gets (fun s => tr_Poly s !! node) in
        do! q := lift (deref q) in
        let '(isSuccess, q) := SLL_PushFront item q in
        do! _ := modify (fun s => t_set_poly (<[node := q]> (tr_Poly s)) s) in
        if negb isSuccess then incr_by "SendToPolyDropCnt" 1 else skip
    end).

(** Source: modules/transfer/sender/sender.go, Push2GraphSendQueue. *)
Definition Push2GraphSendQueue (items : list MetaData) : T unit :=
  forM items (fun item =>
    do! graphItem := lift (convert2GraphItem item) in
    match graphItem with
    | None => skip
    | Some graphItem =>
        let pk := MetaData_PK item in
        match GraphNodeRing rings pk with
        | None => skip
        | Some node =>
            do! addrs := lift (deref (tc_ClusterList cfg !! node)) in
            do! errCnt := foldM (fun errCnt addr =>
              do! q := gets (fun s => tr_Graph s !! (node ++s addr)) in
              do! q := lift (deref q) in
              let '(ok, q) := SLL_PushFront graphItem q in
              do! _ := modify (fun s => t_set_graph (<[node ++s addr := q]> (tr_Graph s)) s) in
              ret (if ok : bool then errCnt else (errCnt + 1)%Z)) 0%Z addrs in
            if (0 <? errCnt)%Z then incr_by "SendToGraphDropCnt" 1 else skip
        end
    end).

(** Source: modules/transfer/sender/sender.go, Push2TsdbSendQueue. *)
Definition Push2TsdbSendQueue (items : list MetaData) : T unit :=
  forM items (fun item =>
    let tsdbItem := convert2TsdbItem item in
    do! q := gets tr_Tsdb in
    do! q := lift (deref q) in
    let '(isSuccess, q) := SLL_PushFront tsdbItem q in
    do! _ := modify (t_set_tsdb (Some q)) in
    if negb isSuccess then incr_by "SendToTsdbDropCnt" 1 else skip).

(** Source: modules/transfer/sender/sender.go, ExtractKafkaItemNew. *)
Definition ExtractKafkaItemNew (items : list MetaData) (kv : KafkaData) : KafkaData :=
  fold_left (fun kv item =>
    let counter := Counter (md_Metric item) (md_Tags item) in
    if String.eqb (kd_Endpoint kv) ""
    then mkKafkaData (md_Endpoint item) (md_Timestamp item) {[counter := md_Value item]}
    else mkKafkaData (kd_Endpoint kv) (kd_Timestamp kv) (<[counter := md_Value item]> (kd_MetricValue kv))) items kv.

(** Source: modules/transfer/sender/sender.go, Push2KafkaSendQueue. [true] when it returns at once, [false] when the channel
    is full and the call waits, with its item behind those of the calls that already wait. *)
Definition Push2KafkaSendQueue (items : list MetaData) : T bool :=
  do! _ := incr_by "SendToInfluxDBCnt" (Z.of_nat (length items)) in
  do! cache := gets (fun s => Z.min (Z.of_nat (length (tr_Kafka s))) KafkaQueueSize) in
  do! _ := set_to "InfluxDBQueuesCnt" cache in
  let kv := ExtractKafkaItemNew items (mkKafkaData "" 0 ∅) in
  if negb (String.eqb (kd_Endpoint kv) "") then
    do! queue := gets tr_Kafka in
    do! _ := modify (t_set_kafka (queue ++ [kv])%list) in
    ret (Z.of_nat (length queue) <? KafkaQueueSize)%Z
  else ret true.

(** Source: modules/transfer/sender/sender.go, StartKafkaSender. One turn of the reader of the channel: [false] when it
    returns, which it does for an item that cannot be written as JSON; [sent] is the answer of the bus. *)
Definition StartKafkaSender (sent : bool) : T bool :=
  do! queue := gets tr_Kafka in
  match queue with
  | [] => ret true
  | items :: queue =>
      do! _ := modify (t_set_kafka queue) in
      if negb (bool_decide (map_Forall (fun _ v => is_nan v || is_inf v = false) (kd_MetricValue items))) then ret false
      else do! _ := (if sent then skip else incr_by "SendToKafkaFailCnt" 1) in ret true
  end.

(** * The pusher to Prometheus *)

(** A metric handed to the registry. *)
Record PromeMetric := mkPromeMetric { px_Name : string; px_ConstLabels : gmap string string; px_counter : bool; px_value : f64 }.

(** Source: modules/transfer/receiver/rpc/rpc_transfer.go, lines 272-288. The labels of a metric. Symbol: PromeWork. *)
Definition prome_labels (Pdata : PromeMetaData) : res (gmap string string) :=
  let data := pm_FalconMetaData Pdata in
  let! labelMap := fold_res (fun labelMap poly =>
    let! groupName := at_index (split poly PolyStringSep) 1 in
    let newGrpName := replace_all groupName "." "_" in
    Ret (<["falcon_group_" ++s newGrpName := newGrpName]> labelMap)) (md_Tags data) (pm_Polys Pdata) in
  Ret (<["endpoint" := md_Endpoint data]> labelMap).

(** Source: modules/transfer/receiver/rpc/rpc_transfer.go, lines 287-333. The metric with its value: [Add] of the client panics below zero. [None] for another type. Symbol: PromeWork. *)
Definition prome_metric (Pdata : PromeMetaData) : res (option PromeMetric) :=
  let data := pm_FalconMetaData Pdata in
  let! labelMap := prome_labels Pdata in
  let promMetric := replace_all (md_Metric data) "." "_" in
  if String.eqb (md_CounterType data) T_GAUGE then Ret (Some (mkPromeMetric promMetric labelMap false (md_Value data)))
  else if String.eqb (md_CounterType data) T_COUNTER then
    if flt (md_Value data) fzero then Panic Explicit else Ret (Some (mkPromeMetric promMetric labelMap true (md_Value data)))
  else Ret None.

(** Source: modules/transfer/receiver/rpc/rpc_transfer.go, lines 268-339. The loop: [None] when a metric is refused. Symbol: PromeWork. *)
Fixpoint prome_loop (Register : list PromeMetric -> PromeMetric -> bool) (localReg : list PromeMetric) (dataS : list PromeMetaData)
    : res (option (list PromeMetric)) :=
  match dataS with
  | [] => Ret (Some localReg)
  | Pdata :: dataS =>
      let! metricTmp := prome_metric Pdata in
      match metricTmp with
      | None => prome_loop Register localReg dataS
      | Some m => if Register localReg m then prome_loop Register (localReg ++ [m])%list dataS else Ret None
      end
  end.

(** Source: modules/transfer/receiver/rpc/rpc_transfer.go, PromeWork. What is pushed, [None] when it returns without pushing. *)
Definition PromeWork (Register : list PromeMetric -> PromeMetric -> bool) (dataS : list PromeMetaData) : res (option (list PromeMetric)) :=
  match dataS with
  | [] => Ret None
  | first :: _ => if String.eqb (md_Endpoint (pm_FalconMetaData first)) "" then Ret None else prome_loop Register [] dataS
  end.

(** * The receiver *)

(** Source: common/model/transfer.go, type TransferResponse. *)
Record TransferResponse := mkTResp { rs_Message : string; rs_Total : Z; rs_Invalid : Z; rs_Latency : Z }.

(** The variables of the loop of [RecvMetricValues]. *)
Record recv := mkRecv {
  rv_invalid : Z; rv_items : list MetaData; rv_dynamic : list MetaData;
  rv_polys : list PolyRequest; rv_prome : list PromeMetaData }.
Definition rejected (a : recv) : recv := mkRecv (rv_invalid a + 1) (rv_items a) (rv_dynamic a) (rv_polys a) (rv_prome a).

(** Source: modules/transfer/receiver/rpc/rpc_transfer.go, lines 86-114. The checks on a reported value. Symbol: RecvMetricValues. *)
Definition acceptable (v : MetricValue) : bool :=
  negb (String.eqb (mv_Metric v) "kernel.hostname") &&
  negb (String.eqb (mv_Metric v) "" || String.eqb (mv_Endpoint v) "") &&
  (String.eqb (mv_Type v) T_COUNTER || String.eqb (mv_Type v) T_GAUGE || String.eqb (mv_Type v) T_DERIVE) &&
  negb (match mv_Value v with VString s => String.eqb s "" | _ => false end) &&
  negb (mv_Step v <=? 0)%Z &&
  negb (510 <? slen (mv_Metric v) + slen (mv_Tags v))%Z.

(** Source: modules/transfer/receiver/rpc/rpc_transfer.go, lines 117-120. Symbol: RecvMetricValues. *)
Definition checked_ts (now : Z) (v : MetricValue) : Z :=
  if (mv_Timestamp v <=? 0)%Z || (now +! 3 *! mv_Step v <? mv_Timestamp v)%Z || (mv_Timestamp v <? now -! 3 *! mv_Step v)%Z
  then now else mv_Timestamp v.

(** Source: modules/transfer/receiver/rpc/rpc_transfer.go, lines 132-147. [None] when invalid. Symbol: RecvMetricValues. *)
Definition value_of (v : value) : option f64 :=
  match v with
  | VString s => ParseFloat s
  | VFloat f => Some f
  | VInt z => Some (f64_of_Z z)
  | VOther => None
  end.

(** Source: modules/transfer/receiver/rpc/rpc_transfer.go, lines 165-184. A valid item: [None] when nothing is kept of it. Symbol: RecvMetricValues. *)
Definition poly_value (fv : MetaData) (counter : string) : T (option f64) :=
  if String.eqb (md_CounterType fv) "COUNTER" then
    let endCounterKey := md_Endpoint fv ++s counter in
    do! existRes := gets (fun s => tr_PolyCounter s !! endCounterKey) in
    match existRes with
    | Some lastV =>
        let d := (md_Timestamp fv -! md_Timestamp lastV)%Z in
        if (d <=? 0)%Z then ret None
        else ret (Some (fdiv (fsub (md_Value fv) (md_Value lastV)) (f64_of_Z d)))
    | None =>
        do! _ := modify (fun s => t_set_polycounter (<[endCounterKey := fv]> (tr_PolyCounter s)) s) in
        ret None
    end
  else ret (Some (md_Value fv)).

(** Source: modules/transfer/receiver/rpc/rpc_transfer.go, lines 78-209. One turn of the loop. Symbol: RecvMetricValues. *)
Definition recv_one (now : Z) (a : recv) (v : option MetricValue) : T recv :=
  match v with
  | None => ret (rejected a)
  | Some v =>
      if negb (acceptable v) then ret (rejected a)
      else
        let ts := checked_ts now v in
        let tagsMap := DictedTagstring (mv_Tags v) in
        match value_of (mv_Value v) with
        | None => ret (rejected a)
        | Some vv =>
            let fv := mkMetaData (mv_Metric v) (mv_Endpoint v) ts (mv_Step v) vv (mv_Type v) tagsMap in
            if match tagsMap !! "DynamicMetric" with Some d => String.eqb d "true" | None => false end
            then ret (mkRecv (rv_invalid a) (rv_items a) (rv_dynamic a ++ [fv])%list (rv_polys a) (rv_prome a))
            else
              let counter := Counter (mv_Metric v) tagsMap in
              do! polyStrategy := gets (fun s => default "" (tr_EndPoly s !! (mv_Endpoint v ++s PolyStringSep ++s counter))) in
              if String.eqb polyStrategy ""
              then ret (mkRecv (rv_invalid a) (rv_items a ++ [fv])%list (rv_dynamic a) (rv_polys a) (rv_prome a))
              else
                do! pv := poly_value fv counter in
                match pv with
                | None => ret a
                | Some polyValue =>
                    let polys := split polyStrategy MultiPolySep in
                    let reqs := map (fun poly => mkPolyRequest poly (md_Endpoint fv) (md_CounterType fv) polyValue) polys in
                    let prome := if tc_Prome cfg && (1 <=? length polys)%nat then [mkProme fv polys] else [] in
                    ret (mkRecv (rv_invalid a) (rv_items a ++ [fv])%list (rv_dynamic a) (rv_polys a ++ reqs)%list (rv_prome a ++ prome)%list)
                end
        end
  end.

(** Source: modules/transfer/receiver/rpc/rpc_transfer.go, lines 247-255. The rest of the call, once the items are pushed. Symbol: RecvMetricValues. *)
Definition recv_reply (start stop : Z) (args : list (option MetricValue)) (a : recv) : T TransferResponse :=
  do! _ := (if tc_Prome cfg then modify (fun s => t_set_prome (tr_Prome s ++ [rv_prome a])%list s) else skip) in
  ret (mkTResp "ok" (Z.of_nat (length args)) (rv_invalid a) (Z.quot (stop -! start) 1000000)).

(** Source: modules/transfer/receiver/rpc/rpc_transfer.go, RecvMetricValues. [start] and [stop] are the clock, in nanoseconds,
    before and after. [None] when the call waits on the Kafka channel: [recv_reply] is what is left of it then. *)
Definition RecvMetricValues (start stop : Z) (args : list (option MetricValue)) (from : string) : T (option TransferResponse) :=
  let now := (start / 10 ^ 9)%Z in
  do! a := foldM (recv_one now) (mkRecv 0 [] [] [] []) args in
  let items := rv_items a in
  let cnt := Z.of_nat (length items) in
  let dynamicMetricCnt := Z.of_nat (length (rv_dynamic a)) in
  do! _ := incr_by "RecvCnt" (cnt + dynamicMetricCnt) in
  do! _ := (if String.eqb from "rpc" then incr_by "RpcRecvCnt" (cnt + dynamicMetricCnt)
            else if String.eqb from "http" then incr_by "HttpRecvCnt" (cnt + dynamicMetricCnt) else skip) in
  do! _ := (if tc_Graph cfg then Push2GraphSendQueue items else skip) in
  do! _ := (if tc_Judge cfg then Push2JudgeSendQueue items else skip) in
  do! _ := (if tc_Poly cfg then Push2PolySendQueue (rv_polys a) else skip) in
  do! _ := (if tc_Tsdb cfg then Push2TsdbSendQueue items else skip) in
  do! pushed := (if tc_Kafka cfg && negb (String.eqb (tc_DatabusChannel cfg) "") then Push2KafkaSendQueue items else ret true) in
  if pushed : bool then do! reply := recv_reply start stop args a in ret (Some reply) else ret None.

(** Source: modules/transfer/receiver/rpc/rpc_transfer.go, Transfer.Update. *)
Definition Transfer_Update (start stop : Z) (args : list (option MetricValue)) : T (option TransferResponse) := RecvMetricValues start stop args "rpc".

(** Source: modules/transfer/receiver/socket/socket_telnet.go, convertLine2MetaData. [None] is the error. *)
Definition convertLine2MetaData (fields : list string) : option MetaData :=
  match fields with
  | endpoint :: metric :: f2 :: f3 :: more =>
      if (2 <? length more)%nat then None
      else
        match parse_int f2 64 with
        | None => None
        | Some ts =>
            match ParseFloat f3 with
            | None => None
            | Some v =>
                let type_ := match more with t :: _ => t | [] => T_COUNTER end in
                if negb (String.eqb type_ T_DERIVE || String.eqb type_ T_GAUGE || String.eqb type_ T_COUNTER) then None
                else
                  let step :=
                    match more with
                    | [_; f5] =>
                        match split f5 ":" with
                        | [d0] => parse_int d0 64
                        | [_; _; _; d3] => parse_int d3 64
                        | _ => None
                        end
                    | _ => Some DEFAULT_STEP
                    end in
                  match step with
                  | None => None
                  | Some step => Some (mkMetaData metric endpoint ts step v type_ ∅)
                  end
            end
        end
  | _ => None
  end.

(** Source: modules/transfer/receiver/socket/socket_telnet.go, socketTelnetHandle. [lines] are the lines read before the connection ends. *)
Definition socketTelnetHandle (lines : list string) : T unit :=
  let loop := fix loop (lines : list string) : list MetaData :=
    match lines with
    | [] => []
    | line :: rest =>
        let line := trim (fun c => Ascii.eqb c (Ascii.ascii_of_nat 10)) line in
        if String.eqb line "quit" then []
        else if String.eqb line "" then loop rest
        else
          match Fields line with
          | cmd :: (_ :: _) as t =>
              if negb (String.eqb cmd "update") then loop rest
              else match convertLine2MetaData (tail t) with None => loop rest | Some item => item :: loop rest end
          | _ => loop rest
          end
    end in
  let items := loop lines in
  do! _ := incr_by "SocketRecvCnt" (Z.of_nat (length items)) in
  do! _ := incr_by "RecvCnt" (Z.of_nat (length items)) in
  do! _ := (if tc_Graph cfg then Push2GraphSendQueue items else skip) in
  if tc_Judge cfg then Push2JudgeSendQueue items else skip.
End transfer.

(** * The forwarding tasks *)

(** Up to three calls; [ok] tells which succeed. *)
Definition three_tries (ok : nat -> bool) : bool := ok 0 || ok 1 || ok 2.

(** One round of a task: take up to [batch] items from the queue, call the
    node, count what was sent or lost. *)
Definition forward_round {A} (sent failed : string) (batch : Z) (ok : nat -> bool) (q : list A) : T (list A * option (list A)) :=
  do! (items, q) := lift (SL_PopBackBy batch q) in
  let count := Z.of_nat (length items) in
  if (count =? 0)%Z then ret (q, None)
  else if three_tries ok
  then do! _ := incr_by sent count in ret (q, Some items)
  else do! _ := incr_by failed count in ret (q, None).

(** Source: modules/transfer/sender/send_tasks.go, forward2JudgeTask. One round; the delivered batch, if any. *)
Definition forward2JudgeTask (batch : Z) (ok : nat -> bool) (node : string) : T (option (list JudgeItem)) :=
  do! q := gets (fun s => tr_Judge s !! node) in
  do! q := lift (deref q) in
  do! (q, sent) := forward_round "SendToJudgeCnt" "SendToJudgeFailCnt" batch ok q in
  do! _ := modify (fun s => t_set_judge (<[node := q]> (tr_Judge s)) s) in
  ret sent.

(** Source: modules/transfer/sender/send_tasks.go, forward2GraphTask. *)
Definition forward2GraphTask (batch : Z) (ok : nat -> bool) (node addr : string) : T (option (list GraphItem)) :=
  do! q := gets (fun s => tr_Graph s !! (node ++s addr)) in
  do! q := lift (deref q) in
  do! (q, sent) := forward_round "SendToGraphCnt" "SendToGraphFailCnt" batch ok q in
  do! _ := modify (fun s => t_set_graph (<[node ++s addr := q]> (tr_Graph s)) s) in
  ret sent.

(** Source: modules/transfer/sender/send_tasks.go, forward2PolyTask. *)
Definition forward2PolyTask (batch : Z) (ok : nat -> bool) (node : string) : T (option (list PolyRequest)) :=
  do! q := gets (fun s => tr_Poly s !! node) in
  do! q := lift (deref q) in
  do! (q, sent) := forward_round "SendToPolyCnt" "SendToPolyFailCnt" batch ok q in
  do! _ := modify (fun s => t_set_poly (<[node := q]> (tr_Poly s)) s) in
  ret sent.

(** Source: modules/transfer/sender/sender_cron.go, calcSendCacheSize. *)
Definition calcSendCacheSize {A} (mapList : gmap string (list A)) : Z :=
  map_fold (fun _ l cnt => (cnt + Z.of_nat (length l))%Z) 0%Z mapList.
(** Source: modules/transfer/sender/sender_cron.go, refreshSendingCacheSize. *)
Definition refreshSendingCacheSize : T unit :=
  do! s := gets (fun s => s) in
  do! _ := set_to "JudgeQueuesCnt" (calcSendCacheSize (tr_Judge s)) in
  do! _ := set_to "PolyQueuesCnt" (calcSendCacheSize (tr_Poly s)) in
  set_to "GraphQueuesCnt" (calcSendCacheSize (tr_Graph s)).

(** Source: modules/transfer/cron/sync_poly.go, SafeEndPolyCache.SyncEndPolyFromRedis. The two answers of redis, [None] for an error. *)
Definition SyncEndPolyFromRedis (mapKey : option string) (hgetall : string -> option (gmap string string)) : T unit :=
  match mapKey with
  | None => skip
  | Some k => match hgetall k with None => skip | Some res => modify (t_set_endpoly res) end
  end.
(** Source: modules/transfer/cron/sync_poly.go, SafeEndPolyCache.Get. *)
Definition EndPolyCache_Get (s : TransState) (end_ : string) : string := default "" (tr_EndPoly s !! end_).
