(* ===== verification/TransferThms.v ===== *)
(** Theorems on the transfer: a report is answered and counted whatever it
    holds, unless it waits for room in the Kafka channel; what ends the pusher to
    Prometheus and the reader of the channel; the items a graph and a judge are
    sent are well formed and aligned, each goes to the queue of its own node in
    order, and the counters of poly strategies are compared with the first point
    ever seen. *)
From S2P Require Export Transfer.
Local Open Scope string_scope.

(** * A wired transfer *)

(** The rings only name nodes of the clusters, for which there is a queue. *)
Record wired (cfg : TConfig) (rings : Rings) (s : TransState) : Prop := {
  w_min : (0 < tc_MinStep cfg < 2 ^ 62)%Z;
  w_judge : forall k node, JudgeNodeRing rings k = Some node -> is_Some (tr_Judge s !! node);
  w_poly : forall k node, PolyNodeRing rings k = Some node -> is_Some (tr_Poly s !! node);
  w_graph : forall k node, GraphNodeRing rings k = Some node -> exists addrs, tc_ClusterList cfg !! node = Some addrs /\
    forall addr, addr ∈ addrs -> is_Some (tr_Graph s !! (node ++s addr));
  w_tsdb : tc_Tsdb cfg = true -> is_Some (tr_Tsdb s) }.

(** * What a good value is *)

Definition known_type (t : string) : Prop := t = T_GAUGE \/ t = T_COUNTER \/ t = T_DERIVE.
#[export] Instance known_type_dec t : Decision (known_type t).
Proof. unfold known_type. apply _. Defined.

(** A value with a number, or a text that [strconv.ParseFloat] reads. *)
Definition numeric (v : value) : Prop :=
  match v with VString t => is_Some (ParseFloat t) | VFloat _ | VInt _ => True | VOther => False end.
#[export] Instance numeric_dec v : Decision (numeric v).
Proof. destruct v; cbn; apply _. Defined.

(** A report's value that the transfer is to take: it names a metric, other
    than [kernel.hostname], and an endpoint, has one of the three types, a
    positive step, a number, and at most 510 bytes of metric and tags. *)
Record well_formed (v : MetricValue) : Prop := {
  wf_metric : mv_Metric v <> "" /\ mv_Metric v <> "kernel.hostname";
  wf_endpoint : mv_Endpoint v <> "";
  wf_type : known_type (mv_Type v);
  wf_value : numeric (mv_Value v);
  wf_step : (0 < mv_Step v)%Z;
  wf_length : (slen (mv_Metric v) + slen (mv_Tags v) <= 510)%Z }.
#[export] Instance well_formed_dec v : Decision (well_formed v).
Proof.
  refine (cast_if (decide ((mv_Metric v <> "" /\ mv_Metric v <> "kernel.hostname") /\ mv_Endpoint v <> "" /\ known_type (mv_Type v) /\
    numeric (mv_Value v) /\ (0 < mv_Step v)%Z /\ (slen (mv_Metric v) + slen (mv_Tags v) <= 510)%Z)));
    [abstract (by constructor; naive_solver)|abstract (intros []; naive_solver)].
Defined.
Definition valid_arg (v : option MetricValue) : bool :=
  match v with Some v => bool_decide (well_formed v) | None => false end.

Lemma value_of_numeric v : is_Some (value_of v) <-> numeric v.
Proof. destruct v; cbn; naive_solver. Qed.
Lemma acceptable_well_formed v : well_formed v <-> acceptable v = true /\ is_Some (value_of (mv_Value v)).
Proof.
  rewrite value_of_numeric. unfold acceptable. rewrite !andb_true_iff, !negb_true_iff, !orb_false_iff, !orb_true_iff, !String.eqb_eq, !String.eqb_neq, Z.leb_gt, Z.ltb_ge.
  split.
  - intros [[] ? Ht Hv ? ?]. unfold known_type in Ht. repeat split; try done; [naive_solver|]. destruct (mv_Value v) as [t| | |]; try done.
    apply String.eqb_neq. intros ->. cbn in Hv. by destruct Hv.
  - intros [[[[[[? []] Ht] ?] ?] ?] ?]. constructor; try done. unfold known_type. naive_solver.
Qed.

Lemma valid_arg_checks v : valid_arg (Some v) = acceptable v && bool_decide (is_Some (value_of (mv_Value v))).
Proof.
  cbn. rewrite (bool_decide_ext _ _ (acceptable_well_formed v)), bool_decide_and. f_equal. by destruct (acceptable v).
Qed.

(** * Every report is answered *)

Section total.
Context (cfg : TConfig) (rings : Rings) (K : list KafkaData) (P : list (list PromeMetaData)).
(** The pushes to the other backends leave the Kafka channel and the pushers alone. *)
Definition apart (s : TransState) : Prop := wired cfg rings s /\ tr_Kafka s = K /\ tr_Prome s = P.
Notation W := apart.

Lemma wired_judge s node q : W s -> W (t_set_judge (<[node := q]> (tr_Judge s)) s).
Proof using Type.
  intros [[] Hkp]. split; [|done]. constructor; cbn; auto. intros k n H. destruct (decide (n = node)) as [->|];
    [rewrite lookup_insert_eq; eauto|rewrite lookup_insert_ne by done; eauto].
Qed.
Lemma wired_poly s node q : W s -> W (t_set_poly (<[node := q]> (tr_Poly s)) s).
Proof using Type.
  intros [[] Hkp]. split; [|done]. constructor; cbn; auto. intros k n H. destruct (decide (n = node)) as [->|];
    [rewrite lookup_insert_eq; eauto|rewrite lookup_insert_ne by done; eauto].
Qed.
Lemma wired_graph s key q : W s -> W (t_set_graph (<[key := q]> (tr_Graph s)) s).
Proof using Type.
  intros [[] Hkp]. split; [|done]. constructor; cbn; auto. intros k n H. destruct (w_graph0 k n H) as (addrs & E & Ha). exists addrs. split; [done|].
  intros addr Hin. destruct (decide (n ++s addr = key)) as [->|]; [rewrite lookup_insert_eq; eauto|rewrite lookup_insert_ne by done; eauto].
Qed.
Lemma wired_cnt name z s : W s -> W (t_set_cnt (<[name := z]> (tr_cnt s)) s).
Proof using Type. intros [[] Hkp]. split; [|done]. by constructor. Qed.
Lemma runs_incr name n : runs W (incr_by name n).
Proof using Type. apply runs_modify. intros s. apply wired_cnt. Qed.

Lemma alignTs_ret ts period : (0 < period)%Z -> exists r, alignTs ts period = Ret r.
Proof using Type. intros H. unfold alignTs, go_rem. destruct (Z.eqb_spec period 0); [lia|]. cbn. eauto. Qed.

Lemma larger_step d : (0 < tc_MinStep cfg)%Z -> (0 < (if md_Step d <? tc_MinStep cfg then tc_MinStep cfg else md_Step d))%Z.
Proof using Type. intros. destruct (Z.ltb_spec (md_Step d) (tc_MinStep cfg)); lia. Qed.

Lemma convert2GraphItem_ret d : (0 < tc_MinStep cfg)%Z -> exists r, convert2GraphItem cfg d = Ret r.
Proof using Type.
  intros H. unfold convert2GraphItem. destruct (alignTs_ret (md_Timestamp d) _ (larger_step d H)) as [r ->]. cbn.
  repeat destruct (String.eqb _ _); eauto.
Qed.
Lemma judge_item_ret d : (0 < tc_MinStep cfg)%Z -> exists r, judge_item cfg d = Ret r.
Proof using Type.
  intros H. unfold judge_item. destruct (alignTs_ret (md_Timestamp d) _ (larger_step d H)) as [r ->]. cbn. eauto.
Qed.

(** Reading a queue that is there. *)
Lemma runs_queue {A B} (look : TransState -> option (list A)) (k : list A -> T B) :
  (forall s, W s -> is_Some (look s)) -> (forall q, runs W (k q)) -> runs W (do! q := gets look in do! q := lift (deref q) in k q).
Proof using Type.
  intros Hl Hk s Hs. destruct (Hl s Hs) as [q E]. unfold mthen, gets, lift. rewrite E. cbn. by apply Hk.
Qed.

Lemma runs_from {A} (m : T A) : (forall s, W s -> runs (fun s' => W s') m) -> runs W m.
Proof using Type. intros H s Hs. by apply (H s). Qed.

Lemma Push2JudgeSendQueue_runs items : runs W (Push2JudgeSendQueue cfg rings items).
Proof using Type.
  apply runs_forM. intros item _. cbv zeta beta. destruct (JudgeNodeRing rings (MetaData_PK item)) as [node|] eqn:E; [|apply runs_ret].
  apply runs_from. intros s0 [Hs0 _]. destruct (judge_item_ret item (proj1 (w_min _ _ _ Hs0))) as [ji Hji].
  apply runs_then; [apply runs_lift; by exists ji|]. intros j. apply runs_queue; [intros s [[] ?]; eauto|]. intros q.
  destruct (SLL_PushFront j q) as [ok q']. apply runs_then; [apply runs_modify; intros; by apply wired_judge|]. intros _.
  destruct ok; [apply runs_ret|apply runs_incr].
Qed.

Lemma Push2PolySendQueue_runs items : runs W (Push2PolySendQueue rings items).
Proof using Type.
  apply runs_forM. intros item _. cbv zeta beta. destruct (PolyNodeRing rings (pr_PolyName item)) as [node|] eqn:E; [|apply runs_ret].
  apply runs_queue; [intros s [[] ?]; eauto|]. intros q. destruct (SLL_PushFront item q) as [ok q'].
  apply runs_then; [apply runs_modify; intros; by apply wired_poly|]. intros _. destruct ok; [apply runs_ret|apply runs_incr].
Qed.

Lemma Push2GraphSendQueue_runs items : runs W (Push2GraphSendQueue cfg rings items).
Proof using Type.
  apply runs_forM. intros item _. cbv zeta beta. apply runs_from. intros s0 [Hs0 _].
  destruct (convert2GraphItem_ret item (proj1 (w_min _ _ _ Hs0))) as [gi Hgi].
  apply runs_then; [apply runs_lift; by exists gi|]. intros [g|]; [|apply runs_ret].
  destruct (GraphNodeRing rings (MetaData_PK item)) as [node|] eqn:E; [|apply runs_ret].
  destruct (w_graph _ _ _ Hs0 _ _ E) as (addrs & Ea & _). apply (runs_then_post _ (fun a => a = addrs)).
  { intros s Hs. exists addrs, s. unfold lift. by rewrite Ea. }
  intros a ->. apply runs_then; [|intros n; destruct (0 <? n)%Z; [apply runs_incr|apply runs_ret]].
  apply runs_foldM. intros n addr Hin. apply runs_queue.
  { intros s [Hs _]. destruct (w_graph _ _ _ Hs _ _ E) as (addrs' & Ea' & H). rewrite Ea in Ea'. injection Ea' as <-. by apply H. }
  intros q. destruct (SLL_PushFront g q) as [ok q']. apply runs_then; [apply runs_modify; intros; by apply wired_graph|].
  intros; apply runs_ret.
Qed.

Lemma Push2TsdbSendQueue_runs items : tc_Tsdb cfg = true -> runs W (Push2TsdbSendQueue items).
Proof using Type.
  intros Ht. apply runs_forM. intros item _. cbv zeta beta. apply runs_queue; [intros s [[] ?]; auto|]. intros q.
  destruct (SLL_PushFront _ q) as [ok q']. apply runs_then; [|intros _; destruct ok; [apply runs_ret|apply runs_incr]].
  apply runs_modify. intros s [[] ?]. split; [|done]. constructor; cbn; eauto.
Qed.

Lemma poly_value_runs fv counter : runs W (poly_value fv counter).
Proof using Type.
  unfold poly_value. destruct (String.eqb _ _); [|apply runs_ret]. apply runs_then; [apply runs_gets|]. intros [l|].
  - destruct (_ <=? 0)%Z; apply runs_ret.
  - apply runs_then; [|intros; apply runs_ret]. apply runs_modify. intros s [[] ?]. split; [|done]. by constructor.
Qed.

(** What the loop has gathered all names an endpoint. *)
Definition named (a : recv) : Prop :=
  Forall (fun d => md_Endpoint d <> "") (rv_items a) /\ Forall (fun d => md_Endpoint (pm_FalconMetaData d) <> "") (rv_prome a).

(** One turn of the loop counts the value as invalid exactly when it is. *)
Lemma recv_one_counts now a v s : W s -> named a ->
  exists a' s', recv_one cfg now a v s = Ret (a', s') /\ W s' /\ named a' /\
    rv_invalid a' = (rv_invalid a + (if valid_arg v then 0 else 1))%Z.
Proof using Type.
  intros Hs Ha. unfold recv_one, valid_arg. destruct v as [v|]; [|by do 2 eexists].
  pose proof (acceptable_well_formed v) as Hwf. destruct (acceptable v); cbn [negb andb]; cycle 1.
  { rewrite bool_decide_eq_false_2 by naive_solver. by do 2 eexists. }
  destruct (value_of (mv_Value v)) as [vv|]; cbn; cycle 1.
  { rewrite bool_decide_eq_false_2 by (intros [_ []]%Hwf; done). by do 2 eexists. }
  rewrite bool_decide_eq_true_2 by naive_solver. assert (mv_Endpoint v <> "") as He by (apply wf_endpoint; naive_solver). clear Hwf.
  destruct Ha as [Hi Hp].
  destruct (match _ with Some d => _ | None => false end); [do 2 eexists; split; [done|]; split; [done|]; split; [done|cbn; lia]|].
  unfold mthen at 1, gets at 1. destruct (String.eqb _ "").
  { do 2 eexists. split; [done|]. split; [done|]. split; [split; [apply Forall_app; repeat constructor; done|done]|cbn; lia]. }
  match goal with |- context [poly_value ?f ?c] => destruct (poly_value_runs f c s Hs) as (pv & s1 & E & H1) end.
  rewrite (mthen_run _ _ _ _ _ E). destruct pv; do 2 eexists; (split; [done|]); (split; [done|]); (split; [|cbn; lia]); [|done].
  split; cbn; apply Forall_app; (split; [done|]); repeat constructor; [done|]. destruct (tc_Prome cfg && _); repeat constructor; done.
Qed.

Lemma recv_loop_counts now args a s : W s -> named a ->
  exists a' s', foldM (recv_one cfg now) a args s = Ret (a', s') /\ W s' /\ named a' /\
    rv_invalid a' = (rv_invalid a + Z.of_nat (length (List.filter (fun v => negb (valid_arg v)) args)))%Z.
Proof using Type.
  revert a s; induction args as [|v args IH]; intros a s Hs Ha; cbn [foldM List.filter];
    [do 2 eexists; split; [done|]; split; [done|]; split; [done|cbn; lia]|].
  destruct (recv_one_counts now a v s Hs Ha) as (a1 & s1 & E & H1 & Ha1 & Hn). rewrite (mthen_run _ _ _ _ _ E).
  destruct (IH a1 s1 H1 Ha1) as (a2 & s2 & E2 & H2 & Ha2 & Hn2). exists a2, s2. split; [done|]. split; [done|]. split; [done|].
  rewrite Hn2, Hn. destruct (valid_arg v); cbn [negb length]; lia.
Qed.

(** The loop has run: everything is pushed, and the Kafka channel is next. *)
Lemma backends_pushed (k : T (option TransferResponse)) (items : list MetaData) (polys : list PolyRequest) cnt (from : string) s :
  W s -> exists s', W s' /\
    (do! _ := incr_by "RecvCnt" cnt in
     do! _ := (if String.eqb from "rpc" then incr_by "RpcRecvCnt" cnt else if String.eqb from "http" then incr_by "HttpRecvCnt" cnt else skip) in
     do! _ := (if tc_Graph cfg then Push2GraphSendQueue cfg rings items else skip) in
     do! _ := (if tc_Judge cfg then Push2JudgeSendQueue cfg rings items else skip) in
     do! _ := (if tc_Poly cfg then Push2PolySendQueue rings polys else skip) in
     do! _ := (if tc_Tsdb cfg then Push2TsdbSendQueue items else skip) in k) s = k s'.
Proof using Type.
  assert (forall (m : T unit) (k0 : T (option TransferResponse)) s0, runs W m -> W s0 ->
    (forall s2, W s2 -> exists s', W s' /\ k0 s2 = k s') ->
    exists s', W s' /\ mthen m (fun _ => k0) s0 = k s') as Hstep.
  { intros m k0 s0 Hm H0 Hk. destruct (Hm s0 H0) as ([] & s2 & E2 & H2). rewrite (mthen_run _ _ _ _ _ E2). by apply Hk. }
  intros Hs. apply Hstep; [apply runs_incr|done|]. clear s Hs; intros s Hs.
  apply Hstep; [repeat destruct (String.eqb _ _); try apply runs_incr; apply runs_ret|done|]. clear s Hs; intros s Hs.
  apply Hstep; [destruct (tc_Graph cfg); [apply Push2GraphSendQueue_runs|apply runs_ret]|done|]. clear s Hs; intros s Hs.
  apply Hstep; [destruct (tc_Judge cfg); [apply Push2JudgeSendQueue_runs|apply runs_ret]|done|]. clear s Hs; intros s Hs.
  apply Hstep; [destruct (tc_Poly cfg); [apply Push2PolySendQueue_runs|apply runs_ret]|done|]. clear s Hs; intros s Hs.
  apply Hstep; [destruct (tc_Tsdb cfg) eqn:Et; [by apply Push2TsdbSendQueue_runs|apply runs_ret]|done|]. clear s Hs; intros s Hs.
  by exists s.
Qed.
End total.

(** The switch of the Kafka channel, and whether it has no room. *)
Definition kafka_on (cfg : TConfig) : bool := tc_Kafka cfg && negb (String.eqb (tc_DatabusChannel cfg) "").
Definition kafka_full (s : TransState) : bool := (KafkaQueueSize <=? Z.of_nat (length (tr_Kafka s)))%Z.

Lemma kafka_item items : Forall (fun d => md_Endpoint d <> "") items ->
  kd_Endpoint (ExtractKafkaItemNew items (mkKafkaData "" 0 ∅)) = "" <-> items = [].
Proof.
  intros H. unfold ExtractKafkaItemNew. split; [|by intros ->]. destruct items as [|d items]; [done|]. cbn [fold_left kd_Endpoint String.eqb].
  apply Forall_cons in H as [Hd _]. set (kv := mkKafkaData (md_Endpoint d) _ _). assert (kd_Endpoint kv <> "") as Hkv by done.
  clearbody kv. intros E. exfalso. revert kv Hkv E. induction items as [|d' items IH]; intros kv Hkv; [done|]. cbn [fold_left].
  apply IH. destruct (String.eqb_spec (kd_Endpoint kv) ""); done.
Qed.

Lemma Push2KafkaSendQueue_run cfg rings items s : wired cfg rings s -> Forall (fun d => md_Endpoint d <> "") items ->
  exists s', Push2KafkaSendQueue items s = Ret (negb (kafka_full s && negb (bool_decide (items = []))), s') /\ wired cfg rings s' /\
    tr_Prome s' = tr_Prome s /\
    tr_Kafka s' = (tr_Kafka s ++ (if bool_decide (items = []) then [] else [ExtractKafkaItemNew items (mkKafkaData "" 0 ∅)]))%list.
Proof.
  intros Hs Hi. unfold Push2KafkaSendQueue, incr_by, set_to, mthen, modify, gets, kafka_full. cbn. pose proof (kafka_item items Hi) as Hk.
  destruct (String.eqb_spec (kd_Endpoint (ExtractKafkaItemNew items (mkKafkaData "" 0 ∅))) ""); cbn; eexists.
  - rewrite (bool_decide_eq_true_2 (items = [])) by naive_solver. cbn. rewrite andb_false_r, app_nil_r. split; [done|]. split; [|done].
    destruct Hs. by constructor.
  - rewrite (bool_decide_eq_false_2 (items = [])) by naive_solver. cbn. rewrite andb_true_r, <- Z.ltb_antisym. split; [done|]. split; [|done].
    destruct Hs. by constructor.
Qed.

(** What the loop over a report's values ends with. *)
Definition gathered (cfg : TConfig) (start : Z) (args : list (option MetricValue)) (s : TransState) : recv :=
  match foldM (recv_one cfg (start / 10 ^ 9)) (mkRecv 0 [] [] [] []) args s with Ret (a, _) => a | Panic _ => mkRecv 0 [] [] [] [] end.
(** It waits: the channel is full and there is something to send to it. *)
Definition waits (cfg : TConfig) (start : Z) (args : list (option MetricValue)) (s : TransState) : bool :=
  kafka_on cfg && kafka_full s && negb (bool_decide (rv_items (gathered cfg start args s) = [])).
Definition reply_of (start stop : Z) (args : list (option MetricValue)) : TransferResponse :=
  mkTResp "ok" (Z.of_nat (length args)) (Z.of_nat (length (List.filter (fun v => negb (valid_arg v)) args))) (Z.quot (stop -! start) 1000000).

(** A report, completely. *)
Lemma report_run (cfg : TConfig) (rings : Rings) (start stop : Z) (args : list (option MetricValue)) (from : string) (s : TransState) :
  wired cfg rings s ->
  let a := gathered cfg start args s in
  exists s', RecvMetricValues cfg rings start stop args from s =
      Ret (if waits cfg start args s then None else Some (reply_of start stop args), s') /\ wired cfg rings s' /\ named a /\
    tr_Kafka s' = (tr_Kafka s ++ (if kafka_on cfg && negb (bool_decide (rv_items a = [])) then [ExtractKafkaItemNew (rv_items a) (mkKafkaData "" 0 ∅)] else []))%list /\
    tr_Prome s' = (tr_Prome s ++ (if tc_Prome cfg && negb (waits cfg start args s) then [rv_prome a] else []))%list.
Proof.
  intros Hs a0. set (K := tr_Kafka s). set (P := tr_Prome s).
  destruct (recv_loop_counts cfg rings K P (start / 10 ^ 9) args (mkRecv 0 [] [] [] []) s) as (a & s1 & E & H1 & Ha & Hn); [done|by split|].
  assert (a0 = a) as Ea by (unfold a0, gathered; by rewrite E). unfold RecvMetricValues. rewrite (mthen_run _ _ _ _ _ E). cbv zeta.
  match goal with |- context [mthen (incr_by _ ?c) _] => pose proof (backends_pushed cfg rings K P
    (do! pushed := (if kafka_on cfg then Push2KafkaSendQueue (rv_items a) else ret true) in
     if pushed : bool then do! reply := recv_reply cfg start stop args a in ret (Some reply) else ret None) (rv_items a) (rv_polys a) c from s1 H1) as (s2 & (H2 & HK & HP) & E2) end.
  unfold kafka_on in E2 at 1. rewrite E2. clear E E2. unfold waits. fold a0. rewrite Ea.
  assert (forall s3 (o := Ret (true, s3)), wired cfg rings s3 -> tr_Prome s3 = P ->
    exists s', (do! reply := recv_reply cfg start stop args a in ret (Some reply)) s3 = Ret (Some (reply_of start stop args), s') /\ wired cfg rings s' /\
      tr_Kafka s' = tr_Kafka s3 /\ tr_Prome s' = (P ++ (if tc_Prome cfg then [rv_prome a] else []))%list) as Hreply.
  { intros s3 _ H3 HP3. assert (reply_of start stop args = mkTResp "ok" (Z.of_nat (length args)) (rv_invalid a) (Z.quot (stop -! start) 1000000)) as ->
      by (unfold reply_of; f_equal; cbn in Hn; lia).
    unfold recv_reply, mthen, modify, skip, ret. destruct (tc_Prome cfg); eexists; (split; [done|]); cbn; rewrite HP3; (split; [|by rewrite ?app_nil_r]); [|done].
    destruct H3. by constructor. }
  destruct (kafka_on cfg); cbn [andb].
  - destruct (Push2KafkaSendQueue_run cfg rings (rv_items a) s2 H2 (proj1 Ha)) as (s3 & E3 & H3 & HP3 & HK3).
    rewrite (mthen_run _ _ _ _ _ E3). assert (kafka_full s2 = kafka_full s) as -> by (unfold kafka_full; by rewrite HK).
    destruct (kafka_full s && negb (bool_decide (rv_items a = []))) eqn:Ew; cbn [negb].
    + exists s3. split; [done|]. split; [done|]. split; [done|]. rewrite andb_false_r, app_nil_r, HP3, HK3, HK, HP. split; [|done].
      f_equal. apply andb_true_iff in Ew as [_ Ew]. by destruct (bool_decide _).
    + destruct (Hreply s3) as (s' & E' & H' & HK' & HP'); [done|congruence|]. exists s'. split; [exact E'|]. split; [done|]. split; [done|].
      rewrite HK', HP', HK3, HK, andb_true_r. split; [|done]. f_equal. by destruct (bool_decide _).
  - destruct (Hreply s2) as (s' & E' & H' & HK' & HP'); [done|congruence|]. exists s'. split; [exact E'|]. split; [done|]. split; [done|].
    rewrite HK', HP', HK, andb_true_r, app_nil_r. done.
Qed.

(** ** The pusher to Prometheus *)

(** A text that names its group behind the separator. *)
Definition names_group (poly : string) : Prop := exists name rest, poly = name ++s PolyStringSep ++s rest.
(** An item the pusher cannot take. *)
Definition poisoned (d : PromeMetaData) : Prop :=
  (exists poly, poly ∈ pm_Polys d /\ ~ names_group poly) \/
  (md_CounterType (pm_FalconMetaData d) = T_COUNTER /\ flt (md_Value (pm_FalconMetaData d)) fzero = true).
(** One stands in the batch, behind items that are all registered. *)
Definition poisons (Register : list PromeMetric -> PromeMetric -> bool) (batch : list PromeMetaData) : Prop :=
  exists before d after registered, batch = (before ++ d :: after)%list /\ prome_loop Register [] before = Ret (Some registered) /\ poisoned d.

Lemma prefix_app a s : String.prefix a s = true -> exists rest, s = a ++s rest.
Proof.
  revert s; induction a as [|x a IH]; intros s H; [by exists s|]. destruct s as [|y s]; [done|]. cbn in H.
  destruct (Ascii.ascii_dec x y) as [->|]; [|done]. destruct (IH _ H) as [r ->]. by exists r.
Qed.

Lemma split_group poly : (exists g, at_index (split poly PolyStringSep) 1 = Ret g) <-> names_group poly.
Proof.
  assert (forall poly, snd (split_aux PolyStringSep 0 poly) <> [] <-> names_group poly) as H.
  { clear poly. induction poly as [|c poly IH]; [split; [done|intros ([|a n] & rest & Hn); discriminate Hn]|].
    cbn [split_aux]. destruct (String.prefix PolyStringSep (String c poly)) eqn:Hp.
    - destruct (split_aux PolyStringSep (pred (String.length PolyStringSep)) poly) as [h t]. split; [intros _|by intros _]. exists "". exact (prefix_app _ _ Hp).
    - destruct (split_aux PolyStringSep 0 poly) as [h t]. cbn [snd] in *. rewrite IH. split.
      + intros (n & r & ->). by exists (String c n), r.
      + intros ([|c' n] & r & Hn); [|cbn in Hn; injection Hn as <- ->; by exists n, r].
        exfalso. change ("" ++s ?x) with x in Hn. rewrite Hn in Hp. by rewrite (prefix_self PolyStringSep r) in Hp. }
  rewrite <- H. unfold split, at_index. destruct (split_aux PolyStringSep 0 poly) as [h [|g t]]; cbn; naive_solver.
Qed.

Lemma prome_labels_panics d : (exists e, prome_labels d = Panic e) <-> exists poly, poly ∈ pm_Polys d /\ ~ names_group poly.
Proof.
  unfold prome_labels. match goal with |- context [fold_res ?f _ _] => set (body := f) end.
  assert (forall polys m, (exists e, fold_res body m polys = Panic e) <-> exists poly, poly ∈ polys /\ ~ names_group poly) as H.
  { induction polys as [|poly polys IH]; intros m; cbn [fold_res]; [split; [by intros []|by intros (? & ?%elem_of_nil & _)]|].
    pose proof (split_group poly) as Hg. unfold body at 1. destruct (at_index (split poly PolyStringSep) 1) as [g|e]; cbn [rbind].
    - rewrite IH. split; [intros (p & ? & ?); exists p; split; [by right|done]|]. intros (p & [->|?]%elem_of_cons & ?); [|by exists p].
      exfalso. naive_solver.
    - split; [|by exists e]. intros _. exists poly. split; [by left|]. intros [g Eg]%Hg. done. }
  rewrite <- (H _ (md_Tags (pm_FalconMetaData d))). destruct (fold_res body _ _); cbn; naive_solver.
Qed.

Lemma prome_metric_panics d : (exists e, prome_metric d = Panic e) <-> poisoned d.
Proof.
  unfold prome_metric, poisoned. rewrite <- prome_labels_panics. destruct (prome_labels d) as [l|e]; cbn [rbind]; [|naive_solver].
  destruct (String.eqb_spec (md_CounterType (pm_FalconMetaData d)) T_GAUGE) as [->|]; [split; [by intros []|by intros [[]|[]]]|].
  destruct (String.eqb_spec (md_CounterType (pm_FalconMetaData d)) T_COUNTER); [|naive_solver]. destruct (flt _ _); naive_solver.
Qed.

Lemma prome_loop_panics Register dataS reg : (exists e, prome_loop Register reg dataS = Panic e) <->
  exists before d after registered, dataS = (before ++ d :: after)%list /\ prome_loop Register reg before = Ret (Some registered) /\ poisoned d.
Proof.
  revert reg; induction dataS as [|d dataS IH]; intros reg; cbn [prome_loop].
  { split; [by intros []|]. by intros ([|] & ? & ? & ? & ? & _). }
  pose proof (prome_metric_panics d) as Hd. destruct (prome_metric d) as [m|e] eqn:Em; cbn [rbind]; cycle 1.
  { split; [|by exists e]. intros _. exists [], d, dataS, reg. split; [done|]. split; [done|]. naive_solver. }
  assert (~ poisoned d) as Hn by (intros [? ?]%Hd; done).
  assert (forall reg', (exists e, prome_loop Register reg' dataS = Panic e) <->
    exists before d' after registered, d :: dataS = ((d :: before) ++ d' :: after)%list /\ prome_loop Register reg' before = Ret (Some registered) /\ poisoned d') as IH'.
  { intros reg'. rewrite IH. split; intros (b & d' & af & r & E & ?); exists b, d', af, r; (split; [|done]); cbn in *; congruence. }
  assert (forall reg', (forall before, prome_loop Register reg (d :: before) = prome_loop Register reg' before) ->
    (exists e, prome_loop Register reg' dataS = Panic e) <->
    exists before d' after registered, d :: dataS = (before ++ d' :: after)%list /\ prome_loop Register reg before = Ret (Some registered) /\ poisoned d') as Hon.
  { intros reg' Heq. rewrite IH'. split.
    - intros (b & d' & af & r & E & Hb & ?). exists (d :: b), d', af, r. by rewrite Heq.
    - intros ([|d0 b] & d' & af & r & E & Hb & Hp); cbn in E; [injection E as <- <-; done|]. injection E as <- E.
      exists b, d', af, r. rewrite <- Heq. cbn. by rewrite E. }
  destruct m as [m|]; [|apply Hon; intros; cbn; by rewrite Em].
  destruct (Register reg m) eqn:Er; [apply Hon; intros; cbn; rewrite Em; cbn; by rewrite Er|].
  split; [by intros []|]. intros ([|d0 b] & d' & af & r & E & Hb & Hp); cbn in E; injection E as <- E; [done|]. cbn in Hb. rewrite Em in Hb; cbn in Hb; by rewrite Er in Hb.
Qed.

Lemma PromeWork_panics Register batch : Forall (fun d => md_Endpoint (pm_FalconMetaData d) <> "") batch ->
  (exists e, PromeWork Register batch = Panic e) <-> poisons Register batch.
Proof.
  intros H. unfold PromeWork. destruct batch as [|d batch]; [split; [by intros []|by intros ([|] & ? & ? & ? & ? & _)]|].
  apply Forall_cons in H as [Hd _]. apply String.eqb_neq in Hd. rewrite Hd. apply prome_loop_panics.
Qed.

(** C34: On a wired transfer, whose rings name nodes there are queues for, no
    value of a report makes the call panic.  The report is answered with the
    number of its values and the number of those that are not well formed,
    but when Kafka is on, its channel is full and the report keeps a value:
    then the call waits.  An answered report starts the pusher to Prometheus,
    if that is on, in a goroutine; the goroutine panics, which ends the
    process, exactly when its batch holds, behind items that are all
    registered, a counter below zero or a strategy without a group. *)
Theorem report_answered (cfg : TConfig) (rings : Rings) (start stop : Z) (args : list (option MetricValue)) (from : string) (s : TransState) :
  wired cfg rings s ->
  exists o s', RecvMetricValues cfg rings start stop args from s = Ret (o, s') /\ wired cfg rings s' /\
    (o = None <-> kafka_on cfg = true /\ kafka_full s = true /\ rv_items (gathered cfg start args s) <> []) /\
    forall r, o = Some r ->
      rs_Message r = "ok" /\ rs_Total r = Z.of_nat (length args) /\
      rs_Invalid r = Z.of_nat (length (List.filter (fun v => negb (valid_arg v)) args)) /\
      (tc_Prome cfg = true -> exists batch, tr_Prome s' = (tr_Prome s ++ [batch])%list /\ batch = rv_prome (gathered cfg start args s) /\
        forall Register, (exists e, PromeWork Register batch = Panic e) <-> poisons Register batch).
Proof.
  intros Hs. destruct (report_run cfg rings start stop args from s Hs) as (s' & E & H' & [_ Hp] & _ & HP).
  do 2 eexists. split; [exact E|]. split; [done|]. unfold waits in *. split.
  { destruct (kafka_on cfg), (kafka_full s), (bool_decide_reflect (rv_items (gathered cfg start args s) = [])); cbn; naive_solver. }
  destruct (kafka_on cfg && kafka_full s && _); [done|]. intros r [= <-]. split; [done|]. split; [done|]. split; [done|].
  intros Hon. rewrite Hon in HP. eexists. split; [exact HP|]. split; [done|]. intros Register. by apply PromeWork_panics.
Qed.

(** ** The reader of the Kafka channel *)

(** What can happen to the channel: a report, a turn of its reader, a renewal
    of the poly strategies. *)
Inductive bus_event :=
  | Reported (start stop : Z) (args : list (option MetricValue)) (from : string)
  | ReaderTurn (sent : bool)
  | Renewed (mapKey : option string) (hgetall : string -> option (gmap string string)).

(** One event; the flag tells whether the reader still runs. *)
Definition bus_step (cfg : TConfig) (rings : Rings) (reader : bool) (e : bus_event) : T bool :=
  match e with
  | Reported start stop args from => do! _ := RecvMetricValues cfg rings start stop args from in ret reader
  | ReaderTurn sent => if reader then StartKafkaSender sent else ret false
  | Renewed mapKey hgetall => do! _ := SyncEndPolyFromRedis mapKey hgetall in ret reader
  end.

(** The calls among the reports that wait on the channel. *)
Definition waiting (s : TransState) : list KafkaData := drop (Z.to_nat KafkaQueueSize) (tr_Kafka s).

Lemma bus_stopped cfg rings evs s : wired cfg rings s ->
  exists s' more, foldM (bus_step cfg rings) false evs s = Ret (false, s') /\ wired cfg rings s' /\ tr_Kafka s' = (tr_Kafka s ++ more)%list.
Proof.
  revert s; induction evs as [|e evs IH]; intros s Hs; cbn [foldM]; [exists s, []; by rewrite app_nil_r|].
  assert (exists s1 more, bus_step cfg rings false e s = Ret (false, s1) /\ wired cfg rings s1 /\ tr_Kafka s1 = (tr_Kafka s ++ more)%list) as (s1 & m1 & E1 & H1 & K1).
  { destruct e as [start stop args from|sent|mapKey hgetall]; cbn [bus_step].
    - destruct (report_run cfg rings start stop args from s Hs) as (s1 & E & H1 & _ & HK & _). rewrite (mthen_run _ _ _ _ _ E).
      do 2 eexists. split; [reflexivity|]. split; [done|exact HK].
    - exists s, []. by rewrite app_nil_r.
    - unfold SyncEndPolyFromRedis, mthen, modify, skip, ret. destruct mapKey as [k|]; [destruct (hgetall k) as [m|]|];
        (eexists _, []; split; [reflexivity|]; rewrite app_nil_r; split; [|done]); [|done..]. destruct Hs. by constructor. }
  rewrite (mthen_run _ _ _ _ _ E1). destruct (IH s1 H1) as (s' & m & E & H' & HK). exists s', (m1 ++ m)%list.
  split; [done|]. split; [done|]. by rewrite HK, K1, app_assoc.
Qed.

(** C11: A value that is not a number, or is infinite, silences a wired transfer that
    feeds Kafka: the reader of the channel that takes the report holding it
    returns for good.  Whatever reports, turns and renewals follow, nothing
    leaves the channel any more: every report that keeps a value adds to it,
    the reports find room until it holds 64000, and every later one waits,
    and waits still after whatever else happens. *)
Theorem not_a_number_silences (cfg : TConfig) (rings : Rings) (kv : KafkaData) (queue : list KafkaData) (counter : string) (v : f64)
    (sent : bool) (s : TransState) (evs : list bus_event) :
  wired cfg rings s -> kafka_on cfg = true -> tr_Kafka s = kv :: queue ->
  kd_MetricValue kv !! counter = Some v -> is_nan v || is_inf v = true ->
  exists (s1 s2 : TransState), StartKafkaSender sent s = Ret (false, s1) /\ foldM (bus_step cfg rings) false evs s1 = Ret (false, s2) /\
    queue `prefix_of` tr_Kafka s2 /\
    forall start stop args from, rv_items (gathered cfg start args s2) <> [] ->
    exists o s3 item, RecvMetricValues cfg rings start stop args from s2 = Ret (o, s3) /\ tr_Kafka s3 = (tr_Kafka s2 ++ [item])%list /\
      (o = None <-> (KafkaQueueSize <= Z.of_nat (length (tr_Kafka s2)))%Z) /\
      (o = None -> forall evs', exists s4, foldM (bus_step cfg rings) false evs' s3 = Ret (false, s4) /\ waiting s3 `prefix_of` waiting s4 /\
        item ∈ waiting s4).
Proof.
  intros Hs Hon HK Hv Hbad. exists (t_set_kafka queue s).
  assert (wired cfg rings (t_set_kafka queue s)) as H1 by (destruct Hs; by constructor).
  destruct (bus_stopped cfg rings evs _ H1) as (s2 & more & E2 & H2 & HK2). exists s2. split; [|split; [exact E2|split; [by eexists|]]].
  { unfold StartKafkaSender, mthen at 1, gets. rewrite HK. unfold mthen, modify. rewrite bool_decide_eq_false_2; [done|].
    intros Hf. by rewrite (Hf _ _ Hv) in Hbad. }
  intros start stop args from Hkeep. destruct (report_run cfg rings start stop args from s2 H2) as (s3 & E3 & H3 & _ & HK3 & _).
  rewrite Hon, (bool_decide_eq_false_2 _ Hkeep) in HK3. cbn in HK3. eexists _, s3, _. split; [exact E3|]. split; [exact HK3|].
  assert (waits cfg start args s2 = kafka_full s2) as -> by (unfold waits; rewrite Hon, (bool_decide_eq_false_2 _ Hkeep); cbn; by rewrite andb_true_r).
  assert ((if kafka_full s2 then None else Some (reply_of start stop args)) = None <-> (KafkaQueueSize <= Z.of_nat (length (tr_Kafka s2)))%Z) as Hiff.
  { unfold kafka_full. destruct (Z.leb_spec KafkaQueueSize (Z.of_nat (length (tr_Kafka s2)))); split; (done || lia). }
  split; [exact Hiff|]. intros Hfull%Hiff evs'. destruct (bus_stopped cfg rings evs' s3 H3) as (s4 & m4 & E4 & _ & HK4). exists s4. split; [exact E4|].
  assert (waiting s4 = waiting s3 ++ m4)%list as Hw4.
  { unfold waiting. rewrite HK4, drop_app_le; [done|]. rewrite HK3, length_app. unfold KafkaQueueSize in *. lia. }
  split; [by eexists|]. rewrite Hw4. apply elem_of_app. left. unfold waiting. rewrite HK3, drop_app_le by (unfold KafkaQueueSize in *; lia).
  apply elem_of_app. right. by apply list_elem_of_singleton.
Qed.

(** * What is sent *)

(** The step an item is sent with. *)
Definition sent_step (cfg : TConfig) (d : MetaData) : Z := Z.max (md_Step d) (tc_MinStep cfg).

Lemma alignTs_spec ts period : (0 <= ts < 2 ^ 62)%Z -> (0 < period < 2 ^ 62)%Z ->
  exists r, alignTs ts period = Ret r /\ (period | r)%Z /\ (ts - period < r <= ts)%Z.
Proof.
  intros Ht Hp. unfold alignTs, go_rem. destruct (Z.eqb_spec period 0); [lia|]. cbn. exists (ts - Z.rem ts period)%Z.
  rewrite Z.rem_mod_nonneg by lia. pose proof (Z.mod_pos_bound ts period). rewrite wrap64_id by (unfold in_i64; lia).
  split; [done|]. split; [|lia]. exists (ts / period)%Z. rewrite (Z.div_mod ts period) at 1 by lia. lia.
Qed.

(** The graph gets every item of a known type, with a step no smaller than the
    smallest one, a time on the grid of that step less than a step before the
    report's, twice the step as heartbeat and the type the rrd files know; the
    judge gets the same item at the same time. *)
Theorem sent_items_aligned (cfg : TConfig) (d : MetaData) :
  (0 < tc_MinStep cfg < 2 ^ 61)%Z -> (0 <= md_Timestamp d < 2 ^ 62)%Z -> (md_Step d < 2 ^ 61)%Z ->
  exists r j, convert2GraphItem cfg d = Ret r /\ judge_item cfg d = Ret j /\ (is_Some r <-> known_type (md_CounterType d)) /\
    forall g, r = Some g ->
      gi_Step g = sent_step cfg d /\ gi_Heartbeat g = (2 * gi_Step g)%Z /\ (gi_DsType g = T_GAUGE \/ gi_DsType g = T_DERIVE) /\
      (gi_Step g | gi_Timestamp g)%Z /\ (md_Timestamp d - gi_Step g < gi_Timestamp g <= md_Timestamp d)%Z /\
      GraphItem_PrimaryKey g = MetaData_PK d /\ gi_Value g = md_Value d /\
      ji_Timestamp j = gi_Timestamp g /\ ji_Value j = gi_Value g /\ PK (ji_Endpoint j) (ji_Metric j) (ji_Tags j) = MetaData_PK d.
Proof.
  intros Hm Ht Hs. unfold convert2GraphItem, judge_item.
  assert ((if (md_Step d <? tc_MinStep cfg)%Z then tc_MinStep cfg else md_Step d) = sent_step cfg d) as ->
    by (unfold sent_step; destruct (Z.ltb_spec (md_Step d) (tc_MinStep cfg)); lia).
  assert (0 < sent_step cfg d < 2 ^ 61)%Z as Hss by (unfold sent_step; lia).
  destruct (alignTs_spec (md_Timestamp d) (sent_step cfg d)) as (ts & -> & Hd & Hr); [done|lia|]. cbn [rbind].
  rewrite (wrap64_id (sent_step cfg d * 2)) by (unfold in_i64; lia). unfold known_type.
  destruct (String.eqb_spec (md_CounterType d) T_GAUGE) as [E1|E1]; [do 2 eexists; split; [done|]; split; [done|]; split; [split; [intros _; auto|by eexists]|]|].
  2: destruct (String.eqb_spec (md_CounterType d) T_COUNTER) as [E2|E2]; [do 2 eexists; split; [done|]; split; [done|]; split; [split; [intros _; auto|by eexists]|]|].
  3: destruct (String.eqb_spec (md_CounterType d) T_DERIVE) as [E3|E3]; [do 2 eexists; split; [done|]; split; [done|]; split; [split; [intros _; auto|by eexists]|]|].
  1-3: intros g [= <-]; cbn; split_and!; auto; lia.
  do 2 eexists. split; [done|]. split; [done|]. split; [|done]. split; [by intros [? ?]|]. intros [?|[?|?]]; done.
Qed.

(** ** Routing *)

(** The items whose node on the ring is [node]. *)
Definition routed (rings : Rings) (node : string) (items : list MetaData) : list MetaData :=
  List.filter (fun item => bool_decide (JudgeNodeRing rings (MetaData_PK item) = Some node)) items.

(** While there is room, every item goes to the queue of the judge its series
    hashes to, to no other, behind the items already there and in the order of
    the report. *)
Theorem judges_fed_in_order (cfg : TConfig) (rings : Rings) (items : list MetaData) (s : TransState) :
  wired cfg rings s ->
  (forall node q, tr_Judge s !! node = Some q -> (Z.of_nat (length q + length items) <= DefaultSendQueueMaxSize)%Z) ->
  exists s', Push2JudgeSendQueue cfg rings items s = Ret (tt, s') /\
    forall node q, tr_Judge s !! node = Some q -> exists js,
      Forall2 (fun item j => judge_item cfg item = Ret j) (routed rings node items) js /\
      tr_Judge s' !! node = Some (rev js ++ q)%list.
Proof.
  unfold Push2JudgeSendQueue. revert s; induction items as [|item items IH]; intros s Hs Hroom; cbn [forM].
  { exists s. split; [done|]. intros node q Hq. exists []. split; [constructor|done]. }
  cbv zeta. destruct (JudgeNodeRing rings (MetaData_PK item)) as [n|] eqn:En; cycle 1.
  { destruct (IH s Hs) as (s' & E & H); [intros node q Hq; specialize (Hroom node q Hq); cbn in Hroom; lia|].
    exists s'. split; [exact E|]. intros node q Hq. destruct (H node q Hq) as (js & Hjs & Hq'). exists js. split; [|done].
    unfold routed. cbn [List.filter]. by rewrite En, bool_decide_eq_false_2. }
  destruct (judge_item_ret cfg item (proj1 (w_min _ _ _ Hs))) as [j Hj].
  destruct (w_judge _ _ _ Hs _ _ En) as [qn Hqn]. pose proof (Hroom n qn Hqn) as Hr. cbn [length] in Hr.
  set (s1 := t_set_judge (<[n := j :: qn]> (tr_Judge s)) s).
  destruct (IH s1) as (s' & E & H).
  { exact (proj1 (wired_judge cfg rings _ _ s n _ (conj Hs (conj eq_refl eq_refl)))). }
  { intros node q. cbn. destruct (decide (node = n)) as [->|Hne];
      [rewrite lookup_insert_eq; intros [= <-]; cbn [length]; lia|rewrite lookup_insert_ne by done]. intros Hq.
    specialize (Hroom node q Hq). cbn in Hroom. lia. }
  exists s'. split.
  { unfold mthen at 1 2. unfold lift at 1. rewrite Hj. unfold mthen at 1, gets at 1. unfold mthen at 1, lift at 1. rewrite Hqn. cbn [deref].
    unfold SLL_PushFront. destruct (Z.leb_spec DefaultSendQueueMaxSize (Z.of_nat (length qn))); [lia|]. exact E. }
  intros node q Hq. destruct (decide (node = n)) as [->|Hne].
  - rewrite Hqn in Hq. injection Hq as <-. destruct (H n (j :: qn)) as (js & Hjs & Hq'); [cbn; by rewrite lookup_insert_eq|].
    exists (j :: js). split; [unfold routed; cbn [List.filter]; rewrite En, bool_decide_eq_true_2 by done; by constructor|].
    rewrite Hq'. cbn [rev]. by rewrite <- app_assoc.
  - destruct (H node q) as (js & Hjs & Hq'); [cbn; by rewrite lookup_insert_ne|]. exists js. split; [|done].
    unfold routed. cbn [List.filter]. rewrite En, bool_decide_eq_false_2 by congruence. done.
Qed.

(** ** Counters of poly strategies *)

(** The item a valid report becomes. *)
Definition meta_of (now : Z) (v : MetricValue) (vv : f64) : MetaData :=
  mkMetaData (mv_Metric v) (mv_Endpoint v) (checked_ts now v) (mv_Step v) vv (mv_Type v) (DictedTagstring (mv_Tags v)).
Definition counter_key (now : Z) (v : MetricValue) : string :=
  mv_Endpoint v ++s Counter (mv_Metric v) (DictedTagstring (mv_Tags v)).

(** The first point of a counter that a poly strategy watches is only
    remembered: it is counted as valid but goes to no graph, judge or poly node;
    and every later rate is taken from that first point, which nothing replaces. *)
Theorem poly_counter_first_point (cfg : TConfig) (now : Z) (a : recv) (v : MetricValue) (vv : f64) (s : TransState) :
  acceptable v = true -> value_of (mv_Value v) = Some vv -> mv_Type v = T_COUNTER ->
  DictedTagstring (mv_Tags v) !! "DynamicMetric" = None ->
  EndPolyCache_Get s (mv_Endpoint v ++s PolyStringSep ++s Counter (mv_Metric v) (DictedTagstring (mv_Tags v))) <> "" ->
  exists a' s', recv_one cfg now a (Some v) s = Ret (a', s') /\
    match tr_PolyCounter s !! counter_key now v with
    | None => a' = a /\ tr_PolyCounter s' = <[counter_key now v := meta_of now v vv]> (tr_PolyCounter s)
    | Some first =>
        s' = s /\
        (if (checked_ts now v -! md_Timestamp first <=? 0)%Z then a' = a
         else exists polys, rv_items a' = (rv_items a ++ [meta_of now v vv])%list /\ rv_polys a' = (rv_polys a ++ polys)%list /\
           Forall (fun p => pr_Value p = fdiv (fsub vv (md_Value first)) (f64_of_Z (checked_ts now v -! md_Timestamp first))) polys)
    end.
Proof.
  intros Hacc Hvv Hty Hdyn Hpoly. unfold recv_one. rewrite Hacc, Hvv, Hdyn. cbn [negb]. unfold mthen at 1, gets at 1.
  unfold EndPolyCache_Get in Hpoly. apply String.eqb_neq in Hpoly. rewrite Hpoly.
  unfold poly_value. cbn [md_CounterType md_Endpoint md_Timestamp md_Value]. rewrite Hty. change (String.eqb T_COUNTER "COUNTER") with true. cbv iota.
  fold (counter_key now v). unfold mthen at 1 2, gets at 1.
  destruct (tr_PolyCounter s !! counter_key now v) as [first|] eqn:Ef.
  - destruct (_ <=? 0)%Z eqn:Et; unfold ret at 1; cbv iota beta; [do 2 eexists; split; [done|]; done|].
    do 2 eexists. split; [done|]. split; [done|]. eexists. split; [|split; [done|]].
    + cbn. unfold meta_of. rewrite Hty. done.
    + apply Forall_forall. intros p Hp. apply list_elem_of_In, in_map_iff in Hp as (x & <- & _). done.
  - unfold mthen, modify, ret. do 2 eexists. split; [reflexivity|]. split; [done|]. cbn. unfold meta_of. by rewrite Hty.
Qed.

(** * Witnesses *)

(** One judge, one graph at two addresses. *)
Definition tr_cfg : TConfig :=
  mkTConfig 30 true true true true true "bus" true {["j0" := "10.0.0.1:6080"]} {["p0" := "10.0.0.2:6090"]} {["g0" := ["a"; "b"]]}.
Definition tr_rings : Rings := mkRings (fun _ => Some "j0") (fun _ => Some "g0") (fun _ => Some "p0").
Definition tr_start : TransState := initSendQueues tr_cfg (mkTrans ∅ ∅ ∅ None [] [] {["h||cpu" := "p||g1@@p||g2"]} ∅ ∅).

Lemma tr_start_wired : wired tr_cfg tr_rings tr_start.
Proof.
  constructor; cbn; [lia| | | |done].
  - intros k n [= <-]. by exists [].
  - intros k n [= <-]. by exists [].
  - intros k n [= <-]. exists ["a"; "b"]. split; [done|]. intros addr Ha. apply elem_of_cons in Ha as [->|Ha]; [by exists []|].
    apply list_elem_of_singleton in Ha as ->. by exists [].
Qed.

Definition tr_value (m : string) (v : value) (ty : string) : option MetricValue := Some (mkMetricValue "h" m v 60 ty "" 1000000030).

(** A point of the counter has been seen before. *)
Definition tr_polled : TransState := t_set_polycounter {["hcpu" := mkMetaData "cpu" "h" 1000000000 60 fzero "COUNTER" ∅]} tr_start.
Lemma tr_polled_wired : wired tr_cfg tr_rings tr_polled.
Proof. destruct tr_start_wired. by constructor. Qed.
Definition tr_report : list (option MetricValue) :=
  [tr_value "mem" (VString "1.5") "GAUGE"; None; tr_value "" (VInt 1) "GAUGE"; tr_value "cpu" (VString "x") "COUNTER"; tr_value "cpu" (VString "-3") "COUNTER"].

Lemma report_answered_witness :
  exists r s' batch, RecvMetricValues tr_cfg tr_rings (1000000040 * 10 ^ 9) (1000000040 * 10 ^ 9 + 5000000) tr_report "rpc" tr_polled = Ret (Some r, s') /\
    rs_Total r = 5%Z /\ rs_Invalid r = 3%Z /\ tr_Prome s' = [batch] /\ forall Register, exists e, PromeWork Register batch = Panic e.
Proof.
  destruct (report_answered tr_cfg tr_rings (1000000040 * 10 ^ 9) (1000000040 * 10 ^ 9 + 5000000) tr_report "rpc" tr_polled tr_polled_wired)
    as (o & s' & E & _ & Hw & Hr).
  destruct o as [r|]; [|destruct (proj1 Hw eq_refl) as (_ & Hf & _); discriminate Hf].
  destruct (Hr r eq_refl) as (_ & Ht & Hi & Hp). destruct (Hp eq_refl) as (batch & HP & Hb & Hpanic).
  exists r, s', batch. split; [exact E|]. split; [exact Ht|]. split; [rewrite Hi; vm_compute; reflexivity|]. split; [exact HP|].
  intros Register. apply Hpanic. vm_compute in Hb. rewrite Hb. eexists [], _, [], []. split; [reflexivity|]. split; [reflexivity|].
  right. split; reflexivity.
Defined.

(** A report with a value that is not a number, behind which the channel fills. *)
Definition nan_report : list (option MetricValue) := [tr_value "mem" (VString "NaN") "GAUGE"].
Definition full_of (n : nat) : list KafkaData := repeat (mkKafkaData "h" 1000000030 ∅) n.
Definition tr_nan : TransState :=
  t_set_kafka (ExtractKafkaItemNew (rv_items (gathered tr_cfg 1000000040000000000 nan_report tr_start)) (mkKafkaData "" 0 ∅) :: full_of (Z.to_nat KafkaQueueSize)) tr_start.
Lemma tr_nan_wired : wired tr_cfg tr_rings tr_nan.
Proof. destruct tr_start_wired. by constructor. Qed.

Lemma not_a_number_silences_witness :
  exists s1, StartKafkaSender true tr_nan = Ret (false, s1) /\
    exists s3, RecvMetricValues tr_cfg tr_rings 1000000040000000000 1000000040005000000 [tr_value "mem" (VInt 1) "GAUGE"] "rpc" s1 = Ret (None, s3).
Proof.
  destruct (not_a_number_silences tr_cfg tr_rings (ExtractKafkaItemNew (rv_items (gathered tr_cfg 1000000040000000000 nan_report tr_start)) (mkKafkaData "" 0 ∅))
    (full_of (Z.to_nat KafkaQueueSize)) "mem" fnan true tr_nan []) as (s1 & s2 & E1 & E2 & Hq & H);
    [apply tr_nan_wired|reflexivity|reflexivity|vm_compute; reflexivity|reflexivity|].
  cbn in E2. injection E2 as <-. exists s1. split; [exact E1|].
  destruct (H 1000000040000000000%Z 1000000040005000000%Z [tr_value "mem" (VInt 1) "GAUGE"] "rpc") as (o & s3 & item & E3 & _ & Hw & _).
  { unfold StartKafkaSender, mthen at 1, gets in E1. cbn [tr_nan t_set_kafka tr_Kafka] in E1. unfold mthen, modify in E1.
    rewrite bool_decide_eq_false_2 in E1 by (intros Hf; specialize (Hf "mem" fnan); vm_compute in Hf; by specialize (Hf eq_refl)).
    injection E1 as <-. vm_compute. discriminate. }
  exists s3. rewrite E3. f_equal. f_equal. apply Hw. destruct Hq as [k ->]. rewrite length_app. unfold full_of. rewrite repeat_length.
  unfold KafkaQueueSize. lia.
Defined.

Definition tr_item (m : string) (ts : Z) : MetaData := mkMetaData m "h" ts 60 (f64_of_Z 2) "COUNTER" ∅.

Lemma sent_items_aligned_witness :
  exists g, convert2GraphItem tr_cfg (tr_item "cpu" 1000000030) = Ret (Some g) /\ (60 | gi_Timestamp g)%Z.
Proof.
  destruct (sent_items_aligned tr_cfg (tr_item "cpu" 1000000030)) as (r & j & E & _ & Hsome & Hg); [cbn; lia|cbn; lia|cbn; lia|].
  destruct (proj2 Hsome) as [g ->]; [right; left; reflexivity|]. exists g. split; [exact E|].
  destruct (Hg g eq_refl) as (Hstep & _ & _ & Hd & _). rewrite Hstep in Hd. exact Hd.
Defined.

Lemma judges_fed_in_order_witness :
  exists s' js, Push2JudgeSendQueue tr_cfg tr_rings [tr_item "cpu" 1000000030; tr_item "mem" 1000000090] tr_start = Ret (tt, s') /\
    Forall2 (fun item j => judge_item tr_cfg item = Ret j) [tr_item "cpu" 1000000030; tr_item "mem" 1000000090] js /\
    tr_Judge s' !! "j0" = Some (rev js).
Proof.
  destruct (judges_fed_in_order tr_cfg tr_rings [tr_item "cpu" 1000000030; tr_item "mem" 1000000090] tr_start) as (s' & E & H);
    [apply tr_start_wired| |].
  - intros node q Hq. unfold tr_start in Hq. cbn in Hq. apply lookup_fmap_Some in Hq as (? & <- & _). cbn. unfold DefaultSendQueueMaxSize. lia.
  - destruct (H "j0" [] eq_refl) as (js & Hjs & Hq). exists s', js. split; [exact E|]. split; [exact Hjs|]. rewrite Hq. by rewrite app_nil_r.
Defined.

Lemma poly_counter_first_point_witness :
  exists a' s', recv_one tr_cfg 1000000040 (mkRecv 0 [] [] [] []) (tr_value "cpu" (VInt 7) "COUNTER") tr_start = Ret (a', s') /\
    a' = mkRecv 0 [] [] [] [].
Proof.
  destruct (poly_counter_first_point tr_cfg 1000000040 (mkRecv 0 [] [] [] []) (mkMetricValue "h" "cpu" (VInt 7) 60 "COUNTER" "" 1000000030)
    (f64_of_Z 7) tr_start) as (a' & s' & E & H); [reflexivity|reflexivity|reflexivity|reflexivity|vm_compute; discriminate|].
  exists a', s'. split; [exact E|]. exact (proj1 H).
Defined.
