(* ===== verification/Gateway.v ===== *)
(** The gateway ([modules/gateway]): it receives what agents report, queues it,
    and hands it in batches to any transfer that answers.  The number drawn by
    [rand.Int], the busy hosts and the outcome of the calls are arguments of a
    round.  The last part shows that passing through the gateway changes
    nothing of what the transfer then keeps. *)
From S2P Require Export Transfer.
Local Open Scope string_scope.

(** Source: modules/gateway/sender/sender.go, const DefaultSendQueueMaxSize. *)
Definition GatewayQueueMaxSize : Z := 1024000.

(** Source: modules/gateway/g/cfg.go, type TransferConfig. *)
Record GwConfig := mkGw { gw_Enabled : bool; gw_Batch : Z; gw_Retry : Z; gw_MaxConns : Z; gw_Cluster : gmap string string }.

(** The variables of the package [sender], and the meters. The front of the queue comes first. *)
Record GwState := mkGwState {
  gw_SenderQueue : list MetaData;
  gw_TransferHostnames : list string; gw_TransferMap : gmap string string;
  gw_SendCnt : gmap string Z; gw_SendFailCnt : gmap string Z; gw_meter : gmap string Z }.
Notation GW := (M GwState).
Definition gw_set_queue v s := mkGwState v (gw_TransferHostnames s) (gw_TransferMap s) (gw_SendCnt s) (gw_SendFailCnt s) (gw_meter s).
Definition gw_set_sent v s := mkGwState (gw_SenderQueue s) (gw_TransferHostnames s) (gw_TransferMap s) v (gw_SendFailCnt s) (gw_meter s).
Definition gw_set_fail v s := mkGwState (gw_SenderQueue s) (gw_TransferHostnames s) (gw_TransferMap s) (gw_SendCnt s) v (gw_meter s).
Definition gw_set_meter v s := mkGwState (gw_SenderQueue s) (gw_TransferHostnames s) (gw_TransferMap s) (gw_SendCnt s) (gw_SendFailCnt s) v.
(** [pfc.Meter]. *)
Definition meter (name : string) (n : Z) : GW unit :=
  modify (fun s => gw_set_meter (<[name := (default 0 (gw_meter s !! name) + n)%Z]> (gw_meter s)) s).

(** Source: modules/gateway/sender/sender.go, initConnPools. The hosts in the order the iteration of the map gives. *)
Definition gw_initConnPools (order : list (string * string)) (s : GwState) : GwState :=
  let cluster := list_to_map order : gmap string string in
  mkGwState (gw_SenderQueue s) (gw_TransferHostnames s ++ order.*1)%list cluster
    ((fun _ => 0%Z) <$> cluster) ((fun _ => 0%Z) <$> cluster) (gw_meter s).

Section gateway.
Context (cfg : GwConfig).

(** * Receiving *)

(** Source: modules/gateway/sender/sender.go, Push2SendQueue. *)
Definition Push2SendQueue (items : list MetaData) : GW unit :=
  forM items (fun item =>
    do! q := gets gw_SenderQueue in
    if (GatewayQueueMaxSize <=? Z.of_nat (length q))%Z then meter "SendDrop" 1
    else modify (gw_set_queue (item :: q))).

(** Source: modules/gateway/receiver/rpc/rpc_transfer.go, lines 90-93. Symbol: RecvMetricValues. *)
Definition gw_checked_ts (now : Z) (v : MetricValue) : Z :=
  if (mv_Timestamp v <=? 0)%Z || (now *! 2 <? mv_Timestamp v)%Z then now else mv_Timestamp v.

(** Source: modules/gateway/receiver/rpc/rpc_transfer.go, lines 45-129. One turn of the loop: the number of invalid values and the items. Symbol: RecvMetricValues. *)
Definition gw_recv_one (now : Z) (a : Z * list MetaData) (v : option MetricValue) : Z * list MetaData :=
  let '(invalid, items) := a in
  let reject := ((invalid + 1)%Z, items) in
  match v with
  | None => reject
  | Some v =>
      if negb (acceptable v) then reject
      else
        match SplitTagsString (mv_Tags v) with
        | (Some _, _) => reject
        | (None, tags) =>
            let ts := gw_checked_ts now v in
            match value_of (mv_Value v) with
            | None => reject
            | Some vv => (invalid, (items ++ [mkMetaData (mv_Metric v) (mv_Endpoint v) ts (mv_Step v) vv (mv_Type v) tags])%list)
            end
        end
  end.

(** Source: modules/gateway/receiver/rpc/rpc_transfer.go, RecvMetricValues. *)
Definition gw_RecvMetricValues (start stop : Z) (args : list (option MetricValue)) (from : string) : GW TransferResponse :=
  let now := (start / 10 ^ 9)%Z in
  let '(invalid, items) := fold_left (gw_recv_one now) args (0%Z, []) in
  let cnt := Z.of_nat (length items) in
  do! _ := meter "Recv" cnt in
  do! _ := (if String.eqb from "rpc" then meter "RpcRecv" cnt
            else if String.eqb from "http" then meter "HttpRecv" cnt else skip) in
  do! _ := (if gw_Enabled cfg then Push2SendQueue items else skip) in
  ret (mkTResp "ok" (Z.of_nat (length args)) invalid (Z.quot (stop -! start) 1000000)).

(** Source: modules/gateway/receiver/socket/socket_telnet.go, socketTelnetHandle. [lines] are the lines read before the connection ends; the line format is the transfer's. *)
Definition gw_socketTelnetHandle (lines : list string) : GW unit :=
  let loop := fix loop (lines : list string) : list MetaData :=
    match lines with
    | [] => []
    | line :: rest =>
        let line := trim (fun c => Ascii.eqb c (Ascii.ascii_of_nat 10)) line in
        if String.eqb line "quit" then []
        else if String.eqb line "" then loop rest
        else
          match Fields line with
          | cmd :: (_ :: _) as t =>
              if negb (String.eqb cmd "update") then loop rest
              else match convertLine2MetaData (tail t) with None => loop rest | Some item => item :: loop rest end
          | _ => loop rest
          end
    end in
  let items := loop lines in
  do! _ := meter "SocketRecv" (Z.of_nat (length items)) in
  do! _ := meter "Recv" (Z.of_nat (length items)) in
  if gw_Enabled cfg then Push2SendQueue items else skip.

(** * Sending *)

(** Source: modules/gateway/sender/send_tasks.go, convert. *)
Definition convert (v : MetaData) : MetricValue :=
  mkMetricValue (md_Endpoint v) (md_Metric v) (VFloat (md_Value v)) (md_Step v) (md_CounterType v) (SortedTags (md_Tags v)) (md_Timestamp v).

(** The hosts tried in one pass, from a random one on. [busy] and [call] answer by host. *)
Fixpoint one_pass (n : nat) (i rint transNum count : Z) (busy call : string -> bool) : GW (option string) :=
  match n with
  | O => ret None
  | S n =>
      do! idx := lift (go_rem (i +! rint) transNum) in
      do! hosts := gets gw_TransferHostnames in
      do! host := lift (at_index hosts idx) in
      if busy host then one_pass n (i + 1) rint transNum count busy call
      else if call host then
        do! _ := modify (fun s => gw_set_sent (<[host := (default 0 (gw_SendCnt s !! host) + count)%Z]> (gw_SendCnt s)) s) in
        ret (Some host)
      else
        do! _ := modify (fun s => gw_set_fail (<[host := (default 0 (gw_SendFailCnt s !! host) + count)%Z]> (gw_SendFailCnt s)) s) in
        one_pass n (i + 1) rint transNum count busy call
  end.

(** The passes, until one host took the batch. *)
Fixpoint passes (n j : nat) (rint : nat -> Z) (transNum count : Z) (busy call : nat -> string -> bool) : GW (option string) :=
  match n with
  | O => ret None
  | S n =>
      do! r := one_pass (Z.to_nat transNum) 0 (rint j) transNum count (busy j) (call j) in
      match r with Some h => ret (Some h) | None => passes n (S j) rint transNum count busy call end
  end.

(** Source: modules/gateway/sender/send_tasks.go, forward2TransferTask. One round: the batch and the host that took it. *)
Definition forward2TransferTask (rint : nat -> Z) (busy call : nat -> string -> bool) : GW (option (list MetricValue * string)) :=
  let retry := if (gw_Retry cfg <? 1)%Z then 1%Z else gw_Retry cfg in
  do! transNum := gets (fun s => Z.of_nat (length (gw_TransferHostnames s))) in
  do! q := gets gw_SenderQueue in
  do! (items, q) := lift (SL_PopBackBy (gw_Batch cfg) q) in
  do! _ := modify (gw_set_queue q) in
  let count := Z.of_nat (length items) in
  if (count =? 0)%Z then ret None
  else
    let transItems := map convert items in
    do! r := passes (Z.to_nat retry) 0 rint transNum count busy call in
    match r with
    | Some h => do! _ := meter "Send" count in ret (Some (transItems, h))
    | None => do! _ := meter "SendFail" count in ret None
    end.
End gateway.

(** * Through the gateway to the transfer *)

(** An item as the receivers make them, whose tags print and read back. *)
Definition relayable (now : Z) (d : MetaData) : Prop :=
  acceptable (convert d) = true /\ clean_tags (md_Tags d) /\ checked_ts now (convert d) = md_Timestamp d /\
  md_Tags d !! "DynamicMetric" = None.

(** What the gateway relays is what it received: the transfer makes of each
    relayed value the very item the gateway had, tags and number included. *)
Theorem gateway_transparent (cfg : TConfig) (now : Z) (items : list MetaData) (a : recv) (s : TransState) :
  tr_EndPoly s = ∅ -> Forall (relayable now) items ->
  foldM (recv_one cfg now) a (map (fun d => Some (convert d)) items) s =
  Ret (mkRecv (rv_invalid a) (rv_items a ++ items)%list (rv_dynamic a) (rv_polys a) (rv_prome a), s).
Proof.
  intros Hp H. revert a. induction H as [|d items (Hacc & Htags & Hts & Hdyn) H IH]; intros a; cbn [map foldM].
  - rewrite app_nil_r. by destruct a.
  - assert (recv_one cfg now a (Some (convert d)) s =
      Ret (mkRecv (rv_invalid a) (rv_items a ++ [d])%list (rv_dynamic a) (rv_polys a) (rv_prome a), s)) as E.
    { unfold recv_one. rewrite Hacc. cbn [negb convert mv_Value value_of mv_Tags mv_Metric mv_Endpoint mv_Step mv_Type].
      fold (convert d). rewrite dicted_sorted by done. rewrite Hdyn, Hts. unfold mthen, gets. rewrite Hp, lookup_empty. cbn.
      by destruct d. }
    rewrite (mthen_run _ _ _ _ _ E), IH. cbn. by rewrite <- app_assoc.
Qed.

Definition gw_item : MetaData := mkMetaData "cpu" "h" 1000000030 60 (f64_of_Z 2) "GAUGE" {["core" := "0"; "host" := "h"]}.

Lemma gateway_transparent_witness :
  foldM (recv_one (mkTConfig 30 true true false false false "" false ∅ ∅ ∅) 1000000040) (mkRecv 0 [] [] [] []) [Some (convert gw_item)]
    (mkTrans ∅ ∅ ∅ None [] [] ∅ ∅ ∅) = Ret (mkRecv 0 [gw_item] [] [] [], mkTrans ∅ ∅ ∅ None [] [] ∅ ∅ ∅).
Proof.
  apply (gateway_transparent _ 1000000040 [gw_item] (mkRecv 0 [] [] [] []) (mkTrans ∅ ∅ ∅ None [] [] ∅ ∅ ∅)); [reflexivity|].
  constructor; [|constructor]. split; [reflexivity|]. split; [by_compute|]. split; reflexivity.
Defined.
