(* ===== verification/HbsStrategies.v ===== *)
(** The strategies of a host ([modules/hbs/rpc/hbs.go], [cache/strategies.go]):
    the chain of the parents of a template, the buckets of templates of a
    host, and the inheritance of strategies in a bucket, where a child's
    strategies replace its parents' of the same metric and tags.  The order in
    which Go walks a map is a permutation the caller chooses. *)
From S2P Require Export Model.
From Stdlib Require Import Ascii.
Local Open Scope string_scope.

(** * Definitions *)

(** Source: common/model/host.go, type Host. *)
Record Host := mkHost { h_Id : Z; h_Name : string }.
(** Source: common/model/strategy.go, type HostStrategy. *)
Record HostStrategy := mkHS { hs_Hostname : string; hs_Strategies : list Strategy }.

(** The chain is followed at most ten templates up. *)
Fixpoint parent_walk (n : nat) (allTpls : gmap Z Template) (tid : Z) (ret : list Z) : list Z :=
  match n with
  | O => []
  | S n =>
      let stop := if (length ret <=? 1)%nat then ret else rev ret in
      if (tid <=? 0)%Z then stop
      else match allTpls !! tid with
           | Some t => parent_walk n allTpls (tpl_ParentId t) (ret ++ [tid])%list
           | None => stop
           end
  end.
(** Source: modules/hbs/cache/strategies.go, ParentIds. *)
Definition ParentIds (allTpls : gmap Z Template) (tid : Z) : list Z := parent_walk 10 allTpls tid [].

(** Source: modules/hbs/rpc/hbs.go, slice_int_contains. *)
Definition slice_int_contains (l : list Z) (target : Z) : bool := existsb (fun b => (b =? target)%Z) l.
(** Source: modules/hbs/rpc/hbs.go, slice_int_eq. *)
Definition slice_int_eq (a b : list Z) : bool := bool_decide (a = b).
(** Source: modules/hbs/rpc/hbs.go, slice_int_lt. *)
Definition slice_int_lt (a b : list Z) : bool := forallb (fun i => slice_int_contains b i) a.

(** A map built by appending to the lists of its keys. *)
Definition append_at {K V} `{Countable K} (k : K) (v : V) (m : gmap K (list V)) : gmap K (list V) :=
  match m !! k with Some l => <[k := (l ++ [v])%list]> m | None => <[k := [v]]> m end.

(** Source: modules/hbs/rpc/hbs.go, Tpl2Strategies. [strategies] in the order the map is walked. *)
Definition Tpl2Strategies (strategies : list (option Strategy)) : gmap Z (list Strategy) :=
  fold_left (fun ret s =>
    match s with
    | Some s => match st_Tpl s with Some t => append_at (tpl_Id t) s ret | None => ret end
    | None => ret
    end) strategies ∅.

(** Source: modules/hbs/rpc/hbs.go, lines 227-239. Whether the [i]-th bucket is kept. Symbol: CalcInheritStrategies. *)
Fixpoint bucket_valid (buckets : list (list Z)) (i : nat) (b : list Z) (js : list nat) : bool :=
  match js with
  | [] => true
  | j :: js =>
      if Nat.eqb i j then bucket_valid buckets i b js
      else match buckets !! j with
           | None => bucket_valid buckets i b js
           | Some bj =>
               if slice_int_eq b bj then true
               else if slice_int_lt b bj then false
               else bucket_valid buckets i b js
           end
  end.
(** Source: modules/hbs/rpc/hbs.go, lines 224-243. The buckets that are not part of another. Symbol: CalcInheritStrategies. *)
Definition uniq_buckets (tpl_buckets : list (list Z)) : list (list Z) :=
  let count := length tpl_buckets in
  flat_map (fun '(i, b) => if bucket_valid tpl_buckets i b (seq 0 count) then [b] else [])
    (imap (fun i b => (i, b)) tpl_buckets).

(** What a strategy overrides another by. *)
Definition strategy_uuid (s : Strategy) : string := "metric:" ++s st_Metric s ++s "/tags:" ++s SortedTags (st_Tags s).

(** Source: modules/hbs/rpc/hbs.go, lines 253-275. The strategies of a bucket after inheritance. Symbol: CalcInheritStrategies. *)
Definition bucket_strategies (tpl2Strategies : gmap Z (list Strategy)) (bucket : list Z) : gmap string (list Strategy) :=
  fold_left (fun acc tid =>
    let the_tid_stras := fold_left (fun m s => append_at (strategy_uuid s) s m) (default [] (tpl2Strategies !! tid)) ∅ in
    the_tid_stras ∪ acc) bucket ∅.

(** Source: modules/hbs/rpc/hbs.go, lines 280-293. One strategy of a bucket. Symbol: CalcInheritStrategies. *)
Definition take_strategy (allTpls : gmap Z Template) (last_tid : Z) (a : list Strategy * gset Z) (s : Strategy) : res (list Strategy * gset Z) :=
  let '(strategies, exists_by_id) := a in
  if bool_decide (st_Id s ∈ exists_by_id) then Ret (strategies, exists_by_id)
  else
    let! t := deref (st_Tpl s) in
    let valStrategy :=
      if negb (tpl_Id t =? last_tid)%Z
      then mkStrategy (st_Id s) (st_Metric s) (st_Tags s) (st_Func s) (st_Operator s) (st_RightValue s) (st_MaxStep s) (st_Priority s)
             (st_Note s) (allTpls !! last_tid) (st_UnionStrategyId s)
      else s in
    Ret ((strategies ++ [valStrategy])%list, {[st_Id s]} ∪ exists_by_id).

(** Source: modules/hbs/rpc/hbs.go, CalcInheritStrategies. [order] lists the strategies of a bucket in the order of the walk. *)
Definition CalcInheritStrategies (order : list (string * list Strategy) -> list (string * list Strategy))
    (allTpls : gmap Z Template) (tids : list Z) (tpl2Strategies : gmap Z (list Strategy)) : res (list Strategy) :=
  let tpl_buckets := List.filter (fun ids => negb (length ids <=? 0)%nat) (map (ParentIds allTpls) tids) in
  let! (strategies, _) :=
    fold_res (fun a bucket =>
      let bucket_stras_map := bucket_strategies tpl2Strategies bucket in
      let! last_tid := at_index bucket (Z.of_nat (length bucket) - 1) in
      fold_res (take_strategy allTpls last_tid) a (concat (order (map_to_list bucket_stras_map)).*2))
      ([], ∅) (uniq_buckets tpl_buckets) in
  Ret strategies.

(** The caches [GetStrategies] reads. *)
Record HbsRules := mkRules {
  hr_HostTemplateIds : gmap Z (list Z); hr_MonitoredHosts : gmap Z Host;
  hr_TemplateCache : gmap Z Template; hr_Strategies : gmap Z (option Strategy) }.

(** Orders of the walks over maps. *)
Record Walks := mkWalks {
  wk_bucket : list (string * list Strategy) -> list (string * list Strategy);
  wk_strategies : list (Z * option Strategy) -> list (Z * option Strategy);
  wk_hosts : list (Z * list Z) -> list (Z * list Z);
  wk_bucket_perm : forall l, wk_bucket l ≡ₚ l; wk_strategies_perm : forall l, wk_strategies l ≡ₚ l; wk_hosts_perm : forall l, wk_hosts l ≡ₚ l }.

(** Source: modules/hbs/rpc/hbs.go, Hbs.GetStrategies. *)
Definition GetStrategies (w : Walks) (c : HbsRules) : res (list HostStrategy) :=
  let hidTids := hr_HostTemplateIds c in
  if (size hidTids =? 0)%nat then Ret []
  else
    let hosts := hr_MonitoredHosts c in
    if (size hosts =? 0)%nat then Ret []
    else
      let tpls := hr_TemplateCache c in
      if (size tpls =? 0)%nat then Ret []
      else
        let strategies := hr_Strategies c in
        if (size strategies =? 0)%nat then Ret []
        else
          let tpl2Strategies := Tpl2Strategies (wk_strategies w (map_to_list strategies)).*2 in
          fold_res (fun hostStrategies '(hostId, tplIds) =>
            match hosts !! hostId with
            | None => Ret hostStrategies
            | Some h =>
                let! ss := CalcInheritStrategies (wk_bucket w) tpls tplIds tpl2Strategies in
                if (length ss <=? 0)%nat then Ret hostStrategies
                else Ret (hostStrategies ++ [mkHS (h_Name h) ss])%list
            end) [] (wk_hosts w (map_to_list hidTids)).

(** Source: modules/hbs/rpc/hbs.go, Hbs.GetStrategiesOne. *)
Definition GetStrategiesOne (w : Walks) (c : HbsRules) (hostname : string) : res (list HostStrategy) :=
  let hidTids := hr_HostTemplateIds c in
  let hosts := hr_MonitoredHosts c in
  let tpls := hr_TemplateCache c in
  let strategies := hr_Strategies c in
  if (size hidTids =? 0)%nat || (size hosts =? 0)%nat || (size tpls =? 0)%nat || (size strategies =? 0)%nat then Ret []
  else
    let tpl2Strategies := Tpl2Strategies (wk_strategies w (map_to_list strategies)).*2 in
    let loop := fix loop (l : list (Z * list Z)) : res (list HostStrategy) :=
      match l with
      | [] => Ret []
      | (hostId, tplIds) :: l =>
          match hosts !! hostId with
          | None => loop l
          | Some h =>
              let! ss := CalcInheritStrategies (wk_bucket w) tpls tplIds tpl2Strategies in
              if (length ss <=? 0)%nat then loop l
              else if String.eqb hostname (h_Name h) then Ret [mkHS (h_Name h) ss] else loop l
          end
      end in
    loop (wk_hosts w (map_to_list hidTids)).

(** * The chain of parents *)

(** Each template of the list is the parent of the next. *)
Fixpoint lineage (allTpls : gmap Z Template) (l : list Z) : Prop :=
  match l with
  | p :: ((c :: _) as l') => (exists t, allTpls !! c = Some t /\ tpl_ParentId t = p) /\ lineage allTpls l'
  | _ => True
  end.

Lemma lineage_app allTpls p c l : (exists t, allTpls !! c = Some t /\ tpl_ParentId t = p) -> lineage allTpls (c :: l) -> lineage allTpls (p :: c :: l).
Proof. done. Qed.

(** What the walk has collected so far, youngest first. *)
Lemma parent_walk_spec n allTpls tid0 tid ret :
  lineage allTpls (rev ret) -> Forall (fun i => is_Some (allTpls !! i) /\ (0 < i)%Z) ret -> head ret = Some tid0 ->
  (exists t, last ret = Some t /\ exists tp, allTpls !! t = Some tp /\ tpl_ParentId tp = tid) ->
  let l := parent_walk n allTpls tid ret in
  l = [] \/ (last l = Some tid0 /\ lineage allTpls l /\ Forall (fun i => is_Some (allTpls !! i) /\ (0 < i)%Z) l /\ (length l < length ret + n)%nat).
Proof.
  revert tid ret; induction n as [|n IH]; intros tid ret Hl Hf Hh Hlast; cbn [parent_walk]; [by left|].
  assert ((if (length ret <=? 1)%nat then ret else rev ret) = rev ret) as Hstop.
  { destruct ret as [|a [|b r]]; [done|done|done]. }
  assert (rev ret = [] \/ (last (rev ret) = Some tid0 /\ lineage allTpls (rev ret) /\ Forall (fun i => is_Some (allTpls !! i) /\ (0 < i)%Z) (rev ret) /\ (length (rev ret) < length ret + S n)%nat)) as Hend.
  { right. split; [|split; [done|split; [by apply Forall_rev|rewrite length_rev; lia]]].
    destruct ret as [|a r]; [done|]. injection Hh as ->. cbn. by rewrite last_snoc. }
  rewrite Hstop. destruct (Z.leb_spec tid 0) as [|Hpos]; [exact Hend|].
  destruct (allTpls !! tid) as [t|] eqn:Et; [|exact Hend].
  destruct Hlast as (c & Hc & tp & Htp & Hpar).
  destruct (IH (tpl_ParentId t) (ret ++ [tid])%list) as [?|(H1 & H2 & H3 & H4)]; [| | | |by left|right; split; [done|]; split; [done|]; split; [done|]; rewrite length_app in H4; cbn in H4; lia].
  - rewrite rev_app_distr. cbn [rev app]. destruct (rev ret) as [|x r] eqn:Er; [done|].
    apply lineage_app; [|done]. assert (ret = rev r ++ [x])%list as Hret by (by rewrite <- (rev_involutive ret), Er).
    rewrite Hret, last_snoc in Hc. injection Hc as ->. by exists tp.
  - apply Forall_app. split; [done|]. constructor; [|done]. split; [by exists t|done].
  - destruct ret; [done|exact Hh].
  - rewrite last_snoc. exists tid. split; [done|]. by exists t.
Qed.

(** The chain of a template is empty, or runs from its oldest known ancestor
    down to the template itself, each the parent of the next, all known, at
    most nine of them: the walk up stops on every store, cyclic ones included. *)
Theorem parents_in_line (allTpls : gmap Z Template) (tid : Z) :
  let l := ParentIds allTpls tid in
  l = [] \/ (last l = Some tid /\ lineage allTpls l /\ Forall (fun i => is_Some (allTpls !! i)) l /\ (length l <= 9)%nat).
Proof.
  assert (ParentIds allTpls tid = if (tid <=? 0)%Z then [] else
    match allTpls !! tid with Some t => parent_walk 9 allTpls (tpl_ParentId t) [tid] | None => [] end) as -> by done.
  cbn zeta. destruct (tid <=? 0)%Z eqn:E; [by left|].
  destruct (allTpls !! tid) as [t|] eqn:Et; [|by left].
  destruct (parent_walk_spec 9 allTpls tid (tpl_ParentId t) [tid]) as [?|(H1 & H2 & H3 & H4)];
    [done|constructor; [split; [by exists t|lia]|constructor]|done|exists tid; split; [done|by exists t]|by left|].
  right. split; [done|]. split; [done|]. split; [by eapply Forall_impl; [exact H3|]; intros ? [? ?]|]. cbn [length] in H4. lia.
Qed.

(** * Inheritance *)

(** The strategies a template has for an identity. *)
Definition of_uuid (tpl2 : gmap Z (list Strategy)) (tid : Z) (k : string) : list Strategy :=
  List.filter (fun s => bool_decide (strategy_uuid s = k)) (default [] (tpl2 !! tid)).

Lemma append_at_fold {K} `{Countable K} {V} (f : V -> K) l (m : gmap K (list V)) k :
  fold_left (fun m v => append_at (f v) v m) l m !! k =
  match m !! k, List.filter (fun v => bool_decide (f v = k)) l with
  | None, [] => None
  | o, ss => Some (default [] o ++ ss)%list
  end.
Proof.
  revert m; induction l as [|v l IH]; intros m; cbn [fold_left List.filter]; [destruct (m !! k); [by rewrite app_nil_r|done]|].
  rewrite IH. unfold append_at. destruct (decide (f v = k)) as [<-|Hne].
  - rewrite bool_decide_eq_true_2 by done. destruct (m !! f v) as [x|] eqn:E; rewrite lookup_insert_eq; cbn; [by rewrite <- app_assoc|done].
  - rewrite bool_decide_eq_false_2 by done. destruct (m !! f v); by rewrite lookup_insert_ne.
Qed.

(** A strategy stands in a bucket when its template has it and no younger one
    of the bucket has any of the same identity. *)
Definition stands (tpl2 : gmap Z (list Strategy)) (bucket : list Z) (s : Strategy) : Prop :=
  exists l1 tid l2, bucket = (l1 ++ tid :: l2)%list /\ s ∈ default [] (tpl2 !! tid) /\
    Forall (fun t => of_uuid tpl2 t (strategy_uuid s) = []) l2.

Lemma bucket_strategies_snoc tpl2 bucket tid k :
  bucket_strategies tpl2 (bucket ++ [tid]) !! k =
  match of_uuid tpl2 tid k with [] => bucket_strategies tpl2 bucket !! k | ss => Some ss end.
Proof.
  unfold bucket_strategies. rewrite fold_left_app. cbn [fold_left]. rewrite lookup_union, append_at_fold, lookup_empty.
  unfold of_uuid. destruct (List.filter _ _); cbn; [by destruct (_ !! k)|]. by destruct (_ !! k).
Qed.

Lemma of_uuid_elem tpl2 tid k s : s ∈ of_uuid tpl2 tid k <-> s ∈ default [] (tpl2 !! tid) /\ strategy_uuid s = k.
Proof.
  unfold of_uuid. rewrite !list_elem_of_In, filter_In, bool_decide_eq_true. done.
Qed.

Lemma bucket_strategies_stands tpl2 bucket s :
  (exists ss, bucket_strategies tpl2 bucket !! strategy_uuid s = Some ss /\ s ∈ ss) <-> stands tpl2 bucket s.
Proof.
  induction bucket as [|tid bucket IH] using rev_ind.
  { split; [intros (ss & H & _); done|]. intros (l1 & ? & l2 & H & _). by destruct l1. }
  rewrite bucket_strategies_snoc. destruct (of_uuid tpl2 tid (strategy_uuid s)) as [|x ss] eqn:E.
  - rewrite IH. split.
    + intros (l1 & t & l2 & -> & Hs & Hf). exists l1, t, (l2 ++ [tid])%list. rewrite <- app_assoc. split; [done|]. split; [done|].
      apply Forall_app. split; [done|by constructor].
    + intros (l1 & t & l2 & Hb & Hs & Hf). destruct l2 as [|y l2 _] using rev_ind.
      * apply app_inj_tail in Hb as [-> ->]. assert (s ∈ of_uuid tpl2 t (strategy_uuid s)) as H by by apply of_uuid_elem.
        rewrite E in H. by apply elem_of_nil in H.
      * rewrite app_comm_cons, app_assoc in Hb. apply app_inj_tail in Hb as [-> ->]. apply Forall_app in Hf as [Hf _]. by exists l1, t, l2.
  - split.
    + intros (ss' & [= <-] & Hs). exists bucket, tid, []. split; [done|]. split; [|done]. apply (of_uuid_elem tpl2 tid (strategy_uuid s)). by rewrite E.
    + intros (l1 & t & l2 & Hb & Hs & Hf). destruct l2 as [|y l2 _] using rev_ind.
      * apply app_inj_tail in Hb as [-> ->]. eexists. split; [done|]. rewrite <- E. by apply of_uuid_elem.
      * rewrite app_comm_cons, app_assoc in Hb. apply app_inj_tail in Hb as [_ ->]. apply Forall_app in Hf as [_ Hf].
        inversion Hf; congruence.
Qed.

Lemma bucket_strategies_key tpl2 bucket k ss s : bucket_strategies tpl2 bucket !! k = Some ss -> s ∈ ss -> strategy_uuid s = k.
Proof.
  revert ss; induction bucket as [|tid bucket IH] using rev_ind; intros ss; [done|]. rewrite bucket_strategies_snoc.
  destruct (of_uuid tpl2 tid k) eqn:E; [by apply IH|]. intros [= <-] Hs. rewrite <- E in Hs. by apply of_uuid_elem in Hs as [_ ?].
Qed.

(** The strategies of a bucket, in the order of the walk. *)
Lemma bucket_list_elem order tpl2 bucket s :
  (forall l, order l ≡ₚ l) ->
  s ∈ concat (order (map_to_list (bucket_strategies tpl2 bucket))).*2 <-> stands tpl2 bucket s.
Proof.
  intros Ho. rewrite <- bucket_strategies_stands, list_elem_of_In, in_concat. split.
  - intros (ss & Hss & Hs). apply list_elem_of_In in Hss, Hs. apply list_elem_of_fmap in Hss as ([k ss'] & -> & Hk). rewrite Ho in Hk.
    apply elem_of_map_to_list in Hk. exists ss'. cbn in Hs. split; [|done]. by rewrite (bucket_strategies_key _ _ _ _ _ Hk Hs).
  - intros (ss & Hk & Hs). exists ss. split; [|by apply list_elem_of_In]. apply list_elem_of_In, list_elem_of_fmap.
    exists (strategy_uuid s, ss). split; [done|]. rewrite Ho. by apply elem_of_map_to_list.
Qed.

(** A strategy under the youngest template of its bucket. *)
Definition rebound (allTpls : gmap Z Template) (youngest : Z) (s : Strategy) : Strategy :=
  match st_Tpl s with
  | Some t =>
      if (tpl_Id t =? youngest)%Z then s
      else mkStrategy (st_Id s) (st_Metric s) (st_Tags s) (st_Func s) (st_Operator s) (st_RightValue s) (st_MaxStep s) (st_Priority s)
             (st_Note s) (allTpls !! youngest) (st_UnionStrategyId s)
  | None => s
  end.
Lemma rebound_id allTpls y s : st_Id (rebound allTpls y s) = st_Id s.
Proof. unfold rebound. destruct (st_Tpl s); [|done]. by destruct (_ =? _)%Z. Qed.

(** What the accumulator of the last loop holds. *)
Definition collected (a : list Strategy * gset Z) : Prop :=
  NoDup (map st_Id a.1) /\ forall i, i ∈ a.2 <-> i ∈ map st_Id a.1.

Lemma take_loop allTpls y L a :
  collected a -> Forall (fun s => is_Some (st_Tpl s)) L ->
  exists R', fold_res (take_strategy allTpls y) a L = Ret ((a.1 ++ R')%list, list_to_set (map st_Id R') ∪ a.2) /\
    collected ((a.1 ++ R')%list, list_to_set (map st_Id R') ∪ a.2) /\
    Forall (fun r => exists s, s ∈ L /\ r = rebound allTpls y s) R' /\
    Forall (fun s => st_Id s ∈ map st_Id (a.1 ++ R')%list) L.
Proof.
  revert a; induction L as [|s L IH]; intros [R E] Ha HL.
  { exists []. cbn [fst snd]. rewrite app_nil_r. split; [cbn; do 2 f_equal; set_solver|]. split; [|done].
    split; [apply Ha|]. intros i. cbn [fst snd]. rewrite <- (proj2 Ha i). set_solver. }
  inversion HL as [|? ? [t Ht] HL']; subst. cbn [fold_res]. unfold take_strategy at 1. cbn [fst snd] in *. destruct Ha as [Hn Hi]. cbn [fst snd] in *.
  destruct (decide (st_Id s ∈ E)) as [Hin|Hout].
  - rewrite bool_decide_eq_true_2 by done. destruct (IH (R, E)) as (R' & E1 & Hc & H1 & H2); [by split|done|].
    exists R'. split; [exact E1|]. split; [exact Hc|]. split.
    + eapply Forall_impl; [exact H1|]. intros r (s' & ? & ?). exists s'. split; [by right|done].
    + constructor; [|done]. cbn [fst]. rewrite map_app, elem_of_app. left. by apply Hi.
  - rewrite bool_decide_eq_false_2 by done. rewrite Ht. cbn [deref rbind].
    assert ((if negb (tpl_Id t =? y)%Z then mkStrategy (st_Id s) (st_Metric s) (st_Tags s) (st_Func s) (st_Operator s) (st_RightValue s) (st_MaxStep s)
       (st_Priority s) (st_Note s) (allTpls !! y) (st_UnionStrategyId s) else s) = rebound allTpls y s) as ->.
    { unfold rebound. rewrite Ht. by destruct (tpl_Id t =? y)%Z. }
    destruct (IH ((R ++ [rebound allTpls y s])%list, {[st_Id s]} ∪ E)) as (R' & E1 & Hc & H1 & H2); [|done|].
    { split; cbn [fst snd]; rewrite map_app; cbn [map]; rewrite rebound_id.
      - apply NoDup_app. split; [done|]. split; [|apply NoDup_singleton]. intros i Hr ->%list_elem_of_singleton. by apply Hout, Hi.
      - intros i. rewrite elem_of_app, <- (Hi i). rewrite list_elem_of_singleton. set_solver. }
    exists (rebound allTpls y s :: R'). cbn [fst snd] in *. rewrite E1. rewrite <- !app_assoc in *. cbn [app map] in *. rewrite rebound_id.
    assert (list_to_set (map st_Id R') ∪ ({[st_Id s]} ∪ E) = list_to_set (st_Id s :: map st_Id R') ∪ E :> gset Z) as <- by set_solver.
    split; [done|]. split; [exact Hc|]. split.
    + constructor; [exists s; split; [by left|done]|]. eapply Forall_impl; [exact H1|]. intros r (s' & ? & ?). exists s'. split; [by right|done].
    + constructor; [|exact H2]. rewrite map_app. cbn [map]. rewrite rebound_id. set_solver.
Qed.

(** The buckets of a host's templates. *)
Definition host_buckets (allTpls : gmap Z Template) (tids : list Z) : list (list Z) :=
  uniq_buckets (List.filter (fun ids => negb (length ids <=? 0)%nat) (map (ParentIds allTpls) tids)).

Lemma uniq_buckets_in l b : b ∈ uniq_buckets l -> b ∈ l.
Proof.
  unfold uniq_buckets. rewrite list_elem_of_In, in_flat_map. intros ([i b'] & Hi & Hb). apply list_elem_of_In, list_elem_of_lookup in Hi as [j Hj].
  rewrite list_lookup_imap in Hj. destruct (l !! j) eqn:E; [|done]. injection Hj as <- <-. destruct (bucket_valid _ _ _ _); [|done].
  destruct Hb as [<-|[]]. by eapply list_elem_of_lookup_2.
Qed.

Lemma host_bucket_last allTpls tids b : b ∈ host_buckets allTpls tids -> exists y, last b = Some y /\ at_index b (Z.of_nat (length b) - 1) = Ret y.
Proof.
  intros H. apply uniq_buckets_in in H. apply list_elem_of_In, filter_In in H as [_ H]. destruct b as [|x b _] using rev_ind; [done|].
  exists x. split; [by rewrite last_snoc|]. replace (Z.of_nat (length (b ++ [x])) - 1)%Z with (Z.of_nat (length b)) by (rewrite length_app; cbn; lia).
  apply at_index_lookup. rewrite lookup_app_r by lia. by rewrite Nat.sub_diag.
Qed.

Definition with_template (tpl2 : gmap Z (list Strategy)) : Prop :=
  forall tid s, s ∈ default [] (tpl2 !! tid) -> is_Some (st_Tpl s).

Lemma stands_with_template tpl2 b s : with_template tpl2 -> stands tpl2 b s -> is_Some (st_Tpl s).
Proof. intros H (l1 & tid & l2 & _ & Hs & _). by eapply H. Qed.

Section inherit.
Context (order : list (string * list Strategy) -> list (string * list Strategy)) (Ho : forall l, order l ≡ₚ l).
Context (allTpls : gmap Z Template) (tpl2 : gmap Z (list Strategy)) (Htpl : with_template tpl2).

Lemma inherit_loop bs a :
  collected a -> (forall b, b ∈ bs -> exists y, last b = Some y /\ at_index b (Z.of_nat (length b) - 1) = Ret y) ->
  exists R' E', fold_res (fun a bucket =>
      let bucket_stras_map := bucket_strategies tpl2 bucket in
      let! last_tid := at_index bucket (Z.of_nat (length bucket) - 1) in
      fold_res (take_strategy allTpls last_tid) a (concat (order (map_to_list bucket_stras_map)).*2)) a bs = Ret ((a.1 ++ R')%list, E') /\
    collected ((a.1 ++ R')%list, E') /\
    Forall (fun r => exists b y s, b ∈ bs /\ last b = Some y /\ stands tpl2 b s /\ r = rebound allTpls y s) R' /\
    (forall b s, b ∈ bs -> stands tpl2 b s -> st_Id s ∈ map st_Id (a.1 ++ R')%list).
Proof using All.
  revert a; induction bs as [|b bs IH]; intros a Ha Hl.
  { exists [], a.2. rewrite app_nil_r. split; [by destruct a|]. split; [by destruct a|]. split; [constructor|]. intros b s H. by apply elem_of_nil in H. }
  destruct (Hl b) as (y & Hy & Hat); [by left|]. cbn [fold_res]. cbv zeta. rewrite Hat. cbn [rbind].
  destruct (take_loop allTpls y (concat (order (map_to_list (bucket_strategies tpl2 b))).*2) a) as (R1 & E1 & Hc1 & H1 & H2); [done| |].
  { apply Forall_forall. intros s Hs. apply bucket_list_elem in Hs; [|done]. by eapply stands_with_template. }
  rewrite E1. destruct (IH ((a.1 ++ R1)%list, list_to_set (map st_Id R1) ∪ a.2)) as (R2 & E' & E2 & Hc2 & H3 & H4); [done|intros; apply Hl; by right|].
  cbn [fst] in *. rewrite <- !app_assoc in *. exists (R1 ++ R2)%list, E'. split; [exact E2|]. split; [exact Hc2|]. split.
  - apply Forall_app. split.
    + eapply Forall_impl; [exact H1|]. intros r (s & Hs & ->). apply bucket_list_elem in Hs; [|done]. exists b, y, s. split; [by left|done].
    + eapply Forall_impl; [exact H3|]. intros r (b' & y' & s & ? & ?). exists b', y', s. split; [by right|done].
  - intros b' s Hb Hs. apply elem_of_cons in Hb as [->|Hb].
    + rewrite Forall_forall in H2. specialize (H2 s (proj2 (bucket_list_elem order tpl2 b s Ho) Hs)).
      rewrite app_assoc, map_app, elem_of_app. by left.
    + specialize (H4 b' s Hb Hs). exact H4.
Qed.

(** The strategies of a host, by the buckets of its templates. *)
Lemma inherit_spec tids :
  exists R, CalcInheritStrategies order allTpls tids tpl2 = Ret R /\ NoDup (map st_Id R) /\
    Forall (fun r => exists b y s, b ∈ host_buckets allTpls tids /\ last b = Some y /\ stands tpl2 b s /\ r = rebound allTpls y s) R /\
    (forall b s, b ∈ host_buckets allTpls tids -> stands tpl2 b s -> st_Id s ∈ map st_Id R).
Proof using All.
  destruct (inherit_loop (host_buckets allTpls tids) ([], ∅)) as (R & E' & E & Hc & H1 & H2);
    [split; [constructor|intros; cbn; set_solver]|apply host_bucket_last|].
  exists R. cbn [fst app] in *. split; [|split; [apply Hc|done]]. unfold CalcInheritStrategies. fold (host_buckets allTpls tids). by rewrite E.
Qed.
End inherit.

(** C33: The strategies of a host are those that stand in a bucket of its templates:
    the ones no younger template of the bucket overrides, each once by id, under
    the youngest template of the bucket; and every one that stands is there. *)
Theorem inheritance_overrides order (allTpls : gmap Z Template) (tpl2 : gmap Z (list Strategy)) (tids : list Z) :
  (forall l, order l ≡ₚ l) -> with_template tpl2 ->
  exists R, CalcInheritStrategies order allTpls tids tpl2 = Ret R /\ NoDup (map st_Id R) /\
    Forall (fun r => exists b y s, b ∈ host_buckets allTpls tids /\ last b = Some y /\ stands tpl2 b s /\ r = rebound allTpls y s) R /\
    (forall b s, b ∈ host_buckets allTpls tids -> stands tpl2 b s -> st_Id s ∈ map st_Id R).
Proof. intros. by apply inherit_spec. Qed.

(** ** A template bound twice *)

(** A parent [p] and its child [c], each with one strategy of the same identity. *)
Record overriding (allTpls : gmap Z Template) (tpl2 : gmap Z (list Strategy)) (p c : Z) (sp sc : Strategy) : Prop := {
  ov_pos : (0 < p)%Z /\ (0 < c)%Z /\ p <> c;
  ov_parent : exists t, allTpls !! p = Some t /\ tpl_ParentId t = 0%Z;
  ov_child : exists t, allTpls !! c = Some t /\ tpl_ParentId t = p;
  ov_p : tpl2 !! p = Some [sp]; ov_c : tpl2 !! c = Some [sc];
  ov_uuid : strategy_uuid sp = strategy_uuid sc; ov_ids : st_Id sp <> st_Id sc }.

Lemma overriding_chains allTpls tpl2 p c sp sc : overriding allTpls tpl2 p c sp sc ->
  ParentIds allTpls p = [p] /\ ParentIds allTpls c = [p; c].
Proof.
  intros [(Hp & Hc & _) (tp & Etp & Hpp) (tc & Etc & Hpc) _ _ _ _].
  assert (forall n ret, parent_walk (S n) allTpls 0 ret = if (length ret <=? 1)%nat then ret else rev ret) as H0 by done.
  assert (forall n tid t ret, (0 < tid)%Z -> allTpls !! tid = Some t -> parent_walk (S n) allTpls tid ret = parent_walk n allTpls (tpl_ParentId t) (ret ++ [tid])%list) as H1.
  { intros n tid t ret Hpos E. cbn [parent_walk]. destruct (Z.leb_spec tid 0); [lia|]. by rewrite E. }
  unfold ParentIds. split; [by rewrite (H1 _ _ _ _ Hp Etp), Hpp, H0|].
  rewrite (H1 _ _ _ _ Hc Etc), Hpc, (H1 _ _ _ _ Hp Etp), Hpp, H0. done.
Qed.

(** A template that reaches a host through two groups keeps its strategies
    even when a child of it, bound too, overrides them: with the parent bound
    once the child's strategy alone is given, with the parent bound twice both
    are. *)
Theorem twice_bound_not_overridden order (allTpls : gmap Z Template) (tpl2 : gmap Z (list Strategy)) (p c : Z) (sp sc : Strategy) :
  (forall l, order l ≡ₚ l) -> with_template tpl2 -> overriding allTpls tpl2 p c sp sc ->
  exists R1 R2, CalcInheritStrategies order allTpls [p; c] tpl2 = Ret R1 /\ CalcInheritStrategies order allTpls [p; p; c] tpl2 = Ret R2 /\
    (st_Id sp ∉ map st_Id R1) /\ st_Id sc ∈ map st_Id R1 /\ st_Id sp ∈ map st_Id R2 /\ st_Id sc ∈ map st_Id R2.
Proof.
  intros Ho Ht Hov. destruct (overriding_chains _ _ _ _ _ _ Hov) as [Ep Ec]. pose proof Hov as [(Hp & Hc & Hne) _ _ Esp Esc Huu Hid].
  assert (slice_int_contains [p] c = false) as Hcp by (unfold slice_int_contains; cbn; destruct (Z.eqb_spec p c); done).
  assert (slice_int_contains [p; c] p = true) as Hpp by (unfold slice_int_contains; cbn; by rewrite Z.eqb_refl).
  assert (slice_int_eq [p] [p; c] = false /\ slice_int_eq [p; c] [p] = false /\ slice_int_eq [p] [p] = true) as (E1 & E2 & E3)
    by (unfold slice_int_eq; by rewrite !bool_decide_eq_false_2, bool_decide_eq_true_2 by done).
  assert (slice_int_lt [p] [p; c] = true /\ slice_int_lt [p; c] [p] = false) as [L1 L2].
  { unfold slice_int_lt. cbn [forallb]. rewrite Hcp, Hpp. by rewrite andb_false_r. }
  assert (host_buckets allTpls [p; c] = [[p; c]]) as B1.
  { unfold host_buckets. cbn [map List.filter]. rewrite Ep, Ec. unfold uniq_buckets. cbn -[slice_int_eq slice_int_lt]. by rewrite E1, L1, E2, L2. }
  assert (host_buckets allTpls [p; p; c] = [[p]; [p]; [p; c]]) as B2.
  { unfold host_buckets. cbn [map List.filter]. rewrite Ep, Ec. unfold uniq_buckets. cbn -[slice_int_eq slice_int_lt]. by rewrite E3, E2, L2. }
  assert (stands tpl2 [p; c] sc) as Sc.
  { exists [p], c, []. split; [done|]. rewrite Esc. split; [by left|constructor]. }
  assert (stands tpl2 [p] sp) as Sp.
  { exists [], p, []. split; [done|]. rewrite Esp. split; [by left|constructor]. }
  destruct (inherit_spec order Ho allTpls tpl2 Ht [p; c]) as (R1 & C1 & _ & F1 & A1).
  destruct (inherit_spec order Ho allTpls tpl2 Ht [p; p; c]) as (R2 & C2 & _ & _ & A2). rewrite B1 in *. rewrite B2 in *.
  exists R1, R2. split; [done|]. split; [done|]. split_and!.
  - intros Hin. apply list_elem_of_In, in_map_iff in Hin as (r & Hr & Hin). rewrite Forall_forall in F1.
    destruct (F1 r) as (b & y & s & Hb & _ & Hs & ->); [by apply list_elem_of_In|]. apply list_elem_of_singleton in Hb as ->.
    rewrite rebound_id in Hr. destruct Hs as (l1 & tid & l2 & Hb & Hs & Hf).
    destruct l1 as [|x [|x' l1]]; cbn in Hb.
    + injection Hb as <- <-. rewrite Esp in Hs. apply list_elem_of_singleton in Hs as ->. apply Forall_cons_1 in Hf as [Hf _].
      unfold of_uuid in Hf. rewrite Esc in Hf. cbn in Hf. by rewrite bool_decide_eq_true_2 in Hf.
    + injection Hb as <- <- <-. rewrite Esc in Hs. by apply list_elem_of_singleton in Hs as ->.
    + injection Hb as _ _ Hb. by destruct l1.
  - apply (A1 [p; c]); [by left|done].
  - apply (A2 [p]); [by left|done].
  - apply (A2 [p; c]); [do 2 right; by left|done].
Qed.

(** * Witnesses *)

Definition tpl_parent : Template := mkTemplate 1 "base" 0 1 "root".
Definition tpl_child : Template := mkTemplate 2 "web" 1 2 "root".
Definition cpu_rule (id : Z) (t : Template) (v : Z) : Strategy :=
  mkStrategy id "cpu.idle" ∅ "all(#3)" "<" (f64_of_Z v) 3 0 "" (Some t) 0.
Definition two_tpls : gmap Z Template := {[1%Z := tpl_parent; 2%Z := tpl_child]}.
Definition two_rules : gmap Z (list Strategy) := {[1%Z := [cpu_rule 10 tpl_parent 5]; 2%Z := [cpu_rule 20 tpl_child 10]]}.

Lemma two_rules_fine : with_template two_rules /\ overriding two_tpls two_rules 1 2 (cpu_rule 10 tpl_parent 5) (cpu_rule 20 tpl_child 10).
Proof.
  split.
  - intros tid s Hs. unfold two_rules in Hs. destruct (decide (tid = 1%Z)) as [->|H1]; [|destruct (decide (tid = 2%Z)) as [->|H2]].
    + apply list_elem_of_singleton in Hs as ->. by eexists.
    + apply list_elem_of_singleton in Hs as ->. by eexists.
    + rewrite lookup_insert_ne, lookup_singleton_ne in Hs by done. by apply elem_of_nil in Hs.
  - constructor; try done; try lia; eexists; split; reflexivity.
Qed.

Lemma inheritance_overrides_witness :
  exists R, CalcInheritStrategies (fun l => l) two_tpls [2%Z] two_rules = Ret R /\ st_Id (cpu_rule 20 tpl_child 10) ∈ map st_Id R.
Proof.
  destruct (inheritance_overrides (fun l => l) two_tpls two_rules [2%Z]) as (R & E & _ & _ & H); [reflexivity|apply two_rules_fine|].
  exists R. split; [exact E|]. apply (H [1%Z; 2%Z]); [vm_compute; left|]. exists [1%Z], 2%Z, []. split; [reflexivity|]. split; [left|constructor].
Defined.

Lemma twice_bound_not_overridden_witness :
  exists R2, CalcInheritStrategies (fun l => l) two_tpls [1%Z; 1%Z; 2%Z] two_rules = Ret R2 /\ 10%Z ∈ map st_Id R2.
Proof.
  destruct (twice_bound_not_overridden (fun l => l) two_tpls two_rules 1 2 (cpu_rule 10 tpl_parent 5) (cpu_rule 20 tpl_child 10))
    as (R1 & R2 & _ & E2 & _ & _ & H & _); [reflexivity|apply two_rules_fine|apply two_rules_fine|]. exists R2. split; [exact E2|exact H].
Defined.
