(* ===== verification/Nodata.v ===== *)
(** The nodata service ([modules/nodata]): which series are watched
    ([config]), their newest collected points ([collector]), the judgement
    that decides from them whether a series is silent and makes a mock point
    for it ([judge]), and the sending of the mock points ([sender]).

    The rows of the table of configurations, the hosts of a group, the last
    points the API answers and the success of a post are arguments; the clock
    is an argument of each task. *)
From S2P Require Export Transfer GraphStore.
From Stdlib Require Import Ascii.
Local Open Scope string_scope.

(** * State *)

(** Source: common/model/nodata.go, type NodataConfig. *)
Record NodataConfig := mkNd {
  nd_Id : Z; nd_Name : string; nd_ObjType : string; nd_Endpoint : string; nd_Metric : string;
  nd_Tags : tagmap; nd_Type : string; nd_Step : Z; nd_Mock : f64 }.
(** Source: common/model/nodata.go, NewNodataConfig. *)
Definition NewNodataConfig := mkNd.

(** Source: modules/nodata/collector/collector.go, type DataItem. *)
Record DataItem := mkDataItem { di_Ts : Z; di_Value : f64; di_FStatus : string; di_FTs : Z }.
(** Source: modules/nodata/collector/collector.go, NewDataItem. *)
Definition NewDataItem := mkDataItem.

(** Source: modules/nodata/judge/status.go, type NodataStatus. *)
Record NodataStatus := mkStatus { ns_Key : string; ns_Status : string; ns_Cnt : Z; ns_Ts : Z }.
(** Source: modules/nodata/judge/status.go, NewNodataStatus. *)
Definition NewNodataStatus := mkStatus.

(** The caches of the packages. The front of a list comes first. *)
Record NdState := mkNdState {
  nd_ConfigMap : gmap string NodataConfig;
  nd_ItemMap : gmap string (list DataItem);
  nd_StatusMap : gmap string NodataStatus;
  nd_MockMap : gmap string JsonMetaData }.
Notation N := (M NdState).
Definition nd_set_config v s := mkNdState v (nd_ItemMap s) (nd_StatusMap s) (nd_MockMap s).
Definition nd_set_items v s := mkNdState (nd_ConfigMap s) v (nd_StatusMap s) (nd_MockMap s).
Definition nd_set_status v s := mkNdState (nd_ConfigMap s) (nd_ItemMap s) v (nd_MockMap s).
Definition nd_set_mocks v s := mkNdState (nd_ConfigMap s) (nd_ItemMap s) (nd_StatusMap s) v.

(** * The collected points *)

(** Source: modules/nodata/collector/collector.go, GetFirstItem. *)
Definition GetFirstItem (key : string) (s : NdState) : option DataItem := l ← nd_ItemMap s !! key; head l.

(** Source: modules/nodata/collector/collector.go, AddItem. *)
Definition nd_AddItem (key : string) (val : DataItem) : N unit :=
  modify (fun s => nd_set_items (<[key := PushFrontViolently 3 val (default [] (nd_ItemMap s !! key))]> (nd_ItemMap s)) s).

(** Source: modules/nodata/collector/collector.go, RemoveItem. *)
Definition nd_RemoveItem (key : string) : N unit := modify (fun s => nd_set_items (delete key (nd_ItemMap s)) s).

(** Source: modules/nodata/collector/collector_cron.go, fetchItemsAndStore. [query] is the API, [None] its error; [fts] the clock. The result is the size, or the error. *)
Definition fetchItemsAndStore (query : list (string * string) -> option (list (option GraphLastResp))) (fts : Z) (fetchKeys : list string) : N (option Z) :=
  if (length fetchKeys <? 1)%nat then ret (Some 0%Z)
  else
    do! cfg := gets nd_ConfigMap in
    let args := omap (fun key => ndcfg ← cfg !! key; Some (nd_Endpoint ndcfg, Counter (nd_Metric ndcfg) (nd_Tags ndcfg))) fetchKeys in
    if (length args <? 1)%nat then ret (Some 0%Z)
    else
      match query args with
      | None => ret None
      | Some resp =>
          do! _ := forM resp (fun glr =>
            match glr with
            | Some (mkLastResp e c (Some v)) => nd_AddItem (PK2 e c) (NewDataItem (rd_Timestamp v) (rd_Value v) "OK" fts)
            | _ => skip
            end) in
          ret (Some (Z.of_nat (length resp)))
      end.

(** The keys in slices of [n]. *)
Fixpoint slices {A} (fuel : nat) (n : nat) (l : list A) : list (list A) :=
  match fuel with
  | O => []
  | S fuel => match l with [] => [] | _ => take n l :: slices fuel n (drop n l) end
  end.

(** Source: modules/nodata/collector/collector_cron.go, collectDataOnce. The slices are fetched one after the other. *)
Definition collectDataOnce (batch : Z) (query : list (string * string) -> option (list (option GraphLastResp))) (fts : Z) (keys : list string) : N Z :=
  let batch := if (batch <? 100)%Z || (1000 <? batch)%Z then 200%Z else batch in
  foldM (fun collectCnt fetchKeys =>
    do! size := fetchItemsAndStore query fts fetchKeys in
    ret (collectCnt + default 0%Z size)%Z) 0%Z (slices (length keys) (Z.to_nat batch) keys).

(** * The judgement *)

(** Source: modules/nodata/judge/status.go, LastTs. *)
Definition LastTs (key : string) (s : NdState) : Z := match nd_StatusMap s !! key with Some v => ns_Ts v | None => 0%Z end.

(** Source: modules/nodata/judge/status.go, TurnOk. *)
Definition TurnOk (key : string) (ts : Z) : N unit :=
  modify (fun s => nd_set_status
    (match nd_StatusMap s !! key with
     | None => <[key := NewNodataStatus key "OK" 0 ts]> (nd_StatusMap s)
     | Some ns => <[key := mkStatus (ns_Key ns) "OK" 0 ts]> (nd_StatusMap s)
     end) s).

(** Source: modules/nodata/judge/status.go, TurnNodata. *)
Definition TurnNodata (key : string) (ts : Z) : N unit :=
  modify (fun s => nd_set_status
    (match nd_StatusMap s !! key with
     | None => <[key := NewNodataStatus key "NODATA" 1 ts]> (nd_StatusMap s)
     | Some ns => <[key := mkStatus (ns_Key ns) "NODATA" (ns_Cnt ns +! 1)%Z ts]> (nd_StatusMap s)
     end) s).

(** Source: modules/nodata/judge/judge_cron.go, genTs. *)
Definition genTs (nowTs step : Z) : res Z :=
  let step := if (step <? 1)%Z then 60%Z else step in
  let! r := go_rem nowTs step in
  Ret (nowTs -! r -! 2 *! step)%Z.

(** Source: modules/nodata/judge/judge_cron.go, getTimeout. *)
Definition getTimeout (step : Z) : Z := if (step <? 60)%Z then 180%Z else (step *! 3)%Z.

(** Source: modules/nodata/judge/judge_cron.go, const minfloat64. *)
Definition minfloat64 : f64 := f64_dec 1 6.
(** Source: modules/nodata/judge/judge_cron.go, fCompare. *)
Definition fCompare (left right : f64) : Z :=
  let sub := fsub left right in
  if flt (SFopp minfloat64) sub && flt sub minfloat64 then 0%Z
  else if fle minfloat64 sub then 1%Z else (-1)%Z.

(** Source: modules/nodata/sender/sender.go, AddMock. *)
Definition AddMock (key endpoint metric tags : string) (ts : Z) (dstype : string) (step : Z) (value : value) : N unit :=
  modify (fun s => nd_set_mocks (<[key := mkJsonMetaData metric endpoint ts step value dstype tags]> (nd_MockMap s)) s).

(** Source: modules/nodata/judge/judge_cron.go, genMock. *)
Definition genMock (ts : Z) (key : string) (ndcfg : NodataConfig) : N unit :=
  AddMock key (nd_Endpoint ndcfg) (nd_Metric ndcfg) (SortedTags (nd_Tags ndcfg)) ts (nd_Type ndcfg) (nd_Step ndcfg) (VFloat (nd_Mock ndcfg)).

(** Source: modules/nodata/judge/judge_cron.go, lines 86-92. A series without data. Symbol: judge. *)
Definition silent (now : Z) (key : string) (ndcfg : NodataConfig) : N unit :=
  let step := nd_Step ndcfg in
  do! last := gets (LastTs key) in
  if (last +! step <=? now)%Z then
    do! _ := TurnNodata key now in
    do! ts := lift (genTs now step) in
    genMock ts key ndcfg
  else skip.

(** Source: modules/nodata/judge/judge_cron.go, lines 61-94. One key of the loop. Symbol: judge. *)
Definition judge_key (now : Z) (key : string) : N unit :=
  do! cfg := gets nd_ConfigMap in
  match cfg !! key with
  | None => skip
  | Some ndcfg =>
      do! first := gets (GetFirstItem key) in
      match first with
      | None => skip
      | Some item =>
          let lastTs := (now -! getTimeout (nd_Step ndcfg))%Z in
          if negb (String.eqb (di_FStatus item) "OK") || (di_FTs item <? lastTs)%Z then skip
          else if (fCompare (nd_Mock ndcfg) (di_Value item) =? 0)%Z then silent now key ndcfg
          else if (di_Ts item <? lastTs)%Z then silent now key ndcfg
          else TurnOk key now
      end
  end.

(** Source: modules/nodata/judge/judge_cron.go, judge. [keys] in the order the map gives. *)
Definition nd_judge (now : Z) (keys : list string) : N unit := forM keys (judge_key now).

(** * Sending the mock points *)

(** Source: modules/nodata/sender/sender.go, sendMock. [mocks] are the points in the order of the map; [post] is the outcome of a post. The result is the batches that were taken and the count. *)
Definition sendMock (batch : Z) (post : nat -> bool) (mocks : list JsonMetaData) : N (list (list JsonMetaData) * Z) :=
  do! _ := modify (nd_set_mocks ∅) in
  let parts := slices (length mocks) (Z.to_nat batch) mocks in
  let sent := imap (fun i part => if post i then Some part else None) parts in
  ret (omap id sent, fold_left (fun cnt part => match part with Some p => (cnt + Z.of_nat (length p))%Z | None => cnt end) sent 0%Z).

(** * The configurations *)

(** Source: modules/nodata/config/service/mockcfg.go, type MockCfg. *)
Record MockCfg := mkMock {
  mc_Id : Z; mc_Name : string; mc_Obj : string; mc_ObjType : string; mc_Metric : string;
  mc_Tags : tagmap; mc_Type : string; mc_Step : Z; mc_Mock : f64 }.

Definition newline : string := String (ascii_of_nat 10) "".

(** Source: modules/nodata/config/service/mockcfg.go, getEndpointFromHosts. *)
Definition getEndpointFromHosts (hosts : string) : list string :=
  List.filter (fun nh => negb (String.eqb nh "")) (map TrimSpace (split hosts newline)).
(** Source: modules/nodata/config/service/mockcfg.go, getEndpointFromGroups. [hosts_of] is [GetHostsFromGroup]; [order] the walk of the map. *)
Definition getEndpointFromGroups (hosts_of : string -> list string) (order : list string -> list string) (grps : string) : list string :=
  order (elements (fold_left (fun (hosts : gset string) grp =>
    let ngrp := TrimSpace grp in
    if (slen ngrp <? 1)%Z then hosts
    else fold_left (fun hosts hostname => if negb (String.eqb hostname "") then {[hostname]} ∪ hosts else hosts) (hosts_of grp) hosts)
    (split grps newline) ∅)).
(** Source: modules/nodata/config/service/mockcfg.go, getEndpointFromOther. *)
Definition getEndpointFromOther (other : string) : list string := getEndpointFromHosts other.
(** Source: modules/nodata/config/service/mockcfg.go, getEndpoint. *)
Definition getEndpoint (hosts_of : string -> list string) (order : list string -> list string) (objType obj : string) : list string :=
  if String.eqb objType "host" then getEndpointFromHosts obj
  else if String.eqb objType "group" then getEndpointFromGroups hosts_of order obj
  else if String.eqb objType "other" then getEndpointFromOther obj
  else [].
(** Source: modules/nodata/config/service/mockcfg.go, checkMockCfg. [true] when there is an error. *)
Definition checkMockCfg (mc : MockCfg) : bool :=
  (slen (mc_Metric mc) <? 1)%Z || negb (String.eqb (mc_Type mc) "GAUGE") || (mc_Step mc <? 1)%Z.
(** Source: modules/nodata/config/service/mockcfg.go, isSpuerNodataCfg. *)
Definition isSpuerNodataCfg (A B : NodataConfig) : bool :=
  negb (String.eqb (nd_ObjType A) "group" && String.eqb (nd_ObjType B) "host").

(** Source: modules/nodata/config/service/mockcfg.go, GetMockCfgFromDB. [rows] are the rows that scan, with their tags as text. *)
Definition GetMockCfgFromDB (hosts_of : string -> list string) (order : list string -> list string) (rows : list (MockCfg * string)) : gmap string NodataConfig :=
  fold_left (fun ret '(t, tags) =>
    let t := mkMock (mc_Id t) (mc_Name t) (mc_Obj t) (mc_ObjType t) (mc_Metric t) (DictedTagstring tags) (mc_Type t) (mc_Step t) (mc_Mock t) in
    if checkMockCfg t then ret
    else
      fold_left (fun ret ep =>
        let uuid := PK ep (mc_Metric t) (mc_Tags t) in
        let ncfg := NewNodataConfig (mc_Id t) (mc_Name t) (mc_ObjType t) ep (mc_Metric t) (mc_Tags t) (mc_Type t) (mc_Step t) (mc_Mock t) in
        match ret !! uuid with
        | None => <[uuid := ncfg]> ret
        | Some val => if isSpuerNodataCfg val ncfg then ret else <[uuid := ncfg]> ret
        end) (getEndpoint hosts_of order (mc_ObjType t) (mc_Obj t)) ret) rows ∅.

(** Source: modules/nodata/config/config_cron.go, syncNdConfig. [configs] in the order of the walk. *)
Definition syncNdConfig (configs : list NodataConfig) : N Z :=
  let nm := fold_left (fun nm ndc =>
    if String.eqb (nd_Endpoint ndc) "" then nm
    else <[PK (nd_Endpoint ndc) (nd_Metric ndc) (nd_Tags ndc) := ndc]> nm) configs (∅ : gmap string NodataConfig) in
  do! _ := modify (nd_set_config nm) in ret (Z.of_nat (size nm)).

(** * A round of judgements *)

(** What the newest collected point of a series says. *)
Inductive verdict := NotCollected | Quiet (ndcfg : NodataConfig) | Alive.
Definition verdict_of (now : Z) (s : NdState) (key : string) : verdict :=
  match nd_ConfigMap s !! key, GetFirstItem key s with
  | Some ndcfg, Some item =>
      let lastTs := (now -! getTimeout (nd_Step ndcfg))%Z in
      if negb (String.eqb (di_FStatus item) "OK") || (di_FTs item <? lastTs)%Z then NotCollected
      else if (fCompare (nd_Mock ndcfg) (di_Value item) =? 0)%Z || (di_Ts item <? lastTs)%Z then Quiet ndcfg else Alive
  | _, _ => NotCollected
  end.

(** Whether a mock point is due: a step has passed since the last change of state. *)
Definition due (now : Z) (s : NdState) (key : string) (ndcfg : NodataConfig) : bool := (LastTs key s +! nd_Step ndcfg <=? now)%Z.

(** The status and the mock point of a key after a round. *)
Definition judged (now : Z) (s s' : NdState) (key : string) : Prop :=
  match verdict_of now s key with
  | NotCollected => nd_StatusMap s' !! key = nd_StatusMap s !! key /\ nd_MockMap s' !! key = nd_MockMap s !! key
  | Alive => (exists ns, nd_StatusMap s' !! key = Some ns /\ ns_Status ns = "OK" /\ ns_Cnt ns = 0%Z /\ ns_Ts ns = now) /\
      nd_MockMap s' !! key = nd_MockMap s !! key
  | Quiet ndcfg =>
      if due now s key ndcfg then
        (exists ns, nd_StatusMap s' !! key = Some ns /\ ns_Status ns = "NODATA" /\ ns_Ts ns = now /\
           ns_Cnt ns = match nd_StatusMap s !! key with Some o => (ns_Cnt o +! 1)%Z | None => 1%Z end) /\
        exists ts, nd_MockMap s' !! key = Some (mkJsonMetaData (nd_Metric ndcfg) (nd_Endpoint ndcfg) ts (nd_Step ndcfg)
                                                 (VFloat (nd_Mock ndcfg)) (nd_Type ndcfg) (SortedTags (nd_Tags ndcfg))) /\
          (nd_Step ndcfg | ts)%Z /\ (ts <= now - 2 * nd_Step ndcfg)%Z /\ (now - 3 * nd_Step ndcfg < ts)%Z
      else nd_StatusMap s' !! key = nd_StatusMap s !! key /\ nd_MockMap s' !! key = nd_MockMap s !! key
  end.

(** Configurations as [checkMockCfg] lets through, with a sane step. *)
Definition steps_ok (s : NdState) : Prop := map_Forall (fun _ c => (1 <= nd_Step c < 2 ^ 40)%Z) (nd_ConfigMap s).

(** What a judgement of one key leaves alone. *)
Definition others_kept (key : string) (s s' : NdState) : Prop :=
  nd_ConfigMap s' = nd_ConfigMap s /\ nd_ItemMap s' = nd_ItemMap s /\
  forall k, k <> key -> nd_StatusMap s' !! k = nd_StatusMap s !! k /\ nd_MockMap s' !! k = nd_MockMap s !! k.

Lemma genTs_spec now step : (0 <= now < 2 ^ 60)%Z -> (1 <= step < 2 ^ 40)%Z ->
  exists ts, genTs now step = Ret ts /\ (step | ts)%Z /\ (now - 3 * step < ts <= now - 2 * step)%Z.
Proof.
  intros Hn Hs. unfold genTs. destruct (Z.ltb_spec step 1); [lia|]. unfold go_rem. destruct (Z.eqb_spec step 0); [lia|]. cbn [rbind].
  rewrite Z.rem_mod_nonneg by lia. pose proof (Z.mod_pos_bound now step). rewrite (wrap64_id (now - _)) by (unfold in_i64; lia).
  rewrite (wrap64_id (2 * step)) by (unfold in_i64; lia). rewrite wrap64_id by (unfold in_i64; lia).
  eexists. split; [done|]. split; [|lia]. exists (now / step - 2)%Z. rewrite (Z.div_mod now step) at 1 by lia. lia.
Qed.

Lemma judge_key_spec now key s : (0 <= now < 2 ^ 60)%Z -> steps_ok s ->
  exists s', judge_key now key s = Ret (tt, s') /\ others_kept key s s' /\ judged now s s' key.
Proof.
  intros Hn Hok. unfold judge_key, judged, verdict_of. unfold mthen at 1, gets at 1.
  destruct (nd_ConfigMap s !! key) as [c|] eqn:Ec; [|exists s; by repeat split].
  unfold mthen at 1, gets at 1. destruct (GetFirstItem key s) as [item|]; [|exists s; by repeat split]. cbv zeta.
  destruct (negb (String.eqb (di_FStatus item) "OK") || _); [exists s; by repeat split|].
  assert (exists s', silent now key c s = Ret (tt, s') /\ others_kept key s s' /\
    (if due now s key c then
        (exists ns, nd_StatusMap s' !! key = Some ns /\ ns_Status ns = "NODATA" /\ ns_Ts ns = now /\
           ns_Cnt ns = match nd_StatusMap s !! key with Some o => (ns_Cnt o +! 1)%Z | None => 1%Z end) /\
        exists ts, nd_MockMap s' !! key = Some (mkJsonMetaData (nd_Metric c) (nd_Endpoint c) ts (nd_Step c)
                                                 (VFloat (nd_Mock c)) (nd_Type c) (SortedTags (nd_Tags c))) /\
          (nd_Step c | ts)%Z /\ (ts <= now - 2 * nd_Step c)%Z /\ (now - 3 * nd_Step c < ts)%Z
     else nd_StatusMap s' !! key = nd_StatusMap s !! key /\ nd_MockMap s' !! key = nd_MockMap s !! key)) as Hsil.
  { unfold silent, due. unfold mthen at 1, gets at 1. destruct (_ <=? now)%Z; [|exists s; by repeat split].
    destruct (genTs_spec now (nd_Step c)) as (ts & Ets & Hd & Hr); [done|by apply (Hok key)|].
    unfold mthen at 1, TurnNodata, modify at 1. unfold mthen, lift. rewrite Ets. unfold genMock, AddMock, modify. eexists. split; [reflexivity|].
    split; [split; [done|]; split; [done|]; intros k Hk; cbn; split; [destruct (nd_StatusMap s !! key); by rewrite lookup_insert_ne|by rewrite lookup_insert_ne]|].
    cbn. split; [|exists ts; rewrite lookup_insert_eq; split_and!; [done|done|lia|lia]].
    destruct (nd_StatusMap s !! key) as [o|]; rewrite lookup_insert_eq; eexists; (split; [done|]); done. }
  destruct (fCompare (nd_Mock c) (di_Value item) =? 0)%Z; cbn [orb]; [exact Hsil|].
  destruct (di_Ts item <? _)%Z; [exact Hsil|].
  unfold TurnOk, modify. eexists. split; [reflexivity|].
  split; [split; [done|]; split; [done|]; intros k Hk; cbn; split; [destruct (nd_StatusMap s !! key); by rewrite lookup_insert_ne|done]|].
  cbn. split; [|done]. destruct (nd_StatusMap s !! key) as [o|]; rewrite lookup_insert_eq; eexists; (split; [done|]); done.
Qed.

Lemma judged_ext now s1 s s' key :
  nd_ConfigMap s1 = nd_ConfigMap s -> nd_ItemMap s1 = nd_ItemMap s ->
  nd_StatusMap s1 !! key = nd_StatusMap s !! key -> nd_MockMap s1 !! key = nd_MockMap s !! key ->
  judged now s1 s' key -> judged now s s' key.
Proof.
  intros Hc Hi Hs Hm. unfold judged, verdict_of, GetFirstItem, due, LastTs. rewrite Hc, Hi, Hs, Hm. done.
Qed.

(** C38: A round of judgements decides each watched series by its newest collected
    point alone: not at all while the collection fails or is old, alive when the
    point is recent and not the mock value, quiet otherwise; a quiet series that
    has not changed for a step counts one more and gets one mock point, on the
    grid of its step and two to three steps back; no other series changes. *)
Theorem round_judges_all (now : Z) (keys : list string) (s : NdState) :
  (0 <= now < 2 ^ 60)%Z -> steps_ok s -> NoDup keys ->
  exists s', nd_judge now keys s = Ret (tt, s') /\ (forall key, key ∈ keys -> judged now s s' key) /\
    forall key, key ∉ keys -> nd_StatusMap s' !! key = nd_StatusMap s !! key /\ nd_MockMap s' !! key = nd_MockMap s !! key.
Proof.
  intros Hn Hok Hnd. unfold nd_judge.
  assert (exists s', forM keys (judge_key now) s = Ret (tt, s') /\ nd_ConfigMap s' = nd_ConfigMap s /\ nd_ItemMap s' = nd_ItemMap s /\
    (forall key, key ∈ keys -> judged now s s' key) /\
    forall key, key ∉ keys -> nd_StatusMap s' !! key = nd_StatusMap s !! key /\ nd_MockMap s' !! key = nd_MockMap s !! key)
    as (s' & E & _ & _ & H1 & H2); [|by exists s'].
  revert s Hok; induction Hnd as [|key keys Hnin Hnd IH]; intros s Hok; cbn [forM].
  { exists s. split_and!; try done. intros key H. by apply elem_of_nil in H. }
  destruct (judge_key_spec now key s Hn Hok) as (s1 & E1 & (Hc & Hi & Ho) & Hj). rewrite (mthen_run _ _ _ _ _ E1).
  destruct (IH s1) as (s' & E & Hc' & Hi' & H1 & H2); [unfold steps_ok; by rewrite Hc|].
  exists s'. split; [done|]. split; [congruence|]. split; [congruence|]. split.
  - intros k Hk. destruct (decide (k = key)) as [->|Hne].
    + destruct (H2 key Hnin) as [Hs Hm]. unfold judged in *. destruct (verdict_of now s key); rewrite Hs, Hm; done.
    + apply elem_of_cons in Hk as [?|Hk]; [done|]. destruct (Ho k Hne). eapply judged_ext; [| | | |by apply H1]; done.
  - intros k Hk. apply not_elem_of_cons in Hk as [Hne Hk]. destruct (H2 k Hk) as [-> ->]. by apply Ho.
Qed.

(** A series whose last point is an hour old, collected a moment ago. *)
Definition nd_cfg : NodataConfig := mkNd 1 "alive" "host" "h" "agent.alive" ∅ "GAUGE" 60 (SFopp (f64_of_Z 1)).
Definition nd_demo : NdState :=
  mkNdState {["h/agent.alive" := nd_cfg]} {["h/agent.alive" := [mkDataItem 999996400 (f64_of_Z 1) "OK" 1000000000]]} ∅ ∅.

Lemma round_judges_all_witness :
  verdict_of 1000000010 nd_demo "h/agent.alive" = Quiet nd_cfg /\
  exists s', nd_judge 1000000010 ["h/agent.alive"] nd_demo = Ret (tt, s') /\ judged 1000000010 nd_demo s' "h/agent.alive".
Proof.
  split; [vm_compute; reflexivity|].
  destruct (round_judges_all 1000000010 ["h/agent.alive"] nd_demo) as (s' & E & H & _).
  - lia.
  - apply map_Forall_singleton. cbn. lia.
  - apply NoDup_singleton.
  - exists s'. split; [exact E|]. apply H. left.
Defined.
