(* ===== verification/AlarmText.v ===== *)
(** What an alarm says: the texts the alarm service builds from an event
    ([modules/alarm/cron/builder.go], [modules/alarm/g/eventdto.go]) and the
    formatting of numbers and times they use ([common/utils/formatter.go],
    [common/utils/date.go]).

    The time zone of the process, an offset in seconds at each instant, is an
    argument.  A Lark card is kept as the record of the values the code puts
    in it, in the place of its JSON text. *)
From S2P Require Export Model GoNum.
From Stdlib Require Import Ascii.
Local Open Scope string_scope.

(** * Numbers *)

(** [n / d] rounded to the nearest integer, ties to even. *)
Definition round_half_even (n d : Z) : Z :=
  let q := (n / d)%Z in let r := (n mod d)%Z in
  match (2 * r ?= d)%Z with
  | Lt => q
  | Gt => (q + 1)%Z
  | Eq => if Z.even q then q else (q + 1)%Z
  end.

(** [n] in decimal with at least [k] digits. *)
Fixpoint zeros (k : nat) : string := match k with O => "" | S k => String "0" (zeros k) end.
Definition pad (k : nat) (n : Z) : string := let d := itoa n in zeros (k - String.length d) ++s d.

(** [strconv.FormatFloat(raw, 'f', k, 64)] for a positive [k]. *)
Definition FormatFloat_f (k : nat) (raw : f64) : string :=
  let sign (s : bool) := if s then "-" else "" in
  let dec s n := sign s ++s itoa (n / 10 ^ Z.of_nat k) ++s "." ++s pad k (n mod 10 ^ Z.of_nat k) in
  match raw with
  | S754_nan => "NaN"
  | S754_infinity s => if s then "-Inf" else "+Inf"
  | S754_zero s => dec s 0%Z
  | S754_finite s m e =>
      let scaled := (Zpos m * 10 ^ Z.of_nat k)%Z in
      dec s (if (0 <=? e)%Z then (scaled * 2 ^ e)%Z else round_half_even scaled (2 ^ (- e)))
  end.

(** Source: common/utils/formatter.go, ReadableFloat. *)
Definition ReadableFloat (raw : f64) : string :=
  let val := FormatFloat_f 5 raw in
  if contains val "." then trim_right (Ascii.eqb ".") (trim_right (Ascii.eqb "0") val) else val.

Example readable_half : ReadableFloat (f64_dec 905 1) = "90.5". Proof. reflexivity. Qed.
Example readable_int : ReadableFloat (f64_of_Z 100) = "100". Proof. reflexivity. Qed.
Example readable_neg : ReadableFloat (SFopp (f64_dec 1234567 6)) = "-1.23457". Proof. vm_compute. reflexivity. Qed.
Example readable_zero : ReadableFloat (S754_zero true) = "-0" /\ ReadableFloat fnan = "NaN". Proof. done. Qed.

(** * Times *)

(** The civil date of a day counted from the first of January 1970. *)
Definition civil (days : Z) : Z * Z * Z :=
  (let z := days + 719468 in
   let era := z / 146097 in
   let doe := z - era * 146097 in
   let yoe := (doe - doe / 1460 + doe / 36524 - doe / 146096) / 365 in
   let doy := doe - (365 * yoe + yoe / 4 - yoe / 100) in
   let mp := (5 * doy + 2) / 153 in
   let d := doy - (153 * mp + 2) / 5 + 1 in
   let m := if mp <? 10 then mp + 3 else mp - 9 in
   (if m <=? 2 then yoe + era * 400 + 1 else yoe + era * 400, m, d))%Z.

(** Source: common/utils/date.go, UnixTsFormat. [zone] is the offset of the local time at an instant. *)
Definition UnixTsFormat (zone : Z -> Z) (ts : Z) : string :=
  let t := (ts + zone ts)%Z in
  let '(y, m, d) := civil (t / 86400)%Z in
  let r := (t mod 86400)%Z in
  (if (y <? 0)%Z then "-" else "") ++s pad 4 (Z.abs y) ++s "-" ++s pad 2 m ++s "-" ++s pad 2 d ++s " " ++s
  pad 2 (r / 3600) ++s ":" ++s pad 2 (r / 60 mod 60) ++s ":" ++s pad 2 (r mod 60).

Example time_epoch : UnixTsFormat (fun _ => 28800%Z) 0 = "1970-01-01 08:00:00". Proof. reflexivity. Qed.
Example time_leap : UnixTsFormat (fun _ => 0%Z) 1582934399 = "2020-02-28 23:59:59" /\
  UnixTsFormat (fun _ => 0%Z) 1582934400 = "2020-02-29 00:00:00". Proof. done. Qed.

(** * Texts of an event *)

Section Builder.
(** The offset of the local time, and [g.Config().Api.Dashboard]. *)
Context (zone : Z -> Z) (Dashboard : string).

(** Source: common/model/event.go, Event.FormattedTime. *)
Definition Event_FormattedTime (e : Event) : string := UnixTsFormat zone (ev_EventTime e).

(** Source: modules/alarm/g/eventdto.go, Link. *)
Definition Link (event : Event) : res string :=
  let! tplId := Event_TplId event in
  if negb (tplId =? 0)%Z then Ret (Dashboard ++s "/portal/template/view/" ++s itoa tplId)
  else
    let eid := Event_ExpressionId event in
    if negb (eid =? 0)%Z then Ret (Dashboard ++s "/portal/expression/view/" ++s itoa eid) else Ret "".
(** Source: modules/alarm/g/eventdto.go, ModLink. *)
Definition ModLink (event : Event) : res string :=
  let! tplId := Event_TplId event in
  if negb (tplId =? 0)%Z then Ret (Dashboard ++s "/portal/template/update/" ++s itoa tplId)
  else
    let eid := Event_ExpressionId event in
    if negb (eid =? 0)%Z then Ret (Dashboard ++s "/portal/expression/update/" ++s itoa eid) else Ret "".
(** Source: modules/alarm/g/eventdto.go, ModUicLink. *)
Definition ModUicLink (uic : string) : string := Dashboard ++s "/team/" ++s uic ++s "/edit".

(** Source: modules/alarm/cron/builder.go, FormatOneFuncValue. *)
Definition FormatOneFuncValue (event : Event) : res string :=
  let! f := Event_Func event in
  let! op := Event_Operator event in
  let! rv := Event_RightValue event in
  Ret (f ++s ": " ++s ReadableFloat (ev_LeftValue event) ++s op ++s ReadableFloat rv).
(** Source: modules/alarm/cron/builder.go, UnionAlarmFormatFuncValue. *)
Definition UnionAlarmFormatFuncValue (event : Event) : res string :=
  let! one := FormatOneFuncValue event in
  fold_res (fun one e => let! v := FormatOneFuncValue e in Ret (one ++s "," ++s v)) one (ev_EventChain event).
(** Source: modules/alarm/cron/builder.go, FormatMetricTags. *)
Definition FormatMetricTags (event : Event) : string :=
  fold_left (fun one e => one ++s "," ++s SortedTags (ev_PushedTags e)) (ev_EventChain event) (SortedTags (ev_PushedTags event)).
(** Source: modules/alarm/cron/builder.go, AlarmIsUnionString. *)
Definition AlarmIsUnionString (event : Event) : res string :=
  let! s := deref (ev_Strategy event) in
  if (0 <? st_UnionStrategyId s)%Z
  then Ret ("[" ++s itoa (Z.of_nat (length (ev_EventChain event)) + 1) ++s "]条组合策略报警")
  else Ret "单条策略报警".

(** Source: modules/alarm/cron/builder.go, BuildCommonSMSContent. *)
Definition BuildCommonSMSContent (event : Event) (uic amstag grps : string) : res string :=
  let! union := AlarmIsUnionString event in
  let! prio := Event_Priority event in
  let! metric := Event_Metric event in
  let! note := Event_Note event in
  let! func := UnionAlarmFormatFuncValue event in
  let! max := Event_MaxStep event in
  Ret ("[" ++s union ++s "][P" ++s itoa prio ++s "][Id:" ++s ev_Id event ++s "][状态" ++s ev_Status event ++s
       "][Endpoint:" ++s ev_Endpoint event ++s "][报警分组:" ++s grps ++s "][接收组:" ++s uic ++s "][组tag列表:" ++s amstag ++s
       "][metric:" ++s metric ++s "_tag:" ++s FormatMetricTags event ++s " 注意:" ++s note ++s "  表达式:" ++s func ++s
       " ][第" ++s itoa (ev_CurrentStep event) ++s "/" ++s itoa max ++s "次 ,时间" ++s Event_FormattedTime event ++s "]").
(** Source: modules/alarm/cron/builder.go, BuildCommonPhoneContent. *)
Definition BuildCommonPhoneContent (event : Event) : res string :=
  let! union := AlarmIsUnionString event in
  let! metric := Event_Metric event in
  Ret (union ++s ev_Endpoint event ++s metric).
(** Source: modules/alarm/cron/builder.go, BuildCommonIMContent. *)
Definition BuildCommonIMContent (event : Event) : res string :=
  let! prio := Event_Priority event in
  let! note := Event_Note event in
  let! func := Event_Func event in
  let! metric := Event_Metric event in
  let! op := Event_Operator event in
  let! rv := Event_RightValue event in
  Ret ("[P" ++s itoa prio ++s "][" ++s ev_Status event ++s "][" ++s ev_Endpoint event ++s "][][" ++s note ++s " " ++s func ++s " " ++s
       metric ++s " " ++s SortedTags (ev_PushedTags event) ++s " " ++s ReadableFloat (ev_LeftValue event) ++s op ++s ReadableFloat rv ++s
       "][O" ++s itoa (ev_CurrentStep event) ++s " " ++s Event_FormattedTime event ++s "]").

(** Source: modules/alarm/cron/builder.go, BuildCommonMailContent. *)
Definition BuildCommonMailContent (event : Event) (uic amstag grps : string) : res string :=
  let! link := Link event in
  let! union := AlarmIsUnionString event in
  let! prio := Event_Priority event in
  let! metric := Event_Metric event in
  let! func := UnionAlarmFormatFuncValue event in
  let! note := Event_Note event in
  let! max := Event_MaxStep event in
  Ret (union ++s cr ++s ev_Status event ++s crlf ++s "P" ++s itoa prio ++s crlf ++s "Id:" ++s ev_Id event ++s crlf ++s
       "Endpoint:" ++s ev_Endpoint event ++s crlf ++s "主机组列表:" ++s grps ++s crlf ++s "Uic:" ++s uic ++s crlf ++s
       "Amstag:" ++s amstag ++s crlf ++s "Metric:" ++s metric ++s crlf ++s "Tags:" ++s FormatMetricTags event ++s crlf ++s
       func ++s crlf ++s "Note:" ++s note ++s crlf ++s "Max:" ++s itoa max ++s ", Current:" ++s itoa (ev_CurrentStep event) ++s crlf ++s
       "Timestamp:" ++s Event_FormattedTime event ++s crlf ++s link ++s crlf ++s "<br>").

(** Source: modules/alarm/cron/builder.go, lines 235-266. The text of a card. Symbol: BuildLarkCardImContent. *)
Definition card_text (event : Event) (uic amstag grps : string) : res string :=
  let! union := AlarmIsUnionString event in
  let! prio := Event_Priority event in
  let! metric := Event_Metric event in
  let! func := UnionAlarmFormatFuncValue event in
  let! note := Event_Note event in
  let! max := Event_MaxStep event in
  Ret ("报警触发类型:" ++s union ++s lf ++s "状态:" ++s ev_Status event ++s lf ++s "级别:" ++s itoa prio ++s lf ++s
       "Id:" ++s ev_Id event ++s lf ++s "Endpoint:" ++s ev_Endpoint event ++s lf ++s "主机组列表:" ++s grps ++s lf ++s
       "接收组:" ++s uic ++s lf ++s "tag列表:" ++s amstag ++s lf ++s "Metric:" ++s metric ++s lf ++s
       "Tags:" ++s FormatMetricTags event ++s lf ++s "表达式:" ++s func ++s lf ++s "Note:" ++s note ++s lf ++s
       "最大报警数:" ++s itoa max ++s lf ++s "当前第几次:" ++s itoa (ev_CurrentStep event) ++s lf ++s
       "触发时间:" ++s Event_FormattedTime event).
End Builder.

(** Source: modules/alarm/g/func.go, JudgeIsLongInt. *)
Definition JudgeIsLongInt (input : string) : bool := match parse_int input 64 with Some _ => true | None => false end.

(** The constants of [modules/alarm/g/g.go]. *)
Definition BYTEMAIL : string := "@xxx.com".
Definition BLOCK_MONITOR_KEY_PREFIX : string := "single_block_monitor_".
