(* ===== verification/Redis.v ===== *)
(** What the components ask of redis, as interfaces: its lists, used as
    queues, and its keys with a time to live, used as locks and as a place to
    hand over a map. Each interface has its laws and an instance in memory. *)
From S2P Require Export Prelude.
From Stdlib Require Import Ascii.
Local Open Scope string_scope.

(** * Redis lists *)

(** An entry of a list: an object a reader parses, or a text it does not. *)
Inductive reply (A : Type) := Obj (a : A) | Text (s : string).
Arguments Obj {A} a.
Arguments Text {A} s.

(** What a component asks of a redis list: [LPUSH] adds in front and may
    fail, [RPOP] takes the last entry, or gives [None] when the list is empty
    or redis fails. [view] is the content, [alive] says that redis answers. *)
Class RedisList (R : Type -> Type) := {
  LPUSH : forall {A}, reply A -> R A -> option (R A);
  RPOP : forall {A}, R A -> option (reply A) * R A;
  view : forall {A}, R A -> list (reply A);
  alive : forall {A}, R A -> Prop }.

Class RedisListLaws (R : Type -> Type) `{RedisList R} := {
  LPUSH_view A (m : reply A) (r r' : R A) : LPUSH m r = Some r' -> view r' = m :: view r;
  LPUSH_alive A (m : reply A) (r : R A) : alive r -> exists r', LPUSH m r = Some r' /\ alive r';
  RPOP_some A (r r' : R A) (m : reply A) : RPOP r = (Some m, r') -> view r = (view r' ++ [m])%list;
  RPOP_none A (r r' : R A) : RPOP r = (None, r') -> view r' = view r;
  RPOP_alive A (r : R A) : alive r -> alive (snd (RPOP r)) /\ (fst (RPOP r) = None -> view r = []) }.

(** A redis that keeps its lists in memory. *)
Record mem (A : Type) := Mem { mem_items : list (reply A) }.
Arguments Mem {A}.
Arguments mem_items {A}.
#[export] Instance mem_redis : RedisList mem := {
  LPUSH A m r := Some (Mem (m :: mem_items r));
  RPOP A r := match last (mem_items r) with
              | Some m => (Some m, Mem (removelast (mem_items r)))
              | None => (None, r)
              end;
  view A := mem_items;
  alive A _ := True }.

#[export] Instance mem_redis_laws : RedisListLaws mem.
Proof.
  split.
  - by intros A m r r' [= <-].
  - intros A m r _. by eexists.
  - intros A [l] r' m. unfold RPOP; cbn. destruct (last l) eqn:E; [|done]. intros [= -> <-]. by apply last_removelast.
  - intros A [l] r'. unfold RPOP; cbn. destruct (last l) eqn:E; [done|]. by intros [= <-].
  - intros A [l] _. split; [done|]. unfold RPOP, view; cbn. destruct (last l) eqn:E; [done|]. by apply last_None in E.
Qed.


(** * Keys with a time to live *)

(** The commands, at a time of the clock of redis; [None], or [false] for
    HMSET, is an error.
    [live r t k] is the text redis has under [k] at the time [t], [hlive]
    the hash, [up] says that redis answers. *)
Class RedisKV (K : Type) := {
  SETNX : Z -> string -> string -> K -> option bool * K;
  GET : Z -> string -> K -> option (option string);
  SET : Z -> string -> string -> K -> option K;
  EXPIRE : Z -> string -> Z -> K -> option K;
  DEL : Z -> string -> K -> option K;
  HMSET : Z -> string -> list (string * string) -> K -> bool * K;
  HGETALL : Z -> string -> K -> option (gmap string string);
  live : K -> Z -> string -> option string;
  hlive : K -> Z -> string -> option (gmap string string);
  up : K -> Prop }.

(** The fields of a hash, written one after the other. *)
Definition insert_all {A} (l : list (string * A)) (m : gmap string A) : gmap string A := fold_left (fun m p => <[p.1 := p.2]> m) l m.

Lemma insert_all_lookup {A} (l : list (string * A)) (acc : gmap string A) k :
  NoDup l.*1 -> insert_all l acc !! k = match (list_to_map l : gmap string A) !! k with Some v => Some v | None => acc !! k end.
Proof.
  unfold insert_all. revert acc; induction l as [|[key va] l IH]; intros acc Hnd; [by rewrite list_to_map_nil, lookup_empty|].
  cbn in Hnd. apply NoDup_cons in Hnd as [Hn Hnd]. cbn [fold_left fst snd]. rewrite IH by done. rewrite list_to_map_cons.
  destruct (decide (k = key)) as [->|Hk].
  - rewrite lookup_insert_eq, (not_elem_of_list_to_map_1 l key) by done. by rewrite lookup_insert_eq.
  - by rewrite !lookup_insert_ne by done.
Qed.
Lemma insert_all_app {A} (l1 l2 : list (string * A)) m : insert_all (l1 ++ l2) m = insert_all l2 (insert_all l1 m).
Proof. apply fold_left_app. Qed.

(** From [now] on [r'] has what [r] has, but under [k]. *)
Definition same_but `{RedisKV K} (now : Z) (k : string) (r r' : K) : Prop :=
  up r' /\ forall t k', (now <= t)%Z -> k' <> k -> live r' t k' = live r t k' /\ hlive r' t k' = hlive r t k'.

Class RedisKVLaws (K : Type) `{RedisKV K} := {
  SETNX_free now k v (r : K) : up r -> live r now k = None -> hlive r now k = None ->
    exists r', SETNX now k v r = (Some true, r') /\ same_but now k r r' /\ forall t, (now <= t)%Z -> live r' t k = Some v;
  SETNX_taken now k v w (r : K) : up r -> live r now k = Some w -> SETNX now k v r = (Some false, r);
  GET_live now k (r : K) : up r -> hlive r now k = None -> GET now k r = Some (live r now k);
  SET_live now k v (r : K) : up r ->
    exists r', SET now k v r = Some r' /\ same_but now k r r' /\ forall t, (now <= t)%Z -> live r' t k = Some v;
  EXPIRE_live now k ttl v (r : K) : up r -> (0 < ttl)%Z -> live r now k = Some v ->
    exists r', EXPIRE now k ttl r = Some r' /\ same_but now k r r' /\
      forall t, (now <= t)%Z -> live r' t k = (if (t <? now + ttl)%Z then Some v else None) /\ hlive r' t k = None;
  EXPIRE_hlive now k ttl m (r : K) : up r -> (0 < ttl)%Z -> hlive r now k = Some m ->
    exists r', EXPIRE now k ttl r = Some r' /\ same_but now k r r' /\
      forall t, (now <= t)%Z -> hlive r' t k = (if (t <? now + ttl)%Z then Some m else None);
  DEL_live now k (r : K) : up r ->
    exists r', DEL now k r = Some r' /\ same_but now k r r' /\ forall t, (now <= t)%Z -> live r' t k = None /\ hlive r' t k = None;
  EXPIRE_missing now k ttl (r : K) : up r -> live r now k = None -> hlive r now k = None -> EXPIRE now k ttl r = Some r;
  HMSET_none now k (r : K) : fst (HMSET now k [] r) = false;
  HMSET_sets now k l (r : K) : up r -> l <> [] -> live r now k = None ->
    (forall m, hlive r now k = Some m -> forall t, (now <= t)%Z -> hlive r t k = Some m) ->
    exists r', HMSET now k l r = (true, r') /\ same_but now k r r' /\
      forall t, (now <= t)%Z -> hlive r' t k = Some (insert_all l (default ∅ (hlive r now k)));
  HGETALL_live now k (r : K) : up r -> live r now k = None -> HGETALL now k r = Some (default ∅ (hlive r now k));
  live_hlive t k (r : K) v : up r -> live r t k = Some v -> hlive r t k = None }.

(** A redis that keeps its keys in memory, each with the time it dies. *)
Inductive entry := Str (s : string) | Hash (m : gmap string string).
Notation kv := (gmap string (entry * option Z)).
Definition alive_at (r : kv) (t : Z) (k : string) : option entry :=
  match r !! k with
  | Some (e, Some d) => if (t <? d)%Z then Some e else None
  | Some (e, None) => Some e
  | None => None
  end.
#[export] Instance mem_kv : RedisKV kv := {
  SETNX now k v r := match alive_at r now k with Some _ => (Some false, r) | None => (Some true, <[k := (Str v, None)]> r) end;
  GET now k r := match alive_at r now k with Some (Str s) => Some (Some s) | Some (Hash _) => None | None => Some None end;
  SET now k v r := Some (<[k := (Str v, None)]> r);
  EXPIRE now k ttl r := match alive_at r now k with Some e => Some (<[k := (e, Some (now + ttl)%Z)]> r) | None => Some r end;
  DEL now k r := Some (delete k r);
  HMSET now k l r :=
    match l with
    | [] => (false, r)
    | _ => match alive_at r now k with
           | Some (Str _) => (false, r)
           | Some (Hash m) => (true, <[k := (Hash (insert_all l m), snd (default (Str "", None) (r !! k)))]> r)
           | None => (true, <[k := (Hash (insert_all l ∅), None)]> r)
           end
    end;
  HGETALL now k r := match alive_at r now k with Some (Hash m) => Some m | Some (Str _) => None | None => Some ∅ end;
  live r t k := match alive_at r t k with Some (Str s) => Some s | _ => None end;
  hlive r t k := match alive_at r t k with Some (Hash m) => Some m | _ => None end;
  up r := True }.

Lemma alive_at_ne (r : kv) k k' e t : k' <> k -> alive_at (<[k := e]> r) t k' = alive_at r t k'.
Proof. intros Hne. unfold alive_at. by rewrite lookup_insert_ne. Qed.
Lemma alive_at_eq (r : kv) k e d t : alive_at (<[k := (e, d)]> r) t k = match d with Some d => if (t <? d)%Z then Some e else None | None => Some e end.
Proof. unfold alive_at. by rewrite lookup_insert_eq. Qed.

(** Only [k] changes. *)
Ltac one_key := split; [done|]; intros ? ? ? Hne; cbn; by rewrite ?alive_at_ne by done.

#[export] Instance mem_kv_laws : RedisKVLaws kv.
Proof.
  split; cbn -[alive_at]; intros.
  - destruct (alive_at r now k) as [[]|]; try done. eexists. split; [reflexivity|]. split; [one_key|]. intros t _. cbn -[alive_at]. by rewrite alive_at_eq.
  - by destruct (alive_at r now k) as [[]|].
  - by destruct (alive_at r now k) as [[]|].
  - eexists. split; [reflexivity|]. split; [one_key|]. intros t _. cbn -[alive_at]. by rewrite alive_at_eq.
  - destruct (alive_at r now k) as [[s|]|]; simplify_eq. eexists. split; [reflexivity|]. split; [one_key|]. intros t _. cbn -[alive_at]. rewrite alive_at_eq. by destruct (_ <? _)%Z.
  - destruct (alive_at r now k) as [[|s]|]; simplify_eq. eexists. split; [reflexivity|]. split; [one_key|]. intros t _. cbn -[alive_at]. rewrite alive_at_eq. by destruct (_ <? _)%Z.
  - eexists. split; [reflexivity|]. split.
    + split; [done|]. intros t k' _ Hne. cbn. unfold alive_at. by rewrite lookup_delete_ne.
    + intros t _. unfold alive_at. by rewrite lookup_delete_eq.
  - by destruct (alive_at r now k) as [[]|].
  - done.
  - destruct l as [|p l]; [done|]. unfold alive_at in *. destruct (r !! k) as [[[s|m] d]|] eqn:Ek.
    + destruct d as [d|]; [|done]. destruct (Z.ltb_spec now d) as [|Hd]; [done|].
      eexists. split; [reflexivity|]. split; [one_key|]. intros t _. by rewrite lookup_insert_eq.
    + destruct d as [d|].
      * destruct (Z.ltb_spec now d) as [Hd|Hd].
        -- specialize (H2 m eq_refl (Z.max now d) ltac:(lia)). destruct (Z.ltb_spec (Z.max now d) d); [lia|done].
        -- eexists. split; [reflexivity|]. split; [one_key|]. intros t _. by rewrite lookup_insert_eq.
      * eexists. split; [reflexivity|]. split; [one_key|]. intros t _. by rewrite lookup_insert_eq.
    + eexists. split; [reflexivity|]. split; [one_key|]. intros t _. by rewrite lookup_insert_eq.
  - by destruct (alive_at r now k) as [[]|].
  - by destruct (alive_at r t k) as [[]|].
Qed.

(** * Sets with a time to live *)

(** The commands on a set, at a time of the clock; [None] is an error.
    [members r t k] is what redis has under [k] at the time [t], [lasting r k]
    says that it has no time to live. *)
Class RedisSets (K : Type) := {
  SADD : Z -> string -> string -> K -> option K;
  SREM : Z -> string -> string -> K -> option K;
  SCARD : Z -> string -> K -> option Z;
  SMEMBERS : Z -> string -> K -> option (list string);
  SEXPIRE : Z -> string -> Z -> K -> option K;
  members : K -> Z -> string -> gset string;
  lasting : K -> string -> Prop }.

Class RedisSetsLaws (K : Type) `{RedisSets K} := {
  members_fade (r : K) t t' k : (t <= t')%Z -> members r t' k ⊆ members r t k;
  SADD_members now k x (r r' : K) : SADD now k x r = Some r' ->
    members r' now k = {[x]} ∪ members r now k /\ forall t k', (now <= t)%Z -> k' <> k -> members r' t k' = members r t k';
  SREM_members now k x (r r' : K) : SREM now k x r = Some r' ->
    members r' now k = members r now k ∖ {[x]} /\ forall t k', (now <= t)%Z -> k' <> k -> members r' t k' = members r t k';
  SCARD_members now k (r : K) n : SCARD now k r = Some n -> n = Z.of_nat (size (members r now k));
  SMEMBERS_members now k (r : K) l : SMEMBERS now k r = Some l -> NoDup l /\ forall x, x ∈ l <-> x ∈ members r now k;
  lasting_members t t' k (r : K) : lasting r k -> members r t' k = members r t k;
  SADD_lasting now k x k' (r r' : K) : lasting r k' -> SADD now k x r = Some r' -> lasting r' k';
  SREM_lasting now k x k' (r r' : K) : lasting r k' -> SREM now k x r = Some r' -> lasting r' k';
  SEXPIRE_members now k ttl (r r' : K) : SEXPIRE now k ttl r = Some r' -> (0 < ttl)%Z ->
    members r' now k = members r now k /\ forall t k', (now <= t)%Z -> k' <> k -> members r' t k' = members r t k' }.

(** A redis that keeps its sets in memory. *)
Notation skv := (gmap string (gset string * option Z)).
Definition set_at (r : skv) (t : Z) (k : string) : gset string :=
  match r !! k with
  | Some (m, Some d) => if (t <? d)%Z then m else ∅
  | Some (m, None) => m
  | None => ∅
  end.
#[export] Instance mem_sets : RedisSets skv := {
  SADD now k x r := Some (match r !! k with
                          | Some (m, Some d) => if (now <? d)%Z then <[k := ({[x]} ∪ m, Some d)]> r else <[k := ({[x]}, None)]> r
                          | Some (m, None) => <[k := ({[x]} ∪ m, None)]> r
                          | None => <[k := ({[x]}, None)]> r
                          end);
  SREM now k x r := Some (match r !! k with Some (m, d) => <[k := (m ∖ {[x]}, d)]> r | None => r end);
  SCARD now k r := Some (Z.of_nat (size (set_at r now k)));
  SMEMBERS now k r := Some (elements (set_at r now k));
  SEXPIRE now k ttl r := Some (match r !! k with Some _ => <[k := (set_at r now k, Some (now + ttl)%Z)]> r | None => r end);
  members r t k := set_at r t k;
  lasting r k := forall m d, r !! k <> Some (m, Some d) }.

#[export] Instance mem_sets_laws : RedisSetsLaws skv.
Proof.
  split; cbn; unfold set_at.
  - intros r t t' k Ht. destruct (r !! k) as [[m [d|]]|]; [|done..]. destruct (Z.ltb_spec t' d), (Z.ltb_spec t d); first [lia|set_solver].
  - intros now k x r r' [= <-]. split.
    + destruct (r !! k) as [[m [d|]]|]; [destruct (now <? d)%Z eqn:E|..]; rewrite lookup_insert_eq, ?E; set_solver.
    + intros t k' _ Hne. destruct (r !! k) as [[m [d|]]|]; [destruct (now <? d)%Z|..]; by rewrite lookup_insert_ne.
  - intros now k x r r' [= <-]. split.
    + destruct (r !! k) as [[m [d|]]|] eqn:E; rewrite ?lookup_insert_eq, ?E; [destruct (now <? d)%Z|..]; set_solver.
    + intros t k' _ Hne. destruct (r !! k) as [[m d]|]; by rewrite ?lookup_insert_ne.
  - by intros now k r n [= <-].
  - intros now k r l [= <-]. split; [apply NoDup_elements|]. intros x. by rewrite elem_of_elements.
  - intros t t' k r Hl. destruct (r !! k) as [[m [d|]]|]; [by destruct (Hl m d)|done..].
  - intros now k x k' r r' Hl [= <-] m d. destruct (decide (k = k')) as [->|Hne].
    + destruct (r !! k') as [[m' [d'|]]|]; [by destruct (Hl m' d')|..]; by rewrite lookup_insert_eq.
    + destruct (r !! k) as [[m' [d'|]]|]; [destruct (now <? d')%Z|..]; by rewrite lookup_insert_ne.
  - intros now k x k' r r' Hl [= <-] m d. destruct (r !! k) as [[m' d']|] eqn:E; [|done]. destruct (decide (k = k')) as [->|Hne].
    + rewrite lookup_insert_eq. destruct d' as [d'|]; [by destruct (Hl m' d')|done].
    + by rewrite lookup_insert_ne.
  - intros now k ttl r r' [= <-] Httl. split.
    + destruct (r !! k) as [[m d]|] eqn:E; rewrite ?lookup_insert_eq, ?E; [by rewrite (proj2 (Z.ltb_lt _ _)) by lia|done].
    + intros t k' _ Hne. destruct (r !! k) as [[m d]|]; by rewrite ?lookup_insert_ne.
Qed.
