(* ===== verification/Alarm.v ===== *)
(** The alarm service ([modules/alarm]): from an event popped from redis to
    the messages of the people it concerns ([cron/event_reader.go],
    [cron/event_consumer.go], [cron/callback.go], [cron/block.go]), the
    merging of the messages of low priority ([cron/combiner.go]) and their
    sending ([cron/*_sender.go]).

    The redis lists are reached through the interface [RedisList]; what is in
    a list is an object of the type its readers parse, in the place of its
    JSON text, or another text.  What the API of falcon answers about teams,
    actions and groups, the callbacks, the message services and the order in
    which a map is walked are parameters of the sections that use them. *)
From S2P Require Export Redis AlarmText GoCache.
From Stdlib Require Import Ascii.
Local Open Scope string_scope.

(** * Data *)

(** Source: modules/alarm/model/sms.go, type Sms. *)
Record Sms := mkSms { sms_Tos : string; sms_Content : string }.
(** Source: modules/alarm/model/mail.go, type Mail. *)
Record Mail := mkMail { mail_Tos : string; mail_Subject : string; mail_Content : string }.

(** Source: modules/alarm/cron/builder.go, lines 202-345. The values of a card, in the place of its JSON text. Symbol: BuildLarkCardImContent. *)
Record Card := mkCard {
  cd_chat_id : option string; cd_email : option string; cd_content : string; cd_modUicLink : string;
  cd_link : string; cd_modLink : string; cd_user_name : string; cd_ec : string; cd_mc : string }.
(** The content of an instant message. *)
Inductive content := Plain (s : string) | ACard (c : Card).

(** Source: modules/alarm/model/im.go, type IM. *)
Record IM := mkIM { im_Tos : string; im_Content : content; im_IsCard : bool }.
(** Source: modules/alarm/cron/model.go, type MailDto. *)
Record MailDto := mkMailDto {
  md_Priority : Z; md_Metric : string; md_Subject : string; md_Content : string; md_Email : string; md_Status : string }.
(** Source: modules/alarm/cron/model.go, type SmsDto. *)
Record SmsDto := mkSmsDto {
  sd_Priority : Z; sd_Metric : string; sd_Content : string; sd_Phone : string; sd_Status : string }.
(** Source: modules/alarm/cron/model.go, type ImDto. *)
Record ImDto := mkImDto {
  id_Priority : Z; id_Metric : string; id_Content : string; id_IM : string; id_Name : string; id_Status : string;
  id_LarkCardContent : content }.

(** Source: modules/alarm/api/portal.go, type Action. *)
Record Action := mkAction {
  ac_Id : Z; ac_Uic : string; ac_LarkGroupId : string; ac_Url : string; ac_Callback : Z;
  ac_BeforeCallbackSms : Z; ac_BeforeCallbackMail : Z; ac_AfterCallbackSms : Z; ac_AfterCallbackMail : Z }.
(** Source: modules/api/app/model/uic/user.go, type User. *)
Record User := mkUser {
  u_ID : Z; u_Name : string; u_Cnname : string; u_Passwd : string; u_Email : string; u_Phone : string;
  u_IM : string; u_QQ : string; u_Role : Z }.

(** What is under a key of [ActionsCache]: [GetAction] puts actions there, [GetAmsTag] texts. *)
Inductive cached := CAction (a : Action) | CText (t : string).
(** The time to live of the caches, half an hour, in nanoseconds. *)
Definition CacheTTl : Z := 30 * 60 * 10 ^ 9.

(** * State *)

Section Alarm.
Context {R : Type -> Type} `{RedisList R}.

(** The lists of redis, the memory of what is blocked
    ([BlockMonitorCounter]) and the cache of actions. *)
Record AlarmState := mkAlarm {
  q_sms : R Sms; q_im : R IM; q_mail : R Mail; q_phone : R Sms; q_failed_im : R IM; q_finally_failed_im : R IM;
  q_user_sms : R SmsDto; q_user_mail : R MailDto; q_user_im : R ImDto;
  BlockMonitorCounter : gmap string string; ActionsCache : Ttl cached }.
Notation A := (M AlarmState).

(** A redis list, by where it is in the state. *)
Record queue (T : Type) := mkQ { q_get : AlarmState -> R T; q_set : R T -> AlarmState -> AlarmState }.
Arguments mkQ {T}.
Arguments q_get {T}.
Arguments q_set {T}.

(** The names of [modules/alarm/redi/msg_reader.go] and of the configuration. *)
Definition SMS_QUEUE_NAME : queue Sms := mkQ q_sms (fun r '(mkAlarm _ b c d e f g h i j k) => mkAlarm r b c d e f g h i j k).
Definition IM_QUEUE_NAME : queue IM := mkQ q_im (fun r '(mkAlarm a _ c d e f g h i j k) => mkAlarm a r c d e f g h i j k).
Definition MAIL_QUEUE_NAME : queue Mail := mkQ q_mail (fun r '(mkAlarm a b _ d e f g h i j k) => mkAlarm a b r d e f g h i j k).
Definition PHONE_QUEUE_NAME : queue Sms := mkQ q_phone (fun r '(mkAlarm a b c _ e f g h i j k) => mkAlarm a b c r e f g h i j k).
Definition FAILED_IM_QUEUE_NAME : queue IM := mkQ q_failed_im (fun r '(mkAlarm a b c d _ f g h i j k) => mkAlarm a b c d r f g h i j k).
Definition FINALLY_FAILED_IM_QUEUE_NAME : queue IM := mkQ q_finally_failed_im (fun r '(mkAlarm a b c d e _ g h i j k) => mkAlarm a b c d e r g h i j k).
Definition UserSmsQueue : queue SmsDto := mkQ q_user_sms (fun r '(mkAlarm a b c d e f _ h i j k) => mkAlarm a b c d e f r h i j k).
Definition UserMailQueue : queue MailDto := mkQ q_user_mail (fun r '(mkAlarm a b c d e f g _ i j k) => mkAlarm a b c d e f g r i j k).
Definition UserIMQueue : queue ImDto := mkQ q_user_im (fun r '(mkAlarm a b c d e f g h _ j k) => mkAlarm a b c d e f g h r j k).
Definition set_blocks (v : gmap string string) (s : AlarmState) : AlarmState :=
  mkAlarm (q_sms s) (q_im s) (q_mail s) (q_phone s) (q_failed_im s) (q_finally_failed_im s) (q_user_sms s) (q_user_mail s) (q_user_im s) v (ActionsCache s).
Definition set_actions (v : Ttl cached) (s : AlarmState) : AlarmState :=
  mkAlarm (q_sms s) (q_im s) (q_mail s) (q_phone s) (q_failed_im s) (q_finally_failed_im s) (q_user_sms s) (q_user_mail s) (q_user_im s) (BlockMonitorCounter s) v.

(** * Writing and reading the lists *)

(** Source: modules/alarm/redi/msg_writer.go, lpush. A failure is logged and the message is gone. *)
Definition lpush {T} (q : queue T) (message : T) : A unit :=
  modify (fun s => match LPUSH (Obj message) (q_get q s) with Some r => q_set q r s | None => s end).

(** Source: modules/alarm/redi/msg_writer.go, WriteSmsModel. *)
Definition WriteSmsModel (sms : Sms) : A unit := lpush SMS_QUEUE_NAME sms.
(** Source: modules/alarm/redi/msg_writer.go, WriteIMModel. *)
Definition WriteIMModel (im : IM) (q : queue IM) : A unit := lpush q im.
(** Source: modules/alarm/redi/msg_writer.go, WriteMailModel. *)
Definition WriteMailModel (mail : Mail) : A unit := lpush MAIL_QUEUE_NAME mail.
(** Source: modules/alarm/redi/msg_writer.go, WritePhoneModel. *)
Definition WritePhoneModel (phone : Sms) : A unit := lpush PHONE_QUEUE_NAME phone.

(** Source: modules/alarm/redi/msg_writer.go, WriteSms. *)
Definition WriteSms (tos : list string) (content : string) : A unit :=
  match tos with [] => skip | _ => WriteSmsModel (mkSms (join "," tos) content) end.
(** Source: modules/alarm/redi/msg_writer.go, WriteIM. *)
Definition WriteIM (tos : list string) (content : string) : A unit :=
  match tos with [] => skip | _ => WriteIMModel (mkIM (join "," tos) (Plain content) false) IM_QUEUE_NAME end.
(** Source: modules/alarm/redi/msg_writer.go, WriteMail. *)
Definition WriteMail (tos : list string) (subject content : string) : A unit :=
  match tos with [] => skip | _ => WriteMailModel (mkMail (join "," tos) subject content) end.
(** Source: modules/alarm/redi/msg_writer.go, WritePhone. *)
Definition WritePhone (tos : list string) (content : string) : A unit :=
  match tos with [] => skip | _ => WritePhoneModel (mkSms (join "," tos) content) end.

(** The loop of [PopAllSms] and its kin: pop until redis gives nothing, and
    keep what parses. *)
Fixpoint pop_all {T} (fuel : nat) (q : queue T) : A (list T) :=
  match fuel with
  | O => ret []
  | S fuel =>
      do! r := gets (fun s => RPOP (q_get q s)) in
      do! _ := modify (q_set q (snd r)) in
      match fst r with
      | None => ret []
      | Some (Obj a) => do! l := pop_all fuel q in ret (a :: l)
      | Some (Text _) => pop_all fuel q
      end
  end.
(** One more round than the list has entries. *)
Definition pop_all_of {T} (q : queue T) : A (list T) :=
  do! n := gets (fun s => length (view (q_get q s))) in pop_all (S n) q.

(** Source: modules/alarm/redi/msg_reader.go, PopAllSms. *)
Definition PopAllSms : A (list Sms) := pop_all_of SMS_QUEUE_NAME.
(** Source: modules/alarm/redi/msg_reader.go, PopAllPhone. *)
Definition PopAllPhone : A (list Sms) := pop_all_of PHONE_QUEUE_NAME.
(** Source: modules/alarm/redi/msg_reader.go, PopAllIM. *)
Definition PopAllIM (q : queue IM) : A (list IM) := pop_all_of q.
(** Source: modules/alarm/redi/msg_reader.go, PopAllMail. *)
Definition PopAllMail : A (list Mail) := pop_all_of MAIL_QUEUE_NAME.
(** Source: modules/alarm/cron/combiner.go, popAllSmsDto. *)
Definition popAllSmsDto : A (list SmsDto) := pop_all_of UserSmsQueue.
(** Source: modules/alarm/cron/combiner.go, popAllMailDto. *)
Definition popAllMailDto : A (list MailDto) := pop_all_of UserMailQueue.
(** Source: modules/alarm/cron/combiner.go, popAllImDto. *)
Definition popAllImDto : A (list ImDto) := pop_all_of UserIMQueue.

(** * What the service asks the others *)

(** The clock of the caches, in nanoseconds, which does not move while an event
    is handled, the time zone, the address of the dashboard, the answers of the API for
    the members of a team, an action and the groups of an endpoint under a
    template ([None]: an error, which is retried), the tags of a host, the
    answer of a callback ([inr]: its error), and the order of a map's walk. *)
Context (now : Z) (zone : Z -> Z) (Dashboard : string).
Context (http_team : string -> nat -> option (list User)) (http_action : Z -> nat -> option Action)
  (http_tplgrp : Z -> string -> nat -> option (list string)) (getAmsTag : string -> nat -> string)
  (http_get : string -> list (string * string) -> string + string)
  (walk : forall T, gmap string T -> list (string * T)).

(** The loops that try [n] times, from the [i]-th on. *)
Fixpoint retry {T} (f : nat -> option T) (n i : nat) : option T :=
  match n with
  | O => None
  | S n => match f i with Some r => Some r | None => retry f n (S i) end
  end.

(** Source: modules/alarm/api/uic.go, HttpCurlUic. *)
Definition HttpCurlUic (team : string) : option (list User) :=
  if is_empty team then Some [] else retry (http_team team) 3 0.
(** Source: modules/alarm/api/uic.go, UsersOf. The answers are those of the cache or of the API. *)
Definition UsersOf (team : string) : option (list User) := HttpCurlUic team.
(** Source: modules/alarm/api/uic.go, GetUsers. *)
Definition GetUsers (teams : string) : gmap string User :=
  fold_left (fun userMap team =>
    if is_empty team then userMap
    else match UsersOf team with
         | None => userMap
         | Some users => fold_left (fun userMap user => <[u_Name user := user]> userMap) users userMap
         end) (split teams ",") ∅.
(** The slice of a [set.StringSet]. *)
Definition to_slice (l : list string) : list string := (walk unit (list_to_map (map (fun x => (x, tt)) l))).*1.
(** Source: modules/alarm/api/uic.go, ParseTeams. *)
Definition ParseTeams (teams : string) : list string * list string :=
  if is_empty teams then ([], [])
  else
    let names := map (fun p => u_Name p.2) (walk User (GetUsers teams)) in
    (to_slice names, to_slice (map (fun n => n ++s BYTEMAIL) names)).

(** Source: modules/alarm/api/portal.go, HttpGetAction. *)
Definition HttpGetAction (id : Z) : option Action := retry (http_action id) 3 0.
(** Source: modules/alarm/api/portal.go, CurlAction. *)
Definition CurlAction (id : Z) : option Action := if (id <=? 0)%Z then None else HttpGetAction id.
(** Source: modules/alarm/api/portal.go, GetAction. What is in the cache is taken for an action. *)
Definition GetAction (id : Z) : A (option Action) :=
  do! hit := gets (fun s => cache_Get now (itoa id) (ActionsCache s)) in
  match hit with
  | Some (CAction a) => ret (Some a)
  | Some (CText _) => lift (Panic TypeAssertion)
  | None =>
      match CurlAction id with
      | None => ret None
      | Some action =>
          do! _ := modify (fun s => set_actions (cache_Set now CacheTTl (itoa id) (CAction action) (ActionsCache s)) s) in
          ret (Some action)
      end
  end.

(** Source: modules/alarm/api/portal.go, HttpGetEndpointTplGroups. The slice [tL] starts with one empty name per group. *)
Definition HttpGetEndpointTplGroups (tplId : Z) (endpoint : string) : string :=
  match retry (http_tplgrp tplId endpoint) 3 0 with
  | None => ""
  | Some [name] => name
  | Some names => join "," (replicate (length names) "" ++ names)%list
  end.
(** Source: modules/alarm/api/portal.go, GetEndpointTplGroups. The answers are those of the cache or of the API. *)
Definition GetEndpointTplGroups (tplId : Z) (endpoint : string) : string := HttpGetEndpointTplGroups tplId endpoint.
(** Source: modules/alarm/api/portal.go, HttpGetTag. *)
Definition HttpGetTag (endpoint : string) : string :=
  default "" (retry (fun i => let r := getAmsTag endpoint i in if is_empty r then None else Some r) 3 0).
(** Source: modules/alarm/api/portal.go, GetAmsTag. The cache that is looked at, [EndTagsCache], is never filled: what the service gives goes to that of the actions. *)
Definition GetAmsTag (endpoint : string) : A string :=
  let res := HttpGetTag endpoint in
  if is_empty res then ret ""
  else
    do! _ := modify (fun s => set_actions (cache_Set now CacheTTl endpoint (CText res) (ActionsCache s)) s) in
    ret res.

(** * The texts of an event *)

(** Source: modules/alarm/cron/builder.go, GenerateSmsContent. *)
Definition GenerateSmsContent (event : Event) (amstag grps : string) : A string :=
  do! actionId := lift (Event_ActionId event) in
  do! action := GetAction actionId in
  match action with
  | None => ret ""
  | Some action => lift (BuildCommonSMSContent zone event (ac_Uic action) amstag grps)
  end.
(** Source: modules/alarm/cron/builder.go, GenerateMailContent. *)
Definition GenerateMailContent (event : Event) (amstag grps : string) : A string :=
  do! actionId := lift (Event_ActionId event) in
  do! action := GetAction actionId in
  match action with
  | None => ret ""
  | Some action => lift (BuildCommonMailContent zone Dashboard event (ac_Uic action) amstag grps)
  end.
(** Source: modules/alarm/cron/builder.go, GenerateIMContent. *)
Definition GenerateIMContent (event : Event) : res string := BuildCommonIMContent zone event.
(** Source: modules/alarm/cron/builder.go, GeneratePhoneContent. *)
Definition GeneratePhoneContent (event : Event) : res string := BuildCommonPhoneContent event.

(** Source: modules/alarm/cron/builder.go, BuildLarkCardImContent. [None] is the nil map. *)
Definition BuildLarkCardImContent (userNames : list string) (event : Event) (amstag grps : string) : A (option (gmap string content)) :=
  do! actionId := lift (Event_ActionId event) in
  do! action := GetAction actionId in
  match action with
  | None => ret None
  | Some action => lift (
      let uic := ac_Uic action in
      let! link := Link Dashboard event in
      let! modLink := ModLink Dashboard event in
      let modUicLink := ModUicLink Dashboard uic in
      let! mc := Event_Metric event in
      let ec := ev_Endpoint event ++s "_" ++s mc in
      let! _ := AlarmIsUnionString event in
      let! m := fold_res (fun CardMap userName =>
        let isGroup := JudgeIsLongInt userName in
        let! text := card_text zone event uic amstag grps in
        let card := mkCard (if isGroup then Some userName else None) (if isGroup then None else Some (userName ++s BYTEMAIL))
                      text modUicLink link modLink userName ec mc in
        Ret (<[userName := ACard card]> CardMap)) ∅ userNames in
      Ret (Some m))
  end.

(** Source: modules/alarm/redi/msg_writer.go, WriteImCard. *)
Definition WriteImCard (conMap : gmap string content) : A unit :=
  forM (walk content conMap) (fun '(userMail, content) => WriteIMModel (mkIM userMail content true) IM_QUEUE_NAME).

(** * Who is told *)

(** Source: modules/alarm/cron/block.go, CommonFilterBlock. *)
Definition CommonFilterBlock (blocks : gmap string string) (event : Event) (userMap : gmap string User) : res (gmap string User) :=
  fold_res (fun NewMap '(userName, user) =>
    let! metric := Event_Metric event in
    let counter := ev_Endpoint event ++s "_" ++s metric in
    let euKey := BLOCK_MONITOR_KEY_PREFIX ++s userName ++s "_" ++s counter in
    let mUKey := BLOCK_MONITOR_KEY_PREFIX ++s userName ++s "_" ++s metric in
    match blocks !! euKey, blocks !! mUKey with
    | None, None => Ret (<[userName := user]> NewMap)
    | _, _ => Ret NewMap
    end) ∅ (walk User userMap).

(** The pseudo user of a Lark group. *)
Definition group_user (g : string) : User := mkUser 0 g "" "" "" g "" "" 0.

(** Source: modules/alarm/cron/event_consumer.go, GenerateUserMap. *)
Definition GenerateUserMap (event : Event) (action : Action) : A (gmap string User) :=
  do! blocks := gets BlockMonitorCounter in
  let userMap := GetUsers (ac_Uic action) in
  let userMap := if is_empty (ac_LarkGroupId action) then userMap
                 else <[ac_LarkGroupId action := group_user (ac_LarkGroupId action)]> userMap in
  lift (CommonFilterBlock blocks event userMap).

(** Source: modules/alarm/cron/event_consumer.go, LowLevelFilterBlock. *)
Definition LowLevelFilterBlock (blocks : gmap string string) (event : Event) (userMap : gmap string User) : res (gmap string User) :=
  fold_res (fun NewMap '(userName, user) =>
    let! metric := Event_Metric event in
    let counter := ev_Endpoint event ++s "_" ++s metric in
    let blockKey := BLOCK_MONITOR_KEY_PREFIX ++s userName ++s "_" ++s counter in
    match blocks !! blockKey with
    | None => Ret (<[userName := user]> NewMap)
    | Some _ => Ret NewMap
    end) ∅ (walk User userMap).

(** Source: modules/alarm/cron/get_block_monitor.go, GetBlockMonitors. [smembers] and [get] are what redis answers ([None]: an error of the set; a key that is gone or an error of [get] is an empty text). The items that leave the set are given back. *)
Definition GetBlockMonitors (smembers : option (list string)) (get : string -> string) : A (list string) :=
  match smembers with
  | None => ret []
  | Some reply =>
      foldM (fun removed item =>
        if is_empty (get item) then
          do! _ := modify (fun s => set_blocks (delete item (BlockMonitorCounter s)) s) in
          ret (removed ++ [item])%list
        else
          do! _ := modify (fun s => set_blocks (<[item := get item]> (BlockMonitorCounter s)) s) in
          ret removed) [] reply
  end.

(** * The events of high priority *)

(** Source: modules/alarm/cron/event_consumer.go, consumeHighEvents. *)
Definition consumeHighEvents (event : Event) (action : Action) (amstag grps : string) : A unit :=
  if is_empty (ac_Uic action) && is_empty (ac_LarkGroupId action) then skip
  else
    do! userMap := GenerateUserMap event action in
    let filterNames := (walk User userMap).*1 in
    let filterMails := map (fun k => k ++s BYTEMAIL) filterNames in
    do! smsContent := GenerateSmsContent event amstag grps in
    do! mailContent := GenerateMailContent event amstag grps in
    do! imCardContentMap := BuildLarkCardImContent filterNames event amstag grps in
    do! phoneContent := lift (GeneratePhoneContent event) in
    do! priority := lift (Event_Priority event) in
    do! _ := (if (priority <? 3)%Z then WriteSms filterNames smsContent else skip) in
    do! _ := (if (priority =? 9)%Z then
                do! _ := WriteSms filterNames smsContent in
                if String.eqb (ev_Status event) "PROBLEM" then WritePhone filterNames phoneContent else skip
              else skip) in
    do! _ := (match imCardContentMap with Some m => WriteImCard m | None => skip end) in
    WriteMail filterMails smsContent mailContent.

(** * The events of low priority *)

(** Source: modules/alarm/cron/event_consumer.go, ParseUserSms. *)
Definition ParseUserSms (event : Event) (action : Action) (amstag grps : string) : A unit :=
  do! userMap := GenerateUserMap event action in
  do! content := GenerateSmsContent event amstag grps in
  do! metric := lift (Event_Metric event) in
  do! priority := lift (Event_Priority event) in
  forM (walk User userMap) (fun '(_, user) =>
    lpush UserSmsQueue (mkSmsDto priority metric content (u_Name user) (ev_Status event))).

(** Source: modules/alarm/cron/event_consumer.go, ParseUserMail. *)
Definition ParseUserMail (event : Event) (action : Action) (amstag grps : string) : A unit :=
  do! userMap := GenerateUserMap event action in
  do! metric := lift (Event_Metric event) in
  do! subject := GenerateSmsContent event amstag grps in
  do! content := GenerateMailContent event amstag grps in
  do! priority := lift (Event_Priority event) in
  forM (walk User userMap) (fun '(_, user) =>
    lpush UserMailQueue (mkMailDto priority metric subject content (u_Email user) (ev_Status event))).

(** Source: modules/alarm/cron/event_consumer.go, ParseUserIm. *)
Definition ParseUserIm (event : Event) (action : Action) (amstag grps : string) : A unit :=
  do! userMap := GenerateUserMap event action in
  do! commonContent := GenerateMailContent event amstag grps in
  do! metric := lift (Event_Metric event) in
  do! priority := lift (Event_Priority event) in
  forM (walk User userMap) (fun '(userName, user) =>
    do! cards := BuildLarkCardImContent [userName] event amstag grps in
    let thisUserImContent := default (Plain "") (m ← cards; m !! userName) in
    lpush UserIMQueue (mkImDto priority metric commonContent (u_Name user) (u_Name user) (ev_Status event) thisUserImContent)).

(** Source: modules/alarm/cron/event_consumer.go, consumeLowEvents. *)
Definition consumeLowEvents (event : Event) (action : Action) (amstag grps : string) : A unit :=
  if is_empty (ac_Uic action) && is_empty (ac_LarkGroupId action) then skip
  else
    do! priority := lift (Event_Priority event) in
    do! _ := (if (priority <? 3)%Z then ParseUserSms event action amstag grps else skip) in
    do! _ := ParseUserIm event action amstag grps in
    ParseUserMail event action amstag grps.

(** * Callbacks *)

(** Source: modules/alarm/cron/callback.go, Callback. *)
Definition Callback (event : Event) (action : Action) (grps : string) : res string :=
  if is_empty (ac_Url action) then Ret "callback url is blank"
  else
    let L := map (fun '(k, v) => k ++s ":" ++s v) (walk string (ev_PushedTags event)) in
    let tags := join "," L in
    let! metric := Event_Metric event in
    let! priority := Event_Priority event in
    let! tpl_id := Event_TplId event in
    let! note := Event_Note event in
    let params :=
      [("endpoint", ev_Endpoint event); ("metric", metric); ("status", ev_Status event); ("step", itoa (ev_CurrentStep event));
       ("priority", itoa priority); ("time", Event_FormattedTime zone event); ("tpl_id", itoa tpl_id);
       ("exp_id", itoa (Event_ExpressionId event)); ("stra_id", itoa (Event_StrategyId event));
       ("left_value", ReadableFloat (ev_LeftValue event)); ("grps", grps); ("tags", tags); ("note", note)] in
    let '(success, resp) := match http_get (ac_Url action) params with
                            | inl resp => ("success", resp)
                            | inr e => ("fail:" ++s e, "")
                            end in
    Ret ("curl " ++s ac_Url action ++s " " ++s success ++s ". resp: " ++s resp).

(** Source: modules/alarm/cron/callback.go, HandleCallback. *)
Definition HandleCallback (event : Event) (action : Action) (amstag grps : string) : A unit :=
  let teams := ac_Uic action in
  let '(userNames, mails) := if is_empty teams then ([], []) else ParseTeams teams in
  do! _ := (if is_empty teams then skip
            else
              do! smsContent := GenerateSmsContent event amstag grps in
              do! mailContent := GenerateMailContent event amstag grps in
              do! imContent := lift (GenerateIMContent event) in
              do! _ := (if (ac_BeforeCallbackSms action =? 1)%Z then
                          do! _ := WriteSms userNames smsContent in WriteIM userNames imContent
                        else skip) in
              if (ac_BeforeCallbackMail action =? 1)%Z then WriteMail mails smsContent mailContent else skip) in
  do! message := lift (Callback event action grps) in
  if is_empty teams then skip
  else
    do! _ := (if (ac_AfterCallbackSms action =? 1)%Z then
                do! _ := WriteSms userNames message in WriteIM userNames message
              else skip) in
    if (ac_AfterCallbackMail action =? 1)%Z then WriteMail mails message message else skip.

(** Source: modules/alarm/cron/event_consumer.go, consume. *)
Definition consume (event : Event) (isHigh : bool) : A unit :=
  do! actionId := lift (Event_ActionId event) in
  if (actionId <=? 0)%Z then skip
  else
    do! action := GetAction actionId in
    match action with
    | None => skip
    | Some action =>
        do! tplId := lift (Event_TplId event) in
        let groups := GetEndpointTplGroups tplId (ev_Endpoint event) in
        do! amstag := GetAmsTag (ev_Endpoint event) in
        do! _ := (if (ac_Callback action =? 1)%Z then HandleCallback event action amstag groups else skip) in
        if isHigh then consumeHighEvents event action amstag groups else consumeLowEvents event action amstag groups
    end.

(** * Merging the messages of low priority *)

(** The loop that files the messages under a key, in the order they came. *)
Definition file {T} (key : T -> string) (m : gmap string (list T)) (d : T) : gmap string (list T) :=
  match m !! key d with
  | Some arr => <[key d := (arr ++ [d])%list]> m
  | None => <[key d := [d]]> m
  end.
Definition file_all {T} (key : T -> string) (dtos : list T) : gmap string (list T) := fold_left (file key) dtos ∅.

(** Source: modules/alarm/cron/combiner.go, lines 63-71. The key of a mail. Symbol: combineMail. *)
Definition mail_key (d : MailDto) : string := itoa (md_Priority d) ++s md_Status d ++s md_Email d ++s md_Metric d.
(** Source: modules/alarm/cron/combiner.go, lines 101-110. The key of an instant message. Symbol: combineIM. *)
Definition im_key (d : ImDto) : string := itoa (id_Priority d) ++s id_Status d ++s id_IM d ++s id_Metric d.
(** Source: modules/alarm/cron/combiner.go, lines 166-174. The key of an sms. Symbol: combineSms. *)
Definition sms_key (d : SmsDto) : string := itoa (sd_Priority d) ++s sd_Status d ++s sd_Phone d ++s sd_Metric d.

(** Source: modules/alarm/cron/combiner.go, combineMail. *)
Definition combineMail : A unit :=
  do! dtos := popAllMailDto in
  if (length dtos =? 0)%nat then skip
  else
    forM (walk (list MailDto) (file_all mail_key dtos)) (fun '(_, arr) =>
      let size := Z.of_nat (length arr) in
      do! d := lift (at_index arr 0) in
      if (size =? 1)%Z then WriteMail [md_Email d] (md_Subject d) (md_Content d)
      else
        let subject := "[P" ++s itoa (md_Priority d) ++s "][" ++s md_Status d ++s "] " ++s itoa size ++s " " ++s md_Metric d in
        let content := join crlf (map md_Content arr) in
        WriteMail [md_Email d] subject content).

(** What the API answers to a new link: the path, a body that is not JSON,
    or nothing at all. *)
Inductive link_answer := LinkPath (path : string) | LinkGarbled | LinkUnreachable.
Context (http_link : string -> nat -> link_answer) (link_fuel : nat).

(** Source: modules/alarm/api/links.go, HttpLink. The loop: only an answer that does not parse counts as a try. [None]: still trying after [fuel] requests; [Some None]: the error. *)
Fixpoint HttpLink (fuel : nat) (content : string) (p i : nat) : option (option string) :=
  if (3 <=? p)%nat then Some None
  else
    match fuel with
    | O => None
    | S fuel =>
        match http_link content i with
        | LinkPath path => Some (Some path)
        | LinkGarbled => HttpLink fuel content (S p) (S i)
        | LinkUnreachable => HttpLink fuel content p (S i)
        end
    end.
(** Source: modules/alarm/api/links.go, LinkToSMS. *)
Definition LinkToSMS (content : string) : option (option string) := HttpLink link_fuel content 0 0.

(** The example of a text: what stands between its second and third brackets. *)
Definition example_of (first : string) : string :=
  let t := split first "][" in if (3 <=? length t)%nat then default "" (t !! 2) else "".

(** The summary that stands for several messages. *)
Definition summary (prio : Z) (status metric eg : string) (size : Z) (link : option string) : string :=
  match link with
  | Some path =>
      if is_empty path
      then "[P" ++s itoa prio ++s "][" ++s status ++s "] " ++s itoa size ++s " " ++s metric ++s ".  e.g. " ++s eg ++s ". detail in email"
      else "[P" ++s itoa prio ++s "][" ++s status ++s "] " ++s itoa size ++s " " ++s metric ++s " e.g. " ++s eg ++s " " ++s
           Dashboard ++s "/portal/links/" ++s path ++s " "
  | None => "[P" ++s itoa prio ++s "][" ++s status ++s "] " ++s itoa size ++s " " ++s metric ++s ".  e.g. " ++s eg ++s ". detail in email"
  end.

(** Source: modules/alarm/cron/combiner.go, combineIM. [false] when a link is still being asked for. *)
Definition combineIM : A bool :=
  do! dtos := popAllImDto in
  if (length dtos =? 0)%nat then ret true
  else
    foldM (fun (on : bool) '(_, arr) =>
      if negb on then ret false
      else
        let size := Z.of_nat (length arr) in
        do! d := lift (at_index arr 0) in
        if (size =? 1)%Z then
          do! _ := WriteImCard {[id_IM d := id_LarkCardContent d]} in ret true
        else
          let content := join ",," (map id_Content arr) in
          let eg := example_of (id_Content d) in
          match LinkToSMS content with
          | None => ret false
          | Some link =>
              do! _ := WriteIM [id_IM d] (summary (id_Priority d) (id_Status d) (id_Metric d) eg size link) in ret true
          end) true (walk (list ImDto) (file_all im_key dtos)).

(** Source: modules/alarm/cron/combiner.go, combineSms. [false] when a link is still being asked for. *)
Definition combineSms : A bool :=
  do! dtos := popAllSmsDto in
  if (length dtos =? 0)%nat then ret true
  else
    foldM (fun (on : bool) '(_, arr) =>
      if negb on then ret false
      else
        let size := Z.of_nat (length arr) in
        do! d := lift (at_index arr 0) in
        if (size =? 1)%Z then do! _ := WriteSms [sd_Phone d] (sd_Content d) in ret true
        else
          let content := join ",," (map sd_Content arr) in
          let eg := example_of (sd_Content d) in
          match LinkToSMS content with
          | None => ret false
          | Some link =>
              do! _ := WriteSms [sd_Phone d] (summary (sd_Priority d) (sd_Status d) (sd_Metric d) eg size link) in ret true
          end) true (walk (list SmsDto) (file_all sms_key dtos)).

(** * Sending *)

(** Whether the message services take a message at its [i]-th try, and the
    token of a robot. *)
Context (sms_api : string -> string -> nat -> bool) (mail_api : Mail -> bool) (phone_api : string -> string -> nat -> bool)
  (bot : bool -> content -> string -> string -> nat -> bool) (robot_token : string -> string -> string).
Context (LarkBotTokens : list string) (AlarmRetryTimes : Z).

(** Source: modules/alarm/cron/sms_sender.go, HttpSendSms. *)
Definition HttpSendSms (sms : Sms) (i : nat) : bool :=
  if is_empty (sms_Tos sms) then false else sms_api (sms_Tos sms) (sms_Content sms) i.
(** Source: modules/alarm/cron/sms_sender.go, SendSms. Whether it was taken. *)
Definition SendSms (sms : Sms) : bool := match retry (fun i => if HttpSendSms sms i then Some tt else None) 3 0 with Some _ => true | None => false end.
(** Source: modules/alarm/cron/mail_sender.go, SendMail. Whether it was taken. *)
Definition SendMail (mail : Mail) : bool := if is_empty (mail_Tos mail) then false else mail_api mail.
(** Source: modules/alarm/cron/phone_sender.go, SendPhone. Who was called. *)
Definition SendPhone (sms : Sms) : list (string * bool) :=
  map (fun user => (user, match retry (fun i => if phone_api user (sms_Content sms) i then Some tt else None) 3 0 with Some _ => true | None => false end))
    (split (sms_Tos sms) ",").

(** Source: modules/alarm/cron/im_sender.go, GetTokenFromCache. [robot_token] is the cache or the service of tokens. *)
Definition GetTokenFromCache (token : string) : res string :=
  let parts := split token "," in
  let! app_id := at_index parts 0 in
  let! app_secret := at_index parts 1 in
  Ret (robot_token app_id app_secret).

(** The tokens one after the other until a robot takes the message. *)
Fixpoint try_tokens (im : IM) (user : string) (tokens : list string) (i : nat) : res bool :=
  match tokens with
  | [] => Ret false
  | token :: tokens =>
      let! realToken := GetTokenFromCache token in
      if bot (im_IsCard im) (im_Content im) (CompressStr user) realToken i then Ret true else try_tokens im user tokens (S i)
  end.

(** Source: modules/alarm/cron/im_sender.go, SendIM. The users whose message a robot took. *)
Definition SendIM (im : IM) (q : queue IM) : A (list string) :=
  if is_empty (im_Tos im) then ret []
  else
    let larkTokens := concat (replicate (Z.to_nat AlarmRetryTimes) LarkBotTokens) in
    foldM (fun taken user =>
      do! thisSucc := lift (try_tokens im user larkTokens 0) in
      if (thisSucc : bool) then ret (taken ++ [user])%list
      else do! _ := WriteIMModel (mkIM user (im_Content im) false) q in ret taken) [] (split (im_Tos im) ",").

(** The lists are sent one message after the other; the result is what the
    robots took, by user. *)
(** Source: modules/alarm/cron/im_sender.go, SendIMList. *)
Definition SendIMList (L : list IM) : A (list (string * content)) :=
  foldM (fun acc im => do! taken := SendIM im FAILED_IM_QUEUE_NAME in ret (acc ++ map (fun u => (u, im_Content im)) taken)%list) [] L.
(** Source: modules/alarm/cron/im_sender.go, SendFailedIMList. *)
Definition SendFailedIMList (L : list IM) : A (list (string * content)) :=
  foldM (fun acc im => do! taken := SendIM im FINALLY_FAILED_IM_QUEUE_NAME in ret (acc ++ map (fun u => (u, im_Content im)) taken)%list) [] L.
(** Source: modules/alarm/cron/im_sender.go, ConsumeIM. One round of the loop. *)
Definition ConsumeIM : A (list (string * content)) := do! L := PopAllIM IM_QUEUE_NAME in SendIMList L.
(** Source: modules/alarm/cron/im_sender.go, ConsumeFailedIM. One round of the loop. *)
Definition ConsumeFailedIM : A (list (string * content)) := do! L := PopAllIM FAILED_IM_QUEUE_NAME in SendFailedIMList L.
End Alarm.
Arguments mkQ {R T}.
Arguments q_get {R T}.
Arguments q_set {R T}.
Notation A R := (M (AlarmState (R := R))).
