(* ===== verification/AlarmThms.v ===== *)
(** What the alarm service guarantees: an event reaches, on each channel its
    priority calls for, the people of its action who did not block it, and
    nobody else; the combiner puts every waiting message in exactly one
    message to the first of its group; a message no robot takes goes back to
    a list. *)
From S2P Require Export Alarm.
From Stdlib Require Import Ascii.
Local Open Scope string_scope.
Local Open Scope list_scope.

#[local] Set Default Proof Using "Type*".

Section AlarmThms.
Context {R : Type -> Type} {redis : RedisList R} {laws : RedisListLaws R}.
Local Notation State := (AlarmState (R := R)).

(** * What is added to the lists *)

(** Messages, list by list, the newest first. *)
Record outbox := mkOut {
  o_sms : list Sms; o_im : list IM; o_mail : list Mail; o_phone : list Sms; o_failed_im : list IM; o_finally_failed_im : list IM;
  o_user_sms : list SmsDto; o_user_mail : list MailDto; o_user_im : list ImDto }.
Definition nothing : outbox := mkOut [] [] [] [] [] [] [] [] [].
(** [b] after [a]. *)
Definition also (a b : outbox) : outbox :=
  mkOut (o_sms b ++ o_sms a) (o_im b ++ o_im a) (o_mail b ++ o_mail a) (o_phone b ++ o_phone a)
    (o_failed_im b ++ o_failed_im a) (o_finally_failed_im b ++ o_finally_failed_im a)
    (o_user_sms b ++ o_user_sms a) (o_user_mail b ++ o_user_mail a) (o_user_im b ++ o_user_im a).

Definition all_alive (s : State) : Prop :=
  alive (q_sms s) /\ alive (q_im s) /\ alive (q_mail s) /\ alive (q_phone s) /\ alive (q_failed_im s) /\
  alive (q_finally_failed_im s) /\ alive (q_user_sms s) /\ alive (q_user_mail s) /\ alive (q_user_im s).

Definition put {T} (new : list T) (r r' : R T) : Prop := view r' = map Obj new ++ view r.

(** What a process keeps: who blocks what, and the cache of actions. *)
Definition memory : Type := gmap string string * Ttl cached.
Definition memory_of (s : State) : memory := (BlockMonitorCounter s, ActionsCache s).

(** [s'] is [s] with the messages of [a] in the lists. *)
Definition grown (s s' : State) (a : outbox) : Prop :=
  all_alive s' /\ memory_of s' = memory_of s /\
  put (o_sms a) (q_sms s) (q_sms s') /\ put (o_im a) (q_im s) (q_im s') /\ put (o_mail a) (q_mail s) (q_mail s') /\
  put (o_phone a) (q_phone s) (q_phone s') /\ put (o_failed_im a) (q_failed_im s) (q_failed_im s') /\
  put (o_finally_failed_im a) (q_finally_failed_im s) (q_finally_failed_im s') /\
  put (o_user_sms a) (q_user_sms s) (q_user_sms s') /\ put (o_user_mail a) (q_user_mail s) (q_user_mail s') /\
  put (o_user_im a) (q_user_im s) (q_user_im s').

Lemma put_nil {T} (r : R T) : put [] r r.
Proof. done. Qed.
Lemma put_trans {T} (a b : list T) r1 r2 r3 : put a r1 r2 -> put b r2 r3 -> put (b ++ a) r1 r3.
Proof. unfold put. intros E1 E2. by rewrite E2, E1, map_app, app_assoc. Qed.
Lemma grown_refl s : all_alive s -> grown s s nothing.
Proof. intros. repeat (split; [done|]). apply put_nil. Qed.
Lemma grown_trans s1 s2 s3 a b : grown s1 s2 a -> grown s2 s3 b -> grown s1 s3 (also a b).
Proof.
  intros (_ & B1 & ?&?&?&?&?&?&?&?&?) (Ha & B2 & ?&?&?&?&?&?&?&?&?).
  split; [done|]. split; [congruence|]. repeat split; eapply put_trans; done.
Qed.

(** From a state of a redis that answers, with the memory [B], which stays as
    it is, [m] returns [x] and adds [a]. *)
Definition adds {X} (B : memory) (m : A R X) (x : X) (a : outbox) : Prop :=
  forall s, all_alive s -> memory_of s = B -> exists s', m s = Ret (x, s') /\ grown s s' a.

Lemma adds_ret {X} B (x : X) : adds B (ret x) x nothing.
Proof. intros s Hs _. exists s. split; [done|by apply grown_refl]. Qed.
Lemma adds_gets_blocks B : adds B (gets BlockMonitorCounter) B.1 nothing.
Proof. intros s Hs <-. exists s. split; [done|by apply grown_refl]. Qed.
Lemma adds_lift {X} B (r : res X) x : r = Ret x -> adds B (lift r) x nothing.
Proof. intros -> s Hs _. exists s. split; [done|by apply grown_refl]. Qed.
Lemma adds_then {X Y} B (m : A R X) (k : X -> A R Y) x y a b :
  adds B m x a -> adds B (k x) y b -> adds B (mthen m k) y (also a b).
Proof.
  intros Hm Hk s Hs HB. destruct (Hm s Hs HB) as (s1 & E1 & G1). rewrite (mthen_run _ _ _ _ _ E1).
  pose proof G1 as (Ha & HB1 & _). destruct (Hk s1 Ha) as (s2 & E2 & G2); [congruence|].
  exists s2. split; [done|by eapply grown_trans].
Qed.
Lemma also_nothing_l a : also nothing a = a.
Proof. destruct a; unfold also; cbn. by rewrite !app_nil_r. Qed.
Lemma also_nothing_r a : also a nothing = a.
Proof. by destruct a. Qed.
(** A statement that only reads. *)
Lemma adds_read {X Y} B (m : A R X) (k : X -> A R Y) x y b :
  adds B m x nothing -> adds B (k x) y b -> adds B (mthen m k) y b.
Proof. intros Hm Hk. rewrite <- (also_nothing_l b). by eapply adds_then. Qed.
Lemma adds_if {X} B (c : bool) (m m' : A R X) x a a' :
  adds B m x a -> adds B m' x a' -> adds B (if c then m else m') x (if c then a else a').
Proof. by destruct c. Qed.

(** The messages of a loop. *)
Definition all_of {T} (f : T -> outbox) (l : list T) : outbox := fold_left (fun o t => also o (f t)) l nothing.
Lemma also_assoc a b c : also (also a b) c = also a (also b c).
Proof. unfold also; cbn. by rewrite <- !app_assoc. Qed.
Lemma all_of_acc {T} (f : T -> outbox) l o : fold_left (fun o t => also o (f t)) l o = also o (all_of f l).
Proof.
  unfold all_of. revert o; induction l as [|t l IH]; intros o; cbn [fold_left]; [by rewrite also_nothing_r|].
  rewrite IH, (IH (also nothing (f t))), also_nothing_l. apply also_assoc.
Qed.
Lemma all_of_cons {T} (f : T -> outbox) t l : all_of f (t :: l) = also (f t) (all_of f l).
Proof. unfold all_of at 1. cbn [fold_left]. by rewrite all_of_acc, also_nothing_l. Qed.
Lemma adds_forM {T} B (l : list T) (body : T -> A R unit) (f : T -> outbox) :
  (forall t, t ∈ l -> adds B (body t) tt (f t)) -> adds B (forM l body) tt (all_of f l).
Proof.
  induction l as [|t l IH]; intros Hb; cbn [forM]; [apply adds_ret|].
  rewrite all_of_cons. eapply adds_then; [apply Hb; by left|]. apply IH. intros. apply Hb. by right.
Qed.

(** Each list of [all_of], for a loop that adds at most one message a turn. *)
Lemma all_of_list {T X} (proj : outbox -> list X) (f : T -> outbox) (g : T -> X) l :
  proj nothing = [] -> (forall a b, proj (also a b) = proj b ++ proj a) -> (forall t, t ∈ l -> proj (f t) = [g t]) ->
  proj (all_of f l) = rev (map g l).
Proof.
  intros H0 Ha Hf. induction l as [|t l IH]; [done|]. rewrite all_of_cons, Ha, IH by (intros; apply Hf; by right).
  cbn. f_equal. apply Hf. by left.
Qed.
Lemma all_of_none {T X} (proj : outbox -> list X) (f : T -> outbox) l :
  proj nothing = [] -> (forall a b, proj (also a b) = proj b ++ proj a) -> (forall t, proj (f t) = []) -> proj (all_of f l) = [].
Proof. intros H0 Ha Hf. induction l as [|t l IH]; [done|]. by rewrite all_of_cons, Ha, IH, Hf. Qed.

(** * One message *)

Definition one_sms m := mkOut [m] [] [] [] [] [] [] [] [].
Definition one_im m := mkOut [] [m] [] [] [] [] [] [] [].
Definition one_mail m := mkOut [] [] [m] [] [] [] [] [] [].
Definition one_phone m := mkOut [] [] [] [m] [] [] [] [] [].
Definition one_failed_im m := mkOut [] [] [] [] [m] [] [] [] [].
Definition one_finally_failed_im m := mkOut [] [] [] [] [] [m] [] [] [].
Definition one_user_sms m := mkOut [] [] [] [] [] [] [m] [] [].
Definition one_user_mail m := mkOut [] [] [] [] [] [] [] [m] [].
Definition one_user_im m := mkOut [] [] [] [] [] [] [] [] [m].

(** Push one message on a list of the state. *)
Ltac push_one :=
  intros [] (?&?&?&?&?&?&?&?&?) ?; cbn in *; unfold lpush, modify; cbn;
  match goal with |- context [LPUSH ?m ?r] =>
    let r' := fresh "r'" in let E := fresh "E" in let Ha := fresh "Ha" in
    destruct (LPUSH_alive _ m r) as (r' & E & Ha); [done|]; rewrite E; pose proof (LPUSH_view _ _ _ _ E)
  end;
  eexists; (split; [reflexivity|]); unfold grown, all_alive, put; cbn; split_and!; done.

Lemma adds_sms B m : adds B (lpush SMS_QUEUE_NAME m) tt (one_sms m). Proof. push_one. Qed.
Lemma adds_im B m : adds B (lpush IM_QUEUE_NAME m) tt (one_im m). Proof. push_one. Qed.
Lemma adds_mail B m : adds B (lpush MAIL_QUEUE_NAME m) tt (one_mail m). Proof. push_one. Qed.
Lemma adds_phone B m : adds B (lpush PHONE_QUEUE_NAME m) tt (one_phone m). Proof. push_one. Qed.
Lemma adds_failed_im B m : adds B (lpush FAILED_IM_QUEUE_NAME m) tt (one_failed_im m). Proof. push_one. Qed.
Lemma adds_finally_failed_im B m : adds B (lpush FINALLY_FAILED_IM_QUEUE_NAME m) tt (one_finally_failed_im m). Proof. push_one. Qed.
Lemma adds_user_sms B m : adds B (lpush UserSmsQueue m) tt (one_user_sms m). Proof. push_one. Qed.
Lemma adds_user_mail B m : adds B (lpush UserMailQueue m) tt (one_user_mail m). Proof. push_one. Qed.
Lemma adds_user_im B m : adds B (lpush UserIMQueue m) tt (one_user_im m). Proof. push_one. Qed.

Definition to_sms tos c : outbox := match tos with [] => nothing | _ => one_sms (mkSms (join "," tos) c) end.
Definition to_phone tos c : outbox := match tos with [] => nothing | _ => one_phone (mkSms (join "," tos) c) end.
Definition to_mail tos sub c : outbox := match tos with [] => nothing | _ => one_mail (mkMail (join "," tos) sub c) end.
Lemma adds_WriteSms B tos c : adds B (WriteSms tos c) tt (to_sms tos c).
Proof. destruct tos; [apply adds_ret|apply adds_sms]. Qed.
Lemma adds_WritePhone B tos c : adds B (WritePhone tos c) tt (to_phone tos c).
Proof. destruct tos; [apply adds_ret|apply adds_phone]. Qed.
Lemma adds_WriteMail B tos sub c : adds B (WriteMail tos sub c) tt (to_mail tos sub c).
Proof. destruct tos; [apply adds_ret|apply adds_mail]. Qed.

(** * Events that can be read *)

(** An event of a strategy with its template, as the judge sends them. *)
Definition readable (e : Event) : Prop :=
  exists st tpl, ev_Strategy e = Some st /\ st_Tpl st = Some tpl /\ Forall (fun c => is_Some (ev_Strategy c)) (ev_EventChain e).

(** A field of a readable event is there. *)
Ltac read_rule := unfold from_rule; match goal with E : ev_Strategy _ = Some _ |- _ => rewrite E end; by eexists.

Lemma Priority_readable e : readable e -> exists p, Event_Priority e = Ret p.
Proof. intros (st & tpl & E & _). unfold Event_Priority. read_rule. Qed.
Lemma Note_readable e : readable e -> exists p, Event_Note e = Ret p.
Proof. intros (st & tpl & E & _). unfold Event_Note. read_rule. Qed.
Lemma MaxStep_readable e : readable e -> exists p, Event_MaxStep e = Ret p.
Proof. intros (st & tpl & E & _). unfold Event_MaxStep. read_rule. Qed.
Lemma TplId_readable e : readable e -> exists p, Event_TplId e = Ret p.
Proof. intros (st & tpl & E & Et & _). unfold Event_TplId. rewrite E, Et. by eexists. Qed.
Lemma Metric_readable e : readable e -> exists p, Event_Metric e = Ret p.
Proof.
  intros (st & tpl & E & _ & Hc). unfold Event_Metric. rewrite E. rewrite Forall_forall in Hc.
  edestruct (fold_res_total (fun oS c => let! cs := deref (ev_Strategy c) in Ret (oS ++s "," ++s st_Metric cs))%string
    (fun _ => True) (ev_EventChain e)) as (p & Ep & _); [|done|by exists p].
  intros s c Hin _. destruct (Hc c Hin) as [cs ->]. by eexists.
Qed.
Lemma AlarmIsUnion_readable e : readable e -> exists p, AlarmIsUnionString e = Ret p.
Proof. intros (st & tpl & E & _). unfold AlarmIsUnionString. rewrite E. cbn. destruct (_ <? _)%Z; by eexists. Qed.
Lemma FormatOne_ret e : is_Some (ev_Strategy e) -> exists p, FormatOneFuncValue e = Ret p.
Proof. intros [st E]. unfold FormatOneFuncValue, Event_Func, Event_Operator, Event_RightValue, from_rule. rewrite E. by eexists. Qed.
Lemma UnionFunc_readable e : readable e -> exists p, UnionAlarmFormatFuncValue e = Ret p.
Proof.
  intros (st & tpl & E & _ & Hc). unfold UnionAlarmFormatFuncValue. rewrite Forall_forall in Hc.
  destruct (FormatOne_ret e) as [one ->]; [by rewrite E|]. cbn [rbind].
  edestruct (fold_res_total (fun one e => let! v := FormatOneFuncValue e in Ret (one ++s "," ++s v))%string
    (fun _ => True) (ev_EventChain e)) as (p & Ep & _); [|done|by exists p].
  intros s c Hin _. destruct (FormatOne_ret c (Hc c Hin)) as [v ->]. by eexists.
Qed.

Ltac readable_fields e :=
  match goal with He : readable e |- _ =>
    destruct (AlarmIsUnion_readable e He) as [?union ?Eunion]; destruct (Priority_readable e He) as [?prio ?Eprio];
    destruct (Metric_readable e He) as [?metric ?Emetric]; destruct (Note_readable e He) as [?note ?Enote];
    destruct (UnionFunc_readable e He) as [?func ?Efunc]; destruct (MaxStep_readable e He) as [?max ?Emax];
    destruct (TplId_readable e He) as [?tplid ?Etplid]
  end.
Ltac rewrite_fields :=
  repeat match goal with E : _ = Ret _ |- _ => rewrite E; clear E end; cbn [rbind].

Lemma Link_readable d e : readable e -> exists p, Link d e = Ret p.
Proof. intros He. readable_fields e. unfold Link. rewrite Etplid. cbn [rbind]. repeat destruct (negb _); by eexists. Qed.
Lemma ModLink_readable d e : readable e -> exists p, ModLink d e = Ret p.
Proof. intros He. readable_fields e. unfold ModLink. rewrite Etplid. cbn [rbind]. repeat destruct (negb _); by eexists. Qed.
Lemma SMS_readable zone e uic a g : readable e -> exists p, BuildCommonSMSContent zone e uic a g = Ret p.
Proof. intros He. readable_fields e. unfold BuildCommonSMSContent. rewrite_fields. by eexists. Qed.
Lemma Mail_readable zone d e uic a g : readable e -> exists p, BuildCommonMailContent zone d e uic a g = Ret p.
Proof.
  intros He. destruct (Link_readable d e He) as [l El]. readable_fields e. unfold BuildCommonMailContent. rewrite_fields. by eexists.
Qed.
Lemma Phone_readable e : readable e -> exists p, BuildCommonPhoneContent e = Ret p.
Proof. intros He. readable_fields e. unfold BuildCommonPhoneContent. rewrite_fields. by eexists. Qed.
Lemma card_readable zone e uic a g : readable e -> exists p, card_text zone e uic a g = Ret p.
Proof. intros He. readable_fields e. unfold card_text. rewrite_fields. by eexists. Qed.

(** * Who is told *)

#[local] Set Default Proof Using "Type".
Section Consume.
Context (now : Z) (zone : Z -> Z) (Dashboard : string).
Context (http_team : string -> nat -> option (list User)) (http_action : Z -> nat -> option Action)
  (http_tplgrp : Z -> string -> nat -> option (list string)) (getAmsTag : string -> nat -> string)
  (http_get : string -> list (string * string) -> string + string)
  (walk : forall T, gmap string T -> list (string * T)).
Hypothesis walk_perm : forall T (m : gmap string T), walk T m ≡ₚ map_to_list m.

Lemma walk_keys T (m : gmap string T) k : k ∈ (walk T m).*1 <-> is_Some (m !! k).
Proof using All.
  rewrite walk_perm, list_elem_of_fmap. split.
  - intros ([k' x] & -> & Hin). apply elem_of_map_to_list in Hin. by exists x.
  - intros [x Hx]. exists (k, x). split; [done|]. by apply elem_of_map_to_list.
Qed.
Lemma walk_elem T (m : gmap string T) k x : (k, x) ∈ walk T m <-> m !! k = Some x.
Proof using All. by rewrite walk_perm, elem_of_map_to_list. Qed.

(** The people of an action: the members of its teams and its Lark group. *)
Definition people (action : Action) : gmap string User :=
  let m := GetUsers http_team (ac_Uic action) in
  if is_empty (ac_LarkGroupId action) then m else <[ac_LarkGroupId action := group_user (ac_LarkGroupId action)]> m.

(** A person blocks a metric of an endpoint, or of all endpoints. *)
Definition unblocked (B : gmap string string) (endpoint metric u : string) : Prop :=
  B !! (BLOCK_MONITOR_KEY_PREFIX ++s u ++s "_" ++s endpoint ++s "_" ++s metric)%string = None /\
  B !! (BLOCK_MONITOR_KEY_PREFIX ++s u ++s "_" ++s metric)%string = None.

#[local] Instance unblocked_dec B e m u : Decision (unblocked B e m u).
Proof. unfold unblocked. apply _. Defined.

(** Those who are told of a metric of an endpoint. *)
Definition told (B : gmap string string) (endpoint metric : string) (action : Action) : gmap string User :=
  filter (fun p => unblocked B endpoint metric p.1) (people action).

Lemma fold_filter_map {T} (P : string -> Prop) `{forall k, Decision (P k)} (l : list (string * T)) (acc : gmap string T) :
  NoDup l.*1 ->
  fold_left (fun m '(k, x) => if decide (P k) then <[k := x]> m else m) l acc = list_to_map (filter (fun p => P p.1) l) ∪ acc.
Proof.
  revert acc; induction l as [|[k x] l IH]; intros acc Hnd; cbn [fold_left]; [cbn; by rewrite (left_id_L ∅ (∪))|].
  inversion_clear Hnd as [|?? Hk Hnd']. rewrite IH by done. rewrite filter_cons. cbn.
  destruct (decide (P k)); [|done]. cbn. rewrite <- insert_union_l, insert_union_r; [done|].
  apply not_elem_of_list_to_map_1. intros Hin. apply Hk. apply list_elem_of_fmap in Hin as ([k' x'] & E & Hin). cbn in E. subst k'.
  apply list_elem_of_filter in Hin as [_ Hin]. apply list_elem_of_fmap. by exists (k, x').
Qed.

Lemma CommonFilterBlock_spec B event metric m :
  Event_Metric event = Ret metric ->
  CommonFilterBlock walk B event m = Ret (filter (fun p => unblocked B (ev_Endpoint event) metric p.1) m).
Proof using All.
  intros Em. unfold CommonFilterBlock.
  erewrite (fold_res_pure _ (fun m '(k, x) => if decide (unblocked B (ev_Endpoint event) metric k) then <[k := x]> m else m)).
  2:{ intros NewMap [k x]. rewrite Em. cbn [rbind]. cbv zeta.
    case_decide as Hn; [destruct Hn as [-> ->]; done|]. unfold unblocked in Hn.
    repeat case_match; try done. tauto. }
  rewrite fold_filter_map.
  - rewrite (right_id_L ∅ (∪)), map_filter_alt. f_equal. apply list_to_map_proper.
    + rewrite walk_perm. apply NoDup_fmap_fst; [|apply NoDup_filter, NoDup_map_to_list].
      intros k x y [_ Hx]%list_elem_of_filter [_ Hy]%list_elem_of_filter.
      apply elem_of_map_to_list in Hx, Hy. congruence.
    + by rewrite walk_perm.
  - rewrite walk_perm. apply NoDup_fst_map_to_list.
Qed.

(** * What an event adds *)

Notation GetAction' := (GetAction now http_action).

(** An action that is in the cache is not asked for. *)
Definition keeps_action (B : memory) (aid : Z) (action : Action) : Prop := cache_Get now (itoa aid) B.2 = Some (CAction action).
Lemma adds_GetAction B aid action : keeps_action B aid action -> adds B (GetAction' aid) (Some action) nothing.
Proof using laws.
  intros Hk s Hs <-. exists s. split; [|by apply grown_refl]. unfold keeps_action in Hk. cbn in Hk. unfold GetAction, mthen, gets. by rewrite Hk.
Qed.

Section OneEvent.
Context (B : memory) (event : Event) (action : Action) (aid prio : Z) (metric : string).
Hypothesis (Hread : readable event) (Haid : Event_ActionId event = Ret aid) (Hact : keeps_action B aid action)
  (Hprio : Event_Priority event = Ret prio) (Hmetric : Event_Metric event = Ret metric).

Let who := told B.1 (ev_Endpoint event) metric action.
Let names := (walk User who).*1.

Lemma adds_GenerateUserMap : adds B (GenerateUserMap http_team walk event action) who nothing.
Proof using All.
  unfold GenerateUserMap. eapply adds_read; [apply adds_gets_blocks|]. cbv zeta. apply adds_lift.
  rewrite (CommonFilterBlock_spec B.1 event metric _ Hmetric). done.
Qed.

Context (amstag grps : string).

Lemma adds_text (build : Action -> res string) t : build action = Ret t ->
  adds B (do! actionId := lift (Event_ActionId event) in
          do! a := GetAction' actionId in
          match a with None => ret "" | Some a => lift (build a) end) t nothing.
Proof using Haid Hact laws.
  intros Ht. eapply adds_read; [by apply adds_lift|]. eapply adds_read; [by apply adds_GetAction|]. by apply adds_lift.
Qed.
Lemma sms_text : exists t, adds B (GenerateSmsContent now zone http_action event amstag grps) t nothing.
Proof using All. destruct (SMS_readable zone event (ac_Uic action) amstag grps Hread) as [t E]. exists t. by apply (adds_text (fun a => BuildCommonSMSContent zone event (ac_Uic a) amstag grps)). Qed.
Lemma mail_text : exists t, adds B (GenerateMailContent now zone Dashboard http_action event amstag grps) t nothing.
Proof using All. destruct (Mail_readable zone Dashboard event (ac_Uic action) amstag grps Hread) as [t E]. exists t. by apply (adds_text (fun a => BuildCommonMailContent zone Dashboard event (ac_Uic a) amstag grps)). Qed.

(** The cards: one for each name, whatever the others. *)
Lemma cards : exists f : string -> Card, forall l,
  adds B (BuildLarkCardImContent now zone Dashboard http_action l event amstag grps) (Some (fold_left (fun m u => <[u := ACard (f u)]> m) l ∅)) nothing.
Proof using All.
  destruct (Link_readable Dashboard event Hread) as [lk El]. destruct (ModLink_readable Dashboard event Hread) as [ml Eml].
  destruct (AlarmIsUnion_readable event Hread) as [un Eun]. destruct (card_readable zone event (ac_Uic action) amstag grps Hread) as [t Et].
  eexists (fun u => mkCard _ _ _ _ _ _ _ _ _). intros l. unfold BuildLarkCardImContent.
  eapply adds_read; [by apply adds_lift|]. eapply adds_read; [by apply adds_GetAction|]. cbv beta iota. apply adds_lift.
  rewrite El, Eml, Hmetric, Eun. cbn [rbind]. erewrite fold_res_pure; [reflexivity|].
  intros m u. cbv beta. rewrite Et. cbn [rbind]. reflexivity.
Qed.

Lemma card_map_lookup (f : string -> Card) l (m : gmap string content) u :
  fold_left (fun m u => <[u := ACard (f u)]> m) l m !! u = if decide (u ∈ l) then Some (ACard (f u)) else m !! u.
Proof using Type.
  revert m; induction l as [|x l IH]; intros m; cbn [fold_left]; [done|]. rewrite IH.
  destruct (decide (u = x)) as [->|Hne].
  - rewrite lookup_insert_eq. rewrite (decide_True (P := x ∈ x :: l)) by (by left). by destruct (decide (x ∈ l)).
  - rewrite lookup_insert_ne by done. destruct (decide (u ∈ l)).
    + rewrite decide_True by (by right). done.
    + rewrite decide_False; [done|]. by intros [?|?]%elem_of_cons.
Qed.

(** The messages of an event of high priority. *)
Definition high_out (sms mail phone : string) (f : string -> Card) : outbox :=
  also (if (prio <? 3)%Z then to_sms names sms else nothing)
  (also (if (prio =? 9)%Z then also (to_sms names sms) (if String.eqb (ev_Status event) "PROBLEM" then to_phone names phone else nothing) else nothing)
  (also (all_of (fun p => one_im (mkIM p.1 p.2 true)) (walk content (fold_left (fun m u => <[u := ACard (f u)]> m) names ∅)))
        (to_mail (map (fun k => k ++s BYTEMAIL)%string names) sms mail))).

Lemma adds_high : is_empty (ac_Uic action) && is_empty (ac_LarkGroupId action) = false ->
  exists sms mail phone f,
    adds B (consumeHighEvents now zone Dashboard http_team http_action walk event action amstag grps) tt (high_out sms mail phone f).
Proof using All.
  intros Hne. destruct sms_text as [sms Es], mail_text as [mail Em], cards as [f Ef]. destruct (Phone_readable event Hread) as [phone Ep].
  exists sms, mail, phone, f. unfold consumeHighEvents. rewrite Hne.
  eapply adds_read; [apply adds_GenerateUserMap|]. cbv zeta.
  eapply adds_read; [exact Es|]. eapply adds_read; [exact Em|]. eapply adds_read; [apply Ef|].
  eapply adds_read; [by apply adds_lift|]. eapply adds_read; [by apply adds_lift|].
  unfold high_out. eapply adds_then; [|eapply adds_then; [|eapply adds_then; [|apply adds_WriteMail]]].
  - apply adds_if; [apply adds_WriteSms|apply adds_ret].
  - apply adds_if; [|apply adds_ret]. eapply adds_then; [apply adds_WriteSms|]. apply adds_if; [apply adds_WritePhone|apply adds_ret].
  - unfold WriteImCard. apply adds_forM. intros [u c] _. apply adds_im.
Qed.

(** The messages of an event of low priority. *)
Definition low_out (sms mail : string) (f : string -> Card) : outbox :=
  also (if (prio <? 3)%Z then all_of (fun p : string * User => one_user_sms (mkSmsDto prio metric sms (u_Name p.2) (ev_Status event))) (walk User who) else nothing)
  (also (all_of (fun p : string * User => one_user_im (mkImDto prio metric mail (u_Name p.2) (u_Name p.2) (ev_Status event) (ACard (f p.1)))) (walk User who))
        (all_of (fun p : string * User => one_user_mail (mkMailDto prio metric sms mail (u_Email p.2) (ev_Status event))) (walk User who))).

Lemma adds_low : is_empty (ac_Uic action) && is_empty (ac_LarkGroupId action) = false ->
  exists sms mail f,
    adds B (consumeLowEvents now zone Dashboard http_team http_action walk event action amstag grps) tt (low_out sms mail f).
Proof using All.
  intros Hne. destruct sms_text as [sms Es], mail_text as [mail Em], cards as [f Ef].
  exists sms, mail, f. unfold consumeLowEvents. rewrite Hne.
  eapply adds_read; [by apply adds_lift|]. unfold low_out. eapply adds_then; [|eapply adds_then].
  - apply adds_if; [|apply adds_ret]. unfold ParseUserSms. eapply adds_read; [apply adds_GenerateUserMap|].
    eapply adds_read; [exact Es|]. do 2 (eapply adds_read; [by apply adds_lift|]). apply adds_forM. intros [u x] _. apply adds_user_sms.
  - unfold ParseUserIm. eapply adds_read; [apply adds_GenerateUserMap|].
    eapply adds_read; [exact Em|]. do 2 (eapply adds_read; [by apply adds_lift|]). apply adds_forM. intros [u x] _.
    eapply adds_read; [apply Ef|]. cbn. rewrite lookup_insert_eq. apply adds_user_im.
  - unfold ParseUserMail. eapply adds_read; [apply adds_GenerateUserMap|].
    eapply adds_read; [by apply adds_lift|]. eapply adds_read; [exact Es|]. eapply adds_read; [exact Em|]. eapply adds_read; [by apply adds_lift|].
    apply adds_forM. intros [u x] _. apply adds_user_mail.
Qed.
End OneEvent.

(** * The people reached *)

(** [u] is among the recipients of a message. *)
Definition addressed (u tos : string) : Prop := u ∈ split tos ",".

(** What the people [who] get of an event of high priority: an sms for a
    priority below 3 or equal to 9, a call for a problem of priority 9, a card
    and a mail always; nobody else gets anything. *)
Definition told_high (who : gmap string User) (prio : Z) (status : string) (o : outbox) : Prop :=
  o_user_sms o = [] /\ o_user_im o = [] /\ o_user_mail o = [] /\ o_failed_im o = [] /\ o_finally_failed_im o = [] /\
  forall u,
    ((exists m, m ∈ o_sms o /\ addressed u (sms_Tos m)) <-> is_Some (who !! u) /\ (prio < 3 \/ prio = 9)%Z) /\
    ((exists m, m ∈ o_phone o /\ addressed u (sms_Tos m)) <-> is_Some (who !! u) /\ prio = 9%Z /\ status = "PROBLEM"%string) /\
    ((exists m, m ∈ o_im o /\ im_Tos m = u) <-> is_Some (who !! u)) /\
    ((exists m, m ∈ o_mail o /\ addressed (u ++s BYTEMAIL)%string (mail_Tos m)) <-> is_Some (who !! u)).

(** Of low priority: the messages wait for the combiner, an sms only for a
    priority below 3. *)
Definition told_low (who : gmap string User) (prio : Z) (o : outbox) : Prop :=
  o_sms o = [] /\ o_im o = [] /\ o_mail o = [] /\ o_phone o = [] /\ o_failed_im o = [] /\ o_finally_failed_im o = [] /\
  (forall u, ((exists d, d ∈ o_user_sms o /\ sd_Phone d = u) <-> is_Some (who !! u) /\ (prio < 3)%Z) /\
             ((exists d, d ∈ o_user_im o /\ id_IM d = u) <-> is_Some (who !! u))) /\
  forall e, (exists d, d ∈ o_user_mail o /\ md_Email d = e) <-> exists u x, who !! u = Some x /\ u_Email x = e.

Lemma sapp_cancel_r a b c : (a ++s c = b ++s c -> a = b)%string.
Proof.
  intros E. apply (sapp_cancel_len a b c c); [|done].
  apply (f_equal String.length) in E. rewrite !sapp_length in E. lia.
Qed.

Lemma addressed_join u l : l <> [] -> Forall (fun s => has "," s = false) l -> addressed u (join "," l) <-> u ∈ l.
Proof. intros Hl Hf. unfold addressed. by rewrite split_join. Qed.

Lemma to_sms_addressed u (l : list string) c : Forall (fun s => has "," s = false) l ->
  (exists m, m ∈ o_sms (to_sms l c) /\ addressed u (sms_Tos m)) <-> u ∈ l.
Proof.
  intros Hf. destruct l as [|x l]; cbn.
  - split; [intros (m & Hm & _)|intros Hm]; by apply elem_of_nil in Hm.
  - rewrite <- (addressed_join u (x :: l)) by done. split.
    + by intros (m & ->%list_elem_of_singleton & Hm).
    + intros Hm. eexists. split; [by apply list_elem_of_singleton|done].
Qed.
Lemma to_phone_addressed u (l : list string) c : Forall (fun s => has "," s = false) l ->
  (exists m, m ∈ o_phone (to_phone l c) /\ addressed u (sms_Tos m)) <-> u ∈ l.
Proof. intros Hf. rewrite <- (to_sms_addressed u l c) by done. by destruct l. Qed.
Lemma to_mail_addressed u (l : list string) s c : Forall (fun s => has "," s = false) l ->
  (exists m, m ∈ o_mail (to_mail l s c) /\ addressed u (mail_Tos m)) <-> u ∈ l.
Proof.
  intros Hf. rewrite <- (to_sms_addressed u l c) by done. destruct l as [|x l]; cbn.
  - by split; intros (m & ?%elem_of_nil & _).
  - split; intros (m & ->%list_elem_of_singleton & Hm); (eexists; split; [by apply list_elem_of_singleton|done]).
Qed.

Lemma people_named action k x : people action !! k = Some x -> u_Name x = k.
Proof using Type.
  unfold people, GetUsers. set (m0 := fold_left _ _ _).
  assert (forall k x, m0 !! k = Some x -> u_Name x = k) as H0.
  { unfold m0. clear. generalize (∅ : gmap string User) (lookup_empty (M := gmap string) (A := User)) (split (ac_Uic action) ",").
    intros m Hm l. assert (forall k x, m !! k = Some x -> u_Name x = k) as Hn by (intros k x; by rewrite Hm).
    clear Hm. revert m Hn; induction l as [|t l IH]; intros m Hn; [done|]. cbn. apply IH.
    destruct (is_empty t); [done|]. destruct (UsersOf http_team t) as [us|]; [|done].
    clear - Hn. revert m Hn; induction us as [|y us IH]; intros m Hn; [done|]. cbn. apply IH.
    intros k x [[<- <-]|[_ H]]%lookup_insert_Some; auto. }
  destruct (is_empty _); [apply H0|]. intros [[<- <-]|[_ H]]%lookup_insert_Some; auto.
Qed.

Lemma told_people B e m action u x : told B e m action !! u = Some x -> people action !! u = Some x.
Proof using Type. unfold told. by intros [? _]%map_lookup_filter_Some. Qed.

(** The messages of a loop, one for each person. *)
Lemma elem_all_of {T X} (proj : outbox -> list X) (f : T -> outbox) (g : T -> X) l m :
  proj nothing = [] -> (forall a b, proj (also a b) = proj b ++ proj a) -> (forall t, proj (f t) = [g t]) ->
  m ∈ proj (all_of f l) <-> exists t, t ∈ l /\ m = g t.
Proof.
  intros H0 Ha Hf. rewrite (all_of_list proj f g) by auto. rewrite list_elem_of_In, <- in_rev, <- list_elem_of_In, list_elem_of_fmap.
  split; intros (t & ? & ?); by exists t.
Qed.

(** The lists of the messages of high priority. *)
Lemma high_out_lists (B : memory) event action prio metric sms mail phone f :
  let names := (walk User (told B.1 (ev_Endpoint event) metric action)).*1 in
  let o := high_out B event action prio metric sms mail phone f in
  o_sms o = (if ((prio <? 3) || (prio =? 9))%Z then o_sms (to_sms names sms) else []) /\
  o_phone o = (if (prio =? 9)%Z && String.eqb (ev_Status event) "PROBLEM" then o_phone (to_phone names phone) else []) /\
  o_im o = o_im (all_of (fun p => one_im (mkIM p.1 p.2 true)) (walk content (fold_left (fun m u => <[u := ACard (f u)]> m) names ∅))) /\
  o_mail o = o_mail (to_mail (map (fun k => k ++s BYTEMAIL)%string names) sms mail) /\
  o_user_sms o = [] /\ o_user_im o = [] /\ o_user_mail o = [] /\ o_failed_im o = [] /\ o_finally_failed_im o = [].
Proof using Type.
  cbv zeta. unfold high_out. set (names := (walk User _).*1).
  destruct (Z.ltb_spec prio 3), (Z.eqb_spec prio 9); try lia; cbn [orb andb];
    destruct (String.eqb (ev_Status event) "PROBLEM"), names; cbn;
    rewrite ?(all_of_none o_sms), ?(all_of_none o_phone), ?(all_of_none o_mail), ?(all_of_none o_user_sms), ?(all_of_none o_user_im),
      ?(all_of_none o_user_mail), ?(all_of_none o_failed_im), ?(all_of_none o_finally_failed_im) by done;
    rewrite ?app_nil_r; done.
Qed.

Lemma high_reaches (B : memory) event action prio metric sms mail phone f :
  (forall k, is_Some (people action !! k) -> has "," k = false) ->
  told_high (told B.1 (ev_Endpoint event) metric action) prio (ev_Status event) (high_out B event action prio metric sms mail phone f).
Proof using All.
  intros Hcomma. destruct (high_out_lists B event action prio metric sms mail phone f) as (Es & Ep & Ei & Em & E1 & E2 & E3 & E4 & E5).
  set (who := told _ _ _ _) in *. set (names := (walk User who).*1) in *.
  assert (forall u, u ∈ names <-> is_Some (who !! u)) as Hin by (intros u; apply walk_keys).
  assert (Forall (fun s => has "," s = false) names) as Hn.
  { apply Forall_forall. intros u [x Hx]%Hin. apply Hcomma. exists x. by eapply told_people. }
  assert (Forall (fun s => has "," s = false) (map (fun k => k ++s BYTEMAIL)%string names)) as Hn'.
  { apply Forall_fmap. eapply Forall_impl; [exact Hn|]. intros k Hk. cbn. rewrite has_app, Hk. done. }
  unfold told_high. rewrite Es, Ep, Ei, Em. do 5 (split; [done|]). intros u. rewrite <- Hin. split_and!.
  - rewrite <- (to_sms_addressed u names sms) by done.
    destruct (Z.ltb_spec prio 3), (Z.eqb_spec prio 9); cbn [orb];
      first [tauto | split; [by intros (m & ?%elem_of_nil & _) | lia]].
  - rewrite <- (to_phone_addressed u names phone) by done.
    destruct (Z.eqb_spec prio 9), (String.eqb_spec (ev_Status event) "PROBLEM"); cbn [andb];
      first [tauto | split; [by intros (m & ?%elem_of_nil & _) | tauto]].
  - split.
    + intros (m & Hm & <-). apply (elem_all_of o_im _ (fun p => mkIM p.1 p.2 true)) in Hm as ([k c] & Hk & ->); [|done..].
      apply walk_elem in Hk. rewrite card_map_lookup in Hk. by destruct (decide (k ∈ names)).
    + intros Hu. exists (mkIM u (ACard (f u)) true). split; [|done]. apply (elem_all_of o_im _ (fun p => mkIM p.1 p.2 true)); [done..|].
      exists (u, ACard (f u)). split; [|done]. apply walk_elem. rewrite card_map_lookup. by rewrite decide_True.
  - rewrite to_mail_addressed by done. rewrite list_elem_of_fmap. split.
    + by intros (k & ->%sapp_cancel_r & Hk).
    + intros Hu. by exists u.
Qed.

(** One message for each person. *)
Lemma reaches_all {X} (proj : outbox -> list X) (f : string * User -> outbox) (g : string * User -> X) (key : X -> string)
  (who : gmap string User) e :
  proj nothing = [] -> (forall a b, proj (also a b) = proj b ++ proj a) -> (forall t, proj (f t) = [g t]) ->
  (exists d, d ∈ proj (all_of f (walk User who)) /\ key d = e) <-> exists u x, who !! u = Some x /\ key (g (u, x)) = e.
Proof using All.
  intros H0 Ha Hf. split.
  - intros (d & Hd & <-). apply (elem_all_of proj f g) in Hd as ([u x] & Hu%walk_elem & ->); [|done..]. by exists u, x.
  - intros (u & x & Hu & <-). exists (g (u, x)). split; [|done]. apply (elem_all_of proj f g); [done..|].
    exists (u, x). split; [by apply walk_elem|done].
Qed.

Lemma low_out_none {X} (proj : outbox -> list X) (B : memory) event action prio metric sms mail f :
  proj nothing = [] -> (forall a b, proj (also a b) = proj b ++ proj a) ->
  (forall m, proj (one_user_sms m) = []) -> (forall m, proj (one_user_im m) = []) -> (forall m, proj (one_user_mail m) = []) ->
  proj (low_out B event action prio metric sms mail f) = [].
Proof using Type.
  intros H0 Ha Hs Hi Hm. unfold low_out. rewrite !Ha. rewrite !all_of_none by auto. destruct (_ <? _)%Z; [|done]. by rewrite all_of_none by auto.
Qed.

(** The lists of the messages of low priority. *)
Lemma low_out_lists (B : memory) event action prio metric sms mail f :
  let l := walk User (told B.1 (ev_Endpoint event) metric action) in
  let o := low_out B event action prio metric sms mail f in
  o_user_sms o = (if (prio <? 3)%Z then o_user_sms (all_of (fun p : string * User => one_user_sms (mkSmsDto prio metric sms (u_Name p.2) (ev_Status event))) l) else []) /\
  o_user_im o = o_user_im (all_of (fun p : string * User => one_user_im (mkImDto prio metric mail (u_Name p.2) (u_Name p.2) (ev_Status event) (ACard (f p.1)))) l) /\
  o_user_mail o = o_user_mail (all_of (fun p : string * User => one_user_mail (mkMailDto prio metric sms mail (u_Email p.2) (ev_Status event))) l).
Proof using Type.
  cbv zeta. unfold low_out. cbn [also o_user_sms o_user_im o_user_mail].
  rewrite !(all_of_none o_user_sms (fun p => one_user_im _)), !(all_of_none o_user_sms (fun p => one_user_mail _)) by done.
  rewrite !(all_of_none o_user_im (fun p => one_user_mail _)), !(all_of_none o_user_mail (fun p => one_user_im _)) by done.
  destruct (_ <? _)%Z; rewrite ?(all_of_none o_user_im (fun p => one_user_sms _)), ?(all_of_none o_user_mail (fun p => one_user_sms _)) by done;
    cbn; by rewrite ?app_nil_r.
Qed.

Lemma low_reaches (B : memory) event action prio metric sms mail f :
  told_low (told B.1 (ev_Endpoint event) metric action) prio (low_out B event action prio metric sms mail f).
Proof using All.
  destruct (low_out_lists B event action prio metric sms mail f) as (Es & Ei & Em). set (who := told _ _ _ _) in *.
  assert (forall u x, who !! u = Some x -> u_Name x = u) as Hname by (intros u x Hx; eapply people_named, told_people; exact Hx).
  assert (forall u, (exists k x, who !! k = Some x /\ u_Name x = u) <-> is_Some (who !! u)) as Hu.
  { intros u. split; [intros (k & x & Hk & <-); rewrite (Hname _ _ Hk); by exists x|intros [x Hx]; exists u, x; auto]. }
  unfold told_low. do 6 (split; [by apply low_out_none|]). rewrite Es, Ei, Em. split; [intros u; split|intros e].
  - rewrite <- Hu. destruct (Z.ltb_spec prio 3); [|split; [by intros (m & ?%elem_of_nil & _)|lia]].
    rewrite (reaches_all o_user_sms _ (fun p => mkSmsDto _ _ _ (u_Name p.2) _) sd_Phone) by done. cbn. tauto.
  - rewrite <- Hu. by rewrite (reaches_all o_user_im _ (fun p => mkImDto _ _ _ (u_Name p.2) (u_Name p.2) _ (ACard (f p.1))) id_IM) by done.
  - by rewrite (reaches_all o_user_mail _ (fun p => mkMailDto _ _ _ _ (u_Email p.2) _) md_Email) by done.
Qed.

(** The action is known once it was asked for, and stays so unless a text is put under its id. *)
Lemma GetAction_keeps aid action s s1 : in_i64 now -> all_alive s -> GetAction' aid s = Ret (Some action, s1) ->
  all_alive s1 /\ keeps_action (memory_of s1) aid action /\ exists C, s1 = set_actions C s.
Proof using Type.
  intros Hn Hs H. unfold GetAction, mthen, gets in H. destruct (cache_Get now (itoa aid) (ActionsCache s)) as [[a|t]|] eqn:E; [|done|].
  - injection H as -> <-. split; [done|]. split; [exact E|]. exists (ActionsCache s). by destruct s.
  - destruct (CurlAction http_action aid) as [a|]; [|done]. unfold modify, ret in H. injection H as -> <-. split; [by destruct s|]. split; [|by eexists].
    unfold keeps_action. cbn. destruct s; cbn. apply cache_Get_Set; [done|]. unfold CacheTTl. lia.
Qed.
Lemma GetAmsTag_keeps aid action s endpoint : all_alive s -> keeps_action (memory_of s) aid action ->
  endpoint <> itoa aid \/ HttpGetTag getAmsTag endpoint = ""%string ->
  exists tag s1, GetAmsTag now getAmsTag endpoint s = Ret (tag, s1) /\ all_alive s1 /\ keeps_action (memory_of s1) aid action /\ exists C, s1 = set_actions C s.
Proof using Type.
  intros Hs Hk He. unfold GetAmsTag. destruct (is_empty (HttpGetTag getAmsTag endpoint)) eqn:E.
  - exists ""%string, s. split; [done|]. split; [done|]. split; [done|]. exists (ActionsCache s). by destruct s.
  - eexists _, _. split; [reflexivity|]. split; [by destruct s|]. split; [|by eexists]. unfold keeps_action. destruct s; cbn. rewrite cache_Get_other; [exact Hk|].
    destruct He as [He|He]; [by apply not_eq_sym|]. by rewrite He in E.
Qed.
Lemma set_actions_twice C C' (s : State) : set_actions C (set_actions C' s) = set_actions C s.
Proof using Type. by destruct s. Qed.

(** C5: While redis answers, an event that can be read, of an action without a
    callback whose people have no comma in their names, reaches on every channel
    its priority calls for exactly the members of the action's teams and its
    Lark group who did not block the metric: at once when the event is of high
    priority, in the combiner's lists otherwise.  The action is the one in the
    cache or that of the API; the endpoint of the event is not written like the
    id of the action, or has no tag, since its tag would take the place of the
    action in the cache. *)
Theorem event_reaches_unblocked (s s0 : State) (event : Event) (isHigh : bool) (aid prio : Z) (metric : string) (action : Action) :
  in_i64 now -> all_alive s -> readable event -> Event_ActionId event = Ret aid -> (0 < aid)%Z -> GetAction now http_action aid s = Ret (Some action, s0) ->
  ev_Endpoint event <> itoa aid \/ HttpGetTag getAmsTag (ev_Endpoint event) = ""%string ->
  Event_Priority event = Ret prio -> Event_Metric event = Ret metric ->
  ac_Callback action <> 1%Z -> ac_Uic action <> ""%string \/ ac_LarkGroupId action <> ""%string ->
  (forall k, is_Some (people action !! k) -> has "," k = false) ->
  exists C s' o, consume now zone Dashboard http_team http_action http_tplgrp getAmsTag http_get walk event isHigh s = Ret (tt, s') /\
    grown (set_actions C s) s' o /\
    let who := told (BlockMonitorCounter s) (ev_Endpoint event) metric action in
    if isHigh then told_high who prio (ev_Status event) o else told_low who prio o.
Proof using All.
  intros Hn Hs Hread Haid Hpos Hact Hend Hprio Hmetric Hcb Hne Hcomma.
  assert (is_empty (ac_Uic action) && is_empty (ac_LarkGroupId action) = false) as He.
  { destruct (ac_Uic action), (ac_LarkGroupId action); try done. tauto. }
  destruct (TplId_readable event Hread) as [tplid Htpl].
  destruct (GetAction_keeps aid action s s0 Hn Hs Hact) as (Hs0 & Hk0 & C0 & E0).
  destruct (GetAmsTag_keeps aid action s0 (ev_Endpoint event) Hs0 Hk0 Hend) as (amstag & s1 & Etag & Hs1 & Hk1 & C1 & E1).
  assert (s1 = set_actions C1 s) as E by (by rewrite E1, E0, set_actions_twice).
  set (groups := GetEndpointTplGroups http_tplgrp tplid (ev_Endpoint event)).
  assert (forall o, adds (memory_of s1) (if isHigh then consumeHighEvents now zone Dashboard http_team http_action walk event action amstag groups
                      else consumeLowEvents now zone Dashboard http_team http_action walk event action amstag groups) tt o ->
    exists s', consume now zone Dashboard http_team http_action http_tplgrp getAmsTag http_get walk event isHigh s = Ret (tt, s') /\ grown s1 s' o) as Hrun.
  { intros o Ho. destruct (Ho s1 Hs1 eq_refl) as (s' & Er & Hg). exists s'. split; [|exact Hg].
    unfold consume, mthen, lift. rewrite Haid. destruct (Z.leb_spec aid 0); [lia|]. rewrite Hact, Htpl, Etag. apply Z.eqb_neq in Hcb as ->. exact Er. }
  assert (BlockMonitorCounter s = (memory_of s1).1) as -> by (rewrite E; by destruct s).
  destruct isHigh.
  - destruct (adds_high (memory_of s1) event action aid prio metric Hread Haid Hk1 Hprio Hmetric amstag groups He) as (sms & mail & phone & f & Ha).
    destruct (Hrun _ Ha) as (s' & Er & G). exists C1, s', (high_out (memory_of s1) event action prio metric sms mail phone f).
    split; [done|]. split; [by rewrite <- E|]. by apply high_reaches.
  - destruct (adds_low (memory_of s1) event action aid prio metric Hread Haid Hk1 Hprio Hmetric amstag groups He) as (sms & mail & f & Ha).
    destruct (Hrun _ Ha) as (s' & Er & G). exists C1, s', (low_out (memory_of s1) event action prio metric sms mail f).
    split; [done|]. split; [by rewrite <- E|]. apply low_reaches.
Qed.

(** An event whose endpoint is written like the id of its action ends the
    process, once the service has a tag for the endpoint. *)
Lemma endpoint_like_action_panics (s s0 : State) event isHigh aid action tplid :
  in_i64 now -> all_alive s -> Event_ActionId event = Ret aid -> (0 < aid)%Z -> GetAction now http_action aid s = Ret (Some action, s0) ->
  ev_Endpoint event = itoa aid -> HttpGetTag getAmsTag (itoa aid) <> ""%string ->
  Event_TplId event = Ret tplid -> ac_Callback action <> 1%Z -> ac_Uic action <> ""%string -> isHigh = true ->
  (exists metric, Event_Metric event = Ret metric) ->
  consume now zone Dashboard http_team http_action http_tplgrp getAmsTag http_get walk event isHigh s = Panic TypeAssertion.
Proof using All.
  intros Hn Hs Haid Hpos Hact He Ht Htpl Hcb Hu -> [metric Hm]. unfold consume, mthen, lift. rewrite Haid. destruct (Z.leb_spec aid 0); [lia|]. rewrite Hact, Htpl, He.
  unfold GetAmsTag. destruct (is_empty (HttpGetTag getAmsTag (itoa aid))) eqn:E; [by destruct (HttpGetTag _ _)|]. unfold mthen, modify, ret.
  set (s2 := set_actions (cache_Set now CacheTTl (itoa aid) (CText (HttpGetTag getAmsTag (itoa aid))) (ActionsCache s0)) s0).
  assert (GetAction now http_action aid s2 = Panic TypeAssertion) as Hp.
  { unfold GetAction, mthen, gets. replace (ActionsCache s2) with (cache_Set now CacheTTl (itoa aid) (CText (HttpGetTag getAmsTag (itoa aid))) (ActionsCache s0)) by (by destruct s0).
    rewrite cache_Get_Set; [done|done|unfold CacheTTl; lia]. }
  apply Z.eqb_neq in Hcb as ->. unfold skip, ret, consumeHighEvents. assert (is_empty (ac_Uic action) = false) as -> by (by destruct (ac_Uic action)). cbn [andb].
  assert (exists m, GenerateUserMap http_team walk event action s2 = Ret (m, s2)) as [m Em].
  { unfold GenerateUserMap, mthen, gets, lift. cbv zeta. rewrite (CommonFilterBlock_spec _ event metric _ Hm). by eexists. }
  rewrite (mthen_run _ _ _ _ _ Em). cbv zeta. unfold GenerateSmsContent, mthen, lift. by rewrite Haid, Hp.
Qed.
End Consume.
End AlarmThms.

(** * A concrete service *)

(** A team of two, one of whom blocks the metric everywhere. *)
Definition demo_team (team : string) (i : nat) : option (list User) :=
  if (i =? 0)%nat then None else Some [mkUser 1 "ann" "" "" "ann@a.com" "" "" "" 0; mkUser 2 "bob" "" "" "bob@b.org" "" "" "" 0].
Definition demo_action (id : Z) (i : nat) : option Action := Some (mkAction id "ops" "" "" 0 0 0 0 0).
Definition demo_empty : AlarmState (R := mem) :=
  mkAlarm (Mem []) (Mem []) (Mem []) (Mem []) (Mem []) (Mem []) (Mem []) (Mem []) (Mem []) {["single_block_monitor_bob_cpu.idle" := "1"%string]} ∅.
Definition demo_event : Event :=
  mkEvent "s_1" (Some (mkStrategy 1 "cpu.idle" ∅ "all(#1)" "<" fzero 3 2 "busy" (Some (mkTemplate 1 "t" 0 5 "root")) 0)) None
    "PROBLEM" "h" fzero 1 0 ∅ [].

Lemma event_reaches_unblocked_witness :
  exists C s' o, consume (R := mem) 0 (fun _ => 0%Z) "http://d" demo_team demo_action (fun _ _ _ => Some []) (fun _ _ => ""%string)
    (fun _ _ => inl ""%string) (fun T => map_to_list) demo_event true demo_empty = Ret (tt, s') /\ grown (set_actions C demo_empty) s' o /\
    (exists m, m ∈ o_sms o /\ addressed "ann" (sms_Tos m)) /\ ~ (exists m, m ∈ o_sms o /\ addressed "bob" (sms_Tos m)).
Proof.
  destruct (event_reaches_unblocked (R := mem) 0 (fun _ => 0%Z) "http://d" demo_team demo_action (fun _ _ _ => Some []) (fun _ _ => ""%string)
    (fun _ _ => inl ""%string) (fun T => map_to_list) (fun T m => reflexivity _) demo_empty (set_actions (cache_Set 0 CacheTTl "5" (CAction (mkAction 5 "ops" "" "" 0 0 0 0 0)) ∅) demo_empty) demo_event true 5 2 "cpu.idle" (mkAction 5 "ops" "" "" 0 0 0 0 0))
    as (C & s' & o & E & G & H).
  - by_compute.
  - by repeat split.
  - exists (mkStrategy 1 "cpu.idle" ∅ "all(#1)" "<" fzero 3 2 "busy" (Some (mkTemplate 1 "t" 0 5 "root")) 0), (mkTemplate 1 "t" 0 5 "root").
    split; [done|]. split; [done|apply Forall_nil_2].
  - reflexivity.
  - lia.
  - reflexivity.
  - by left.
  - reflexivity.
  - reflexivity.
  - done.
  - by left.
  - intros k [x Hx]. assert (k = "ann" \/ k = "bob")%string as [-> | ->]; [|done|done].
    change (({["bob" := mkUser 2 "bob" "" "" "bob@b.org" "" "" "" 0; "ann" := mkUser 1 "ann" "" "" "ann@a.com" "" "" "" 0]} : gmap string User) !! k = Some x) in Hx.
    apply lookup_insert_Some in Hx as [[<- _]|[_ [<- _]%lookup_singleton_Some]]; auto.
  - exists C, s', o. split; [exact E|]. split; [exact G|]. destruct H as (_ & _ & _ & _ & _ & H). split.
    + apply H. split; [|by left]. eexists. vm_compute. reflexivity.
    + intros Hb. apply H in Hb as [[x Hx] _]. vm_compute in Hx. done.
Defined.
