(* ===== verification/AlarmMerge.v ===== *)
(** What becomes of the messages in the alarm service's lists: the combiner
    puts every waiting mail in exactly one mail to its owner; every instant
    message is taken by a robot, at its first or at its second chance, or
    ends in the list of those given up. *)
From S2P Require Export AlarmThms.
From Stdlib Require Import Ascii.
Local Open Scope string_scope.
Local Open Scope list_scope.
#[local] Set Default Proof Using "Type*".

(** * Emptying a list *)

(** What the readers get of the entries of a list, the oldest first. *)
Definition objs {T} (l : list (reply T)) : list T := omap (fun r => match r with Obj a => Some a | Text _ => None end) l.
Definition waiting {R} `{RedisList R} {T} (r : R T) : list T := objs (rev (view r)).

Section Merge.
Context {R : Type -> Type} {redis : RedisList R} {laws : RedisListLaws R}.
Local Notation State := (AlarmState (R := R)).

(** The name of a list stands for one field of the state. *)
Class Lens {T} (q : queue (R := R) T) : Prop := {
  get_set r s : q_get q (q_set q r s) = r;
  set_set r r' s : q_set q r (q_set q r' s) = q_set q r s;
  set_get s : q_set q (q_get q s) s = s }.
Ltac lens := split; [intros ? []|intros ? ? []|intros []]; reflexivity.
#[export] Instance lens_user_mail : Lens UserMailQueue. Proof. lens. Qed.
#[export] Instance lens_im : Lens IM_QUEUE_NAME. Proof. lens. Qed.
#[export] Instance lens_failed_im : Lens FAILED_IM_QUEUE_NAME. Proof. lens. Qed.

Lemma pop_all_spec {T} (q : queue T) `{!Lens q} fuel (s : State) :
  alive (q_get q s) -> length (view (q_get q s)) < fuel ->
  exists r, pop_all fuel q s = Ret (waiting (q_get q s), q_set q r s) /\ view r = [] /\ alive r.
Proof.
  revert s; induction fuel as [|fuel IH]; intros s Ha Hl; [lia|].
  cbn [pop_all]. unfold mthen at 1, gets at 1. unfold mthen at 1, modify at 1.
  destruct (RPOP_alive _ _ Ha) as [Ha' Hnone]. destruct (RPOP (q_get q s)) as [[m|] r] eqn:E; cbn [fst snd] in *.
  - apply RPOP_some in E. rewrite E, length_app in Hl. cbn in Hl.
    destruct (IH (q_set q r s)) as (r' & Er & Hv & Hal); [by rewrite get_set|rewrite get_set; lia|].
    rewrite get_set, set_set in Er. unfold waiting, objs. rewrite E, rev_app_distr. cbn [rev app omap list_omap].
    destruct m as [a|t].
    + rewrite (mthen_run _ _ _ _ _ Er). by exists r'.
    + by exists r'.
  - exists r. unfold waiting. rewrite (Hnone eq_refl). split; [done|]. split; [|done]. apply RPOP_none in E. etrans; [exact E|by apply Hnone].
Qed.

Lemma pop_all_of_spec {T} (q : queue T) `{!Lens q} (s : State) :
  alive (q_get q s) ->
  exists r, pop_all_of q s = Ret (waiting (q_get q s), q_set q r s) /\ view r = [] /\ alive r.
Proof. intros Ha. unfold pop_all_of, mthen, gets. apply pop_all_spec; [done|done|lia]. Qed.
End Merge.

(** * Filing under a key *)

Lemma file_all_snoc {T} (key : T -> string) l d : file_all key (l ++ [d]) = file key (file_all key l) d.
Proof. unfold file_all. by rewrite fold_left_app. Qed.

(** Under a key is what has that key, in order. *)
Lemma file_all_lookup {T} (key : T -> string) (l : list T) k :
  file_all key l !! k = match filter (fun d => key d = k) l with [] => None | g => Some g end.
Proof.
  induction l as [|d l IH] using rev_ind; [done|]. rewrite file_all_snoc, filter_app. unfold file.
  rewrite filter_cons, filter_nil. destruct (decide (key d = k)) as [<-|Hne].
  - rewrite IH. destruct (filter _ l) as [|x g]; by rewrite lookup_insert_eq.
  - rewrite app_nil_r, <- IH. destruct (file_all key l !! key d); by rewrite lookup_insert_ne.
Qed.

Lemma filter_key_perm {T} (key : T -> string) (m : list (string * list T)) (l : list T) :
  NoDup m.*1 -> (forall k g, (k, g) ∈ m -> g = filter (fun d => key d = k) l) -> (forall d, d ∈ l -> key d ∈ m.*1) ->
  concat m.*2 ≡ₚ l.
Proof.
  revert l; induction m as [|[k g] m IH]; intros l Hnd Hg Hk.
  - destruct l as [|d l]; [done|]. specialize (Hk d). rewrite elem_of_cons in Hk. cbn in Hk. by specialize (Hk (or_introl eq_refl)); apply elem_of_nil in Hk.
  - inversion_clear Hnd as [|?? Hkm Hnd']. cbn. rewrite (Hg k g) by (by left).
    rewrite (IH (filter (fun d => key d <> k) l)); [|done| |].
    + apply (filter_app_complement (fun d => key d = k)).
    + intros k' g' Hin. rewrite (Hg k' g') by (by right). rewrite list_filter_filter. apply list_filter_iff.
      intros d. split; [|tauto]. intros ->. split; [done|]. intros ->. apply Hkm. apply list_elem_of_fmap. by exists (k, g').
    + intros d [Hne Hd]%list_elem_of_filter. specialize (Hk d Hd). cbn in Hk. by apply elem_of_cons in Hk as [?|?].
Qed.

(** * Waiting mails *)

(** A mail of the alarm service itself: a priority, one of the two statuses,
    an address of the company. *)
Definition own_mail (d : MailDto) : Prop :=
  (0 <= md_Priority d < 2 ^ 63)%Z /\ (md_Status d = OK \/ md_Status d = PROBLEM) /\
  exists n, md_Email d = n ++s BYTEMAIL /\ has "@" n = false.

(** Digits up to the first byte that is not one. *)
Lemma digits_cut a b c d x y :
  all_bytes is_digit a = true -> all_bytes is_digit b = true -> is_digit c = false -> is_digit d = false ->
  a ++s String c x = b ++s String d y -> a = b /\ String c x = String d y.
Proof.
  revert b; induction a as [|u a IH]; intros [|v b] Ha Hb Hc Hd E; cbn in *.
  - done.
  - injection E as -> _. apply andb_prop in Hb as [Hb _]. congruence.
  - injection E as -> _. apply andb_prop in Ha as [Ha _]. congruence.
  - injection E as -> E. apply andb_prop in Ha as [_ Ha]. apply andb_prop in Hb as [_ Hb].
    destruct (IH b Ha Hb Hc Hd E) as [-> ?]. done.
Qed.

Lemma itoa_digits z : (0 <= z)%Z -> all_bytes is_digit (itoa z) = true.
Proof.
  intros Hz. unfold itoa. destruct (Z.ltb_spec z 0); [lia|]. apply utoa_digits; [lia|done].
Qed.

Lemma mail_key_inj d1 d2 : own_mail d1 -> own_mail d2 -> mail_key d1 = mail_key d2 ->
  md_Priority d1 = md_Priority d2 /\ md_Status d1 = md_Status d2 /\ md_Email d1 = md_Email d2 /\ md_Metric d1 = md_Metric d2.
Proof.
  intros (Hp1 & Hs1 & n1 & E1 & Hn1) (Hp2 & Hs2 & n2 & E2 & Hn2). unfold mail_key. rewrite E1, E2.
  assert (forall p st n m, (itoa p ++s st ++s (n ++s BYTEMAIL) ++s m) = (itoa p ++s st ++s n) ++s String "@" ("xxx.com" ++s m)) as Hcut.
  { intros. rewrite !sapp_assoc. done. }
  assert (forall p st n, (0 <= p)%Z -> st = OK \/ st = PROBLEM -> has "@" n = false -> has "@" (itoa p ++s st ++s n) = false) as Hclean.
  { intros p st n Hp Hst Hn. rewrite !has_app, Hn, itoa_has by done. by destruct Hst as [-> | ->]. }
  rewrite !Hcut. intros E. apply (f_equal (cut "@")) in E.
  rewrite !cut_app in E by (apply Hclean; tauto). injection E as E Em.
  assert (exists c1 x1, md_Status d1 ++s n1 = String c1 x1 /\ is_digit c1 = false) as (c1 & x1 & Ex1 & Hc1) by (destruct Hs1 as [-> | ->]; by eexists _, _).
  assert (exists c2 x2, md_Status d2 ++s n2 = String c2 x2 /\ is_digit c2 = false) as (c2 & x2 & Ex2 & Hc2) by (destruct Hs2 as [-> | ->]; by eexists _, _).
  rewrite Ex1, Ex2 in E. apply digits_cut in E as [Ep E]; [|by apply itoa_digits; lia..|done|done].
  apply itoa_inj in Ep; [|unfold in_i64; lia..]. rewrite <- Ex1, <- Ex2 in E.
  split; [done|]. destruct Hs1 as [Hs1|Hs1], Hs2 as [Hs2|Hs2]; rewrite Hs1, Hs2 in *; cbn in E; try done; injection E as ->; done.
Qed.

(** The mail [m] stands for the waiting mails [g]: it goes to the owner of
    each of them and has the text of each of them. *)
Definition mail_for (m : Mail) (g : list MailDto) : Prop :=
  mail_Content m = join crlf (map md_Content g) /\ g <> [] /\
  forall d, d ∈ g -> mail_Tos m = md_Email d /\ (g = [d] -> mail_Subject m = md_Subject d) /\
    forall d', d' ∈ g -> md_Priority d' = md_Priority d /\ md_Status d' = md_Status d /\ md_Metric d' = md_Metric d.

Section MergeMail.
Context {R : Type -> Type} {redis : RedisList R} {laws : RedisListLaws R}.
Context (walk : forall T, gmap string T -> list (string * T)).
Hypothesis walk_perm : forall T (m : gmap string T), walk T m ≡ₚ map_to_list m.
Local Notation State := (AlarmState (R := R)).

(** The mail that [combineMail] writes for a group. *)
Definition combined (arr : list MailDto) : Mail :=
  match arr with
  | [] => mkMail "" "" ""
  | d :: _ =>
      if (Z.of_nat (length arr) =? 1)%Z then mkMail (md_Email d) (md_Subject d) (md_Content d)
      else mkMail (md_Email d)
             ("[P" ++s itoa (md_Priority d) ++s "][" ++s md_Status d ++s "] " ++s itoa (Z.of_nat (length arr)) ++s " " ++s md_Metric d)
             (join crlf (map md_Content arr))
  end.

Lemma combined_for dtos d0 g : Forall own_mail dtos -> g = filter (fun d => mail_key d = mail_key d0) dtos -> g <> [] -> mail_for (combined g) g.
Proof.
  intros Hown Eg Hne. rewrite Forall_forall in Hown.
  assert (forall d d', d ∈ g -> d' ∈ g -> md_Priority d = md_Priority d' /\ md_Status d = md_Status d' /\ md_Email d = md_Email d' /\ md_Metric d = md_Metric d') as Hsame.
  { intros d d' Hd Hd'. rewrite Eg in Hd, Hd'. apply list_elem_of_filter in Hd as [Hk Hd], Hd' as [Hk' Hd'].
    apply mail_key_inj; [by apply Hown|by apply Hown|congruence]. }
  destruct g as [|x g]; [done|]. assert (x ∈ x :: g) as Hx by (by left). unfold mail_for, combined.
  destruct (Z.eqb_spec (Z.of_nat (length (x :: g))) 1) as [H1|H1]; cbn [mail_Content mail_Tos mail_Subject].
  - destruct g; [|cbn in H1; lia]. split; [done|]. split; [done|]. intros d ->%list_elem_of_singleton. split; [done|]. split; [done|].
    by intros d' ->%list_elem_of_singleton.
  - split; [done|]. split; [done|]. intros d Hd. destruct (Hsame x d Hx Hd) as (_ & _ & ? & _). split; [done|].
    split; [intros [= -> ->]; cbn in H1; lia|]. intros d' Hd'. destruct (Hsame d' d Hd' Hd) as (?&?&_&?). done.
Qed.

Lemma adds_combined B (p : string * list MailDto) : p.2 <> [] ->
  adds B (let '(_, arr) := p in
      let size := Z.of_nat (length arr) in
      do! d := lift (at_index arr 0) in
      if (size =? 1)%Z then WriteMail [md_Email d] (md_Subject d) (md_Content d)
      else
        let subject := "[P" ++s itoa (md_Priority d) ++s "][" ++s md_Status d ++s "] " ++s itoa size ++s " " ++s md_Metric d in
        let content := join crlf (map md_Content arr) in
        WriteMail [md_Email d] subject content : A R unit) tt (one_mail (combined p.2)).
Proof.
  destruct p as [k [|d arr]]; [done|]. intros _. cbv zeta. eapply adds_read; [by apply adds_lift|]. unfold combined. cbn [snd].
  destruct (_ =? _)%Z; apply adds_mail.
Qed.

Lemma pop_mails_grown (s : State) (r : R MailDto) : all_alive s -> alive r -> all_alive (q_set UserMailQueue r s).
Proof. destruct s. unfold all_alive; cbn. tauto. Qed.

(** When the combiner has run, no mail waits, and each of those that
    waited is in exactly one mail, next to those of its priority, status and
    metric, which goes to the one address they share and holds the text of
    each of them in the order they came; a mail alone keeps its subject. *)
Theorem mails_delivered (s : State) :
  all_alive s -> Forall own_mail (waiting (q_user_mail s)) ->
  exists s' mails groups, combineMail walk s = Ret (tt, s') /\ view (q_user_mail s') = [] /\
    view (q_mail s') = map Obj mails ++ view (q_mail s) /\
    Forall2 mail_for mails groups /\ concat groups ≡ₚ waiting (q_user_mail s).
Proof using All.
  intros Hs Hown. pose proof Hs as (_ & _ & _ & _ & _ & _ & _ & Hum & _).
  destruct (pop_all_of_spec UserMailQueue s Hum) as (r & Er & Hv & Hr).
  unfold combineMail, popAllMailDto. rewrite (mthen_run _ _ _ _ _ Er). change (q_get UserMailQueue s) with (q_user_mail s).
  set (dtos := waiting (q_user_mail s)) in *. set (s1 := q_set UserMailQueue r s).
  assert (q_user_mail s1 = r /\ q_mail s1 = q_mail s) as [Eum Em] by (by destruct s).
  destruct (Nat.eqb_spec (length dtos) 0) as [H0|_].
  { exists s1, [], []. rewrite Eum, Em. split; [done|]. split; [done|]. split; [done|]. split; [constructor|]. apply nil_length_inv in H0. by rewrite H0. }
  set (l := walk (list MailDto) (file_all mail_key dtos)).
  assert (forall k g, (k, g) ∈ l -> g = filter (fun d => mail_key d = k) dtos /\ g <> []) as Hl.
  { intros k g. unfold l. rewrite walk_perm, elem_of_map_to_list, file_all_lookup. destruct (filter _ dtos); [done|]. by intros [= <-]. }
  destruct (adds_forM (memory_of s1) l _ (fun p => one_mail (combined p.2)) (fun p Hp => adds_combined _ p (proj2 (Hl p.1 p.2 ltac:(by destruct p)))) s1)
    as (s' & E & Ha & _ & _ & _ & Hm & _ & _ & _ & _ & Hum' & _); [by apply pop_mails_grown|done|].
  exists s', (rev (map (fun p => combined p.2) l)), (rev (map snd l)). split; [exact E|].
  unfold put in Hm, Hum'. rewrite (all_of_none o_user_mail), Eum, Hv in Hum' by done.
  rewrite (all_of_list o_mail _ (fun p => combined p.2)), Em in Hm by done. split; [done|]. split; [done|]. split.
  - rewrite !rev_reverse. apply Forall2_reverse. apply Forall2_fmap. apply Forall_Forall2_diag, Forall_forall. intros [k g] Hin.
    destruct (Hl k g Hin) as [Eg Hne]. cbn. destruct g as [|d0 g]; [done|]. apply (combined_for dtos d0); [done| |done].
    assert (d0 ∈ d0 :: g) as Hd0 by (by left). rewrite Eg in Hd0. apply list_elem_of_filter in Hd0 as [-> _]. done.
  - rewrite rev_reverse, reverse_Permutation. change (map snd l) with (l.*2). apply (filter_key_perm mail_key).
    + unfold l. rewrite walk_perm. apply NoDup_fst_map_to_list.
    + intros k g Hin. by apply Hl.
    + intros d Hd. unfold l. rewrite walk_perm, list_elem_of_fmap.
      destruct (filter (fun d' => mail_key d' = mail_key d) dtos) as [|x g] eqn:Ef.
      { exfalso. assert (d ∈ filter (fun d' => mail_key d' = mail_key d) dtos) as Hin by (by apply list_elem_of_filter). rewrite Ef in Hin. by apply elem_of_nil in Hin. }
      exists (mail_key d, x :: g). split; [done|]. apply elem_of_map_to_list. by rewrite file_all_lookup, Ef.
Qed.
End MergeMail.

(** Two mails of one metric for ann and one for bob. *)
Definition wait (e sub c : string) : reply MailDto := Obj (mkMailDto 3 "cpu" sub c e "PROBLEM").
Definition demo_waiting : AlarmState (R := mem) :=
  mkAlarm (Mem []) (Mem []) (Mem []) (Mem []) (Mem []) (Mem []) (Mem [])
    (Mem [wait "ann@xxx.com" "s3" "c3"; Text "nil"; wait "bob@xxx.com" "s2" "c2"; wait "ann@xxx.com" "s1" "c1"]) (Mem []) ∅ ∅.

Lemma mails_delivered_witness :
  exists s' mails groups, combineMail (R := mem) (fun T => map_to_list) demo_waiting = Ret (tt, s') /\ view (q_user_mail s') = [] /\
    view (q_mail s') = map Obj mails ++ view (q_mail demo_waiting) /\ Forall2 mail_for mails groups /\
    concat groups ≡ₚ waiting (q_user_mail demo_waiting) /\ length (waiting (q_user_mail demo_waiting)) = 3.
Proof.
  destruct (mails_delivered (R := mem) (fun T => map_to_list) (fun T m => reflexivity _) demo_waiting) as (s' & mails & groups & E & H1 & H2 & H3 & H4).
  - by repeat split.
  - assert (forall n, has "@" n = false -> forall sub c, own_mail (mkMailDto 3 "cpu" sub c (n ++s BYTEMAIL) "PROBLEM")) as Hown.
    { intros n Hn sub c. split; [cbn; lia|]. split; [by right|]. by exists n. }
    apply Forall_cons_2; [by apply (Hown "ann")|]. apply Forall_cons_2; [by apply (Hown "bob")|].
    apply Forall_cons_2; [by apply (Hown "ann")|]. apply Forall_nil_2.
  - exists s', mails, groups. split; [exact E|]. split; [exact H1|]. split; [exact H2|]. split; [exact H3|]. split; [exact H4|reflexivity].
Defined.

(** * Instant messages *)

(** The texts that the users of a message wait for. *)
Definition pairs_of (im : IM) : list (string * content) :=
  if is_empty (im_Tos im) then [] else map (fun u => (u, im_Content im)) (split (im_Tos im) ",").
Definition pending (L : list IM) : list (string * content) := concat (map pairs_of L).
Lemma pending_app a b : pending (a ++ b) = pending a ++ pending b.
Proof. unfold pending. by rewrite map_app, concat_app. Qed.
#[export] Instance pending_proper : Proper ((≡ₚ) ==> (≡ₚ)) pending.
Proof. intros a b E. unfold pending. by rewrite E. Qed.

(** No user of a message is the empty name. *)
Definition users_named (im : IM) : Prop := im_Tos im = "" \/ Forall (fun u => u <> "") (split (im_Tos im) ",").

Lemma split_clean c s : Forall (fun u => has c u = false) (split s (String c "")).
Proof.
  remember (String.length s) as n eqn:En. revert s En; induction n as [n IH] using lt_wf_ind; intros s ->.
  rewrite split_one. destruct (cut c s) as [[h t]|] eqn:E.
  - apply cut_some in E as [-> Hh]. constructor; [done|]. eapply IH; [|done]. rewrite sapp_length. cbn. lia.
  - apply cut_none in E. by constructor.
Qed.

Lemma split_second s : has "," s = true -> exists a b l, split s "," = a :: b :: l.
Proof.
  intros Hs. rewrite split_one. destruct (cut "," s) as [[h t]|] eqn:E; [|apply cut_none in E; congruence].
  rewrite split_one. destruct (cut "," t) as [[h' t']|]; by eexists _, _, _.
Qed.

Section Settle.
Context {R : Type -> Type} {redis : RedisList R} {laws : RedisListLaws R}.
Context (bot : bool -> content -> string -> string -> nat -> bool) (robot_token : string -> string -> string).
Context (LarkBotTokens : list string) (AlarmRetryTimes : Z).
Hypothesis tokens_ok : Forall (fun t => has "," t = true) LarkBotTokens.
Local Notation State := (AlarmState (R := R)).
Local Notation SendIM' := (SendIM bot robot_token LarkBotTokens AlarmRetryTimes).

Lemma try_tokens_ret im u tokens i : Forall (fun t => has "," t = true) tokens -> exists b, try_tokens bot robot_token im u tokens i = Ret b.
Proof using Type.
  intros Hf; revert i; induction Hf as [|t tokens Ht Hf IH]; intros i; cbn [try_tokens]; [by eexists|].
  unfold GetTokenFromCache. destruct (split_second t Ht) as (a & b & l & ->). change (at_index (a :: b :: l) 0) with (Ret a). change (at_index (a :: b :: l) 1) with (Ret b). cbn [rbind].
  case_match; [by eexists|apply IH].
Qed.

Lemma tokens_repeated n : Forall (fun t => has "," t = true) (concat (replicate n LarkBotTokens)).
Proof using tokens_ok. induction n; cbn; [done|]. by apply Forall_app. Qed.

(** A list the service writes its failures to, seen in the outbox. *)
Definition failures_to (q : queue (R := R) IM) (one : IM -> outbox) : Prop := forall B m, adds B (lpush q m) tt (one m).

(** One send: each user's text is taken, or waits in the next list, as a
    plain text. *)
Lemma SendIM_spec q one B im : failures_to q one -> users_named im ->
  exists taken back, adds B (SendIM' im q) taken (all_of one back) /\
    map (fun u => (u, im_Content im)) taken ++ pending back ≡ₚ pairs_of im /\ Forall (fun m => im_IsCard m = false /\ users_named m) back.
Proof using All.
  intros Hq Hn. unfold SendIM, pairs_of. destruct (is_empty (im_Tos im)) eqn:Ee.
  { exists [], []. split; [apply adds_ret|]. by split. }
  destruct Hn as [Hn|Hn]; [by rewrite Hn in Ee|]. pose proof (split_clean "," (im_Tos im)) as Hc. cbv zeta.
  set (toks := concat _).
  assert (forall taken0, exists taken back, adds B (foldM (fun taken user =>
      do! thisSucc := lift (try_tokens bot robot_token im user toks 0) in
      if (thisSucc : bool) then ret (taken ++ [user])
      else do! _ := WriteIMModel (mkIM user (im_Content im) false) q in ret taken) taken0 (split (im_Tos im) ",")) (taken0 ++ taken) (all_of one back) /\
    map (fun u => (u, im_Content im)) taken ++ pending back ≡ₚ map (fun u => (u, im_Content im)) (split (im_Tos im) ",") /\
    Forall (fun m => im_IsCard m = false /\ users_named m) back) as Hfold; [|destruct (Hfold []) as (t & b & ?); by exists t, b].
  induction (split (im_Tos im) ",") as [|u us IH]; intros taken0.
  { exists [], []. rewrite app_nil_r. split; [apply adds_ret|]. by split. }
  inversion_clear Hn as [|?? Hu Hn']. inversion_clear Hc as [|?? Hcu Hc'].
  destruct (try_tokens_ret im u toks 0) as [b Eb]; [apply tokens_repeated|]. cbn [foldM]. destruct b.
  - destruct (IH Hn' Hc' (taken0 ++ [u])) as (taken & back & Ha & Hp & Hf). exists (u :: taken), back. split; [|split; [|done]].
    + rewrite <- also_nothing_l. eapply adds_then.
      * eapply adds_read; [by apply adds_lift|]. apply adds_ret.
      * by rewrite <- app_assoc in Ha.
    + cbn. by rewrite Hp.
  - destruct (IH Hn' Hc' taken0) as (taken & back & Ha & Hp & Hf). exists taken, (mkIM u (im_Content im) false :: back). split; [|split].
    + rewrite all_of_cons. eapply adds_then; [|exact Ha]. eapply adds_read; [by apply adds_lift|]. cbv beta iota.
      rewrite <- (also_nothing_r (one _)). eapply adds_then; [apply Hq|apply adds_ret].
    + unfold pending. cbn [map concat]. fold (pending back). unfold pairs_of at 1. cbn [im_Tos im_Content].
      destruct u as [|a u]; [done|]. cbn [is_empty]. rewrite split_no_sep by done. cbn. rewrite <- Permutation_middle. by rewrite Hp.
    + constructor; [|done]. split; [done|]. right. cbn [im_Tos]. rewrite split_no_sep by done. by repeat constructor.
Qed.

Lemma all_of_app {T} (f : T -> outbox) a b : all_of f (a ++ b) = also (all_of f a) (all_of f b).
Proof using Type. induction a as [|x a IH]; cbn [app]; [by rewrite also_nothing_l|]. by rewrite !all_of_cons, IH, also_assoc. Qed.

(** A whole list. *)
Lemma send_list_spec q one B L : failures_to q one -> Forall users_named L ->
  forall acc, exists taken back,
    adds B (foldM (fun acc im => do! taken := SendIM' im q in ret (acc ++ map (fun u => (u, im_Content im)) taken)) acc L) (acc ++ taken) (all_of one back) /\
    taken ++ pending back ≡ₚ pending L /\ Forall (fun m => im_IsCard m = false /\ users_named m) back.
Proof using All.
  intros Hq Hn. induction Hn as [|im L Him Hn IH]; intros acc; cbn [foldM].
  { exists [], []. rewrite app_nil_r. split; [apply adds_ret|]. by split. }
  destruct (SendIM_spec q one B im Hq Him) as (t1 & b1 & Ha1 & Hp1 & Hf1).
  destruct (IH (acc ++ map (fun u => (u, im_Content im)) t1)) as (t2 & b2 & Ha2 & Hp2 & Hf2).
  exists (map (fun u => (u, im_Content im)) t1 ++ t2), (b1 ++ b2). split; [|split].
  - rewrite all_of_app, app_assoc. eapply adds_then; [|exact Ha2]. rewrite <- (also_nothing_r (all_of one b1)). eapply adds_then; [exact Ha1|apply adds_ret].
  - rewrite pending_app. change (pending (im :: L)) with (pairs_of im ++ pending L). rewrite <- Hp1, <- Hp2. solve_Permutation.
  - by apply Forall_app.
Qed.

Lemma waiting_put {T} (new : list T) (r r' : R T) : put new r r' -> waiting r' = waiting r ++ rev new.
Proof using Type.
  unfold put, waiting. intros ->. rewrite rev_app_distr. unfold objs. rewrite omap_app. f_equal.
  rewrite <- map_rev. induction (rev new) as [|x l IH]; [done|]. cbn. by f_equal.
Qed.

Lemma all_of_ims one (proj : outbox -> list IM) back :
  proj nothing = [] -> (forall a b, proj (also a b) = proj b ++ proj a) -> (forall m, proj (one m) = [m]) -> proj (all_of one back) = rev back.
Proof using Type. intros. rewrite (all_of_list proj one id) by auto. by rewrite map_id. Qed.

(** C36: A round of sending and a later round over its failures settle every
    instant message: the text of each user of each message that waited or had
    failed is taken by a robot, once, or ends in the list of those given up,
    the two lists are empty, and what is given up is kept as a plain text even
    when it was a card.  The lists of redis answer, each token of a robot holds a
    comma, and no user of a message has an empty name. *)
Theorem messages_settle (s : State) :
  all_alive s -> Forall users_named (waiting (q_im s)) -> Forall users_named (waiting (q_failed_im s)) ->
  exists t1 s1 t2 s2 lost,
    ConsumeIM bot robot_token LarkBotTokens AlarmRetryTimes s = Ret (t1, s1) /\
    ConsumeFailedIM bot robot_token LarkBotTokens AlarmRetryTimes s1 = Ret (t2, s2) /\
    view (q_im s2) = [] /\ view (q_failed_im s2) = [] /\ view (q_finally_failed_im s2) = map Obj lost ++ view (q_finally_failed_im s) /\
    t1 ++ t2 ++ pending lost ≡ₚ pending (waiting (q_im s)) ++ pending (waiting (q_failed_im s)) /\
    Forall (fun m => im_IsCard m = false) lost.
Proof using All.
  intros Hs Hn1 Hn2. pose proof Hs as (_ & Him & _ & _ & Hfim & _).
  destruct (pop_all_of_spec IM_QUEUE_NAME s Him) as (r1 & Er1 & Hv1 & Hr1). set (s0 := q_set IM_QUEUE_NAME r1 s) in *.
  assert (all_alive s0 /\ q_im s0 = r1 /\ q_failed_im s0 = q_failed_im s /\ q_finally_failed_im s0 = q_finally_failed_im s) as (Hs0 & E0 & E0f & E0l).
  { destruct s. unfold all_alive in *; cbn in *. tauto. }
  destruct (send_list_spec FAILED_IM_QUEUE_NAME one_failed_im (memory_of s0) (waiting (q_im s)) adds_failed_im Hn1 []) as (t1 & b1 & Ha1 & Hp1 & Hf1).
  destruct (Ha1 s0 Hs0 eq_refl) as (s1 & E1 & (Hs1 & _ & _ & Hi1 & _ & _ & Hfi1 & Hl1 & _)).
  unfold put in Hi1, Hl1. rewrite (all_of_none o_im), E0, Hv1 in Hi1 by done. rewrite (all_of_none o_finally_failed_im), E0l in Hl1 by done.
  rewrite (all_of_ims one_failed_im o_failed_im) in Hfi1 by done. apply waiting_put in Hfi1. rewrite rev_involutive, E0f in Hfi1.
  pose proof Hs1 as (_ & _ & _ & _ & Hfim1 & _).
  destruct (pop_all_of_spec FAILED_IM_QUEUE_NAME s1 Hfim1) as (r2 & Er2 & Hv2 & Hr2). set (s1' := q_set FAILED_IM_QUEUE_NAME r2 s1) in *.
  assert (all_alive s1' /\ q_im s1' = q_im s1 /\ q_failed_im s1' = r2 /\ q_finally_failed_im s1' = q_finally_failed_im s1) as (Hs1' & E1i & E1f & E1l).
  { destruct s1. unfold all_alive in *; cbn in *. tauto. }
  change (q_get FAILED_IM_QUEUE_NAME s1) with (q_failed_im s1) in Er2. rewrite Hfi1 in Er2.
  destruct (send_list_spec FINALLY_FAILED_IM_QUEUE_NAME one_finally_failed_im (memory_of s1') (waiting (q_failed_im s) ++ b1) adds_finally_failed_im)
    with (acc := @nil (string * content)) as (t2 & b2 & Ha2 & Hp2 & Hf2).
  { apply Forall_app. split; [done|]. eapply Forall_impl; [exact Hf1|]. by intros m []. }
  destruct (Ha2 s1' Hs1' eq_refl) as (s2 & E2 & (_ & _ & _ & Hi2 & _ & _ & Hfi2 & Hl2 & _)).
  unfold put in Hi2, Hfi2, Hl2. rewrite (all_of_none o_im) in Hi2 by done. rewrite (all_of_none o_failed_im) in Hfi2 by done.
  rewrite (all_of_ims one_finally_failed_im o_finally_failed_im) in Hl2 by done.
  exists t1, s1, t2, s2, (rev b2).
  split; [unfold ConsumeIM, PopAllIM; by rewrite (mthen_run _ _ _ _ _ Er1)|].
  split; [unfold ConsumeFailedIM, PopAllIM; by rewrite (mthen_run _ _ _ _ _ Er2)|].
  split; [by rewrite Hi2, E1i, Hi1|]. split; [by rewrite Hfi2, E1f, Hv2|].
  split; [by rewrite Hl2, E1l, Hl1|]. split.
  - assert (pending (rev b2) ≡ₚ pending b2) as -> by (by rewrite <- (Permutation_rev b2)). rewrite Hp2, pending_app, <- Hp1. solve_Permutation.
  - apply Forall_rev. eapply Forall_impl; [exact Hf2|]. by intros m [].
Qed.
End Settle.

(** A robot that never takes a card. *)
Definition demo_sends : AlarmState (R := mem) :=
  mkAlarm (Mem []) (Mem [Obj (mkIM "ann" (ACard (mkCard None None "" "" "" "" "ann" "" "")) true); Obj (mkIM "ann,bob" (Plain "hi") false)])
    (Mem []) (Mem []) (Mem []) (Mem []) (Mem []) (Mem []) (Mem []) ∅ ∅.

Lemma messages_settle_witness :
  exists t1 s1 t2 s2 lost,
    ConsumeIM (fun card _ _ _ _ => negb card) (fun a _ => a) ["id,secret"] 2 demo_sends = Ret (t1, s1) /\
    ConsumeFailedIM (fun card _ _ _ _ => negb card) (fun a _ => a) ["id,secret"] 2 s1 = Ret (t2, s2) /\
    view (q_im s2) = [] /\ view (q_failed_im s2) = [] /\ view (q_finally_failed_im s2) = map Obj lost ++ view (q_finally_failed_im demo_sends) /\
    t1 ++ t2 ++ pending lost ≡ₚ pending (waiting (q_im demo_sends)) ++ pending (waiting (q_failed_im demo_sends)) /\
    Forall (fun m => im_IsCard m = false) lost.
Proof.
  apply (messages_settle (R := mem) (fun card _ _ _ _ => negb card) (fun a _ => a) ["id,secret"] 2); [by repeat constructor|by repeat split| |by constructor].
  apply Forall_cons_2; [by right; repeat constructor|]. apply Forall_cons_2; [by right; repeat constructor|]. constructor.
Defined.
