(* ===== verification/AlarmBlocks.v ===== *)
(** The blocking of alarms ([modules/alarm/http/controller.go],
    [modules/alarm/cron/get_block_monitor.go]): a person blocks what a counter
    says for a while; the block is a key of redis with a time to live, a member
    of a set of redis, and an entry in the memory of the alarm process that took
    the request; the other processes learn of it, and all of them of its end,
    when they read the set, once a minute.

    A request, and a round over the set, is one step; what redis answers is that
    of the interfaces [RedisKV] and [RedisSets], the two being apart as their
    keys are. *)
From S2P Require Export Alarm.
From Stdlib Require Import Ascii.
Local Open Scope string_scope.

(** Source: modules/alarm/http/controller.go, type SingleBlockMonitor. *)
Record SingleBlockMonitor := mkBlock { sb_Counter : string; sb_UserName : string; sb_Time : Z }.

Definition BLOCK_MONITOR_SET : string := "block_monitor_set".

(** The conversion [string(n)] of a number: the character of that number in
    UTF-8, or the replacement character when there is none. *)
Definition byte_of (n : Z) : string -> string := String (ascii_of_nat (Z.to_nat n)).
Definition trail (n k : Z) : string -> string := byte_of (128 + Z.land (Z.shiftr n k) 63).
Definition string_of_rune (n : Z) : string :=
  (if (n <? 0) || (1114111 <? n) || ((55296 <=? n) && (n <=? 57343)) then byte_of 239 (byte_of 191 (byte_of 189 ""))
   else if n <? 128 then byte_of n ""
   else if n <? 2048 then byte_of (192 + Z.shiftr n 6) (trail n 0 "")
   else if n <? 65536 then byte_of (224 + Z.shiftr n 12) (trail n 6 (trail n 0 ""))
   else byte_of (240 + Z.shiftr n 18) (trail n 12 (trail n 6 (trail n 0 ""))))%Z.

(** What a request is answered: a body that does not bind, an error of redis, or
    a text; a handler may write several. *)
Inductive said := BadInput | RedisError | Said (s : string).
Definition answers : Type := list (Z * said).
Definition badstatus : Z := 400.

Section Blocks.
Context {R : Type -> Type} {K S : Type} {lists : RedisList R} {keys : RedisKV K} {sets : RedisSets S}.

(** The alarm processes, and what they share. *)
Record Fleet := mkFleet { fl_alarm : nat -> AlarmState (R := R); fl_keys : K; fl_sets : S }.
Notation F := (M Fleet).
Definition with_alarm p (a : AlarmState) (f : Fleet) : Fleet := mkFleet (fun q => if decide (p = q) then a else fl_alarm f q) (fl_keys f) (fl_sets f).

(** An action of one process. *)
Definition on_process {X} (p : nat) (m : M AlarmState X) : F X := fun f =>
  match m (fl_alarm f p) with Ret (x, a) => Ret (x, with_alarm p a f) | Panic e => Panic e end.
Definition change_blocks (p : nat) (g : gmap string string -> gmap string string) : F unit :=
  on_process p (modify (fun s => set_blocks (g (BlockMonitorCounter s)) s)).
(** A command: whether redis took it. *)
Definition on_keys (c : K -> option K) : F bool := fun f =>
  match c (fl_keys f) with Some k => Ret (true, mkFleet (fl_alarm f) k (fl_sets f)) | None => Ret (false, f) end.
Definition on_sets (c : S -> option S) : F bool := fun f =>
  match c (fl_sets f) with Some s => Ret (true, mkFleet (fl_alarm f) (fl_keys f) s) | None => Ret (false, f) end.

(** SETEX sets a key and its time to live at once; a time that is not positive is refused. *)
Definition SETEX (now : Z) (k : string) (ttl : Z) (v : string) (r : K) : option K :=
  if (ttl <=? 0)%Z then None else r ← SET now k v r; EXPIRE now k ttl r.

(** The key of a block. *)
Definition block_key (user counter : string) : string := BLOCK_MONITOR_KEY_PREFIX ++s user ++s "_" ++s counter.
Definition said_if (ok : bool) : answers := if ok then [] else [(badstatus, RedisError)].

(** Source: modules/alarm/http/controller.go, CreateBlockMonitor. After a refusal of redis the handler goes on. *)
Definition CreateBlockMonitor (p : nat) (now : Z) (inputs : option SingleBlockMonitor) : F answers :=
  match inputs with
  | None => ret [(badstatus, BadInput)]
  | Some i =>
      if is_empty (sb_UserName i) then ret [(badstatus, Said "wrong inputs")]
      else
        let blockKey := block_key (sb_UserName i) (sb_Counter i) in
        do! set := on_keys (SETEX now blockKey (sb_Time i) (itoa (sb_Time i))) in
        do! _ := on_sets (SADD now BLOCK_MONITOR_SET blockKey) in
        do! _ := change_blocks p (fun m => <[blockKey := string_of_rune (sb_Time i)]> m) in
        ret (said_if set ++ [(200%Z, Said "block success")])%list
  end.

(** Source: modules/alarm/http/controller.go, DeleteBlockMonitor. *)
Definition DeleteBlockMonitor (p : nat) (now : Z) (inputs : option SingleBlockMonitor) : F answers :=
  match inputs with
  | None => ret [(badstatus, BadInput)]
  | Some i =>
      let blockKey := block_key (sb_UserName i) (sb_Counter i) in
      do! _ := change_blocks p (fun m => delete blockKey m) in
      do! deleted := on_keys (DEL now blockKey) in
      do! removed := on_sets (SREM now BLOCK_MONITOR_SET blockKey) in
      ret (said_if deleted ++ said_if removed ++ [(200%Z, Said "delete block success")])%list
  end.

(** Source: modules/alarm/http/controller.go, GetBlockMonitor. *)
Definition GetBlockMonitor (p : nat) : F (gmap string string) := gets (fun f => BlockMonitorCounter (fl_alarm f p)).

(** What [redisc.String] makes of the answer to GET: a key that is not there, and an error, give an empty text. *)
Definition get_text (now : Z) (f : Fleet) (k : string) : string := match GET now k (fl_keys f) with Some (Some v) => v | _ => "" end.
(** Source: modules/alarm/cron/get_block_monitor.go, RefreshBlockMonitor. The body of the loop: a round with what redis answers; what is over leaves the set. *)
Definition RefreshBlockMonitor (p : nat) (now : Z) : F unit := fun f =>
  mthen (on_process p (GetBlockMonitors (SMEMBERS now BLOCK_MONITOR_SET (fl_sets f)) (get_text now f)))
    (fun removed => forM removed (fun item => do! _ := on_sets (SREM now BLOCK_MONITOR_SET item) in skip)) f.

(** * The requests and the rounds of a fleet *)

(** A step of a process at a time. *)
Inductive block_op := OpCreate (i : option SingleBlockMonitor) | OpDelete (i : option SingleBlockMonitor) | OpRefresh.
Record block_step := mkStep { bs_process : nat; bs_time : Z; bs_op : block_op }.
(** Source: modules/alarm/http/http.go, Start. *)
Definition block_run (x : block_step) : F answers :=
  match bs_op x with
  | OpCreate i => CreateBlockMonitor (bs_process x) (bs_time x) i
  | OpDelete i => DeleteBlockMonitor (bs_process x) (bs_time x) i
  | OpRefresh => do! _ := RefreshBlockMonitor (bs_process x) (bs_time x) in ret []
  end.
Definition blocks_run (l : list block_step) : F unit := forM l (fun x => do! _ := block_run x in skip).

End Blocks.
Arguments Fleet R K S : clear implicits.
