(* ===== verification/AlarmBlocksThms.v ===== *)
(** How long an alarm stays blocked: the process that took the block, and those
    that read of it while it lasts, hold it; the first round over the set after
    its time lifts it in the process that makes the round, and in no other
    ([block_lifted_once]). *)
From S2P Require Import Prelude GoStr.
From S2P Require Export AlarmBlocks AlarmThms.
Local Open Scope string_scope.
Local Open Scope list_scope.

(** * A block, seen from outside *)

(** Whether a block is in the set, and which processes hold it. *)
Record Held := mkHeld { in_set : bool; on : nat -> bool }.
(** A round of a process, for a block that ends at [e]: while it is in the set,
    the process holds it until then, and lifts it for all to see after. *)
Definition held_step (e : Z) (b : Held) (x : block_step) : Held :=
  match bs_op x with
  | OpRefresh => if in_set b then let lasts := (bs_time x <? e)%Z in mkHeld lasts (fun q => if decide (q = bs_process x) then lasts else on b q) else b
  | _ => b
  end.
(** The rounds of a process before a time, and the process whose round is the first after it. *)
Definition reads_before (e : Z) (q : nat) (x : block_step) : bool :=
  match bs_op x with OpRefresh => (bs_time x <? e)%Z && bool_decide (bs_process x = q) | _ => false end.
Fixpoint lifter (e : Z) (l : list block_step) : option nat :=
  match l with
  | [] => None
  | x :: l => match bs_op x with OpRefresh => if (e <=? bs_time x)%Z then Some (bs_process x) else lifter e l | _ => lifter e l end
  end.
(** A step that is about no block with this key. *)
Definition leaves (key : string) (x : block_step) : Prop :=
  match bs_op x with OpCreate (Some i) | OpDelete (Some i) => block_key (sb_UserName i) (sb_Counter i) <> key | _ => True end.

Lemma held_over e l b : in_set b = false -> fold_left (held_step e) l b = b.
Proof. intros Hb. induction l as [|x l IH]; [done|]. cbn. unfold held_step at 2. rewrite Hb. by destruct (bs_op x). Qed.
Lemma reads_none e q l now : (e <= now)%Z -> StronglySorted Z.le (now :: map bs_time l) -> existsb (reads_before e q) l = false.
Proof.
  intros He [_ Hl]%StronglySorted_inv. induction l as [|x l IH]; [done|]. cbn in *. apply Forall_cons in Hl as [Hx Hl].
  rewrite IH by done. unfold reads_before. destruct (bs_op x); try done. destruct (Z.ltb_spec (bs_time x) e); [lia|done].
Qed.
(** Who holds a block after some steps in the order of their times. *)
Lemma held_run e l : StronglySorted Z.le (map bs_time l) -> forall b, in_set b = true -> forall q,
  on (fold_left (held_step e) l b) q = (on b q || existsb (reads_before e q) l) && negb (bool_decide (lifter e l = Some q)).
Proof.
  induction l as [|x l IH]; intros Hl b Hb q; [cbn; by rewrite orb_false_r, andb_true_r|]. cbn in Hl. pose proof Hl as [Hl' _]%StronglySorted_inv.
  cbn [fold_left existsb lifter]. unfold reads_before at 1. unfold held_step at 2. rewrite Hb. destruct (bs_op x) eqn:Ex; [by apply IH..|].
  destruct (Z.leb_spec e (bs_time x)) as [He|He].
  - destruct (Z.ltb_spec (bs_time x) e) as [?|_]; [lia|]. rewrite held_over by done. cbn. rewrite (reads_none e q l _ He Hl), orb_false_r.
    destruct (decide (q = bs_process x)) as [->|Hne]; [by rewrite bool_decide_true, andb_false_r|].
    rewrite (bool_decide_false (Some (bs_process x) = Some q)) by congruence. by rewrite andb_true_r.
  - destruct (Z.ltb_spec (bs_time x) e) as [_|?]; [|lia]. rewrite IH by done. cbn. f_equal. destruct (decide (q = bs_process x)) as [->|Hne].
    + rewrite bool_decide_true by done. cbn. by rewrite orb_true_r.
    + by rewrite bool_decide_false by congruence.
Qed.

Lemma reads_before_spec e q l :
  existsb (reads_before e q) l = true <-> exists x, x ∈ l /\ bs_op x = OpRefresh /\ bs_process x = q /\ (bs_time x < e)%Z.
Proof.
  rewrite existsb_exists. split; intros (x & Hin & Hb); exists x; rewrite list_elem_of_In in *; (split; [done|]); unfold reads_before in *.
  - destruct (bs_op x); try done. apply andb_true_iff in Hb as [Hb1 Hb2]. apply bool_decide_eq_true in Hb2. by apply Z.ltb_lt in Hb1.
  - destruct Hb as (-> & Ep & Et). apply Z.ltb_lt in Et. rewrite Et. by apply bool_decide_eq_true.
Qed.

Section BlocksThms.
Context {R : Type -> Type} {K S : Type} {lists : RedisList R} {keys : RedisKV K} {klaws : RedisKVLaws K}
  {sets : RedisSets S} {slaws : RedisSetsLaws S}.
Notation Fleet := (Fleet R K S).

(** What a process has blocked. *)
Definition blocks (f : Fleet) (q : nat) : gmap string string := BlockMonitorCounter (fl_alarm f q).
(** The set of blocks has no time to live, and redis answers for it. *)
Record sets_answer : Prop := {
  adds_member now x (r : S) : is_Some (SADD now BLOCK_MONITOR_SET x r);
  drops_member now x (r : S) : is_Some (SREM now BLOCK_MONITOR_SET x r);
  lists_members now (r : S) : is_Some (SMEMBERS now BLOCK_MONITOR_SET r) }.

(** * Commands and rounds *)

(** From [now] on a key of redis is the text [v], until [e]. *)
Definition lives (k v : string) (e now : Z) (r : K) : Prop :=
  up r /\ forall t, (now <= t)%Z -> live r t k = (if (t <? e)%Z then Some v else None) /\ hlive r t k = None.
Lemma lives_later k v e now now' r : (now <= now')%Z -> lives k v e now r -> lives k v e now' r.
Proof using Type. intros Hn [Hu H]. split; [done|]. intros t Ht. apply H. lia. Qed.
Lemma lives_but k v e now k' r r' : k' <> k -> same_but now k' r r' -> lives k v e now r -> lives k v e now r'.
Proof using Type. intros Hk [Hu Hs] [_ H]. split; [done|]. intros t Ht. destruct (Hs t k Ht ltac:(done)) as [-> ->]. by apply H. Qed.

Lemma SETEX_lives now k ttl v r : up r -> (0 < ttl)%Z -> exists r', SETEX now k ttl v r = Some r' /\ lives k v (now + ttl) now r'.
Proof using klaws.
  intros Hu Ht. unfold SETEX. destruct (Z.leb_spec ttl 0); [lia|]. destruct (SET_live now k v r Hu) as (r1 & -> & [Hu1 _] & H1). cbn.
  destruct (EXPIRE_live now k ttl v r1 Hu1 Ht (H1 now ltac:(lia))) as (r2 & -> & [Hu2 _] & H2). by exists r2.
Qed.
Lemma SETEX_but now k ttl v r k' w e : k <> k' -> lives k' w e now r -> forall r', SETEX now k ttl v r = Some r' -> lives k' w e now r'.
Proof using klaws.
  intros Hk H r' E. unfold SETEX in E. destruct (Z.leb_spec ttl 0); [done|]. destruct (SET_live now k v r (proj1 H)) as (r1 & E1 & S1 & H1). rewrite E1 in E. cbn in E.
  destruct (EXPIRE_live now k ttl v r1 (proj1 S1) ltac:(lia) (H1 now ltac:(lia))) as (r2 & E2 & S2 & _). rewrite E2 in E. injection E as <-.
  eapply lives_but; [done|exact S2|]. by eapply lives_but.
Qed.

(** What a round does to the memory of its process, item by item. *)
Definition take_item (get : string -> string) (removed : list string) (item : string) : M (AlarmState (R := R)) (list string) :=
  if is_empty (get item) then do! _ := modify (fun s => set_blocks (delete item (BlockMonitorCounter s)) s) in ret (removed ++ [item])
  else do! _ := modify (fun s => set_blocks (<[item := get item]> (BlockMonitorCounter s)) s) in ret removed.
(** What is read under a key. *)
Definition as_read (get : string -> string) (k : string) : option string := if is_empty (get k) then None else Some (get k).

Lemma take_item_run get removed i (s : AlarmState (R := R)) : exists s',
  take_item get removed i s = Ret (if is_empty (get i) then removed ++ [i] else removed, s') /\
  forall k, BlockMonitorCounter s' !! k = if decide (k = i) then as_read get i else BlockMonitorCounter s !! k.
Proof using Type.
  unfold take_item, as_read. destruct (is_empty (get i)); (eexists; split; [reflexivity|]); intros k; cbn; destruct (decide (k = i)) as [->|Hne].
  - by rewrite lookup_delete_eq.
  - by rewrite lookup_delete_ne.
  - by rewrite lookup_insert_eq.
  - by rewrite lookup_insert_ne.
Qed.
Lemma take_items_run get l : forall removed (s : AlarmState (R := R)), exists s',
  foldM (take_item get) removed l s = Ret (removed ++ List.filter (fun i => is_empty (get i)) l, s') /\
  forall k, BlockMonitorCounter s' !! k = if decide (k ∈ l) then as_read get k else BlockMonitorCounter s !! k.
Proof using Type.
  induction l as [|i l IH]; intros removed s; cbn [foldM List.filter].
  { exists s. rewrite app_nil_r. split; [done|]. intros k. rewrite decide_False; [done|]. apply not_elem_of_nil. }
  destruct (take_item_run get removed i s) as (s1 & E1 & H1). rewrite (mthen_run _ _ _ _ _ E1).
  destruct (IH (if is_empty (get i) then removed ++ [i] else removed) s1) as (s2 & E2 & H2). exists s2. split.
  - rewrite E2. destruct (is_empty (get i)); [by rewrite <- app_assoc|done].
  - intros k. rewrite H2, H1. destruct (decide (k ∈ l)) as [Hl|Hl]; [by rewrite decide_True by (by right)|].
    destruct (decide (k = i)) as [->|Hne]; [by rewrite decide_True by (by left)|]. rewrite decide_False; [done|]. by intros [?|?]%elem_of_cons.
Qed.
Lemma GetBlockMonitors_run l get (s : AlarmState (R := R)) : exists s',
  GetBlockMonitors (Some l) get s = Ret (List.filter (fun i => is_empty (get i)) l, s') /\
  forall k, BlockMonitorCounter s' !! k = if decide (k ∈ l) then as_read get k else BlockMonitorCounter s !! k.
Proof using Type. apply (take_items_run get l []). Qed.

Context (answer : sets_answer).

(** The items that are over leave the set. *)
Lemma remove_all_run now l : forall (f : Fleet), lasting (fl_sets f) BLOCK_MONITOR_SET -> exists f',
  forM l (fun item => do! _ := on_sets (SREM now BLOCK_MONITOR_SET item) in skip) f = Ret (tt, f') /\
  fl_alarm f' = fl_alarm f /\ fl_keys f' = fl_keys f /\ lasting (fl_sets f') BLOCK_MONITOR_SET /\
  forall x, x ∈ members (fl_sets f') now BLOCK_MONITOR_SET <-> x ∈ members (fl_sets f) now BLOCK_MONITOR_SET /\ x ∉ l.
Proof using All.
  induction l as [|i l IH]; intros f Hf; cbn [forM].
  { exists f. repeat (split; [done|]). intros x. split; [|tauto]. intros H. split; [done|]. apply not_elem_of_nil. }
  destruct (drops_member answer now i (fl_sets f)) as [r E]. unfold on_sets at 1, mthen. rewrite E. cbv beta iota.
  destruct (SREM_members _ _ _ _ _ E) as [Hm _]. destruct (IH (mkFleet (fl_alarm f) (fl_keys f) r)) as (f' & E' & Ha & Hk & Hl & Hx); [by eapply SREM_lasting|].
  exists f'. split; [exact E'|]. repeat (split; [done|]). intros x. rewrite Hx. cbn. rewrite Hm, elem_of_cons. set_solver.
Qed.
Lemma RefreshBlockMonitor_run p now (f : Fleet) : lasting (fl_sets f) BLOCK_MONITOR_SET -> exists f',
  RefreshBlockMonitor p now f = Ret (tt, f') /\ fl_keys f' = fl_keys f /\ lasting (fl_sets f') BLOCK_MONITOR_SET /\
  (forall q, q <> p -> blocks f' q = blocks f q) /\
  forall k, let listed := k ∈ members (fl_sets f) now BLOCK_MONITOR_SET in
    (k ∈ members (fl_sets f') now BLOCK_MONITOR_SET <-> listed /\ get_text now f k <> "") /\
    (listed -> blocks f' p !! k = as_read (get_text now f) k) /\ (~ listed -> blocks f' p !! k = blocks f p !! k).
Proof using All.
  intros Hl. unfold RefreshBlockMonitor, on_process. destruct (lists_members answer now (fl_sets f)) as [l E]. rewrite E.
  destruct (SMEMBERS_members _ _ _ _ E) as [_ Hin]. destruct (GetBlockMonitors_run l (get_text now f) (fl_alarm f p)) as (a & Ea & Hb).
  unfold mthen at 1. rewrite Ea. destruct (remove_all_run now (List.filter (fun i => is_empty (get_text now f i)) l) (with_alarm p a f) Hl) as (f' & Ef & Ha & Hk & Hl' & Hx).
  exists f'. split; [exact Ef|]. split; [done|]. split; [done|].
  split; [intros q Hq; unfold blocks; rewrite Ha; cbn; by rewrite decide_False by done|].
  intros k. cbv zeta. rewrite Hx. cbn [fl_sets with_alarm]. unfold blocks. rewrite Ha. cbn. rewrite decide_True by done. rewrite Hb. split; [|split].
  - assert (k ∈ List.filter (fun i => is_empty (get_text now f i)) l <-> k ∈ l /\ get_text now f k = "") as ->.
    { rewrite list_elem_of_In, filter_In, <- list_elem_of_In. destruct (get_text now f k); cbn; naive_solver. }
    rewrite Hin. destruct (decide (get_text now f k = "")); naive_solver.
  - intros H. by rewrite decide_True by (by apply Hin).
  - intros H. by rewrite decide_False by (by rewrite Hin).
Qed.

(** * The fleet does what is seen *)

Section one_block.
Context (key v : string) (e : Z) (Hv : v <> "").

Definition shows (now : Z) (f : Fleet) (b : Held) : Prop :=
  lives key v e now (fl_keys f) /\ lasting (fl_sets f) BLOCK_MONITOR_SET /\
  (key ∈ members (fl_sets f) now BLOCK_MONITOR_SET <-> in_set b = true) /\
  forall q, is_Some (blocks f q !! key) <-> on b q = true.

Lemma shows_later now now' f b : (now <= now')%Z -> shows now f b -> shows now' f b.
Proof using All.
  intros Hn (H1 & H2 & H3 & H4). split; [by eapply lives_later|]. split; [done|]. split; [|done]. by rewrite (lasting_members now now').
Qed.
Lemma text_of now (f : Fleet) : lives key v e now (fl_keys f) -> get_text now f key = if (now <? e)%Z then v else "".
Proof using klaws.
  intros [Hu H]. destruct (H now ltac:(lia)) as [Hl Hh]. unfold get_text. rewrite (GET_live now key (fl_keys f) Hu Hh), Hl. by destruct (now <? e)%Z.
Qed.

(** A command on another key, a member of another name, an entry of another name. *)
Lemma on_keys_shows now f b (c : K -> option K) : shows now f b -> (forall r r', lives key v e now r -> c r = Some r' -> lives key v e now r') ->
  exists x f', on_keys c f = Ret (x, f') /\ shows now f' b.
Proof using Type.
  intros (H1 & H) Hc. unfold on_keys. destruct (c (fl_keys f)) as [r|] eqn:E; do 2 eexists; (split; [reflexivity|]); split; try done. by eapply Hc.
Qed.
Lemma on_sets_shows now f b (c : S -> option S) : shows now f b ->
  (forall r r', lasting r BLOCK_MONITOR_SET -> c r = Some r' -> lasting r' BLOCK_MONITOR_SET /\ (key ∈ members r' now BLOCK_MONITOR_SET <-> key ∈ members r now BLOCK_MONITOR_SET)) ->
  exists x f', on_sets c f = Ret (x, f') /\ shows now f' b.
Proof using Type.
  intros (H1 & H2 & H3 & H4) Hc. unfold on_sets. destruct (c (fl_sets f)) as [r|] eqn:E; do 2 eexists; (split; [reflexivity|]); [|done].
  destruct (Hc _ _ H2 E) as [H5 H6]. split; [done|]. split; [done|]. split; [cbn; by rewrite H6|done].
Qed.
Lemma change_blocks_shows now f b p g : shows now f b -> (forall m : gmap string string, g m !! key = m !! key) ->
  exists f', change_blocks p g f = Ret (tt, f') /\ shows now f' b.
Proof using Type.
  intros (H1 & H2 & H3 & H4) Hg. eexists. split; [reflexivity|]. split; [done|]. split; [done|]. split; [done|]. intros q. rewrite <- H4.
  unfold blocks. cbn. destruct (decide (p = q)) as [->|]; [|done]. cbn. by rewrite Hg.
Qed.

Lemma step_shows now f b x : shows now f b -> (now <= bs_time x)%Z -> leaves key x ->
  exists a f', block_run x f = Ret (a, f') /\ shows (bs_time x) f' (held_step e b x).
Proof using All.
  intros Hs Hn Hx. apply (shows_later now (bs_time x)) in Hs; [|done]. clear Hn now. destruct x as [p t o]. unfold block_run, leaves, held_step in *. cbn [bs_op bs_process bs_time] in *.
  destruct o as [[i|]|[i|]|].
  - unfold CreateBlockMonitor. destruct (is_empty (sb_UserName i)); [by do 2 eexists|].
    destruct (on_keys_shows t f b (SETEX t (block_key (sb_UserName i) (sb_Counter i)) (sb_Time i) (itoa (sb_Time i))) Hs) as (x & f1 & E1 & S1).
    { intros r r' Hr E. by eapply SETEX_but. }
    rewrite (mthen_run _ _ _ _ _ E1). edestruct (on_sets_shows t f1 b (SADD t BLOCK_MONITOR_SET (block_key (sb_UserName i) (sb_Counter i))) S1) as (y & f2 & E2 & S2).
    { intros r r' Hr E. split; [by eapply SADD_lasting|]. apply SADD_members in E as [-> _]. set_solver. }
    rewrite (mthen_run _ _ _ _ _ E2). edestruct (change_blocks_shows t f2 b p) as (f3 & E3 & S3); [exact S2| |rewrite (mthen_run _ _ _ _ _ E3); by do 2 eexists].
    intros m. by rewrite lookup_insert_ne.
  - by do 2 eexists.
  - unfold DeleteBlockMonitor. edestruct (change_blocks_shows t f b p) as (f1 & E1 & S1); [exact Hs| |rewrite (mthen_run _ _ _ _ _ E1)].
    { intros m. by rewrite lookup_delete_ne. }
    destruct (on_keys_shows t f1 b (DEL t (block_key (sb_UserName i) (sb_Counter i))) S1) as (x & f2 & E2 & S2).
    { intros r r' Hr E. destruct (DEL_live t (block_key (sb_UserName i) (sb_Counter i)) r (proj1 Hr)) as (r2 & E' & B & _). rewrite E' in E. injection E as <-. by eapply lives_but. }
    rewrite (mthen_run _ _ _ _ _ E2). edestruct (on_sets_shows t f2 b (SREM t BLOCK_MONITOR_SET (block_key (sb_UserName i) (sb_Counter i))) S2) as (y & f3 & E3 & S3).
    { intros r r' Hr E. split; [by eapply SREM_lasting|]. apply SREM_members in E as [-> _]. set_solver. }
    rewrite (mthen_run _ _ _ _ _ E3). by do 2 eexists.
  - by do 2 eexists.
  - destruct Hs as (H1 & H2 & H3 & H4). destruct (RefreshBlockMonitor_run p t f H2) as (f' & E & Hk & Hl & Hq & Hkey).
    rewrite (mthen_run _ _ _ _ _ E). exists [], f'. split; [done|]. specialize (Hkey key). cbv zeta in Hkey. rewrite (text_of t f H1) in Hkey. destruct Hkey as (Hm & Hin & Hout).
    split; [by rewrite Hk|]. split; [done|]. destruct (in_set b) eqn:Eb.
    + rewrite Hm. specialize (Hin ltac:(by apply H3)). cbn [in_set on]. split; [rewrite H3; destruct (t <? e)%Z; split; [done|by split|by intros [_ []]|done]|]. intros q.
      destruct (decide (q = p)) as [->|Hne]; [|by rewrite Hq]. rewrite Hin. unfold as_read. rewrite (text_of t f H1).
      destruct (t <? e)%Z; [destruct v; [done|]; by split|]. split; [by intros [? ?]|done].
    + specialize (Hout ltac:(by intros ?%H3)). split; [rewrite Hm, H3, Eb; split; [by intros [? _]|done]|]. intros q. rewrite <- H4. destruct (decide (q = p)) as [->|Hne]; [by rewrite Hout|by rewrite Hq].
Qed.
Lemma steps_show l : forall now f b, shows now f b -> StronglySorted Z.le (now :: map bs_time l) -> Forall (leaves key) l ->
  exists f', blocks_run l f = Ret (tt, f') /\ exists now', shows now' f' (fold_left (held_step e) l b).
Proof using All.
  unfold blocks_run. induction l as [|x l IH]; intros now f b Hs Hl Hx; cbn [forM fold_left]; [by eexists; split; [|eexists]|].
  apply StronglySorted_inv in Hl as [Hl Hn]. cbn in Hl, Hn. apply Forall_cons in Hn as [Hn _]. apply Forall_cons in Hx as [Hx Hxs].
  destruct (step_shows now f b x Hs Hn Hx) as (a & f1 & E & S1). unfold mthen at 1. rewrite (mthen_run _ _ _ _ _ E). cbn. by eapply IH.
Qed.
End one_block.

(** A block that redis takes. *)
Lemma CreateBlockMonitor_run p t i (f : Fleet) : up (fl_keys f) -> lasting (fl_sets f) BLOCK_MONITOR_SET -> sb_UserName i <> "" -> (0 < sb_Time i)%Z ->
  let key := block_key (sb_UserName i) (sb_Counter i) in
  exists f', CreateBlockMonitor p t (Some i) f = Ret ([(200%Z, Said "block success")], f') /\
    shows key (itoa (sb_Time i)) (t + sb_Time i) t f' (mkHeld true (fun q => bool_decide (q = p) || bool_decide (is_Some (blocks f q !! key)))).
Proof using All.
  intros Hu Hl Hn Ht key. unfold CreateBlockMonitor. assert (is_empty (sb_UserName i) = false) as -> by (by destruct (sb_UserName i)). cbv zeta. fold key.
  destruct (SETEX_lives t key (sb_Time i) (itoa (sb_Time i)) (fl_keys f) Hu Ht) as (r & Er & Hr).
  unfold on_keys, mthen. rewrite Er. unfold on_sets. cbn [fl_sets]. destruct (adds_member answer t key (fl_sets f)) as [u Eu]. rewrite Eu. cbn.
  eexists. split; [reflexivity|]. split; [exact Hr|]. split; [by eapply SADD_lasting|]. split; [cbn; apply SADD_members in Eu as [-> _]; set_solver|].
  intros q. unfold blocks. cbn. rewrite orb_true_iff, !bool_decide_eq_true. destruct (decide (p = q)) as [->|Hne]; cbn.
  - rewrite lookup_insert_eq. split; [by left|by eexists].
  - split; [by right|]. by intros [->|?].
Qed.

(** C21: A block that a person asks one of the alarm processes for is held by that
    process, and by those that read the set of blocks before it ends; the
    first round over the set after its end takes it from the process that
    makes that round and from the set, so that every other process that held
    it holds it for good, unless it is asked for again.  What a process holds,
    it does not tell the person. *)
Theorem block_lifted_once (f : Fleet) (p : nat) (i : SingleBlockMonitor) (t0 : Z) (l : list block_step) :
  up (fl_keys f) -> lasting (fl_sets f) BLOCK_MONITOR_SET -> sb_UserName i <> "" -> (0 < sb_Time i)%Z ->
  StronglySorted Z.le (t0 :: map bs_time l) -> Forall (leaves (block_key (sb_UserName i) (sb_Counter i))) l ->
  exists f', (do! _ := CreateBlockMonitor p t0 (Some i) in blocks_run l) f = Ret (tt, f') /\
    forall q, let key := block_key (sb_UserName i) (sb_Counter i) in
      (is_Some (blocks f' q !! key) <->
        (q = p \/ is_Some (blocks f q !! key) \/ exists x, x ∈ l /\ bs_op x = OpRefresh /\ bs_process x = q /\ (bs_time x < t0 + sb_Time i)%Z) /\
        lifter (t0 + sb_Time i) l <> Some q) /\
      forall endpoint metric, (sb_Counter i = endpoint ++s "_" ++s metric)%string -> is_Some (blocks f' q !! key) ->
        ~ unblocked (blocks f' q) endpoint metric (sb_UserName i).
Proof using All.
  intros Hu Hs Hn Ht Hl Hx. destruct (CreateBlockMonitor_run p t0 i f Hu Hs Hn Ht) as (f1 & E1 & S1). cbv zeta in S1.
  destruct (steps_show _ _ _ (itoa_nonempty (sb_Time i)) l t0 f1 _ S1 Hl Hx) as (f' & E & now' & _ & _ & _ & Hon).
  exists f'. split; [by rewrite (mthen_run _ _ _ _ _ E1)|]. intros q key. split.
  - unfold key. rewrite Hon. apply StronglySorted_inv in Hl as [Hl _]. rewrite held_run by done. cbn [on].
    rewrite andb_true_iff, !orb_true_iff, negb_true_iff, bool_decide_eq_false, !bool_decide_eq_true, reads_before_spec. tauto.
  - intros endpoint metric Ec Hb [Hno _]. unfold key, block_key in Hb. rewrite Ec, Hno in Hb. by destruct Hb.
Qed.
End BlocksThms.

(** A redis in memory, and processes with nothing in their lists. *)
Definition no_alarm : AlarmState (R := mem) := mkAlarm (Mem []) (Mem []) (Mem []) (Mem []) (Mem []) (Mem []) (Mem []) (Mem []) (Mem []) ∅ ∅.
Definition no_fleet : Fleet mem kv skv := mkFleet (fun _ => no_alarm) ∅ ∅.
Lemma mem_answer : sets_answer (S := skv).
Proof. split; intros; by eexists. Qed.

(** Two processes: both hold the block of a minute; the second lifts it, the
    first holds it a day later, though it has made its rounds. *)
Lemma block_lifted_once_witness : exists f',
  (do! _ := CreateBlockMonitor 1 100 (Some (mkBlock "w1_cpu.idle" "alice" 60)) in
   blocks_run [mkStep 2 110 OpRefresh; mkStep 2 170 OpRefresh; mkStep 1 175 OpRefresh; mkStep 1 86400 OpRefresh]) no_fleet = Ret (tt, f') /\
  ~ is_Some (blocks f' 2 !! block_key "alice" "w1_cpu.idle") /\ ~ unblocked (blocks f' 1) "w1" "cpu.idle" "alice".
Proof.
  destruct (block_lifted_once mem_answer no_fleet 1 (mkBlock "w1_cpu.idle" "alice" 60) 100
    [mkStep 2 110 OpRefresh; mkStep 2 170 OpRefresh; mkStep 1 175 OpRefresh; mkStep 1 86400 OpRefresh]) as (f' & E & H).
  - done.
  - intros m d H. discriminate H.
  - done.
  - done.
  - repeat constructor; cbn; discriminate.
  - repeat constructor.
  - exists f'. split; [exact E|]. split.
    + intros H2. apply (H 2) in H2 as [_ H2]. by apply H2.
    + apply (H 1); [done|]. apply (H 1). split; [by left|]. intros H1. discriminate H1.
Defined.
