(* ===== verification/GoRegexp.v ===== *)
(** Go's [regexp] as the program uses it: anchored matches decided by
    derivatives, with the language an expression stands for; the split at
    runs of a class of bytes. *)
From S2P Require Export GoStr.
From Stdlib Require Import Ascii.
Local Open Scope string_scope.

(** Regular expressions over bytes. A class of characters that excludes
    ASCII characters only is, on the bytes of a text, the class of the other
    bytes. *)
Inductive re :=
  | Nothing
  | Empty
  | Class (p : ascii -> bool)
  | Then (a b : re)
  | Or (a b : re)
  | Many (a : re).

(** The texts of an expression. *)
Inductive lang : re -> string -> Prop :=
  | lang_Empty : lang Empty ""
  | lang_Class p c : p c = true -> lang (Class p) (String c "")
  | lang_Then a b s t : lang a s -> lang b t -> lang (Then a b) (s ++s t)
  | lang_Or_l a b s : lang a s -> lang (Or a b) s
  | lang_Or_r a b s : lang b s -> lang (Or a b) s
  | lang_Many_nil a : lang (Many a) ""
  | lang_Many_cons a s t : lang a s -> lang (Many a) t -> lang (Many a) (s ++s t).
#[export] Hint Constructors lang : falcon.

Definition the (c : ascii) : re := Class (Ascii.eqb c).
Definition More (a : re) : re := Then a (Many a).
Definition Maybe (a : re) : re := Or Empty a.
Definition digit : re := Class is_digit.

Fixpoint nullable (r : re) : bool :=
  match r with
  | Nothing | Class _ => false
  | Empty | Many _ => true
  | Then a b => nullable a && nullable b
  | Or a b => nullable a || nullable b
  end.

(** Constructors that drop what matches nothing. *)
Definition mk_then (a b : re) : re := match a with Nothing => Nothing | Empty => b | _ => Then a b end.
Definition mk_or (a b : re) : re := match a, b with Nothing, _ => b | _, Nothing => a | _, _ => Or a b end.

(** What may follow a first byte. *)
Fixpoint deriv (c : ascii) (r : re) : re :=
  match r with
  | Nothing | Empty => Nothing
  | Class p => if p c then Empty else Nothing
  | Then a b => let d := mk_then (deriv c a) b in if nullable a then mk_or d (deriv c b) else d
  | Or a b => mk_or (deriv c a) (deriv c b)
  | Many a => mk_then (deriv c a) (Many a)
  end.

(** [regexp.MatchString] of an expression between [^] and [$]. *)
Fixpoint matches (r : re) (s : string) : bool :=
  match s with "" => nullable r | String c s => matches (deriv c r) s end.

Lemma lang_Then_inv a b s : lang (Then a b) s -> exists x y, s = x ++s y /\ lang a x /\ lang b y.
Proof. intros H. inversion H as [| |? ? x y Hx Hy| | | |]; subst. by exists x, y. Qed.

Lemma lang_mk_then a b s : lang (mk_then a b) s <-> lang (Then a b) s.
Proof.
  destruct a; try done; cbn; split; intros H.
  - inversion H.
  - inversion H as [| |? ? x y Hx Hy| | | |]; subst. inversion Hx.
  - change s with ("" ++s s). by constructor; [constructor|].
  - inversion H as [| |? ? x y Hx Hy| | | |]; subst. inversion Hx; subst. done.
Qed.
Lemma lang_mk_or a b s : lang (mk_or a b) s <-> lang (Or a b) s.
Proof.
  assert (forall r, lang r s <-> lang (Or Nothing r) s) as H1.
  { intros r. split; [by apply lang_Or_r|]. intros H. inversion H as [| | |? ? ? H'| | |]; subst; [inversion H'|done]. }
  assert (forall r, lang r s <-> lang (Or r Nothing) s) as H2.
  { intros r. split; [by apply lang_Or_l|]. intros H. inversion H as [| | | |? ? ? H'| |]; subst; [done|inversion H']. }
  destruct a; [apply H1|destruct b; (apply H2 || done)..].
Qed.

Lemma nullable_lang r : nullable r = true <-> lang r "".
Proof.
  induction r as [| |p|a IHa b IHb|a IHa b IHb|a IHa]; cbn; split; try done; auto with falcon; intros H; try (by inversion H).
  - apply andb_prop in H as [Ha Hb]. change "" with ("" ++s "")%string. constructor; tauto.
  - inversion H as [| |? ? x y Hx Hy E| | | |]; subst. destruct x; [|done]. cbn in *. subst. apply andb_true_intro. tauto.
  - apply orb_prop in H as [H|H]; [apply lang_Or_l|apply lang_Or_r]; tauto.
  - inversion H; subst; apply orb_true_intro; tauto.
Qed.

Lemma lang_Many_inv a c s : lang (Many a) (String c s) -> exists x y, s = x ++s y /\ lang a (String c x) /\ lang (Many a) y.
Proof.
  remember (Many a) as r eqn:Er. remember (String c s) as u eqn:Eu. intros H; revert s Eu.
  induction H as [| | | | | |a' x y Hx _ Hy IH]; intros s' Eu; try done.
  injection Er as ->. destruct x as [|c' x]; cbn in Eu.
  - by apply IH.
  - injection Eu as -> <-. by exists x, y.
Qed.

Lemma deriv_lang c r s : lang (deriv c r) s <-> lang r (String c s).
Proof.
  revert s; induction r as [| |p|a IHa b IHb|a IHa b IHb|a IHa]; intros s; cbn.
  - split; intros H; inversion H.
  - split; intros H; inversion H.
  - destruct (p c) eqn:E; split; intros H; inversion H; subst; try constructor; congruence.
  - assert (lang (mk_then (deriv c a) b) s <-> exists x y, s = x ++s y /\ lang a (String c x) /\ lang b y) as Hd.
    { rewrite lang_mk_then. split.
      - intros H. inversion H as [| |? ? x y Hx Hy| | | |]; subst. exists x, y. split; [done|]. by apply IHa in Hx.
      - intros (x & y & -> & Hx & Hy). constructor; [by apply IHa|done]. }
    assert (lang (Then a b) (String c s) <-> (exists x y, s = x ++s y /\ lang a (String c x) /\ lang b y) \/ (lang a "" /\ lang b (String c s))) as Ht.
    { split.
      - intros (x & y & E & Hx & Hy)%lang_Then_inv. destruct x as [|c' x]; cbn in E; [right; by subst|].
        left. injection E as <- ->. by exists x, y.
      - intros [(x & y & -> & Hx & Hy)|[Hx Hy]]; [change (String c (x ++s y)) with (String c x ++s y)|change (String c s) with ("" ++s String c s)]; by constructor. }
    rewrite Ht, <- nullable_lang. destruct (nullable a) eqn:En.
    + rewrite lang_mk_or. split.
      * intros H. inversion H; subst; [left; by apply Hd|right; split; [done|by apply IHb]].
      * intros [H|[_ H]]; [apply lang_Or_l; by apply Hd|apply lang_Or_r; by apply IHb].
    + rewrite Hd. split; [by left|]. intros [H|[H _]]; done.
  - rewrite lang_mk_or. split; intros H; inversion H; subst; [apply lang_Or_l|apply lang_Or_r|apply lang_Or_l|apply lang_Or_r]; (by apply IHa) || by apply IHb.
  - rewrite lang_mk_then. split.
    + intros H. inversion H as [| |? ? x y Hx Hy| | | |]; subst. change (String c (x ++s y)) with (String c x ++s y). constructor; [by apply IHa|done].
    + intros (x & y & -> & Hx & Hy)%lang_Many_inv. constructor; [by apply IHa|done].
Qed.

(** The matcher decides the language. *)
Lemma matches_lang r s : matches r s = true <-> lang r s.
Proof.
  revert r; induction s as [|c s IH]; intros r; cbn; [apply nullable_lang|]. by rewrite IH, deriv_lang.
Qed.

(** * Split at runs *)

(** [Split] at the runs of the bytes of a class, [sep] when inside one. *)
Fixpoint split_runs (p : ascii -> bool) (sep : bool) (s : string) : string * list string :=
  match s with
  | "" => ("", [])
  | String c s =>
      if p c
      then (if sep then split_runs p true s else let '(h, t) := split_runs p true s in ("", h :: t))
      else let '(h, t) := split_runs p false s in (String c h, t)
  end.
Definition regexp_split (p : ascii -> bool) (s : string) : list string := let '(h, t) := split_runs p false s in h :: t.

Example regexp_split_ex : regexp_split (fun c => Ascii.eqb "$" c || Ascii.eqb "(" c || Ascii.eqb ")" c) "($(a)+$(b))>80" = ["";"a";"+";"b";">80"].
Proof. reflexivity. Qed.

(** The lemmas that cut a text without a separator, and one that starts
    with some. *)
Lemma split_runs_plain p sep a s : all_bytes (fun c => negb (p c)) a = true -> a <> "" ->
  split_runs p sep (a ++s s) = let '(h, t) := split_runs p false s in (a ++s h, t).
Proof.
  revert sep; induction a as [|c a IH]; intros sep Ha Hne; [done|]. cbn in *. apply andb_prop in Ha as [Hc Ha].
  apply negb_true_iff in Hc. rewrite Hc. destruct a as [|d a]; [done|]. rewrite IH by done. by destruct (split_runs p false s).
Qed.
