(* ===== verification/Aggregator.v ===== *)
(** The aggregator ([modules/aggregator]): every step of a cluster item it
    evaluates a numerator and a denominator, expressions over the last points
    of the hosts of a group, and pushes their quotient to the transfer.

    The hosts of a group and the last points are what the API answers; the
    clock is an argument. *)
From S2P Require Export Transfer GraphStore Nodata GoRegexp.
From Stdlib Require Import Ascii.
Local Open Scope string_scope.

(** Source: modules/aggregator/g/items.go, type Cluster. *)
Record Cluster := mkCluster {
  cl_Id : Z; cl_GroupId : Z; cl_Numerator : string; cl_Denominator : string; cl_Endpoint : string; cl_Metric : string;
  cl_Tags : string; cl_DsType : string; cl_Step : Z; cl_LastUpdate : string }.

(** * Expressions *)

(** Source: modules/aggregator/cron/run.go, cleanParam. *)
Definition cleanParam (val : string) : string :=
  let val := TrimSpace val in
  let val := replace_all val " " "" in
  let val := replace_all val cr "" in
  let val := replace_all val lf "" in
  replace_all val (String (ascii_of_nat 9) "") "".

(** Source: modules/aggregator/cron/run.go, needCompute. *)
Definition needCompute (val : string) : bool := contains val "$(".

(** The expressions of [expressionValid], without their anchors. *)
Definition not_paren : re := Class (fun c => negb (Ascii.eqb c "(" || Ascii.eqb c ")")).
Definition sign : re := Class (fun c => Ascii.eqb c "+" || Ascii.eqb c "-").
Definition operand : re := Then (the "$") (Then (the "(") (Then (More not_paren) (the ")"))).
Definition chain : re := Then (Many (Then operand sign)) operand.
Definition comparison : re :=
  Then (Or (the ">") (Or (the "=") (Or (the "<") (Or (Then (the ">") (the "=")) (Then (the "<") (the "="))))))
    (Then (More digit) (Maybe (Then (the ".") (More digit)))).

(** Source: modules/aggregator/cron/run.go, expressionValid. *)
Definition expressionValid (val : string) : bool :=
  if contains val "（" || contains val "）" then false
  else if String.eqb val "$#" then true
  else if matches chain val then true
  else if matches (Then operand comparison) val then true
  else if matches (Then (the "(") (Then chain (Then (the ")") comparison))) val then true
  else matches (More digit) val.

(** Source: modules/aggregator/cron/run.go, lines 188-194. The operands stand at the even places, the operators at the odd ones. Symbol: parse. *)
Fixpoint deal (items : list string) : list string * list string :=
  match items with
  | [] => ([], [])
  | operand :: items => let '(operators, operands) := deal items in (operand :: operands, operators)
  end.

Definition is_mark (c : ascii) : bool := Ascii.eqb c "$" || Ascii.eqb c "(" || Ascii.eqb c ")".

(** Source: modules/aggregator/cron/run.go, parse. *)
Definition parse (expression : string) (needCompute : bool) : res (list string * list string * string) :=
  if negb needCompute then Ret ([], [], "")
  else
    let items := regexp_split is_mark expression in
    let count := length items in
    let! inner := (if (1 <=? count - 1)%nat then Ret (drop 1 (take (count - 1) items)) else Panic SliceBounds) in
    let '(operands, operators) := deal inner in
    let! computeMode := at_index items (Z.of_nat count - 1) in
    Ret (operands, operators, computeMode).

(** Source: modules/aggregator/cron/run.go, operatorsValid. *)
Definition operatorsValid (ops : list string) : bool := forallb (fun op => String.eqb op "+" || String.eqb op "-") ops.

Example expressionValid_test :
  map expressionValid ["1210"; "$#"; "$(cpu.busy)"; "$(cpu.busy)+$(cpu.idle)-$(cpu.nice)"; "$(cpu.busy)>=80";
    "($(cpu.busy)+$(cpu.idle)-$(cpu.nice))>80"; "$(qps/module=judge,project=falcon)"; "($(cpu.idle)+$(cpu.busy))=100";
    "$((cpu.busy)"; "$(cpu.idle)+$(cpu.busy)>40"; "($(cpu.idle)+$(cpu.busy)-60)>100"]
  = [true; true; true; true; true; true; true; true; false; false; false].
Proof. vm_compute. reflexivity. Qed.

Example parse_ex : parse "($(cpu.busy)+$(cpu.idle)-$(cpu.nice))>80" true = Ret (["cpu.busy"; "cpu.idle"; "cpu.nice"], ["+"; "-"], ">80").
Proof. reflexivity. Qed.

(** * Values *)

(** Source: modules/aggregator/cron/computer.go, queryOperands. *)
Definition queryOperands (counters : list string) (endpoint : string) (valMap : gmap string f64) : list f64 :=
  omap (fun counter => valMap !! (endpoint ++s counter)) counters.

(** The first run of [<=>] that a digit or a point follows, and the run of
    digits and points behind it: the groups of the expression of
    [compareSum]. *)
Definition is_cmp (c : ascii) : bool := Ascii.eqb c ">" || Ascii.eqb c "=" || Ascii.eqb c "<".
Definition is_numeral (c : ascii) : bool := is_digit c || Ascii.eqb c ".".
Fixpoint take_run (p : ascii -> bool) (s : string) : string * string :=
  match s with
  | "" => ("", "")
  | String c t => if p c then let '(r, rest) := take_run p t in (String c r, rest) else ("", s)
  end.
Fixpoint find_submatch (fuel : nat) (s : string) : option (string * string) :=
  match fuel, s with
  | S fuel, String c t =>
      if is_cmp c then
        let '(mode, rest) := take_run is_cmp s in
        let '(val, _) := take_run is_numeral rest in
        if is_empty val then find_submatch fuel rest else Some (mode, val)
      else find_submatch fuel t
  | _, _ => None
  end.

(** Source: modules/aggregator/cron/computer.go, compareSum. *)
Definition compareSum (sum : f64) (computeMode : string) : res bool :=
  match find_submatch (S (String.length computeMode)) computeMode with
  | None => Panic IndexOutOfRange
  | Some (mode, v) =>
      let val := ParseFloat_value v in
      Ret (if String.eqb mode ">" && flt val sum then true
           else if String.eqb mode "<" && flt sum val then true
           else if String.eqb mode "=" && feq sum val then true
           else if String.eqb mode ">=" && fle val sum then true
           else if String.eqb mode "<=" && fle sum val then true
           else false)
  end.

(** Source: modules/aggregator/cron/computer.go, lines 35-42. The sum of the operands from the second on. Symbol: compute. *)
Fixpoint add_up (i : nat) (operators : list string) (sum : f64) (vals : list f64) : res f64 :=
  match vals with
  | [] => Ret sum
  | v :: vals =>
      let! op := at_index operators (Z.of_nat i) in
      add_up (S i) operators (if String.eqb op "+" then fadd sum v else fsub sum v) vals
  end.

(** Source: modules/aggregator/cron/computer.go, compute. [None] is an error. *)
Definition compute (operands operators : list string) (computeMode hostname : string) (valMap : gmap string f64) : res (option f64) :=
  let count := length operands in
  if (count =? 0)%nat then Ret None
  else
    let vals := queryOperands operands hostname valMap in
    if negb (length vals =? count)%nat then Ret None
    else
      let! v0 := at_index vals 0 in
      let! sum := add_up 0 operators v0 (drop 1 vals) in
      if negb (is_empty computeMode) then
        let! c := compareSum sum computeMode in Ret (Some (if c then f64_of_Z 1 else fzero))
      else Ret (Some sum).

(** Source: modules/aggregator/cron/query.go, queryCounterLast. [resp] is the answer of the API for every host and counter, [None] its error. *)
Definition queryCounterLast (resp : list string -> list string -> option (list (option GraphLastResp)))
    (numeratorOperands denominatorOperands hostnames : list string) (begin_ end_ : Z) : res (option (gmap string f64)) :=
  match resp hostnames (numeratorOperands ++ denominatorOperands)%list with
  | None => Ret None
  | Some resp =>
      let! m := fold_res (fun (ret : gmap string f64) r =>
        let! r := deref r in
        let! v := deref (gl_Value r) in
        if (rd_Timestamp v <? begin_)%Z || (end_ <? rd_Timestamp v)%Z then Ret ret
        else Ret (<[gl_Endpoint r ++s gl_Counter r := rd_Value v]> ret)) ∅ resp in
      Ret (Some m)
  end.

(** * One evaluation *)

(** Source: modules/aggregator/sdk/sdk.go, CurlHostnamesByID. [http] are the answers of the API by try; the error is always set. *)
Definition CurlHostnamesByID (http : nat -> option (list string)) : list string * bool :=
  let fix try n i := match n with O => [] | S n => match http i with Some hosts => hosts | None => try n (S i) end end in
  (try 3 0, true).
(** Source: modules/aggregator/sdk/sdk.go, HostnamesByID. The error above keeps the answer out of the cache, which stays empty. *)
Definition HostnamesByID (http : Z -> nat -> option (list string)) (cache : gmap string (list string)) (groupId : Z) : list string * gmap string (list string) :=
  let gidStr := itoa groupId in
  match cache !! gidStr with
  | Some hosts => (hosts, cache)
  | None =>
      let '(hosts, err) := CurlHostnamesByID (http groupId) in
      (hosts, if (err : bool) then cache else <[gidStr := hosts]> cache)
  end.

(** Source: modules/aggregator/cron/run.go, lines 94-132. The loop over the hosts. Symbol: WorkerRun. *)
Definition host_step (num den : option (list string * list string * string)) (valueMap : gmap string f64)
    (acc : f64 * f64 * Z) (hostname : string) : res (f64 * f64 * Z) :=
  let side p := match p with
                | Some (operands, operators, mode) => compute operands operators mode hostname valueMap
                | None => Ret (Some fzero)
                end in
  let '(numerator, denominator, validCount) := acc in
  let! numeratorVal := side num in
  match numeratorVal with
  | None => Ret acc
  | Some numeratorVal =>
      let! denominatorVal := side den in
      match denominatorVal with
      | None => Ret acc
      | Some denominatorVal => Ret (fadd numerator numeratorVal, fadd denominator denominatorVal, (validCount +! 1)%Z)
      end
  end.

(** Source: modules/aggregator/cron/run.go, lines 134-156. A side that needs no hosts: [$#] or a number. Symbol: WorkerRun. *)
Definition constant_side (str : string) (validCount : Z) : option f64 :=
  if String.eqb str "$#" then Some (f64_of_Z validCount) else ParseFloat str.

Section WorkerRun.
Context (hostnames : list string) (resp : list string -> list string -> option (list (option GraphLastResp))) (now push_now : Z).

(** Source: modules/aggregator/cron/run.go, WorkerRun. [now] and [push_now] are the two readings of the clock. The value pushed, if one is. *)
Definition WorkerRun (item : Cluster) : res (option JsonMetaData) :=
  let numeratorStr := cleanParam (cl_Numerator item) in
  let denominatorStr := cleanParam (cl_Denominator item) in
  if negb (expressionValid numeratorStr) || negb (expressionValid denominatorStr) then Ret None
  else
    let needComputeNumerator := needCompute numeratorStr in
    let needComputeDenominator := needCompute denominatorStr in
    if negb needComputeNumerator && negb needComputeDenominator then Ret None
    else
      let! (numeratorOperands, numeratorOperators, numeratorComputeMode) := parse numeratorStr needComputeNumerator in
      let! (denominatorOperands, denominatorOperators, denominatorComputeMode) := parse denominatorStr needComputeDenominator in
      if negb (operatorsValid numeratorOperators) || negb (operatorsValid denominatorOperators) then Ret None
      else if (length hostnames =? 0)%nat then Ret None
      else
        let! valueMap := queryCounterLast resp numeratorOperands denominatorOperands hostnames (now -! cl_Step item *! 2)%Z now in
        match valueMap with
        | None => Ret None
        | Some valueMap =>
            let num := if needComputeNumerator then Some (numeratorOperands, numeratorOperators, numeratorComputeMode) else None in
            let den := if needComputeDenominator then Some (denominatorOperands, denominatorOperators, denominatorComputeMode) else None in
            let! (numerator, denominator, validCount) := fold_res (host_step num den valueMap) (fzero, fzero, 0%Z) hostnames in
            let numerator := if needComputeNumerator then Some numerator else constant_side numeratorStr validCount in
            match numerator with
            | None => Ret None
            | Some numerator =>
                let denominator := if needComputeDenominator then Some denominator else constant_side denominatorStr validCount in
                match denominator with
                | None => Ret None
                | Some denominator =>
                    if feq denominator fzero then Ret None
                    else if (validCount =? 0)%Z then Ret None
                    else Ret (Some (mkJsonMetaData (cl_Metric item) (cl_Endpoint item) push_now (cl_Step item)
                                      (VFloat (fdiv numerator denominator)) (cl_DsType item) (cl_Tags item)))
                end
            end
        end.
End WorkerRun.

(** * The workers *)

(** Source: modules/aggregator/cron/worker.go, deleteNoUseWorker. *)
Definition deleteNoUseWorker (m Workers : gmap string Cluster) : gmap string Cluster :=
  filter (fun p => is_Some (m !! p.1)) Workers.
(** Source: modules/aggregator/cron/worker.go, createWorkerIfNeed. [items] in the order of the walk. *)
Definition createWorkerIfNeed (items : list (string * Cluster)) (Workers : gmap string Cluster) : gmap string Cluster :=
  fold_left (fun Workers '(key, item) =>
    match Workers !! key with
    | Some _ => Workers
    | None => if (cl_Step item <=? 0)%Z then Workers else <[key := item]> Workers
    end) items Workers.
(** Source: modules/aggregator/db/reader.go, ReadClusterMonitorItems. [rows] are the rows that scan, [None] an error of the query. *)
Definition ReadClusterMonitorItems (rows : option (list Cluster)) : option (gmap string Cluster) :=
  rows ← rows; Some (fold_left (fun M c => <[itoa (cl_Id c) ++s cl_LastUpdate c := c]> M) rows ∅).
(** Source: modules/aggregator/cron/updater.go, updateItems. *)
Definition updateItems (rows : option (list Cluster)) (walk : gmap string Cluster -> list (string * Cluster)) (Workers : gmap string Cluster) : gmap string Cluster :=
  match ReadClusterMonitorItems rows with
  | None => Workers
  | Some items => createWorkerIfNeed (walk items) (deleteNoUseWorker items Workers)
  end.
