(* ===== verification/AggregatorThms.v ===== *)
(** What the aggregator computes: every expression its grammar knows is
    accepted and read back, and an evaluation is the quotient of the two sides
    over the hosts that have all the values. *)
From S2P Require Export Aggregator.
From Stdlib Require Import Ascii.
Local Open Scope string_scope.

(** * The grammar *)

Inductive cmp := Gt | Eq | Lt | Ge | Le.
Definition cmp_str (c : cmp) : string := match c with Gt => ">" | Eq => "=" | Lt => "<" | Ge => ">=" | Le => "<=" end.
Definition op_str (plus : bool) : string := if plus then "+" else "-".

(** Sums and differences of counters, compared to a number or not. *)
Record expr := mkExpr { e_first : string; e_rest : list (bool * string); e_cmp : option (cmp * string) }.
(** A side of a cluster item: the number of hosts, a number, an expression. *)
Inductive side := Hosts | Number (digits : string) | Expr (e : expr).

Definition show_operand (n : string) : string := "$(" ++s n ++s ")".
Fixpoint show_rest (l : list (bool * string)) (tail : string) : string :=
  match l with [] => tail | (o, n) :: l => op_str o ++s show_operand n ++s show_rest l tail end.
Definition show_sum (e : expr) (tail : string) : string := show_operand (e_first e) ++s show_rest (e_rest e) tail.
Definition show (e : expr) : string :=
  match e_cmp e with
  | None => show_sum e ""
  | Some (c, lit) =>
      match e_rest e with
      | [] => show_sum e (cmp_str c ++s lit)
      | _ => "(" ++s show_sum e (")" ++s cmp_str c ++s lit)
      end
  end.
Definition show_side (s : side) : string := match s with Hosts => "$#" | Number d => d | Expr e => show e end.

Definition names (e : expr) : list string := e_first e :: (e_rest e).*2.
Definition digits (s : string) : Prop := s <> "" /\ all_bytes is_digit s = true.
Definition name_ok (n : string) : Prop := n <> "" /\ all_bytes (fun c => negb (is_mark c)) n = true.
Definition literal_ok (s : string) : Prop := digits s \/ exists a b, s = a ++s "." ++s b /\ digits a /\ digits b.
(** No full-width parenthesis. *)
Definition narrow (s : string) : Prop := contains s "（" = false /\ contains s "）" = false.
Definition expr_ok (e : expr) : Prop :=
  Forall name_ok (names e) /\ (forall c lit, e_cmp e = Some (c, lit) -> literal_ok lit) /\ narrow (show e).
Definition side_ok (s : side) : Prop := match s with Hosts => True | Number d => digits d /\ narrow d | Expr e => expr_ok e end.

Lemma length_omap_le {A B} (f : A -> option B) l : length (omap f l) <= length l.
Proof. induction l as [|x l IH]; [done|]. cbn. destruct (f x); cbn; lia. Qed.

(** * The expressions are accepted *)

Lemma lang_digits d : digits d -> lang (More digit) d.
Proof.
  intros [Hne Hd]. destruct d as [|c d]; [done|]. cbn in Hd. apply andb_prop in Hd as [Hc Hd].
  change (String c d) with (String c "" ++s d). constructor; [by constructor|]. clear Hne Hc.
  induction d as [|x d IH]; [constructor|]. cbn in Hd. apply andb_prop in Hd as [Hx Hd].
  change (String x d) with (String x "" ++s d). constructor; [by constructor|by apply IH].
Qed.
Lemma lang_not_paren n : n <> "" -> all_bytes (fun c => negb (is_mark c)) n = true -> lang (More not_paren) n.
Proof.
  assert (forall c, negb (is_mark c) = true -> negb (Ascii.eqb c "(" || Ascii.eqb c ")") = true) as Hm.
  { intros c. unfold is_mark. destruct (Ascii.eqb c "$"), (Ascii.eqb c "("), (Ascii.eqb c ")"); done. }
  destruct n as [|c n]; [done|]. intros _ Hn. cbn in Hn. apply andb_prop in Hn as [Hc Hn].
  change (String c n) with (String c "" ++s n). constructor; [constructor; by apply Hm|].
  clear Hc. induction n as [|x n IH]; [constructor|]. cbn in Hn. apply andb_prop in Hn as [Hx Hn].
  change (String x n) with (String x "" ++s n). constructor; [constructor; by apply Hm|by apply IH].
Qed.
Lemma lang_the c : lang (the c) (String c "").
Proof. constructor. apply Ascii.eqb_refl. Qed.
#[local] Hint Resolve lang_the lang_digits : falcon.

Lemma lang_operand n : name_ok n -> lang operand (show_operand n).
Proof.
  intros [Hne Hn]. unfold operand, show_operand. change ("$(" ++s n ++s ")") with (String "$" "" ++s String "(" "" ++s n ++s String ")" "").
  repeat (constructor; [apply lang_the || by apply lang_not_paren|]). apply lang_the.
Qed.

(** A sum, read from its first operand on or from its last one back. *)
Fixpoint signed_ops (n : string) (l : list (bool * string)) : string * string :=
  match l with
  | [] => ("", n)
  | (o, m) :: l => let '(s, last) := signed_ops m l in (show_operand n ++s op_str o ++s s, last)
  end.
Lemma show_sum_ops n l tail : show_operand n ++s show_rest l tail = (signed_ops n l).1 ++s show_operand (signed_ops n l).2 ++s tail.
Proof.
  revert n; induction l as [|[o m] l IH]; intros n; cbn [show_rest signed_ops]; [done|].
  rewrite IH. destruct (signed_ops m l) as [s last]. cbn. by rewrite !sapp_assoc.
Qed.
Lemma lang_sum e : Forall name_ok (names e) -> lang chain (show_sum e "").
Proof.
  intros H. unfold show_sum, names in *. rewrite show_sum_ops, sapp_nil_r. destruct e as [n l c]. cbn [e_first e_rest] in *.
  unfold chain. assert (lang (Many (Then operand sign)) (signed_ops n l).1 /\ name_ok (signed_ops n l).2) as [Hm Hl].
  { revert n H; induction l as [|[o m] l IH]; intros n H; inversion_clear H as [|?? Hn Hr]; cbn [signed_ops]; [by split; [constructor|]|].
    destruct (IH m Hr) as [H1 H2]. destruct (signed_ops m l) as [s last]. split; [|done]. cbn [fst].
    rewrite <- sapp_assoc. constructor; [|done]. constructor; [by apply lang_operand|]. destruct o; by constructor. }
  constructor; [done|by apply lang_operand].
Qed.
Lemma lang_comparison c lit : literal_ok lit -> lang comparison (cmp_str c ++s lit).
Proof.
  intros Hl. unfold comparison. constructor.
  - destruct c; cbn.
    + apply lang_Or_l, lang_the.
    + apply lang_Or_r, lang_Or_l, lang_the.
    + apply lang_Or_r, lang_Or_r, lang_Or_l, lang_the.
    + apply lang_Or_r, lang_Or_r, lang_Or_r, lang_Or_l. change ">=" with (">" ++s "="). constructor; apply lang_the.
    + apply lang_Or_r, lang_Or_r, lang_Or_r, lang_Or_r. change "<=" with ("<" ++s "="). constructor; apply lang_the.
  - destruct Hl as [Hd|(a & b & -> & Ha & Hb)].
    + rewrite <- (sapp_nil_r lit). constructor; [by apply lang_digits|]. apply lang_Or_l. constructor.
    + constructor; [by apply lang_digits|]. apply lang_Or_r. constructor; [apply lang_the|by apply lang_digits].
Qed.

Lemma show_valid e : expr_ok e -> expressionValid (show e) = true.
Proof.
  intros (Hn & Hc & Hw1 & Hw2). unfold expressionValid. rewrite Hw1, Hw2. cbn [orb]. case_match; [done|].
  destruct (matches chain (show e)) eqn:E1; [done|]. destruct (matches (Then operand comparison) (show e)) eqn:E2; [done|].
  destruct (matches (Then (the "(") _) (show e)) eqn:E3; [done|]. exfalso.
  unfold show in *. destruct (e_cmp e) as [[c lit]|] eqn:Ec.
  - pose proof (lang_comparison c lit (Hc c lit eq_refl)) as Hl. destruct (e_rest e) as [|p r] eqn:Er.
    + assert (matches (Then operand comparison) (show_sum e (cmp_str c ++s lit)) = true) as E; [|congruence]. apply matches_lang.
      unfold show_sum. rewrite Er. cbn [show_rest]. constructor; [|done]. apply lang_operand. by inversion Hn.
    + assert (matches (Then (the "(") (Then chain (Then (the ")") comparison))) ("(" ++s show_sum e (")" ++s cmp_str c ++s lit)) = true) as E; [|congruence].
      apply matches_lang. constructor; [apply lang_the|]. pose proof (lang_sum e Hn) as Hs. unfold show_sum in *.
      rewrite show_sum_ops in *. rewrite sapp_nil_r in Hs. rewrite <- (sapp_assoc _ _ (")" ++s _)). constructor; [done|].
      constructor; [apply lang_the|done].
  - assert (matches chain (show_sum e "") = true) as E; [|congruence]. by apply matches_lang, lang_sum.
Qed.

(** * The expressions are read back *)

Lemma split_operand sep n s : name_ok n ->
  split_runs is_mark sep (show_operand n ++s s) =
  let '(h, t) := split_runs is_mark true s in if sep then (n, h :: t) else ("", n :: h :: t).
Proof.
  intros [Hne Hn]. unfold show_operand.
  change (("$(" ++s n ++s ")") ++s s) with (String "$" (String "(" ((n ++s ")") ++s s))). rewrite sapp_assoc.
  assert (split_runs is_mark true (n ++s ")" ++s s) = let '(h, t) := split_runs is_mark true s in (n, h :: t)) as E.
  { rewrite split_runs_plain by done. cbn. destruct (split_runs is_mark true s). by rewrite sapp_nil_r. }
  cbn [split_runs is_mark Ascii.eqb orb]. change (is_mark "$") with true. change (is_mark "(") with true. cbv iota.
  destruct sep; rewrite E; by destruct (split_runs is_mark true s).
Qed.

(** The items behind the first operand. *)
Definition items_of (l : list (bool * string)) : list string := concat (map (fun p => [op_str p.1; p.2]) l).

Lemma split_rest l tail h t : Forall name_ok l.*2 -> split_runs is_mark true tail = (h, t) ->
  exists x y, split_runs is_mark true (show_rest l tail) = (x, y) /\ x :: y = (items_of l ++ h :: t)%list.
Proof.
  intros Hn Ht. induction l as [|[o n] l IH]; [by exists h, t|]. inversion_clear Hn as [|?? Hn1 Hn2].
  destruct (IH Hn2) as (x & y & E & Exy). cbn [show_rest].
  exists (op_str o), (n :: items_of l ++ h :: t)%list. split; [|done].
  rewrite split_runs_plain by (by destruct o). rewrite split_operand by done. rewrite E. cbn. rewrite <- Exy. by destruct o.
Qed.

Lemma deal_items l : forall n, deal (n :: items_of l) = (n :: l.*2, map (fun p => op_str p.1) l).
Proof. induction l as [|[o m] l IH]; intros n; [done|]. cbn in *. by rewrite IH. Qed.

(** What is behind the operands. *)
Definition mode_of (e : expr) : string := match e_cmp e with None => "" | Some (c, lit) => cmp_str c ++s lit end.

Lemma literal_plain lit : literal_ok lit -> all_bytes (fun c => negb (is_mark c)) lit = true.
Proof.
  assert (forall d, all_bytes is_digit d = true -> all_bytes (fun c => negb (is_mark c)) d = true) as Hd.
  { intros d H. induction d as [|c d IH]; [done|]. cbn in *. apply andb_prop in H as [Hc H]. rewrite IH by done.
    unfold is_mark. destruct (Ascii.eqb_spec c "$"), (Ascii.eqb_spec c "("), (Ascii.eqb_spec c ")"); subst; done. }
  assert (forall p a b, all_bytes p (a ++s b) = all_bytes p a && all_bytes p b) as Ha.
  { intros p a b. induction a as [|c a IH]; [done|]. cbn. by rewrite IH, andb_assoc. }
  intros [[_ H]|(a & b & -> & [_ H1] & [_ H2])]; [by apply Hd|]. by rewrite !Ha, (Hd a), (Hd b).
Qed.
Lemma split_mode e sep : expr_ok e -> split_runs is_mark sep (mode_of e) = (mode_of e, []).
Proof.
  intros (_ & Hc & _). unfold mode_of. destruct (e_cmp e) as [[c lit]|]; [|done].
  rewrite <- (sapp_nil_r (cmp_str c ++s lit)) at 1. rewrite split_runs_plain.
  - cbn. by rewrite sapp_nil_r.
  - pose proof (literal_plain lit (Hc c lit eq_refl)). by destruct c.
  - by destruct c.
Qed.

Lemma split_show e : expr_ok e ->
  exists m, regexp_split is_mark (show e) = "" :: e_first e :: (items_of (e_rest e) ++ [m])%list /\ m = mode_of e.
Proof.
  intros He. pose proof He as (Hn & Hc & _). inversion_clear Hn as [|?? Hn1 Hn2]. exists (mode_of e). split; [|done].
  assert (forall sep tail, split_runs is_mark true tail = (mode_of e, []) ->
    split_runs is_mark sep (show_sum e tail) =
    if sep then (e_first e, items_of (e_rest e) ++ [mode_of e])%list else ("", e_first e :: items_of (e_rest e) ++ [mode_of e])%list) as Hs.
  { intros sep tail Ht. unfold show_sum. rewrite split_operand by done.
    destruct (split_rest (e_rest e) tail _ _ Hn2 Ht) as (x & y & E & Exy). rewrite E, <- Exy. by destruct sep. }
  unfold show, regexp_split. pose proof (split_mode e true He) as Hm.
  unfold mode_of in Hm at 1. destruct (e_cmp e) as [[c lit]|]; [|by rewrite (Hs false "" Hm)].
  destruct (e_rest e) as [|p r] eqn:Er; [by rewrite (Hs false _ Hm)|].
  cbn [String.append split_runs]. change (is_mark "(") with true. cbv iota. rewrite (Hs true); [done|].
  cbn [String.append split_runs]. change (is_mark ")") with true. cbv iota. exact Hm.
Qed.

Lemma parse_show e : expr_ok e -> parse (show e) true = Ret (names e, map (fun p => op_str p.1) (e_rest e), mode_of e).
Proof.
  intros He. destruct (split_show e He) as (m & E & Em). unfold parse. cbn [negb]. rewrite E. cbv zeta.
  set (l := items_of (e_rest e)). assert (length ("" :: e_first e :: l ++ [m])%list = S (S (S (length l)))) as Hlen by (cbn; rewrite length_app; cbn; lia).
  rewrite Hlen. cbn [Nat.sub]. change (1 <=? S (S (length l)))%nat with true. cbv iota. cbn [rbind].
  change (take (S (S (length l))) ("" :: e_first e :: l ++ [m])%list) with ("" :: e_first e :: take (length l) (l ++ [m]))%list.
  rewrite take_app_length. cbn [drop]. unfold l at 1. rewrite deal_items.
  replace (Z.of_nat (S (S (S (length l)))) - 1)%Z with (Z.of_nat (S (S (length l)))) by lia.
  rewrite (at_index_lookup _ _ m); [by rewrite Em|]. change ((l ++ [m])%list !! length l = Some m). by rewrite list_lookup_middle.
Qed.

(** * What the sides are worth *)

(** Whether a sum stands in a relation to a number. *)
Definition holds (c : cmp) (sum val : f64) : bool :=
  match c with Gt => flt val sum | Eq => feq sum val | Lt => flt sum val | Ge => fle val sum | Le => fle sum val end.

(** The value of an expression where [look] gives the counters. *)
Definition eval_expr (look : string -> option f64) (e : expr) : option f64 :=
  v0 ← look (e_first e);
  vs ← mapM look (e_rest e).*2;
  let sum := fold_left (fun s (p : bool * f64) => if p.1 then fadd s p.2 else fsub s p.2) (zip (e_rest e).*1 vs) v0 in
  Some (match e_cmp e with
        | None => sum
        | Some (c, lit) => if holds c sum (ParseFloat_value lit) then f64_of_Z 1 else fzero
        end).

Lemma take_run_all p s rest : all_bytes p s = true -> (forall c t, rest = String c t -> p c = false) -> take_run p (s ++s rest) = (s, rest).
Proof.
  intros Hs Hr. induction s as [|c s IH]; cbn.
  - destruct rest as [|c t]; [done|]. cbn. by rewrite (Hr c t eq_refl).
  - cbn in Hs. apply andb_prop in Hs as [-> Hs]. by rewrite IH.
Qed.

Lemma literal_numeral lit : literal_ok lit -> lit <> "" /\ all_bytes is_numeral lit = true.
Proof.
  assert (forall d, all_bytes is_digit d = true -> all_bytes is_numeral d = true) as Hd.
  { intros d H. induction d as [|c d IH]; [done|]. cbn in *. apply andb_prop in H as [Hc H]. rewrite (IH H). unfold is_numeral. by rewrite Hc. }
  assert (forall p a b, all_bytes p (a ++s b) = all_bytes p a && all_bytes p b) as Ha.
  { intros p a b. induction a as [|c a IH]; [done|]. cbn. by rewrite IH, andb_assoc. }
  intros [[Hne H]|(a & b & -> & [Hne H1] & [_ H2])]; [split; [done|by apply Hd]|]. split; [by destruct a|].
  by rewrite !Ha, (Hd a), (Hd b).
Qed.

Lemma compareSum_spec c sum lit : literal_ok lit -> compareSum sum (cmp_str c ++s lit) = Ret (holds c sum (ParseFloat_value lit)).
Proof.
  intros [Hne Hl]%literal_numeral. unfold compareSum.
  assert (find_submatch (S (String.length (cmp_str c ++s lit))) (cmp_str c ++s lit) = Some (cmp_str c, lit)) as ->.
  { assert (take_run is_cmp (cmp_str c ++s lit) = (cmp_str c, lit)) as E1.
    { apply take_run_all; [by destruct c|]. intros x t ->. cbn in Hl. apply andb_prop in Hl as [Hx _].
      unfold is_numeral, is_cmp in *. destruct (Ascii.eqb_spec x ">"), (Ascii.eqb_spec x "="), (Ascii.eqb_spec x "<"); subst; done. }
    assert (take_run is_numeral lit = (lit, "")) as E2 by (rewrite <- (sapp_nil_r lit) at 1; by apply take_run_all).
    assert (exists x t, cmp_str c ++s lit = String x t /\ is_cmp x = true) as (x & t & Ex & Hx) by (destruct c; by eexists _, _).
    cbn [find_submatch]. rewrite Ex in *. rewrite Hx, E1, E2. by destruct lit. }
  destruct c; cbn [String.eqb Ascii.eqb cmp_str Bool.eqb andb holds]; repeat case_match; congruence.
Qed.

Lemma query_mapM l host vm :
  match mapM (fun n => vm !! (host ++s n)) l with
  | Some vs => queryOperands l host vm = vs /\ length vs = length l
  | None => length (queryOperands l host vm) <> length l
  end.
Proof.
  assert (length (queryOperands l host vm) <= length l) as Hle.
  { apply length_omap_le. }
  induction l as [|x l IH]; [done|]. cbn [mapM]. unfold queryOperands in *. cbn [omap list_omap] in *.
  destruct (vm !! (host ++s x)) as [v|]; cbn.
  - specialize (IH ltac:(cbn in Hle; lia)). destruct (mapM _ l) as [vs|]; cbn; [destruct IH as [-> Hl]; by rewrite Hl|lia].
  - pose proof (length_omap_le (fun counter => vm !! (host ++s counter)) l). lia.
Qed.

Lemma add_up_spec l vs i ops0 sum : length vs = length l -> length ops0 = i ->
  add_up i (ops0 ++ map (fun p : bool * string => op_str p.1) l) sum vs =
  Ret (fold_left (fun s (p : bool * f64) => if p.1 then fadd s p.2 else fsub s p.2) (zip l.*1 vs) sum).
Proof.
  revert l i ops0 sum; induction vs as [|v vs IH]; intros [|[o n] l] i ops0 sum Hl Hi; try done.
  cbn [add_up map]. rewrite (at_index_lookup _ _ (op_str o)) by (rewrite <- Hi; by rewrite list_lookup_middle).
  cbn [rbind]. change (op_str (o, n).1 :: map _ l) with ([op_str o] ++ map (fun p : bool * string => op_str p.1) l)%list. rewrite app_assoc.
  rewrite IH; [|by injection Hl|rewrite length_app; cbn; lia]. by destruct o.
Qed.

(** An expression is computed on a host as it reads. *)
Lemma compute_show e host vm : expr_ok e ->
  compute (names e) (map (fun p => op_str p.1) (e_rest e)) (mode_of e) host vm = Ret (eval_expr (fun n => vm !! (host ++s n)) e).
Proof.
  intros (_ & Hc & _). unfold compute, eval_expr. pose proof (query_mapM (names e) host vm) as H.
  change (length (names e) =? 0)%nat with false. cbv iota zeta. unfold names in *. cbn [mapM mbind option_bind] in *.
  destruct (vm !! (host ++s e_first e)) as [v0|]; cbn [mbind option_bind] in H |- *; [|by apply Nat.eqb_neq in H as ->].
  destruct (mapM _ (e_rest e).*2) as [vs|]; cbn [mbind option_bind] in H |- *; [|by apply Nat.eqb_neq in H as ->].
  destruct H as [-> Hl]. rewrite Hl, Nat.eqb_refl. cbn [negb]. change (at_index (v0 :: vs) 0) with (Ret v0).
  change (drop 1 (v0 :: vs)) with vs. cbn [rbind]. injection Hl as Hl. rewrite length_fmap in Hl.
  pose proof (add_up_spec (e_rest e) vs 0 [] v0 Hl eq_refl) as Ea. cbn [app] in Ea. rewrite Ea. cbn [rbind].
  unfold mode_of. destruct (e_cmp e) as [[c lit]|]; [|done].
  assert (is_empty (cmp_str c ++s lit) = false) as -> by (by destruct c). cbn [negb]. rewrite compareSum_spec by (by eapply Hc). done.
Qed.

(** * Sides that need no hosts *)

Lemma str_index_absent c t s : has c s = false -> contains s (String c t) = false.
Proof.
  intros Hs. unfold contains, str_index. assert (String.index 0 (String c t) s = None) as ->; [|done].
  induction s as [|x s IH]; [done|]. cbn in Hs. apply orb_false_iff in Hs as [Hx Hs].
  cbn [String.index]. assert (String.prefix (String c t) (String x s) = false) as ->.
  { cbn. destruct (ascii_dec c x) as [->|_]; [by rewrite Ascii.eqb_refl in Hx|done]. }
  by rewrite IH.
Qed.

Lemma contains_head s : contains ("$(" ++s s) "$(" = true.
Proof. unfold contains, str_index. cbn. by destruct s. Qed.
Lemma contains_later c s sub : contains s sub = true -> contains (String c s) sub = true.
Proof.
  unfold contains, str_index. cbn [String.index]. destruct (String.prefix sub (String c s)); [done|].
  by destruct (String.index 0 sub s).
Qed.
Lemma needCompute_show e : needCompute (show e) = true.
Proof.
  unfold needCompute, show, show_sum, show_operand. destruct (e_cmp e) as [[c lit]|]; [destruct (e_rest e)|].
  - rewrite !sapp_assoc. apply contains_head.
  - apply contains_later. rewrite !sapp_assoc. apply contains_head.
  - rewrite !sapp_assoc. apply contains_head.
Qed.
Lemma needCompute_digits d : digits d -> needCompute d = false.
Proof. intros [_ Hd]. apply str_index_absent. eapply all_bytes_has; [|exact Hd]. done. Qed.
Lemma digits_valid d : digits d -> narrow d -> expressionValid d = true.
Proof.
  intros Hd [Hw1 Hw2]. unfold expressionValid. rewrite Hw1, Hw2. cbn [orb]. repeat case_match; try done.
  by apply matches_lang, lang_digits.
Qed.
Lemma side_valid s : side_ok s -> expressionValid (show_side s) = true.
Proof. destruct s as [|d|e]; cbn; [done| |apply show_valid]. intros []. by apply digits_valid. Qed.
Definition is_expr (s : side) : bool := match s with Expr _ => true | _ => false end.
Lemma needCompute_side s : side_ok s -> needCompute (show_side s) = is_expr s.
Proof. destruct s as [|d|e]; cbn; intros Hs; [done|by apply needCompute_digits, Hs|apply needCompute_show]. Qed.
Lemma ops_valid l : operatorsValid (map (fun p : bool * string => op_str p.1) l) = true.
Proof. unfold operatorsValid. induction l as [|[[] n] l IH]; done. Qed.

(** * An evaluation *)

Definition counters_of (s : side) : list string := match s with Expr e => names e | _ => [] end.
(** The contribution of a host to a side; [None] when a counter has no value. *)
Definition side_value (s : side) (look : string -> option f64) : option f64 :=
  match s with Expr e => eval_expr look e | _ => Some fzero end.
(** The contributions of the hosts that have all the values. *)
Definition host_values (num den : side) (vm : gmap string f64) (hosts : list string) : list (f64 * f64) :=
  omap (fun h => let look c := vm !! (h ++s c) in n ← side_value num look; d ← side_value den look; Some (n, d)) hosts.
(** A side over those hosts: the sum of its contributions, their number, or
    a number. *)
Definition total (s : side) (vals : list f64) : option f64 :=
  match s with
  | Expr _ => Some (fold_left fadd vals fzero)
  | Hosts => Some (f64_of_Z (Z.of_nat (length vals)))
  | Number d => ParseFloat d
  end.
(** The value of a cluster item. *)
Definition quotient (num den : side) (vm : gmap string f64) (hosts : list string) : option f64 :=
  let vals := host_values num den vm hosts in
  n ← total num vals.*1;
  d ← total den vals.*2;
  if feq d fzero || bool_decide (vals = []) then None else Some (fdiv n d).

(** A side as [WorkerRun] hands it to the loop over the hosts. *)
Definition parsed (s : side) : option (list string * list string * string) :=
  match s with Expr e => Some (names e, map (fun p => op_str p.1) (e_rest e), mode_of e) | _ => None end.

Lemma host_step_spec num den vm n d c h : side_ok num -> side_ok den ->
  host_step (parsed num) (parsed den) vm (n, d, c) h =
  Ret (match side_value num (fun c => vm !! (h ++s c)), side_value den (fun c => vm !! (h ++s c)) with
       | Some nv, Some dv => (fadd n nv, fadd d dv, (c +! 1)%Z)
       | _, _ => (n, d, c)
       end).
Proof.
  intros Hn Hd. assert (forall s, side_ok s -> match parsed s with
    | Some (operands, operators, mode) => compute operands operators mode h vm | None => Ret (Some fzero) end
    = Ret (side_value s (fun c => vm !! (h ++s c)))) as Hs.
  { intros [|s|e] He; [done..|]. by apply compute_show. }
  unfold host_step. cbv zeta. rewrite (Hs num Hn). cbn [rbind]. destruct (side_value num _) as [nv|]; [|done].
  rewrite (Hs den Hd). cbn [rbind]. by destruct (side_value den _).
Qed.

Lemma hosts_loop num den vm hosts n d c : side_ok num -> side_ok den ->
  (0 <= c)%Z -> (c + Z.of_nat (length hosts) < 2 ^ 62)%Z ->
  fold_res (host_step (parsed num) (parsed den) vm) (n, d, c) hosts =
  Ret (fold_left fadd (host_values num den vm hosts).*1 n, fold_left fadd (host_values num den vm hosts).*2 d,
       (c + Z.of_nat (length (host_values num den vm hosts)))%Z).
Proof.
  intros Hn Hd. revert n d c; induction hosts as [|h hosts IH]; intros n d c Hc Hl; [by rewrite Z.add_0_r|].
  cbn [fold_res]. rewrite host_step_spec by done. cbn [rbind]. unfold host_values in *. cbn [omap list_omap length] in *.
  destruct (side_value num _) as [nv|]; cbn [mbind option_bind]; [|apply IH; lia].
  destruct (side_value den _) as [dv|]; cbn [mbind option_bind]; [|apply IH; lia].
  rewrite wrap64_id by (unfold in_i64; lia). rewrite IH by lia. cbn. do 2 f_equal. lia.
Qed.

Lemma parse_side s : side_ok s -> parse (show_side s) (is_expr s) = Ret (default ([], [], "") (parsed s)).
Proof. destruct s as [|d|e]; cbn [is_expr show_side]; intros Hs; [done..|]. by apply parse_show. Qed.
Lemma constant_digits d n : digits d -> constant_side d n = ParseFloat d.
Proof.
  intros [_ Hd]. unfold constant_side. destruct (String.eqb_spec d "$#"); [by subst|done].
Qed.

(** C7: An evaluation of a cluster item whose sides are written in the
    grammar accepts them and pushes the quotient of the two sides: sums, over
    the hosts that have a fresh value of every counter, of the expressions
    each host's values give, the number of those hosts, or a number; nothing
    is pushed when no host has them or the denominator is zero. *)
Theorem aggregate_quotient (item : Cluster) (num den : side) (hostnames : list string)
    (resp : list string -> list string -> option (list (option GraphLastResp))) (now push_now : Z) (vm : gmap string f64) :
  cleanParam (cl_Numerator item) = show_side num -> cleanParam (cl_Denominator item) = show_side den ->
  side_ok num -> side_ok den -> is_expr num || is_expr den = true ->
  hostnames <> [] -> (Z.of_nat (length hostnames) < 2 ^ 62)%Z ->
  queryCounterLast resp (counters_of num) (counters_of den) hostnames (now -! cl_Step item *! 2)%Z now = Ret (Some vm) ->
  WorkerRun hostnames resp now push_now item =
  Ret (v ← quotient num den vm hostnames;
       Some (mkJsonMetaData (cl_Metric item) (cl_Endpoint item) push_now (cl_Step item) (VFloat v) (cl_DsType item) (cl_Tags item))).
Proof.
  intros En Ed Hn Hd He Hh Hl Hq. unfold WorkerRun. rewrite En, Ed. cbv zeta.
  rewrite !side_valid, !needCompute_side by done. cbn [negb orb]. rewrite <- negb_orb, He. cbn [negb].
  rewrite !parse_side by done. cbn [rbind].
  assert (forall s, exists ops mode, default ([], [], "") (parsed s) = (counters_of s, ops, mode) /\ operatorsValid ops = true /\
    (if is_expr s then Some (counters_of s, ops, mode) else None) = parsed s) as Hp.
  { intros [|x|e]; [by exists [], ""..|]. exists (map (fun p => op_str p.1) (e_rest e)), (mode_of e). split; [done|]. split; [apply ops_valid|done]. }
  destruct (Hp num) as (on & mn & -> & -> & Epn), (Hp den) as (od & md & -> & -> & Epd). cbn [negb orb].
  assert ((length hostnames =? 0)%nat = false) as -> by (by destruct hostnames). rewrite Hq. cbn [rbind]. rewrite Epn, Epd.
  rewrite hosts_loop by (done || lia). cbn [rbind]. unfold quotient. set (vals := host_values num den vm hostnames).
  assert (Z.of_nat (length vals) < 2 ^ 62)%Z as Hv.
  { assert (length vals <= length hostnames) by apply length_omap_le. lia. }
  assert (forall s (l : list f64), side_ok s -> length l = length vals ->
    (if is_expr s then Some (fold_left fadd l fzero) else constant_side (show_side s) (0 + Z.of_nat (length vals))%Z) = total s l) as Ht.
  { intros [|x|e] l Hs Hll; cbn [is_expr total show_side]; [|apply constant_digits, Hs|done]. unfold constant_side. rewrite Hll. done. }
  rewrite !Ht by (done || apply length_fmap). destruct (total num vals.*1) as [n|]; [|done]. cbn [mbind option_bind].
  destruct (total den vals.*2) as [d|]; [|done]. cbn [mbind option_bind]. destruct (feq d fzero); [done|]. cbn [orb].
  destruct vals as [|v vals]; [done|]. rewrite bool_decide_eq_false_2 by done.
  destruct (Z.eqb_spec (0 + Z.of_nat (length (v :: vals))) 0) as [E|_]; [cbn in E; lia|done].
Qed.

(** The share of busy time of two hosts; a third has not reported. *)
Definition demo_cluster : Cluster := mkCluster 1 7 "$(cpu.busy) + $(cpu.nice)" "$#" "web" "cpu.used" "" "GAUGE" 60 "now".
Definition demo_resp (hosts counters : list string) : option (list (option GraphLastResp)) :=
  Some (flat_map (fun h => map (fun c => Some (mkLastResp h c (Some (mkRRDData (if String.eqb h "h3" then 0 else 990) (f64_of_Z 3))))) counters) hosts).

Lemma aggregate_quotient_witness :
  exists vm, queryCounterLast demo_resp ["cpu.busy"; "cpu.nice"] [] ["h1"; "h2"; "h3"] 880 1000 = Ret (Some vm) /\
  WorkerRun ["h1"; "h2"; "h3"] demo_resp 1000 1001 demo_cluster =
  Ret (v ← quotient (Expr (mkExpr "cpu.busy" [(true, "cpu.nice")] None)) Hosts vm ["h1"; "h2"; "h3"];
       Some (mkJsonMetaData "cpu.used" "web" 1001 60 (VFloat v) "GAUGE" "")) /\
  quotient (Expr (mkExpr "cpu.busy" [(true, "cpu.nice")] None)) Hosts vm ["h1"; "h2"; "h3"] = Some (f64_of_Z 6).
Proof.
  eexists. split; [vm_compute; reflexivity|]. split; [|vm_compute; reflexivity].
  apply (aggregate_quotient demo_cluster (Expr (mkExpr "cpu.busy" [(true, "cpu.nice")] None)) Hosts).
  - vm_compute. reflexivity.
  - vm_compute. reflexivity.
  - split; [by repeat constructor|]. split; [done|]. by split.
  - done.
  - done.
  - done.
  - cbn. lia.
  - vm_compute. reflexivity.
Defined.
