(* ===== verification/DisLock.v ===== *)
(** The lock kept in redis: [GetDisLock] of [common/rediscluster], which
    polymetric takes before it renews the strategies, and its copy and the
    write lock of [modules/hbs/redi/lock.go].

    The value of the key is the time the lock expires; its time to live is set
    by a second command.  A call sends up to three commands, and those of the
    calls of several processes come to redis in any order: [lock_command] is
    one command of a call, [contest] what the commands of many give, and
    [lock_refines] compares this with a lock that is a value of its own. *)
From S2P Require Export Redis GoStr.
From S2P Require Import Prelude.
From Stdlib Require Import Ascii.
Local Open Scope string_scope.

Section DisLock.
Context {K : Type} {redis : RedisKV K}.

(** A command whose error is ignored. *)
Definition try_cmd (c : K -> option K) (r : K) : K := default r (c r).

(** Where a call stands: before its first command, with the key set and the
    time to live to be sent, with the key taken and to be looked at, with a key
    that is over and to be prolonged, or at its end. *)
Inductive lock_stage := Asks | Sets | Looks | Renews | Ends (locked : bool).

(** Source: common/rediscluster/func.go, lines 10-37. One command of a call, and what comes before it. Symbol: GetDisLock. *)
Definition lock_command (lockkey : string) (timeout : Z) (now : Z) (at_ : lock_stage) (rc : K) : lock_stage * K :=
  match at_ with
  | Asks =>
      let expireAt := itoa (now +! timeout)%Z in
      let '(setNxres, rc) := SETNX now lockkey expireAt rc in
      (match setNxres with None => Ends false | Some true => Sets | Some false => Looks end, rc)
  | Sets => (Ends true, try_cmd (EXPIRE now lockkey timeout) rc)
  | Looks =>
      (match (reply ← GET now lockkey rc; reply ← reply; parse_int reply 64) with
       | None => Ends false
       | Some getRes => if (timeout <? now -! getRes)%Z then Renews else Ends false
       end, rc)
  | Renews => (Ends true, try_cmd (EXPIRE now lockkey timeout) rc)
  | Ends b => (Ends b, rc)
  end.

(** Source: common/rediscluster/func.go, GetDisLock. A call whose commands nothing comes between: [now] is the clock at the first, [now'] at the others. *)
Definition GetDisLock (lockkey : string) (timeout : Z) (now now' : Z) (rc : K) : bool * K :=
  let '(st, rc) := lock_command lockkey timeout now Asks rc in
  let '(st, rc) := lock_command lockkey timeout now' st rc in
  let '(st, rc) := lock_command lockkey timeout now' st rc in
  (match st with Ends locked => locked | _ => false end, rc).

(** Source: modules/hbs/redi/lock.go, GetLock. *)
Definition GetLock (LockKey : string) (Timeout : Z) (now now' : Z) (rc : K) : bool * K := GetDisLock LockKey Timeout now now' rc.

(** Source: modules/hbs/redi/lock.go, WUnlock. *)
Definition WUnlock (LockKey : string) (now : Z) (rc : K) : K := try_cmd (DEL now LockKey) rc.

(** Source: modules/hbs/redi/lock.go, WLock. [times] are the clock at each try; [None]: still waiting after them. *)
Fixpoint WLock (LockKey : string) (Timeout : Z) (times : list (Z * Z)) (rc : K) : option bool * K :=
  match times with
  | [] => (None, rc)
  | (now, now') :: times =>
      let '(res, rc) := SETNX now LockKey (itoa (now +! Timeout)%Z) rc in
      match res with
      | None => (Some false, rc)
      | Some true => (Some true, try_cmd (EXPIRE now' LockKey Timeout) rc)
      | Some false => WLock LockKey Timeout times rc
      end
  end.

(** * Commands of many processes *)

(** The commands of the processes in the order they come to redis: whose it is,
    and the clock.  A process whose call is at its end begins the next one.  The
    result is where each command brought the call. *)
Definition next_stage (st : lock_stage) : lock_stage := match st with Ends _ => Asks | _ => st end.
Definition set_stage (p : nat) (st : lock_stage) (stages : nat -> lock_stage) : nat -> lock_stage :=
  fun q => if (q =? p)%nat then st else stages q.
Fixpoint contest (key : string) (timeout : Z) (moves : list (nat * Z)) (stages : nat -> lock_stage) (rc : K) : list lock_stage :=
  match moves with
  | [] => []
  | (p, now) :: moves =>
      let '(st, rc) := lock_command key timeout now (next_stage (stages p)) rc in
      st :: contest key timeout moves (set_stage p st stages) rc
  end.

(** Whole calls, one after the other. *)
Fixpoint calls (key : string) (timeout : Z) (times : list (Z * Z)) (rc : K) : list bool * K :=
  match times with
  | [] => ([], rc)
  | (now, now') :: times =>
      let '(b, rc) := GetDisLock key timeout now now' rc in
      let '(bs, rc) := calls key timeout times rc in (b :: bs, rc)
  end.
End DisLock.

(** * The lock it means to be *)

(** A lock is free, taken by a process that has not said yet how long, or held
    until a time. *)
Inductive lock := Free | Taken (p : nat) (since : Z) | Held (until : Z).
(** A call takes a lock that nobody has, or is refused; it holds it for the
    timeout from its second command on. *)
Definition take (timeout : Z) (p : nat) (now : Z) (st : lock_stage) (l : lock) : lock_stage * lock :=
  match st with
  | Asks =>
      match l with
      | Free => (Sets, Taken p now)
      | Taken _ _ => (Looks, l)
      | Held T => if (now <? T)%Z then (Looks, l) else (Sets, Taken p now)
      end
  | Sets => (Ends true, Held (now + timeout))
  | _ => (Ends false, l)
  end.
Fixpoint takes (timeout : Z) (moves : list (nat * Z)) (stages : nat -> lock_stage) (l : lock) : list lock_stage :=
  match moves with
  | [] => []
  | (p, now) :: moves =>
      let '(st, l) := take timeout p now (next_stage (stages p)) l in
      st :: takes timeout moves (set_stage p st stages) l
  end.
(** The clock goes on from command to command, and while a process that took
    the lock has still to send its second command, no more than the timeout
    has passed. *)
Fixpoint timely (timeout last : Z) (moves : list (nat * Z)) (stages : nat -> lock_stage) (l : lock) : Prop :=
  match moves with
  | [] => True
  | (p, now) :: moves =>
      (last <= now /\ now + timeout < 2 ^ 62)%Z /\
      match l with Taken _ since => (now <= since + timeout)%Z | _ => True end /\
      let '(st, l) := take timeout p now (next_stage (stages p)) l in
      timely timeout now moves (set_stage p st stages) l
  end.

(** Nobody has to send a time to live but the process that took the lock. *)
Definition waits_for (stages : nat -> lock_stage) (l : lock) : Prop :=
  (forall p, stages p = Sets <-> exists since, l = Taken p since) /\ forall p, stages p <> Renews.
Lemma take_waits timeout p now stages l : waits_for stages l ->
  let '(st, l') := take timeout p now (next_stage (stages p)) l in waits_for (set_stage p st stages) l'.
Proof.
  intros [H Hr]. unfold set_stage, waits_for.
  assert (forall st l', (st = Sets <-> exists since, l' = Taken p since) -> st <> Renews ->
    (forall q since, q <> p -> l' = Taken q since <-> l = Taken q since) -> 
    (forall q, (if (q =? p)%nat then st else stages q) = Sets <-> exists since, l' = Taken q since) /\ forall q, (if (q =? p)%nat then st else stages q) <> Renews) as Hgen.
  { intros st l' H1 H2 H3. split; intros q; destruct (Nat.eqb_spec q p) as [->|Hq]; [done| |done|apply Hr]. rewrite H. by split; intros [since Hs]; exists since; apply H3. }
  pose proof (H p) as Hp. destruct (stages p) as [| | | |b] eqn:Ep; cbn [next_stage take].
  - destruct l as [|q since|T]; [|apply Hgen; naive_solver|destruct (_ <? _)%Z]; apply Hgen; naive_solver.
  - destruct Hp as [[since ->] _]; [done|]. apply Hgen; naive_solver.
  - apply Hgen; naive_solver.
  - by destruct (Hr p).
  - destruct l as [|q since|T]; [|apply Hgen; naive_solver|destruct (_ <? _)%Z]; apply Hgen; naive_solver.
Qed.

Section Refinement.
Context {K : Type} {redis : RedisKV K} {laws : RedisKVLaws K}.
Context (key : string) (timeout : Z).
Hypothesis timeout_pos : (0 < timeout < 2 ^ 60)%Z.

(** The key of redis, from [now] on, for a lock. *)
Definition lock_rel (now : Z) (r : K) (l : lock) : Prop :=
  up r /\ (0 <= now)%Z /\ (forall t, (now <= t)%Z -> hlive r t key = None) /\
  match l with
  | Free => forall t, (now <= t)%Z -> live r t key = None
  | Taken _ since => (0 <= since <= now)%Z /\ forall t, (now <= t)%Z -> live r t key = Some (itoa (since + timeout))
  | Held T => exists v, (T - timeout <= v <= T /\ 0 <= v < 2 ^ 62)%Z /\
      forall t, (now <= t)%Z -> live r t key = if (t <? T)%Z then Some (itoa v) else None
  end.

Lemma lock_rel_later now t r l : (now <= t)%Z -> lock_rel now r l -> lock_rel t r l.
Proof using Type.
  intros Ht (Hu & H0 & Hh & Hl). split; [done|]. split; [lia|]. split; [intros; apply Hh; lia|].
  destruct l as [|p since|T]; [|destruct Hl as (Hv & Hl); split; [lia|]|destruct Hl as (v & Hv & Hl); exists v; split; [done|]]; intros; apply Hl; lia.
Qed.

(** A lock that is over is free. *)
Lemma lock_over now r T : lock_rel now r (Held T) -> (T <= now)%Z -> lock_rel now r Free.
Proof using Type.
  intros (Hu & H0 & Hh & v & Hv & Hl) Hn. split; [done|]. split; [done|]. split; [done|]. intros t Ht. rewrite Hl by done.
  by rewrite (proj2 (Z.ltb_ge t T)) by lia.
Qed.

(** The first command takes a lock that is free, and finds one that is not. *)
Lemma asks_free p now r : lock_rel now r Free -> (now + timeout < 2 ^ 62)%Z ->
  exists r', lock_command key timeout now Asks r = (Sets, r') /\ lock_rel now r' (Taken p now) /\ same_but now key r r'.
Proof using All.
  intros (Hu & H0 & Hh & Hl) Hb. unfold lock_command. rewrite wrap64_id by (unfold in_i64; lia).
  destruct (SETNX_free now key (itoa (now + timeout)) r Hu) as (r' & E & Hs & Hl'); [apply Hl; lia|apply Hh; lia|]. rewrite E.
  exists r'. split; [done|]. split; [|done]. split; [apply Hs|]. split; [done|]. split; [|split; [lia|done]].
  intros t Ht. eapply live_hlive; [apply Hs|by apply Hl'].
Qed.
Lemma asks_taken now r v : up r -> live r now key = Some v -> lock_command key timeout now Asks r = (Looks, r).
Proof using laws. intros Hu Hl. unfold lock_command. by erewrite SETNX_taken. Qed.

(** Who took the lock holds it from its second command on. *)
Lemma sets_held p now since r : lock_rel now r (Taken p since) -> (now <= since + timeout)%Z -> (now + timeout < 2 ^ 62)%Z ->
  exists r', lock_command key timeout now Sets r = (Ends true, r') /\ lock_rel now r' (Held (now + timeout)) /\ same_but now key r r'.
Proof using All.
  intros (Hu & H0 & Hh & Hs & Hl) Hn Hb. unfold lock_command.
  destruct (EXPIRE_live now key timeout (itoa (since + timeout)) r Hu) as (r' & E & Hb' & Hl'); [lia|apply Hl; lia|].
  exists r'. unfold try_cmd. rewrite E. split; [done|]. split; [|done]. split; [apply Hb'|]. split; [done|]. split; [intros t Ht; by apply Hl'|].
  exists (since + timeout)%Z. split; [lia|]. intros t Ht. by apply Hl'.
Qed.

(** A look at the key ends the call, as long as a taken lock is not stale. *)
Lemma looks_refused now r l : lock_rel now r l -> (forall p since, l = Taken p since -> (now <= since + 2 * timeout)%Z) -> (now + timeout < 2 ^ 62)%Z ->
  lock_command key timeout now Looks r = (Ends false, r).
Proof using All.
  intros (Hu & H0 & Hh & Hl) Ht Hb. unfold lock_command. rewrite GET_live by (done || apply Hh; lia).
  destruct l as [|p since|T].
  - by rewrite Hl by lia.
  - destruct Hl as [Hs Hl]. specialize (Ht p since eq_refl). rewrite Hl by lia. cbn [mbind option_bind]. rewrite parse_int_itoa by lia.
    rewrite wrap64_id by (unfold in_i64; lia). by destruct (Z.ltb_spec timeout (now - (since + timeout))); [lia|].
  - destruct Hl as (v & Hv & Hl). rewrite Hl by lia. cbn [mbind option_bind]. destruct (Z.ltb_spec now T); [|done].
    cbn [mbind option_bind]. rewrite parse_int_itoa by lia. rewrite wrap64_id by (unfold in_i64; lia).
    by destruct (Z.ltb_spec timeout (now - v)); [lia|].
Qed.

(** One command does what the lock does. *)
Lemma command_take p now st r l : lock_rel now r l -> (st = Sets -> exists since, l = Taken p since) -> st <> Renews -> (forall b, st <> Ends b) ->
  match l with Taken _ since => (now <= since + timeout)%Z | _ => True end -> (now + timeout < 2 ^ 62)%Z ->
  exists r', lock_command key timeout now st r = (fst (take timeout p now st l), r') /\ lock_rel now r' (snd (take timeout p now st l)).
Proof using All.
  intros Hr Hset Hren Hend Ht Hb. destruct st as [| | | |b]; [| | |done|by destruct (Hend b)]; cbn [take].
  - assert (lock_rel now r Free -> exists r', lock_command key timeout now Asks r = (Sets, r') /\ lock_rel now r' (Taken p now)) as Hfree.
    { intros Hf. destruct (asks_free p now r Hf Hb) as (r' & E & H & _). by exists r'. }
    destruct l as [|q since|T]; [by apply Hfree| |destruct (Z.ltb_spec now T); [|by apply Hfree, (lock_over now r T)]]; exists r; cbn [fst snd]; (split; [|done]).
    + destruct Hr as (Hu & _ & _ & _ & Hl). eapply asks_taken; [done|apply Hl; lia].
    + destruct Hr as (Hu & _ & _ & v & Hv & Hl). eapply asks_taken; [done|]. rewrite Hl by lia. by rewrite (proj2 (Z.ltb_lt now T)).
  - destruct Hset as [since ->]; [done|]. destruct (sets_held p now since r Hr Ht Hb) as (r' & E & H & _). by exists r'.
  - exists r. split; [|done]. eapply looks_refused; [done| |done]. intros q since ->. lia.
Qed.

(** The commands of the processes do what the lock does. *)
Lemma contest_takes moves : forall start stages r l, lock_rel start r l -> waits_for stages l -> timely timeout start moves stages l ->
  contest key timeout moves stages r = takes timeout moves stages l.
Proof using All.
  induction moves as [|[p now] moves IH]; intros start stages r l Hr Hw Ht; [done|]. cbn [timely] in Ht. destruct Ht as ([Hn Hb] & Hs & Ht).
  apply (lock_rel_later start now) in Hr; [|done]. pose proof (take_waits timeout p now stages l Hw) as Hw'. destruct Hw as [Hw Hren].
  destruct (command_take p now (next_stage (stages p)) r l) as (r' & E & Hr').
  - done.
  - intros Hst. apply Hw. by destruct (stages p).
  - specialize (Hren p). by destruct (stages p).
  - intros b. by destruct (stages p).
  - done.
  - done.
  - cbn [contest takes]. rewrite E. destruct (take timeout p now (next_stage (stages p)) l) as [st l']. cbn [fst snd] in *. f_equal. by eapply IH.
Qed.

(** A lock that a process took is next taken when the process has sent its
    second command and the timeout has passed since. *)
Lemma takes_apart moves : forall start stages l j t q, waits_for stages l -> timely timeout start moves stages l ->
  moves !! j = Some (q, t) -> takes timeout moves stages l !! j = Some Sets ->
  match l with
  | Free => (start <= t)%Z
  | Held T => (start <= t)%Z /\ (T <= t)%Z
  | Taken p _ => exists k u, k < j /\ moves !! k = Some (p, u) /\ takes timeout moves stages l !! k = Some (Ends true) /\ (u + timeout <= t)%Z
  end.
Proof using timeout_pos.
  induction moves as [|[p now] moves IH]; intros start stages l j t q Hw Ht Hj Hst; [done|]. cbn [timely] in Ht. destruct Ht as ([Hn Hb] & Hs & Ht).
  pose proof (take_waits timeout p now stages l Hw) as Hw'. cbn [takes] in Hst |- *. destruct (take timeout p now (next_stage (stages p)) l) as [st l'] eqn:E.
  assert (forall m, j = S m -> match l' with
    | Free => (now <= t)%Z | Held T => (now <= t)%Z /\ (T <= t)%Z
    | Taken p' _ => exists k u, k < m /\ moves !! k = Some (p', u) /\ takes timeout moves (set_stage p st stages) l' !! k = Some (Ends true) /\ (u + timeout <= t)%Z end) as Hrest.
  { intros m ->. by apply (IH now _ l' m t q Hw' Ht). }
  assert (forall P, (exists k u, k < pred j /\ moves !! k = Some (P, u) /\ takes timeout moves (set_stage p st stages) l' !! k = Some (Ends true) /\ (u + timeout <= t)%Z) ->
    (now <= t)%Z) as Hlater.
  { intros P (k & u & _ & Hk & _ & Hu). assert (now <= u)%Z; [|lia]. clear -Ht Hk. revert k stages st l' now Ht Hk.
    generalize p. clear p. induction moves as [|[p2 n2] moves IH2]; intros p k stages st l' now Ht Hk; [done|]. cbn [timely] in Ht. destruct Ht as ([Hn _] & _ & Ht).
    destruct k as [|k]; [by injection Hk as _ <-|]. destruct (take timeout p2 n2 _ l') as [st2 l2]. specialize (IH2 p2 k _ st2 l2 n2 Ht Hk). lia. }
  destruct Hw as [Hw Hren]. destruct j as [|m].
  - injection Hj as -> <-. injection Hst as ->. destruct l as [|p0 since|T]; [done| |].
    + exfalso. destruct (stages q); cbn in E; congruence.
    + split; [done|]. destruct (stages q); cbn in E; destruct (Z.ltb_spec now T); congruence || lia.
  - specialize (Hrest m eq_refl). cbn [pred] in Hlater.
    assert (now <= t)%Z as Hnt by (destruct l' as [|p' since|T']; [done|by eapply Hlater|tauto]).
    destruct l as [|p0 since|T]; [lia| |].
    + specialize (Hw p). destruct (stages p) as [| | | |b]; cbn in E; injection E as <- <-.
      * destruct Hrest as (k & u & ? & ? & ? & ?). exists (S k), u. split; [lia|done].
      * destruct Hw as [[since' [= -> ->]] _]; [done|]. exists 0, now. split; [lia|]. split; [done|]. split; [done|]. lia.
      * destruct Hrest as (k & u & ? & ? & ? & ?). exists (S k), u. split; [lia|done].
      * destruct Hrest as (k & u & ? & ? & ? & ?). exists (S k), u. split; [lia|done].
      * destruct Hrest as (k & u & ? & ? & ? & ?). exists (S k), u. split; [lia|done].
    + split; [lia|]. destruct (stages p) eqn:Es; cbn in E.
      all: try (injection E as <- <-; lia).
      all: try (destruct (Z.ltb_spec now T); injection E as <- <-; lia).
      exfalso. destruct (proj1 (Hw p)) as [x Hx]; [done|]. discriminate Hx.
Qed.

(** C24: Let the commands of any number of processes, each calling for the lock
    again and again, come to a redis that answers in any order, with one clock
    for all, and let a process that took the key send its second command
    before any command comes that is more than the timeout later (when it does
    not, see [stale_lock_given_to_all]).  Then every command gets what the lock
    gives that is taken when it is free, is held from the second command on for
    the timeout, and is refused to all others in the meantime.  So between two
    grants the first of the two processes has sent its second command, and the
    timeout has passed since. *)
Theorem lock_refines (start : Z) (moves : list (nat * Z)) (stages : nat -> lock_stage) (r : K) (l : lock) :
  lock_rel start r l -> waits_for stages l -> timely timeout start moves stages l ->
  contest key timeout moves stages r = takes timeout moves stages l /\
  forall i j p q t u, i < j -> moves !! i = Some (p, t) -> moves !! j = Some (q, u) ->
    contest key timeout moves stages r !! i = Some Sets -> contest key timeout moves stages r !! j = Some Sets ->
    exists k v, i < k < j /\ moves !! k = Some (p, v) /\ contest key timeout moves stages r !! k = Some (Ends true) /\ (v + timeout <= u)%Z.
Proof using All.
  intros Hr Hw Ht. pose proof (contest_takes moves start stages r l Hr Hw Ht) as E. split; [done|]. rewrite E. clear E Hr r.
  revert start stages l Hw Ht; induction moves as [|[p0 now] moves IH]; intros start stages l Hw Ht i j p q t u Hij Hi Hj Si Sj; [done|].
  cbn [timely] in Ht. destruct Ht as (_ & _ & Ht). pose proof (take_waits timeout p0 now stages l Hw) as Hw'. cbn [takes] in *.
  destruct (take timeout p0 now (next_stage (stages p0)) l) as [st l'] eqn:E. destruct j as [|j]; [lia|]. cbn in Hj, Sj. destruct i as [|i].
  - injection Hi as -> ->. injection Si as ->. destruct (proj1 (proj1 Hw' p)) as [since ->]; [unfold set_stage; by rewrite Nat.eqb_refl|].
    destruct (takes_apart moves t _ (Taken p since) j u q Hw' Ht Hj Sj) as (k & v & Hk & H1 & H2 & H3).
    exists (S k), v. split; [lia|done].
  - cbn in Hi, Si. destruct (IH now _ l' Hw' Ht i j p q t u) as (k & v & Hk & H); [lia|done..|]. exists (S k), v. split; [lia|done].
Qed.

(** A call of its own, with a lock nobody has. *)
Lemma granted now now' r : lock_rel now r Free -> (now <= now')%Z -> (now' <= now + timeout)%Z -> (now' + timeout < 2 ^ 62)%Z ->
  exists r', GetDisLock key timeout now now' r = (true, r') /\ lock_rel now' r' (Held (now' + timeout)) /\ same_but now' key r r'.
Proof using All.
  intros Hr Hn Hd Hb. destruct (asks_free 0 now r Hr) as (r1 & E1 & Hr1 & B1); [lia|]. apply (lock_rel_later now now') in Hr1; [|done].
  destruct (sets_held 0 now' now r1 Hr1 Hd Hb) as (r2 & E2 & Hr2 & B2). exists r2. unfold GetDisLock. rewrite E1, E2. cbn [lock_command].
  split; [done|]. split; [done|]. split; [apply B2|]. intros t k' Ht Hk. destruct (proj2 B1 t k') as [<- <-]; [lia|done|]. by apply B2.
Qed.
(** A call of its own, with a lock somebody has. *)
Lemma refused now now' r l : lock_rel now r l -> (exists v, live r now key = Some v) ->
  (forall p since, l = Taken p since -> (now' <= since + 2 * timeout)%Z) -> (now <= now')%Z -> (now' + timeout < 2 ^ 62)%Z ->
  GetDisLock key timeout now now' r = (false, r).
Proof using All.
  intros Hr [v Hv] Hl Hn Hb. unfold GetDisLock. rewrite (asks_taken now r v); [|apply Hr|done]. apply (lock_rel_later now now') in Hr; [|done].
  by rewrite (looks_refused now' r l).
Qed.

(** The calls follow one another before the time to live of the last one ends. *)
Fixpoint dense (last : Z) (times : list (Z * Z)) : Prop :=
  match times with
  | [] => True
  | (now, now') :: times => (last <= now /\ now <= now' /\ now' < last + timeout)%Z /\ dense now' times
  end.

(** Once the second command of a holder is lost, so that its key stays
    beyond twice the timeout, every call that finds the key gets the lock and
    prolongs it without rewriting its value: processes that ask within the
    timeout of each other all hold the lock, for ever. *)
Theorem stale_lock_given_to_all (start v : Z) (times : list (Z * Z)) (r : K) :
  up r -> (0 <= v)%Z -> (v + timeout < start)%Z -> (start + Z.of_nat (length times) * timeout < 2 ^ 62)%Z ->
  (forall t, (start <= t < start + timeout)%Z -> live r t key = Some (itoa v)) -> dense start times ->
  fst (calls key timeout times r) = replicate (length times) true.
Proof using All.
  intros Hu H0 Hv Hb Hl Hd. revert start r Hu Hv Hb Hl Hd; induction times as [|[now now'] times IH]; intros start r Hu Hv Hb Hl Hd; [done|].
  destruct Hd as [(? & ? & ?) Hd]. cbn [length] in Hb. rewrite Nat2Z.inj_succ, Z.mul_succ_l in Hb. cbn [calls length replicate].
  assert (exists r', GetDisLock key timeout now now' r = (true, r') /\ up r' /\ forall t, (now' <= t < now' + timeout)%Z -> live r' t key = Some (itoa v)) as (r' & Er & Hu' & Hl').
  { unfold GetDisLock. rewrite (asks_taken now r (itoa v)) by (done || apply Hl; lia). unfold lock_command.
    rewrite GET_live by (done || (eapply live_hlive; [done|apply Hl; lia])). rewrite Hl by lia. cbn [mbind option_bind].
    rewrite parse_int_itoa by lia. rewrite wrap64_id by (unfold in_i64; lia). destruct (Z.ltb_spec timeout (now' - v)); [|lia].
    destruct (EXPIRE_live now' key timeout (itoa v) r Hu) as (r2 & E2 & [Hu2 _] & Hl2); [lia|apply Hl; lia|].
    exists r2. unfold try_cmd. rewrite E2. split; [done|]. split; [done|]. intros t Ht.
    destruct (Hl2 t) as [-> _]; [lia|]. by rewrite (proj2 (Z.ltb_lt t _)) by lia. }
  rewrite Er. assert (now' + Z.of_nat (length times) * timeout < 2 ^ 62)%Z as Hb' by lia.
  specialize (IH now' r' Hu' ltac:(lia) Hb' Hl' Hd). destruct (calls key timeout times r') as [bs r'']. cbn [fst] in *. by rewrite IH.
Qed.
End Refinement.

(** Two processes ask at once, the first before the second; the second asks again when the first is over. *)
Definition demo_moves : list (nat * Z) := [(0, 100%Z); (1, 100%Z); (0, 101%Z); (1, 101%Z); (1, 155%Z); (1, 155%Z); (1, 156%Z); (0, 156%Z); (1, 157%Z)].
Lemma lock_refines_witness :
  contest (K := kv) "ploy" 55 demo_moves (fun _ => Asks) ∅ = takes 55 demo_moves (fun _ => Asks) Free /\
  takes 55 demo_moves (fun _ => Asks) Free = [Sets; Looks; Ends true; Ends false; Looks; Ends false; Sets; Looks; Ends true].
Proof.
  split; [|reflexivity]. apply (lock_refines (K := kv) "ploy" 55 ltac:(lia) 0 demo_moves (fun _ => Asks) ∅ Free).
  - split; [done|]. split; [lia|]. by split.
  - split; [|done]. intros p. split; [done|]. by intros [since [=]].
  - vm_compute. repeat split; discriminate.
Defined.

Lemma stale_lock_given_to_all_witness :
  fst (calls (K := kv) "ploy" 55 [(1000, 1000); (1000, 1001); (1050, 1051)]%Z {["ploy" := (Str "155", None)]}) = [true; true; true].
Proof.
  apply (stale_lock_given_to_all (K := kv) "ploy" 55 ltac:(lia) 1000 155 [(1000, 1000); (1000, 1001); (1050, 1051)]%Z).
  - done.
  - lia.
  - lia.
  - cbn. lia.
  - intros t _. reflexivity.
  - cbn. lia.
Defined.
