(* ===== verification/GoRound.v ===== *)
(** How far a product of floats is from the product: the rounding of
    [spec_float] moves a mantissa by at most one unit of its last place, so the
    index [int(float64(n) * q)] stays below [n] and grows with [q]. *)
From S2P Require Export GoFloat.
From S2P Require Import Prelude.
Local Open Scope Z_scope.

(** [int(float64(n) * q)]. *)
Definition rank (n : Z) (q : f64) : Z := f64_trunc (fmul (f64_of_Z n) q).

Lemma digits2_pos_log2 p : Z.pos (digits2_pos p) = Z.log2 (Z.pos p) + 1.
Proof.
  induction p as [p IH|p IH|]; cbn [digits2_pos]; [| |done].
  - rewrite Pos2Z.inj_succ, IH. change (Z.pos p~1) with (2 * Z.pos p + 1). rewrite Z.log2_succ_double by lia. lia.
  - rewrite Pos2Z.inj_succ, IH. change (Z.pos p~0) with (2 * Z.pos p). rewrite Z.log2_double by lia. lia.
Qed.

(** Shifting right is dividing. *)
Lemma shr_1_m r : 0 <= shr_m r -> shr_m (shr_1 r) = shr_m r / 2.
Proof.
  destruct r as [m r s]; cbn. destruct m as [|[p|p|]|]; cbn; intros; try done; try lia.
  all: match goal with |- _ = Z.pos ?x / 2 => change (Z.pos x / 2) with (Z.div2 (Z.pos x)) || rewrite <- Z.div2_div end; done.
Qed.

Lemma iter_shr_m p r : 0 <= shr_m r -> shr_m (SpecFloat.iter_pos shr_1 p r) = shr_m r / 2 ^ Z.pos p.
Proof.
  revert r; induction p as [p IH|p IH|]; intros r Hr; cbn [SpecFloat.iter_pos].
  - assert (0 <= shr_m r / 2) by (apply Z.div_pos; lia). assert (shr_m (shr_1 r) = shr_m r / 2) as E by by apply shr_1_m.
    rewrite !IH by (rewrite ?IH, ?E by (rewrite ?E; done); try apply Z.div_pos; lia).
    rewrite E, !Zdiv_Zdiv by lia. f_equal. change (Z.pos p~1) with (2 * Z.pos p + 1). rewrite Z.pow_add_r, Z.pow_1_r by lia.
    replace (2 * Z.pos p) with (Z.pos p + Z.pos p) by lia. rewrite Z.pow_add_r by lia. lia.
  - rewrite !IH by (rewrite ?IH by done; try apply Z.div_pos; lia). rewrite Zdiv_Zdiv by lia. f_equal.
    change (Z.pos p~0) with (2 * Z.pos p). replace (2 * Z.pos p) with (Z.pos p + Z.pos p) by lia. rewrite Z.pow_add_r by lia. lia.
  - by rewrite shr_1_m.
Qed.

Lemma round_nearest_even_near m l : m <= round_nearest_even m l <= m + 1.
Proof. unfold round_nearest_even. destruct l as [|[]]; try lia. destruct (Z.even m); lia. Qed.

(** In the range of the normal numbers the exponent follows the digits. *)
Lemma fexp_normal x : -1021 <= x -> fexp 53 1024 x = x - 53.
Proof. unfold fexp, emin. lia. Qed.

(** A mantissa of at most 53 digits is not shifted; one of 2^53 loses its last 0. *)
Lemma shr_fexp_small b e : 2 ^ 52 <= b < 2 ^ 53 -> -1074 <= e -> shr_fexp 53 1024 b e loc_Exact = (Build_shr_record b false false, e).
Proof.
  intros Hb He. assert (Z.log2 b = 52) as Hl by (apply Z.log2_unique; lia). destruct b as [|b|]; try lia.
  unfold shr_fexp, Zdigits2. rewrite digits2_pos_log2, Hl, fexp_normal by lia. by replace (52 + 1 + e - 53 - e) with 0 by lia.
Qed.
Lemma shr_fexp_carry e : -1074 <= e -> shr_fexp 53 1024 (2 ^ 53) e loc_Exact = (Build_shr_record (2 ^ 52) false false, e + 1).
Proof.
  intros He. unfold shr_fexp. change (Zdigits2 (2 ^ 53)) with 54. rewrite fexp_normal by lia. by replace (54 + e - 53 - e) with 1 by lia.
Qed.

(** Rounding a mantissa of [53 + k] digits, [k > 0]. *)
Lemma binary_round_aux_near m e k : k = Z.log2 (Z.pos m) - 52 -> 0 < k -> -1074 <= e + k <= 900 ->
  exists m' i, binary_round_aux 53 1024 false (Z.pos m) e loc_Exact = S754_finite false m' (e + k + i) /\ 0 <= i <= 1 /\
    Z.pos m - 2 ^ k <= Z.pos m' * 2 ^ (k + i) <= Z.pos m + 2 ^ k.
Proof.
  intros Hk Hpos He. unfold binary_round_aux, shr_fexp at 1, Zdigits2. rewrite digits2_pos_log2, fexp_normal by lia.
  replace (Z.log2 (Z.pos m) + 1 + e - 53 - e) with k by lia. unfold shr. destruct k as [|p|] eqn:Ek; try lia. rewrite <- Ek in *.
  assert (shr_m (SpecFloat.iter_pos shr_1 p (shr_record_of_loc (Z.pos m) loc_Exact)) = Z.pos m / 2 ^ k) as Ea by (rewrite iter_shr_m by done; by rewrite Ek).
  set (r := SpecFloat.iter_pos _ _ _) in *. cbv beta iota.
  set (a := Z.pos m / 2 ^ k) in *. assert (2 ^ k > 0) as H2 by (apply Z.lt_gt, Z.pow_pos_nonneg; lia).
  pose proof (Z.log2_spec (Z.pos m) ltac:(lia)) as [Hlo Hhi]. replace (Z.log2 (Z.pos m)) with (52 + k) in * by lia.
  rewrite Z.pow_add_r in Hlo by lia. replace (Z.succ (52 + k)) with (53 + k) in Hhi by lia. rewrite Z.pow_add_r in Hhi by lia.
  assert (2 ^ 52 <= a < 2 ^ 53) as Ha by (split; [apply Z.div_le_lower_bound; lia|apply Z.div_lt_upper_bound; lia]).
  pose proof (Z.div_mod (Z.pos m) (2 ^ k) ltac:(lia)) as Hdm. pose proof (Z.mod_pos_bound (Z.pos m) (2 ^ k) ltac:(lia)) as Hmod. fold a in Hdm.
  pose proof (round_nearest_even_near a (loc_of_shr_record r)) as Hb. rewrite Ea. set (b := round_nearest_even _ _) in *.
  destruct (Z.eq_dec b (2 ^ 53)) as [->|Hne].
  - rewrite shr_fexp_carry by lia. cbn [shr_m]. change (2 ^ 52) with (Z.pos (2 ^ 52)) at 1. cbv beta iota.
    rewrite (proj2 (Z.leb_le _ _)) by lia. exists (2 ^ 52)%positive, 1. split; [done|]. split; [lia|].
    rewrite Z.pow_add_r by lia. change (Z.pos (2 ^ 52)) with (2 ^ 52). assert (2 ^ 52 * (2 ^ k * 2 ^ 1) = 2 ^ 53 * 2 ^ k) as -> by lia. nia.
  - rewrite shr_fexp_small by lia. cbn [shr_m]. clearbody b. destruct b as [|b'|]; try lia.
    rewrite (proj2 (Z.leb_le _ _)) by lia. exists b', 0. rewrite !Z.add_0_r. split; [done|]. split; [lia|]. nia.
Qed.

(** [float64(n)] is exact below 2^53: the mantissa is [n] moved to 53 digits. *)
Lemma f64_of_Z_exact n : 0 < n < 2 ^ 53 -> let j := 52 - Z.log2 n in
  exists m, f64_of_Z n = S754_finite false m (- j) /\ Z.pos m = n * 2 ^ j /\ 2 ^ 52 <= Z.pos m < 2 ^ 53 /\ 0 <= j <= 52.
Proof.
  intros Hn j. assert (0 <= Z.log2 n <= 52) as Hl. { split; [apply Z.log2_nonneg|]. assert (Z.log2 n < 53); [apply Z.log2_lt_pow2; lia|lia]. }
  pose proof (Z.log2_spec n ltac:(lia)) as [Hlo Hhi]. destruct n as [|p|]; try lia.
  unfold f64_of_Z, binary_normalize, binary_round, shl_align. rewrite digits2_pos_log2, Z.add_0_r, fexp_normal by lia.
  replace (Z.log2 (Z.pos p) + 1 - 53 - 0) with (- j) by lia. replace (Z.log2 (Z.pos p) + 1 - 53) with (- j) by lia.
  assert (2 ^ 52 <= Z.pos p * 2 ^ j < 2 ^ 53) as Hm.
  { unfold j. assert (2 ^ 52 = 2 ^ Z.log2 (Z.pos p) * 2 ^ (52 - Z.log2 (Z.pos p))) as E1 by (rewrite <- Z.pow_add_r by lia; f_equal; lia).
    assert (2 ^ 53 = 2 ^ Z.succ (Z.log2 (Z.pos p)) * 2 ^ (52 - Z.log2 (Z.pos p))) as E2 by (rewrite <- Z.pow_add_r by lia; f_equal; lia).
    assert (0 < 2 ^ (52 - Z.log2 (Z.pos p))) by (apply Z.pow_pos_nonneg; lia). nia. }
  assert (exists m, (match - j with Z.neg d => (Pos.iter xO p d, - j) | _ => (p, 0) end) = (m, - j) /\ Z.pos m = Z.pos p * 2 ^ j) as (m & -> & Em).
  { destruct j as [|d|] eqn:Ej; [exists p; split; [done|lia]| |lia]. exists (Pos.iter xO p d). split; [done|].
    clear. induction d as [|d IH] using Pos.peano_ind; [cbn; lia|]. rewrite Pos.iter_succ. rewrite (Pos2Z.inj_xO (Pos.iter _ _ _)).
    rewrite IH, Pos2Z.inj_succ, Z.pow_succ_r by lia. lia. }
  exists m. split; [|split; [done|split; [by rewrite Em|lia]]]. unfold binary_round_aux. rewrite !shr_fexp_small by (rewrite ?Em; cbn; lia).
  cbn [shr_m].
  by rewrite (proj2 (Z.leb_le _ _)) by lia.
Qed.

Lemma f64_trunc_quot m a b : 0 <= a -> 0 <= b -> f64_trunc (S754_finite false m (a - b)) = Z.pos m * 2 ^ a / 2 ^ b.
Proof.
  intros Ha Hb. unfold f64_trunc. assert (0 < 2 ^ b) by (apply Z.pow_pos_nonneg; lia). destruct (Z.leb_spec 0 (a - b)).
  - replace (2 ^ a) with (2 ^ (a - b) * 2 ^ b) by (rewrite <- Z.pow_add_r by lia; f_equal; lia). by rewrite Z.mul_assoc, Z.div_mul by lia.
  - replace (2 ^ b) with (2 ^ (- (a - b)) * 2 ^ a) by (rewrite <- Z.pow_add_r by lia; f_equal; lia).
    rewrite Z.div_mul_cancel_r; [done| |]; apply Z.pow_nonzero; lia.
Qed.

(** The product of [n] and a float [q] of [1/2, 1), scaled by a power of two. *)
Lemma rank_near n M : 0 < n < 2 ^ 53 -> 2 ^ 52 <= Z.pos M < 2 ^ 53 -> let j := 52 - Z.log2 n in
  0 <= j /\ 2 ^ 52 <= n * 2 ^ j /\
  exists V, rank n (S754_finite false M (-53)) = V / 2 ^ (j + 53) /\ n * 2 ^ j * Z.pos M - 2 ^ 53 <= V <= n * 2 ^ j * Z.pos M + 2 ^ 53.
Proof.
  intros Hn HM j. destruct (f64_of_Z_exact n Hn) as (m & E & Em & Hm & Hj). fold j in E, Em, Hj. split; [lia|]. split; [lia|].
  unfold rank, fmul. rewrite E. cbn [SFmul xorb].
  assert (104 <= Z.log2 (Z.pos (m * M)) <= 105) as Hl.
  { rewrite Pos2Z.inj_mul. assert (2 ^ 104 <= Z.pos m * Z.pos M < 2 ^ 106) by nia.
    assert (104 <= Z.log2 (Z.pos m * Z.pos M)) by (apply Z.log2_le_pow2; lia). assert (Z.log2 (Z.pos m * Z.pos M) < 106) by (apply Z.log2_lt_pow2; lia). lia. }
  destruct (binary_round_aux_near (m * M) (- j + -53) _ eq_refl) as (m' & i & -> & Hi & Hb); [lia..|].
  set (k := Z.log2 (Z.pos (m * M)) - 52) in *. exists (Z.pos m' * 2 ^ (k + i)). split.
  - replace (- j + -53 + k + i) with (k + i - (j + 53)) by lia. apply f64_trunc_quot; lia.
  - rewrite <- Em, <- Pos2Z.inj_mul. assert (2 ^ k <= 2 ^ 53) by (apply Z.pow_le_mono_r; lia). lia.
Qed.

(** The index is one of the list, *)
Lemma rank_bounds n M : 0 < n < 2 ^ 53 -> 2 ^ 52 <= Z.pos M <= 2 ^ 53 - 4 -> 0 <= rank n (S754_finite false M (-53)) < n.
Proof.
  intros Hn HM. destruct (rank_near n M Hn ltac:(lia)) as (Hj & Hs & V & -> & HV). set (j := 52 - Z.log2 n) in *.
  rewrite Z.pow_add_r by lia. assert (0 < 2 ^ j) by (apply Z.pow_pos_nonneg; lia). split; [apply Z.div_pos; nia|].
  apply Z.div_lt_upper_bound; [lia|]. nia.
Qed.
(** and a greater share does not give a smaller one. *)
Lemma rank_mono n M M' : 0 < n < 2 ^ 53 -> 2 ^ 52 <= Z.pos M -> Z.pos M + 4 <= Z.pos M' < 2 ^ 53 ->
  rank n (S754_finite false M (-53)) <= rank n (S754_finite false M' (-53)).
Proof.
  intros Hn HM HM'. destruct (rank_near n M Hn ltac:(lia)) as (Hj & Hs & V & -> & HV).
  destruct (rank_near n M' Hn ltac:(lia)) as (_ & _ & V' & -> & HV'). apply Z.div_le_mono; [apply Z.pow_pos_nonneg; lia|]. nia.
Qed.

(** * No overflow

    The size of a float is the exponent of its leading bit; the operations
    below change it by little, so that the numbers the modules compute from
    counters are finite. *)

Definition is_fin (x : f64) : bool := match x with S754_zero _ | S754_finite _ _ _ => true | _ => false end.
(** Below [2 ^ (b + 1)] in magnitude. *)
Definition mag_le (b : Z) (x : f64) : Prop :=
  match x with S754_zero _ => True | S754_finite _ m e => Z.log2 (Z.pos m) + e <= b | _ => False end.
(** At least [2 ^ a] in magnitude. *)
Definition mag_ge (a : Z) (x : f64) : Prop :=
  match x with S754_finite _ m e => a <= Z.log2 (Z.pos m) + e | _ => False end.

Lemma mag_le_fin b x : mag_le b x -> is_fin x = true.
Proof. by destruct x. Qed.
Lemma mag_le_mono b b' x : b <= b' -> mag_le b x -> mag_le b' x.
Proof. destruct x; cbn; [done..|lia]. Qed.

Lemma shr_record_of_loc_m m l : shr_m (shr_record_of_loc m l) = m.
Proof. by destruct l as [|[]]. Qed.

(** Shifting to the exponent of the format. *)
Lemma shr_fexp_spec m e l : 0 <= m -> exists k r, shr_fexp 53 1024 m e l = (r, e + k) /\ shr_m r = m / 2 ^ k /\
  k = Z.max 0 (fexp 53 1024 (Zdigits2 m + e) - e).
Proof.
  intros Hm. unfold shr_fexp. set (n := _ - e). destruct n as [|p|p] eqn:E; cbn [shr].
  - exists 0, (shr_record_of_loc m l). rewrite Z.add_0_r, shr_record_of_loc_m, Z.div_1_r. done.
  - exists (Z.pos p), (SpecFloat.iter_pos shr_1 p (shr_record_of_loc m l)). split; [done|]. split; [|done].
    rewrite iter_shr_m; rewrite shr_record_of_loc_m; done.
  - exists 0, (shr_record_of_loc m l). rewrite Z.add_0_r, shr_record_of_loc_m, Z.div_1_r. done.
Qed.

Lemma Zdigits2_log2 m : 0 < m -> Zdigits2 m = Z.log2 m + 1.
Proof. destruct m; try lia. intros _. apply digits2_pos_log2. Qed.

Lemma log2_div m k : 0 <= k -> 0 < m / 2 ^ k -> Z.log2 (m / 2 ^ k) = Z.log2 m - k.
Proof.
  intros Hk Hm. rewrite <- Z.shiftr_div_pow2 in * by done. rewrite Z.log2_shiftr; [|destruct m; [by rewrite Z.shiftr_0_l in Hm|lia|]].
  - apply Z.max_r. assert (k <= Z.log2 m); [|lia]. destruct (Z.le_gt_cases k (Z.log2 m)); [done|]. rewrite Z.shiftr_eq_0 in Hm; try lia.
    destruct m as [|p|p]; try lia. exfalso. assert (Z.shiftr (Z.neg p) k < 0) by (apply Z.shiftr_neg; lia). lia.
  - exfalso. assert (Z.shiftr (Z.neg p) k < 0) by (apply Z.shiftr_neg; lia). lia.
Qed.

Lemma fexp_max x : fexp 53 1024 x = Z.max (x - 53) (-1074).
Proof. done. Qed.

(** One shift keeps the bounds. *)
Lemma shr_fexp_mag m e l a b : 0 <= m -> (0 < m -> Z.log2 m + e <= b) -> e <= b -> -1074 <= b -> -1074 <= a ->
  exists r e1, shr_fexp 53 1024 m e l = (r, e1) /\ 0 <= shr_m r /\ (0 < shr_m r -> Z.log2 (shr_m r) + e1 <= b) /\ e1 <= b /\
    (0 < m -> a <= Z.log2 m + e -> 0 < shr_m r /\ a <= Z.log2 (shr_m r) + e1).
Proof.
  intros Hm Hb He Hb2 Ha. destruct (shr_fexp_spec m e l Hm) as (k & r & E & Hr & Hk). exists r, (e + k). split; [done|].
  rewrite fexp_max in Hk. assert (0 <= k) by lia. rewrite Hr. split; [apply Z.div_pos; lia|].
  assert (0 < m \/ m = 0) as [Hp| ->] by lia; [|rewrite Z.div_0_l by lia; change (Zdigits2 0) with 0 in Hk; repeat split; lia].
  specialize (Hb Hp). rewrite Zdigits2_log2 in Hk by done. pose proof (Z.log2_nonneg m). split; [|split; [|intros _ Hle; split]].
  - intros Hq. rewrite log2_div by done. lia.
  - lia.
  - assert (2 ^ k <= 2 ^ Z.log2 m) by (apply Z.pow_le_mono_r; lia). pose proof (Z.log2_spec m Hp). apply Z.div_str_pos. split; [by apply Z.pow_pos_nonneg|lia].
  - rewrite log2_div; [lia|lia|]. assert (2 ^ k <= 2 ^ Z.log2 m) by (apply Z.pow_le_mono_r; lia). pose proof (Z.log2_spec m Hp).
    apply Z.div_str_pos. split; [by apply Z.pow_pos_nonneg|lia].
Qed.

(** Rounding moves the leading bit by at most one, and not down. *)
Lemma binary_round_aux_mag s m e l a b : 0 <= m -> (0 < m -> Z.log2 m + e <= b) -> e <= b -> -1074 <= b <= 900 -> -1074 <= a ->
  mag_le (b + 1) (binary_round_aux 53 1024 s m e l) /\ (0 < m -> a <= Z.log2 m + e -> mag_ge a (binary_round_aux 53 1024 s m e l)).
Proof.
  intros Hm Hb He Hb2 Ha. unfold binary_round_aux. destruct (shr_fexp_mag m e l a b) as (r & e1 & -> & H0 & H1 & H2 & H3); try lia.
  pose proof (round_nearest_even_near (shr_m r) (loc_of_shr_record r)) as Hn. set (m' := round_nearest_even _ _) in *. clearbody m'.
  assert (0 < m' -> Z.log2 m' + e1 <= b + 1) as Hm'.
  { intros Hp. assert (shr_m r = 0 \/ 0 < shr_m r) as [Ez|Hp1] by lia; [replace m' with 1 by lia; change (Z.log2 1) with 0; lia|].
    pose proof (Z.log2_le_mono _ _ (proj2 Hn)). pose proof (Z.log2_succ_le (shr_m r)). unfold Z.succ in *. specialize (H1 Hp1). lia. }
  destruct (shr_fexp_mag m' e1 loc_Exact a (b + 1)) as (r2 & e2 & -> & G0 & G1 & G2 & G3); try lia.
  assert (e2 <= 971) by lia. replace (Z.leb e2 (1024 - 53)) with true by (symmetry; apply Z.leb_le; lia). split.
  - destruct (shr_m r2) as [|p|p]; cbn; [done| |lia]. apply G1. lia.
  - intros Hp Hle. destruct (H3 Hp Hle) as [Hp1 Hl1]. destruct G3 as [Hp2 Hl2]; [lia| |].
    + pose proof (Z.log2_le_mono _ _ (proj1 Hn)). lia.
    + destruct (shr_m r2) as [|p|p]; cbn; [lia|done|lia].
Qed.

Lemma shift_pos_mul p d : Z.pos (Pos.iter xO p d) = Z.pos p * 2 ^ Z.pos d.
Proof.
  induction d as [|d IH] using Pos.peano_ind; [cbn; lia|].
  rewrite Pos.iter_succ, (Pos2Z.inj_xO (Pos.iter _ _ _)), IH, Pos2Z.inj_succ, Z.pow_succ_r by lia. lia.
Qed.
Lemma shl_align_mag m e k : Z.log2 (Z.pos (shl_align m e k).1) + (shl_align m e k).2 = Z.log2 (Z.pos m) + e /\ (shl_align m e k).2 <= e.
Proof.
  unfold shl_align. destruct (k - e) as [|p|p] eqn:E; cbn [fst snd]; [lia|lia|]. split; [|lia].
  unfold shift_pos. rewrite shift_pos_mul, Z.log2_mul_pow2 by lia. lia.
Qed.

Lemma binary_round_mag s p e a b : Z.log2 (Z.pos p) + e <= b -> -1074 <= b <= 900 -> -1074 <= a ->
  mag_le (b + 1) (binary_round 53 1024 s p e) /\ (a <= Z.log2 (Z.pos p) + e -> mag_ge a (binary_round 53 1024 s p e)).
Proof.
  intros Hb Hb2 Ha. unfold binary_round. destruct (shl_align_mag p e (fexp 53 1024 (Z.pos (digits2_pos p) + e))) as [Hl He].
  destruct (shl_align p e _) as [m' e']. cbn [fst snd] in *. pose proof (Z.log2_nonneg (Z.pos p)).
  destruct (binary_round_aux_mag s (Z.pos m') e' loc_Exact a b) as [H1 H2]; try lia. split; [done|]. intros. apply H2; lia.
Qed.

(** A counter is a finite float. *)
Lemma f64_of_Z_mag z : Z.abs z < 2 ^ 64 -> mag_le 64 (f64_of_Z z) /\ (z <> 0 -> mag_ge 0 (f64_of_Z z)).
Proof.
  intros Hz. unfold f64_of_Z, binary_normalize. destruct z as [|p|p]; [done| |].
  all: match goal with |- context [binary_round 53 1024 ?s ?p 0] => assert (Z.log2 (Z.pos p) < 64) by (apply Z.log2_lt_pow2; lia);
    pose proof (Z.log2_nonneg (Z.pos p)); destruct (binary_round_mag s p 0 0 63) as [H1 H2]; try lia end.
  all: split; [done|intros _; apply H2; lia].
Qed.

Lemma fmul_mag b1 b2 x y : mag_le b1 x -> mag_le b2 y -> -1074 <= b1 + b2 + 1 <= 900 -> mag_le (b1 + b2 + 2) (fmul x y).
Proof.
  intros Hx Hy Hb. unfold fmul, SFmul. destruct x as [s1| | |s1 m1 e1], y as [s2| | |s2 m2 e2]; try done. cbn [mag_le mag_ge] in Hx, Hy.
  assert (Z.log2 (Z.pos (m1 * m2)) <= Z.log2 (Z.pos m1) + Z.log2 (Z.pos m2) + 1) by (rewrite Pos2Z.inj_mul; apply Z.log2_mul_above; lia).
  pose proof (Z.log2_nonneg (Z.pos m1)). pose proof (Z.log2_nonneg (Z.pos m2)).
  replace (b1 + b2 + 2) with (b1 + b2 + 1 + 1) by lia.
  destruct (binary_round_aux_mag (xorb s1 s2) (Z.pos (m1 * m2)) (e1 + e2) loc_Exact (-1074) (b1 + b2 + 1)) as [Hr _]; [done|intros _; lia|lia|done|done|exact Hr].
Qed.

Lemma fdiv_mag b a x y : mag_le b x -> mag_ge a y -> -1074 <= b - a <= 899 -> mag_le (b - a + 1) (fdiv x y).
Proof.
  intros Hx Hy Hb. unfold fdiv, SFdiv. destruct y as [s2| | |s2 m2 e2]; try done. destruct x as [s1| | |s1 m1 e1]; try done. cbn [mag_le mag_ge] in Hx, Hy.
  unfold SFdiv_core_binary. rewrite !Zdigits2_log2, fexp_max by lia.
  set (e' := Z.min _ _). assert (0 <= e1 - e2 - e') as Hs by lia. set (t := e1 - e2 - e') in *.
  assert (match t with Z.pos _ => Z.shiftl (Z.pos m1) t | Z0 => Z.pos m1 | Z.neg _ => 0 end = Z.pos m1 * 2 ^ t) as ->.
  { destruct t eqn:Et; [lia| |lia]. by rewrite Z.shiftl_mul_pow2. }
  pose proof (Z.div_eucl_eq (Z.pos m1 * 2 ^ t) (Z.pos m2) ltac:(lia)) as Hq.
  pose proof (Z.mod_pos_bound (Z.pos m1 * 2 ^ t) (Z.pos m2) ltac:(lia)) as Hr. unfold Z.modulo in Hr.
  destruct (Z.div_eucl _ _) as [q r]. pose proof (Z.log2_nonneg (Z.pos m1)). pose proof (Z.log2_nonneg (Z.pos m2)).
  assert (0 < 2 ^ t) by (by apply Z.pow_pos_nonneg).
  assert (0 <= q) by nia. eapply binary_round_aux_mag; [done| |lia|lia|reflexivity].
  intros Hq0. assert (Z.log2 q + Z.log2 (Z.pos m2) <= Z.log2 (Z.pos m1 * 2 ^ t)) as Hl.
  { etransitivity; [apply Z.log2_mul_below; lia|]. apply Z.log2_le_mono. lia. }
  rewrite Z.log2_mul_pow2 in Hl by lia. lia.
Qed.

Lemma fmul_mag_ge a1 a2 b1 b2 x y : mag_ge a1 x -> mag_ge a2 y -> mag_le b1 x -> mag_le b2 y -> -1074 <= b1 + b2 + 1 <= 900 ->
  -1074 <= a1 + a2 -> mag_ge (a1 + a2) (fmul x y).
Proof.
  intros Gx Gy Hx Hy Hb Ha. unfold fmul, SFmul. destruct x as [s1| | |s1 m1 e1], y as [s2| | |s2 m2 e2]; try done. cbn [mag_le mag_ge] in Gx, Gy, Hx, Hy.
  assert (Z.log2 (Z.pos (m1 * m2)) <= Z.log2 (Z.pos m1) + Z.log2 (Z.pos m2) + 1) by (rewrite Pos2Z.inj_mul; apply Z.log2_mul_above; lia).
  assert (Z.log2 (Z.pos m1) + Z.log2 (Z.pos m2) <= Z.log2 (Z.pos (m1 * m2))) by (rewrite Pos2Z.inj_mul; apply Z.log2_mul_below; lia).
  pose proof (Z.log2_nonneg (Z.pos m1)). pose proof (Z.log2_nonneg (Z.pos m2)).
  destruct (binary_round_aux_mag (xorb s1 s2) (Z.pos (m1 * m2)) (e1 + e2) loc_Exact (a1 + a2) (b1 + b2 + 1)) as [_ Hr]; [done|intros _; lia|lia|done|done|].
  apply Hr; [done|lia].
Qed.

(** The sign of a float that is not zero. *)
Definition positive (x : f64) : bool := match x with S754_finite s _ _ => negb s | _ => false end.
Lemma binary_round_aux_sign s m e l : match binary_round_aux 53 1024 s m e l with S754_finite s' _ _ => s' = s | _ => True end.
Proof.
  unfold binary_round_aux. destruct (shr_fexp _ _ _ _ _). destruct (shr_fexp _ _ _ _ _) as [r ?]. destruct (shr_m r); [done| |done]. by destruct (Z.leb _ _).
Qed.
Lemma mag_ge_positive a x : mag_ge a x -> (match x with S754_finite s _ _ => s = false | _ => True end) -> positive x = true.
Proof. destruct x; [done..|]. by intros _ ->. Qed.

Lemma f64_of_Z_positive z : 0 < z < 2 ^ 64 -> positive (f64_of_Z z) = true.
Proof.
  intros Hz. destruct (f64_of_Z_mag z) as [_ H]; [lia|]. apply (mag_ge_positive 0); [apply H; lia|].
  unfold f64_of_Z, binary_normalize, binary_round. destruct z as [|p|p]; try lia. destruct (shl_align _ _ _). apply binary_round_aux_sign.
Qed.
Lemma fmul_positive a x y : positive x = true -> positive y = true -> mag_ge a (fmul x y) -> positive (fmul x y) = true.
Proof.
  intros Hx Hy Hg. apply (mag_ge_positive a); [done|]. unfold fmul, SFmul. destruct x as [| | |[] m1 e1], y as [| | |[] m2 e2]; try done.
  apply (binary_round_aux_sign (xorb false false)).
Qed.

(** A quotient of a counter, or of a product of counters, by a counter that is not zero. *)
Lemma counter_fin z : Z.abs z < 2 ^ 64 -> is_fin (f64_of_Z z) = true.
Proof. intros Hz. by apply (mag_le_fin 64), f64_of_Z_mag. Qed.
Lemma product_mag x y : Z.abs x < 2 ^ 64 -> Z.abs y < 2 ^ 64 -> mag_le 130 (fmul (f64_of_Z x) (f64_of_Z y)).
Proof. intros Hx Hy. apply (fmul_mag 64 64); [by apply f64_of_Z_mag..|lia]. Qed.
Lemma product_fin x y : Z.abs x < 2 ^ 64 -> Z.abs y < 2 ^ 64 -> is_fin (fmul (f64_of_Z x) (f64_of_Z y)) = true.
Proof. intros Hx Hy. by eapply mag_le_fin, product_mag. Qed.
Lemma quotient_fin b x y : mag_le b x -> 0 <= b <= 800 -> Z.abs y < 2 ^ 64 -> y <> 0 -> is_fin (fdiv x (f64_of_Z y)) = true.
Proof. intros Hx Hb Hy Hy0. eapply mag_le_fin, (fdiv_mag b 0); [done|by apply f64_of_Z_mag|lia]. Qed.
Lemma counter_quotient_fin x y : Z.abs x < 2 ^ 64 -> Z.abs y < 2 ^ 64 -> y <> 0 -> is_fin (fdiv (f64_of_Z x) (f64_of_Z y)) = true.
Proof. intros Hx Hy Hy0. apply (quotient_fin 64); [by apply f64_of_Z_mag|lia|done..]. Qed.
Lemma product_quotient_fin x k y : Z.abs x < 2 ^ 64 -> Z.abs k < 2 ^ 64 -> Z.abs y < 2 ^ 64 -> y <> 0 -> is_fin (fdiv (fmul (f64_of_Z x) (f64_of_Z k)) (f64_of_Z y)) = true.
Proof. intros Hx Hk Hy Hy0. apply (quotient_fin 130); [by apply product_mag|lia|done..]. Qed.
