(* ===== verification/PolyStats.v ===== *)
(** The statistics of a round of polymetric are what they are named after. *)
From S2P Require Export GoRound.
From S2P Require Import Prelude.
Local Open Scope string_scope.

(** [sort.Float64s]: NaN first. *)
Definition float_before (a b : f64) : Prop := negb (flt b a || is_nan b && negb (is_nan a)) = true.
#[export] Instance float_before_dec a b : Decision (float_before a b).
Proof. unfold float_before. apply _. Defined.
Definition Float64s : list f64 -> list f64 := merge_sort float_before.

(** Source: modules/polymetric/cron/poly_worker.go, lines 328-363. The statistics of the values of a round. Symbol: GeneralPolyMethods. *)
Definition statistics (dataList : list f64) : res (list (string * f64)) :=
  let sum := fold_left fadd dataList fzero in
  let realCount := Z.of_nat (length dataList) in
  if (realCount =? 1)%Z then
    let! v := at_index dataList 0 in
    Ret (map (fun k => (k, v)) ["sum"; "avg"; "max"; "min"; "tp50"; "tp90"; "tp99"])
  else
    let dataList := Float64s dataList in
    let! max := at_index dataList (realCount - 1) in
    let! min := at_index dataList 0 in
    let avg := fdiv sum (f64_of_Z realCount) in
    let! tp50 := at_index dataList (rank realCount (f64_dec 5 1)) in
    let! tp90 := at_index dataList (rank realCount (f64_dec 95 2)) in
    let! tp99 := at_index dataList (rank realCount (f64_dec 99 2)) in
    Ret [("sum", sum); ("avg", avg); ("max", max); ("min", min); ("tp50", tp50); ("tp90", tp90); ("tp99", tp99)].

(** [sort.Float64s] sorts. *)
Lemma float_before_key a b : float_before a b <-> is_nan a = true \/ fle a b = true.
Proof.
  unfold float_before. destruct (is_nan a) eqn:Ha.
  - split; [by left|]. intros _. rewrite andb_false_r, orb_false_r. destruct (flt b a) eqn:E; [|done].
    apply flt_fle, fle_nan_r in E. congruence.
  - rewrite andb_true_r. destruct (is_nan b) eqn:Hb; cbn.
    + rewrite orb_true_r. split; [done|]. intros [|H]; [done|]. apply fle_nan_r in H. congruence.
    + rewrite orb_false_r, negb_true_iff, flt_false by done. naive_solver.
Qed.

#[export] Instance float_before_total : Total float_before.
Proof.
  intros a b. rewrite !float_before_key. destruct (is_nan a) eqn:Ha; [by left; left|]. destruct (is_nan b) eqn:Hb; [by right; left|].
  destruct (fle_total a b) as [?|?]; auto.
Qed.
#[export] Instance float_before_trans : Transitive float_before.
Proof.
  intros a b c. rewrite !float_before_key. intros [?|Hab] [Hb|Hbc]; auto; [|right; by eapply fle_trans].
  apply fle_nan_r in Hab. congruence.
Qed.

Lemma Float64s_perm l : Float64s l ≡ₚ l.
Proof. apply merge_sort_Permutation. Qed.
Lemma Float64s_sorted l i j x y : i <= j -> Float64s l !! i = Some x -> Float64s l !! j = Some y -> is_nan x = false -> fle x y = true.
Proof.
  intros Hij Hi Hj Hx. assert (float_before x y) as [|]%float_before_key; [|congruence|done].
  destruct (decide (i = j)) as [->|Hne]; [assert (x = y) as -> by congruence; by destruct (total float_before y y)|].
  pose proof (StronglySorted_merge_sort float_before l) as Hs. fold (Float64s l) in Hs. revert i j Hij Hi Hj Hne.
  induction Hs as [|z l' Hs IH Hz]; intros i j Hij Hi Hj Hne; [done|].
  destruct j as [|j]; [lia|]. destruct i as [|i]; [|apply (IH i j); try done; lia].
  injection Hi as ->. cbn in Hj. rewrite Forall_forall in Hz. apply Hz. by eapply list_elem_of_lookup_2.
Qed.

(** The shares of the three percentiles. *)
Lemma shares : f64_dec 5 1 = S754_finite false (2 ^ 52) (-53) /\
  f64_dec 95 2 = S754_finite false 8556839292003942 (-53) /\ f64_dec 99 2 = S754_finite false 8917127262193582 (-53).
Proof. done. Qed.

(** Of the values of a round that are numbers, the minimum, the maximum and
    the three percentiles are values of the round, the minimum and the maximum
    bound all of them, and the percentiles lie between them in their order: no
    index is out of range, whatever the rounding of the products. *)
Theorem statistics_ordered (l : list f64) :
  l <> [] -> (Z.of_nat (length l) < 2 ^ 53)%Z -> Forall (fun x => is_nan x = false) l ->
  exists sum avg max min tp50 tp90 tp99,
    statistics l = Ret [("sum", sum); ("avg", avg); ("max", max); ("min", min); ("tp50", tp50); ("tp90", tp90); ("tp99", tp99)] /\
    Forall (fun x => x ∈ l) [max; min; tp50; tp90; tp99] /\
    (forall x, x ∈ l -> fle min x = true /\ fle x max = true) /\
    fle tp50 tp90 = true /\ fle tp90 tp99 = true.
Proof.
  intros Hl Hlen Hn. unfold statistics. destruct (Z.eqb_spec (Z.of_nat (length l)) 1) as [H1|H1].
  { destruct l as [|v [|]]; cbn in H1; try done; [|lia]. exists v, v, v, v, v, v, v. apply Forall_cons in Hn as [Hv _].
    split; [done|]. split; [repeat constructor|]. split; [|split; by apply fle_refl]. intros x ->%list_elem_of_singleton. split; by apply fle_refl. }
  set (n := Z.of_nat (length l)) in *. assert (1 < n)%Z as Hn1 by (destruct l; [done|unfold n in *; cbn [length] in *; lia]).
  set (sl := Float64s l). assert (sl ≡ₚ l) as Hp by apply Float64s_perm.
  assert (length sl = length l) as Hsl by by rewrite Hp.
  destruct shares as (-> & -> & ->). set (q50 := S754_finite _ _ _). set (q95 := S754_finite _ 8556839292003942 _). set (q99 := S754_finite _ 8917127262193582 _).
  assert (0 <= rank n q50 < n /\ 0 <= rank n q95 < n /\ 0 <= rank n q99 < n)%Z as (B50 & B95 & B99) by (repeat split; apply rank_bounds; lia).
  assert (rank n q50 <= rank n q95 <= rank n q99)%Z as [M1 M2] by (split; apply rank_mono; lia).
  assert (forall i, (0 <= i < n)%Z -> exists x, at_index sl i = Ret x /\ sl !! Z.to_nat i = Some x /\ x ∈ l /\ is_nan x = false) as Hat.
  { intros i Hi. destruct (lookup_lt_is_Some_2 sl (Z.to_nat i)) as [x Hx]; [lia|]. exists x.
    assert (x ∈ l) as Hxl by (rewrite <- Hp; by eapply list_elem_of_lookup_2). rewrite Forall_forall in Hn.
    split; [|split; [done|split; [done|by apply Hn]]]. rewrite <- (Z2Nat.id i) by lia. by apply at_index_lookup. }
  destruct (Hat (n - 1)%Z) as (mx & -> & Lmx & Imx & Nmx); [lia|]. destruct (Hat 0%Z) as (mn & -> & Lmn & Imn & Nmn); [lia|].
  destruct (Hat _ B50) as (t50 & -> & L50 & I50 & N50). destruct (Hat _ B95) as (t90 & -> & L90 & I90 & N90). destruct (Hat _ B99) as (t99 & -> & L99 & I99 & N99).
  cbn [rbind]. do 7 eexists. split; [reflexivity|]. split; [by repeat constructor|].
  split; [|split; (eapply Float64s_sorted; [|done..]; lia)]. intros x Hx. pose proof Hx as Hxl. rewrite <- Hp in Hx. apply list_elem_of_lookup_1 in Hx as [i Hi].
  pose proof (lookup_lt_Some _ _ _ Hi). rewrite Forall_forall in Hn.
  split; (eapply Float64s_sorted; [|done..|by auto]); lia.
Qed.

Lemma statistics_ordered_witness :
  let l := map f64_of_Z [5; 1; 4; 2]%Z in
  exists sum avg max min tp50 tp90 tp99,
    statistics l = Ret [("sum", sum); ("avg", avg); ("max", max); ("min", min); ("tp50", tp50); ("tp90", tp90); ("tp99", tp99)].
Proof.
  destruct (statistics_ordered (map f64_of_Z [5; 1; 4; 2]%Z)) as (? & ? & ? & ? & ? & ? & ? & E & _).
  - done.
  - done.
  - by repeat constructor.
  - by do 7 eexists.
Defined.
