(* ===== verification/Polymetric.v ===== *)
(** Aggregation over groups of hosts ([modules/polymetric]): the strategies
    read from the database become, for each endpoint and counter, the list of
    the aggregations that want the point; the list is handed to the transfer
    through redis; the points the transfer sends are gathered by aggregation
    and every half minute turned into their statistics.

    The rows of the database, the members of a group, the order in which the
    workers answer, the walk of a map and the clock are arguments.  What goes
    to Prometheus and to the outlier service is left out. *)
From S2P Require Export DisLock Transfer TransferThms PolyStats.
From S2P Require Import GoStr.
From Stdlib Require Import Ascii.
Local Open Scope string_scope.

(** * Data *)

Definition SEP : string := PolyStringSep.
Definition EndPolyStrategyHashKey : string := "end_poly_strategy_hash_key".
Definition AmsTagPolyType : string := "ams_tag".
Definition FalconGroupPolyType : string := "falcon_group".
Definition RedisHMapTimeout : Z := 60 * 60.
Definition MaxQueueSize : Z := 400000.
Definition PolyTimeStep : Z := 30.

(** Source: modules/polymetric/model/poly.go, type PolyMetric. *)
Record PolyMetric := mkPolyMetric {
  pm_Id : Z; pm_PolyType : string; pm_Name : string; pm_CreateUser : string; pm_Counter : string; pm_CreateAt : string }.
(** Source: modules/polymetric/cron/amstag_strategy.go, type GroupRes. *)
Record GroupRes := mkGroupRes { gr_Name : string; gr_Counter : string; gr_Ends : list string }.
(** Source: modules/polymetric/rpc/polymetric.go, type PolymetricResp. *)
Record PolymetricResp := mkPolyResp { pp_Msg : string; pp_Total : Z; pp_ErrInvalid : Z }.

Section Polymetric.
Context {K : Type} {redis : RedisKV K}.

(** The variables of the package [cron], the queue of the pushes to the
    transfer ([common/sdk/sender], the newest first) and redis. *)
Record PolyState := mkPoly {
  EndPolyMetricMap : gmap string (list string);
  EndPolyAmsTagMetricMap : gmap string (list string);
  EndPolyFalconGroupMetricMap : gmap string (list string);
  PolyWorkerQueueMap : gmap string (list PolyRequest);
  PolyTypeMap : gset string;
  PolyDbConfigMap : gmap string (list PolyMetric);
  PolyHistoryDataMap : gmap string f64;
  MetaDataQueue : list JsonMetaData;
  RedisCluster : K }.
Notation P := (M PolyState).
Definition p_set_ends v s := mkPoly v (EndPolyAmsTagMetricMap s) (EndPolyFalconGroupMetricMap s) (PolyWorkerQueueMap s) (PolyTypeMap s) (PolyDbConfigMap s) (PolyHistoryDataMap s) (MetaDataQueue s) (RedisCluster s).
Definition p_set_tag v s := mkPoly (EndPolyMetricMap s) v (EndPolyFalconGroupMetricMap s) (PolyWorkerQueueMap s) (PolyTypeMap s) (PolyDbConfigMap s) (PolyHistoryDataMap s) (MetaDataQueue s) (RedisCluster s).
Definition p_set_group v s := mkPoly (EndPolyMetricMap s) (EndPolyAmsTagMetricMap s) v (PolyWorkerQueueMap s) (PolyTypeMap s) (PolyDbConfigMap s) (PolyHistoryDataMap s) (MetaDataQueue s) (RedisCluster s).
Definition p_set_queues v s := mkPoly (EndPolyMetricMap s) (EndPolyAmsTagMetricMap s) (EndPolyFalconGroupMetricMap s) v (PolyTypeMap s) (PolyDbConfigMap s) (PolyHistoryDataMap s) (MetaDataQueue s) (RedisCluster s).
Definition p_set_types v s := mkPoly (EndPolyMetricMap s) (EndPolyAmsTagMetricMap s) (EndPolyFalconGroupMetricMap s) (PolyWorkerQueueMap s) v (PolyDbConfigMap s) (PolyHistoryDataMap s) (MetaDataQueue s) (RedisCluster s).
Definition p_set_config v s := mkPoly (EndPolyMetricMap s) (EndPolyAmsTagMetricMap s) (EndPolyFalconGroupMetricMap s) (PolyWorkerQueueMap s) (PolyTypeMap s) v (PolyHistoryDataMap s) (MetaDataQueue s) (RedisCluster s).
Definition p_set_history v s := mkPoly (EndPolyMetricMap s) (EndPolyAmsTagMetricMap s) (EndPolyFalconGroupMetricMap s) (PolyWorkerQueueMap s) (PolyTypeMap s) (PolyDbConfigMap s) v (MetaDataQueue s) (RedisCluster s).
Definition p_set_out v s := mkPoly (EndPolyMetricMap s) (EndPolyAmsTagMetricMap s) (EndPolyFalconGroupMetricMap s) (PolyWorkerQueueMap s) (PolyTypeMap s) (PolyDbConfigMap s) (PolyHistoryDataMap s) v (RedisCluster s).
Definition p_set_redis v s := mkPoly (EndPolyMetricMap s) (EndPolyAmsTagMetricMap s) (EndPolyFalconGroupMetricMap s) (PolyWorkerQueueMap s) (PolyTypeMap s) (PolyDbConfigMap s) (PolyHistoryDataMap s) (MetaDataQueue s) v.

(** What the tag service and the database say of the members of a group, the
    order in which the results of a type come, and the walks of the maps. *)
Context (GetAmsTagIps RunFalconGroupSql : string -> list string)
  (arrive : list GroupRes -> list GroupRes)
  (walk : forall T, gmap string T -> list (string * T)).

(** * The strategies *)

(** Source: modules/polymetric/cron/poly_worker.go, SyncGroupStrategyFromDb. An error of the query leaves no rows. *)
Definition SyncGroupStrategyFromDb (rows : option (list PolyMetric)) : P unit :=
  let Qres := default [] rows in
  modify (p_set_config (fold_left (fun m item =>
    match m !! pm_PolyType item with
    | Some tmp => <[pm_PolyType item := (tmp ++ [item])%list]> m
    | None => <[pm_PolyType item := [item]]> m
    end) Qres ∅)).

(** Source: modules/polymetric/cron/amstag_strategy.go, CreatePloyQueueIfNeed. *)
Definition CreatePloyQueueIfNeed (name : string) : P unit :=
  modify (fun s => match PolyWorkerQueueMap s !! name with
                   | Some _ => s
                   | None => p_set_queues (<[name := []]> (PolyWorkerQueueMap s)) s
                   end).

(** Source: modules/polymetric/cron/amstag_strategy.go, CommonInitQueue. [None] is the nil map. *)
Definition CommonInitQueue (poly_type : string) : P (option (gmap string (list PolyMetric)) * Z) :=
  do! cfg := gets PolyDbConfigMap in
  match cfg !! poly_type with
  | None => ret (None, 0%Z)
  | Some res =>
      do! resMap := foldM (fun (resMap : gmap string (list PolyMetric)) i =>
        do! _ := CreatePloyQueueIfNeed (poly_type ++s SEP ++s pm_Name i ++s SEP ++s pm_Counter i) in
        ret (match default [] (resMap !! pm_Name i) with
             | [] => <[pm_Name i := [i]]> resMap
             | tL => <[pm_Name i := (tL ++ [i])%list]> resMap
             end)) ∅ res in
      ret (Some resMap, Z.of_nat (length res))
  end.

(** Source: modules/polymetric/cron/amstag_strategy.go, GeneralPoly.AmsTagHttpwork. What the worker of a group sends. *)
Definition AmsTagHttpwork (name : string) (strategys : list PolyMetric) : list GroupRes :=
  let ends := GetAmsTagIps name in map (fun item => mkGroupRes name (pm_Counter item) ends) strategys.
(** Source: modules/polymetric/cron/falcon_group.go, GeneralPoly.FalconGroupwork. *)
Definition FalconGroupwork (name : string) (strategys : list PolyMetric) : list GroupRes :=
  let ends := RunFalconGroupSql name in map (fun item => mkGroupRes name (pm_Counter item) ends) strategys.

(** Source: modules/polymetric/cron/poly_worker.go, GeneralPoly.NewWorkPool. All the workers have ended: the content of the channel. *)
Definition NewWorkPool (ActionFunc : string -> list PolyMetric -> list GroupRes) (ArgMap : gmap string (list PolyMetric)) : list GroupRes :=
  arrive (flat_map (fun '(name, strategys) => ActionFunc name strategys) (walk _ ArgMap)).

(** Source: modules/polymetric/cron/poly_worker.go, lines 143-161. The aggregations of one endpoint. Symbol: MultiRunWorker. *)
Definition add_end (thisPolyType : string) (gpRes : GroupRes) (resMap : gmap string (list string)) (end_ : string) : gmap string (list string) :=
  let endKey := end_ ++s SEP ++s gr_Counter gpRes in
  let polyKey := thisPolyType ++s SEP ++s gr_Name gpRes ++s SEP ++s gr_Counter gpRes in
  match resMap !! endKey with
  | None => <[endKey := [polyKey]]> resMap
  | Some old => if bool_decide (polyKey ∈ old) then resMap else <[endKey := (old ++ [polyKey])%list]> resMap
  end.

(** Source: modules/polymetric/cron/poly_worker.go, lines 127-167. The loop over the results; [None]: it waits for one more for ever. Symbol: MultiRunWorker. *)
Fixpoint drain (thisPolyType : string) (results : list GroupRes) (resMap : gmap string (list string)) : option (gmap string (list string)) :=
  match results with
  | [] => None
  | gpRes :: rest =>
      match gr_Ends gpRes, rest with
      | [], [] => Some resMap
      | [], _ => drain thisPolyType rest resMap
      | ends, rest =>
          let resMap := fold_left (add_end thisPolyType gpRes) ends resMap in
          match rest with [] => Some resMap | _ => drain thisPolyType rest resMap end
      end
  end.

(** Source: modules/polymetric/cron/poly_worker.go, MultiRunWorker. [false] when it waits for ever. *)
Definition MultiRunWorker (Type_ : string) (Num : Z) (ActionFunc : string -> list PolyMetric -> list GroupRes) (ArgMap : gmap string (list PolyMetric)) : P bool :=
  if (Num <=? 0)%Z then ret true
  else
    match drain Type_ (NewWorkPool ActionFunc ArgMap) ∅ with
    | None => ret false
    | Some resMap =>
        do! _ := modify (fun s => if String.eqb Type_ AmsTagPolyType then p_set_tag resMap s
                                  else if String.eqb Type_ FalconGroupPolyType then p_set_group resMap s else s) in
        ret true
    end.

(** Source: modules/polymetric/cron/amstag_strategy.go, RenewAmsTagStrategy. *)
Definition RenewAmsTagStrategy : P bool :=
  do! (res, num) := CommonInitQueue AmsTagPolyType in
  match res with None => ret true | Some res => MultiRunWorker AmsTagPolyType num AmsTagHttpwork res end.
(** Source: modules/polymetric/cron/falcon_group.go, RenewFalconGroupStrategy. *)
Definition RenewFalconGroupStrategy : P bool :=
  do! (res, num) := CommonInitQueue FalconGroupPolyType in
  match res with None => ret true | Some res => MultiRunWorker FalconGroupPolyType num FalconGroupwork res end.

(** Source: modules/polymetric/cron/poly_worker.go, AggAllEndMap. *)
Definition AggAllEndMap : P unit :=
  modify (fun s =>
    let f (tmpMap : gmap string (list string)) '(key, va) :=
      match tmpMap !! key with
      | None => <[key := va]> tmpMap
      | Some target => <[key := (target ++ va)%list]> tmpMap
      end in
    p_set_ends (fold_left f (walk _ (EndPolyFalconGroupMetricMap s)) (fold_left f (walk _ (EndPolyAmsTagMetricMap s)) ∅)) s).

(** Source: modules/polymetric/cron/amstag_strategy.go, SyncStrategyToCache. [nano] is the clock in nanoseconds; redis counts seconds. *)
Definition SyncStrategyToCache (nano : Z) : P unit :=
  modify (fun s =>
    let now := (nano / 10 ^ 9)%Z in
    let ThisRedisKey := EndPolyStrategyHashKey ++s itoa nano in
    let fields := map (fun '(k, v) => (k, join MultiPolySep v)) (walk _ (EndPolyMetricMap s)) in
    let '(ok, r) := HMSET now ThisRedisKey fields (RedisCluster s) in
    if (ok : bool) then
      match EXPIRE now ThisRedisKey RedisHMapTimeout r with
      | None => p_set_redis r s
      | Some r => p_set_redis (try_cmd (SET now EndPolyStrategyHashKey ThisRedisKey) r) s
      end
    else p_set_redis r s).

(** Source: modules/polymetric/cron/poly_worker.go, InitGroupStrategy. [locked] is what [GetDisLock] said. *)
Definition InitGroupStrategy (locked : bool) (rows : option (list PolyMetric)) (nano : Z) : P bool :=
  if locked then
    do! _ := SyncGroupStrategyFromDb rows in
    do! b1 := RenewAmsTagStrategy in
    if negb b1 then ret false
    else
      do! b2 := RenewFalconGroupStrategy in
      if negb b2 then ret false
      else
        do! _ := AggAllEndMap in
        do! _ := SyncStrategyToCache nano in
        ret true
  else
    do! _ := SyncGroupStrategyFromDb rows in
    do! _ := CommonInitQueue AmsTagPolyType in
    do! _ := CommonInitQueue FalconGroupPolyType in
    ret true.

(** * The points *)

(** Source: modules/polymetric/rpc/polymetric.go, Polymetric.Update. A full queue refuses a point that is counted nevertheless. *)
Definition Polymetric_Update (args : list PolyRequest) : P PolymetricResp :=
  if (length args =? 0)%nat then ret (mkPolyResp "zero item" 0 0)
  else
    foldM (fun reply item =>
      do! queues := gets PolyWorkerQueueMap in
      match queues !! pr_PolyName item with
      | None => ret (mkPolyResp (pp_Msg reply) (pp_Total reply) (pp_ErrInvalid reply +! 1)%Z)
      | Some Q =>
          do! _ := modify (fun s => p_set_types ({[pr_PolyName item]} ∪ PolyTypeMap s) s) in
          let Q := if (MaxQueueSize <=? Z.of_nat (length Q))%Z then Q else item :: Q in
          do! _ := modify (fun s => p_set_queues (<[pr_PolyName item := Q]> (PolyWorkerQueueMap s)) s) in
          ret (mkPolyResp (pp_Msg reply) (pp_Total reply +! 1)%Z (pp_ErrInvalid reply))
      end) (mkPolyResp "" 0 0) args.

(** Source: common/sdk/sender/make.go, Push. *)
Definition sender_Push (now : Z) (endpoint metric tags : string) (v : f64) (counterType : string) (step : Z) : P unit :=
  modify (fun s => p_set_out (mkJsonMetaData metric endpoint now step (VFloat v) counterType tags :: MetaDataQueue s) s).

(** Source: modules/polymetric/cron/poly_worker.go, lines 387-413. The rate and the difference of a statistic. Symbol: GeneralPolyMethods. *)
Definition push_change (now : Z) (endNew metric k : string) (v : f64) : P unit :=
  let uniqueResultKey := endNew ++s metric ++s "method=" ++s k in
  do! last := gets (fun s => PolyHistoryDataMap s !! uniqueResultKey) in
  let '(rate, delta) :=
    match last with
    | None => (fzero, fzero)
    | Some lastP => let delta := fsub v lastP in (if feq lastP fzero then fzero else fdiv delta lastP, delta)
    end in
  do! _ := modify (fun s => p_set_history (<[uniqueResultKey := v]> (PolyHistoryDataMap s)) s) in
  do! _ := sender_Push now endNew (metric ++s "_rate") ("method=" ++s k) rate "GAUGE" PolyTimeStep in
  sender_Push now endNew (metric ++s "_delta") ("method=" ++s k) delta "GAUGE" PolyTimeStep.

(** Source: modules/polymetric/cron/poly_worker.go, GeneralPolyMethods. [order] is the walk of the map of statistics. *)
Definition GeneralPolyMethods (now : Z) (order : list (string * f64) -> list (string * f64)) (Name : string) : P unit :=
  do! Q := gets (fun s => default [] (PolyWorkerQueueMap s !! Name)) in
  let item := rev Q in
  do! _ := modify (fun s => p_set_queues (alter (fun _ => []) Name (PolyWorkerQueueMap s)) s) in
  if (length item =? 0)%nat then skip
  else
    do! stats := lift (statistics (map pr_Value item)) in
    let names := split Name SEP in
    do! polyType := lift (at_index names 0) in
    do! polyName := lift (at_index names 1) in
    do! metric := lift (at_index names 2) in
    let endNew := replace_all (polyType ++s "_poly_" ++s polyName) "." "_" in
    do! _ := forM stats (fun '(k, v) => sender_Push now endNew metric ("method=" ++s k) v "GAUGE" PolyTimeStep) in
    forM (order stats) (fun '(k, v) => push_change now endNew metric k v).

(** Source: modules/polymetric/cron/poly_worker.go, PolyTickerWorker.WorkerRun. *)
Definition PolyWorkerRun (now : Z) (order : list (string * f64) -> list (string * f64)) (Name : string) : P unit :=
  do! t := lift (at_index (split Name PolyStringSep) 0) in
  if String.eqb t AmsTagPolyType || String.eqb t FalconGroupPolyType then GeneralPolyMethods now order Name else skip.
End Polymetric.

(** Source: modules/polymetric/g/func.go, IpToEndpoint. *)
Definition IpToEndpoint (ip : string) : res string :=
  let res := split ip "." in
  let! BlanStr := at_index res 1 in
  let! ClanStr := at_index res 2 in
  let! DlanStr := at_index res 3 in
  let padded str := let n := parse_int_value str 64 in if (n <? 100)%Z then "0" ++s itoa n else str in
  Ret ("n" ++s BlanStr ++s "-" ++s padded ClanStr ++s "-" ++s padded DlanStr).
