(* ===== verification/PolymetricThms.v ===== *)
(** The strategies of polymetric reach the transfer; those of a type whose last
    row is deleted stay. *)
From S2P Require Export Polymetric.
From S2P Require Import Prelude GoStr.
From Stdlib Require Import Ascii.
Local Open Scope string_scope.

(** * Lists gathered under keys *)

(** [m] has under each key the list [g] gives it, and no empty list. *)
Definition gathers {A} (g : string -> list A) (m : gmap string (list A)) : Prop :=
  forall k, m !! k = match g k with [] => None | l => Some l end.

Lemma gathers_default {A} (g : string -> list A) m k : gathers g m -> default [] (m !! k) = g k.
Proof. intros H. rewrite H. by destruct (g k). Qed.

(** One more element at the end of the list of its key. *)
Lemma gathers_add {A} (f : A -> string) (l : list A) (m m' : gmap string (list A)) x :
  gathers (fun k => filter (fun y => f y = k) l) m ->
  m' = <[f x := (default [] (m !! f x) ++ [x])%list]> m ->
  gathers (fun k => filter (fun y => f y = k) (l ++ [x])%list) m'.
Proof.
  intros H -> k. rewrite filter_app. cbn [filter list_filter]. destruct (decide (k = f x)) as [->|Hne].
  - rewrite lookup_insert_eq, (gathers_default _ _ _ H). rewrite decide_True by done. by destruct (filter _ l).
  - rewrite lookup_insert_ne by done. rewrite decide_False by done. rewrite app_nil_r. apply H.
Qed.

(** A walk of a map without repetition, merged into another. *)
Lemma fold_append_lookup {A} (kvs : list (string * list A)) (acc : gmap string (list A)) k :
  NoDup kvs.*1 -> (forall k, acc !! k <> Some []) -> (forall k v, (k, v) ∈ kvs -> v <> []) ->
  let r := fold_left (fun (m : gmap string (list A)) '(key, va) =>
    match m !! key with None => <[key := va]> m | Some target => <[key := (target ++ va)%list]> m end) kvs acc in
  (forall k, r !! k <> Some []) /\ default [] (r !! k) = (default [] (acc !! k) ++ default [] ((list_to_map kvs : gmap string (list A)) !! k))%list.
Proof.
  revert acc; induction kvs as [|[key va] kvs IH]; intros acc Hnd Hacc Hne; cbn -[lookup list_to_map].
  - rewrite list_to_map_nil, lookup_empty, app_nil_r. done.
  - cbn in Hnd. apply NoDup_cons in Hnd as [Hn Hnd].
    assert (va <> []) as Hva by (eapply Hne; by left).
    set (acc' := match acc !! key with None => _ | Some _ => _ end).
    assert (acc' = <[key := (default [] (acc !! key) ++ va)%list]> acc) as E by (unfold acc'; by destruct (acc !! key)).
    destruct (IH acc') as [H1 H2]; [done| |intros; eapply Hne; by right|].
    { intros k'. rewrite E. destruct (decide (k' = key)) as [->|]; [|by rewrite lookup_insert_ne by done].
      rewrite lookup_insert_eq. intros [= [_ ->]%app_nil]. done. }
    split; [exact H1|]. rewrite H2, E, list_to_map_cons. destruct (decide (k = key)) as [->|Hk].
    + rewrite !lookup_insert_eq. cbn [default]. rewrite (not_elem_of_list_to_map_1 kvs key) by done.
      cbn. by rewrite app_nil_r.
    + by rewrite !lookup_insert_ne by done.
Qed.

(** * The aggregations of the endpoints *)

(** [m] has under each key, once each, the texts [R] gives it. *)
Definition indexes (R : string -> string -> Prop) (m : gmap string (list string)) : Prop :=
  forall key, m !! key <> Some [] /\ NoDup (default [] (m !! key)) /\ forall p, p ∈ default [] (m !! key) <-> R key p.

Definition end_key (e counter : string) : string := e ++s SEP ++s counter.
Definition poly_key (T name counter : string) : string := T ++s SEP ++s name ++s SEP ++s counter.

Lemma add_end_indexes T g R m e : indexes R m ->
  indexes (fun key p => R key p \/ key = end_key e (gr_Counter g) /\ p = poly_key T (gr_Name g) (gr_Counter g)) (add_end T g m e).
Proof.
  intros H key. unfold add_end. fold (end_key e (gr_Counter g)). fold (poly_key T (gr_Name g) (gr_Counter g)).
  set (k0 := end_key _ _). set (p0 := poly_key _ _ _). destruct (H key) as (Hne & Hnd & Hin). destruct (H k0) as (Hne0 & Hnd0 & Hin0).
  destruct (m !! k0) as [old|] eqn:E0; [case_bool_decide as Hp|].
  - split; [done|]. split; [done|]. intros p. rewrite Hin. split; [auto|]. intros [?|[-> ->]]; [done|]. by apply Hin0.
  - destruct (decide (key = k0)) as [->|Hk].
    + rewrite lookup_insert_eq. change (default [] (Some ?l)) with l. split; [intros [= [_ [=]]%app_nil]|]. split.
      * apply NoDup_app. split; [done|]. split; [|apply NoDup_singleton]. intros x Hx ->%list_elem_of_singleton. done.
      * intros p. rewrite elem_of_app, list_elem_of_singleton. rewrite E0 in Hin. cbn in Hin. rewrite Hin. naive_solver.
    + rewrite lookup_insert_ne by done. split; [done|]. split; [done|]. intros p. rewrite Hin. naive_solver.
  - destruct (decide (key = k0)) as [->|Hk].
    + rewrite lookup_insert_eq. change (default [] (Some ?l)) with l. split; [done|]. split; [apply NoDup_singleton|].
      intros p. rewrite list_elem_of_singleton. rewrite E0 in Hin. cbn in Hin. specialize (Hin p). rewrite elem_of_nil in Hin. naive_solver.
    + rewrite lookup_insert_ne by done. split; [done|]. split; [done|]. intros p. rewrite Hin. naive_solver.
Qed.

Lemma indexes_iff R R' m : (forall key p, R key p <-> R' key p) -> indexes R m -> indexes R' m.
Proof. intros H Hm key. destruct (Hm key) as (? & ? & Hp). split; [done|]. split; [done|]. intros p. by rewrite Hp. Qed.

Lemma add_ends_indexes T g R m ends : indexes R m ->
  indexes (fun key p => R key p \/ exists e, e ∈ ends /\ key = end_key e (gr_Counter g) /\ p = poly_key T (gr_Name g) (gr_Counter g))
    (fold_left (add_end T g) ends m).
Proof.
  revert R m; induction ends as [|e ends IH]; intros R m H; cbn [fold_left].
  - eapply indexes_iff; [|exact H]. intros key p. setoid_rewrite elem_of_nil. naive_solver.
  - eapply indexes_iff; [|apply IH, add_end_indexes, H]. intros key p. cbn. setoid_rewrite elem_of_cons. naive_solver.
Qed.

(** What the results of a type add. *)
Definition adds (T : string) (results : list GroupRes) (key p : string) : Prop :=
  exists g e, g ∈ results /\ e ∈ gr_Ends g /\ key = end_key e (gr_Counter g) /\ p = poly_key T (gr_Name g) (gr_Counter g).

Lemma drain_indexes T results R m : results <> [] -> indexes R m ->
  exists m', drain T results m = Some m' /\ indexes (fun key p => R key p \/ adds T results key p) m'.
Proof.
  intros Hr. revert R m; induction results as [|g results IH]; intros R m H; [done|].
  assert (exists m', match results with [] => Some (fold_left (add_end T g) (gr_Ends g) m) | _ => drain T results (fold_left (add_end T g) (gr_Ends g) m) end = Some m' /\
    indexes (fun key p => R key p \/ adds T (g :: results) key p) m') as (m' & E & Hm').
  { pose proof (add_ends_indexes T g R m (gr_Ends g) H) as Hg. destruct results as [|g' results].
    - eexists. split; [done|]. eapply indexes_iff; [|exact Hg]. intros key p. unfold adds. cbn. setoid_rewrite list_elem_of_singleton. naive_solver.
    - destruct (IH ltac:(done) _ _ Hg) as (m' & E & Hm'). exists m'. split; [done|].
      eapply indexes_iff; [|exact Hm']. intros key p. unfold adds. cbn beta. setoid_rewrite (elem_of_cons (g' :: results)). naive_solver. }
  exists m'. split; [|done]. rewrite <- E. cbn [drain]. by destruct (gr_Ends g), results.
Qed.

(** * A renewal *)

(** The aggregations the rows [res] of a type ask for. *)
Definition wants (T : string) (members : string -> list string) (res : list PolyMetric) (key p : string) : Prop :=
  exists item e, item ∈ res /\ e ∈ members (pm_Name item) /\ key = end_key e (pm_Counter item) /\ p = poly_key T (pm_Name item) (pm_Counter item).

Lemma foldM_cons_run {S A B} (body : B -> A -> M S B) b x l s b' s' :
  body b x s = Ret (b', s') -> foldM body b (x :: l) s = foldM body b' l s'.
Proof. intros E. cbn [foldM]. unfold mthen. by rewrite E. Qed.

Section Renewal.
Context {K : Type} {redis : RedisKV K} {laws : RedisKVLaws K}.
Context (GetAmsTagIps RunFalconGroupSql : string -> list string)
  (arrive : list GroupRes -> list GroupRes)
  (walk : forall T, gmap string T -> list (string * T)).
Hypothesis arrive_all : forall l, arrive l ≡ₚ l.
Hypothesis walk_all : forall T (m : gmap string T), walk T m ≡ₚ map_to_list m.
Notation PolyState := (PolyState (K := K)).

Lemma walk_nodup T (m : gmap string T) : NoDup (walk T m).*1.
Proof using walk_all. rewrite walk_all. apply NoDup_fst_map_to_list. Qed.
Lemma walk_in T (m : gmap string T) k v : (k, v) ∈ walk T m <-> m !! k = Some v.
Proof using walk_all. rewrite walk_all. apply elem_of_map_to_list. Qed.
Lemma walk_map T (m : gmap string T) : list_to_map (walk T m) = m.
Proof using walk_all.
  rewrite <- (list_to_map_to_list m) at 2. apply list_to_map_proper; [apply walk_nodup|apply walk_all].
Qed.

(** The rows are gathered by type. *)
Lemma SyncGroupStrategyFromDb_run (l : list PolyMetric) (s : PolyState) :
  exists cfg, SyncGroupStrategyFromDb (Some l) s = Ret (tt, p_set_config cfg s) /\ gathers (fun T => filter (fun i => pm_PolyType i = T) l) cfg.
Proof using Type.
  eexists. split; [reflexivity|]. cbv zeta; cbn [from_option id].
  induction l as [|item l IH] using rev_ind; [done|].
  rewrite fold_left_app. cbn [fold_left]. eapply gathers_add; [exact IH|].
  rewrite (IH (pm_PolyType item)). by destruct (filter _ l).
Qed.

(** The rows of a type are gathered by name, and each has its queue. *)
Lemma CommonInitQueue_run T (s : PolyState) res : PolyDbConfigMap s !! T = Some res ->
  exists resMap q, CommonInitQueue T s = Ret ((Some resMap, Z.of_nat (length res)), p_set_queues q s) /\
    gathers (fun n => filter (fun i => pm_Name i = n) res) resMap /\
    (forall n, is_Some (PolyWorkerQueueMap s !! n) -> is_Some (q !! n)) /\
    forall i, i ∈ res -> is_Some (q !! poly_key T (pm_Name i) (pm_Counter i)).
Proof using Type.
  intros Hres. unfold CommonInitQueue, gets, mthen at 1. rewrite Hres.
  match goal with |- context [foldM ?b ∅ res] => set (body := b) end.
  enough (forall todo done_ resMap (s : PolyState),
    gathers (fun n => filter (fun i => pm_Name i = n) done_) resMap ->
    exists resMap' q, foldM body resMap todo s = Ret (resMap', p_set_queues q s) /\
      gathers (fun n => filter (fun i => pm_Name i = n) (done_ ++ todo)%list) resMap' /\
      (forall n, is_Some (PolyWorkerQueueMap s !! n) -> is_Some (q !! n)) /\
      forall i, i ∈ todo -> is_Some (q !! poly_key T (pm_Name i) (pm_Counter i))) as H.
  { destruct (H res [] ∅ s) as (resMap & q & E & Hr); [done|]. exists resMap, q. split; [|exact Hr]. unfold mthen. by rewrite E. }
  clear Hres. induction todo as [|i todo IH]; intros done_ resMap s' Hg.
  - exists resMap, (PolyWorkerQueueMap s'). rewrite app_nil_r. split; [by destruct s'|]. split; [done|]. split; [done|].
    intros i Hi. by apply not_elem_of_nil in Hi.
  - set (name := poly_key T (pm_Name i) (pm_Counter i)).
    set (q1 := match PolyWorkerQueueMap s' !! name with Some _ => PolyWorkerQueueMap s' | None => <[name := []]> (PolyWorkerQueueMap s') end).
    set (m1 := <[pm_Name i := (default [] (resMap !! pm_Name i) ++ [i])%list]> resMap).
    assert (body resMap i s' = Ret (m1, p_set_queues q1 s')) as E1.
    { unfold body, CreatePloyQueueIfNeed, mthen, modify, ret, q1, m1. fold (poly_key T (pm_Name i) (pm_Counter i)). fold name.
      do 2 f_equal; [|destruct (PolyWorkerQueueMap s' !! name); [by destruct s'|done]].
      by destruct (default [] (resMap !! pm_Name i)). }
    rewrite (foldM_cons_run _ _ _ _ _ _ _ E1).
    destruct (IH (done_ ++ [i])%list m1 (p_set_queues q1 s')) as (resMap' & q & E & Hg' & Hq & Hi); [by eapply gathers_add|].
    rewrite <- app_assoc in Hg'. exists resMap', q. split; [exact E|]. split; [exact Hg'|]. cbn [p_set_queues PolyWorkerQueueMap] in Hq.
    assert (forall n, is_Some (PolyWorkerQueueMap s' !! n) \/ n = name -> is_Some (q1 !! n)) as H1.
    { intros n Hn. unfold q1. destruct (PolyWorkerQueueMap s' !! name) eqn:En; [destruct Hn as [?| ->]; [done|by rewrite En]|].
      rewrite lookup_insert_is_Some. destruct Hn as [?| ->]; [|by left]. destruct (decide (name = n)); auto. }
    split; [intros n Hn; apply Hq, H1; by left|].
    intros j [->|Hj]%elem_of_cons; [apply Hq, H1; by right|by apply Hi].
Qed.

(** What the workers of a type bring together. *)
Lemma collect_run T members res resMap : res <> [] -> gathers (fun n => filter (fun i => pm_Name i = n) res) resMap ->
  exists m, drain T (NewWorkPool arrive walk (fun name strategys => map (fun item => mkGroupRes name (pm_Counter item) (members name)) strategys) resMap) ∅ = Some m /\
    indexes (wants T members res) m.
Proof using All.
  intros Hres Hg. set (results := NewWorkPool _ _ _ _).
  assert (forall g, g ∈ results <-> exists item, item ∈ res /\ g = mkGroupRes (pm_Name item) (pm_Counter item) (members (pm_Name item))) as Hin.
  { intros g. unfold results, NewWorkPool. rewrite arrive_all, list_elem_of_In, in_flat_map. setoid_rewrite <- list_elem_of_In. split.
    - intros ([name st] & Hw & Hgi). apply walk_in in Hw. rewrite Hg in Hw.
      assert (st = filter (fun i => pm_Name i = name) res) as -> by (destruct (filter _ res); simplify_eq; done).
      apply list_elem_of_In, in_map_iff in Hgi as (item & <- & Hi). apply list_elem_of_In, list_elem_of_filter in Hi as [<- Hi]. eauto.
    - intros (item & Hi & ->). set (st := filter (fun i => pm_Name i = pm_Name item) res).
      assert (item ∈ st) as Hst by (by apply list_elem_of_filter). exists (pm_Name item, st). split.
      + apply walk_in. rewrite Hg. fold st. destruct st; [by apply not_elem_of_nil in Hst|done].
      + apply list_elem_of_In, in_map_iff. exists item. split; [done|]. by apply list_elem_of_In. }
  destruct (drain_indexes T results (fun _ _ => False) ∅) as (m & E & Hm).
  - destruct res as [|item res]; [done|]. intros E. assert (mkGroupRes (pm_Name item) (pm_Counter item) (members (pm_Name item)) ∈ results) as H by (apply Hin; exists item; split; [by left|done]).
    rewrite E in H. by apply not_elem_of_nil in H.
  - intros key. rewrite lookup_empty. cbn. split; [done|]. split; [apply NoDup_nil_2|]. intros p. by rewrite elem_of_nil.
  - exists m. split; [exact E|]. eapply indexes_iff; [|exact Hm]. intros key p. unfold adds, wants. cbn beta. setoid_rewrite Hin. naive_solver.
Qed.

(** One type renewed: its map becomes the index of its rows, or stays when it
    has no rows. *)
Lemma Renew_run T members set_map (s : PolyState) res :
  PolyDbConfigMap s !! T = match res with [] => None | i :: l => Some (i :: l) end ->
  (forall m s, (if String.eqb T AmsTagPolyType then p_set_tag m s else if String.eqb T FalconGroupPolyType then p_set_group m s else s) = set_map m s) ->
  exists s', (do! (r, num) := CommonInitQueue T in
     match r with
     | None => ret true
     | Some r => MultiRunWorker arrive walk T num (fun name strategys => map (fun item => mkGroupRes name (pm_Counter item) (members name)) strategys) r
     end) s = Ret (true, s') /\
    match res with
    | [] => s' = s
    | _ => exists q m, s' = set_map m (p_set_queues q s) /\ indexes (wants T members res) m /\
        (forall n, is_Some (PolyWorkerQueueMap s !! n) -> is_Some (q !! n)) /\
        forall i, i ∈ res -> is_Some (q !! poly_key T (pm_Name i) (pm_Counter i))
    end.
Proof using All.
  intros Hc Hset. destruct res as [|i0 res0]; [exists s; split; [|done]|].
  { unfold mthen, CommonInitQueue, gets. unfold mthen. by rewrite Hc. }
  set (res := i0 :: res0) in *. destruct (CommonInitQueue_run T s res Hc) as (resMap & q & E & Hg & Hq & Hi).
  destruct (collect_run T members res resMap) as (m & Em & Hm); [done|done|].
  exists (set_map m (p_set_queues q s)). split; [|by exists q, m].
  rewrite (mthen_run _ _ _ _ _ E). unfold MultiRunWorker. rewrite (proj2 (Z.leb_gt _ 0)) by (unfold res; cbn [length]; lia).
  rewrite Em. unfold mthen, modify, ret. by rewrite Hset.
Qed.

(** Both maps, walked into one. *)
Lemma AggAllEndMap_run R1 R2 (s : PolyState) :
  indexes R1 (EndPolyAmsTagMetricMap s) -> indexes R2 (EndPolyFalconGroupMetricMap s) -> (forall key p, R1 key p -> ~ R2 key p) ->
  exists m, AggAllEndMap walk s = Ret (tt, p_set_ends m s) /\ indexes (fun key p => R1 key p \/ R2 key p) m.
Proof using All.
  intros H1 H2 Hd. eexists. split; [reflexivity|]. cbv zeta. intros key.
  destruct (fold_append_lookup (walk _ (EndPolyAmsTagMetricMap s)) ∅ key) as [Ha Ea];
    [apply walk_nodup|intros k; by rewrite lookup_empty|intros k v Hw ->; apply walk_in in Hw; by destruct (H1 k)|].
  destruct (fold_append_lookup (walk _ (EndPolyFalconGroupMetricMap s)) _ key (walk_nodup _ _) Ha) as [Hb Eb];
    [intros k v Hw ->; apply walk_in in Hw; by destruct (H2 k)|].
  rewrite walk_map in Ea, Eb. rewrite lookup_empty in Ea. cbn [app default] in Ea.
  destruct (H1 key) as (_ & N1 & I1), (H2 key) as (_ & N2 & I2).
  split; [apply Hb|]. rewrite Eb, Ea. cbn. split.
  - apply NoDup_app. split; [done|]. split; [|done]. intros p Hp Hp'. apply I1 in Hp. apply I2 in Hp'. by eapply Hd.
  - intros p. by rewrite elem_of_app, I1, I2.
Qed.

(** The map in redis, for an hour. *)
Lemma SyncStrategyToCache_run nano (s : PolyState) R key0 p0 :
  let now := (nano / 10 ^ 9)%Z in
  let hash := EndPolyStrategyHashKey ++s itoa nano in
  up (RedisCluster s) -> live (RedisCluster s) now hash = None -> hlive (RedisCluster s) now hash = None ->
  indexes R (EndPolyMetricMap s) -> R key0 p0 ->
  exists r m, SyncStrategyToCache walk nano s = Ret (tt, p_set_redis r s) /\ up r /\
    (forall key, m !! key = join MultiPolySep <$> EndPolyMetricMap s !! key) /\
    forall t, (now <= t < now + RedisHMapTimeout)%Z ->
      GET t EndPolyStrategyHashKey r = Some (Some hash) /\ HGETALL t hash r = Some m.
Proof using All.
  intros now hash Hu Hl Hh HR H0. unfold SyncStrategyToCache. fold now hash.
  set (fields := map (fun '(k, v) => (k, join MultiPolySep v)) (walk _ (EndPolyMetricMap s))).
  assert (fields.*1 = (walk _ (EndPolyMetricMap s)).*1) as Hf.
  { unfold fields. generalize (walk _ (EndPolyMetricMap s)) as w. induction w as [|[k v] w IH]; [done|]. cbn. by f_equal. }
  assert (fields <> []) as Hne.
  { destruct (HR key0) as (_ & _ & Hp). apply Hp in H0. destruct (EndPolyMetricMap s !! key0) as [v|] eqn:E; [|by apply not_elem_of_nil in H0].
    apply walk_in in E. intros Ef. rewrite Ef in Hf. apply (list_elem_of_fmap_2 fst) in E. rewrite <- Hf in E. by apply not_elem_of_nil in E. }
  destruct (HMSET_sets now hash fields _ Hu Hne Hl) as (r1 & E1 & [Hu1 B1] & H1); [by rewrite Hh|]. rewrite Hh in H1.
  destruct (EXPIRE_hlive now hash RedisHMapTimeout _ r1 Hu1 eq_refl (H1 now ltac:(lia))) as (r2 & E2 & [Hu2 B2] & H2).
  destruct (SET_live now EndPolyStrategyHashKey hash r2 Hu2) as (r3 & E3 & [Hu3 B3] & H3).
  exists r3. eexists. unfold modify. cbv beta zeta. fold now. fold hash. fold fields. rewrite E1, E2. unfold try_cmd. rewrite E3. split; [reflexivity|]. split; [done|]. split; cycle 1.
  - intros t Ht. assert (hash <> EndPolyStrategyHashKey) as Hk.
    { unfold hash. intros E. apply (f_equal String.length) in E. rewrite sapp_length in E. pose proof (itoa_nonempty nano). destruct (itoa nano); [done|]. cbn in E. lia. }
    assert (hlive r3 t hash = Some (insert_all fields ∅)) as Hh3.
    { destruct (B3 t hash) as [_ ->]; [lia|done|]. rewrite H2 by lia. by rewrite (proj2 (Z.ltb_lt t _)) by lia. }
    split.
    + rewrite GET_live; [by rewrite H3 by lia|done|]. eapply live_hlive; [done|apply H3; lia].
    + rewrite HGETALL_live; [by rewrite Hh3|done|]. destruct (live r3 t hash) eqn:E; [|done]. apply live_hlive in E; [congruence|done].
  - intros key. change (default ∅ (Some ?x)) with x. rewrite insert_all_lookup by (rewrite Hf; apply walk_nodup). rewrite lookup_empty.
    replace (list_to_map fields : gmap string string) with (join MultiPolySep <$> EndPolyMetricMap s).
    + rewrite lookup_fmap. by destruct (EndPolyMetricMap s !! key).
    + rewrite <- (walk_map _ (EndPolyMetricMap s)) at 1. unfold fields. generalize (walk _ (EndPolyMetricMap s)) as w.
      induction w as [|[k v] w IH]; [apply fmap_empty|]. cbn -[join]. by rewrite fmap_insert, IH.
Qed.

(** * From the rows to the transfer *)

(** The endpoints of a group, by the type of the aggregation. *)
Definition members (T : string) : string -> list string :=
  if String.eqb T AmsTagPolyType then GetAmsTagIps else if String.eqb T FalconGroupPolyType then RunFalconGroupSql else fun _ => [].
(** The row of an aggregation names a group the endpoint belongs to. *)
Definition wanted (l : list PolyMetric) (key p : string) : Prop :=
  exists item e, item ∈ l /\ e ∈ members (pm_PolyType item) (pm_Name item) /\
    key = e ++s SEP ++s pm_Counter item /\ p = pm_PolyType item ++s SEP ++s pm_Name item ++s SEP ++s pm_Counter item.

Definition of_type (T : string) (l : list PolyMetric) : list PolyMetric := filter (fun i => pm_PolyType i = T) l.

Lemma wanted_types l key p : wanted l key p <->
  wants AmsTagPolyType GetAmsTagIps (of_type AmsTagPolyType l) key p \/ wants FalconGroupPolyType RunFalconGroupSql (of_type FalconGroupPolyType l) key p.
Proof using Type.
  unfold wanted, wants, of_type. setoid_rewrite list_elem_of_filter. split.
  - intros (item & e & Hi & He & -> & ->). unfold members in He.
    destruct (String.eqb_spec (pm_PolyType item) AmsTagPolyType) as [E|]; [left; exists item, e; by rewrite E|].
    destruct (String.eqb_spec (pm_PolyType item) FalconGroupPolyType) as [E|]; [right; exists item, e; by rewrite E|].
    by apply not_elem_of_nil in He.
  - intros [(item & e & [E Hi] & He & -> & ->)|(item & e & [E Hi] & He & -> & ->)]; exists item, e; unfold members; by rewrite E.
Qed.

Lemma indexes_none T f : indexes (wants T f []) ∅.
Proof using Type.
  intros key. rewrite lookup_empty. split; [done|]. split; [apply NoDup_nil_2|]. intros p. split; [intros H; by apply elem_of_nil in H|].
  intros (item & e & H & _). by apply elem_of_nil in H.
Qed.

(** The map of a type is the index of rows that were read once, whose names
    and counters have no at sign and whose queues exist. *)
Definition built (T : string) (ends : gmap string (list string)) (s : PolyState) (from : (string -> list string) * list PolyMetric) : Prop :=
  indexes (wants T from.1 from.2) ends /\
  forall i, i ∈ from.2 -> has "@" (pm_Name i) = false /\ has "@" (pm_Counter i) = false /\ is_Some (PolyWorkerQueueMap s !! poly_key T (pm_Name i) (pm_Counter i)).
(** A type that has rows is read anew, with the groups of now; a type that has none stays as it was. *)
Definition index_renewed (T : string) (members : string -> list string) (l : list PolyMetric) (old : (string -> list string) * list PolyMetric) :=
  match of_type T l with [] => old | _ => (members, of_type T l) end.
(** What the rows of both types ask for. *)
Definition current (tags groups : (string -> list string) * list PolyMetric) (key p : string) : Prop :=
  wants AmsTagPolyType tags.1 tags.2 key p \/ wants FalconGroupPolyType groups.1 groups.2 key p.

Lemma current_wanted l : forall old1 old2, of_type AmsTagPolyType l <> [] -> of_type FalconGroupPolyType l <> [] ->
  forall key p, current (index_renewed AmsTagPolyType GetAmsTagIps l old1) (index_renewed FalconGroupPolyType RunFalconGroupSql l old2) key p <-> wanted l key p.
Proof using Type.
  intros old1 old2 H1 H2 key p. rewrite wanted_types. unfold current, index_renewed.
  destruct (of_type AmsTagPolyType l), (of_type FalconGroupPolyType l); done.
Qed.

(** One type renewed, by what its map is the index of. *)
Lemma built_renewed T members set_map get_map (s s1 : PolyState) l old :
  (forall m s, get_map (set_map m s) = m) -> (forall q m s, PolyWorkerQueueMap (set_map m (p_set_queues q s)) = q) ->
  (forall i, i ∈ l -> has "@" (pm_Name i) = false /\ has "@" (pm_Counter i) = false) ->
  built T (get_map s) s old ->
  match of_type T l with
  | [] => s1 = s
  | _ => exists q m, s1 = set_map m (p_set_queues q s) /\ indexes (wants T members (of_type T l)) m /\
        (forall n, is_Some (PolyWorkerQueueMap s !! n) -> is_Some (q !! n)) /\
        forall i, i ∈ of_type T l -> is_Some (q !! poly_key T (pm_Name i) (pm_Counter i))
  end ->
  built T (get_map s1) s1 (index_renewed T members l old) /\ forall n, is_Some (PolyWorkerQueueMap s !! n) -> is_Some (PolyWorkerQueueMap s1 !! n).
Proof using Type.
  intros Hget Hqs Hat Hb H1. unfold index_renewed. assert (forall i, i ∈ of_type T l -> i ∈ l) as Hin by (intros i Hi; by apply list_elem_of_filter in Hi as [_ ?]).
  destruct (of_type T l) as [|i0 l0]; [by subst s1|].
  destruct H1 as (q & m & -> & Hm & Hn & Hq). unfold built. rewrite Hget, Hqs. split; [|done]. split; [done|].
  intros i Hi. destruct (Hat i (Hin i Hi)) as [? ?]. split; [done|]. split; [done|]. by apply Hq.
Qed.
Lemma built_later T ends (s s' : PolyState) from : (forall n, is_Some (PolyWorkerQueueMap s !! n) -> is_Some (PolyWorkerQueueMap s' !! n)) ->
  built T ends s from -> built T ends s' from.
Proof using Type. intros Hn [Hi Hb]. split; [done|]. intros i (? & ? & ?)%Hb. auto. Qed.

(** A renewal with the lock: what the four maps are after it. *)
Lemma InitGroupStrategy_run l nano (s : PolyState) old1 old2 key0 p0 :
  let now := (nano / 10 ^ 9)%Z in
  let hash := EndPolyStrategyHashKey ++s itoa nano in
  let tags := index_renewed AmsTagPolyType GetAmsTagIps l old1 in
  let groups := index_renewed FalconGroupPolyType RunFalconGroupSql l old2 in
  up (RedisCluster s) -> live (RedisCluster s) now hash = None -> hlive (RedisCluster s) now hash = None ->
  (forall i, i ∈ l -> has "@" (pm_Name i) = false /\ has "@" (pm_Counter i) = false) ->
  built AmsTagPolyType (EndPolyAmsTagMetricMap s) s old1 -> built FalconGroupPolyType (EndPolyFalconGroupMetricMap s) s old2 ->
  current tags groups key0 p0 ->
  exists s' m ends, InitGroupStrategy GetAmsTagIps RunFalconGroupSql arrive walk true (Some l) nano s = Ret (true, s') /\
    indexes (current tags groups) ends /\ (forall key, m !! key = join MultiPolySep <$> ends !! key) /\
    built AmsTagPolyType (EndPolyAmsTagMetricMap s') s' tags /\ built FalconGroupPolyType (EndPolyFalconGroupMetricMap s') s' groups /\
    forall t, (now <= t < now + RedisHMapTimeout)%Z ->
      GET t EndPolyStrategyHashKey (RedisCluster s') = Some (Some hash) /\ HGETALL t hash (RedisCluster s') = Some m.
Proof using All.
  intros now hash tags groups Hu Hl Hh Hat Hs1 Hs2 Hw. destruct (SyncGroupStrategyFromDb_run l s) as (cfg & E0 & Hcfg).
  destruct (Renew_run AmsTagPolyType GetAmsTagIps p_set_tag (p_set_config cfg s) (of_type AmsTagPolyType l)) as (s1 & E1 & H1); [apply (Hcfg AmsTagPolyType)|done|].
  assert (PolyDbConfigMap s1 = cfg /\ EndPolyFalconGroupMetricMap s1 = EndPolyFalconGroupMetricMap s /\ RedisCluster s1 = RedisCluster s) as (C1 & F1 & R1).
  { destruct (of_type AmsTagPolyType l); [by subst s1|]. by destruct H1 as (q & m & -> & _). }
  destruct (built_renewed AmsTagPolyType GetAmsTagIps p_set_tag EndPolyAmsTagMetricMap (p_set_config cfg s) s1 l old1 ltac:(done) ltac:(done) Hat Hs1 H1) as [I1 N1].
  destruct (Renew_run FalconGroupPolyType RunFalconGroupSql p_set_group s1 (of_type FalconGroupPolyType l)) as (s2 & E2 & H2); [rewrite C1; apply (Hcfg FalconGroupPolyType)|done|].
  assert (EndPolyAmsTagMetricMap s2 = EndPolyAmsTagMetricMap s1 /\ RedisCluster s2 = RedisCluster s1) as (A2 & R2).
  { destruct (of_type FalconGroupPolyType l); [by subst s2|]. by destruct H2 as (q & m & -> & _). }
  destruct (built_renewed FalconGroupPolyType RunFalconGroupSql p_set_group EndPolyFalconGroupMetricMap s1 s2 l old2 ltac:(done) ltac:(done) Hat) as [I2 N2];
    [rewrite F1; by apply (built_later _ _ (p_set_config cfg s))|exact H2|].
  apply (built_later _ _ s1 s2) in I1; [|done]. rewrite <- A2 in I1.
  destruct (AggAllEndMap_run _ _ s2 (proj1 I1) (proj1 I2)) as (ends & E3 & I3).
  { intros key p (? & ? & _ & _ & _ & ->) (? & ? & _ & _ & _ & H). discriminate H. }
  destruct (SyncStrategyToCache_run nano (p_set_ends ends s2) (current tags groups) key0 p0) as (r & m & E4 & Hr & Hm & Ht); [cbn; by rewrite R2, R1..|done|done|].
  exists (p_set_redis r (p_set_ends ends s2)), m, ends. split.
  { unfold InitGroupStrategy. rewrite (mthen_run _ _ _ _ _ E0). unfold RenewAmsTagStrategy, RenewFalconGroupStrategy.
    rewrite (mthen_run _ _ _ _ _ E1). cbn [negb]. rewrite (mthen_run _ _ _ _ _ E2). cbn [negb].
    rewrite (mthen_run _ _ _ _ _ E3). by rewrite (mthen_run _ _ _ _ _ E4). }
  by do 4 (split; [done|]).
Qed.

Lemma poly_key_has T name counter :
  has "@" T = false -> has "@" name = false -> has "@" counter = false -> has "@" (poly_key T name counter) = false.
Proof using Type. intros HT Hn Hc. unfold poly_key. by rewrite !has_app, HT, Hn, Hc. Qed.

Lemma current_free tags groups (s : PolyState) e1 e2 key p : built AmsTagPolyType e1 s tags -> built FalconGroupPolyType e2 s groups ->
  current tags groups key p -> has "@" p = false /\ p <> "" /\ is_Some (PolyWorkerQueueMap s !! p).
Proof using Type.
  intros [_ H1] [_ H2] [(i & e & Hi & _ & _ & ->)|(i & e & Hi & _ & _ & ->)]; [apply H1 in Hi|apply H2 in Hi];
    destruct Hi as (? & ? & ?); (split; [by apply poly_key_has|done]).
Qed.

(** C6: A renewal of the aggregations, done by the process that has the lock
    while redis answers (and holds no hash of this very nanosecond yet),
    hands them to the transfer.  A type that has rows in
    the table counts with these rows and the groups of now; a type whose
    rows are all gone is not read anew and counts with the rows and groups
    it was last built from ([deleted_type_stays] shows what that means).  If these
    rows ask for at least one aggregation and no name or counter among them
    has an at sign, then for an hour the text the transfer reads under an
    endpoint and a counter splits into exactly the aggregations of this
    counter over the groups the endpoint belongs to, each once; it is empty
    when there is none; each of these aggregations has a queue for the points
    the transfer will send; and the maps of both types are again built from
    the rows that counted, so the next renewal starts from there. *)
Theorem strategies_reach_transfer (l : list PolyMetric) (nano t : Z) (s : PolyState) (ts : TransState) old1 old2 (key0 p0 : string) :
  let now := (nano / 10 ^ 9)%Z in
  let hash := EndPolyStrategyHashKey ++s itoa nano in
  let tags := index_renewed AmsTagPolyType GetAmsTagIps l old1 in
  let groups := index_renewed FalconGroupPolyType RunFalconGroupSql l old2 in
  (forall i, i ∈ l -> has "@" (pm_Name i) = false /\ has "@" (pm_Counter i) = false) ->
  up (RedisCluster s) -> live (RedisCluster s) now hash = None -> hlive (RedisCluster s) now hash = None ->
  built AmsTagPolyType (EndPolyAmsTagMetricMap s) s old1 -> built FalconGroupPolyType (EndPolyFalconGroupMetricMap s) s old2 ->
  current tags groups key0 p0 -> (now <= t < now + RedisHMapTimeout)%Z ->
  exists s' ts', InitGroupStrategy GetAmsTagIps RunFalconGroupSql arrive walk true (Some l) nano s = Ret (true, s') /\
    SyncEndPolyFromRedis (GET t EndPolyStrategyHashKey (RedisCluster s') ≫= id) (fun k => HGETALL t k (RedisCluster s')) ts = Ret (tt, ts') /\
    built AmsTagPolyType (EndPolyAmsTagMetricMap s') s' tags /\ built FalconGroupPolyType (EndPolyFalconGroupMetricMap s') s' groups /\
    forall key, let text := EndPolyCache_Get ts' key in
      (text = "" <-> forall p, ~ current tags groups key p) /\
      (text <> "" -> NoDup (split text MultiPolySep) /\ forall p, p ∈ split text MultiPolySep <-> current tags groups key p) /\
      forall p, current tags groups key p -> is_Some (PolyWorkerQueueMap s' !! p).
Proof using All.
  intros now hash tags groups Hat Hu Hl Hh Hs1 Hs2 Hw Ht.
  destruct (InitGroupStrategy_run l nano s old1 old2 key0 p0 Hu Hl Hh Hat Hs1 Hs2 Hw) as (s' & m & ends & E & Hi & Hm & B1 & B2 & Hr).
  fold tags groups in Hi, B1, B2. pose proof (current_free tags groups s' (EndPolyAmsTagMetricMap s') (EndPolyFalconGroupMetricMap s')) as Hfree.
  destruct (Hr t Ht) as [E1 E2]. exists s', (t_set_endpoly m ts). split; [exact E|].
  split; [fold hash in E1, E2; rewrite E1; unfold SyncEndPolyFromRedis; change (Some (Some ?x) ≫= id) with (Some x); cbv beta iota; by rewrite E2|].
  split; [exact B1|]. split; [exact B2|].
  intros key text. assert (text = default "" (join MultiPolySep <$> ends !! key)) as Et by (unfold text, EndPolyCache_Get; cbn; by rewrite Hm).
  destruct (Hi key) as (Hne & Hnd & Hp). destruct (ends !! key) as [polys|]; cbn in Et, Hnd, Hp.
  - assert (polys <> []) as Hpn by congruence.
    assert (forall p, p ∈ polys -> has "@" p = false /\ p <> "") as Hf by (intros p H%Hp; by destruct (Hfree key p B1 B2 H) as (? & ? & _)).
    assert (split text MultiPolySep = polys) as ->.
    { rewrite Et. apply split_join_long; [done|]. apply Forall_forall. intros p H. by apply Hf. }
    assert (text <> "") as Htn.
    { rewrite Et. destruct polys as [|p polys]; [done|]. destruct (Hf p) as [_ H]; [by left|]. destruct p, polys; done. }
    split; [|split; [by split|by intros p (_ & _ & H)%(Hfree key p B1 B2)]]. split; [done|]. intros Hno. destruct polys as [|p polys]; [done|]. destruct (Hno p). apply Hp. by left.
  - rewrite Et. assert (forall p, ~ current tags groups key p) as Hno by (intros p H; apply Hp in H; by apply elem_of_nil in H).
    split; [done|]. split; [done|]. intros p H. by destruct (Hno p).
Qed.

(** A type whose last row is deleted is not renewed: its aggregations stay
    in the map of its type, and so among those of the endpoints. *)
Theorem deleted_type_stays (l : list PolyMetric) (nano : Z) (s : PolyState) key p old :
  of_type AmsTagPolyType l = [] -> EndPolyAmsTagMetricMap s !! key = Some old -> p ∈ old ->
  (forall k, EndPolyAmsTagMetricMap s !! k <> Some [] /\ EndPolyFalconGroupMetricMap s !! k <> Some []) ->
  exists s', InitGroupStrategy GetAmsTagIps RunFalconGroupSql arrive walk true (Some l) nano s = Ret (true, s') /\
    p ∈ default [] (EndPolyMetricMap s' !! key).
Proof using All.
  intros Hno Hold Hp Hne. destruct (SyncGroupStrategyFromDb_run l s) as (cfg & E0 & Hcfg).
  destruct (Renew_run AmsTagPolyType GetAmsTagIps p_set_tag (p_set_config cfg s) (of_type AmsTagPolyType l)) as (s1 & E1 & H1); [apply (Hcfg AmsTagPolyType)|done|].
  rewrite Hno in H1. subst s1.
  destruct (Renew_run FalconGroupPolyType RunFalconGroupSql p_set_group (p_set_config cfg s) (of_type FalconGroupPolyType l)) as (s2 & E2 & H2); [apply (Hcfg FalconGroupPolyType)|done|].
  assert (EndPolyAmsTagMetricMap s2 = EndPolyAmsTagMetricMap s /\ forall k, EndPolyFalconGroupMetricMap s2 !! k <> Some []) as [A2 G2].
  { destruct (of_type FalconGroupPolyType l) as [|i0 l0]; [subst s2; split; [done|apply Hne]|].
    destruct H2 as (q & m & -> & Hm & _). split; [done|]. intros k. by destruct (Hm k). }
  destruct (AggAllEndMap walk s2) as [[[] s3]|] eqn:E3; [|done].
  assert (p ∈ default [] (EndPolyMetricMap s3 !! key)) as H3.
  { injection E3 as <-. cbn [p_set_ends EndPolyMetricMap]. rewrite A2.
    destruct (fold_append_lookup (walk _ (EndPolyAmsTagMetricMap s)) ∅ key) as [Ha Ea];
      [apply walk_nodup|intros k; by rewrite lookup_empty|intros k v Hw ->; apply walk_in in Hw; by destruct (Hne k)|].
    destruct (fold_append_lookup (walk _ (EndPolyFalconGroupMetricMap s2)) _ key (walk_nodup _ _) Ha) as [Hb Eb];
      [intros k v Hw ->; apply walk_in in Hw; by destruct (G2 k)|].
    rewrite Eb, Ea, !walk_map, Hold. apply elem_of_app. left. apply elem_of_app. by right. }
  exists (snd (match SyncStrategyToCache walk nano s3 with Ret a => a | Panic _ => (tt, s3) end)). split.
  - unfold InitGroupStrategy. rewrite (mthen_run _ _ _ _ _ E0). unfold RenewAmsTagStrategy, RenewFalconGroupStrategy.
    rewrite (mthen_run _ _ _ _ _ E1). cbn [negb]. rewrite (mthen_run _ _ _ _ _ E2). cbn [negb].
    by rewrite (mthen_run _ _ _ _ _ E3).
  - unfold SyncStrategyToCache, modify. cbv zeta. cbn [snd]. destruct (HMSET _ _ _ _) as [[] r]; [destruct (EXPIRE _ _ _ r)|]; exact H3.
Qed.
End Renewal.

(** Two strategies on one group of two hosts, of which one has the tag. *)
Definition demo_rows : list PolyMetric :=
  [mkPolyMetric 1 "falcon_group" "web" "" "cpu.idle" ""; mkPolyMetric 2 "ams_tag" "web" "" "cpu.idle" ""].
Definition demo_poly : PolyState (K := kv) := mkPoly ∅ ∅ ∅ ∅ ∅ ∅ ∅ [] ∅.
Definition demo_trans : TransState := mkTrans ∅ ∅ ∅ None [] [] ∅ ∅ ∅.

(** The same tag on another host, from a group that has no row any more. *)
Definition gone_rows : list PolyMetric := [mkPolyMetric 2 "ams_tag" "web" "" "cpu.idle" ""].
Definition gone_poly : PolyState (K := kv) :=
  p_set_tag {["n1||cpu.idle" := ["ams_tag||web||cpu.idle"]]} (p_set_queues {["ams_tag||web||cpu.idle" := []]} demo_poly).

Lemma strategies_reach_transfer_witness :
  exists s' ts', InitGroupStrategy (K := kv) (fun _ => []) (fun _ => ["n1"; "n2"]) id (fun T => @map_to_list string T _ _) true (Some [mkPolyMetric 1 "falcon_group" "web" "" "cpu.idle" ""]) (5 * 10 ^ 9) gone_poly = Ret (true, s') /\
    SyncEndPolyFromRedis (GET 7 EndPolyStrategyHashKey (RedisCluster s') ≫= id) (fun k => HGETALL 7 k (RedisCluster s')) demo_trans = Ret (tt, ts') /\
    is_Some (PolyWorkerQueueMap s' !! "falcon_group||web||cpu.idle") /\ is_Some (PolyWorkerQueueMap s' !! "ams_tag||web||cpu.idle").
Proof.
  set (row := mkPolyMetric 1 "falcon_group" "web" "" "cpu.idle" "").
  destruct (strategies_reach_transfer (K := kv) (fun _ => []) (fun _ => ["n1"; "n2"]) id (fun T => @map_to_list string T _ _)
    ltac:(done) ltac:(done) [row] (5 * 10 ^ 9) 7 gone_poly demo_trans ((fun _ => ["n1"]), gone_rows) ((fun _ => []), []) "n1||cpu.idle" "ams_tag||web||cpu.idle") as (s' & ts' & E1 & E2 & _ & _ & H).
  - intros i ->%list_elem_of_singleton. done.
  - done.
  - done.
  - done.
  - split; [|intros i ->%list_elem_of_singleton; split; [done|split; [done|by eexists]]].
    intros key. split; [|split].
    + cbn [gone_poly p_set_tag EndPolyAmsTagMetricMap]. intros [_ [=]]%lookup_singleton_Some.
    + cbn [gone_poly p_set_tag EndPolyAmsTagMetricMap]. destruct (decide (key = "n1||cpu.idle")) as [->|Hk];
        [rewrite lookup_singleton_eq; apply NoDup_singleton|by rewrite lookup_singleton_ne by done; apply NoDup_nil_2].
    + intros p. cbn [gone_poly p_set_tag EndPolyAmsTagMetricMap]. split.
      * intros H. assert (key = "n1||cpu.idle" /\ p = "ams_tag||web||cpu.idle") as [-> ->].
        { destruct (decide (key = "n1||cpu.idle")) as [->|Hk]; [rewrite lookup_singleton_eq in H; by apply list_elem_of_singleton in H|].
          rewrite lookup_singleton_ne in H by done. by apply elem_of_nil in H. }
        exists (mkPolyMetric 2 "ams_tag" "web" "" "cpu.idle" ""), "n1". repeat split; by left.
      * intros (i & e & ->%list_elem_of_singleton & ->%list_elem_of_singleton & -> & ->). by left.
  - split; [apply indexes_none|]. intros i Hi. by apply elem_of_nil in Hi.
  - left. exists (mkPolyMetric 2 "ams_tag" "web" "" "cpu.idle" ""), "n1". repeat split; by left.
  - split; [by vm_compute|reflexivity].
  - exists s', ts'. split; [exact E1|]. split; [exact E2|]. split.
    + destruct (H "n1||cpu.idle") as (_ & _ & Hq). apply Hq. right. exists row, "n1". repeat split; by left.
    + destruct (H "n1||cpu.idle") as (_ & _ & Hq). apply Hq. left. exists (mkPolyMetric 2 "ams_tag" "web" "" "cpu.idle" ""), "n1". repeat split; by left.
Defined.

Lemma deleted_type_stays_witness :
  exists s', InitGroupStrategy (K := kv) (fun _ => []) (fun _ => []) id (fun T => @map_to_list string T _ _) true (Some []) 5
      (p_set_tag {["n1||c" := ["ams_tag||web||c"]]} demo_poly) = Ret (true, s') /\
    "ams_tag||web||c" ∈ default [] (EndPolyMetricMap s' !! "n1||c").
Proof.
  apply (deleted_type_stays (K := kv) (fun _ => []) (fun _ => []) id (fun T => @map_to_list string T _ _) ltac:(done) ltac:(done) [] 5
    (p_set_tag {["n1||c" := ["ams_tag||web||c"]]} demo_poly) "n1||c" "ams_tag||web||c" ["ams_tag||web||c"]).
  - done.
  - done.
  - by left.
  - intros k. split; [|done]. cbn [p_set_tag EndPolyAmsTagMetricMap]. intros [_ [=]]%lookup_singleton_Some.
Defined.
