(* ===== verification/HbsRedis.v ===== *)
(** The maps of the hbs processes ([modules/hbs/redi] and the queries of
    [modules/hbs/db] that use it): the process that gets the lock reads the
    database and puts the map into redis, the others read it from there.

    The rows of the database ([None]: the query fails), the walks of the maps
    and the clock are arguments. The maps whose values are JSON texts
    (strategies, templates, expressions, dynamic configurations) are left out:
    their code is the same but for the encoding. *)
From S2P Require Export HbsStrategies DisLock.
From S2P Require Import Prelude GoStr.
From Stdlib Require Import Ascii.
Local Open Scope string_scope.

Definition HBS_SEP : string := "|||".
Definition TIMEOUT : Z := 60 * 20.
Definition RedisDisTLockTimeOut : Z := 55.
Definition HostKey : string := "host".
Definition MonitoredHostKey : string := "monitored_host".
Definition GroupKeyPerfix : string := "group".
Definition TemplateKey : string := "template".
Definition HostTemplateKey : string := "host_template".
Definition PluginKey : string := "plugin".
Definition HostServiceKey : string := "host_Service".

Section HbsRedis.
Context {K : Type} {redis : RedisKV K}.
Context (HostName : string)
  (walk : forall T, gmap string T -> list (string * T)) (walkZ : forall T, gmap Z T -> list (Z * T)).

(** * Putting a map into a hash *)

(** Source: modules/hbs/redi/group.go, lines 22-38. The loop all the Set functions of large maps have: the fields are sent as soon as [full] says so. [false] when a command failed, with the fields that are not sent and their number, which a function that forgets [i++] leaves at 0. Symbol: SetHostGroup2Redis. *)
Fixpoint put_fields (now : Z) (key : string) (counts : bool) (full : Z -> bool) (fields pending : list (string * string)) (i : Z) (r : K)
    : bool * list (string * string) * Z * K :=
  match fields with
  | [] => (true, pending, i, r)
  | f :: fields =>
      let i := if counts then (i + 1)%Z else i in
      let pending := (pending ++ [f])%list in
      if full i then
        let '(ok, r) := HMSET now key pending r in
        if (ok : bool) then put_fields now key counts full fields [] 0 r else (false, pending, i, r)
      else put_fields now key counts full fields pending i r
  end.

(** Source: modules/hbs/redi/group.go, lines 39-57. What comes after the loop: the rest of the fields, the time to live, and the name of the hash under [name]. [shadowed] says that the error of the loop was assigned to a variable of the loop, so that it is not seen here. Symbol: SetHostGroup2Redis. *)
Definition set2redis (name key : string) (shadowed counts : bool) (full : Z -> bool) (fields : list (string * string)) (now : Z) (r : K) : K :=
  let '(ok, pending, i, r) := put_fields now key counts full fields [] 0 r in
  if negb ok && negb shadowed then r
  else
    let '(ok, r) := if (0 <? i)%Z then HMSET now key pending r else (true, r) in
    if (ok : bool) then
      match EXPIRE now key TIMEOUT r with
      | None => r
      | Some r => try_cmd (SET now name key) r
      end
    else r.

Definition now_of (nano : Z) : Z := (nano / 10 ^ 9)%Z.
(** The name of the hash of a map. *)
Definition RedisKey (prefix : string) (nano : Z) : string := prefix ++s "_" ++s HostName ++s "_" ++s itoa nano.

(** Source: modules/hbs/redi/hosts.go, SetHost2Redis. *)
Definition SetHost2Redis (m : gmap string Z) (nano : Z) : K -> K :=
  set2redis HostKey (RedisKey HostKey nano) false true (Z.eqb 500) (map (fun '(host, id) => (host, itoa id)) (walk _ m)) (now_of nano).
(** Source: modules/hbs/redi/hosts.go, SetMonitoredHost2Redis. *)
Definition SetMonitoredHost2Redis (m : gmap Z Host) (nano : Z) : K -> K :=
  set2redis MonitoredHostKey (RedisKey MonitoredHostKey nano) false true (Z.eqb 500) (map (fun '(id, host) => (itoa id, h_Name host)) (walkZ _ m)) (now_of nano).
(** Source: modules/hbs/redi/group.go, SetHostGroup2Redis. *)
Definition SetHostGroup2Redis (m : gmap Z (list Z)) (nano : Z) : K -> K :=
  set2redis GroupKeyPerfix (RedisKey GroupKeyPerfix nano) false true (Z.eqb 500)
    (map (fun '(gid, hids) => (itoa gid, join HBS_SEP (map itoa hids))) (walkZ _ m)) (now_of nano).
(** Source: modules/hbs/redi/template.go, SetGroupTemplate2Redis. The loop does not count. *)
Definition SetGroupTemplate2Redis (m : gmap Z (list Z)) (nano : Z) : K -> K :=
  set2redis TemplateKey (RedisKey TemplateKey nano) false false (Z.leb 500)
    (map (fun '(gid, tids) => (itoa gid, join HBS_SEP (map itoa tids))) (walkZ _ m)) (now_of nano).
(** Source: modules/hbs/redi/template.go, SetHostTemplate2Redis. The error of the loop is not seen after it. *)
Definition SetHostTemplate2Redis (m : gmap Z (list Z)) (nano : Z) : K -> K :=
  set2redis HostTemplateKey (RedisKey HostTemplateKey nano) true true (Z.eqb 1000)
    (map (fun '(tid, hids) => (itoa tid, join HBS_SEP (map itoa hids))) (walkZ _ m)) (now_of nano).
(** Source: modules/hbs/redi/service.go, SetHostService2Redis. The error of the loop is not seen after it. *)
Definition SetHostService2Redis (m : gmap string string) (nano : Z) : K -> K :=
  set2redis HostServiceKey (HostServiceKey ++s itoa nano) true true (Z.eqb 1000) (walk _ m) (now_of nano).
(** Source: modules/hbs/redi/plugin.go, SetPlugins2Redis. One command for the whole map. *)
Definition SetPlugins2Redis (m : gmap Z (list string)) (nano : Z) (r : K) : K :=
  let now := now_of nano in
  let key := PluginKey ++s itoa nano in
  let '(ok, r) := HMSET now key (map (fun '(grpid, dir) => (itoa grpid, join HBS_SEP dir)) (walkZ _ m)) r in
  if (ok : bool) then
    match EXPIRE now key TIMEOUT r with
    | None => r
    | Some r => try_cmd (SET now PluginKey key) r
    end
  else r.

(** * Reading it back *)

(** The answers to GET and HGETALL: [None] when GET fails or finds nothing,
    which the functions report as an error; a failing HGETALL is not. *)
Definition read_hash (name : string) (now : Z) (r : K) : option (gmap string string) :=
  MapKey ← GET now name r ≫= id; Some (default ∅ (HGETALL now MapKey r)).

(** Source: modules/hbs/redi/hosts.go, GetHostFromRedis. [None] is an error. *)
Definition GetHostFromRedis (now : Z) (r : K) : option (gmap string Z) :=
  res ← read_hash HostKey now r;
  Some (fold_left (fun m '(host, StringId) => match atoi StringId with None => m | Some id => <[host := id]> m end) (walk _ res) ∅).
(** Source: modules/hbs/redi/hosts.go, GetMonitoredHostFromRedis. *)
Definition GetMonitoredHostFromRedis (now : Z) (r : K) : option (gmap Z Host) :=
  res ← read_hash MonitoredHostKey now r;
  Some (fold_left (fun m '(idStr, Name) => match atoi idStr with None => m | Some id => <[id := mkHost id Name]> m end) (walk _ res) ∅).

(** Source: modules/hbs/redi/group.go, lines 70-86. The loop over the fields whose values are lists of numbers. Symbol: GetHostGroupFromRedis. *)
Definition read_lists (fields : list (string * string)) : gmap Z (list Z) :=
  fold_left (fun m '(StringGid, StringHids) =>
    match atoi StringGid with
    | None => m
    | Some gid =>
        fold_left (fun (m : gmap Z (list Z)) hid =>
          match atoi hid with
          | None => m
          | Some IntHid => <[gid := (default [] (m !! gid) ++ [IntHid])%list]> m
          end) (split StringHids HBS_SEP) m
    end) fields ∅.

(** Source: modules/hbs/redi/group.go, GetHostGroupFromRedis. *)
Definition GetHostGroupFromRedis (now : Z) (r : K) : option (gmap Z (list Z)) :=
  res ← read_hash GroupKeyPerfix now r; Some (read_lists (walk _ res)).
(** Source: modules/hbs/redi/template.go, GetGroupTemplateFromRedis. *)
Definition GetGroupTemplateFromRedis (now : Z) (r : K) : option (gmap Z (list Z)) :=
  res ← read_hash TemplateKey now r; Some (read_lists (walk _ res)).
(** Source: modules/hbs/redi/template.go, GetHostTemplateFromRedis. *)
Definition GetHostTemplateFromRedis (now : Z) (r : K) : option (gmap Z (list Z)) :=
  res ← read_hash HostTemplateKey now r; Some (read_lists (walk _ res)).
(** Source: modules/hbs/redi/plugin.go, GetPluginsFromRedis. *)
Definition GetPluginsFromRedis (now : Z) (r : K) : option (gmap Z (list string)) :=
  res ← read_hash PluginKey now r;
  Some (fold_left (fun m '(grpid, dir) => match atoi grpid with None => m | Some gid => <[gid := split dir HBS_SEP]> m end) (walk _ res) ∅).
(** Source: modules/hbs/redi/service.go, GetHostServiceFromRedis. *)
Definition GetHostServiceFromRedis (now : Z) (r : K) : option (gmap string string) :=
  res ← read_hash HostServiceKey now r;
  Some (fold_left (fun (m : gmap string string) '(hname, snames) =>
    match m !! hname with Some v => <[hname := v ++s "," ++s snames]> m | None => <[hname := snames]> m end) (walk _ res) ∅).

(** * The queries *)

(** Rows of two columns gathered under the first. *)
Definition gather_rows (rows : list (Z * Z)) : gmap Z (list Z) :=
  fold_left (fun (m : gmap Z (list Z)) '(k, v) => match m !! k with Some l => <[k := (l ++ [v])%list]> m | None => <[k := [v]]> m end) rows ∅.

(** Source: modules/hbs/db/host.go, queryHosts. The id and the name of each row that is read. *)
Definition queryHosts (rows : option (list (Z * string))) : option (gmap string Z) :=
  rows ← rows; Some (fold_left (fun m '(id, hostname) => <[hostname := id]> m) rows ∅).
(** Source: modules/hbs/db/group.go, queryHostGroups. The rows are a group and a host. *)
Definition queryHostGroups (rows : option (list (Z * Z))) : option (gmap Z (list Z)) :=
  rows ← rows; Some (gather_rows (map (fun '(gid, hid) => (hid, gid)) rows)).
(** Source: modules/hbs/db/template.go, queryGroupTemplates. The rows are a group and a template. *)
Definition queryGroupTemplates (rows : option (list (Z * Z))) : option (gmap Z (list Z)) :=
  rows ← rows; Some (gather_rows rows).
(** Source: modules/hbs/db/template.go, queryHostTemplateIds. The rows are a template and a host. *)
Definition queryHostTemplateIds (rows : option (list (Z * Z))) : option (gmap Z (list Z)) :=
  rows ← rows; Some (gather_rows (map (fun '(tid, hid) => (hid, tid)) rows)).

(** Source: modules/hbs/db/group.go, lines 55-70. The choice all the queries make between the database and redis. [now] and [now'] are the clock of the two commands of the lock, [nano] when the map is put into redis, [t] when it is read. Symbol: QueryHostGroups. *)
Definition query_or_copy {T} (lock : string) (db : option T) (set : T -> Z -> K -> K) (get : Z -> K -> option T) (now now' nano t : Z) (r : K) : option T * K :=
  let '(locked, r) := GetLock lock RedisDisTLockTimeOut now now' r in
  if (locked : bool) then
    match db with
    | None => (None, r)
    | Some dbm => (Some dbm, set dbm nano r)
    end
  else
    match get t r with
    | Some redism => (Some redism, r)
    | None => (db, r)
    end.

(** Source: modules/hbs/db/host.go, QueryHosts. *)
Definition QueryHosts (rows : option (list (Z * string))) : Z -> Z -> Z -> Z -> K -> option (gmap string Z) * K :=
  query_or_copy "HostMapLock" (queryHosts rows) SetHost2Redis GetHostFromRedis.
(** Source: modules/hbs/db/group.go, QueryHostGroups. *)
Definition QueryHostGroups (rows : option (list (Z * Z))) : Z -> Z -> Z -> Z -> K -> option (gmap Z (list Z)) * K :=
  query_or_copy "HostGroupsMapLock" (queryHostGroups rows) SetHostGroup2Redis GetHostGroupFromRedis.
(** Source: modules/hbs/db/template.go, QueryGroupTemplates. *)
Definition QueryGroupTemplates (rows : option (list (Z * Z))) : Z -> Z -> Z -> Z -> K -> option (gmap Z (list Z)) * K :=
  query_or_copy "GroupTemplatesLock" (queryGroupTemplates rows) SetGroupTemplate2Redis GetGroupTemplateFromRedis.
(** Source: modules/hbs/db/template.go, QueryHostTemplateIds. *)
Definition QueryHostTemplateIds (rows : option (list (Z * Z))) : Z -> Z -> Z -> Z -> K -> option (gmap Z (list Z)) * K :=
  query_or_copy "HostTemplateIdsLock" (queryHostTemplateIds rows) SetHostTemplate2Redis GetHostTemplateFromRedis.
End HbsRedis.
