(* ===== verification/HbsRedisThms.v ===== *)
(** The processes of hbs agree: what the holder of a lock reads from the
    database is what the others read from redis. *)
From S2P Require Export HbsRedis.
From S2P Require Import Prelude GoStr.
From Stdlib Require Import Ascii.
Local Open Scope string_scope.

Section Agree.
Context {K : Type} {redis : RedisKV K} {laws : RedisKVLaws K}.

(** [key] holds the hash [h], or nothing, and no text. *)
Definition holds (now : Z) (key : string) (r : K) (h : option (gmap string string)) : Prop :=
  forall t, (now <= t)%Z -> live r t key = None /\ hlive r t key = h.

(** A hash name nobody uses. *)
Definition fresh (now : Z) (key : string) (r : K) : Prop := holds now key r None.
Lemma fresh_same now now' k key (r r' : K) : same_but now' k r r' -> (now <= now')%Z -> key <> k -> fresh now key r -> fresh now' key r'.
Proof using Type. intros [_ H] Hn Hk Hf t Ht. destruct (H t key) as [-> ->]; [done..|]. apply Hf. lia. Qed.
Lemma same_but_trans now k (r1 r2 r3 : K) : same_but now k r1 r2 -> same_but now k r2 r3 -> same_but now k r1 r3.
Proof using Type. intros [? H1] [? H2]. split; [done|]. intros t k' Ht Hk. destruct (H2 t k') as [-> ->]; [done..|]. by apply H1. Qed.
Lemma same_but_refl now k (r : K) : up r -> same_but now k r r.
Proof using Type. by split. Qed.

Lemma HMSET_holds now key l (r : K) h : up r -> l <> [] -> holds now key r h ->
  exists r', HMSET now key l r = (true, r') /\ same_but now key r r' /\ holds now key r' (Some (insert_all l (default ∅ h))).
Proof using All.
  intros Hu Hl Hh. destruct (HMSET_sets now key l r Hu Hl) as (r' & E & Hb & H); [apply Hh; lia| |].
  { intros m Hm t Ht. destruct (Hh t Ht) as [_ ->]. rewrite <- Hm. symmetry. apply Hh. lia. }
  exists r'. split; [done|]. split; [done|]. intros t Ht. rewrite H by done. destruct (Hh now) as [_ ->]; [lia|]. split; [|done].
  destruct (live r' t key) eqn:El; [|done]. apply live_hlive in El; [by rewrite H in El by done|apply Hb].
Qed.

(** The loop sends every field once, in order. *)
Lemma put_fields_run now key full fields pending (r : K) h : up r -> holds now key r h ->
  exists pending' r' h', put_fields now key true full fields pending (Z.of_nat (length pending)) r = (true, pending', Z.of_nat (length pending'), r') /\
    same_but now key r r' /\ holds now key r' h' /\ insert_all pending' (default ∅ h') = insert_all (pending ++ fields) (default ∅ h).
Proof using All.
  revert pending r h; induction fields as [|f fields IH]; intros pending r h Hu Hh; cbn [put_fields].
  - exists pending, r, h. rewrite app_nil_r. by repeat split; try apply Hh.
  - replace (pending ++ f :: fields)%list with ((pending ++ [f]) ++ fields)%list by (by rewrite <- app_assoc). assert (Z.of_nat (length pending) + 1 = Z.of_nat (length (pending ++ [f])))%Z as -> by (rewrite length_app; cbn; lia).
    destruct (full _); [|by apply IH].
    destruct (HMSET_holds now key (pending ++ [f]) r h Hu) as (r1 & -> & Hb1 & Hh1); [by intros [_ [=]]%app_nil|done|].
    destruct (IH [] r1 _ (proj1 Hb1) Hh1) as (p' & r' & h' & E & Hb & Hh' & Hi).
    exists p', r', h'. split; [exact E|]. split; [by eapply same_but_trans|]. split; [done|].
    rewrite Hi. cbn [app]. by rewrite (insert_all_app (pending ++ [f])).
Qed.

(** What redis is after each command of the loop, and of what comes after it
    up to the time to live; the name is set next. *)
Fixpoint put_states (now : Z) (key : string) (full : Z -> bool) (fields pending : list (string * string)) (i : Z) (r : K) : list K :=
  match fields with
  | [] => []
  | f :: fields =>
      let i := (i + 1)%Z in
      let pending := (pending ++ [f])%list in
      if full i then
        let '(ok, r) := HMSET now key pending r in
        r :: (if (ok : bool) then put_states now key full fields [] 0 r else [])
      else put_states now key full fields pending i r
  end.
Definition writing (key : string) (full : Z -> bool) (fields : list (string * string)) (now : Z) (r : K) : list K :=
  let '(_, pending, i, r1) := put_fields now key true full fields [] 0 r in
  let '(_, r2) := if (0 <? i)%Z then HMSET now key pending r1 else (true, r1) in
  (put_states now key full fields [] 0 r ++ [r2] ++ match EXPIRE now key TIMEOUT r2 with None => [] | Some r3 => [r3] end)%list.

Lemma put_states_same now key full fields pending (r : K) h : up r -> holds now key r h ->
  Forall (same_but now key r) (put_states now key full fields pending (Z.of_nat (length pending)) r).
Proof using All.
  revert pending r h; induction fields as [|f fields IH]; intros pending r h Hu Hh; cbn [put_states]; [constructor|].
  assert (Z.of_nat (length pending) + 1 = Z.of_nat (length (pending ++ [f])))%Z as -> by (rewrite length_app; cbn; lia).
  destruct (full _); [|by eapply IH].
  destruct (HMSET_holds now key (pending ++ [f]) r h Hu) as (r1 & -> & Hb1 & Hh1); [by intros [_ [=]]%app_nil|done|].
  constructor; [done|]. eapply Forall_impl; [apply (IH [] r1 _ (proj1 Hb1) Hh1)|]. intros r2 Hb2. by eapply same_but_trans.
Qed.

(** The fields are all under the hash before its name is set, and nothing else is changed till then. *)
Lemma writing_run name key shadowed full fields now (r : K) : up r -> fresh now key r -> exists r3,
  Forall (same_but now key r) (writing key full fields now r) /\
  set2redis name key shadowed true full fields now r = try_cmd (SET now name key) r3 /\ same_but now key r r3 /\
  forall t, (now <= t < now + TIMEOUT)%Z -> live r3 t key = None /\ default ∅ (hlive r3 t key) = insert_all fields ∅.
Proof using All.
  intros Hu Hf. unfold set2redis, writing. pose proof (put_states_same now key full fields [] r None Hu Hf) as Hput.
  destruct (put_fields_run now key full fields [] r None Hu Hf) as (pending & r1 & h & E & B1 & Hh1 & Hi). pose proof (proj1 B1) as Hu1.
  change (Z.of_nat (length [])) with 0%Z in *. rewrite E. cbn [negb andb]. change (default ∅ None) with (∅ : gmap string string) in Hi. cbn [app] in Hi.
  assert (exists r2 h2, (if (0 <? Z.of_nat (length pending))%Z then HMSET now key pending r1 else (true, r1)) = (true, r2) /\ same_but now key r1 r2 /\
    holds now key r2 h2 /\ default ∅ h2 = insert_all fields ∅) as (r2 & h2 & -> & B2 & Hh2 & Hd).
  { destruct pending as [|f pending]; [exists r1, h; by repeat split; try apply Hh1|]. rewrite (proj2 (Z.ltb_lt _ _)) by (cbn [length]; lia).
    destruct (HMSET_holds now key (f :: pending) r1 h Hu1) as (r2 & -> & Hb2 & Hh2); [done|done|]. exists r2. eexists. by split; [|split; [|split; [exact Hh2|]]]. }
  pose proof (proj1 B2) as Hu2.
  assert (exists r3, EXPIRE now key TIMEOUT r2 = Some r3 /\ same_but now key r2 r3 /\
    forall t, (now <= t < now + TIMEOUT)%Z -> live r3 t key = None /\ default ∅ (hlive r3 t key) = insert_all fields ∅) as (r3 & -> & B3 & H3).
  { destruct h2 as [m|].
    - destruct (EXPIRE_hlive now key TIMEOUT m r2 Hu2 eq_refl) as (r3 & E3 & Hb3 & H3); [apply Hh2; lia|]. exists r3. split; [done|]. split; [done|].
      intros t Ht. assert (hlive r3 t key = Some m) as Hm by (rewrite H3 by lia; by rewrite (proj2 (Z.ltb_lt _ _)) by lia).
      rewrite Hm. split; [|done]. destruct (live r3 t key) eqn:El; [|done]. apply live_hlive in El; [congruence|apply Hb3].
    - rewrite EXPIRE_missing by (done || apply Hh2; lia). exists r2. split; [done|]. split; [by split|]. intros t Ht.
      by destruct (Hh2 t) as [-> ->]; [lia|]. }
  exists r3. pose proof (same_but_trans _ _ _ _ _ B1 B2) as B12. pose proof (same_but_trans _ _ _ _ _ B12 B3) as B13.
  split; [|by split]. apply Forall_app. split; [done|]. apply Forall_cons_2; [done|]. apply Forall_cons_2; [done|apply Forall_nil_2].
Qed.

(** A map put into redis is found under its name until it dies. *)
Lemma set2redis_run name key shadowed full fields now (r : K) : up r -> fresh now key r -> key <> name ->
  let r' := set2redis name key shadowed true full fields now r in
  up r' /\ (forall t k, (now <= t)%Z -> k <> key -> k <> name -> live r' t k = live r t k /\ hlive r' t k = hlive r t k) /\
  forall t, (now <= t < now + TIMEOUT)%Z -> read_hash name t r' = Some (insert_all fields ∅).
Proof using All.
  intros Hu Hf Hk. cbv zeta. destruct (writing_run name key shadowed full fields now r Hu Hf) as (r3 & _ & -> & [Hu3 B3] & H3).
  destruct (SET_live now name key r3 Hu3) as (r4 & E4 & [Hu4 B4] & H4). unfold try_cmd. rewrite E4. change (default r3 (Some r4)) with r4. split; [done|]. split.
  - intros t k Ht Hk1 Hk'. destruct (B4 t k) as [-> ->]; [done..|]. by apply B3.
  - intros t Ht. unfold read_hash. rewrite GET_live; [|done|eapply live_hlive; [done|apply H4; lia]]. rewrite H4 by lia. cbn [mbind option_bind id].
    destruct (H3 t Ht) as [Hl3 Hh3]. destruct (B4 t key) as [El Eh]; [lia|done|]. rewrite HGETALL_live by congruence. by rewrite Eh, Hh3.
Qed.

(** ** While the map is written *)

(** What is published under [name] is nothing, or a hash that is neither the new one nor the lock. *)
Definition publishes (now : Z) (name key lock : string) (r : K) : Prop :=
  forall t, (now <= t)%Z -> hlive r t name = None /\ forall k, live r t name = Some k -> k <> key /\ k <> lock /\ live r t k = None.
(** Redis as it was, but for the new hash and the lock. *)
Definition same_but_two (now : Z) (k1 k2 : string) (r r' : K) : Prop :=
  up r' /\ forall t k, (now <= t)%Z -> k <> k1 -> k <> k2 -> live r' t k = live r t k /\ hlive r' t k = hlive r t k.
Lemma read_hash_same now name key lock t (r r' : K) : up r -> same_but_two now key lock r r' -> publishes now name key lock r ->
  name <> key -> name <> lock -> (now <= t)%Z -> read_hash name t r' = read_hash name t r.
Proof using laws.
  intros Hu [Hu' B] Hp Hk Hl Ht. destruct (Hp t Ht) as [Hh Hn]. destruct (B t name Ht Hk Hl) as [El Eh].
  unfold read_hash. rewrite !GET_live by congruence. rewrite El. destruct (live r t name) as [k|] eqn:E; [|done]. cbn [mbind option_bind id].
  destruct (Hn k eq_refl) as (Hk1 & Hk2 & Hno). destruct (B t k Ht Hk1 Hk2) as [El' Eh']. rewrite !HGETALL_live by congruence. by rewrite Eh'.
Qed.

(** ** The queries *)

(** The process that asks first, at [n1], gets the lock, says at [n1'] how long,
    and puts its map into redis at [nano]; another asks at [n2] and reads at [t]. *)
Definition first_asks (n1 n1' nano : Z) : Prop :=
  (0 <= n1 <= n1' /\ n1' <= now_of nano /\ n1' <= n1 + RedisDisTLockTimeOut /\ n1' < 2 ^ 61)%Z.
Definition then_asks (n1' nano n2 n2' t : Z) : Prop :=
  (now_of nano <= n2 <= n2' /\ n2' <= n2 + RedisDisTLockTimeOut /\ n2 < n1' + RedisDisTLockTimeOut /\ now_of nano <= t < now_of nano + TIMEOUT)%Z.

(** The process that asks first gets [m] from its rows; another that asks when
    the map is written and the lock still held gets [got], whatever the database
    would tell it. *)
Definition answers {T D} (query : D -> Z -> Z -> Z -> Z -> K -> option T * K) (db : D) (m got : T) (n1 n1' nano : Z) (r : K) : Prop :=
  forall t1, exists r', query db n1 n1' nano t1 r = (Some m, r') /\
    forall db2 n2 n2' nano2 t, then_asks n1' nano n2 n2' t -> query db2 n2 n2' nano2 t r' = (Some got, r').

(** What redis is, and since when, between the first command of the process
    that asks first and the one that sets the name of its map. *)
Definition window (lock : string) (writes : K -> list K) (n1 n1' nano : Z) (r : K) : list (Z * K) :=
  let r1 := snd (lock_command lock RedisDisTLockTimeOut n1 Asks r) in
  let r2 := snd (lock_command lock RedisDisTLockTimeOut n1' Sets r1) in
  (n1, r1) :: (n1', r2) :: map (pair (now_of nano)) (writes r2).
(** Another process that asks in the meantime and within the time of the lock
    gets the map that was published before, as a whole; where there is none, it
    reads the database itself. *)
Definition meanwhile {T D} (query : D -> Z -> Z -> Z -> Z -> K -> option T * K) (conv : D -> option T) (get : Z -> K -> option T) (lock : string)
    (writes : K -> list K) (n1 n1' nano : Z) (r : K) : Prop :=
  forall since rw, (since, rw) ∈ window lock writes n1 n1' nano r ->
  forall db2 n2 n2' nano2 t, (since <= n2 <= n2' /\ n2' < n1 + RedisDisTLockTimeOut /\ since <= t)%Z ->
    query db2 n2 n2' nano2 t rw = (match get t r with Some old => Some old | None => conv db2 end, rw).

Lemma holds_free now lock (r : K) : up r -> (0 <= now)%Z -> holds now lock r None -> lock_rel lock RedisDisTLockTimeOut now r Free.
Proof using Type. intros Hu H0 H. split; [done|]. split; [done|]. split; intros t Ht; by apply H. Qed.
(** The lock does not depend on the other keys. *)
Lemma lock_rel_same lock now (r r' : K) l key name : lock_rel lock RedisDisTLockTimeOut now r l -> same_but_two now key name r r' -> lock <> key -> lock <> name ->
  lock_rel lock RedisDisTLockTimeOut now r' l.
Proof using Type.
  intros (Hu & H0 & Hh & Hl) [Hu' B] Hk Hn. assert (forall t, (now <= t)%Z -> live r' t lock = live r t lock) as El by (intros; by apply B).
  split; [done|]. split; [done|]. split; [intros t Ht; destruct (B t lock Ht Hk Hn) as [_ ->]; by apply Hh|].
  destruct l as [|p since|T]; [|destruct Hl as [? Hl]; split; [done|]|destruct Hl as (v & ? & Hl); exists v; split; [done|]]; intros t Ht; rewrite El by done; by apply Hl.
Qed.
Lemma same_two_weaken now now' k1 k2 (r r' : K) : (now <= now')%Z -> same_but_two now k1 k2 r r' -> same_but_two now' k1 k2 r r'.
Proof using Type. intros Hn [Hu B]. split; [done|]. intros t k Ht. apply B. lia. Qed.
Lemma same_two_left now k1 k2 (r r' : K) : same_but now k1 r r' -> same_but_two now k1 k2 r r'.
Proof using Type. intros [Hu B]. split; [done|]. intros t k Ht Hk _. by apply B. Qed.
Lemma same_two_right now k1 k2 (r r' : K) : same_but now k2 r r' -> same_but_two now k1 k2 r r'.
Proof using Type. intros [Hu B]. split; [done|]. intros t k Ht _ Hk. by apply B. Qed.
Lemma same_two_trans now k1 k2 (r1 r2 r3 : K) : same_but_two now k1 k2 r1 r2 -> same_but_two now k1 k2 r2 r3 -> same_but_two now k1 k2 r1 r3.
Proof using Type. intros [? H1] [? H2]. split; [done|]. intros t k Ht Hk Hk'. destruct (H2 t k Ht Hk Hk') as [-> ->]. by apply H1. Qed.

(** The two commands of the lock, one after the other. *)
Lemma lock_taken lock n1 n1' nano (r : K) : first_asks n1 n1' nano -> up r -> holds n1 lock r None -> exists r1 r2,
  lock_command lock RedisDisTLockTimeOut n1 Asks r = (Sets, r1) /\ lock_rel lock RedisDisTLockTimeOut n1 r1 (Taken 0 n1) /\ same_but n1 lock r r1 /\
  lock_command lock RedisDisTLockTimeOut n1' Sets r1 = (Ends true, r2) /\ lock_rel lock RedisDisTLockTimeOut n1' r2 (Held (n1' + RedisDisTLockTimeOut)) /\ same_but n1' lock r1 r2 /\
  GetLock lock RedisDisTLockTimeOut n1 n1' r = (true, r2).
Proof using laws.
  intros (H1 & H2 & H3 & H4) Hu Hl. unfold RedisDisTLockTimeOut in *.
  destruct (asks_free lock 55 ltac:(lia) 0 n1 r) as (r1 & E1 & Hr1 & B1); [apply holds_free; [done|lia|done]|lia|].
  destruct (sets_held lock 55 ltac:(lia) 0 n1' n1 r1) as (r2 & E2 & Hr2 & B2); [eapply lock_rel_later; [|exact Hr1]; lia|lia|lia|].
  exists r1, r2. do 6 (split; [done|]). unfold GetLock, GetDisLock. rewrite E1. rewrite E2. done.
Qed.

Lemma Query_agree {T D} (conv : D -> option T) db lock name key (dbm got : T) set get n1 n1' nano (r : K) :
  conv db = Some dbm -> first_asks n1 n1' nano -> up r -> holds n1 lock r None -> fresh n1 key r -> key <> lock -> name <> lock ->
  (forall r, up r -> fresh (now_of nano) key r ->
     let r' := set dbm nano r in
     up r' /\ (forall t k, (now_of nano <= t)%Z -> k <> key -> k <> name -> live r' t k = live r t k /\ hlive r' t k = hlive r t k) /\
     forall t, (now_of nano <= t < now_of nano + TIMEOUT)%Z -> get t r' = Some got) ->
  answers (fun db => query_or_copy lock (conv db) set get) db dbm got n1 n1' nano r.
Proof using All.
  intros Hdb Ha Hu Hl Hf Hk Hn Hset t1. rewrite Hdb. destruct (lock_taken lock n1 n1' nano r Ha Hu Hl) as (r1 & r2 & _ & _ & B1 & _ & Hr2 & B2 & E).
  pose proof Ha as (H1 & H2 & H3 & H4).
  destruct (Hset r2) as (Hu3 & B3 & Hget); [apply B2|intros t Ht; eapply (fresh_same n1 n1'); [apply B2|lia|done| |lia]; eapply (fresh_same n1 n1); [exact B1|lia|done|exact Hf]|].
  set (r3 := set dbm nano r2) in *. exists r3. split; [unfold query_or_copy; by rewrite E|].
  intros db2 n2 n2' nano2 t (A1 & A2 & A3 & A4).
  assert (lock_rel lock RedisDisTLockTimeOut n2 r3 (Held (n1' + RedisDisTLockTimeOut))) as Hr3.
  { eapply (lock_rel_same lock n2 r2 r3 _ key name); [eapply lock_rel_later; [|exact Hr2]; lia| |done..]. split; [done|]. intros u k Hu' ??. apply B3; [lia|done..]. }
  unfold query_or_copy, GetLock. unfold RedisDisTLockTimeOut in *. rewrite (refused lock 55 ltac:(lia) n2 n2' r3 _ Hr3); [by rewrite Hget| |done|lia|lia].
  destruct Hr3 as (_ & _ & _ & v & _ & Hlv). exists (itoa v). rewrite Hlv by lia. by rewrite (proj2 (Z.ltb_lt _ _)) by lia.
Qed.

Lemma Query_meanwhile {T D} (conv : D -> option T) lock name key set get writes n1 n1' nano (r : K) :
  first_asks n1 n1' nano -> up r -> holds n1 lock r None -> fresh n1 key r -> publishes n1 name key lock r -> key <> lock -> name <> lock -> name <> key ->
  (forall t r r', read_hash name t r' = read_hash name t r -> get t r' = get t r) ->
  (forall r, up r -> fresh (now_of nano) key r -> Forall (same_but (now_of nano) key r) (writes r)) ->
  meanwhile (fun db => query_or_copy lock (conv db) set get) conv get lock writes n1 n1' nano r.
Proof using All.
  intros Ha Hu Hl Hf Hp Hk Hn Hnk Hget Hw since rw Hin db2 n2 n2' nano2 t (A1 & A2 & A3). pose proof Ha as (H1 & H2 & H3 & H4).
  destruct (lock_taken lock n1 n1' nano r Ha Hu Hl) as (r1 & r2 & E1 & Hr1 & B1 & E2 & Hr2 & B2 & _).
  assert (same_but_two n1 key lock r r1) as S1 by by apply same_two_right. 
  assert (same_but_two n1' key lock r r2) as S2.
  { eapply same_two_trans; [eapply same_two_weaken; [|exact S1]; lia|by apply same_two_right]. }
  assert (exists l, lock_rel lock RedisDisTLockTimeOut n2 rw l /\ same_but_two since key lock r rw /\ (n1 <= since)%Z /\
    (l = Taken 0 n1 \/ l = Held (n1' + RedisDisTLockTimeOut))) as (l & Hr & S & Hs & Hcase).
  { unfold window in Hin. rewrite E1 in Hin. cbn [snd] in Hin. rewrite E2 in Hin. cbn [snd] in Hin. rewrite !elem_of_cons in Hin.
    destruct Hin as [[= -> ->]|[[= -> ->]|Hin]].
    - exists (Taken 0 n1). split; [eapply lock_rel_later; [|exact Hr1]; lia|]. split; [done|]. split; [lia|by left].
    - exists (Held (n1' + RedisDisTLockTimeOut)). split; [eapply lock_rel_later; [|exact Hr2]; lia|]. split; [done|]. split; [lia|by right].
    - apply list_elem_of_In, in_map_iff in Hin as (r3 & [= <- <-] & Hin). apply list_elem_of_In in Hin.
      assert (fresh (now_of nano) key r2) as Hf2.
      { intros u Hu2. eapply (fresh_same n1 n1' lock key r1 r2); [exact B2|lia|done| |lia]. by eapply (fresh_same n1 n1 lock key r r1). }
      specialize (Hw r2 (proj1 B2) Hf2). rewrite Forall_forall in Hw. specialize (Hw r3 Hin).
      exists (Held (n1' + RedisDisTLockTimeOut)). split.
      + eapply (lock_rel_same lock n2 r2 r3 _ key key); [eapply lock_rel_later; [|exact Hr2]; lia| |done..].
        eapply same_two_weaken; [|apply same_two_left; exact Hw]. lia.
      + split; [|split; [lia|by right]]. eapply same_two_trans; [eapply same_two_weaken; [|exact S2]; lia|by apply same_two_left]. }
  assert (GetDisLock lock RedisDisTLockTimeOut n2 n2' rw = (false, rw)) as E.
  { unfold RedisDisTLockTimeOut in *. apply (refused lock 55 ltac:(lia) n2 n2' rw l Hr); [|intros p u ->; destruct Hcase as [[= -> ->]|[=]]; lia|lia|lia].
    destruct Hr as (_ & _ & _ & Hlv). destruct Hcase as [-> | ->]; [eexists; apply Hlv; lia|]. destruct Hlv as (v & _ & Hlv). exists (itoa v). rewrite Hlv by lia.
    by rewrite (proj2 (Z.ltb_lt _ _)) by lia. }
  unfold query_or_copy, GetLock. rewrite E. rewrite (Hget t r rw); [by destruct (get t r)|].
  eapply (read_hash_same since name key lock); [done|done| |done|done|lia]. intros u Hu2. apply Hp. lia.
Qed.

(** ** Writing and reading *)

Context (HostName : string)
  (walk : forall T, gmap string T -> list (string * T)) (walkZ : forall T, gmap Z T -> list (Z * T)).
Hypothesis walk_all : forall T (m : gmap string T), walk T m ≡ₚ map_to_list m.
Hypothesis walkZ_all : forall T (m : gmap Z T), walkZ T m ≡ₚ map_to_list m.

(** What is read back is what was written, in some order. *)
Lemma walk_written {A} (enc : A -> string * string) (l : list A) : NoDup (map enc l).*1 ->
  exists l', walk _ (insert_all (map enc l) ∅) = map enc l' /\ l ≡ₚ l'.
Proof using walk_all.
  intros Hnd. assert (insert_all (map enc l) ∅ = list_to_map (map enc l)) as ->.
  { apply map_eq. intros k. rewrite insert_all_lookup by done. rewrite lookup_empty. by destruct (list_to_map _ !! k). }
  pose proof (walk_all _ (list_to_map (map enc l))) as Hp. rewrite map_to_list_to_map in Hp by done.
  by apply Permutation_map_inv in Hp.
Qed.

(** Pairs with distinct keys, inserted one after the other. *)
Lemma fold_insert_all `{Countable Key} {T} (gs : list (Key * T)) (m : gmap Key T) : gs ≡ₚ map_to_list m -> fold_left (fun m kv => <[kv.1 := kv.2]> m) gs ∅ = m.
Proof using Type.
  intros Hp. assert (NoDup gs.*1) by (rewrite Hp; apply NoDup_fst_map_to_list). rewrite fold_insert_union; [|done|intros; apply lookup_empty].
  rewrite (right_id_L ∅ (∪)). rewrite <- (list_to_map_to_list m). by apply list_to_map_proper.
Qed.

Lemma RedisKey_ne prefix nano : RedisKey HostName prefix nano <> prefix.
Proof using Type. unfold RedisKey. intros E. apply (f_equal String.length) in E. rewrite sapp_length in E. cbn in E. lia. Qed.

(** The hosts. *)
Lemma hosts_read_back (m : gmap string Z) t (r : K) : map_Forall (fun _ id => in_i64 id) m ->
  read_hash HostKey t r = Some (insert_all (map (fun '(host, id) => (host, itoa id)) (walk _ m)) ∅) -> GetHostFromRedis walk t r = Some m.
Proof using All.
  intros Hm E. unfold GetHostFromRedis. rewrite E. cbn [mbind option_bind]. f_equal.
  destruct (walk_written (fun '(host, id) => (host, itoa id)) (walk _ m)) as (l' & -> & Hp).
  { replace (map _ (walk _ m)).*1 with (walk _ m).*1; [rewrite walk_all; apply NoDup_fst_map_to_list|].
    clear E. induction (walk _ m) as [|[k v] l IH]; [done|]. cbn. by f_equal. }
  rewrite walk_all in Hp. rewrite fold_left_map, <- (fold_insert_all l' m) by done. apply fold_left_ext_in. intros m' [k v] Hin.
  rewrite atoi_itoa; [done|]. rewrite <- Hp in Hin. apply elem_of_map_to_list in Hin. by eapply Hm.
Qed.

(** One list of numbers, appended under its key. *)
Lemma append_numbers (l : list Z) gid (m : gmap Z (list Z)) : Forall in_i64 l -> m !! gid = None \/ l = [] ->
  forall pre, fold_left (fun (m : gmap Z (list Z)) hid =>
     match atoi hid with
     | None => m
     | Some IntHid => <[gid := (default [] (m !! gid) ++ [IntHid])%list]> m
     end) (map itoa l) (match pre with [] => m | _ => <[gid := pre]> m end) = match (pre ++ l)%list with [] => m | _ => <[gid := (pre ++ l)%list]> m end.
Proof using Type.
  intros Hl Hm. induction Hl as [|x l Hx Hl IH]; intros pre; cbn [map fold_left]; [by rewrite app_nil_r|].
  destruct Hm as [Hm|]; [|done]. rewrite atoi_itoa by done.
  assert (default [] ((match pre with [] => m | _ => <[gid := pre]> m end) !! gid) = pre) as -> by (destruct pre; [by rewrite Hm|by rewrite lookup_insert_eq]).
  specialize (IH (or_introl Hm) (pre ++ [x])%list). rewrite <- app_assoc in IH. cbn [app] in IH. rewrite <- IH. f_equal.
  destruct pre; cbn [app]; [done|]. by rewrite insert_insert_eq.
Qed.

(** A map of lists of numbers. *)
Lemma lists_read_back (m : gmap Z (list Z)) : map_Forall (fun k l => in_i64 k /\ l <> [] /\ Forall in_i64 l) m ->
  read_lists (walk _ (insert_all (map (fun '(gid, hids) => (itoa gid, join HBS_SEP (map itoa hids))) (walkZ _ m)) ∅)) = m.
Proof using All.
  intros Hm. assert (forall k l, (k, l) ∈ walkZ _ m -> in_i64 k /\ l <> [] /\ Forall in_i64 l) as Hw.
  { intros k l Hin. rewrite walkZ_all in Hin. apply elem_of_map_to_list in Hin. by eapply Hm. }
  destruct (walk_written (fun '(gid, hids) => (itoa gid, join HBS_SEP (map itoa hids))) (walkZ _ m)) as (l' & -> & Hp).
  { assert (NoDup (walkZ _ m).*1) as Hnd by (rewrite walkZ_all; apply NoDup_fst_map_to_list). clear Hm.
    induction (walkZ _ m) as [|[k v] l IH]; [apply NoDup_nil_2|]. cbn in *. apply NoDup_cons in Hnd as [Hk Hnd].
    apply NoDup_cons. split; [|apply IH; [intros; apply Hw; by right|done]]. intros Hin. apply Hk.
    apply list_elem_of_fmap in Hin as ([k' v'] & Ek & Hin). apply list_elem_of_In, in_map_iff in Hin as ([k2 v2] & E2 & Hin). apply list_elem_of_In in Hin.
    injection E2 as <- <-. cbn in Ek. apply itoa_inj in Ek as ->; [by apply (list_elem_of_fmap_2 fst) in Hin|apply (Hw k v); by left|apply (Hw k2 v2); by right]. }
  assert (forall k l, (k, l) ∈ l' -> in_i64 k /\ l <> [] /\ Forall in_i64 l) as Hw' by (intros k l Hin; apply Hw; by rewrite Hp).
  rewrite walkZ_all in Hp. unfold read_lists. rewrite fold_left_map.
  assert (NoDup l'.*1) as Hnd by (rewrite <- Hp; apply NoDup_fst_map_to_list). transitivity (fold_left (fun m kv => <[kv.1 := kv.2]> m) l' (∅ : gmap Z (list Z))); [|by apply fold_insert_all].
  assert (forall k, k ∈ l'.*1 -> (∅ : gmap Z (list Z)) !! k = None) as Hacc by (intros; apply lookup_empty). clear Hp Hw Hm.
  generalize dependent (∅ : gmap Z (list Z)). induction l' as [|[k v] l' IH]; intros acc Hacc; [done|]. cbn [fold_left fst snd].
  cbn in Hnd. apply NoDup_cons in Hnd as [Hk Hnd]. destruct (Hw' k v) as (Hki & Hne & Hv); [by left|]. rewrite atoi_itoa by done.
  assert (split (join HBS_SEP (map itoa v)) HBS_SEP = map itoa v) as ->.
  { change HBS_SEP with (String "|" "||"). apply split_join_long; [by destruct v|]. apply Forall_forall. intros x Hx.
    apply list_elem_of_In, in_map_iff in Hx as (z & <- & _). by apply itoa_has. }
  pose proof (append_numbers v k acc Hv) as Ha. specialize (Ha (or_introl (Hacc k ltac:(by left))) []). cbn [app] in Ha. rewrite Ha. clear Ha.
  assert ((match v with [] => acc | _ => <[k := v]> acc end) = <[k := v]> acc) as -> by by destruct v.
  apply IH; [intros; apply Hw'; by right|done|]. intros k' Hk'. cbn [fst snd]. rewrite lookup_insert_ne by (by intros ->). apply Hacc. by right.
Qed.

(** The maps made of rows. *)
Lemma queryHosts_range rows m : queryHosts rows = Some m -> (forall l, rows = Some l -> Forall (fun r => in_i64 r.1) l) -> map_Forall (fun _ id => in_i64 id) m.
Proof using Type.
  unfold queryHosts. destruct rows as [l|]; [|done]. cbn [mbind option_bind]. intros [= <-] Hl. specialize (Hl l eq_refl).
  induction l as [|[id h] l IH] using rev_ind; [apply map_Forall_empty|]. apply Forall_app in Hl as [Hl Hi]. apply Forall_cons in Hi as [Hi _].
  rewrite fold_left_app. cbn. apply map_Forall_insert_2; [exact Hi|by apply IH].
Qed.
Lemma gather_rows_range l : Forall (fun r => in_i64 r.1 /\ in_i64 r.2) l -> map_Forall (fun k l => in_i64 k /\ l <> [] /\ Forall in_i64 l) (gather_rows l).
Proof using Type.
  intros Hl. unfold gather_rows. induction l as [|[k v] l IH] using rev_ind; [apply map_Forall_empty|].
  apply Forall_app in Hl as [Hl Hi]. apply Forall_cons in Hi as [[Hk Hv] _]. specialize (IH Hl). rewrite fold_left_app. cbn [fold_left] in *.
  destruct (_ !! k) as [old|] eqn:E; apply map_Forall_insert_2; try done.
  - destruct (IH k old E) as (? & ? & ?). split; [done|]. split; [by intros [_ [=]]%app_nil|]. apply Forall_app. split; [done|]. by apply Forall_singleton.
  - split; [done|]. split; [done|]. by apply Forall_singleton.
Qed.



(** The commands by which the three maps are put into redis, but for the last. *)
Definition writes_hosts (m : gmap string Z) (nano : Z) : K -> list K :=
  writing (RedisKey HostName HostKey nano) (Z.eqb 500) (map (fun '(host, id) => (host, itoa id)) (walk _ m)) (now_of nano).
Definition writes_lists (prefix : string) (full : Z -> bool) (m : gmap Z (list Z)) (nano : Z) : K -> list K :=
  writing (RedisKey HostName prefix nano) full (map (fun '(gid, hids) => (itoa gid, join HBS_SEP (map itoa hids))) (walkZ _ m)) (now_of nano).

(** C25: While redis answers, the hbs processes work on the same maps: the hosts,
    the groups of the hosts and the templates of the hosts.  Let one process
    ask when nobody has the lock: it gets the lock and reads the map from the
    database.  From the moment it has sent the last of its commands, every
    process that asks while the lock is held reads exactly this map from redis,
    however many commands it was sent in.  A process that asks earlier, between
    any two of its commands, reads the map that was published before as if
    nothing had been sent yet, never a part of the new one; where none was
    published it reads the database itself.  Names of hashes hold the host and
    the nanosecond and are new; what was published is not the new hash nor the
    lock; ids are 64-bit numbers, and there is one clock. *)
Theorem hbs_processes_agree (hosts : list (Z * string)) (groups tpls : list (Z * Z)) (n1 n1' nano : Z) (r : K) :
  first_asks n1 n1' nano -> up r ->
  Forall (fun row => in_i64 row.1) hosts -> Forall (fun row => in_i64 row.1 /\ in_i64 row.2) (groups ++ tpls) ->
  (holds n1 "HostMapLock" r None -> fresh n1 (RedisKey HostName HostKey nano) r -> publishes n1 HostKey (RedisKey HostName HostKey nano) "HostMapLock" r ->
     exists m, queryHosts (Some hosts) = Some m /\ answers (QueryHosts HostName walk) (Some hosts) m m n1 n1' nano r /\
       meanwhile (QueryHosts HostName walk) queryHosts (GetHostFromRedis walk) "HostMapLock" (writes_hosts m nano) n1 n1' nano r) /\
  (holds n1 "HostGroupsMapLock" r None -> fresh n1 (RedisKey HostName GroupKeyPerfix nano) r ->
     publishes n1 GroupKeyPerfix (RedisKey HostName GroupKeyPerfix nano) "HostGroupsMapLock" r ->
     exists m, queryHostGroups (Some groups) = Some m /\ answers (QueryHostGroups HostName walk walkZ) (Some groups) m m n1 n1' nano r /\
       meanwhile (QueryHostGroups HostName walk walkZ) queryHostGroups (GetHostGroupFromRedis walk) "HostGroupsMapLock"
         (writes_lists GroupKeyPerfix (Z.eqb 500) m nano) n1 n1' nano r) /\
  (holds n1 "HostTemplateIdsLock" r None -> fresh n1 (RedisKey HostName HostTemplateKey nano) r ->
     publishes n1 HostTemplateKey (RedisKey HostName HostTemplateKey nano) "HostTemplateIdsLock" r ->
     exists m, queryHostTemplateIds (Some tpls) = Some m /\ answers (QueryHostTemplateIds HostName walk walkZ) (Some tpls) m m n1 n1' nano r /\
       meanwhile (QueryHostTemplateIds HostName walk walkZ) queryHostTemplateIds (GetHostTemplateFromRedis walk) "HostTemplateIdsLock"
         (writes_lists HostTemplateKey (Z.eqb 1000) m nano) n1 n1' nano r).
Proof using All.
  intros H1 Hu Hh [Hg Ht]%Forall_app.
  assert (forall l : list (Z * Z), Forall (fun row => in_i64 row.1 /\ in_i64 row.2) l -> Forall (fun row => in_i64 row.1 /\ in_i64 row.2) (map (fun '(a, b) => (b, a)) l)) as Hswap.
  { intros l Hl. induction Hl as [|[a b] l [? ?] Hl IH]; [constructor|]. by constructor. }
  split; [|split]; intros Hl Hf Hp; (eexists; split; [reflexivity|]; split).
  - apply (Query_agree queryHosts _ "HostMapLock" HostKey (RedisKey HostName HostKey nano)); try done. intros r1 Hu1 Hf1.
    destruct (set2redis_run HostKey (RedisKey HostName HostKey nano) false (Z.eqb 500) (map (fun '(host, id) => (host, itoa id)) (walk _ (fold_left (fun m '(id, hostname) => <[hostname := id]> m) hosts ∅)))
      (now_of nano) r1 Hu1 Hf1 (RedisKey_ne _ _)) as (? & ? & Hr). split; [done|]. split; [done|]. intros t Htt. apply hosts_read_back; [|by apply Hr].
    apply (queryHosts_range (Some hosts)); [done|]. by intros l [= <-].
  - apply (Query_meanwhile queryHosts "HostMapLock" HostKey (RedisKey HostName HostKey nano)); try done.
    + intros t r0 r' E. unfold GetHostFromRedis. by rewrite E.
    + intros r1 Hu1 Hf1. by destruct (writing_run HostKey (RedisKey HostName HostKey nano) false (Z.eqb 500) (map (fun '(host, id) => (host, itoa id)) (walk _ (fold_left (fun m '(id, hostname) => <[hostname := id]> m) hosts ∅))) (now_of nano) r1 Hu1 Hf1) as (? & ? & _).
  - apply (Query_agree queryHostGroups _ "HostGroupsMapLock" GroupKeyPerfix (RedisKey HostName GroupKeyPerfix nano)); try done. intros r1 Hu1 Hf1.
    set (m := gather_rows _). destruct (set2redis_run GroupKeyPerfix (RedisKey HostName GroupKeyPerfix nano) false (Z.eqb 500) (map (fun '(gid, hids) => (itoa gid, join HBS_SEP (map itoa hids))) (walkZ _ m))
      (now_of nano) r1 Hu1 Hf1 (RedisKey_ne _ _)) as (? & ? & Hr). split; [done|]. split; [done|]. intros t Htt.
    unfold GetHostGroupFromRedis, SetHostGroup2Redis. rewrite Hr by done. cbn [mbind option_bind]. f_equal. by apply lists_read_back, gather_rows_range, Hswap.
  - apply (Query_meanwhile queryHostGroups "HostGroupsMapLock" GroupKeyPerfix (RedisKey HostName GroupKeyPerfix nano)); try done.
    + intros t r0 r' E. unfold GetHostGroupFromRedis. by rewrite E.
    + intros r1 Hu1 Hf1. set (m := gather_rows _). by destruct (writing_run GroupKeyPerfix (RedisKey HostName GroupKeyPerfix nano) false (Z.eqb 500) (map (fun '(gid, hids) => (itoa gid, join HBS_SEP (map itoa hids))) (walkZ _ m)) (now_of nano) r1 Hu1 Hf1) as (? & ? & _).
  - apply (Query_agree queryHostTemplateIds _ "HostTemplateIdsLock" HostTemplateKey (RedisKey HostName HostTemplateKey nano)); try done. intros r1 Hu1 Hf1.
    set (m := gather_rows _). destruct (set2redis_run HostTemplateKey (RedisKey HostName HostTemplateKey nano) true (Z.eqb 1000) (map (fun '(gid, hids) => (itoa gid, join HBS_SEP (map itoa hids))) (walkZ _ m))
      (now_of nano) r1 Hu1 Hf1 (RedisKey_ne _ _)) as (? & ? & Hr). split; [done|]. split; [done|]. intros t Htt.
    unfold GetHostTemplateFromRedis, SetHostTemplate2Redis. rewrite Hr by done. cbn [mbind option_bind]. f_equal. by apply lists_read_back, gather_rows_range, Hswap.
  - apply (Query_meanwhile queryHostTemplateIds "HostTemplateIdsLock" HostTemplateKey (RedisKey HostName HostTemplateKey nano)); try done.
    + intros t r0 r' E. unfold GetHostTemplateFromRedis. by rewrite E.
    + intros r1 Hu1 Hf1. set (m := gather_rows _). by destruct (writing_run HostTemplateKey (RedisKey HostName HostTemplateKey nano) true (Z.eqb 1000) (map (fun '(gid, hids) => (itoa gid, join HBS_SEP (map itoa hids))) (walkZ _ m)) (now_of nano) r1 Hu1 Hf1) as (? & ? & _).
Qed.

(** A loop that does not count sends nothing. *)
Lemma put_fields_uncounted now key fields pending (r : K) : put_fields now key false (Z.leb 500) fields pending 0 r = (true, (pending ++ fields)%list, 0%Z, r).
Proof using Type.
  revert pending; induction fields as [|f fields IH]; intros pending; cbn [put_fields]; [by rewrite app_nil_r|].
  change (500 <=? 0)%Z with false. cbv iota. rewrite IH. by rewrite <- app_assoc.
Qed.

(** The templates of the groups never reach the other processes: the loop
    that puts them into redis does not count its fields, so it sends none, and
    who does not hold the lock is told that no group has a template. *)
Theorem group_templates_lost (rows : list (Z * Z)) (n1 n1' nano : Z) (r : K) :
  first_asks n1 n1' nano -> up r -> holds n1 "GroupTemplatesLock" r None -> fresh n1 (RedisKey HostName TemplateKey nano) r ->
  answers (QueryGroupTemplates HostName walk walkZ) (Some rows) (gather_rows rows) ∅ n1 n1' nano r.
Proof using All.
  intros H1 Hu Hl Hf. apply (Query_agree queryGroupTemplates _ "GroupTemplatesLock" TemplateKey (RedisKey HostName TemplateKey nano)); try done. intros r1 Hu1 Hf1.
  set (now := now_of nano) in *. set (key := RedisKey HostName TemplateKey nano) in *. unfold SetGroupTemplate2Redis, set2redis. fold now key.
  rewrite put_fields_uncounted. cbn [negb andb Z.ltb Z.compare]. rewrite EXPIRE_missing by (done || apply Hf1; lia).
  destruct (SET_live now TemplateKey key r1 Hu1) as (r2 & E2 & [Hu2 B2] & H2). unfold try_cmd. rewrite E2. change (default r1 (Some r2)) with r2.
  split; [done|]. split; [intros t k Ht Hk Hk'; by apply B2|]. intros t Ht. unfold GetGroupTemplateFromRedis, read_hash.
  rewrite GET_live; [|done|eapply live_hlive; [done|apply H2; lia]]. rewrite H2 by lia. cbn [mbind option_bind id].
  destruct (B2 t key) as [El Eh]; [lia|apply RedisKey_ne|]. destruct (Hf1 t) as [El' Eh']; [lia|].
  rewrite HGETALL_live by congruence. rewrite Eh, Eh'. cbn. f_equal. pose proof (walk_all _ (∅ : gmap string string)) as Hw.
  rewrite map_to_list_empty in Hw. apply Permutation_nil_r in Hw. by rewrite Hw.
Qed.
End Agree.

Lemma hbs_processes_agree_witness :
  exists m, queryHosts (Some [(1, "a"); (2, "b")]%Z) = Some m /\
    answers (K := kv) (QueryHosts "h1" (fun T => @map_to_list string T _ _)) (Some [(1, "a"); (2, "b")]%Z) m m 5 6 (7 * 10 ^ 9) ∅ /\
    meanwhile (K := kv) (QueryHosts "h1" (fun T => @map_to_list string T _ _)) queryHosts (GetHostFromRedis (fun T => @map_to_list string T _ _)) "HostMapLock"
      (writes_hosts "h1" (fun T => @map_to_list string T _ _) m (7 * 10 ^ 9)) 5 6 (7 * 10 ^ 9) ∅.
Proof.
  destruct (hbs_processes_agree (K := kv) "h1" (fun T => @map_to_list string T _ _) (fun T => @map_to_list Z T _ _) ltac:(done) ltac:(done)
    [(1, "a"); (2, "b")]%Z [(1, 2); (3, 2)]%Z [] 5 6 (7 * 10 ^ 9) ∅) as (H & _ & _).
  - repeat split; by vm_compute.
  - done.
  - by_compute.
  - by_compute.
  - apply H; intros t _; [done|done|split; [done|]]. by intros k [=].
Defined.

Lemma group_templates_lost_witness :
  answers (K := kv) (QueryGroupTemplates "h1" (fun T => @map_to_list string T _ _) (fun T => @map_to_list Z T _ _))
    (Some [(1, 2)]%Z) (gather_rows [(1, 2)]%Z) ∅ 5 6 (7 * 10 ^ 9) ∅.
Proof.
  apply (group_templates_lost (K := kv)).
  - done.
  - done.
  - repeat split; by vm_compute.
  - done.
  - intros t _. done.
  - intros t _. done.
Defined.
