(* ===== verification/HbsAgents.v ===== *)
(** What hbs tells the agents ([modules/hbs/rpc/agent.go] with the caches it
    uses) and the table of the agents it keeps: the status reports and the
    upgrades, the metrics an agent is asked to collect, the services and the
    dynamic configurations of a host.

    What the database answers, redis and the clock are arguments.  The set of
    the agents that upgrade is shared by the hbs processes: a report that finds
    room in it is handled in three parts, between which the reports of other
    agents, to this process and to others, are handled ([fleet_step]); the
    other handlers run alone. *)
From S2P Require Export HbsRedis Utils GoNum.
From S2P Require Import Prelude GoStr.
From Stdlib Require Import Ascii.
Local Open Scope string_scope.

(** * Data *)

(** Source: common/model/agent.go, type AgentReportRequest. *)
Record AgentReportRequest := mkReport { ar_Hostname : string; ar_IP : string; ar_AgentVersion : string; ar_PluginVersion : string; ar_InUpgrading : bool }.
(** Source: common/model/agent.go, type AgentUpgradeArgs. *)
Record AgentUpgradeArgs := mkUpgrade { ua_Type : Z; ua_WgetUrl : string; ua_Version : string; ua_BinFileMd5 : string; ua_CfgFileMd5 : string }.
(** Source: common/model/agent.go, type AgentUpdateInfo. *)
Record AgentUpdateInfo := mkUpdate { ai_LastUpdate : Z; ai_ReportRequest : AgentReportRequest }.
(** Source: common/model/agent.go, type AgentHeartbeatRequest. *)
Record AgentHeartbeatRequest := mkBeat { hb_Hostname : string; hb_Checksum : string }.
(** Source: common/model/agent.go, type BuiltinMetric. *)
Record BuiltinMetric := mkBuiltin { bm_Metric : string; bm_Tags : string }.
#[export] Instance BuiltinMetric_eq_dec : EqDecision BuiltinMetric. Proof. solve_decision. Defined.
(** Source: common/model/agent.go, type BuiltinMetricResponse. *)
Record BuiltinMetricResponse := mkBuiltinResp { br_Metrics : list BuiltinMetric; br_Checksum : string; br_Timestamp : Z }.
(** Source: common/model/rpc.go, type AgentUpgradeRpcResponse. *)
Record AgentUpgradeRpcResponse := mkUpgradeResp { ur_Code : Z; ur_Args : option AgentUpgradeArgs }.
(** Source: common/model/rpc.go, type AgentServiceConfigRpcResponse. *)
Record AgentServiceConfigRpcResponse := mkServiceResp { sr_Code : Z; sr_Args : string }.
(** Source: common/model/dynamic_config.go, type DynamicConfig. *)
Record DynamicConfig := mkDynamic { dc_Id : Z; dc_EndPoint : string; dc_Metrics : string; dc_Tag : string; dc_Interval : Z }.

Definition REDISAGENTUPGRADESET : string := "agent_upgrade_set".
Definition no_upgrade : AgentUpgradeArgs := mkUpgrade 0 "" "" "" "".

Section HbsAgents.
Context {K : Type} {redis : RedisSets K}.

(** The variables of [modules/hbs/cache/agents.go], the agents handed to the
    database, the newest first, and redis. *)
Record HbsState := mkHbs {
  Agents : gmap string AgentUpdateInfo;
  NowAgentVersionMap : gmap string string;
  NewAgentUpgradeArgs : AgentUpgradeArgs;
  UpdatedAgents : list AgentUpdateInfo;
  RedisSet : K }.
Notation H := (M HbsState).
Definition h_set_agents v s := mkHbs v (NowAgentVersionMap s) (NewAgentUpgradeArgs s) (UpdatedAgents s) (RedisSet s).
Definition h_set_versions v s := mkHbs (Agents s) v (NewAgentUpgradeArgs s) (UpdatedAgents s) (RedisSet s).
Definition h_set_args v s := mkHbs (Agents s) (NowAgentVersionMap s) v (UpdatedAgents s) (RedisSet s).
Definition h_set_updated v s := mkHbs (Agents s) (NowAgentVersionMap s) (NewAgentUpgradeArgs s) v (RedisSet s).
Definition h_set_redis v s := mkHbs (Agents s) (NowAgentVersionMap s) (NewAgentUpgradeArgs s) (UpdatedAgents s) v.

(** The parts of the configuration: the longest queue of upgrades, the time to
    live of its set, and the hours between two cleanings. *)
Context (AgentUpdateQueueLength RedisAgentUpgradeSetExpire MapCleanInterval : Z).

(** * Status reports *)

(** Source: modules/hbs/cache/agents.go, SafeAgents.Put. An agent that is not known is handed to the database. *)
Definition Agents_Put (now : Z) (req : AgentReportRequest) : H unit :=
  let val := mkUpdate now req in
  modify (fun s =>
    let s := match Agents s !! ar_Hostname req with None => h_set_updated (val :: UpdatedAgents s) s | Some _ => s end in
    h_set_agents (<[ar_Hostname req := val]> (Agents s)) s).

(** Source: modules/hbs/cache/agents.go, deleteStaleAgents. [keys] is the walk of the table. *)
Definition deleteStaleAgents (keys : gmap string AgentUpdateInfo -> list string) (now : Z) : H unit :=
  let before := (now -! 600 *! MapCleanInterval)%Z in
  do! ks := gets (fun s => keys (Agents s)) in
  forM ks (fun key =>
    do! curr := gets (fun s => Agents s !! key) in
    do! curr := lift (deref curr) in
    if (ai_LastUpdate curr <? before)%Z then
      let host := ar_Hostname (ai_ReportRequest curr) in
      modify (fun s => h_set_agents (delete host (Agents s)) (h_set_versions (delete host (NowAgentVersionMap s)) s))
    else skip).

(** Source: modules/hbs/rpc/agent.go, lines 45-79. A report up to the answer to SCARD; [None] when the queue has room. Symbol: Agent.ReportStatus. *)
Definition ReportStatus_starts (now : Z) (args : AgentReportRequest) : H (option AgentUpgradeRpcResponse) :=
  if String.eqb (ar_Hostname args) "" then ret (Some (mkUpgradeResp 1 None))
  else
    do! _ := modify (fun s => h_set_versions (<[ar_Hostname args := ar_AgentVersion args]> (NowAgentVersionMap s)) s) in
    do! _ := Agents_Put now args in
    do! cmd := gets NewAgentUpgradeArgs in
    let nothing := ret (Some (mkUpgradeResp 0 None)) in
    if String.eqb (ua_Version cmd) "" then nothing
    else if String.eqb (ar_AgentVersion args) (ua_Version cmd) then
      do! _ := modify (fun s => match SREM now REDISAGENTUPGRADESET (ar_Hostname args) (RedisSet s) with Some r => h_set_redis r s | None => s end) in
      nothing
    else if ar_InUpgrading args then nothing
    else
      do! inUpgradeNum := gets (fun s => SCARD now REDISAGENTUPGRADESET (RedisSet s)) in
      match inUpgradeNum with
      | None => nothing
      | Some inUpgradeNum => if (0 <=? inUpgradeNum)%Z && (inUpgradeNum <? AgentUpdateQueueLength)%Z then ret None else nothing
      end.
(** Source: modules/hbs/rpc/agent.go, lines 80-84. The agent is put into the set, if redis takes it. Symbol: Agent.ReportStatus. *)
Definition ReportStatus_adds (now : Z) (args : AgentReportRequest) : H bool :=
  do! r := gets (fun s => SADD now REDISAGENTUPGRADESET (ar_Hostname args) (RedisSet s)) in
  match r with
  | None => ret false
  | Some r => do! _ := modify (h_set_redis r) in ret true
  end.
(** Source: modules/hbs/rpc/agent.go, lines 85-87. The set lives on, and the command there is now is given. Symbol: Agent.ReportStatus. *)
Definition ReportStatus_ends (now : Z) : H AgentUpgradeRpcResponse :=
  do! _ := modify (fun s => match SEXPIRE now REDISAGENTUPGRADESET RedisAgentUpgradeSetExpire (RedisSet s) with Some r => h_set_redis r s | None => s end) in
  do! cmd := gets NewAgentUpgradeArgs in
  ret (mkUpgradeResp 0 (Some cmd)).
(** Source: modules/hbs/rpc/agent.go, Agent.ReportStatus. A report that nothing comes between. *)
Definition ReportStatus (now : Z) (args : AgentReportRequest) : H AgentUpgradeRpcResponse :=
  do! answered := ReportStatus_starts now args in
  match answered with
  | Some reply => ret reply
  | None =>
      do! added := ReportStatus_adds now args in
      if (added : bool) then ReportStatus_ends now else ret (mkUpgradeResp 0 None)
  end.

(** Source: modules/hbs/http/proc.go, lines 78-127. A request to start an upgrade, or to cancel it; [body] is what its text says. Symbol: configProcRoutes. *)
Definition agent_upgrade (method : string) (local : bool) (body : option AgentUpgradeArgs) : H bool :=
  if String.eqb method "DELETE" then do! _ := modify (h_set_args no_upgrade) in ret true
  else if negb (String.eqb method "POST") then ret false
  else if negb local then ret false
  else
    match body with
    | None => ret false
    | Some args =>
        if String.eqb (ua_WgetUrl args) "" || String.eqb (ua_Version args) "" then ret false
        else if (ua_Type args =? 0)%Z && String.eqb (ua_BinFileMd5 args) "" then ret false
        else if (ua_Type args =? 1)%Z && String.eqb (ua_CfgFileMd5 args) "" then ret false
        else if (ua_Type args =? 2)%Z && (String.eqb (ua_BinFileMd5 args) "" || String.eqb (ua_CfgFileMd5 args) "") then ret false
        else do! _ := modify (h_set_args args) in ret true
    end.

(** * The steps of the processes *)

(** The hbs processes, each with its own variables, the redis they share, the
    clock, and the reports that are between two of their parts: those that
    found room, and those that are in the set, with the process that handles
    each. *)
Record HbsFleet := mkFleetOfHbs {
  hf_now : Z;
  hf_hbs : nat -> HbsState;
  hf_redis : K;
  hf_room : list (nat * AgentReportRequest);
  hf_added : list (nat * AgentReportRequest) }.
(** The variables of a process with the redis of all, and back. *)
Definition load (p : nat) (f : HbsFleet) : HbsState := h_set_redis (hf_redis f) (hf_hbs f p).
Definition store (p : nat) (s : HbsState) (f : HbsFleet) : HbsFleet :=
  mkFleetOfHbs (hf_now f) (fun q => if (q =? p)%nat then s else hf_hbs f q) (RedisSet s) (hf_room f) (hf_added f).
Definition f_set_room l f := mkFleetOfHbs (hf_now f) (hf_hbs f) (hf_redis f) l (hf_added f).
Definition f_set_added l f := mkFleetOfHbs (hf_now f) (hf_hbs f) (hf_redis f) (hf_room f) l.
Definition f_set_now v f := mkFleetOfHbs v (hf_hbs f) (hf_redis f) (hf_room f) (hf_added f).

(** A part of a report, a request to a process, a cleaning, or time that goes
    by.  At most [most] reports are between SCARD and SADD. *)
Inductive fleet_step (most : nat) (f : HbsFleet) : HbsFleet -> Prop :=
  | fleet_answers p req resp s : ReportStatus_starts (hf_now f) req (load p f) = Ret (Some resp, s) -> fleet_step most f (store p s f)
  | fleet_passes p req s : ReportStatus_starts (hf_now f) req (load p f) = Ret (None, s) -> length (hf_room f) < most ->
      fleet_step most f (f_set_room (hf_room f ++ [(p, req)])%list (store p s f))
  | fleet_adds i p req b s : hf_room f !! i = Some (p, req) -> ReportStatus_adds (hf_now f) req (load p f) = Ret (b, s) ->
      fleet_step most f (f_set_added (if b then hf_added f ++ [(p, req)] else hf_added f)%list (f_set_room (delete i (hf_room f)) (store p s f)))
  | fleet_ends i p req resp s : hf_added f !! i = Some (p, req) -> ReportStatus_ends (hf_now f) (load p f) = Ret (resp, s) ->
      fleet_step most f (f_set_added (delete i (hf_added f)) (store p s f))
  | fleet_upgrade p method local body b s : agent_upgrade method local body (load p f) = Ret (b, s) -> fleet_step most f (store p s f)
  | fleet_cleans p keys s : deleteStaleAgents keys (hf_now f) (load p f) = Ret (tt, s) -> fleet_step most f (store p s f)
  | fleet_time now' : (hf_now f <= now')%Z -> fleet_step most f (f_set_now now' f).
End HbsAgents.

(** * The metrics an agent is asked for *)

(** Source: common/model/agent.go, BuiltinMetric.String. *)
Definition BuiltinMetric_String (m : BuiltinMetric) : string := bm_Metric m ++s "/" ++s bm_Tags m.

(** Source: modules/hbs/db/strategy.go, QueryHostSpecialMetric. The rows that are read, of the query that succeeds. *)
Definition QueryHostSpecialMetric (rows : list BuiltinMetric) : list BuiltinMetric :=
  fst (fold_left (fun '(sps, metricTagsSet) m =>
    let k := bm_Metric m ++s bm_Tags m in
    if bool_decide (k ∈ metricTagsSet) then (sps, metricTagsSet) else ((sps ++ [m])%list, {[k]} ∪ metricTagsSet)) rows ([], ∅ : gset string)).

(** [sort.Sort(model.BuiltinMetricSlice(items))]. *)
Definition builtin_before (a b : BuiltinMetric) : Prop := String.le (BuiltinMetric_String a) (BuiltinMetric_String b).
#[export] Instance builtin_before_dec a b : Decision (builtin_before a b).
Proof. unfold builtin_before. apply _. Defined.
Definition sort_builtin : list BuiltinMetric -> list BuiltinMetric := merge_sort builtin_before.

(** Source: modules/hbs/rpc/agent.go, DigestBuiltinMetrics. The items, which it sorts in place, and the digest. *)
Definition DigestBuiltinMetrics (items : list BuiltinMetric) : list BuiltinMetric * string :=
  let items := sort_builtin items in
  (items, Md5 (fold_left (fun buf m => buf ++s BuiltinMetric_String m) items "")).

(** Source: modules/hbs/rpc/agent.go, Agent.BuiltinMetrics. [metrics] is what the database or the cache says of a host; [reply] is the reply as it comes. *)
Definition BuiltinMetrics (metrics : string -> list BuiltinMetric) (now : Z) (args : AgentHeartbeatRequest) (reply : BuiltinMetricResponse) : BuiltinMetricResponse :=
  if String.eqb (hb_Hostname args) "" then reply
  else
    let metrics := metrics (hb_Hostname args) in
    let '(metrics, checksum) := if (0 <? length metrics)%nat then DigestBuiltinMetrics metrics else (metrics, "") in
    mkBuiltinResp (if String.eqb (hb_Checksum args) checksum then [] else metrics) checksum now.

(** Source: modules/hbs/rpc/agent.go, Agent.DynamicMonitoring. The code and the interval of each metric. *)
Definition DynamicMonitoring (configs : gmap string (list DynamicConfig)) (args : AgentReportRequest) : Z * gmap string Z :=
  if String.eqb (ar_Hostname args) "" then (1%Z, ∅)
  else (0%Z, match configs !! ar_Hostname args with
             | Some l => fold_left (fun cfgs cfg => <[dc_Metrics cfg := dc_Interval cfg]> cfgs) l ∅
             | None => ∅
             end).

(** Source: modules/hbs/rpc/agent.go, Agent.SyncServiceNames. *)
Definition SyncServiceNames (services : gmap string string) (args : AgentReportRequest) : AgentServiceConfigRpcResponse :=
  if String.eqb (ar_Hostname args) "" then mkServiceResp 1 ""
  else match services !! ar_Hostname args with
       | None => mkServiceResp 2 ""
       | Some svns => if String.eqb svns "" then mkServiceResp 2 "" else mkServiceResp 0 svns
       end.
