(* ===== verification/AgentUpgrade.v ===== *)
(** How the agent replaces its own program and configuration
    ([modules/agent/g/upgrade.go]): the file is moved aside, the new one is
    downloaded in its place and compared with the sum hbs gave, and when that
    fails the old one is copied back; then the process kills itself, for its
    supervisor to start what is there.

    The files are a map from paths to contents and permissions; [mv], [cp],
    [md5sum] and the calls of the operating system act on it, or are refused, in
    which case they leave the files as they were, but for a [cp] that fails
    half-way, which leaves what it has written ([spoilt]).  What is refused, the
    day, and what the server answers may change from one operation to the next.  The
    names of files are taken not to mean anything to the shell. *)
From S2P Require Import Prelude GoStr.
From S2P Require Export HbsAgents.
From Stdlib Require Import Ascii.
Local Open Scope string_scope.

(** * Files, answers and the process *)

Record File := mkFile { content : string; mode : Z }.
(** What an upgrade acts on: the files, the number of operations so far, and the flag of the package. *)
Record Machine := mkMachine { files : gmap string File; ops : nat; InUpgrading : bool }.
(** A response: its status, the part of its body that arrives, and whether that is all of it. *)
Record Response := mkResponse { StatusCode : Z; arrives : string; whole : bool }.
(** How [http.Get] ends: without a response; with an error and a response, after too many redirections; or with a response. *)
Inductive got := Unreachable | Redirected | Got (r : Response).
(** The errors of an upgrade. *)
Inductive uerror := ENotExist | EMv | ECreate | ECp | EChmod | EStatus | EMd5.

(** A step of the process: [None] when it ends with the process, by a nil that is read. *)
Definition U (A : Type) : Type := Machine -> option A * Machine.
Definition uret {A} (a : A) : U A := fun s => (Some a, s).
Definition ubind {A B} (m : U A) (k : A -> U B) : U B :=
  fun s => match m s with (Some a, s') => k a s' | (None, s') => (None, s') end.
Notation "'up!' x := e 'in' k" := (ubind e (fun x => k)) (at level 10, x pattern, e at level 200, k at level 200) : go_scope.
Definition crash {A} : U A := fun s => (None, s).

Definition set_files (m : gmap string File) (s : Machine) : Machine := mkMachine m (ops s) (InUpgrading s).

Section upgrade.
Context (refuses : nat -> bool) (spoilt : nat -> option string) (clock : nat -> string) (http_get : nat -> string -> got) (md5sum : string -> string) (AppBaseDir : string) (umask_mode : Z).

(** An operation of the system: what it does when it is not refused. *)
Definition system {A} (no : A) (yes : gmap string File -> A * gmap string File) : U A := fun s =>
  let s' := mkMachine (files s) (S (ops s)) (InUpgrading s) in
  if refuses (ops s) then (Some no, s') else let '(a, m) := yes (files s) in (Some a, set_files m s').
Definition today : U string := fun s => (Some (clock (ops s)), s).
Definition reach (url : string) : U got := fun s => (Some (http_get (ops s) url), s).

(** [os.Stat]: whether the file is known not to be there. *)
Definition stat_missing (p : string) : U bool := system false (fun m => (negb (bool_decide (is_Some (m !! p))), m)).
(** [mv -f], [cp -f], which keeps the permissions of a file that is there, [os.Create], [os.Chmod]: whether they worked. *)
Definition mv (old new : string) : U bool := system false (fun m => match m !! old with Some f => (true, <[new := f]> (delete old m)) | None => (false, m) end).
Definition cp (src dst : string) : U bool := fun s =>
  let s' := mkMachine (files s) (S (ops s)) (InUpgrading s) in
  match files s !! src with
  | Some f =>
      let written c := set_files (<[dst := mkFile c (match files s !! dst with Some g => mode g | None => mode f end)]> (files s)) s' in
      if refuses (ops s) then (Some false, match spoilt (ops s) with Some c => written c | None => s' end) else (Some true, written (content f))
  | None => (Some false, s')
  end.
Definition os_create (p : string) : U bool := system false (fun m => (true, <[p := mkFile "" (match m !! p with Some g => mode g | None => umask_mode end)]> m)).
Definition chmod (p : string) (perm : Z) : U bool := system false (fun m => match m !! p with Some f => (true, <[p := mkFile (content f) perm]> m) | None => (false, m) end).
(** [io.Copy] to the file that was created: whether the body came to its end. *)
Definition copy_body (p : string) (r : Response) : U bool := fun s =>
  (Some (whole r), set_files (match files s !! p with Some f => <[p := mkFile (arrives r) (mode f)]> (files s) | None => files s end) s).

(** * One file *)

(** Source: modules/agent/g/upgrade.go, BackUpFile. Any other error of [Stat] than a missing file goes on. *)
Definition BackUpFile (old : string) : U (option uerror) :=
  up! missing := stat_missing old in
  if missing then uret (Some ENotExist)
  else
    up! t := today in
    up! ok := mv old (old ++s "_bak_" ++s t) in
    uret (if (ok : bool) then None else Some EMv).

(** Source: modules/agent/g/upgrade.go, CheckMd5. A command that fails has the text FAILED. *)
Definition CheckMd5 (fp argMd5 : string) : U bool :=
  up! res := system "FAILED" (fun m => (match m !! fp with Some f => md5sum (content f) ++s "  " ++s fp ++s String "010" "" | None => "FAILED" end, m)) in
  uret (String.eqb argMd5 (hd "" (GoStr.split res " "))).

(** Source: modules/agent/g/upgrade.go, lines 114-122. The old file comes back: the error that ends it, if any. Symbol: downloadReplaceFile. *)
Definition roll_back (filepath new : string) : U (option uerror) :=
  up! ok := cp new filepath in
  if negb (ok : bool) then uret (Some ECp)
  else
    up! ok := chmod filepath 493 in
    uret (if (ok : bool) then None else Some EChmod).

(** Source: modules/agent/g/upgrade.go, downloadReplaceFile. The header of the response is set before its error is looked at; the error of [Get] and of [Copy] is overwritten by that of [Chmod]. *)
Definition downloadReplaceFile (filepath url argMd5 : string) : U (option uerror) :=
  up! t := today in
  let new := filepath ++s "_bak_" ++s t in
  up! err := BackUpFile filepath in
  match err with
  | Some e => uret (Some e)
  | None =>
      up! ok := os_create filepath in
      if negb (ok : bool) then uret (Some ECreate)
      else
        up! resp := reach url in
        match resp with
        | Unreachable => crash
        | Redirected => roll_back filepath new
        | Got r =>
            if negb (StatusCode r =? 200)%Z then
              up! err := roll_back filepath new in
              match err with
              | Some e => uret (Some e)
              | None => up! _ := chmod filepath 493 in uret (Some EStatus)
              end
            else
              up! ok := copy_body filepath r in
              if negb (ok : bool) then roll_back filepath new
              else
                up! md5Same := CheckMd5 filepath argMd5 in
                if negb (md5Same : bool) then
                  up! err := roll_back filepath new in
                  uret (match err with Some e => Some e | None => Some EMd5 end)
                else
                  up! ok := chmod filepath 493 in
                  if negb (ok : bool) then uret (Some EChmod)
                  else
                    up! ok := chmod filepath 493 in
                    uret (if (ok : bool) then None else Some EChmod)
        end
  end.

(** * An upgrade *)

Definition agentPath : string := AppBaseDir ++s "/falcon-agent".
Definition cfgPath : string := AppBaseDir ++s "/cfg.json".
Definition binUrl (a : AgentUpgradeArgs) : string := ua_WgetUrl a ++s "/bin_" ++s ua_Version a.
Definition cfgUrl (a : AgentUpgradeArgs) : string := ua_WgetUrl a ++s "/cfg_" ++s ua_Version a.

(** Source: modules/agent/g/upgrade.go, AgentSelfUpgrade. What one message of the channel does: whether the process kills itself. The errors of the two files of type 2 are kept apart from the one that is looked at. *)
Definition AgentSelfUpgrade (a : AgentUpgradeArgs) : U bool :=
  up! err := (if (ua_Type a =? 0)%Z then downloadReplaceFile agentPath (binUrl a) (ua_BinFileMd5 a)
              else if (ua_Type a =? 1)%Z then downloadReplaceFile cfgPath (cfgUrl a) (ua_CfgFileMd5 a)
              else if (ua_Type a =? 2)%Z then
                up! _ := downloadReplaceFile agentPath (binUrl a) (ua_BinFileMd5 a) in
                up! _ := downloadReplaceFile cfgPath (cfgUrl a) (ua_CfgFileMd5 a) in
                uret None
              else uret None) in
  up! _ := (fun s => (Some tt, mkMachine (files s) (ops s) false)) in
  uret (match err with None => true | Some _ => false end).

(** Source: modules/agent/cron/reporter.go, lines 285-289. What hbs answered to a report: whether an upgrade is put into the channel. Symbol: reportAgentStatus. *)
Definition take_upgrade (SelfUpgrade : bool) (resp : AgentUpgradeRpcResponse) : U (option AgentUpgradeArgs) := fun s =>
  match ur_Args resp with
  | Some a => if negb (InUpgrading s) && SelfUpgrade then (Some (Some a), mkMachine (files s) (ops s) true) else (Some None, s)
  | None => (Some None, s)
  end.
End upgrade.
