(* ===== verification/AgentUpgradeThms.v ===== *)
(** What an upgrade of an agent leaves: the new file or the old one
    ([upgrade_new_or_old]), as long as the server is reached; otherwise the
    agent dies with an empty program ([unreachable_empties_agent]). *)
From S2P Require Import Prelude GoStr.
From S2P Require Export AgentUpgrade.
From Stdlib Require Import Ascii.
Local Open Scope string_scope.

Section works.
Context (refuses : nat -> bool) (spoilt : nat -> option string) (clock : nat -> string) (http_get : nat -> string -> got) (md5sum : string -> string) (AppBaseDir : string) (umask_mode : Z).
(** Nothing is refused, on one day. *)
Hypothesis granted : forall n, refuses n = false.
Context (day : string) (one_day : forall n, clock n = day).
Hypothesis sums : forall c, has " "%char (md5sum c) = false.
Notation download := (downloadReplaceFile refuses spoilt clock http_get md5sum umask_mode).

Definition backup (p : string) : string := p ++s "_bak_" ++s day.
Lemma backup_other p : backup p <> p.
Proof using Type.
  unfold backup. intros E. apply (f_equal String.length) in E. rewrite !sapp_length in E. cbn in E. lia.
Qed.

(** What a download comes to: the error, the content and the permissions of the file, and the number of operations; [None] when the process dies. *)
Definition outcome_of (g : got) (argMd5 old : string) : option (option uerror) * File * nat :=
  match g with
  | Unreachable => (None, mkFile "" umask_mode, 3)
  | Redirected => (Some None, mkFile old 493, 5)
  | Got r =>
      if negb (StatusCode r =? 200)%Z then (Some (Some EStatus), mkFile old 493, 6)
      else if negb (whole r) then (Some None, mkFile old 493, 5)
      else if String.eqb argMd5 (md5sum (arrives r)) then (Some None, mkFile (arrives r) 493, 6)
      else (Some (Some EMd5), mkFile old 493, 6)
  end.

(** A sum that is compared, as [md5sum] prints it. *)
Lemma printed c fp : hd "" (GoStr.split (md5sum c ++s "  " ++s fp) " ") = md5sum c.
Proof using sums. rewrite split_one. change ("  " ++s fp) with (String " " (" " ++s fp)). by rewrite cut_app. Qed.

(** An operation that is not refused, and a step after another. *)
Lemma sys {A} (no : A) yes s :
  system refuses no yes s = (Some (yes (files s)).1, mkMachine (yes (files s)).2 (S (ops s)) (InUpgrading s)).
Proof using granted. unfold system. rewrite granted. by destruct (yes (files s)). Qed.
Lemma bind_run {A B} (m : U A) (k : A -> U B) s a s' : m s = (Some a, s') -> ubind m k s = k a s'.
Proof using Type. unfold ubind. by intros ->. Qed.

(** The files while the old one is away and when something is there again. *)
Lemma moved p (f f' : File) (m : gmap string File) : <[p := f']> (<[backup p := f]> (delete p m)) = <[p := f']> (<[backup p := f]> m).
Proof using Type.
  apply map_eq. intros q. destruct (decide (q = p)) as [->|Hp]; [by rewrite !lookup_insert_eq|]. rewrite !(lookup_insert_ne _ p) by done.
  destruct (decide (q = backup p)) as [->|Hb]; [by rewrite !lookup_insert_eq|]. by rewrite !(lookup_insert_ne _ (backup p)), lookup_delete_ne by done.
Qed.
Lemma roll_back_exact p f f' (m : gmap string File) n fl : roll_back refuses spoilt p (backup p) (mkMachine (<[p := f']> (<[backup p := f]> m)) n fl) =
  (Some None, mkMachine (<[p := mkFile (content f) 493]> (<[backup p := f]> m)) (2 + n) fl).
Proof using granted.
  unfold roll_back, cp, chmod, ubind, system. cbn [ops files].
  rewrite lookup_insert_ne, !lookup_insert_eq by (symmetry; apply backup_other). rewrite granted. cbn [negb set_files files ops InUpgrading]. rewrite granted, lookup_insert_eq. cbn.
  by rewrite !insert_insert_eq.
Qed.

Lemma download_exact p url argMd5 s f : files s !! p = Some f ->
  download p url argMd5 s =
  (let '(r, f', n) := outcome_of (http_get (3 + ops s) url) argMd5 (content f) in
   (r, mkMachine (<[p := f']> (<[backup p := f]> (files s))) (n + ops s) (InUpgrading s))).
Proof using granted one_day sums.
  intros Hf. unfold downloadReplaceFile. erewrite bind_run by reflexivity. rewrite one_day. fold (backup p).
  rewrite (bind_run (BackUpFile refuses clock p) _ _ None (mkMachine (<[backup p := f]> (delete p (files s))) (2 + ops s) (InUpgrading s))); cycle 1.
  { unfold BackUpFile, stat_missing. erewrite bind_run by apply sys. cbn [fst snd]. rewrite bool_decide_eq_true_2 by (by exists f). cbn [negb fst snd].
    erewrite bind_run by reflexivity. rewrite one_day. fold (backup p). unfold mv. erewrite bind_run by apply sys. cbn [files]. by rewrite Hf. }
  unfold os_create. erewrite bind_run by apply sys. cbn [files ops InUpgrading fst snd negb].
  rewrite (lookup_insert_ne _ (backup p) p), lookup_delete_eq, moved by apply backup_other.
  change (S (2 + ops s)) with (3 + ops s). erewrite bind_run by reflexivity. cbn [ops].
  destruct (http_get (3 + ops s) url) as [| |r]; [done|by rewrite roll_back_exact|].
  unfold outcome_of. destruct (StatusCode r =? 200)%Z; cbn [negb].
  2: { erewrite bind_run by apply roll_back_exact. unfold chmod. erewrite bind_run by apply sys. cbn [files]. rewrite lookup_insert_eq. cbn.
       by rewrite insert_insert_eq. }
  erewrite bind_run by reflexivity. cbn [files set_files ops InUpgrading]. rewrite lookup_insert_eq, insert_insert_eq. cbn [mode set_files ops InUpgrading]. unfold set_files. cbn [ops InUpgrading].
  destruct (whole r); cbn [negb]; [|by rewrite roll_back_exact].
  unfold CheckMd5 at 1. rewrite (bind_run _ _ _ (String.eqb argMd5 (md5sum (arrives r)))
    (mkMachine (<[p := mkFile (arrives r) umask_mode]> (<[backup p := f]> (files s))) (4 + ops s) (InUpgrading s))); cycle 1.
  { erewrite bind_run by apply sys. cbn [fst snd files]. rewrite lookup_insert_eq. cbn [content]. by rewrite printed. }
  destruct (String.eqb argMd5 (md5sum (arrives r))); cbn [negb].
  - unfold chmod. erewrite bind_run by apply sys. cbn [fst snd files]. rewrite lookup_insert_eq. cbn [negb fst snd content].
    erewrite bind_run by apply sys. cbn [fst snd files]. rewrite lookup_insert_eq. cbn. by rewrite !insert_insert_eq.
  - erewrite bind_run by apply roll_back_exact. done.
Qed.

(** * Upgrades *)

Notation agentPath := (agentPath AppBaseDir).
Notation cfgPath := (cfgPath AppBaseDir).
Notation upgrade := (AgentSelfUpgrade refuses spoilt clock http_get md5sum AppBaseDir umask_mode).

Lemma paths_apart : agentPath <> cfgPath /\ backup agentPath <> cfgPath /\ backup cfgPath <> agentPath.
Proof using Type. unfold backup, AgentUpgrade.agentPath, AgentUpgrade.cfgPath. rewrite !sapp_assoc. repeat split; intros [=]%sapp_cancel. Qed.

(** A file after a download that reached its server. *)
Definition new_or_old (md5 : string) (old f : File) : Prop := mode f = 493%Z /\ (content f = content old \/ md5sum (content f) = md5).
Hypothesis reached : forall n url, http_get n url <> Unreachable.

Lemma download_reached p url argMd5 s f : files s !! p = Some f ->
  exists err f' n, download p url argMd5 s = (Some err, mkMachine (<[p := f']> (<[backup p := f]> (files s))) n (InUpgrading s)) /\
    new_or_old argMd5 f f' /\ (err <> None -> content f' = content f).
Proof using granted one_day sums reached.
  intros Hf. rewrite (download_exact p url argMd5 s f Hf). unfold new_or_old, outcome_of. pose proof (reached (3 + ops s) url).
  destruct (http_get (3 + ops s) url) as [| |r]; [done|by eexists _, _, _; split; [done|]; auto|].
  destruct (StatusCode r =? 200)%Z, (whole r); cbn [negb]; [|by eexists _, _, _; split; [done|]; auto..].
  destruct (String.eqb_spec argMd5 (md5sum (arrives r))); eexists _, _, _; (split; [done|]); cbn; naive_solver.
Qed.
End works.

(** C27: When the server is reached, no command or call of the system is refused
    ([mv], [cp], the creation of the file, [md5sum], [chmod]) and the day does
    not change, an upgrade that hbs asks for leaves each of the two files as it
    was, or, executable, with its old content or with one that has the sum hbs
    gave - whatever the server answers and wherever the answer breaks off; a
    file that is not named by its type is not touched, the agent can be asked
    again, and if it goes on running its files have their old contents. *)
Theorem upgrade_new_or_old (refuses : nat -> bool) (spoilt : nat -> option string) (clock : nat -> string) (http_get : nat -> string -> got) (md5sum : string -> string)
    (AppBaseDir day : string) (umask_mode : Z) (a : AgentUpgradeArgs) (s : Machine) (fa fc : File) :
  (forall n, refuses n = false) -> (forall n, clock n = day) -> (forall c, has " "%char (md5sum c) = false) ->
  (forall n url, http_get n url <> Unreachable) ->
  files s !! agentPath AppBaseDir = Some fa -> files s !! cfgPath AppBaseDir = Some fc ->
  exists killed s' fa' fc', AgentSelfUpgrade refuses spoilt clock http_get md5sum AppBaseDir umask_mode a s = (Some killed, s') /\ InUpgrading s' = false /\
    files s' !! agentPath AppBaseDir = Some fa' /\ (if decide (ua_Type a = 0 \/ ua_Type a = 2)%Z then new_or_old md5sum (ua_BinFileMd5 a) fa fa' else fa' = fa) /\
    files s' !! cfgPath AppBaseDir = Some fc' /\ (if decide (ua_Type a = 1 \/ ua_Type a = 2)%Z then new_or_old md5sum (ua_CfgFileMd5 a) fc fc' else fc' = fc) /\
    (killed = false -> content fa' = content fa /\ content fc' = content fc).
Proof.
  intros Hr Hd Hs Hg Ha Hc. destruct (paths_apart AppBaseDir day) as (H1 & H2 & H3).
  pose proof (download_reached refuses spoilt clock http_get md5sum umask_mode Hr day Hd Hs Hg) as D. unfold AgentSelfUpgrade.
  destruct (Z.eqb_spec (ua_Type a) 0) as [->|N0]; [|destruct (Z.eqb_spec (ua_Type a) 1) as [->|N1]; [|destruct (Z.eqb_spec (ua_Type a) 2) as [->|N2]]].
  - destruct (D (agentPath AppBaseDir) (binUrl a) (ua_BinFileMd5 a) s fa Ha) as (err & f' & n & E & Hf & He).
    exists (match err with None => true | Some _ => false end). eexists _, f', fc. erewrite bind_run by exact E. split; [reflexivity|]. cbn [files InUpgrading].
    rewrite lookup_insert_eq, !lookup_insert_ne by done. split_and!; try done. intros Hk. split; [|done]. apply He. by destruct err.
  - destruct (D (cfgPath AppBaseDir) (cfgUrl a) (ua_CfgFileMd5 a) s fc Hc) as (err & f' & n & E & Hf & He).
    exists (match err with None => true | Some _ => false end). eexists _, fa, f'. erewrite bind_run by exact E. split; [reflexivity|]. cbn [files InUpgrading].
    rewrite lookup_insert_eq, !lookup_insert_ne by done. split_and!; try done. intros Hk. split; [done|]. apply He. by destruct err.
  - destruct (D (agentPath AppBaseDir) (binUrl a) (ua_BinFileMd5 a) s fa Ha) as (err & f' & n & E & Hf & _).
    destruct (D (cfgPath AppBaseDir) (cfgUrl a) (ua_CfgFileMd5 a) (mkMachine (<[agentPath AppBaseDir := f']> (<[backup day (agentPath AppBaseDir) := fa]> (files s))) n (InUpgrading s)) fc)
      as (err' & g' & n' & E' & Hg' & _); [cbn [files]; by rewrite !lookup_insert_ne by done|].
    exists true. eexists _, f', g'. erewrite bind_run by (erewrite bind_run by exact E; erewrite bind_run by exact E'; reflexivity). split; [reflexivity|]. cbn [files InUpgrading].
    rewrite lookup_insert_eq. repeat (rewrite lookup_insert_ne by done). rewrite lookup_insert_eq. split_and!; done.
  - exists true. eexists _, fa, fc. split; [reflexivity|]. cbn [files InUpgrading].
    split_and!; try done; by rewrite decide_False by lia.
Qed.

(** C28: When the server cannot be reached for the program of the agent, the header
    of no response is written to before the error is looked at: the process
    ends there, with an empty file in the place of its program, which is left
    under the name of the backup only. *)
Theorem unreachable_empties_agent (refuses : nat -> bool) (spoilt : nat -> option string) (clock : nat -> string) (http_get : nat -> string -> got) (md5sum : string -> string)
    (AppBaseDir day : string) (umask_mode : Z) (a : AgentUpgradeArgs) (s : Machine) (fa : File) :
  (forall n, refuses n = false) -> (forall n, clock n = day) -> (forall c, has " "%char (md5sum c) = false) ->
  (ua_Type a = 0%Z \/ ua_Type a = 2%Z) -> (forall n, http_get n (binUrl a) = Unreachable) -> files s !! agentPath AppBaseDir = Some fa ->
  exists s', AgentSelfUpgrade refuses spoilt clock http_get md5sum AppBaseDir umask_mode a s = (None, s') /\
    files s' !! agentPath AppBaseDir = Some (mkFile "" umask_mode) /\ files s' !! backup day (agentPath AppBaseDir) = Some fa /\
    forall p, p <> agentPath AppBaseDir -> p <> backup day (agentPath AppBaseDir) -> files s' !! p = files s !! p.
Proof.
  intros Hr Hd Hs Ht Hg Ha. pose proof (download_exact refuses spoilt clock http_get md5sum umask_mode Hr day Hd Hs (agentPath AppBaseDir) (binUrl a) (ua_BinFileMd5 a) s fa Ha) as E.
  rewrite Hg in E. cbn [outcome_of] in E. unfold AgentSelfUpgrade.
  destruct Ht as [->| ->]; cbn [Z.eqb Pos.eqb]; unfold ubind; rewrite E; (eexists; split; [reflexivity|]); cbn [files];
    rewrite lookup_insert_eq, lookup_insert_ne, lookup_insert_eq by (symmetry; apply backup_other); split_and!; try done; intros p Hp Hb; by rewrite !lookup_insert_ne.
Qed.

(** A download that breaks off is no error, once the old file is back: the
    process kills itself, and is started with the version hbs wants replaced. *)
Lemma broken_download_restarts refuses spoilt clock http_get md5sum AppBaseDir umask_mode day a s fa r :
  (forall n, refuses n = false) -> (forall n, clock n = day) -> (forall c, has " "%char (md5sum c) = false) ->
  ua_Type a = 0%Z -> http_get (3 + ops s) (binUrl a) = Got r -> StatusCode r = 200%Z -> whole r = false -> files s !! agentPath AppBaseDir = Some fa ->
  exists s', AgentSelfUpgrade refuses spoilt clock http_get md5sum AppBaseDir umask_mode a s = (Some true, s') /\
    files s' !! agentPath AppBaseDir = Some (mkFile (content fa) 493).
Proof.
  intros Hr Hd Hs Ht Hg H2 Hw Ha. pose proof (download_exact refuses spoilt clock http_get md5sum umask_mode Hr day Hd Hs (agentPath AppBaseDir) (binUrl a) (ua_BinFileMd5 a) s fa Ha) as E.
  rewrite Hg in E. cbn [outcome_of] in E. rewrite H2, Hw in E. unfold AgentSelfUpgrade. rewrite Ht. cbn [Z.eqb]. unfold ubind. rewrite E. eexists. split; [reflexivity|].
  cbn [files]. by rewrite lookup_insert_eq.
Qed.

(** A machine with the two files, and a server with a new program. *)
Definition demo_machine : Machine := mkMachine {["/opt/falcon-agent" := mkFile "old" 493; "/opt/cfg.json" := mkFile "{}" 420]} 0 true.
Definition demo_sum (c : string) : string := if String.eqb c "new" then "5e1f" else "0000".
Definition demo_upgrade : AgentUpgradeArgs := mkUpgrade 0 "http://u" "5.2" "5e1f" "".

Lemma upgrade_new_or_old_witness : exists s' fa', files s' !! "/opt/falcon-agent" = Some fa' /\ new_or_old demo_sum "5e1f" (mkFile "old" 493) fa' /\
  AgentSelfUpgrade (fun _ => false) (fun _ => None) (fun _ => "20240101") (fun _ _ => Got (mkResponse 200 "new" true)) demo_sum "/opt" 420 demo_upgrade demo_machine = (Some true, s').
Proof.
  destruct (upgrade_new_or_old (fun _ => false) (fun _ => None) (fun _ => "20240101") (fun _ _ => Got (mkResponse 200 "new" true)) demo_sum "/opt" "20240101" 420 demo_upgrade demo_machine
    (mkFile "old" 493) (mkFile "{}" 420)) as (killed & s' & fa' & fc' & E & _ & Ha & Hn & _).
  - done.
  - done.
  - intros c. unfold demo_sum. by destruct (String.eqb c "new").
  - done.
  - vm_compute. reflexivity.
  - vm_compute. reflexivity.
  - exists s', fa'. split; [exact Ha|]. split; [exact Hn|]. rewrite E. vm_compute in E. injection E as <- _. reflexivity.
Defined.

Lemma unreachable_empties_agent_witness : exists s',
  AgentSelfUpgrade (fun _ => false) (fun _ => None) (fun _ => "20240101") (fun _ _ => Unreachable) demo_sum "/opt" 420 demo_upgrade demo_machine = (None, s') /\
  files s' !! "/opt/falcon-agent" = Some (mkFile "" 420).
Proof.
  destruct (unreachable_empties_agent (fun _ => false) (fun _ => None) (fun _ => "20240101") (fun _ _ => Unreachable) demo_sum "/opt" "20240101" 420 demo_upgrade demo_machine (mkFile "old" 493))
    as (s' & E & H & _).
  - done.
  - done.
  - intros c. unfold demo_sum. by destruct (String.eqb c "new").
  - by left.
  - done.
  - vm_compute. reflexivity.
  - by exists s'.
Defined.
