(* ===== verification/Pools.v ===== *)
(** The connections the components call each other through: the pools of
    [common/backend_pool] over the pool of [toolkits/conn_pool], and the single
    connection of [SingleConnRpcClient] that the agent and the judge keep; with
    the counters of [common/proc].

    A connection is its name.  The sockets a pool has opened and not closed are
    kept beside it.  How a dial or a call ends, and the clock, are arguments; the
    methods of a pool hold its lock, so that the calls of goroutines interleave
    between them: [take_turn] is any of them taking its next step. *)
From S2P Require Import Prelude GoStr.
Local Open Scope string_scope.

Definition wrap32 (z : Z) : Z := ((z + 2 ^ 31) mod 2 ^ 32 - 2 ^ 31)%Z.

(** * One pool ([vendor/github.com/toolkits/conn_pool]) *)

(** Source: vendor/github.com/toolkits/conn_pool/conn_pool.go, type ConnPool. Without its address, which is its name. *)
Record ConnPool := mkPool {
  p_Name : string; p_MaxConns : Z; p_MaxIdle : Z; p_Cnt : Z;
  active : Z; free : list string; all : gset string }.
(** A pool and its open sockets. *)
Record Pooled := mkPooled { pool : ConnPool; sockets : gset string }.

(** Source: vendor/github.com/toolkits/conn_pool/conn_pool.go, NewConnPool. *)
Definition NewConnPool (name : string) (maxConns maxIdle : Z) : ConnPool := mkPool name maxConns maxIdle 0 0 [] ∅.

Definition set_active (v : Z) (p : ConnPool) : ConnPool := mkPool (p_Name p) (p_MaxConns p) (p_MaxIdle p) (p_Cnt p) v (free p) (all p).
Definition set_free (v : list string) (p : ConnPool) : ConnPool := mkPool (p_Name p) (p_MaxConns p) (p_MaxIdle p) (p_Cnt p) (active p) v (all p).
Definition set_all (v : gset string) (p : ConnPool) : ConnPool := mkPool (p_Name p) (p_MaxConns p) (p_MaxIdle p) (p_Cnt p) (active p) (free p) v.

(** Source: vendor/github.com/toolkits/conn_pool/conn_pool.go, ConnPool.fetchFree. *)
Definition fetchFree (p : ConnPool) : option string * ConnPool :=
  match free p with [] => (None, p) | conn :: l => (Some conn, set_free l p) end.
(** Source: vendor/github.com/toolkits/conn_pool/conn_pool.go, ConnPool.overMax. *)
Definition overMax (p : ConnPool) : bool := (p_MaxConns p <=? active p)%Z.
(** Source: vendor/github.com/toolkits/conn_pool/conn_pool.go, ConnPool.overMaxIdle. *)
Definition overMaxIdle (p : ConnPool) : bool := (p_MaxIdle p <=? wrap32 (Z.of_nat (length (free p))))%Z.
(** Source: vendor/github.com/toolkits/conn_pool/conn_pool.go, ConnPool.increActive. *)
Definition increActive (p : ConnPool) : ConnPool := set_active (wrap32 (active p + 1)) p.
(** Source: vendor/github.com/toolkits/conn_pool/conn_pool.go, ConnPool.decreActive. *)
Definition decreActive (p : ConnPool) : ConnPool := set_active (wrap32 (active p - 1)) p.
(** Source: vendor/github.com/toolkits/conn_pool/conn_pool.go, ConnPool.addFree. *)
Definition addFree (conn : string) (p : ConnPool) : ConnPool := set_free (free p ++ [conn])%list p.
(** Source: vendor/github.com/toolkits/conn_pool/conn_pool.go, ConnPool.deleteConn. *)
Definition deleteConn (conn : string) (w : Pooled) : Pooled := mkPooled (set_all (all (pool w) ∖ {[conn]}) (pool w)) (sockets w ∖ {[conn]}).

Definition conn_name (name : string) (cnt unix : Z) : string := name ++s "_" ++s itoa cnt ++s "_" ++s itoa unix.
(** Source: vendor/github.com/toolkits/conn_pool/conn_pool.go, ConnPool.newConn. [dialled] says whether [New] worked; when it did not, it gave no connection. *)
Definition newConn (dialled : bool) (unix : Z) (w : Pooled) : option string * Pooled :=
  let p := pool w in
  if dialled then
    let name := conn_name (p_Name p) (p_Cnt p) unix in
    (Some name, mkPooled (mkPool (p_Name p) (p_MaxConns p) (p_MaxIdle p) (wrap64 (p_Cnt p + 1)) (active p) (free p) (all p ∪ {[name]})) (sockets w ∪ {[name]}))
  else (None, w).

(** Source: vendor/github.com/toolkits/conn_pool/conn_pool.go, ConnPool.Fetch. *)
Definition ConnPool_Fetch (dialled : bool) (unix : Z) (w : Pooled) : option string * Pooled :=
  match fetchFree (pool w) with
  | (Some conn, p) => (Some conn, mkPooled p (sockets w))
  | (None, _) =>
      if overMax (pool w) then (None, w)
      else
        match newConn dialled unix w with
        | (Some conn, w) => (Some conn, mkPooled (increActive (pool w)) (sockets w))
        | (None, w) => (None, w)
        end
  end.
(** Source: vendor/github.com/toolkits/conn_pool/conn_pool.go, ConnPool.ForceClose. *)
Definition ForceClose (conn : string) (w : Pooled) : Pooled :=
  let w := deleteConn conn w in mkPooled (decreActive (pool w)) (sockets w).
(** Source: vendor/github.com/toolkits/conn_pool/conn_pool.go, ConnPool.Release. *)
Definition Release (conn : string) (w : Pooled) : Pooled :=
  if overMaxIdle (pool w) then ForceClose conn w else mkPooled (addFree conn (pool w)) (sockets w).
(** Source: vendor/github.com/toolkits/conn_pool/conn_pool.go, ConnPool.Destroy. *)
Definition Destroy (w : Pooled) : Pooled :=
  mkPooled (set_active 0 (set_free [] (set_all ∅ (pool w)))) (sockets w ∖ list_to_set (free (pool w)) ∖ all (pool w)).

(** * The pools of a component ([common/backend_pool]) *)

(** Source: common/backend_pool/rpc_backends.go, CreateSafeRpcConnPools. The pools of a cluster; the limits are cut to 32 bits. *)
Definition CreateSafeRpcConnPools (maxConns maxIdle : Z) (cluster : list string) : gmap string Pooled :=
  fold_left (fun M address =>
    if bool_decide (is_Some (M !! address)) then M
    else <[address := mkPooled (NewConnPool address (wrap32 maxConns) (wrap32 maxIdle)) ∅]> M) cluster ∅.

(** Source: common/backend_pool/rpc_backends.go, CreateSafeJsonrpcConnPools. The connections speak JSON. *)
Definition CreateSafeJsonrpcConnPools : Z -> Z -> list string -> gmap string Pooled := CreateSafeRpcConnPools.

(** How the call of a client ends, if it does before the time is over. *)
Inductive call_end := InTime (failed : bool) | Late.
(** Source: common/backend_pool/rpc_backends.go, lines 71-79. The first half of a call: a connection, unless there is no pool or it gives none. Symbol: SafeRpcConnPools.Call. *)
Definition call_begin (addr : string) (dialled : bool) (unix : Z) (M : gmap string Pooled) : option string * gmap string Pooled :=
  match M !! addr with
  | None => (None, M)
  | Some w => let '(conn, w) := ConnPool_Fetch dialled unix w in (conn, <[addr := w]> M)
  end.
(** Source: common/backend_pool/rpc_backends.go, lines 89-101. The second half, in which the pool is the one that was found. Symbol: SafeRpcConnPools.Call. *)
Definition call_finish (addr conn : string) (e : call_end) (M : gmap string Pooled) : gmap string Pooled :=
  alter (match e with InTime false => Release conn | _ => ForceClose conn end) addr M.
(** Source: common/backend_pool/rpc_backends.go, SafeRpcConnPools.Call. A call that no other comes between: whether it succeeds. *)
Definition Call (addr : string) (dialled : bool) (unix : Z) (e : call_end) (M : gmap string Pooled) : bool * gmap string Pooled :=
  match call_begin addr dialled unix M with
  | (None, M) => (false, M)
  | (Some conn, M) => (match e with InTime false => true | _ => false end, call_finish addr conn e M)
  end.

(** Source: common/backend_pool/tsdb_backends.go, newTsdbConnPool. *)
Definition newTsdbConnPool (maxConns maxIdle : Z) : Pooled := mkPooled (NewConnPool "tsdb" (wrap32 maxConns) (wrap32 maxIdle)) ∅.
(** Source: common/backend_pool/tsdb_backends.go, TsdbConnPoolHelper.Send. A call of the one pool that no other comes between. *)
Definition TsdbSend (dialled : bool) (unix : Z) (e : call_end) (w : Pooled) : bool * Pooled :=
  match ConnPool_Fetch dialled unix w with
  | (None, w) => (false, w)
  | (Some conn, w) => match e with InTime false => (true, Release conn w) | _ => (false, ForceClose conn w) end
  end.

(** The pools, and the calls under way with their connections. *)
Record Pools := mkPools { pools_of : gmap string Pooled; under_way : list (string * string) }.
(** A goroutine begins a call, or one under way ends. *)
Inductive pools_op := CallBegins (addr : string) (dialled : bool) (unix : Z) | CallEnds (k : nat) (e : call_end).
Definition take_turn (o : pools_op) (s : Pools) : Pools :=
  match o with
  | CallBegins addr dialled unix =>
      let '(conn, M) := call_begin addr dialled unix (pools_of s) in
      mkPools M (match conn with Some conn => (addr, conn) :: under_way s | None => under_way s end)
  | CallEnds k e =>
      match under_way s !! k with
      | Some (addr, conn) => mkPools (call_finish addr conn e (pools_of s)) (delete k (under_way s))
      | None => s
      end
  end.
Definition run_calls (l : list pools_op) (s : Pools) : Pools := fold_left (fun s o => take_turn o s) l s.
