(* ===== verification/PoolsThms.v ===== *)
(** What the pools of connections hold, however the calls of goroutines
    interleave ([pools_hold]), and how many calls a server that is started again
    can cost ([restart_heals]). *)
From S2P Require Import Prelude GoStr.
From S2P Require Export Pools.
From Stdlib Require Import Ascii.
Local Open Scope string_scope.

Definition in_i32 (z : Z) : Prop := (- 2 ^ 31 <= z < 2 ^ 31)%Z.
Lemma wrap32_id z : in_i32 z -> wrap32 z = z.
Proof. unfold in_i32, wrap32. intros. rewrite Z.mod_small; lia. Qed.
Lemma wrap32_range z : in_i32 (wrap32 z).
Proof. unfold in_i32, wrap32. pose proof (Z.mod_pos_bound (z + 2 ^ 31) (2 ^ 32) eq_refl). lia. Qed.

(** The count is read off a name. *)
Lemma conn_name_inj addr k u k' u' : in_i64 k -> in_i64 k' -> conn_name addr k u = conn_name addr k' u' -> k = k'.
Proof.
  intros Hk Hk' E. unfold conn_name in E. apply sapp_cancel in E. injection E as E. apply itoa_inj; [done..|].
  apply (f_equal (cut "_"%char)) in E. change ("_" ++s itoa u) with (String "_" (itoa u)) in E. change ("_" ++s itoa u') with (String "_" (itoa u')) in E.
  rewrite !cut_app in E by (apply itoa_has; done). by injection E.
Qed.

(** * The invariant *)

Section limits.
Context (maxConns maxIdle : Z).

(** The connections a pool gave and has not back. *)
Definition held_in (addr : string) (l : list (string * string)) : list string := (filter (fun p => p.1 = addr) l).*2.
#[global] Arguments held_in : simpl never.
Definition held (addr : string) (s : Pools) : list string := held_in addr (under_way s).
#[export] Instance held_in_perm addr : Proper (Permutation ==> Permutation) (held_in addr).
Proof. intros l l' Hp. unfold held_in. by rewrite Hp. Qed.
Lemma held_in_cons addr a c l : held_in addr ((a, c) :: l) = if decide (a = addr) then c :: held_in addr l else held_in addr l.
Proof. unfold held_in. rewrite filter_cons. cbn. by destruct (decide (a = addr)). Qed.

(** A pool between the steps of the calls, of which these connections are under way. *)
Record pool_ok (addr : string) (w : Pooled) (l : list string) : Prop := mkOk {
  ok_nodup : NoDup (l ++ free (pool w));
  ok_all : all (pool w) = list_to_set (l ++ free (pool w));
  ok_sockets : sockets w = all (pool w);
  ok_active : active (pool w) = Z.of_nat (length (l ++ free (pool w)));
  ok_max : (active (pool w) <= Z.max 0 (p_MaxConns (pool w)))%Z;
  ok_idle : (Z.of_nat (length (free (pool w))) <= Z.max 0 (p_MaxIdle (pool w)))%Z;
  ok_limits : p_MaxConns (pool w) = wrap32 maxConns /\ p_MaxIdle (pool w) = wrap32 maxIdle;
  ok_name : p_Name (pool w) = addr;
  ok_cnt : (0 <= p_Cnt (pool w))%Z;
  ok_names : forall c, c ∈ (l ++ free (pool w))%list -> exists k u, c = conn_name addr k u /\ (0 <= k < p_Cnt (pool w))%Z }.

Lemma pool_ok_perm addr w l l' : l ≡ₚ l' -> pool_ok addr w l -> pool_ok addr w l'.
Proof.
  intros Hp []. split; try done; try (by rewrite <- Hp).
  intros c Hc. apply ok_names0. by rewrite Hp.
Qed.

Lemma pool_ok_new addr : pool_ok addr (mkPooled (NewConnPool addr (wrap32 maxConns) (wrap32 maxIdle)) ∅) [].
Proof. split; cbn; try done; try lia; [constructor|by intros c ?%elem_of_nil]. Qed.

(** What is fetched is a connection nobody holds. *)
Lemma pool_ok_fetch addr w l dialled unix conn w' : pool_ok addr w l -> (p_Cnt (pool w) < 2 ^ 63 - 1)%Z -> ConnPool_Fetch dialled unix w = (conn, w') ->
  pool_ok addr w' (match conn with Some c => c :: l | None => l end) /\ (p_Cnt (pool w') <= p_Cnt (pool w) + 1)%Z.
Proof.
  intros Hok Hcnt. unfold ConnPool_Fetch, fetchFree. destruct (free (pool w)) as [|c fr] eqn:Ef.
  - unfold overMax. destruct (Z.leb_spec (p_MaxConns (pool w)) (active (pool w))); [intros [= <- <-]; split; [done|lia]|].
    unfold newConn. destruct dialled; [|intros [= <- <-]; split; [done|lia]]. intros [= <- <-]. destruct Hok as [Hnd Hall Hso Hac Hmx Hid [Hm Hi] Hn Hc Hns].
    assert (in_i32 (p_MaxConns (pool w)) /\ in_i32 (p_MaxIdle (pool w))) as [Hm' Hi'] by (rewrite Hm, Hi; split; apply wrap32_range).
    rewrite Ef in *. rewrite app_nil_r in *. subst addr. set (name := conn_name (p_Name (pool w)) (p_Cnt (pool w)) unix).
    assert (name ∉ l) as Hfr.
    { intros Hin. destruct (Hns _ Hin) as (k & u & E & Hk). unfold name in E. apply conn_name_inj in E; unfold in_i64; lia. }
    assert (wrap32 (active (pool w) + 1) = active (pool w) + 1)%Z as Ea by (apply wrap32_id; unfold in_i32 in *; lia).
    assert (p_Cnt (pool w) +! 1 = p_Cnt (pool w) + 1)%Z as Ec by (apply wrap64_id; unfold in_i64; lia).
    split; cbn; [|lia]. split; cbn; rewrite ?Ef, ?app_nil_r, ?Ea, ?Ec; fold name.
    + by constructor.
    + rewrite Hall. set_solver.
    + by rewrite Hso.
    + lia.
    + lia.
    + done.
    + done.
    + done.
    + lia.
    + intros c [->|Hin]%elem_of_cons; [exists (p_Cnt (pool w)), unix; split; [done|lia]|]. destruct (Hns _ Hin) as (k & u & -> & Hk). exists k, u. split; [done|lia].
  - intros [= <- <-]. split; [|cbn; lia]. destruct Hok as [Hnd Hall Hso Hac Hmx Hid Hl Hn Hc Hns]. rewrite Ef in *.
    assert ((c :: l) ++ fr ≡ₚ l ++ c :: fr)%list as Hp by (cbn; apply Permutation_middle).
    split; cbn; try done.
    + by rewrite Hp.
    + rewrite Hall. set_solver.
    + rewrite Hac. by rewrite <- Hp.
    + cbn in Hid. lia.
    + intros x Hx. apply Hns. rewrite <- Hp. done.
Qed.

Lemma pool_ok_close addr w conn l : pool_ok addr w (conn :: l) -> pool_ok addr (ForceClose conn w) l.
Proof.
  intros [Hnd Hall Hso Hac Hmx Hid [Hm Hi] Hn Hc Hns]. assert (in_i32 (p_MaxConns (pool w)) /\ in_i32 (p_MaxIdle (pool w))) as [Hm' Hi'] by (rewrite Hm, Hi; split; apply wrap32_range).
  apply NoDup_cons in Hnd as [Hnew Hnd].
  assert (wrap32 (active (pool w) - 1) = active (pool w) - 1)%Z as Ea by (apply wrap32_id; cbn in Hac; unfold in_i32 in *; lia).
  assert (all (pool w) ∖ {[conn]} = list_to_set (l ++ free (pool w))) as Es by (rewrite Hall; cbn in *; set_solver).
  split; cbn; rewrite ?Ea; try done; try (by rewrite Hso); [cbn in Hac; lia|lia|].
  intros c Hin. apply Hns. by right.
Qed.
Lemma pool_ok_release addr w conn l : pool_ok addr w (conn :: l) -> pool_ok addr (Release conn w) l.
Proof.
  intros Hok. unfold Release, overMaxIdle. pose proof Hok as [Hnd Hall Hso Hac Hmx Hid [Hm Hi] Hn Hc Hns].
  assert (in_i32 (p_MaxConns (pool w)) /\ in_i32 (p_MaxIdle (pool w))) as [Hm' Hi'] by (rewrite Hm, Hi; split; apply wrap32_range).
  rewrite wrap32_id by (unfold in_i32 in *; lia). destruct (Z.leb_spec (p_MaxIdle (pool w)) (Z.of_nat (length (free (pool w))))); [by apply pool_ok_close|].
  assert ((conn :: l) ++ free (pool w) ≡ₚ l ++ free (pool w) ++ [conn])%list as Hp by (rewrite app_assoc, <- Permutation_cons_append; done).
  split; cbn; try done.
  - by rewrite <- Hp.
  - rewrite Hall. apply set_eq. intros x. rewrite !elem_of_list_to_set. by rewrite Hp.
  - rewrite Hac. by rewrite Hp.
  - rewrite length_app. cbn. lia.
  - intros x Hx. apply Hns. by rewrite Hp.
Qed.
Lemma cnt_finish w conn e : p_Cnt (pool (match e with InTime false => Release conn w | _ => ForceClose conn w end)) = p_Cnt (pool w).
Proof. destruct e as [[|]|]; try done. unfold Release. by destruct (overMaxIdle _). Qed.

(** The pools after so many steps. *)
Definition pools_ok (n : Z) (s : Pools) : Prop :=
  (forall addr w, pools_of s !! addr = Some w -> pool_ok addr w (held addr s) /\ (p_Cnt (pool w) <= n)%Z) /\
  Forall (fun p => is_Some (pools_of s !! p.1)) (under_way s).

Lemma created cluster : pools_ok 0 (mkPools (CreateSafeRpcConnPools maxConns maxIdle cluster) []).
Proof.
  split; [|constructor]. unfold CreateSafeRpcConnPools. cbn.
  assert (forall addr w, (∅ : gmap string Pooled) !! addr = Some w -> w = mkPooled (NewConnPool addr (wrap32 maxConns) (wrap32 maxIdle)) ∅) as H by (intros ??; by rewrite lookup_empty).
  revert H. generalize (∅ : gmap string Pooled). induction cluster as [|a l IH]; intros M H addr w Hw; cbn in Hw.
  - rewrite (H _ _ Hw). split; [apply pool_ok_new|done].
  - revert Hw. case_bool_decide; apply IH; [done|]. intros b w'. destruct (decide (a = b)) as [->|Hne]; [by rewrite lookup_insert_eq; intros [= <-]|].
    rewrite lookup_insert_ne by done. apply H.
Qed.

Lemma turn_ok n s o : (0 <= n < 2 ^ 63 - 1)%Z -> pools_ok n s -> pools_ok (n + 1) (take_turn o s).
Proof.
  intros Hn [Hp Hu]. assert (pools_ok (n + 1) s) as Hsame by (split; [|done]; intros ?? H; destruct (Hp _ _ H); split; [done|lia]).
  destruct o as [addr dialled unix|k e]; cbn.
  - unfold call_begin. destruct (pools_of s !! addr) as [w|] eqn:Ew; [|by destruct s].
    destruct (Hp _ _ Ew) as [Hok Hc]. destruct (ConnPool_Fetch dialled unix w) as [conn w'] eqn:Ef. apply (pool_ok_fetch addr w (held addr s)) in Ef as [Hok' Hc']; [|done|lia].
    split; cbn.
    + intros b v. destruct (decide (addr = b)) as [<-|Hne].
      * rewrite lookup_insert_eq. intros [= <-]. split; [|lia]. unfold held. destruct conn; cbn; [|done]. by rewrite held_in_cons, decide_True by done.
      * rewrite lookup_insert_ne by done. intros Hv. destruct (Hp _ _ Hv) as [Hb ?]. split; [|lia]. unfold held. destruct conn; cbn; [|done]. by rewrite held_in_cons, decide_False by done.
    + assert (Forall (fun p => is_Some (<[addr := w']> (pools_of s) !! p.1)) (under_way s)) as Hu'.
      { eapply Forall_impl; [exact Hu|]. intros [b c] Hb. cbn in *. destruct (decide (addr = b)) as [<-|Hne]; [rewrite lookup_insert_eq; by eexists|by rewrite lookup_insert_ne]. }
      destruct conn; [|done]. constructor; [|done]. cbn. rewrite lookup_insert_eq. by eexists.
  - destruct (under_way s !! k) as [[addr conn]|] eqn:Ek; [|done]. pose proof (delete_Permutation _ _ _ Ek) as Hperm.
    split; cbn.
    + intros b v. unfold call_finish. destruct (decide (addr = b)) as [<-|Hne].
      * rewrite lookup_alter_eq. intros (w & Ew & ->)%fmap_Some. destruct (Hp _ _ Ew) as [Hok Hc].
        assert (pool_ok addr w (conn :: held_in addr (delete k (under_way s)))) as Hok'.
        { eapply pool_ok_perm; [|exact Hok]. unfold held. rewrite Hperm at 1. by rewrite held_in_cons, decide_True by done. }
        split; [|pose proof (cnt_finish w conn e); destruct e as [[|]|]; lia].
        unfold held. cbn. destruct e as [[|]|]; [by apply pool_ok_close|by apply pool_ok_release|by apply pool_ok_close].
      * rewrite lookup_alter_ne by done. intros Hv. destruct (Hp _ _ Hv) as [Hok Hc]. split; [|lia]. eapply pool_ok_perm; [|exact Hok]. unfold held. cbn.
        rewrite Hperm at 1. by rewrite held_in_cons, decide_False by done.
    + rewrite Hperm in Hu. apply Forall_cons in Hu as [_ Hu]. eapply Forall_impl; [exact Hu|]. intros [b c] Hb. cbn in *. unfold call_finish.
      destruct (decide (addr = b)) as [<-|Hne]; [rewrite lookup_alter_eq; by apply fmap_is_Some|by rewrite lookup_alter_ne].
Qed.

Lemma run_ok l : forall n s, (0 <= n)%Z -> (n + Z.of_nat (length l) < 2 ^ 63)%Z -> pools_ok n s -> pools_ok (n + Z.of_nat (length l)) (run_calls l s).
Proof.
  induction l as [|o l IH]; intros n s Hn Hl Hs; [by rewrite Z.add_0_r|]. cbn [run_calls fold_left length] in *.
  replace (n + Z.of_nat (S (length l)))%Z with (n + 1 + Z.of_nat (length l))%Z by lia. apply IH; [lia|lia|]. apply turn_ok; [lia|done].
Qed.

(** * A server that is started again *)

(** The calls of an address that end badly with one of these connections. *)
Definition bad_end (addr : string) (B : gset string) (o : pools_op) (s : Pools) : bool :=
  match o with
  | CallEnds k e =>
      match under_way s !! k with
      | Some (a, c) => bool_decide (a = addr /\ c ∈ B) && match e with InTime false => false | _ => true end
      | None => false
      end
  | CallBegins _ _ _ => false
  end.
Fixpoint bad_ends (addr : string) (B : gset string) (l : list pools_op) (s : Pools) : nat :=
  match l with [] => 0 | o :: l => (if bad_end addr B o s then 1 else 0) + bad_ends addr B l (take_turn o s) end.

(** Connections of the past: names with lower numbers. *)
Definition of_past (addr : string) (B : gset string) (w : Pooled) : Prop := forall c, c ∈ B -> exists k u, c = conn_name addr k u /\ (0 <= k < p_Cnt (pool w))%Z.

Lemma sockets_fetch addr B w dialled unix conn w' : p_Name (pool w) = addr -> of_past addr B w -> (p_Cnt (pool w) < 2 ^ 63 - 1)%Z -> (0 <= p_Cnt (pool w))%Z ->
  ConnPool_Fetch dialled unix w = (conn, w') -> of_past addr B w' /\ B ∩ sockets w' = B ∩ sockets w.
Proof.
  intros <- HB Hc H0. unfold ConnPool_Fetch, fetchFree. destruct (free (pool w)) as [|c fr]; [|by intros [= <- <-]].
  destruct (overMax (pool w)); [by intros [= <- <-]|]. unfold newConn. destruct dialled; [|by intros [= <- <-]]. intros [= <- <-]. cbn.
  rewrite wrap64_id by (unfold in_i64; lia). split.
  - intros c Hin. destruct (HB _ Hin) as (k & u & -> & Hk). exists k, u. split; [done|]. cbn. lia.
  - assert (conn_name (p_Name (pool w)) (p_Cnt (pool w)) unix ∉ B) as Hnew; [|set_solver].
    intros Hin. destruct (HB _ Hin) as (k & u & E & Hk). apply conn_name_inj in E; unfold in_i64; lia.
Qed.
Lemma sockets_finish B w conn e : B ∩ sockets (match e with InTime false => Release conn w | _ => ForceClose conn w end) ⊆ B ∩ sockets w.
Proof. destruct e as [[|]|]; cbn; [set_solver| |set_solver]. unfold Release. destruct (overMaxIdle _); cbn; set_solver. Qed.

Lemma turn_sockets n s o addr B w : (0 <= n < 2 ^ 63 - 1)%Z -> pools_ok n s -> pools_of s !! addr = Some w -> of_past addr B w ->
  exists w', pools_of (take_turn o s) !! addr = Some w' /\ of_past addr B w' /\
    (if bad_end addr B o s then 1 else 0) + size (B ∩ sockets w') <= size (B ∩ sockets w).
Proof.
  intros Hn [Hp Hu] Ew HB. destruct o as [b dialled unix|k e]; cbn.
  - unfold call_begin. destruct (decide (b = addr)) as [->|Hne].
    + rewrite Ew. destruct (ConnPool_Fetch dialled unix w) as [conn w'] eqn:Ef. destruct (Hp _ _ Ew) as [Hok Hc].
      apply (sockets_fetch addr B) in Ef as [HB' E]; [|by apply Hok|done|lia|by apply Hok]. exists w'. cbn. rewrite lookup_insert_eq, E. done.
    + exists w. destruct (pools_of s !! b) as [v|]; [|done]. destruct (ConnPool_Fetch dialled unix v). cbn. by rewrite lookup_insert_ne.
  - destruct (under_way s !! k) as [[a c]|] eqn:Ek; [|by exists w]. cbn. unfold call_finish. destruct (decide (a = addr)) as [->|Hne].
    + rewrite lookup_alter_eq, Ew. eexists. split; [reflexivity|]. split.
      { intros x Hx. destruct (HB _ Hx) as (j & u & Ej & Hj). exists j, u. split; [done|]. pose proof (cnt_finish w c e). destruct e as [[|]|]; cbn in *; lia. }
      destruct (bool_decide _ && _) eqn:Eb.
      * apply andb_true_iff in Eb as [[_ Hc]%bool_decide_eq_true He]. destruct (Hp _ _ Ew) as [[_ Hall Hso _ _ _ _ _ _ _] _].
        assert (c ∈ sockets w) as Hin.
        { rewrite Hso, Hall, elem_of_list_to_set, elem_of_app. left. unfold held, held_in. apply list_elem_of_fmap. exists (addr, c). split; [done|].
          apply list_elem_of_filter. split; [done|]. by eapply list_elem_of_lookup_2. }
        assert (B ∩ sockets (ForceClose c w) = (B ∩ sockets w) ∖ {[c]}) as E by (cbn; set_solver).
        assert (size ((B ∩ sockets w) ∖ {[c]}) < size (B ∩ sockets w)) by (apply subset_size; set_solver).
        destruct e as [[|]|]; [|done|]; rewrite E; lia.
      * cbn. pose proof (subseteq_size _ _ (sockets_finish B w c e)). destruct e as [[|]|]; done.
    + exists w. rewrite lookup_alter_ne by done. split; [done|]. split; [done|]. rewrite bool_decide_eq_false_2 by tauto. done.
Qed.
Lemma run_sockets l : forall n s addr B w, (0 <= n)%Z -> (n + Z.of_nat (length l) < 2 ^ 63)%Z -> pools_ok n s -> pools_of s !! addr = Some w -> of_past addr B w ->
  exists w', pools_of (run_calls l s) !! addr = Some w' /\ bad_ends addr B l s + size (B ∩ sockets w') <= size (B ∩ sockets w).
Proof.
  induction l as [|o l IH]; intros n s addr B w Hn Hl Hs Ew HB; [by exists w|]. cbn [length] in Hl.
  destruct (turn_sockets n s o addr B w) as (w1 & E1 & HB1 & H1); [lia|done..|].
  destruct (IH (n + 1)%Z (take_turn o s) addr B w1) as (w2 & E2 & H2); [lia|lia|apply turn_ok; [lia|done]|done..|]. exists w2. split; [exact E2|]. cbn [bad_ends]. lia.
Qed.

End limits.

(** C29: However the calls of goroutines to the servers of a cluster interleave, and
    however they end, a connection is in the hands of one call at a time or waits
    in its pool; the sockets that are open are those and no others, never more
    than the limit of the pool, and no more wait than the limit of the idle
    ones. *)
Theorem pools_hold (maxConns maxIdle : Z) (cluster : list string) (l : list pools_op) (addr : string) (w : Pooled) :
  (Z.of_nat (length l) < 2 ^ 63)%Z ->
  let s := run_calls l (mkPools (CreateSafeRpcConnPools maxConns maxIdle cluster) []) in
  pools_of s !! addr = Some w ->
  NoDup (held addr s ++ free (pool w)) /\ sockets w = list_to_set (held addr s ++ free (pool w)) /\
  active (pool w) = Z.of_nat (size (sockets w)) /\ (active (pool w) <= Z.max 0 (wrap32 maxConns))%Z /\
  (Z.of_nat (length (free (pool w))) <= Z.max 0 (wrap32 maxIdle))%Z.
Proof.
  intros Hl s Hw. destruct (run_ok maxConns maxIdle l 0 _ (Z.le_refl 0) Hl (created maxConns maxIdle cluster)) as [Hp _]. destruct (Hp _ _ Hw) as [[Hnd Hall Hso Hac Hmx Hid [Hm Hi] _ _ _] _].
  rewrite <- Hm, <- Hi.
  split; [exact Hnd|]. split; [by rewrite Hso|]. split; [|done]. rewrite Hac, Hso, Hall, size_list_to_set by done. done.
Qed.

(** C30: When the server behind a pool goes away, with every connection that is open
    then, the calls that fail for it are no more than those connections, however
    many follow, from any number of goroutines: each takes one of them out of
    the pool for good, and what is dialled later is not among them.  Calls that
    get no connection, because dialling fails or the pool is full, are not counted. *)
Theorem restart_heals (maxConns maxIdle : Z) (cluster : list string) (before after : list pools_op) (addr : string) (w : Pooled) :
  (Z.of_nat (length before) + Z.of_nat (length after) < 2 ^ 63)%Z ->
  let s := run_calls before (mkPools (CreateSafeRpcConnPools maxConns maxIdle cluster) []) in
  pools_of s !! addr = Some w ->
  exists w', pools_of (run_calls after s) !! addr = Some w' /\
    bad_ends addr (sockets w) after s + size (sockets w ∩ sockets w') <= size (sockets w).
Proof.
  intros Hl s Hw. assert (pools_ok maxConns maxIdle (Z.of_nat (length before)) s) as Hs by (apply (run_ok maxConns maxIdle before 0); [done|lia|apply created]).
  destruct (run_sockets maxConns maxIdle after (Z.of_nat (length before)) s addr (sockets w) w) as (w' & E & H); [lia|lia|done|done| |].
  - destruct Hs as [Hp _]. destruct (Hp _ _ Hw) as [[_ Hall Hso _ _ _ _ _ _ Hns] _]. intros c Hc. apply Hns. rewrite Hso, Hall in Hc. by apply elem_of_list_to_set in Hc.
  - exists w'. split; [exact E|]. replace (sockets w ∩ sockets w) with (sockets w) in H by set_solver. exact H.
Qed.

(** Two calls to one server, one of which the pool has no connection left for; then one of the two fails. *)
Definition demo_calls : list pools_op := [CallBegins "g:1" true 100; CallBegins "g:1" true 100; CallBegins "g:1" true 100; CallEnds 0 (InTime false)].
Definition demo_calls_after : list pools_op := [CallBegins "g:1" true 101; CallEnds 0 (InTime true); CallEnds 0 Late; CallBegins "g:1" true 102; CallEnds 0 (InTime false)].

Lemma pools_hold_witness : exists w,
  let s := run_calls demo_calls (mkPools (CreateSafeRpcConnPools 2 1 ["g:1"]) []) in
  pools_of s !! "g:1" = Some w /\ held "g:1" s = ["g:1_0_100"] /\ free (pool w) = ["g:1_1_100"] /\ (active (pool w) <= 2)%Z.
Proof.
  eexists. cbv zeta. split; [vm_compute; reflexivity|]. split; [vm_compute; reflexivity|]. split; [vm_compute; reflexivity|].
  refine (proj1 (proj2 (proj2 (proj2 (pools_hold 2 1 ["g:1"] demo_calls "g:1" _ _ _))))); [reflexivity|vm_compute; reflexivity].
Defined.

Lemma restart_heals_witness : exists w w',
  let s := run_calls demo_calls (mkPools (CreateSafeRpcConnPools 2 1 ["g:1"]) []) in
  pools_of s !! "g:1" = Some w /\ bad_ends "g:1" (sockets w) demo_calls_after s = 2 /\
  bad_ends "g:1" (sockets w) demo_calls_after s + size (sockets w ∩ sockets w') <= size (sockets w) /\ size (sockets w) = 2.
Proof.
  edestruct (restart_heals 2 1 ["g:1"] demo_calls demo_calls_after "g:1") as (w' & E & H); [reflexivity|vm_compute; reflexivity|].
  eexists _, w'. cbv zeta. split; [vm_compute; reflexivity|]. split; [vm_compute; reflexivity|]. split; [exact H|]. vm_compute. reflexivity.
Defined.

(** A pool that is taken away while a call is under way counts a connection too
    few once the call has ended, and keeps one that is closed. *)
Example destroyed_pool :
  let '(c, w) := ConnPool_Fetch true 1 (mkPooled (NewConnPool "g" 2 1) ∅) in
  let w := match c with Some c => Release c (Destroy w) | None => w end in
  free (pool w) = ["g_0_1"] /\ sockets w = ∅ /\ (active (pool w) = 0)%Z.
Proof. vm_compute. done. Qed.
