(* ===== verification/RpcClients.v ===== *)
(** The single connections of the agent and the judge ([SingleConnRpcClient] of
    [modules/agent/g/rpc.go] and [modules/judge/g/rpc.go]): how each dials, waits
    and dials again, and when it gives a connection up; and the counters of
    [common/proc].

    Whether a dial works is an argument of the number of the round; what is slept
    is counted in seconds.  A method holds the lock of its client. *)
From S2P Require Import Prelude GoStr GoNum.
Local Open Scope string_scope.

(** Seconds slept after a round that failed: [time.Duration(math.Pow(2.0, float64(retry))) * time.Second]. *)
Definition pause (retry : nat) : Z := (2 ^ Z.of_nat retry)%Z.
(** How a call ends, if it does. *)
Inductive reply := Replied | Failed | Hangs.

(** * The agent *)

(** The connection of the client, if it has one: the number of the dial that made it. *)
Definition rpcClient := option nat.
(** Source: modules/agent/g/rpc.go, lines 53-69. The loop: at the [retry]-th dial; whether it ends without an error, with what is slept; [None] when it needs more fuel. Symbol: SingleConnRpcClient.serverConn. *)
Fixpoint dial_loop (fuel : nat) (dial : nat -> bool) (retry : nat) (slept : Z) : option (bool * rpcClient * Z) :=
  match fuel with
  | 0 => None
  | S fuel =>
      if dial retry then Some (true, Some retry, slept)
      else if (3 <? retry)%nat then Some (false, None, slept)
      else dial_loop fuel dial (retry + 1)%nat (slept + pause retry)%Z
  end.
(** Source: modules/agent/g/rpc.go, SingleConnRpcClient.serverConn. *)
Definition serverConn (dial : nat -> bool) (c : rpcClient) : option (bool * rpcClient * Z) :=
  match c with Some _ => Some (true, c, 0%Z) | None => dial_loop 4 dial 1 0 end.
(** Source: modules/agent/g/rpc.go, SingleConnRpcClient.Call. Whether it succeeds; a call that hangs is given up after ten seconds. *)
Definition agent_Call (dial : nat -> bool) (r : reply) (c : rpcClient) : option (bool * rpcClient * Z) :=
  '(ok, c, slept) ← serverConn dial c;
  Some (if (ok : bool) then
          match r with
          | Replied => (true, c, slept)
          | Failed => (false, None, slept)
          | Hangs => (false, None, (slept + 10)%Z)
          end
        else (false, c, slept)).

(** * The judge *)

(** Source: modules/judge/g/rpc.go, lines 48-69. The rounds: every server in turn, then a pause; the server that answers and what is slept. Symbol: SingleConnRpcClient.insureConn. *)
Fixpoint dial_rounds (fuel : nat) (servers : list string) (dial : nat -> string -> bool) (round retry : nat) (slept : Z) : option (string * Z) :=
  match fuel with
  | 0 => None
  | S fuel =>
      match List.find (dial round) servers with
      | Some s => Some (s, slept)
      | None =>
          let retry := if (6 <? retry)%nat then 1 else retry in
          dial_rounds fuel servers dial (round + 1)%nat (retry + 1)%nat (slept + pause retry)%Z
      end
  end.
(** Source: modules/judge/g/rpc.go, SingleConnRpcClient.insureConn. *)
Definition insureConn (fuel : nat) (servers : list string) (dial : nat -> string -> bool) (c : option string) : option (string * Z) :=
  match c with Some s => Some (s, 0%Z) | None => dial_rounds fuel servers dial 0 1 0 end.
(** Source: modules/judge/g/rpc.go, SingleConnRpcClient.Call. [None]: it waits for ever, holding the lock, for a server or for a reply that does not come. *)
Definition judge_Call (fuel : nat) (servers : list string) (dial : nat -> string -> bool) (r : reply) (c : option string) : option (bool * option string * Z) :=
  '(s, slept) ← insureConn fuel servers dial c;
  match r with
  | Replied => Some (true, Some s, slept)
  | Failed => Some (false, None, slept)
  | Hangs => None
  end.

(** The pause after the [k]-th round that failed. *)
Definition pause_of (k : nat) : Z := pause (k mod 6 + 1).
Definition paused (n : nat) : Z := fold_right (fun k t => (pause_of k + t)%Z) 0%Z (seq 0 n).

(** The counter of the rounds comes round after six. *)
Definition at_round (k retry : nat) : Prop := retry = k mod 6 + 1 \/ (k mod 6 = 0 /\ retry = 7).
Lemma retry_round k retry : at_round k retry -> (if (6 <? retry)%nat then 1 else retry) = k mod 6 + 1.
Proof.
  pose proof (Nat.mod_upper_bound k 6). intros [->|[-> ->]]; [|done]. destruct (Nat.ltb_spec 6 (k mod 6 + 1)); lia.
Qed.
Lemma retry_next k : at_round (k + 1) (k mod 6 + 1 + 1).
Proof.
  unfold at_round. pose proof (Nat.div_mod k 6). pose proof (Nat.mod_upper_bound k 6). pose proof (Nat.div_mod (k + 1) 6). pose proof (Nat.mod_upper_bound (k + 1) 6). lia.
Qed.

Lemma rounds_connect servers dial s n : forall fuel k retry slept, n < fuel -> at_round k retry ->
  (forall i s, i < n -> s ∈ servers -> dial (k + i) s = false) -> List.find (dial (k + n)) servers = Some s ->
  dial_rounds fuel servers dial k retry slept = Some (s, slept + fold_right (fun k t => (pause_of k + t)%Z) 0%Z (seq k n))%Z.
Proof.
  induction n as [|n IH]; intros [|fuel] k retry slept Hf Hr Hd Hs; try lia; cbn [dial_rounds].
  - rewrite Nat.add_0_r in Hs. rewrite Hs. by rewrite Z.add_0_r.
  - destruct (List.find (dial k) servers) as [x|] eqn:E.
    { apply find_some in E as [Hin E]. rewrite <- (Nat.add_0_r k), Hd in E; [done|lia|by apply list_elem_of_In]. }
    rewrite (retry_round k retry Hr), IH; [|lia|apply retry_next| |by rewrite <- Nat.add_assoc].
    + cbn [seq fold_right]. rewrite !(Nat.add_1_r k). do 2 f_equal. symmetry. apply Z.add_assoc.
    + intros i x Hi Hx. rewrite <- Nat.add_assoc. apply Hd; [lia|done].
Qed.

Lemma paused_S n : paused (S n) = (paused n + pause_of n)%Z.
Proof.
  unfold paused. rewrite seq_S, fold_right_app. cbn [fold_right Nat.add]. generalize (seq 0 n). intros l. induction l as [|x l IH]; cbn; [lia|]. rewrite IH. lia.
Qed.
Lemma paused_closed n : paused n = (126 * Z.of_nat (n / 6) + 2 ^ Z.of_nat (n mod 6 + 1) - 2)%Z.
Proof.
  induction n as [|n IH]; [done|]. rewrite paused_S, IH. unfold pause_of, pause.
  pose proof (Nat.mod_upper_bound n 6). pose proof (Nat.div_mod n 6). pose proof (Nat.mod_upper_bound (S n) 6). pose proof (Nat.div_mod (S n) 6).
  destruct (decide (n mod 6 = 5)) as [E|E].
  - assert (S n mod 6 = 0) as -> by lia. assert (S n / 6 = S (n / 6)) as -> by lia. rewrite E. cbn -[Z.mul]. lia.
  - assert (S n mod 6 = S (n mod 6)) as -> by lia. assert (S n / 6 = n / 6) as -> by lia.
    replace (Z.of_nat (S (n mod 6) + 1)) with (Z.succ (Z.of_nat (n mod 6 + 1))) by lia. rewrite Z.pow_succ_r by lia. lia.
Qed.

(** The judge gets its connection to hbs as soon as a server answers: in the
    first round in which one does, to the first of them in the order of the
    configuration, after the pauses of the rounds before: two seconds, four, to sixty-four, and
    from two again, which are 126 seconds for every six rounds. *)
Theorem judge_connects (servers : list string) (dial : nat -> string -> bool) (n fuel : nat) (s : string) :
  n < fuel -> (forall i s, i < n -> s ∈ servers -> dial i s = false) -> List.find (dial n) servers = Some s ->
  insureConn fuel servers dial None = Some (s, 126 * Z.of_nat (n / 6) + 2 ^ Z.of_nat (n mod 6 + 1) - 2)%Z.
Proof. intros Hf Hd Hs. rewrite <- paused_closed. unfold insureConn. rewrite (rounds_connect servers dial s n); [done|done|by left|done|done]. Qed.

Lemma judge_connects_witness : insureConn 9 ["a"; "b"] (fun i s => Nat.eqb i 7 && String.eqb s "b") None = Some ("b", 128)%Z.
Proof.
  apply (judge_connects ["a"; "b"] (fun i s => Nat.eqb i 7 && String.eqb s "b") 7 9 "b"); [lia| |reflexivity].
  intros i s Hi _. destruct (Nat.eqb_spec i 7); [lia|done].
Defined.

(** Without a server in its list, and with none that answers, it never does. *)
Lemma judge_waits servers dial fuel : (forall i s, s ∈ servers -> dial i s = false) -> insureConn fuel servers dial None = None.
Proof.
  intros Hd. unfold insureConn. generalize 0 at 1, 1 at 1, 0%Z. induction fuel as [|fuel IH]; intros k retry slept; [done|]. cbn.
  destruct (List.find (dial k) servers) as [s|] eqn:E; [|apply IH]. apply find_some in E as [Hin E]. rewrite Hd in E; [done|by apply list_elem_of_In].
Qed.
(** The agent gives up at the fourth dial, after fourteen seconds. *)
Lemma agent_gives_up dial : (forall i, dial i = false) -> serverConn dial None = Some (false, None, 14)%Z.
Proof. intros Hd. cbn. by rewrite !Hd. Qed.
Lemma agent_call_ends dial r c : exists ok c' slept, agent_Call dial r c = Some (ok, c', slept) /\ (slept <= 24)%Z /\ (ok = false -> c' = None).
Proof.
  unfold agent_Call, serverConn. destruct c as [k|]; cbn.
  - destruct r; eexists _, _, _; (split; [reflexivity|]); split; try lia; done.
  - destruct (dial 1), (dial 2), (dial 3), (dial 4), r; cbn; eexists _, _, _; (split; [reflexivity|]); split; try lia; done.
Qed.

(** * Counters ([common/proc/proc.go]) *)

Section counters.
Context {V : Type}.
Definition DefaultOtherMaxSize : nat := 100.
Definition DefaultSCounterQpsPeriod : Z := 1.

(** Source: common/proc/proc.go, type SCounterBase. The text of the time is that of [cb_ts]. *)
Record SCounterBase := mkBase { cb_Name : string; cb_Cnt : Z; cb_ts : Z; cb_Other : gmap string V }.
(** Source: common/proc/proc.go, NewSCounterBase. *)
Definition NewSCounterBase (name : string) (now : Z) : SCounterBase := mkBase name 0 now ∅.
(** Source: common/proc/proc.go, SCounterBase.SetCnt. *)
Definition SetCnt (cnt now : Z) (c : SCounterBase) : SCounterBase := mkBase (cb_Name c) cnt now (cb_Other c).

(** What both kinds of counters do with a field of one's own: there is room for a hundred. *)
Definition put_other (key : string) (value : V) (m : gmap string V) : bool * gmap string V :=
  if bool_decide (is_Some (m !! key)) || (size m <? DefaultOtherMaxSize)%nat then (true, <[key := value]> m) else (false, m).
(** Source: common/proc/proc.go, SCounterBase.PutOther. *)
Definition BasePutOther (key : string) (value : V) (c : SCounterBase) : bool * SCounterBase :=
  let '(r, m) := put_other key value (cb_Other c) in (r, mkBase (cb_Name c) (cb_Cnt c) (cb_ts c) m).

(** Source: common/proc/proc.go, type SCounterQps. *)
Record SCounterQps := mkQps { cq_Name : string; cq_Cnt : Z; cq_Qps : Z; cq_ts : Z; lastTs : Z; lastCnt : Z; cq_Other : gmap string V }.
(** Source: common/proc/proc.go, NewSCounterQps. *)
Definition NewSCounterQps (name : string) (now : Z) : SCounterQps := mkQps name 0 0 now now 0 ∅.
(** Source: common/proc/proc.go, SCounterQps.incrByDirty. The divisor is above zero, or has wrapped. *)
Definition incrByDirty (incr now : Z) (c : SCounterQps) : res SCounterQps :=
  let cnt := (cq_Cnt c +! incr)%Z in
  if (DefaultSCounterQpsPeriod <? now -! lastTs c)%Z then
    let! qps := go_quot (cnt -! lastCnt c) (now -! lastTs c) in
    Ret (mkQps (cq_Name c) cnt qps now now cnt (cq_Other c))
  else Ret (mkQps (cq_Name c) cnt (cq_Qps c) now (lastTs c) (lastCnt c) (cq_Other c)).
(** Source: common/proc/proc.go, SCounterQps.Get. *)
Definition QpsGet (now : Z) (c : SCounterQps) : res SCounterQps := incrByDirty 0 now c.
(** Source: common/proc/proc.go, SCounterQps.IncrBy. *)
Definition IncrBy (incr now : Z) (c : SCounterQps) : res SCounterQps := incrByDirty incr now c.
(** Source: common/proc/proc.go, SCounterQps.Incr. *)
Definition Incr (now : Z) (c : SCounterQps) : res SCounterQps := IncrBy 1 now c.
(** Source: common/proc/proc.go, SCounterQps.PutOther. *)
Definition QpsPutOther (key : string) (value : V) (c : SCounterQps) : bool * SCounterQps :=
  let '(r, m) := put_other key value (cq_Other c) in (r, mkQps (cq_Name c) (cq_Cnt c) (cq_Qps c) (cq_ts c) (lastTs c) (lastCnt c) m).

Lemma put_other_bounded key value m : size m <= DefaultOtherMaxSize -> size (put_other key value m).2 <= DefaultOtherMaxSize.
Proof using Type.
  unfold put_other. intros H. case_bool_decide as E; cbn [orb snd].
  - destruct E as [v E]. by rewrite map_size_insert_Some by (by exists v).
  - apply eq_None_not_Some in E. destruct (Nat.ltb_spec (size m) DefaultOtherMaxSize); cbn; [|done].
    rewrite map_size_insert_None by done. lia.
Qed.
(** No increment is ever lost, the division never fails. *)
Lemma incr_counts incr now c : exists c', incrByDirty incr now c = Ret c' /\ cq_Cnt c' = (cq_Cnt c +! incr)%Z /\ cq_ts c' = now.
Proof using Type.
  unfold incrByDirty. destruct (Z.ltb_spec DefaultSCounterQpsPeriod (now -! lastTs c)); [|by eexists].
  unfold go_quot. destruct (Z.eqb_spec (now -! lastTs c) 0) as [E|]; [unfold DefaultSCounterQpsPeriod in *; lia|]. by eexists.
Qed.
(** A rate is the average since the last. *)
Lemma qps_average incr now c c' : incrByDirty incr now c = Ret c' -> in_i64 (cq_Cnt c + incr) -> in_i64 (now - lastTs c) -> (1 < now - lastTs c)%Z ->
  (0 <= lastCnt c <= cq_Cnt c + incr)%Z -> (cq_Qps c' * (now - lastTs c) <= cq_Cnt c' - lastCnt c < (cq_Qps c' + 1) * (now - lastTs c))%Z.
Proof using Type.
  intros H Hc Ht Hn Hl. unfold incrByDirty in H. rewrite !(wrap64_id (now - lastTs c)), (wrap64_id (cq_Cnt c + incr)) in H by done. unfold DefaultSCounterQpsPeriod in H.
  destruct (Z.ltb_spec 1 (now - lastTs c)); [|lia]. unfold go_quot in H. destruct (Z.eqb_spec (now - lastTs c) 0); [lia|]. cbn in H. injection H as <-. cbn.
  rewrite (wrap64_id (_ - lastCnt c)) by (unfold in_i64 in *; lia). rewrite Z.quot_div_nonneg by lia.
  pose proof (Z.div_mod (cq_Cnt c + incr - lastCnt c) (now - lastTs c)). pose proof (Z.mod_pos_bound (cq_Cnt c + incr - lastCnt c) (now - lastTs c)).
  rewrite wrap64_id; [nia|]. pose proof (Z.div_le_upper_bound (cq_Cnt c + incr - lastCnt c) (now - lastTs c) (cq_Cnt c + incr - lastCnt c)).
  pose proof (Z.div_pos (cq_Cnt c + incr - lastCnt c) (now - lastTs c)). unfold in_i64 in *. nia.
Qed.
End counters.
