(* ===== verification/AgentSync.v ===== *)
(** The agent ([modules/agent]): what it keeps in step with hbs (the metrics
    it is asked for, the plugins it runs, the addresses it trusts) and what it
    does to the metrics it collects before it sends them.

    A round of each loop is a function; the answers of hbs, the directory of
    the plugins, the values that are collected, the clock and the walks of maps
    are arguments. *)
From S2P Require Export HbsAgents.
From S2P Require Import Prelude GoStr.
From Stdlib Require Import Ascii.
Local Open Scope string_scope.

(** * The metrics hbs asks for *)

Definition URL_CHECK_HEALTH : string := "url.check.health".
Definition NET_PORT_LISTEN : string := "net.port.listen".
Definition DU_BS : string := "du.bs".
Definition PROC_NUM : string := "proc.num".

(** The variables of [modules/agent/g/var.go] that say what to look at. *)
Record Reported := mkReported {
  reportUrls : gmap string string;
  reportPorts : list Z;
  reportProcs : gmap string (gmap Z string);
  duPaths : list string }.

(** [strings.HasPrefix(s, p)] and [s[len(p):]]. *)
Definition after_prefix (p s : string) : option string :=
  if String.prefix p s then Some (String.substring (String.length p) (String.length s - String.length p) s) else None.

(** Source: modules/agent/cron/builtin.go, lines 77-141. What one metric adds. Symbol: syncBuiltinMetrics. *)
Definition read_metric (r : Reported) (metric : BuiltinMetric) : Reported :=
  let tags := bm_Tags metric in
  if String.eqb (bm_Metric metric) URL_CHECK_HEALTH then
    match split tags "," with
    | [a0; a1] =>
        match split a0 "=", split a1 "=" with
        | [_; url], [_; stime] =>
            match parse_int stime 64 with
            | Some _ => mkReported (<[url := stime]> (reportUrls r)) (reportPorts r) (reportProcs r) (duPaths r)
            | None => r
            end
        | _, _ => r
        end
    | _ => r
    end
  else if String.eqb (bm_Metric metric) NET_PORT_LISTEN then
    match split tags "=" with
    | [_; p] =>
        match parse_int p 64 with
        | Some port => mkReported (reportUrls r) (reportPorts r ++ [port])%list (reportProcs r) (duPaths r)
        | None => r
        end
    | _ => r
    end
  else if String.eqb (bm_Metric metric) DU_BS then
    match split tags "=" with
    | [_; path] => mkReported (reportUrls r) (reportPorts r) (reportProcs r) (duPaths r ++ [TrimSpace path])%list
    | _ => r
    end
  else if String.eqb (bm_Metric metric) PROC_NUM then
    let tmpMap := fold_left (fun (m : gmap Z string) a =>
      match after_prefix "name=" a with
      | Some v => <[1%Z := TrimSpace v]> m
      | None => match after_prefix "cmdline=" a with Some v => <[2%Z := TrimSpace v]> m | None => m end
      end) (split tags ",") ∅ in
    mkReported (reportUrls r) (reportPorts r) (<[tags := tmpMap]> (reportProcs r)) (duPaths r)
  else r.
Definition read_metrics (l : list BuiltinMetric) : Reported := fold_left read_metric l (mkReported ∅ [] ∅ []).

(** The loop's own variables and what it sets. *)
Record BuiltinSync := mkSync { sy_timestamp : Z; sy_checksum : string; sy_reported : Reported }.
Definition sync_start (r : Reported) : BuiltinSync := mkSync (-1) "nil" r.

(** Source: modules/agent/cron/builtin.go, syncBuiltinMetrics. One round; [call] is [None] when the call fails. *)
Definition syncBuiltinMetrics (hostname : option string) (call : AgentHeartbeatRequest -> option BuiltinMetricResponse) (s : BuiltinSync) : BuiltinSync :=
  match hostname with
  | None => s
  | Some hostname =>
      match call (mkBeat hostname (sy_checksum s)) with
      | None => s
      | Some resp =>
          if (br_Timestamp resp <=? sy_timestamp s)%Z then s
          else if String.eqb (br_Checksum resp) (sy_checksum s) then s
          else mkSync (br_Timestamp resp) (br_Checksum resp) (read_metrics (br_Metrics resp))
      end
  end.

(** * Plugins *)

(** Source: modules/agent/plugins/plugins.go, type Plugin. *)
Record Plugin := mkPlugin { pl_FilePath : string; pl_MTime : Z; pl_Cycle : Z }.
(** The plugins and the schedulers that run, by path. *)
Record PluginState := mkPlugins { Plugins : gmap string Plugin; PluginsWithScheduler : gmap string Plugin }.
Notation A := (M PluginState).

(** Source: modules/agent/plugins/reader.go, ListPlugins. [dir] lists the files of a directory that is one: name, whether a directory, time of change; the path is as [filepath.Join] leaves it. *)
Definition ListPlugins (dir : string -> option (list (string * bool * Z))) (relativePath : string) : gmap string Plugin :=
  if String.eqb relativePath "" then ∅
  else
    match dir relativePath with
    | None => ∅
    | Some fs =>
        fold_left (fun ret '(filename, isdir, mtime) =>
          if isdir : bool then ret
          else
            match split filename "_" with
            | a0 :: _ :: _ =>
                match atoi a0 with
                | Some cycle => let fpath := relativePath ++s "/" ++s filename in <[fpath := mkPlugin fpath mtime cycle]> ret
                | None => ret
                end
            | _ => ret
            end) fs ∅
    end.

(** Source: modules/agent/plugins/plugins.go, deletePlugin. *)
Definition deletePlugin (key : string) : A unit :=
  modify (fun s => mkPlugins (delete key (Plugins s)) (delete key (PluginsWithScheduler s))).

Section Plugins.
Context (walk : gmap string Plugin -> list (string * Plugin)).

(** Source: modules/agent/plugins/plugins.go, DelNoUsePlugins. *)
Definition DelNoUsePlugins (newPlugins : gmap string Plugin) : A unit :=
  do! ps := gets Plugins in
  forM (walk ps) (fun '(currKey, currPlugin) =>
    match newPlugins !! currKey with
    | Some newPlugin => if (pl_MTime currPlugin =? pl_MTime newPlugin)%Z then skip else deletePlugin currKey
    | None => deletePlugin currKey
    end).

(** Source: modules/agent/plugins/scheduler.go, lines 37-56. A scheduler that is made and started: a ticker of no length panics. Symbol: NewPluginScheduler. *)
Definition start_scheduler (fpath : string) (p : Plugin) : A unit :=
  if (pl_Cycle p <=? 0)%Z then lift (Panic TickerInterval)
  else modify (fun s => mkPlugins (Plugins s) (<[fpath := p]> (PluginsWithScheduler s))).

(** Source: modules/agent/plugins/plugins.go, AddNewPlugins. *)
Definition AddNewPlugins (newPlugins : gmap string Plugin) : A unit :=
  forM (walk newPlugins) (fun '(fpath, newPlugin) =>
    do! cur := gets (fun s => Plugins s !! fpath) in
    if match cur with Some p => (pl_MTime newPlugin =? pl_MTime p)%Z | None => false end then skip
    else
      do! _ := modify (fun s => mkPlugins (<[fpath := newPlugin]> (Plugins s)) (PluginsWithScheduler s)) in
      start_scheduler fpath newPlugin).

(** Source: modules/agent/plugins/plugins.go, ClearAllPlugins. *)
Definition ClearAllPlugins : A unit :=
  do! ps := gets Plugins in forM (walk ps) (fun '(k, _) => deletePlugin k).

(** Source: modules/agent/cron/plugin.go, lines 88-95. The plugins of the directories. Symbol: syncMinePlugins. *)
Definition desired (dir : string -> option (list (string * bool * Z))) (pluginDirs : list string) : gmap string Plugin :=
  fold_left (fun all p =>
    fold_left (fun all '(k, v) => <[k := v]> all) (walk (ListPlugins dir (trim (fun c => Ascii.eqb c "/") p))) all) pluginDirs ∅.

(** Source: modules/agent/cron/plugin.go, lines 84-99. What a round does with the directories of an answer that is newer. Symbol: syncMinePlugins. *)
Definition syncMinePlugins (dir : string -> option (list (string * bool * Z))) (pluginDirs : list string) : A unit :=
  do! _ := if (length pluginDirs =? 0)%nat then ClearAllPlugins else skip in
  do! _ := DelNoUsePlugins (desired dir pluginDirs) in
  AddNewPlugins (desired dir pluginDirs).
End Plugins.

(** * Addresses *)

(** Source: modules/agent/g/var.go, SetTrustableIps. *)
Definition SetTrustableIps (ipStr : string) : list string := split ipStr ",".

(** [strings.LastIndex] of one byte, and what is before it. *)
Fixpoint before_last (c : ascii) (s : string) : option string :=
  match s with
  | "" => None
  | String a t => match before_last c t with Some h => Some (String a h) | None => if Ascii.eqb a c then Some "" else None end
  end.
(** Source: modules/agent/g/var.go, IsTrustable. *)
Definition IsTrustable (ips : list string) (remoteAddr : string) : bool :=
  let ip := match before_last ":" remoteAddr with Some h => if String.eqb h "" then remoteAddr else h | None => remoteAddr end in
  if String.eqb ip "127.0.0.1" then true else bool_decide (ip ∈ ips).

(** * Sending *)

(** Source: modules/agent/cron/collector.go, lines 217-250. A round of the collection, whose functions returned [items]. Symbol: collect. *)
Definition collect (sec : Z) (hostname : option string) (ignoreMetrics : gmap string bool) (items : list (list MetricValue)) (now : Z) : list MetricValue :=
  match hostname with
  | None => []
  | Some hostname =>
      let mvs := filter (fun mv => default false (ignoreMetrics !! mv_Metric mv) = false) (concat items) in
      map (fun mv => mkMetricValue hostname (mv_Metric mv) (mv_Value mv) sec (mv_Type mv) (mv_Tags mv) now) mvs
  end.

(** Source: modules/agent/g/var.go, lines 79-104. The metrics with the default tags; [dt] is the walk of the tags. Symbol: SendToTransfer. *)
Definition add_default_tags (dt : list (string * string)) (metrics : list MetricValue) : list MetricValue :=
  if (length dt =? 0)%nat then metrics
  else
    let default_tags := join "," (map (fun '(k, v) => k ++s "=" ++s v) dt) in
    map (fun x => mkMetricValue (mv_Endpoint x) (mv_Metric x) (mv_Value x) (mv_Step x) (mv_Type x)
      (if String.eqb (mv_Tags x) "" then default_tags else mv_Tags x ++s "," ++s default_tags) (mv_Timestamp x)) metrics.

(** Source: modules/agent/g/transfer.go, SendMetrics. The addresses in the order they are tried, up to the one that takes the metrics. *)
Fixpoint SendMetrics (call : string -> bool) (addrs : list string) : list string * bool :=
  match addrs with
  | [] => ([], false)
  | addr :: addrs => if call addr then ([addr], true) else let '(tried, ok) := SendMetrics call addrs in (addr :: tried, ok)
  end.

(** * The services hbs names *)

(** Source: modules/agent/cron/reporter.go, trimStr. *)
Definition trimStr (str : string) : list string :=
  if String.eqb str "" || String.eqb str "," then []
  else
    let strs := split str "," in
    let strs := match last strs with Some "" => removelast strs | _ => strs end in
    fold_left (fun rets val => if bool_decide (val ∈ rets) then rets else (rets ++ [val])%list) strs [].
