(* ===== verification/AgentThms.v ===== *)
(** The agent follows hbs: the metrics it reports and the plugins it runs are
    those of the last answer. *)
From S2P Require Export AgentSync.
From S2P Require Import Prelude GoStr.
From Stdlib Require Import Ascii.
Local Open Scope string_scope.

(** * The metrics *)

(** The checksum hbs gives a list, and the list as it sends it. *)
Definition digest (l : list BuiltinMetric) : string := if (0 <? length l)%nat then snd (DigestBuiltinMetrics l) else "".

Lemma digest_not_start l : digest l <> "nil".
Proof.
  unfold digest. destruct (0 <? length l)%nat; [|done]. cbn [DigestBuiltinMetrics snd]. intros E.
  apply (f_equal String.length) in E. unfold Md5 in E. rewrite md5_hex_length in E. done.
Qed.
Lemma digest_empty l : digest l = "" -> l = [].
Proof.
  unfold digest. destruct l; [done|]. cbn [length Nat.ltb Nat.leb DigestBuiltinMetrics snd]. intros E.
  apply (f_equal String.length) in E. unfold Md5 in E. by rewrite md5_hex_length in E.
Qed.

(** A round: the clock and the metrics of hbs, or a call that fails. *)
Definition run_round (hostname : string) (s : BuiltinSync) (round : option (Z * (string -> list BuiltinMetric))) : BuiltinSync :=
  syncBuiltinMetrics (Some hostname)
    (fun req => '(now, metrics) ← round; Some (BuiltinMetrics metrics now req (mkBuiltinResp [] "" 0))) s.

(** The rounds whose call succeeds have a clock that goes on. *)
Fixpoint clock_grows (last : Z) (rounds : list (option (Z * (string -> list BuiltinMetric)))) : Prop :=
  match rounds with
  | [] => True
  | None :: rounds => clock_grows last rounds
  | Some (now, _) :: rounds => (last < now)%Z /\ clock_grows now rounds
  end.
(** The lists of a host that its rounds showed. *)
Definition lists_of (hostname : string) (rounds : list (option (Z * (string -> list BuiltinMetric)))) : list (list BuiltinMetric) :=
  omap (fun r => '(_, metrics) ← r; Some (metrics hostname)) rounds.
(** Two lists of the rounds with the same digest are the same, but for their order. *)
Definition no_collision (ls : list (list BuiltinMetric)) : Prop :=
  forall l1 l2, l1 ∈ ls -> l2 ∈ ls -> digest l1 = digest l2 -> sort_builtin l1 = sort_builtin l2.

(** The agent has what the list [l] asks for. *)
Definition follows (s : BuiltinSync) (l : list BuiltinMetric) : Prop :=
  sy_checksum s = digest l /\ sy_reported s = read_metrics (sort_builtin l).

Lemma round_follows hostname s now metrics (ls : list (list BuiltinMetric)) : hostname <> "" -> (sy_timestamp s < now)%Z ->
  metrics hostname ∈ ls -> no_collision ls -> sy_checksum s = "nil" \/ (exists l, l ∈ ls /\ follows s l) ->
  let s' := run_round hostname s (Some (now, metrics)) in follows s' (metrics hostname) /\ (sy_timestamp s' <= now)%Z.
Proof.
  intros Hh Ht Hin Hnc Hs. unfold run_round, syncBuiltinMetrics, BuiltinMetrics. cbn [mbind option_bind hb_Hostname hb_Checksum].
  rewrite (proj2 (String.eqb_neq _ _)) by done. set (l := metrics hostname) in *.
  assert ((if (0 <? length l)%nat then DigestBuiltinMetrics l else (l, "")) = (sort_builtin l, digest l)) as -> by by (unfold digest; destruct l).
  cbn [br_Timestamp br_Checksum br_Metrics]. rewrite (proj2 (Z.leb_gt _ _)) by lia.
  rewrite (String.eqb_sym (digest l)). destruct (String.eqb_spec (sy_checksum s) (digest l)) as [E|E].
  - split; [|lia]. destruct Hs as [Hs|(l0 & Hl0 & Hc & Hr)]; [rewrite Hs in E; by destruct (digest_not_start l)|].
    split; [done|]. rewrite Hr. f_equal. apply Hnc; congruence.
  - split; [|cbn; lia]. by split.
Qed.

(** Whatever the metrics of the host become from round to round, and
    whichever calls fail, after a round that hbs answers the agent looks at
    exactly the URLs, ports, processes and directories its metrics name, even
    when hbs sends none because the checksum has not changed; provided that
    the clock of hbs goes on and no two of its lists have the same digest. *)
Theorem builtin_metrics_followed (hostname : string) (rounds : list (option (Z * (string -> list BuiltinMetric)))) (now : Z)
    (metrics : string -> list BuiltinMetric) (r : Reported) :
  hostname <> "" -> clock_grows (-1) (rounds ++ [Some (now, metrics)]) ->
  no_collision (lists_of hostname (rounds ++ [Some (now, metrics)])) ->
  sy_reported (fold_left (run_round hostname) (rounds ++ [Some (now, metrics)]) (sync_start r)) = read_metrics (sort_builtin (metrics hostname)).
Proof.
  intros Hh. set (all := (rounds ++ [Some (now, metrics)])%list). intros Hc Hnc.
  assert (forall rest ls s last, (sy_timestamp s <= last)%Z -> clock_grows last (rest ++ [Some (now, metrics)]) ->
    no_collision ls -> (forall l, l ∈ lists_of hostname (rest ++ [Some (now, metrics)]) -> l ∈ ls) ->
    sy_checksum s = "nil" \/ (exists l, l ∈ ls /\ follows s l) ->
    sy_reported (fold_left (run_round hostname) (rest ++ [Some (now, metrics)]) s) = read_metrics (sort_builtin (metrics hostname))) as H.
  { clear Hc Hnc. intros rest ls. induction rest as [|[[n ms]|] rest IH]; intros s last Hl Hc Hnc Hin Hs; cbn [app fold_left].
    - destruct Hc as [Hc _]. destruct (round_follows hostname s now metrics ls) as [[_ Hr] _]; try done; [lia|]. apply Hin. by left.
    - destruct Hc as [Hn Hc]. destruct (round_follows hostname s n ms ls) as [Hf Ht]; try done; [lia|apply Hin; by left|].
      apply (IH _ n); try done; [intros l Hl'; apply Hin; by right|]. right. exists (ms hostname). split; [apply Hin; by left|done].
    - by apply (IH _ last). }
  apply (H rounds (lists_of hostname all) _ (-1)%Z); try done. by left.
Qed.

Lemma builtin_metrics_followed_witness :
  let port p := mkBuiltin "net.port.listen" ("port=" ++s p) in
  sy_reported (fold_left (run_round "h1") [Some (10%Z, fun _ => [port "22"]); None; Some (20%Z, fun _ => [])] (sync_start (mkReported ∅ [80%Z] ∅ []))) =
  read_metrics (sort_builtin []).
Proof.
  set (port := mkBuiltin "net.port.listen" "port=22").
  apply (builtin_metrics_followed "h1" [Some (10%Z, fun _ => [port]); None] 20 (fun _ => []) (mkReported ∅ [80%Z] ∅ [])).
  - done.
  - cbn. lia.
  - intros l1 l2 H1 H2 E. change (l1 ∈ [[port]; []]) in H1. change (l2 ∈ [[port]; []]) in H2.
    rewrite !elem_of_cons, elem_of_nil in H1, H2. destruct H1 as [->|[->|[]]], H2 as [->|[->|[]]].
    + reflexivity.
    + apply digest_empty in E. discriminate E.
    + symmetry in E. apply digest_empty in E. discriminate E.
    + reflexivity.
Defined.

(** * The plugins *)

Section Plugins.
Context (walk : gmap string Plugin -> list (string * Plugin)).
Hypothesis walk_all : forall m, walk m ≡ₚ map_to_list m.

(** Every plugin has its scheduler, and none is without. *)
Definition scheduled (s : PluginState) : Prop := PluginsWithScheduler s = Plugins s.

(** Deleting the plugins of a list that [drop] says. *)
Lemma delete_plugins (drop : string -> Plugin -> bool) (body : string * Plugin -> A unit) l s :
  (forall k p, body (k, p) = if drop k p then deletePlugin k else skip) -> scheduled s ->
  exists s', forM l body s = Ret (tt, s') /\ scheduled s' /\
    forall k, Plugins s' !! k = if existsb (fun '(k', p) => String.eqb k k' && drop k' p) l then None else Plugins s !! k.
Proof using Type.
  intros Hb. revert s; induction l as [|[k0 p0] l IH]; intros s Hs; [by exists s|]. cbn [forM existsb]. unfold mthen. rewrite Hb.
  destruct (drop k0 p0) eqn:Ed.
  - cbn [deletePlugin modify]. set (s1 := mkPlugins _ _). assert (scheduled s1) as Hs1 by (unfold scheduled, s1; cbn; by rewrite Hs).
    destruct (IH s1 Hs1) as (s' & E & Hs' & Hp). exists s'. split; [exact E|]. split; [done|]. intros k. rewrite Hp. unfold s1; cbn.
    rewrite andb_true_r. destruct (String.eqb_spec k k0) as [->|Hne]; cbn [orb]; [rewrite lookup_delete_eq; by destruct (existsb _ l)|].
    by rewrite lookup_delete_ne.
  - destruct (IH s Hs) as (s' & E & Hs' & Hp). exists s'. split; [exact E|]. split; [done|]. intros k. rewrite Hp. by rewrite andb_false_r.
Qed.

Lemma existsb_walk (f : string -> Plugin -> bool) (m : gmap string Plugin) k :
  existsb (fun '(k', p) => String.eqb k k' && f k' p) (walk m) = match m !! k with Some p => f k p | None => false end.
Proof using walk_all.
  apply eq_true_iff_eq. rewrite existsb_exists. split.
  - intros ([k' p] & Hin & [->%String.eqb_eq Hf]%andb_true_iff). apply list_elem_of_In in Hin. rewrite walk_all in Hin. apply elem_of_map_to_list in Hin. by rewrite Hin.
  - destruct (m !! k) as [p|] eqn:E; [|done]. intros Hf. exists (k, p). split; [|by rewrite String.eqb_refl].
    apply list_elem_of_In. rewrite walk_all. by apply elem_of_map_to_list.
Qed.

Lemma DelNoUsePlugins_run newPlugins s : scheduled s ->
  exists s', DelNoUsePlugins walk newPlugins s = Ret (tt, s') /\ scheduled s' /\
    forall k, Plugins s' !! k = match Plugins s !! k, newPlugins !! k with
                               | Some p, Some q => if (pl_MTime p =? pl_MTime q)%Z then Some p else None
                               | _, _ => None
                               end.
Proof using walk_all.
  intros Hs. unfold DelNoUsePlugins, mthen, gets.
  destruct (delete_plugins (fun k p => match newPlugins !! k with Some q => negb (pl_MTime p =? pl_MTime q)%Z | None => true end)
    (fun '(k, p) => match newPlugins !! k with Some q => if (pl_MTime p =? pl_MTime q)%Z then skip else deletePlugin k | None => deletePlugin k end)
    (walk (Plugins s)) s) as (s' & E & Hs' & Hp); [|done|].
  - intros k p. destruct (newPlugins !! k); [by destruct (_ =? _)%Z|done].
  - exists s'. split; [exact E|]. split; [done|]. intros k. rewrite Hp, existsb_walk.
    destruct (Plugins s !! k) as [p|]; [|done]. destruct (newPlugins !! k) as [q|]; [|done]. by destruct (_ =? _)%Z.
Qed.

Lemma ClearAllPlugins_run s : scheduled s -> exists s', ClearAllPlugins walk s = Ret (tt, s') /\ scheduled s' /\ forall k, Plugins s' !! k = None.
Proof using walk_all.
  intros Hs. unfold ClearAllPlugins, mthen, gets.
  destruct (delete_plugins (fun _ _ => true) (fun '(k, _) => deletePlugin k) (walk (Plugins s)) s) as (s' & E & Hs' & Hp); [done|done|].
  exists s'. split; [exact E|]. split; [done|]. intros k. rewrite Hp, existsb_walk. by destruct (Plugins s !! k).
Qed.

Lemma AddNewPlugins_run l s : NoDup l.*1 -> (forall k q, (k, q) ∈ l -> (0 < pl_Cycle q)%Z) -> scheduled s ->
  exists s', forM l (fun '(fpath, newPlugin) =>
      do! cur := gets (fun s => Plugins s !! fpath) in
      if match cur with Some p => (pl_MTime newPlugin =? pl_MTime p)%Z | None => false end then skip
      else
        do! _ := modify (fun s => mkPlugins (<[fpath := newPlugin]> (Plugins s)) (PluginsWithScheduler s)) in
        start_scheduler fpath newPlugin) s = Ret (tt, s') /\ scheduled s' /\
    forall k, Plugins s' !! k = match (list_to_map l : gmap string Plugin) !! k with
                               | Some q => Some (match Plugins s !! k with Some p => if (pl_MTime q =? pl_MTime p)%Z then p else q | None => q end)
                               | None => Plugins s !! k
                               end.
Proof using Type.
  revert s; induction l as [|[k0 q0] l IH]; intros s Hnd Hc Hs; [exists s; by rewrite list_to_map_nil|].
  cbn in Hnd. apply NoDup_cons in Hnd as [Hk0 Hnd]. cbn [forM]. unfold mthen at 1. unfold mthen at 1, gets at 1.
  set (s1 := if match Plugins s !! k0 with Some p => (pl_MTime q0 =? pl_MTime p)%Z | None => false end then s
             else mkPlugins (<[k0 := q0]> (Plugins s)) (<[k0 := q0]> (PluginsWithScheduler s))).
  match goal with |- context [match ?e with Ret _ => _ | Panic _ => _ end] => assert (e = Ret (tt, s1)) as -> end.
  { unfold s1. destruct (match Plugins s !! k0 with Some _ => _ | None => _ end); [done|]. unfold mthen, modify, start_scheduler.
    rewrite (proj2 (Z.leb_gt _ _)); [done|]. apply (Hc k0 q0). by left. }
  assert (scheduled s1) as Hs1 by (unfold scheduled, s1; destruct (match Plugins s !! k0 with Some _ => _ | None => _ end); cbn; by rewrite Hs).
  destruct (IH s1 Hnd) as (s' & E & Hs' & Hp); [intros; eapply Hc; by right|done|]. exists s'. split; [exact E|]. split; [done|].
  intros k. rewrite Hp, list_to_map_cons. destruct (decide (k = k0)) as [->|Hne].
  - rewrite (not_elem_of_list_to_map_1 l k0) by done. rewrite lookup_insert_eq. unfold s1.
    destruct (Plugins s !! k0) as [p|] eqn:Ep; [destruct (_ =? _)%Z eqn:Em|]; cbn; by rewrite ?Ep, ?lookup_insert_eq.
  - rewrite lookup_insert_ne by done. assert (Plugins s1 !! k = Plugins s !! k) as ->; [|done].
    unfold s1. destruct (match Plugins s !! k0 with Some _ => _ | None => _ end); cbn; by rewrite ?lookup_insert_ne.
Qed.

(** After a round the agent runs exactly the plugins of the directories hbs
    names, each with one scheduler: those that have not changed go on as they
    are, those that have are replaced, the others are stopped; provided that
    the number a file name begins with is positive, as otherwise the ticker of
    its scheduler panics. *)
Theorem plugins_followed (dir : string -> option (list (string * bool * Z))) (pluginDirs : list string) (s : PluginState) :
  scheduled s -> map_Forall (fun _ q => (0 < pl_Cycle q)%Z) (desired walk dir pluginDirs) ->
  exists s', syncMinePlugins walk dir pluginDirs s = Ret (tt, s') /\ scheduled s' /\
    forall k, Plugins s' !! k = match desired walk dir pluginDirs !! k with
                               | Some q => Some (match Plugins s !! k with Some p => if (pl_MTime q =? pl_MTime p)%Z then p else q | None => q end)
                               | None => None
                               end.
Proof using walk_all.
  intros Hs Hc. unfold syncMinePlugins.
  assert (exists s0, (if (length pluginDirs =? 0)%nat then ClearAllPlugins walk else skip) s = Ret (tt, s0) /\ scheduled s0 /\
    ((desired walk dir pluginDirs = ∅ /\ forall k, Plugins s0 !! k = None) \/ s0 = s)) as (s0 & E0 & Hs0 & H0).
  { destruct pluginDirs as [|d ds]; cbn [length Nat.eqb]; [|exists s; by repeat split; try right].
    destruct (ClearAllPlugins_run s Hs) as (s0 & E & Hs0 & Hp). exists s0. split; [exact E|]. split; [done|]. by left. }
  rewrite (mthen_run _ _ _ _ _ E0). destruct (DelNoUsePlugins_run (desired walk dir pluginDirs) s0 Hs0) as (s1 & E1 & Hs1 & H1).
  rewrite (mthen_run _ _ _ _ _ E1). destruct (AddNewPlugins_run (walk (desired walk dir pluginDirs)) s1) as (s2 & E2 & Hs2 & H2).
  - rewrite walk_all. apply NoDup_fst_map_to_list.
  - intros k q Hin. rewrite walk_all in Hin. apply elem_of_map_to_list in Hin. by apply (Hc k q).
  - done.
  - exists s2. split; [exact E2|]. split; [done|]. intros k. rewrite H2.
    assert (list_to_map (walk (desired walk dir pluginDirs)) = desired walk dir pluginDirs) as ->.
    { rewrite <- (list_to_map_to_list (desired walk dir pluginDirs)) at 2. apply list_to_map_proper; [rewrite walk_all; apply NoDup_fst_map_to_list|apply walk_all]. }
    destruct H0 as [[Hd H0]| ->].
    + rewrite H1, H0, Hd, lookup_empty. done.
    + rewrite H1. destruct (desired walk dir pluginDirs !! k) as [q|], (Plugins s !! k) as [p|]; try done.
      rewrite (Z.eqb_sym (pl_MTime q)). by destruct (_ =? _)%Z eqn:E; rewrite ?E, ?(Z.eqb_sym (pl_MTime q)), ?E.
Qed.
End Plugins.

Lemma plugins_followed_witness :
  exists s', syncMinePlugins map_to_list (fun d => if String.eqb d "sys" then Some [("60_ntp.py", false, 7%Z); ("README", false, 1%Z)] else None) ["/sys/"]
      (mkPlugins {["old/5_x" := mkPlugin "old/5_x" 1 5]} {["old/5_x" := mkPlugin "old/5_x" 1 5]}) = Ret (tt, s') /\
    scheduled s' /\ Plugins s' !! "sys/60_ntp.py" = Some (mkPlugin "sys/60_ntp.py" 7 60) /\ Plugins s' !! "old/5_x" = None.
Proof.
  destruct (plugins_followed map_to_list ltac:(done) (fun d => if String.eqb d "sys" then Some [("60_ntp.py", false, 7%Z); ("README", false, 1%Z)] else None) ["/sys/"]
    (mkPlugins {["old/5_x" := mkPlugin "old/5_x" 1 5]} {["old/5_x" := mkPlugin "old/5_x" 1 5]})) as (s' & E & Hs' & H).
  - done.
  - by_compute.
  - exists s'. split; [exact E|]. split; [exact Hs'|]. split; rewrite H; reflexivity.
Defined.
