(* ===== verification/AgentStats.v ===== *)
(** The agent ([modules/agent/funcs]), its two collectors with a history: the
    use of the processors ([cpustat.go]) and of the disks ([diskstats.go]).

    The files of [/proc] are read by the vendored package [toolkits/nux]; what
    it returns are the records below, with the fields of its structures, and
    they are arguments of the definitions.  The history is the state: the last
    two readings, the newest first.  A counter is a [uint64], so that a counter
    that went back gives a huge difference.

    The value of a metric is [VInt] for every integer type and [VFloat] for
    [float64]. *)
From S2P Require Export Model GoNum.
From S2P Require Import Prelude GoStr.
From Stdlib Require Import Ascii.
Local Open Scope string_scope.

(** * Metrics *)

(** Source: modules/agent/funcs/common.go, NewMetricValue. *)
Definition NewMetricValue (metric : string) (val : value) (dataType : string) (tags : list string) : MetricValue :=
  mkMetricValue "" metric val 0 dataType (if (0 <? length tags)%nat then join "," tags else "") 0.
(** Source: modules/agent/funcs/common.go, GaugeValue. *)
Definition GaugeValue (metric : string) (val : value) (tags : list string) : MetricValue := NewMetricValue metric val "GAUGE" tags.
(** Source: modules/agent/funcs/common.go, CounterValue. *)
Definition CounterValue (metric : string) (val : value) (tags : list string) : MetricValue := NewMetricValue metric val "COUNTER" tags.

(** * What nux reads *)

Record CpuUsage := mkUsage {
  cu_User : Z; cu_Nice : Z; cu_System : Z; cu_Idle : Z; cu_Iowait : Z; cu_Irq : Z; cu_SoftIrq : Z; cu_Steal : Z; cu_Guest : Z; cu_Total : Z }.
(** A processor without a line in [/proc/stat] has a nil pointer. *)
Record ProcStat := mkProcStat { ps_Cpu : option CpuUsage; ps_Cpus : list (option CpuUsage); ps_Ctxt : Z }.
(** [ds_TS] is the time of the reading, in nanoseconds. *)
Record DiskStats := mkDiskStats {
  ds_Device : string; ds_ReadRequests : Z; ds_ReadMerged : Z; ds_ReadSectors : Z; ds_MsecRead : Z; ds_WriteRequests : Z;
  ds_WriteMerged : Z; ds_WriteSectors : Z; ds_MsecWrite : Z; ds_IosInProgress : Z; ds_MsecTotal : Z; ds_MsecWeightedTotal : Z; ds_TS : Z }.

(** The differences of two counters. *)
Definition since (new old : Z) : Z := wrapU (new - old).

(** [float64(n) * q / 100] of [d]: the share the code writes as the product with the inverse. *)
Definition invQuotient (dt : Z) : f64 := fdiv (f64_of_Z 100) (f64_of_Z dt).

(** * The processors *)

(** The variables of [cpustat.go] about the whole host. *)
Record CpuState := mkCpuState { procStatHistory : option ProcStat * option ProcStat; processorNum : Z }.

(** Source: modules/agent/funcs/cpustat.go, UpdateCpuStat. [None] when the reading fails. *)
Definition UpdateCpuStat (reading : option ProcStat) (s : CpuState) : CpuState :=
  match reading with
  | None => s
  | Some ps => mkCpuState (Some ps, fst (procStatHistory s)) (Z.of_nat (length (ps_Cpus ps)))
  end.

Section cpu.
Context (s : CpuState).

(** The readings and what they say of the whole host, which are dereferenced. *)
Definition whole (p : option ProcStat) : res CpuUsage := let! p := deref p in deref (ps_Cpu p).
Definition core (p : option ProcStat) (index : Z) : res CpuUsage :=
  let! p := deref p in let! c := at_index (ps_Cpus p) index in deref c.
Definition cores (p : option ProcStat) : res Z := let! p := deref p in Ret (Z.of_nat (length (ps_Cpus p))).

(** Source: modules/agent/funcs/cpustat.go, deltaTotal. *)
Definition deltaTotal : res Z :=
  match snd (procStatHistory s) with
  | None => Ret 0%Z
  | Some _ =>
      let! new := whole (fst (procStatHistory s)) in
      let! old := whole (snd (procStatHistory s)) in Ret (since (cu_Total new) (cu_Total old))
  end.
(** Source: modules/agent/funcs/cpustat.go, deltaTotalByCore. *)
Definition deltaTotalByCore (index : Z) : res Z :=
  match snd (procStatHistory s) with
  | None => Ret 0%Z
  | Some _ =>
      if (index =? -1)%Z then
        let! new := whole (fst (procStatHistory s)) in
        let! old := whole (snd (procStatHistory s)) in Ret (since (cu_Total new) (cu_Total old))
      else if (index <? -1)%Z then Ret 0%Z
      else
        let! n0 := cores (fst (procStatHistory s)) in
        let! n1 := cores (snd (procStatHistory s)) in
        if (index <? n0)%Z && (index <? n1)%Z then
          let! new := core (fst (procStatHistory s)) index in
          let! old := core (snd (procStatHistory s)) index in Ret (since (cu_Total new) (cu_Total old))
        else Ret 0%Z
  end.

(** The body the functions of the shares of the host repeat, at one field. *)
Definition share (field : CpuUsage -> Z) : res f64 :=
  let! dt := deltaTotal in
  if (dt =? 0)%Z then Ret fzero
  else
    let! new := whole (fst (procStatHistory s)) in
    let! old := whole (snd (procStatHistory s)) in
    Ret (fmul (f64_of_Z (since (field new) (field old))) (invQuotient dt)).
(** The same for one processor. *)
Definition shareByCore (field : CpuUsage -> Z) (index : Z) : res f64 :=
  let! dt := deltaTotalByCore index in
  if (dt =? 0)%Z then Ret fzero
  else
    let! n0 := cores (fst (procStatHistory s)) in
    let! n1 := cores (snd (procStatHistory s)) in
    if (index <? n0)%Z && (index <? n1)%Z then
      let! new := core (fst (procStatHistory s)) index in
      let! old := core (snd (procStatHistory s)) index in
      Ret (fmul (f64_of_Z (since (field new) (field old))) (invQuotient dt))
    else Ret fzero.

(** Source: modules/agent/funcs/cpustat.go, CpuIdle. *)
Definition CpuIdle : res f64 := share cu_Idle.
(** Source: modules/agent/funcs/cpustat.go, CpuIdleByCore. *)
Definition CpuIdleByCore : Z -> res f64 := shareByCore cu_Idle.
(** Source: modules/agent/funcs/cpustat.go, CpuUser. *)
Definition CpuUser : res f64 := share cu_User.
(** Source: modules/agent/funcs/cpustat.go, CpuUserByCore. *)
Definition CpuUserByCore : Z -> res f64 := shareByCore cu_User.
(** Source: modules/agent/funcs/cpustat.go, CpuNice. *)
Definition CpuNice : res f64 := share cu_Nice.
(** Source: modules/agent/funcs/cpustat.go, CpuNiceByCore. *)
Definition CpuNiceByCore : Z -> res f64 := shareByCore cu_Nice.
(** Source: modules/agent/funcs/cpustat.go, CpuSystem. *)
Definition CpuSystem : res f64 := share cu_System.
(** Source: modules/agent/funcs/cpustat.go, CpuSystemByCore. *)
Definition CpuSystemByCore : Z -> res f64 := shareByCore cu_System.
(** Source: modules/agent/funcs/cpustat.go, CpuValidate. *)
Definition CpuValidate (originValue : f64) : f64 := if flt (f64_of_Z 100) originValue then fzero else originValue.
(** Source: modules/agent/funcs/cpustat.go, CpuIowait. *)
Definition CpuIowait : res f64 :=
  let! dt := deltaTotal in
  if (dt =? 0)%Z then Ret fzero
  else
    let! new := whole (fst (procStatHistory s)) in
    let! old := whole (snd (procStatHistory s)) in
    Ret (CpuValidate (fmul (f64_of_Z (since (cu_Iowait new) (cu_Iowait old))) (invQuotient dt))).
(** Source: modules/agent/funcs/cpustat.go, CpuIowaitByCore. *)
Definition CpuIowaitByCore : Z -> res f64 := shareByCore cu_Iowait.
(** Source: modules/agent/funcs/cpustat.go, CpuIrq. *)
Definition CpuIrq : res f64 := share cu_Irq.
(** Source: modules/agent/funcs/cpustat.go, CpuIrqByCore. *)
Definition CpuIrqByCore : Z -> res f64 := shareByCore cu_Irq.
(** Source: modules/agent/funcs/cpustat.go, CpuSoftIrq. *)
Definition CpuSoftIrq : res f64 := share cu_SoftIrq.
(** Source: modules/agent/funcs/cpustat.go, CpuSoftIrqByCore. *)
Definition CpuSoftIrqByCore : Z -> res f64 := shareByCore cu_SoftIrq.
(** Source: modules/agent/funcs/cpustat.go, CpuSteal. *)
Definition CpuSteal : res f64 := share cu_Steal.
(** Source: modules/agent/funcs/cpustat.go, CpuStealByCore. *)
Definition CpuStealByCore : Z -> res f64 := shareByCore cu_Steal.
(** Source: modules/agent/funcs/cpustat.go, CpuGuest. *)
Definition CpuGuest : res f64 := share cu_Guest.
(** Source: modules/agent/funcs/cpustat.go, CpuGuestByCore. *)
Definition CpuGuestByCore : Z -> res f64 := shareByCore cu_Guest.

(** Source: modules/agent/funcs/cpustat.go, CurrentCpuSwitches. *)
Definition CurrentCpuSwitches : res Z := let! p := deref (fst (procStatHistory s)) in Ret (ps_Ctxt p).
(** Source: modules/agent/funcs/cpustat.go, CpuPrepared. *)
Definition CpuPrepared : bool := bool_decide (is_Some (snd (procStatHistory s))).
(** Source: modules/agent/funcs/cpustat.go, getCpus. *)
Definition getCpus : res Z :=
  let! n1 := cores (snd (procStatHistory s)) in
  let! n0 := cores (fst (procStatHistory s)) in
  Ret (if (n0 <? n1)%Z then n0 else n1).

(** Source: modules/agent/funcs/cpustat.go, lines 415-427. The shares of one processor. Symbol: CpuMetrics. *)
Definition core_metrics (i : Z) : res (list MetricValue) :=
  let tag := ["core=core" ++s itoa i] in
  let! cpuIdleVal := CpuIdleByCore i in
  let! user := CpuUserByCore i in
  let! nice := CpuNiceByCore i in
  let! system := CpuSystemByCore i in
  let! iowait := CpuIowaitByCore i in
  let! irq := CpuIrqByCore i in
  let! softirq := CpuSoftIrqByCore i in
  let! steal := CpuStealByCore i in
  let! guest := CpuGuestByCore i in
  Ret [GaugeValue "percore.idle" (VFloat cpuIdleVal) tag;
       GaugeValue "percore.busy" (VFloat (fsub (f64_of_Z 100) cpuIdleVal)) tag;
       GaugeValue "percore.user" (VFloat user) tag; GaugeValue "percore.nice" (VFloat nice) tag;
       GaugeValue "percore.system" (VFloat system) tag; GaugeValue "percore.iowait" (VFloat iowait) tag;
       GaugeValue "percore.irq" (VFloat irq) tag; GaugeValue "percore.softirq" (VFloat softirq) tag;
       GaugeValue "percore.steal" (VFloat steal) tag; GaugeValue "percore.guest" (VFloat guest) tag].

(** Source: modules/agent/funcs/cpustat.go, CpuMetrics. [percore] is the switch of the configuration. *)
Definition CpuMetrics (percore : bool) : res (list MetricValue) :=
  if negb CpuPrepared then Ret []
  else
    let! cpuIdleVal := CpuIdle in
    let! user := CpuUser in
    let! nice := CpuNice in
    let! system := CpuSystem in
    let! iowait := CpuIowait in
    let! irq := CpuIrq in
    let! softirq := CpuSoftIrq in
    let! steal := CpuSteal in
    let! guest := CpuGuest in
    let! switches := CurrentCpuSwitches in
    let! cpuCnt := getCpus in
    let metrics :=
      [GaugeValue "cpu.idle" (VFloat cpuIdleVal) [];
       GaugeValue "cpu.busy" (VFloat (fsub (f64_of_Z 100) cpuIdleVal)) [];
       GaugeValue "cpu.user" (VFloat user) []; GaugeValue "cpu.nice" (VFloat nice) [];
       GaugeValue "cpu.system" (VFloat system) []; GaugeValue "cpu.iowait" (VFloat iowait) [];
       GaugeValue "cpu.irq" (VFloat irq) []; GaugeValue "cpu.softirq" (VFloat softirq) [];
       GaugeValue "cpu.steal" (VFloat steal) []; GaugeValue "cpu.guest" (VFloat guest) [];
       CounterValue "cpu.switches" (VInt switches) []; GaugeValue "host.cpucores" (VInt cpuCnt) []] in
    if percore then
      fold_res (fun metrics i => let! l := core_metrics (Z.of_nat i) in Ret (metrics ++ l)%list) metrics (seq 0 (Z.to_nat cpuCnt))
    else Ret metrics.

(** Source: modules/agent/funcs/cpustat.go, CalculateProcCpuRate. *)
Definition CalculateProcCpuRate (num : Z) : res f64 :=
  let! dt := deltaTotal in
  if (dt =? 0)%Z then Ret fzero
  else Ret (fmul (fmul (f64_of_Z num) (f64_of_Z (processorNum s))) (invQuotient dt)).
End cpu.

(** * The disks *)

(** The last two readings of each device that was ever read. *)
Definition DiskState : Type := gmap string (DiskStats * option DiskStats).

(** Source: modules/agent/funcs/diskstats.go, UpdateDiskStats. *)
Definition UpdateDiskStats (reading : option (list DiskStats)) (s : DiskState) : DiskState :=
  match reading with
  | None => s
  | Some dsList => fold_left (fun (s : DiskState) ds => <[ds_Device ds := (ds, fst <$> s !! ds_Device ds)]> s) dsList s
  end.

(** Source: modules/agent/funcs/diskstats.go, IOReadRequests. *)
Definition IOReadRequests (arr : DiskStats * DiskStats) : Z := since (ds_ReadRequests arr.1) (ds_ReadRequests arr.2).
(** Source: modules/agent/funcs/diskstats.go, IOReadMerged. *)
Definition IOReadMerged (arr : DiskStats * DiskStats) : Z := since (ds_ReadMerged arr.1) (ds_ReadMerged arr.2).
(** Source: modules/agent/funcs/diskstats.go, IOReadSectors. *)
Definition IOReadSectors (arr : DiskStats * DiskStats) : Z := since (ds_ReadSectors arr.1) (ds_ReadSectors arr.2).
(** Source: modules/agent/funcs/diskstats.go, IOMsecRead. *)
Definition IOMsecRead (arr : DiskStats * DiskStats) : Z := since (ds_MsecRead arr.1) (ds_MsecRead arr.2).
(** Source: modules/agent/funcs/diskstats.go, IOWriteRequests. *)
Definition IOWriteRequests (arr : DiskStats * DiskStats) : Z := since (ds_WriteRequests arr.1) (ds_WriteRequests arr.2).
(** Source: modules/agent/funcs/diskstats.go, IOWriteMerged. *)
Definition IOWriteMerged (arr : DiskStats * DiskStats) : Z := since (ds_WriteMerged arr.1) (ds_WriteMerged arr.2).
(** Source: modules/agent/funcs/diskstats.go, IOWriteSectors. *)
Definition IOWriteSectors (arr : DiskStats * DiskStats) : Z := since (ds_WriteSectors arr.1) (ds_WriteSectors arr.2).
(** Source: modules/agent/funcs/diskstats.go, IOMsecWrite. *)
Definition IOMsecWrite (arr : DiskStats * DiskStats) : Z := since (ds_MsecWrite arr.1) (ds_MsecWrite arr.2).
(** Source: modules/agent/funcs/diskstats.go, IOMsecTotal. *)
Definition IOMsecTotal (arr : DiskStats * DiskStats) : Z := since (ds_MsecTotal arr.1) (ds_MsecTotal arr.2).
(** Source: modules/agent/funcs/diskstats.go, IOMsecWeightedTotal. *)
Definition IOMsecWeightedTotal (arr : DiskStats * DiskStats) : Z := since (ds_MsecWeightedTotal arr.1) (ds_MsecWeightedTotal arr.2).
(** Source: modules/agent/funcs/diskstats.go, TS. [time.Sub] stops at the ends of [int64]. *)
Definition TS (arr : DiskStats * DiskStats) : Z :=
  wrapU (Z.quot (Z.max (- 2 ^ 63) (Z.min (2 ^ 63 - 1) (ds_TS arr.1 - ds_TS arr.2))) 1000000).

(** Source: modules/agent/funcs/diskstats.go, IODelta. *)
Definition IODelta (s : DiskState) (device : string) (f : DiskStats * DiskStats -> Z) : Z :=
  match s !! device with
  | None => 0
  | Some (_, None) => 0
  | Some (new, Some old) => f (new, old)
  end.

(** Source: modules/agent/funcs/diskstats.go, ShouldHandleDevice. *)
Definition ShouldHandleDevice (device : string) : bool :=
  let n := String.length device in
  let normal := (n =? 3)%nat && (String.prefix "sd" device || String.prefix "vd" device) in
  let normalNew := (n =? 3)%nat && (String.prefix "df" device || String.prefix "vd" device) in
  let aws := (4 <=? n)%nat && String.prefix "xvd" device in
  let flash := (4 <=? n)%nat && (String.prefix "fio" device || String.prefix "nvme" device) in
  normal || aws || flash || normalNew.

(** Source: modules/agent/funcs/diskstats.go, DiskIOMetrics. *)
Definition DiskIOMetrics (reading : option (list DiskStats)) : list MetricValue :=
  match reading with
  | None => []
  | Some dsList =>
      flat_map (fun ds =>
        if negb (ShouldHandleDevice (ds_Device ds)) then []
        else
          let device := ["device=" ++s ds_Device ds] in
          [CounterValue "disk.io.read_requests" (VInt (ds_ReadRequests ds)) device;
           CounterValue "disk.io.read_merged" (VInt (ds_ReadMerged ds)) device;
           CounterValue "disk.io.read_sectors" (VInt (ds_ReadSectors ds)) device;
           CounterValue "disk.io.msec_read" (VInt (ds_MsecRead ds)) device;
           CounterValue "disk.io.write_requests" (VInt (ds_WriteRequests ds)) device;
           CounterValue "disk.io.write_merged" (VInt (ds_WriteMerged ds)) device;
           CounterValue "disk.io.write_sectors" (VInt (ds_WriteSectors ds)) device;
           CounterValue "disk.io.msec_write" (VInt (ds_MsecWrite ds)) device;
           CounterValue "disk.io.ios_in_progress" (VInt (ds_IosInProgress ds)) device;
           CounterValue "disk.io.msec_total" (VInt (ds_MsecTotal ds)) device;
           CounterValue "disk.io.msec_weighted_total" (VInt (ds_MsecWeightedTotal ds)) device]) dsList
  end.

(** Source: modules/agent/funcs/diskstats.go, lines 174-177. The use of a device, in percent. Symbol: IOStatsMetrics. *)
Definition disk_util (use duration : Z) : f64 :=
  let tmp := fdiv (fmul (f64_of_Z use) (f64_of_Z 100)) (f64_of_Z duration) in
  if flt (f64_of_Z 100) tmp then f64_of_Z 100 else tmp.

(** Source: modules/agent/funcs/diskstats.go, lines 144-178. One device. Symbol: IOStatsMetrics. *)
Definition device_metrics (s : DiskState) (device : string) : list MetricValue :=
  if negb (ShouldHandleDevice device) then []
  else
    let tags := ["device=" ++s device] in
    let rio := IODelta s device IOReadRequests in
    let wio := IODelta s device IOWriteRequests in
    let delta_rsec := IODelta s device IOReadSectors in
    let delta_wsec := IODelta s device IOWriteSectors in
    let ruse := IODelta s device IOMsecRead in
    let wuse := IODelta s device IOMsecWrite in
    let use := IODelta s device IOMsecTotal in
    let n_io := wrapU (rio + wio) in
    let per_io n := if (n_io =? 0)%Z then fzero else fdiv (f64_of_Z n) (f64_of_Z n_io) in
    let duration := IODelta s device TS in
    [GaugeValue "disk.io.read_bytes" (VFloat (fmul (f64_of_Z delta_rsec) (f64_of_Z 512))) tags;
     GaugeValue "disk.io.write_bytes" (VFloat (fmul (f64_of_Z delta_wsec) (f64_of_Z 512))) tags;
     GaugeValue "disk.io.avgrq_sz" (VFloat (per_io (wrapU (delta_rsec + delta_wsec)))) tags;
     GaugeValue "disk.io.avgqu-sz" (VFloat (fdiv (f64_of_Z (IODelta s device IOMsecWeightedTotal)) (f64_of_Z 1000))) tags;
     GaugeValue "disk.io.await" (VFloat (per_io (wrapU (ruse + wuse)))) tags;
     GaugeValue "disk.io.svctm" (VFloat (per_io use)) tags;
     GaugeValue "disk.io.util" (VFloat (disk_util use duration)) tags].

(** Source: modules/agent/funcs/diskstats.go, IOStatsMetrics. [devices] is the walk of the map. *)
Definition IOStatsMetrics (s : DiskState) (devices : list string) : list MetricValue := flat_map (device_metrics s) devices.
