(* ===== verification/AgentMetrics.v ===== *)
(** The agent ([modules/agent/funcs]), its other collectors and what becomes
    of the metrics: the functions of each level, the functions a dynamic
    configuration asks for, and the round that sends what they return.

    What a collector reads (the records of the vendored [toolkits/nux] and
    [gonvml], the contents of a file, the output of a command) is an argument:
    [None] when the reading fails. *)
From S2P Require Export AgentStats AgentSync.
From S2P Require Import Prelude GoStr.
From Stdlib Require Import Ascii.
Local Open Scope string_scope.

(** The lines of a text, without their ends. *)
Definition lines_of (s : string) : list string :=
  let l := split s lf in match last l with Some "" => removelast l | _ => l end.
Definition gauge_int (metric : string) (n : Z) : MetricValue := GaugeValue metric (VInt n) [].
Definition gauge_float (metric : string) (x : f64) : MetricValue := GaugeValue metric (VFloat x) [].

(** * The host *)

Record Mem := mkMem {
  me_Buffers : Z; me_Cached : Z; me_MemTotal : Z; me_MemFree : Z; me_SwapTotal : Z; me_SwapUsed : Z; me_SwapFree : Z;
  me_Shmem : Z; me_MemAvailable : Z }.

(** Source: modules/agent/funcs/meminfo.go, MemMetrics. *)
Definition MemMetrics (m : option Mem) : list MetricValue :=
  match m with
  | None => []
  | Some m =>
      let memFree := wrapU (me_MemFree m + me_Buffers m + me_Cached m) in
      let memUsed := wrapU (me_MemTotal m - memFree) in
      let percent part total := fdiv (fmul (f64_of_Z part) (f64_of_Z 100)) (f64_of_Z total) in
      let mem part := if (me_MemTotal m =? 0)%Z then fzero else percent part (me_MemTotal m) in
      let swap part := if (me_SwapTotal m =? 0)%Z then fzero else percent part (me_SwapTotal m) in
      [gauge_int "mem.memtotal" (me_MemTotal m); gauge_int "mem.memused" memUsed; gauge_int "mem.memfree" memFree;
       gauge_int "mem.cached" (me_Cached m); gauge_int "mem.buffers" (me_Buffers m);
       gauge_int "mem.swaptotal" (me_SwapTotal m); gauge_int "mem.swapused" (me_SwapUsed m); gauge_int "mem.swapfree" (me_SwapFree m);
       gauge_float "mem.memfree.percent" (mem memFree); gauge_float "mem.memused.percent" (mem memUsed);
       gauge_float "mem.memavaiable.percent" (mem (me_MemAvailable m));
       gauge_float "mem.swapfree.percent" (swap (me_SwapFree m)); gauge_float "mem.swapused.percent" (swap (me_SwapUsed m));
       gauge_int "mem.shmem" (me_Shmem m); gauge_int "mem.memavailable" (me_MemAvailable m)]
  end.

Record Loadavg := mkLoadavg { la_Avg1min : f64; la_Avg5min : f64; la_Avg15min : f64 }.
(** Source: modules/agent/funcs/loadavg.go, LoadAvgMetrics. *)
Definition LoadAvgMetrics (load : option Loadavg) : list MetricValue :=
  match load with
  | None => []
  | Some load => [gauge_float "load.1min" (la_Avg1min load); gauge_float "load.5min" (la_Avg5min load); gauge_float "load.15min" (la_Avg15min load)]
  end.

(** Source: modules/agent/funcs/kernel.go, KernelMetrics. What was read before an error stays. *)
Definition KernelMetrics (maxFiles maxProc allocateFiles : option Z) : list MetricValue :=
  match maxFiles with
  | None => []
  | Some maxFiles =>
      (gauge_int "kernel.maxfiles" maxFiles ::
       match maxProc with
       | None => []
       | Some maxProc =>
           gauge_int "kernel.maxproc" maxProc ::
           match allocateFiles with
           | None => []
           | Some n => [gauge_int "kernel.files.allocated" n; gauge_int "kernel.files.left" (wrapU (maxFiles - n))]
           end
       end)
  end.

Record NetIf := mkNetIf {
  ni_Iface : string; ni_InBytes : Z; ni_InPackages : Z; ni_InErrors : Z; ni_InDropped : Z; ni_InFifoErrs : Z; ni_InFrameErrs : Z;
  ni_InCompressed : Z; ni_InMulticast : Z; ni_OutBytes : Z; ni_OutPackages : Z; ni_OutErrors : Z; ni_OutDropped : Z;
  ni_OutFifoErrs : Z; ni_OutCollisions : Z; ni_OutCarrierErrs : Z; ni_OutCompressed : Z; ni_TotalBytes : Z; ni_TotalPackages : Z;
  ni_TotalErrors : Z; ni_TotalDropped : Z; ni_SpeedBits : Z; ni_InPercent : f64; ni_OutPercent : f64 }.

(** Source: modules/agent/funcs/ifstat.go, CoreNetMetrics. The slice is made for 23 metrics of each interface, and all are set. *)
Definition CoreNetMetrics (netIfs : option (list NetIf)) : list MetricValue :=
  flat_map (fun n =>
    let iface := ["iface=" ++s ni_Iface n] in
    let counter m v := CounterValue m (VInt v) iface in
    [counter "net.if.in.bytes" (ni_InBytes n); counter "net.if.in.packets" (ni_InPackages n);
     counter "net.if.in.errors" (ni_InErrors n); counter "net.if.in.dropped" (ni_InDropped n);
     counter "net.if.in.fifo.errs" (ni_InFifoErrs n); counter "net.if.in.frame.errs" (ni_InFrameErrs n);
     counter "net.if.in.compressed" (ni_InCompressed n); counter "net.if.in.multicast" (ni_InMulticast n);
     counter "net.if.out.bytes" (ni_OutBytes n); counter "net.if.out.packets" (ni_OutPackages n);
     counter "net.if.out.errors" (ni_OutErrors n); counter "net.if.out.dropped" (ni_OutDropped n);
     counter "net.if.out.fifo.errs" (ni_OutFifoErrs n); counter "net.if.out.collisions" (ni_OutCollisions n);
     counter "net.if.out.carrier.errs" (ni_OutCarrierErrs n); counter "net.if.out.compressed" (ni_OutCompressed n);
     counter "net.if.total.bytes" (ni_TotalBytes n); counter "net.if.total.packets" (ni_TotalPackages n);
     counter "net.if.total.errors" (ni_TotalErrors n); counter "net.if.total.dropped" (ni_TotalDropped n);
     GaugeValue "net.if.speed.bits" (VInt (ni_SpeedBits n)) iface;
     CounterValue "net.if.in.percent" (VFloat (ni_InPercent n)) iface;
     CounterValue "net.if.out.percent" (VFloat (ni_OutPercent n)) iface]) (default [] netIfs).

(** Source: modules/agent/funcs/snmp.go, UdpMetrics. The argument is the walk of the map. *)
Definition UdpMetrics (udp : option (list (string * Z))) : list MetricValue :=
  map (fun '(key, val) => CounterValue ("snmp.Udp." ++s key) (VInt val) []) (default [] udp).
(** Source: modules/agent/funcs/sockstat.go, SocketStatSummaryMetrics. The argument is the walk of the map. *)
Definition SocketStatSummaryMetrics (ssMap : option (list (string * Z))) : list MetricValue :=
  map (fun '(k, v) => gauge_int ("ss." ++s k) v) (default [] ssMap).

(** Source: modules/agent/funcs/netstat.go, lines 29-54. Symbol: USES. *)
Definition USES : list string :=
  ["PruneCalled"; "LockDroppedIcmps"; "ArpFilter"; "TW"; "DelayedACKLocked"; "ListenOverflows"; "ListenDrops"; "TCPPrequeueDropped";
   "TCPTSReorder"; "TCPDSACKUndo"; "TCPLoss"; "TCPLostRetransmit"; "TCPLossFailures"; "TCPFastRetrans"; "TCPFastRetransRate";
   "TCPTimeouts"; "TCPSchedulerFailed"; "TCPAbortOnMemory"; "TCPAbortOnTimeout"; "TCPAbortFailed"; "TCPMemoryPressures";
   "TCPSpuriousRTOs"; "TCPBacklogDrop"; "TCPMinTTLDrop"].

(** Source: modules/agent/funcs/netstat.go, lines 76-79. A line without words has no first one. Symbol: getTcpInfo. *)
Definition tcp_line (lines : list (list string)) (r : string) : res (list (list string)) :=
  let rs := Fields r in
  let! w := at_index rs 0 in Ret (if String.eqb w "Tcp:" then (lines ++ [rs])%list else lines).
(** Source: modules/agent/funcs/netstat.go, getTcpInfo. The lines of the file, [None] when it cannot be read. *)
Definition getTcpInfo (snmp : option (list string)) : res (option (list (list string))) :=
  match snmp with
  | None => Ret None
  | Some l =>
      let! lines := fold_res tcp_line [] l in Ret (Some lines)
  end.

(** Source: modules/agent/funcs/netstat.go, parseTcpInfo. *)
Definition parseTcpInfo (snmp : option (list string)) : res (option (gmap string Z)) :=
  let! lines := getTcpInfo snmp in
  match lines with
  | None => Ret None
  | Some lines =>
      let! names := at_index lines 0 in
      fold_res (fun (metrics : option (gmap string Z)) '(index, key) =>
        match metrics with
        | None => Ret None
        | Some m =>
            match m !! key with
            | None => Ret (Some m)
            | Some _ =>
                let! values := at_index lines 1 in
                let! v := at_index values (Z.of_nat index) in
                Ret match parse_int v 64 with Some val => Some (<[key := val]> m) | None => None end
            end
        end) (Some (list_to_map [("InSegs", 0%Z); ("OutSegs", 0%Z); ("RetransSegs", 0%Z); ("InErrs", 0%Z)])) (imap (fun i k => (i, k)) names)
  end.

(** Source: modules/agent/funcs/netstat.go, NetstatMetrics. [tcpExts] is the walk of its map, [walk] walks the other. *)
Definition NetstatMetrics (tcpExts : option (list (string * Z))) (netIfs : option (list NetIf)) (snmp : option (list string))
    (walk : gmap string Z -> list (string * Z)) : res (list MetricValue) :=
  match tcpExts with
  | None | Some [] => Ret []
  | Some tcpExts =>
      let netIfOutPacketsEth0 := fold_left (fun n i => if String.eqb (ni_Iface i) "eth0" then ni_OutPackages i else n) (default [] netIfs) 0%Z in
      let L := flat_map (fun '(key, val) =>
        if negb (bool_decide (key ∈ USES)) then []
        else
          ((if String.eqb key "TCPFastRetrans"
            then [gauge_float "TcpExt.TCPFastRetransRate"
                    (if (netIfOutPacketsEth0 =? 0)%Z then fzero
                     else fdiv (fmul (f64_of_Z val) (f64_of_Z 10000)) (f64_of_Z netIfOutPacketsEth0))]
            else [])
           ++ [CounterValue ("TcpExt." ++s key) (VInt val) []])%list) tcpExts in
      let! r := parseTcpInfo snmp in
      match r with
      | None => Ret L
      | Some m => Ret (L ++ map (fun '(key, val) => CounterValue ("TcpPkg." ++s key) (VInt val) []) (walk m))%list
      end
  end.

Record DeviceUsage := mkDeviceUsage {
  du_FsSpec : string; du_FsFile : string; du_FsVfstype : string;
  du_BlocksAll : Z; du_BlocksUsed : Z; du_BlocksFree : Z; du_BlocksUsedPercent : f64; du_BlocksFreePercent : f64;
  du_InodesAll : Z; du_InodesUsed : Z; du_InodesFree : Z; du_InodesUsedPercent : f64; du_InodesFreePercent : f64 }.

(** Source: modules/agent/funcs/dfstat.go, lines 45-85. One mount point. Symbol: DeviceMetrics. *)
Definition mount_metrics (myMountPoints : list string) (build : string * string * string -> option DeviceUsage)
    (acc : list MetricValue * Z * Z) (mp : string * string * string) : list MetricValue * Z * Z :=
  let '(L, diskTotal, diskUsed) := acc in
  if (0 <? length myMountPoints)%nat && negb (bool_decide (mp.1.2 ∈ myMountPoints)) then acc
  else
    match build mp with
    | None => acc
    | Some du =>
        if (du_BlocksAll du =? 0)%Z then acc
        else
          let tags := ["mount=" ++s du_FsFile du ++s ",fstype=" ++s du_FsVfstype du] in
          let int m v := GaugeValue m (VInt v) tags in
          let float m v := GaugeValue m (VFloat v) tags in
          let blocks := [int "df.bytes.total" (du_BlocksAll du); int "df.bytes.used" (du_BlocksUsed du); int "df.bytes.free" (du_BlocksFree du);
                         float "df.bytes.used.percent" (du_BlocksUsedPercent du); float "df.bytes.free.percent" (du_BlocksFreePercent du)] in
          let inodes := if (du_InodesAll du =? 0)%Z then []
            else [int "df.inodes.total" (du_InodesAll du); int "df.inodes.used" (du_InodesUsed du); int "df.inodes.free" (du_InodesFree du);
                  float "df.inodes.used.percent" (du_InodesUsedPercent du); float "df.inodes.free.percent" (du_InodesFreePercent du)] in
          ((L ++ blocks ++ inodes)%list, wrapU (diskTotal + du_BlocksAll du), wrapU (diskUsed + du_BlocksUsed du))
    end.

(** Source: modules/agent/funcs/dfstat.go, DeviceMetrics. *)
Definition DeviceMetrics (mountPoints : option (list (string * string * string))) (myMountPoints : list string)
    (build : string * string * string -> option DeviceUsage) : list MetricValue :=
  match mountPoints with
  | None => []
  | Some l =>
      let '(L, diskTotal, diskUsed) := fold_left (mount_metrics myMountPoints build) l ([], 0%Z, 0%Z) in
      if (0 <? length L)%nat && (0 <? diskTotal)%Z
      then (L ++ [gauge_float "df.statistics.total" (f64_of_Z diskTotal); gauge_float "df.statistics.used" (f64_of_Z diskUsed);
                  gauge_float "df.statistics.used.percent" (fdiv (fmul (f64_of_Z diskUsed) (f64_of_Z 100)) (f64_of_Z diskTotal))])%list
      else L
  end.

Definition VERSION : string := "6.1.0".
(** Source: modules/agent/funcs/agent.go, AgentMetrics. *)
Definition AgentMetrics : list MetricValue :=
  [gauge_int "agent.alive" 1; gauge_int "agent_version" (parse_int_value (replace_all VERSION "." "") 64)].

(** Source: modules/agent/funcs/uptime.go, SysUptimeMetric. The contents of the file, [None] when it is missing or cannot be read. *)
Definition SysUptimeMetric (contents : option string) : list MetricValue :=
  match contents with
  | None => []
  | Some s =>
      match lines_of s with
      | [] => []
      | line :: _ =>
          match Fields line with
          | [] => []
          | w :: _ => match ParseFloat w with Some uptime => [gauge_float "sys.uptime" uptime] | None => [] end
          end
      end
  end.

(** * What hbs asks for *)

(** Source: modules/agent/funcs/portstat.go, PortMetrics. *)
Definition PortMetrics (r : Reported) (allTcpPorts allUdpPorts : option (list Z)) : list MetricValue :=
  match reportPorts r, allTcpPorts, allUdpPorts with
  | [], _, _ | _, None, _ | _, _, None => []
  | ports, Some tcp, Some udp =>
      map (fun p => GaugeValue NET_PORT_LISTEN (VInt (if bool_decide (p ∈ tcp) || bool_decide (p ∈ udp) then 1 else 0)) ["port=" ++s itoa p]) ports
  end.

Record Proc := mkProc { pr_Name : string; pr_Cmdline : string }.
(** Source: modules/agent/funcs/procs.go, is_a. The walk of the map looks at the keys 1 and 2 only, in any order. *)
Definition is_a (p : Proc) (m : gmap Z string) : bool :=
  match m !! 1%Z with Some val => String.eqb val (pr_Name p) | None => true end &&
  match m !! 2%Z with Some val => contains (pr_Cmdline p) val | None => true end.
(** Source: modules/agent/funcs/procs.go, ProcMetrics. [walk] walks the map. *)
Definition ProcMetrics (r : Reported) (ps : option (list Proc)) (walk : gmap string (gmap Z string) -> list (string * gmap Z string)) : list MetricValue :=
  if (size (reportProcs r) =? 0)%nat then []
  else
    match ps with
    | None => []
    | Some ps => map (fun '(tags, m) => GaugeValue PROC_NUM (VInt (Z.of_nat (length (List.filter (fun p => is_a p m) ps)))) [tags]) (walk (reportProcs r))
    end.

(** Source: modules/agent/funcs/du.go, DuMetrics. [out] is the output of the command, trimmed; one without words has no first word. *)
Definition DuMetrics (r : Reported) (out : string -> option string) : res (list MetricValue) :=
  fold_res (fun L path =>
    match out path with
    | None => Ret L
    | Some out =>
        let arr := Fields out in
        if (length arr =? 1)%nat then Ret L
        else
          let! w := at_index arr 0 in
          Ret match parse_uint w with
              | Some size => (L ++ [GaugeValue DU_BS (VInt size) ["path=" ++s path]])%list
              | None => L
              end
    end) [] (duPaths r).

(** Source: modules/agent/funcs/urlstat.go, probeUrl. The output of the command; one that is empty has no line to read. *)
Definition probeUrl (bs : option string) : bool :=
  match bs with
  | None => false
  | Some bs => match lines_of bs with [] => false | retcode :: _ => String.eqb (TrimSpace retcode) "200" end
  end.
(** Source: modules/agent/funcs/urlstat.go, UrlMetrics. [curl] is the output of the command for an URL and a timeout. *)
Definition UrlMetrics (r : Reported) (hostname : option string) (curl : string -> string -> option string)
    (walk : gmap string string -> list (string * string)) : list MetricValue :=
  let hostname := default "None" hostname in
  map (fun '(furl, timeout) =>
    GaugeValue URL_CHECK_HEALTH (VInt (if probeUrl (curl furl timeout) then 1 else 0))
      ["url=" ++s furl ++s ",timeout=" ++s timeout ++s ",src=" ++s hostname]) (walk (reportUrls r)).

(** * The clock *)

(** The first match of the pattern of [chronycParseOffset] that starts at a byte of [s]: a sign, digits, and one or two small letters. *)
Fixpoint take_bytes (p : ascii -> bool) (max : nat) (s : string) : string * string :=
  match max, s with
  | S max, String a t => if p a then let '(h, r) := take_bytes p max t in (String a h, r) else ("", s)
  | _, _ => ("", s)
  end.
Definition is_small (a : ascii) : bool := let n := nat_of_ascii a in (97 <=? n)%nat && (n <=? 122)%nat.
Fixpoint find_offset (s : string) : option (string * string) :=
  match s with
  | "" => None
  | String a t =>
      let here :=
        if Ascii.eqb a "+" || Ascii.eqb a "-" || Ascii.eqb a "|" then
          let '(digits, rest) := take_bytes is_digit (String.length t) t in
          let '(unit, _) := take_bytes is_small 2 rest in
          if is_empty digits || is_empty unit then None else Some (String a digits, unit)
        else None in
      match here with Some m => Some m | None => find_offset t end
  end.

(** Source: modules/agent/funcs/ntp.go, chronycParseOffset. [None] is the error; a number that cannot be read counts as what [ParseFloat] gives beside its error. *)
Definition chronycParseOffset (parseStr : string) : option f64 :=
  '(number, unit) ← find_offset parseStr;
  let sec := ParseFloat_value number in
  Some (if String.eqb unit "ps" then fdiv sec (f64_of_Z (10 ^ 9))
        else if String.eqb unit "ns" then fdiv sec (f64_of_Z (10 ^ 6))
        else if String.eqb unit "us" then fdiv sec (f64_of_Z (10 ^ 3))
        else if String.eqb unit "s" then fmul sec (f64_of_Z (10 ^ 3))
        else sec).

(** Source: modules/agent/funcs/ntp.go, NtpMetrics. The outputs of the two commands, ["FAILED"] when one fails. *)
Definition NtpMetrics (ntpq chronyc : string) : res (list MetricValue) :=
  let offset x := gauge_float "sys.ntp.offset" x in
  if negb (String.eqb ntpq "FAILED") then
    let! L := fold_res (fun (L : option (list MetricValue)) line =>
      match L with
      | None => Ret None
      | Some L =>
          if String.prefix "*" line then
            let! w := at_index (Fields line) 8 in
            Ret match ParseFloat w with Some x => Some (L ++ [offset x])%list | None => None end
          else Ret (Some L)
      end) (Some []) (split ntpq lf) in
    Ret (default [] L)
  else if String.eqb chronyc "FAILED" then Ret []
  else Ret match chronycParseOffset chronyc with Some x => [offset x] | None => [] end.

(** * The graphics cards *)

(** What the vendored [gonvml] answers of one card; [None] for an error. The calls are made in this order. *)
Record Gpu := mkGpu {
  gp_UUID : string; gp_FanSpeed : option Z; gp_Temperature : option Z; gp_MemoryInfo : option (Z * Z);
  gp_UtilizationRates : option (Z * Z); gp_PowerUsage : option Z }.
(** The metrics and the two sums of the loop. *)
Record GpuSums := mkGpuSums { gs_L : list MetricValue; gs_all : Z; gs_mem : Z }.

(** Source: modules/agent/funcs/gpu.go, lines 43-104. One card, [None] without a handle; a call for the power that fails gives zero. Symbol: GpuMetrics. *)
Definition card_metrics (a : GpuSums) (dev : option Gpu) : GpuSums :=
  match dev with
  | None => a
  | Some dev =>
      let tag := ["uuid=" ++s gp_UUID dev] in
      let L := match gp_FanSpeed dev with Some n => (gs_L a ++ [GaugeValue "gpu.fan.speed" (VInt n) tag])%list | None => gs_L a end in
      let stop := mkGpuSums L (gs_all a) (gs_mem a) in
      match gp_Temperature dev with
      | None => stop
      | Some temperature =>
          match gp_MemoryInfo dev with
          | None => stop
          | Some (totalMemory, usedMemory) =>
              match gp_UtilizationRates dev with
              | None => stop
              | Some (gpuUtilization, memoryUtilization) =>
                  let power := default 0%Z (gp_PowerUsage dev) in
                  mkGpuSums (L ++
                    [GaugeValue "gpu.temperature" (VInt temperature) tag;
                     GaugeValue "gpu.memory.total" (VFloat (f64_of_Z (totalMemory / 1024 / 1024))) tag;
                     GaugeValue "gpu.memory.used" (VFloat (f64_of_Z (usedMemory / 1024 / 1024))) tag;
                     GaugeValue "gpu.memory.util" (VInt memoryUtilization) tag;
                     GaugeValue "gpu.util" (VInt gpuUtilization) tag;
                     GaugeValue "gpu.power.usage" (VFloat (f64_of_Z (power / 1000))) tag])%list
                    (wrapU (gs_all a + gpuUtilization)) (wrapU (gs_mem a + memoryUtilization))
              end
          end
      end
  end.

(** Source: modules/agent/funcs/gpu.go, GpuMetrics. The cards, [None] when the library fails. *)
Definition GpuMetrics (devices : option (list (option Gpu))) : list MetricValue :=
  match devices with
  | None | Some [] => []
  | Some devices =>
      let a := fold_left card_metrics devices (mkGpuSums [] 0 0) in
      let count := Z.of_nat (length devices) in
      (gs_L a ++ [gauge_int "gpu.count" count; gauge_int "gpu.util.avg" (gs_all a / count); gauge_int "gpu.memory.util.avg" (gs_mem a / count)])%list
  end.

(** * The processes of a service *)

(** Source: modules/agent/funcs/cpustat.go, type ProcCpuUsage. *)
Record ProcCpuUsage := mkProcCpu { pc_Utime : Z; pc_Stime : Z; pc_Cutime : Z; pc_Cstime : Z; pc_Total : Z }.
Notation PidInfo := (gmap string ProcCpuUsage).

(** Source: modules/agent/funcs/cpustat.go, parseLine. A line of two words or more is taken to have 17. *)
Definition parseLine (line : string) : res (option ProcCpuUsage) :=
  let fields := Fields line in
  if (length fields <? 2)%nat then Ret None
  else
    let! utime := at_index fields 13 in
    let! stime := at_index fields 14 in
    let! cutime := at_index fields 15 in
    let! cstime := at_index fields 16 in
    let u := parse_uint_value utime in let s := parse_uint_value stime in
    let cu := parse_uint_value cutime in let cs := parse_uint_value cstime in
    Ret (Some (mkProcCpu u s cu cs (wrapU (u + s + cu + cs)))).

(** Source: modules/agent/funcs/cpustat.go, GetProcCpuStat. The contents of the file, [None] when it cannot be read; the first line, empty at its end. *)
Definition GetProcCpuStat (contents : option string) : res (option ProcCpuUsage) :=
  match contents with
  | None => Ret None
  | Some s => parseLine (match lines_of s with [] => "" | line :: _ => line end)
  end.

(** Source: modules/agent/funcs/cpustat.go, CurrentProcCpuStat. [proc] gives the contents of a file; [None] is the error. *)
Definition CurrentProcCpuStat (proc : string -> option string) (pids : list string) : res (option PidInfo) :=
  let! m := fold_res (fun (m : PidInfo) pid =>
    if String.eqb pid "" then Ret m
    else
      let! pcu := GetProcCpuStat (proc ("/proc/" ++s pid ++s "/stat")) in
      Ret match pcu with Some pcu => <[pid := pcu]> m | None => m end) ∅ pids in
  Ret (if (size m =? 0)%nat then None else Some m).

(** The two readings of the services, the newest first; a map that was never made has no keys. *)
Definition ProcState : Type := gmap string PidInfo * gmap string PidInfo.

(** Source: modules/agent/funcs/cpustat.go, UpdateProcCpuStat. [services] is the walk of the map; the first service that cannot be read ends the walk. *)
Definition UpdateProcCpuStat (proc : string -> option string) (services : list (string * list string)) (s : ProcState) : res ProcState :=
  if (length services =? 0)%nat then Ret s
  else
    let! new := fold_res (fun '(m, go) '(name, pids) =>
      if negb go then Ret (m, go)
      else
        let! cur := CurrentProcCpuStat proc pids in
        Ret match cur with Some cur => (<[name := cur]> m, true) | None => (m, false) end) ((∅ : gmap string PidInfo), true) services in
    Ret (fst new, fst s).

(** Source: modules/agent/funcs/cpustat.go, deltaProcCpu. Services and processes of both readings. *)
Definition deltaProcCpu (s : ProcState) : gmap string PidInfo :=
  if (size (snd s) =? 0)%nat then ∅
  else
    merge (fun new old =>
      match new, old with
      | Some new, Some old =>
          Some (merge (fun n o =>
            match n, o with
            | Some n, Some o => Some (mkProcCpu (since (pc_Utime n) (pc_Utime o)) (since (pc_Stime n) (pc_Stime o))
                (since (pc_Cutime n) (pc_Cutime o)) (since (pc_Cstime n) (pc_Cstime o)) (since (pc_Total n) (pc_Total o)))
            | _, _ => None
            end) (new : PidInfo) (old : PidInfo))
      | _, _ => None
      end) (fst s) (snd s).

(** Source: modules/agent/funcs/cpustat.go, ProcCpuMetrics. The sums do not depend on the walk of the map. *)
Definition ProcCpuMetrics (cpu : CpuState) (s : ProcState) (name : string) : res (list MetricValue) :=
  if negb (CpuPrepared cpu) || (size (snd s) =? 0)%nat then Ret []
  else
    let tag := ["service=" ++s name] in
    match deltaProcCpu s !! name with
    | None => Ret []
    | Some cps =>
        let sum (f : ProcCpuUsage -> Z) := map_fold (fun _ p n => wrapU (n + f p)) 0%Z cps in
        let! use := CalculateProcCpuRate cpu (sum pc_Total) in
        let! utime := CalculateProcCpuRate cpu (sum pc_Utime) in
        let! stime := CalculateProcCpuRate cpu (sum pc_Stime) in
        let! cutime := CalculateProcCpuRate cpu (sum pc_Cutime) in
        let! cstime := CalculateProcCpuRate cpu (sum pc_Cstime) in
        Ret [GaugeValue "proc.cpu.use" (VFloat use) tag; GaugeValue "proc.cpu.utime" (VFloat utime) tag;
             GaugeValue "proc.cpu.stime" (VFloat stime) tag; GaugeValue "proc.cpu.cutime" (VFloat cutime) tag;
             GaugeValue "proc.cpu.cstime" (VFloat cstime) tag]
    end.

(** The fields of [SingleMemInfo], in their order: the names of the lines that set them, and of the metrics that sum them up. *)
Definition mem_fields : list (string * string) :=
  [("VmPeak:", "proc.mem.peak"); ("VmSize:", "proc.mem.size"); ("VmLck:", "proc.mem.lck"); ("VmHWM:", "proc.mem.hwm");
   ("VmRSS:", "proc.mem.rss"); ("VmData:", "proc.mem.data"); ("VmStk:", "proc.mem.stk"); ("VmExe:", "proc.mem.exe");
   ("VmLib:", "proc.mem.lib"); ("VmPTE:", "proc.mem.pte"); ("VmSwap:", "proc.mem.swap")].

(** Source: modules/agent/funcs/meminfo.go, ParseMemLine. The fields of the structure by the names of their lines. *)
Definition ParseMemLine (line : string) (pmem : gmap string Z) : gmap string Z :=
  match Fields line with
  | fieldName :: v :: _ =>
      if bool_decide (fieldName ∈ map fst mem_fields) then
        match parse_uint v with Some n => <[fieldName := n]> pmem | None => pmem end
      else pmem
  | _ => pmem
  end.
(** Source: modules/agent/funcs/meminfo.go, GetOnePidMemInfo. *)
Definition GetOnePidMemInfo (proc : string -> option string) (pid : string) : option (gmap string Z) :=
  if String.eqb pid "" then None
  else s ← proc ("/proc/" ++s pid ++s "/status"); Some (fold_left (fun pmem line => ParseMemLine line pmem) (lines_of s) ∅).

(** Source: modules/agent/funcs/meminfo.go, ProcMemMetrics. *)
Definition ProcMemMetrics (proc : string -> option string) (name : string) (pids : list string) : list MetricValue :=
  if (length pids =? 0)%nat then []
  else
    let infos := omap (GetOnePidMemInfo proc) pids in
    map (fun '(field, metric) =>
      GaugeValue metric (VInt (fold_left (fun n info => wrapU (n + default 0%Z (info !! field))) infos 0%Z)) ["service=" ++s name]) mem_fields.

(** Source: modules/agent/funcs/diskstats.go, ParseIoLine. What was read ([rchar]) and written ([wchar]). *)
Definition ParseIoLine (line : string) (this : Z * Z) : Z * Z :=
  match Fields line with
  | fieldName :: v :: _ =>
      match parse_int v 64 with
      | None => this
      | Some n => if String.eqb fieldName "rchar:" then (n, snd this) else if String.eqb fieldName "wchar:" then (fst this, n) else this
      end
  | _ => this
  end.
(** Source: modules/agent/funcs/diskstats.go, GetOnePidIoInfo. *)
Definition GetOnePidIoInfo (proc : string -> option string) (pid : string) : option (Z * Z) :=
  if String.eqb pid "" then None
  else s ← proc ("/proc/" ++s pid ++s "/io"); Some (fold_left (fun io line => ParseIoLine line io) (lines_of s) (0%Z, 0%Z)).
(** Source: modules/agent/funcs/diskstats.go, ProcIoMetrics. *)
Definition ProcIoMetrics (proc : string -> option string) (name : string) (pids : list string) : list MetricValue :=
  if (length pids =? 0)%nat then []
  else
    let infos := omap (GetOnePidIoInfo proc) pids in
    let sum (f : Z * Z -> Z) := fold_left (fun n io => (n +! f io)%Z) infos 0%Z in
    [CounterValue (name ++s ".proc.io.rchar") (VInt (sum fst)) ["service=" ++s name];
     CounterValue (name ++s ".proc.io.wchar") (VInt (sum snd)) ["service=" ++s name]].
