(* ===== verification/AgentRounds.v ===== *)
(** The agent's rounds ([modules/agent/cron/collector.go], [funcs/funcs.go],
    [g/transfer.go]): at each level the functions are run one after the other,
    what they return is filtered and stamped, and the whole is sent in one
    call, which the JSON codec refuses when a number is none. *)
From S2P Require Export AgentMetrics.
From S2P Require Import Prelude GoStr.
Local Open Scope string_scope.

(** * What the functions look at *)

(** The histories, the readings of a moment, what hbs asks for and the walks of maps. *)
Record World := mkWorld {
  w_cpu : CpuState; w_procs : ProcState; w_percore : bool; w_disk : DiskState; w_devices : list string;
  w_ListDiskStats : option (list DiskStats); w_MemInfo : option Mem; w_LoadAvg : option Loadavg;
  w_KernelMaxFiles : option Z; w_KernelMaxProc : option Z; w_KernelAllocateFiles : option Z;
  w_NetIfs : option (list NetIf); w_eth : option (list NetIf);
  w_Udp : option (list (string * Z)); w_SocketStat : option (list (string * Z)); w_TcpExt : option (list (string * Z));
  w_snmp : option (list string); w_walk_tcp : gmap string Z -> list (string * Z);
  w_mounts : option (list (string * string * string)); w_MountPoint : list string; w_usage : string * string * string -> option DeviceUsage;
  w_uptime : option string; w_reported : Reported; w_tcp : option (list Z); w_udp : option (list Z);
  w_ps : option (list Proc); w_walk_procs : gmap string (gmap Z string) -> list (string * gmap Z string);
  w_du : string -> option string; w_hostname : option string; w_curl : string -> string -> option string;
  w_walk_urls : gmap string string -> list (string * string); w_ntpq : string; w_chronyc : string;
  w_gpus : option (list (option Gpu)); w_proc : string -> option string }.

Definition Collector : Type := World -> res (list MetricValue).
Definition ProcCollector : Type := World -> string -> list string -> res (list MetricValue).

(** Source: modules/agent/g/cfg.go, type MetricLevelIntervalConfig. *)
Record Levels := mkLevels { Level1 : Z; Level2 : Z; Level3 : Z; Level4 : Z }.
(** Source: modules/agent/g/cfg.go, lines 214-221. The levels of a configuration without any. Symbol: ParseConfig. *)
Definition default_levels (configured : option Levels) : Levels := default (mkLevels 10 30 60 120) configured.

(** Source: modules/agent/funcs/funcs.go, lines 88-134. Symbol: BuildMappers. *)
Definition BuildMappers (c : Levels) : list (list Collector * Z) :=
  [([fun w => CpuMetrics (w_cpu w) (w_percore w)], Level1 c);
   ([fun w => Ret (UdpMetrics (w_Udp w));
     fun w => Ret (DiskIOMetrics (w_ListDiskStats w));
     fun w => Ret (IOStatsMetrics (w_disk w) (w_devices w));
     fun w => Ret (SocketStatSummaryMetrics (w_SocketStat w));
     fun w => NetstatMetrics (w_TcpExt w) (w_eth w) (w_snmp w) (w_walk_tcp w);
     fun w => Ret (KernelMetrics (w_KernelMaxFiles w) (w_KernelMaxProc w) (w_KernelAllocateFiles w));
     fun w => Ret (LoadAvgMetrics (w_LoadAvg w));
     fun w => Ret (MemMetrics (w_MemInfo w));
     fun w => Ret (ProcMetrics (w_reported w) (w_ps w) (w_walk_procs w));
     fun w => Ret (PortMetrics (w_reported w) (w_tcp w) (w_udp w));
     fun w => Ret (CoreNetMetrics (w_NetIfs w))], Level2 c);
   ([fun w => Ret (DeviceMetrics (w_mounts w) (w_MountPoint w) (w_usage w));
     fun w => DuMetrics (w_reported w) (w_du w);
     fun w => Ret (UrlMetrics (w_reported w) (w_hostname w) (w_curl w) (w_walk_urls w));
     fun w => NtpMetrics (w_ntpq w) (w_chronyc w);
     fun w => Ret (SysUptimeMetric (w_uptime w))], Level3 c);
   ([fun _ => Ret AgentMetrics;
     fun w => Ret (GpuMetrics (w_gpus w))], Level4 c)].

(** Source: modules/agent/funcs/funcs.go, lines 135-147. Symbol: BuildMappers. *)
Definition BuildProcMappers (c : Levels) : list (list ProcCollector * Z) :=
  [([fun w name _ => ProcCpuMetrics (w_cpu w) (w_procs w) name;
     fun w name pids => Ret (ProcMemMetrics (w_proc w) name pids)], Level2 c)].

(** * A round *)

(** Source: modules/agent/cron/collector.go, InitDataHistory. One turn of the loop; a reading of the processes that fails has changed nothing but its own map. *)
Definition InitDataHistory (stat : option ProcStat) (disks : option (list DiskStats)) (proc : string -> option string)
    (services : list (string * list string)) (s : CpuState * DiskState * ProcState) : res (CpuState * DiskState * ProcState) :=
  let '(cpu, disk, procs) := s in
  let! procs := UpdateProcCpuStat proc services procs in
  Ret (UpdateCpuStat stat cpu, UpdateDiskStats disks disk, procs).

(** Source: modules/agent/cron/collector.go, lines 217-251. What a round of a level collects; a panic of a function is the round's. Symbol: collect. *)
Definition collect_round (sec : Z) (fns : list Collector) (ignoreMetrics : gmap string bool) (now : Z) (w : World) : res (list MetricValue) :=
  match w_hostname w with
  | None => Ret []
  | Some hostname =>
      let! items := fold_res (fun items fn => let! l := fn w in Ret (items ++ [l])%list) [] fns in
      Ret (collect sec (Some hostname) ignoreMetrics items now)
  end.

(** Source: modules/agent/cron/collector.go, ExecProcDynamicFunc. What is collected of a service. *)
Definition ExecProcDynamicFunc (sec : Z) (name : string) (pids : list string) (fns : list ProcCollector)
    (ignoreMetrics : gmap string bool) (now : Z) (w : World) : res (list MetricValue) :=
  collect_round sec (map (fun (fn : ProcCollector) w => fn w name pids) fns) ignoreMetrics now w.

(** Source: modules/agent/cron/collector.go, lines 212-213. A ticker of no length panics. Symbol: collect. *)
Definition NewTicker (sec : Z) : res unit := if (0 <? sec *! 10 ^ 9)%Z then Ret tt else Panic TickerInterval.

(** * Sending *)

(** What [encoding/json] makes of a value on its way: an integer is read back
    as the nearest float, a float as itself, and a float that is no number or
    infinite cannot be written.  Texts are taken to be valid UTF-8. *)
Definition json_value (v : value) : option value :=
  match v with
  | VInt z => Some (VFloat (f64_of_Z z))
  | VFloat x => if is_nan x || is_inf x then None else Some (VFloat x)
  | v => Some v
  end.
Definition json_metric (mv : MetricValue) : option MetricValue :=
  v ← json_value (mv_Value mv);
  Some (mkMetricValue (mv_Endpoint mv) (mv_Metric mv) v (mv_Step mv) (mv_Type mv) (mv_Tags mv) (mv_Timestamp mv)).
(** The arguments of the call as the transfer reads them. *)
Definition json_args (metrics : list MetricValue) : option (list MetricValue) := mapM json_metric metrics.

(** Source: modules/agent/g/transfer.go, updateMetrics. [call] is the answer of the transfer; what cannot be written is an error of the call. *)
Definition updateMetrics (call : string -> list MetricValue -> bool) (metrics : list MetricValue) (addr : string) : bool :=
  match json_args metrics with None => false | Some args => call addr args end.

(** Source: modules/agent/g/var.go, SendToTransfer. The addresses that were tried, and whether one took the metrics. *)
Definition SendToTransfer (call : string -> list MetricValue -> bool) (addrs : list string) (dt : list (string * string)) (metrics : list MetricValue) : list string * bool :=
  if (length metrics =? 0)%nat then ([], false)
  else SendMetrics (updateMetrics call (add_default_tags dt metrics)) addrs.
