(* ===== verification/AgentServices.v ===== *)
(** The agent's services ([modules/agent/cron/reporter.go]): hbs names the
    services of a host, [systemctl] tells their processes, and for each a
    goroutine collects until it is told to stop.

    The channels of [ServiceChangeSigns] have no buffer: who sends waits for
    the goroutine of the service, and for ever when there is none.  A step that
    waits for ever, holding the lock of the services, is [None]. *)
From S2P Require Export AgentRounds.
From S2P Require Import Prelude GoStr.
From Stdlib Require Import Ascii.
Local Open Scope string_scope.

(** * The processes of the services *)

(** [s] ends with [suf]. *)
Definition has_suffix (suf s : string) : bool :=
  (String.length suf <=? String.length s)%nat && String.eqb (String.substring (String.length s - String.length suf) (String.length suf) s) suf.
Definition is_letter (a : ascii) : bool := is_small a || is_small (lower_ascii a).

(** Source: modules/agent/cron/reporter.go, FindService. A letter, and a last word after any byte; the whole line matches. *)
Definition FindService (line : string) : string :=
  match line with
  | "" => ""
  | String a t =>
      if is_letter a && ((has_suffix "service" t && (8 <=? String.length t)%nat) || (has_suffix "scope" t && (6 <=? String.length t)%nat)) then line else ""
  end.
(** Source: modules/agent/cron/reporter.go, FindPid. *)
Definition FindPid (line : string) : string := fst (take_bytes is_digit (String.length line) line).

(** Source: modules/agent/cron/reporter.go, lines 253-262. One line: the name of the last heading, and the processes. Symbol: GetPidsForAllSysService. *)
Definition read_line (acc : string * gmap string (list string)) (line : string) : string * gmap string (list string) :=
  let '(name, rets) := acc in
  let pid := FindPid line in
  if negb (String.eqb pid "") then (name, <[name := (default [] (rets !! name) ++ [pid])%list]> rets)
  else
    let svc := FindService line in
    if negb (String.eqb svc "") then (replace_all (replace_all svc ".service" "") ".scope" "", rets)
    else (line, rets).
(** Source: modules/agent/cron/reporter.go, GetPidsForAllSysService. The output of the command; an empty one gives nil. *)
Definition GetPidsForAllSysService (stdout : string) : option (gmap string (list string)) :=
  if String.eqb stdout "" then None else Some (snd (fold_left read_line (split stdout lf) ("", ∅))).

(** * Following hbs *)

(** The services with their processes, the names that have a channel, and the
    goroutines that wait on one, with the processes they collect. *)
Record SvcState := mkSvc { Services : gmap string (list string); ServiceChangeSigns : gset string; watchers : list (string * list string) }.
Definition svc_start : SvcState := mkSvc ∅ ∅ [].

(** [g.ServiceChangeSigns[name] <- 1]: a goroutine of the service stops. *)
Fixpoint stop_one (name : string) (l : list (string * list string)) : option (list (string * list string)) :=
  match l with
  | [] => None
  | x :: l => if String.eqb (fst x) name then Some l else l' ← stop_one name l; Some (x :: l')
  end.
Definition signal (name : string) (s : SvcState) : option SvcState :=
  if bool_decide (name ∈ ServiceChangeSigns s) then l ← stop_one name (watchers s); Some (mkSvc (Services s) (ServiceChangeSigns s) l)
  else None.

(** Source: modules/agent/cron/reporter.go, DeleteService. *)
Definition DeleteService (name : string) (s : SvcState) : option SvcState :=
  s ← signal name s; Some (mkSvc (delete name (Services s)) (ServiceChangeSigns s ∖ {[ name ]}) (watchers s)).

(** Source: modules/agent/cron/reporter.go, lines 145-157. A service hbs no longer names. Symbol: DynamicServiceWatcher. *)
Definition drop_service (sNames : list string) (s : option SvcState) (name : string) : option SvcState :=
  s ← s; if bool_decide (name ∈ sNames) then Some s else DeleteService name s.

(** Source: modules/agent/cron/reporter.go, lines 175-208. A service hbs names, each once; the new ones are those to collect afresh. Symbol: DynamicServiceWatcher. *)
Definition take_service (currentServices : gmap string (list string)) (acc : option (SvcState * list (string * list string))) (name : string)
    : option (SvcState * list (string * list string)) :=
  '(s, newServices) ← acc;
  let newpids := default [] (currentServices !! name) in
  match Services s !! name with
  | Some pids =>
      if (length newpids =? 0)%nat then s ← DeleteService name s; Some (s, newServices)
      else if bool_decide (pids = newpids) then Some (s, newServices)
      else s ← signal name s; Some (mkSvc (<[name := newpids]> (Services s)) (ServiceChangeSigns s) (watchers s), (newServices ++ [(name, newpids)])%list)
  | None =>
      if String.eqb name "" then Some (s, newServices)
      else if (length newpids =? 0)%nat then Some (s, newServices)
      else Some (mkSvc (<[name := newpids]> (Services s)) (ServiceChangeSigns s ∪ {[ name ]}) (watchers s), (newServices ++ [(name, newpids)])%list)
  end.

(** Source: modules/agent/cron/collector.go, CreateProcMapperWatcher. A goroutine for each service; their order does not matter. *)
Definition CreateProcMapperWatcher (services : list (string * list string)) (s : SvcState) : SvcState :=
  mkSvc (Services s) (ServiceChangeSigns s) (watchers s ++ services)%list.

(** Source: modules/agent/cron/reporter.go, DynamicServiceWatcher. [walk] walks the map of the services; saving them to a file is left out. *)
Definition DynamicServiceWatcher (walk : gmap string (list string) -> list string) (sNames : list string)
    (current : option (gmap string (list string))) (s : SvcState) : option SvcState :=
  if (length sNames =? 0)%nat && (size (Services s) =? 0)%nat then Some s
  else
    s ← fold_left (drop_service sNames) (walk (Services s)) (Some s);
    if (length sNames =? 0)%nat then Some s
    else
      match current with
      | None => Some s
      | Some cur =>
          if (size cur =? 0)%nat then Some s
          else
            '(s, newServices) ← fold_left (take_service cur) sNames (Some (s, []));
            Some (if (length newServices =? 0)%nat then s else CreateProcMapperWatcher newServices s)
      end.

(** Source: modules/agent/cron/reporter.go, SyncServiceConfig. One turn of the loop: the names hbs answers, none when the call fails, and the output of the command. *)
Definition SyncServiceConfig (walk : gmap string (list string) -> list string) (args : option string) (stdout : string) (s : SvcState) : option SvcState :=
  DynamicServiceWatcher walk (trimStr (default "" args)) (GetPidsForAllSysService stdout) s.

(** * The services that run are those hbs names *)

(** The collectors, those of [new] still to be started, are those of the
    services, and each has a channel. *)
Record kept (s : SvcState) (new : list (string * list string)) : Prop := {
  k_watchers : (watchers s ++ new)%list ≡ₚ map_to_list (Services s);
  k_signs : ServiceChangeSigns s = dom (Services s);
  k_named : Services s !! "" = None }.

Lemma stop_one_found name pids l : (name, pids) ∈ l -> exists p l', stop_one name l = Some l' /\ l ≡ₚ (name, p) :: l'.
Proof.
  induction l as [|[n p] l IH]; intros Hin; [by apply not_elem_of_nil in Hin|]. cbn [stop_one fst].
  destruct (String.eqb_spec n name) as [->|Hn]; [by exists p, l|]. apply elem_of_cons in Hin as [[= <- <-]|Hin]; [done|].
  destruct (IH Hin) as (p' & l' & -> & Hp). exists p', ((n, p) :: l'). split; [done|]. rewrite Hp. by constructor.
Qed.

(** A collector of a service that is not new can be told to stop. *)
Lemma signal_stops name s new pids : kept s new -> Services s !! name = Some pids -> name ∉ new.*1 ->
  exists l, signal name s = Some (mkSvc (Services s) (ServiceChangeSigns s) l) /\ (l ++ new)%list ≡ₚ map_to_list (delete name (Services s)).
Proof.
  intros [Hw Hs _] E Hn. unfold signal. rewrite bool_decide_eq_true_2 by (rewrite Hs; by apply elem_of_dom_2 in E).
  assert ((name, pids) ∈ watchers s) as Hin.
  { assert ((name, pids) ∈ (watchers s ++ new)%list) as H by (rewrite Hw; by apply elem_of_map_to_list).
    apply elem_of_app in H as [H|H]; [done|]. by apply (list_elem_of_fmap_2 fst) in H. }
  destruct (stop_one_found _ _ _ Hin) as (p & l & -> & Hl). exists l. split; [done|].
  assert (p = pids) as ->.
  { assert ((name, p) ∈ map_to_list (Services s)) as H by (rewrite <- Hw, Hl; by left). apply elem_of_map_to_list in H. congruence. }
  apply (Permutation_cons_inv (a := (name, pids))). rewrite (map_to_list_delete _ _ _ E), <- Hw, Hl. done.
Qed.
Lemma DeleteService_kept name s new pids : kept s new -> Services s !! name = Some pids -> name ∉ new.*1 ->
  exists s', DeleteService name s = Some s' /\ kept s' new /\ Services s' = delete name (Services s).
Proof.
  intros Hk E Hn. destruct (signal_stops name s new pids Hk E Hn) as (l & El & Hl). unfold DeleteService. rewrite El. eexists. split; [done|].
  split; [|done]. destruct Hk as [_ Hs Hn0]. split; cbn; [done| |].
  - rewrite Hs. by rewrite dom_delete_L.
  - rewrite lookup_delete_None. by right.
Qed.

(** The services no longer named. *)
Lemma drop_services sNames names s : NoDup names -> (forall n, n ∈ names -> is_Some (Services s !! n)) -> kept s [] ->
  exists s', fold_left (drop_service sNames) names (Some s) = Some s' /\ kept s' [] /\
    forall k, Services s' !! k = if bool_decide (k ∈ names /\ k ∉ sNames) then None else Services s !! k.
Proof.
  intros Hnd. revert s; induction Hnd as [|n names Hn Hnd IH]; intros s Hs Hk; cbn [fold_left].
  { exists s. split; [done|]. split; [done|]. intros k. rewrite bool_decide_eq_false_2; [done|]. by intros [?%not_elem_of_nil _]. }
  unfold drop_service at 2. cbn [mbind option_bind]. destruct (bool_decide_reflect (n ∈ sNames)) as [Hin|Hin].
  - destruct (IH s) as (s' & E & Hk' & Hl); [intros; apply Hs; by right|done|]. exists s'. split; [done|]. split; [done|]. intros k. rewrite Hl.
    by rewrite (bool_decide_ext (k ∈ names /\ k ∉ sNames) (k ∈ n :: names /\ k ∉ sNames)) by (rewrite elem_of_cons; naive_solver).
  - destruct (Hs n) as [pids En]; [by left|]. destruct (DeleteService_kept n s [] pids Hk En) as (s1 & -> & Hk1 & Es1); [apply not_elem_of_nil|].
    destruct (IH s1) as (s' & E & Hk' & Hl); [|done|].
    { intros m Hm. rewrite Es1, lookup_delete_ne by (by intros ->). apply Hs. by right. }
    exists s'. split; [done|]. split; [done|]. intros k. rewrite Hl, Es1. destruct (decide (k = n)) as [->|Hne].
    + rewrite lookup_delete_eq. rewrite (bool_decide_eq_true_2 (n ∈ n :: names /\ _)) by (split; [by left|done]). by destruct (bool_decide _).
    + rewrite lookup_delete_ne by done. by rewrite (bool_decide_ext (k ∈ names /\ k ∉ sNames) (k ∈ n :: names /\ k ∉ sNames)) by (rewrite elem_of_cons; naive_solver).
Qed.

(** The processes of a named service. *)
Definition running (cur : gmap string (list string)) (name : string) : option (list string) :=
  if String.eqb name "" then None else match cur !! name with Some (p :: pids) => Some (p :: pids) | _ => None end.

(** The services that are named. *)
Lemma take_services cur sNames s new : NoDup sNames -> (forall n, n ∈ sNames -> n ∉ new.*1) -> kept s new ->
  exists s' new', fold_left (take_service cur) sNames (Some (s, new)) = Some (s', new') /\ kept s' new' /\
    forall k, Services s' !! k = if bool_decide (k ∈ sNames) then running cur k else Services s !! k.
Proof.
  intros Hnd. revert s new; induction Hnd as [|n names Hn Hnd IH]; intros s new Hs Hk; cbn [fold_left].
  { exists s, new. split; [done|]. split; [done|]. intros k. by rewrite bool_decide_eq_false_2 by apply not_elem_of_nil. }
  assert (n ∉ new.*1) as Hnn by (apply Hs; by left).
  assert (exists s1 new1, take_service cur (Some (s, new)) n = Some (s1, new1) /\ kept s1 new1 /\ (forall m, m <> n -> m ∈ new1.*1 -> m ∈ new.*1) /\
    forall k, Services s1 !! k = if decide (k = n) then running cur k else Services s !! k) as (s1 & new1 & -> & Hk1 & Hn1 & Hl1).
  { unfold take_service. cbn [mbind option_bind]. assert (running cur n = match default [] (cur !! n) with [] => None | l => if String.eqb n "" then None else Some l end) as Hr.
    { unfold running. destruct (String.eqb n ""), (cur !! n) as [[|]|]; done. }
    destruct (Services s !! n) as [pids|] eqn:E.
    - destruct Hk as [Hw Hsg Hk0] eqn:EHk. assert (n <> "") as Hne by (intros ->; congruence). rewrite (proj2 (String.eqb_neq _ _) Hne) in Hr.
      destruct (default [] (cur !! n)) as [|p ps]; cbn [length Nat.eqb].
      + destruct (DeleteService_kept n s new pids (Build_kept _ _ Hw Hsg Hk0) E Hnn) as (s1 & -> & Hk1 & Es1). exists s1, new. split; [done|]. split; [done|]. split; [done|].
        intros k. rewrite Es1. destruct (decide (k = n)) as [->|]; [by rewrite lookup_delete_eq|by rewrite lookup_delete_ne].
      + case_bool_decide as Ep; [exists s, new; subst pids; split; [done|]; split; [by apply Build_kept|]; split; [done|]; intros k; destruct (decide (k = n)) as [->|]; [congruence|done]|].
        destruct (signal_stops n s new pids (Build_kept _ _ Hw Hsg Hk0) E Hnn) as (l & -> & Hl). do 2 eexists. split; [done|]. split; [|split].
        * split; cbn [watchers Services ServiceChangeSigns].
          -- rewrite app_assoc, <- insert_delete_eq, map_to_list_insert by apply lookup_delete_eq. rewrite Hl. by rewrite Permutation_app_comm.
          -- rewrite Hsg, dom_insert_L. apply elem_of_dom_2 in E. set_solver.
          -- by rewrite lookup_insert_ne.
        * intros m Hm Hin. rewrite fmap_app in Hin. apply elem_of_app in Hin as [|Hin]; [done|]. by apply list_elem_of_singleton in Hin.
        * intros k. cbn. destruct (decide (k = n)) as [->|]; [by rewrite lookup_insert_eq|by rewrite lookup_insert_ne].
    - destruct (String.eqb_spec n "") as [->|Hne].
      { exists s, new. split; [done|]. split; [done|]. split; [done|]. intros k. destruct (decide (k = "")) as [->|]; [|done]. by rewrite E. }
      destruct (default [] (cur !! n)) as [|p ps]; cbn [length Nat.eqb].
      { exists s, new. split; [done|]. split; [done|]. split; [done|]. intros k. destruct (decide (k = n)) as [->|]; [congruence|done]. }
      destruct Hk as [Hw Hsg Hk0]. do 2 eexists. split; [done|]. split; [|split].
      * split; cbn [watchers Services ServiceChangeSigns].
        -- rewrite app_assoc, map_to_list_insert by done. rewrite Hw. by rewrite Permutation_app_comm.
        -- rewrite Hsg, dom_insert_L. set_solver.
        -- by rewrite lookup_insert_ne.
      * intros m Hm Hin. rewrite fmap_app in Hin. apply elem_of_app in Hin as [|Hin]; [done|]. by apply list_elem_of_singleton in Hin.
      * intros k. cbn. destruct (decide (k = n)) as [->|]; [by rewrite lookup_insert_eq|by rewrite lookup_insert_ne]. }
  destruct (IH s1 new1) as (s' & new' & E & Hk' & Hl); [|done|].
  { intros m Hm Hin. apply (Hs m); [by right|]. apply Hn1; [by intros ->|done]. }
  exists s', new'. split; [done|]. split; [done|]. intros k. rewrite Hl, Hl1. destruct (decide (k = n)) as [->|Hne].
  - rewrite bool_decide_eq_false_2 by done. by rewrite bool_decide_eq_true_2 by by left.
  - by rewrite (bool_decide_ext (k ∈ names) (k ∈ n :: names)) by (rewrite elem_of_cons; naive_solver).
Qed.

(** What the services are to be after a round. *)
Definition followed (args : option string) (stdout : string) (m : gmap string (list string)) : gmap string (list string) :=
  let names := trimStr (default "" args) in
  match names, GetPidsForAllSysService stdout with
  | [], _ => ∅
  | _, Some cur =>
      if (size cur =? 0)%nat then filter (fun kv => kv.1 ∈ names) m
      else filter (fun kv => kv.1 ∈ names /\ kv.1 <> "" /\ kv.2 <> []) cur
  | _, None => filter (fun kv => kv.1 ∈ names) m
  end.

Lemma trimStr_NoDup str : NoDup (trimStr str).
Proof.
  unfold trimStr. destruct (_ || _); [constructor|]. cbv zeta. set (l := match last _ with Some "" => _ | _ => _ end). clearbody l.
  assert (forall acc : list string, NoDup acc -> NoDup (fold_left (fun rets val => if bool_decide (val ∈ rets) then rets else (rets ++ [val])%list) l acc)) as H;
    [|apply H; constructor].
  induction l as [|v l IH]; intros acc Ha; [done|]. cbn. apply IH. destruct (bool_decide_reflect (v ∈ acc)) as [|Hv]; [done|].
  apply NoDup_app. split; [done|]. split; [|apply NoDup_singleton]. by intros x Hx ->%list_elem_of_singleton.
Qed.

Section following.
Context (walk : gmap string (list string) -> list string).
Hypothesis walk_keys : forall m : gmap string (list string), walk m ≡ₚ (map_to_list m).*1.

Lemma round_followed args stdout s : kept s [] ->
  exists s', SyncServiceConfig walk args stdout s = Some s' /\ kept s' [] /\ Services s' = followed args stdout (Services s).
Proof using walk_keys.
  intros Hk. unfold SyncServiceConfig, DynamicServiceWatcher, followed. pose proof (trimStr_NoDup (default "" args)) as Hnd.
  set (names := trimStr _) in *. clearbody names. destruct (drop_services names (walk (Services s)) s) as (s1 & E1 & Hk1 & Hl1); [| |done|].
  { rewrite walk_keys. apply NoDup_fst_map_to_list. }
  { intros n Hn. rewrite walk_keys in Hn. apply list_elem_of_fmap in Hn as ([k v] & -> & Hin). apply elem_of_map_to_list in Hin. by exists v. }
  assert (forall k, Services s1 !! k = if bool_decide (k ∈ names) then Services s !! k else None) as Hl1'.
  { intros k. rewrite Hl1. destruct (bool_decide_reflect (k ∈ names)) as [Hin|Hin]; [rewrite bool_decide_eq_false_2; [done|naive_solver]|].
    destruct (Services s !! k) as [v|] eqn:E; [|by case_bool_decide]. rewrite bool_decide_eq_true_2; [done|]. split; [|done]. rewrite walk_keys.
    apply elem_of_map_to_list in E. by apply (list_elem_of_fmap_2 fst) in E. }
  clear Hl1. assert (Services s1 = filter (fun kv => kv.1 ∈ names) (Services s)) as Es1.
  { apply map_eq. intros k. rewrite Hl1', map_lookup_filter. destruct (Services s !! k) as [v|]; cbn; [|by case_bool_decide].
    destruct (bool_decide_reflect (k ∈ names)); by case_guard. }
  destruct names as [|n ns]; cbn [length Nat.eqb andb].
  { destruct (Nat.eqb_spec (size (Services s)) 0) as [Hz|Hz]; [|rewrite E1; cbn [mbind option_bind]].
    - exists s. split; [done|]. split; [done|]. by apply map_size_empty_iff.
    - exists s1. split; [done|]. split; [done|]. rewrite Es1. apply map_eq. intros k. rewrite lookup_empty. apply map_lookup_filter_None. right. intros v _ Hin. by apply not_elem_of_nil in Hin. }
  rewrite E1. cbn [mbind option_bind]. set (names := n :: ns) in *. clearbody names. destruct (GetPidsForAllSysService stdout) as [cur|]; [|by exists s1].
  destruct (size cur =? 0)%nat; [by exists s1|].
  destruct (take_services cur names s1 []) as (s2 & new & -> & Hk2 & Hl2); [done|intros; apply not_elem_of_nil|done|]. cbn [mbind option_bind].
  eexists. split; [done|]. split.
  - destruct new as [|x new]; [done|]. cbn [length Nat.eqb]. destruct Hk2 as [Hw Hs Hn]. split; cbn; [by rewrite app_nil_r|done|done].
  - assert (Services s2 = filter (fun kv => kv.1 ∈ names /\ kv.1 <> "" /\ kv.2 <> []) cur) as <-; [|by destruct new].
    apply map_eq. intros k. rewrite Hl2, Hl1', map_lookup_filter. unfold running. destruct (bool_decide_reflect (k ∈ names)) as [Hin|Hin].
    + destruct (String.eqb_spec k ""); destruct (cur !! k) as [[|p ps]|]; cbn; try done; case_guard; naive_solver.
    + destruct (cur !! k); cbn; [|done]. case_guard; naive_solver.
Qed.

(** The goroutines of the services refine the map that hbs and systemctl
    name: whatever hbs answers and whatever the listings hold, no round waits
    for a goroutine that is not there, and after each there is one goroutine for
    each service of the map and no other, with the processes of the map: those
    of the last listing under the names hbs gave, those that are still named
    when a listing fails, and none at all when hbs names none or the call fails. *)
Theorem services_followed (rounds : list (option string * string)) :
  exists s, fold_left (fun s round => s ← s; SyncServiceConfig walk (fst round) (snd round) s) rounds (Some svc_start) = Some s /\
    Services s = fold_left (fun m round => followed (fst round) (snd round) m) rounds ∅ /\
    watchers s ≡ₚ map_to_list (Services s) /\ ServiceChangeSigns s = dom (Services s).
Proof using walk_keys.
  assert (kept svc_start []) as H0 by done. change (∅ : gmap string (list string)) with (Services svc_start). revert H0. generalize svc_start.
  induction rounds as [|[args stdout] rounds IH]; intros s [Hw Hs Hn]; cbn [fold_left fst snd].
  - exists s. rewrite app_nil_r in Hw. done.
  - cbn [mbind option_bind]. destruct (round_followed args stdout s (Build_kept _ _ Hw Hs Hn)) as (s1 & -> & Hk1 & <-). by apply IH.
Qed.
End following.

Definition ag_listing : string := join lf ["h"; "State: running"; "nginx.service"; "123 nginx: master"; "124 nginx: worker"; "redis.service"; "77 redis-server"].
Lemma services_followed_witness : exists s,
  fold_left (fun s round => s ← s; SyncServiceConfig (fun m => (map_to_list m).*1) (fst round) (snd round) s)
    [(Some "nginx,redis,nginx,", ag_listing); (Some "redis", "")] (Some svc_start) = Some s /\
  watchers s = [("redis", ["77"])].
Proof.
  destruct (services_followed (fun m => (map_to_list m).*1) (fun _ => reflexivity _) [(Some "nginx,redis,nginx,", ag_listing); (Some "redis", "")]) as (s & E & _ & Hw & _).
  exists s. split; [exact E|]. vm_compute in E. injection E as <-. reflexivity.
Defined.
