(* ===== verification/AgentRoundsThms.v ===== *)
(** Theorems on the agent's rounds: what the collectors make is what the
    transfer accepts, and which numbers keep a round from being sent. *)
From S2P Require Export AgentRounds TransferThms.
From S2P Require Import Prelude GoStr GoRound.
Local Open Scope string_scope.

(** * Metrics the transfer can take *)

(** The type of what a collector returns. *)
Definition reportable (mv : MetricValue) : bool :=
  negb (String.eqb (mv_Metric mv) "kernel.hostname") && negb (String.eqb (mv_Metric mv) "") &&
  (String.eqb (mv_Type mv) T_GAUGE || String.eqb (mv_Type mv) T_COUNTER) &&
  match mv_Value mv with VInt _ | VFloat _ => true | _ => false end.
Notation Reportable := (Forall (fun mv => reportable mv = true)).

Create HintDb reportable.
Ltac each := repeat (apply Forall_cons; split; [reflexivity|]); try apply Forall_nil_2.

Lemma reportable_flat_map {X} (f : X -> list MetricValue) l : (forall x, x ∈ l -> Reportable (f x)) -> Reportable (flat_map f l).
Proof. intros Hf. induction l as [|x l IH]; [constructor|]. cbn. apply Forall_app. split; [apply Hf; by left|apply IH; intros; apply Hf; by right]. Qed.
Lemma reportable_map {X} (f : X -> MetricValue) l : (forall x, x ∈ l -> reportable (f x) = true) -> Reportable (map f l).
Proof. intros Hf. apply Forall_forall. intros mv Hin. apply list_elem_of_In, in_map_iff in Hin as (x & <- & Hx). by apply Hf, list_elem_of_In. Qed.

Lemma CpuMetrics_reportable s percore L : CpuMetrics s percore = Ret L -> Reportable L.
Proof.
  unfold CpuMetrics. destruct (CpuPrepared s); cbn [negb]; [|intros [= <-]; constructor].
  repeat match goal with |- context [rbind ?e _] => destruct e; cbn [rbind]; [|discriminate] end.
  destruct percore; [|intros [= <-]; each]. apply (fold_res_ind _ Reportable); [|each].
  intros metrics i metrics' _ Hm. unfold core_metrics.
  repeat match goal with |- context [rbind ?e _] => match e with rbind _ _ => fail 1 | _ => destruct e; cbn [rbind]; [|discriminate] end end.
  intros [= <-]. apply Forall_app. split; [done|each].
Qed.

Lemma DiskIOMetrics_reportable r : Reportable (DiskIOMetrics r).
Proof. unfold DiskIOMetrics. destruct r; [|constructor]. apply reportable_flat_map. intros ds _. destruct (negb _); each. Qed.
Lemma IOStatsMetrics_reportable s devices : Reportable (IOStatsMetrics s devices).
Proof. apply reportable_flat_map. intros d _. unfold device_metrics. destruct (negb _); each. Qed.
Lemma MemMetrics_reportable m : Reportable (MemMetrics m).
Proof. destruct m; cbn -[fdiv fmul f64_of_Z wrapU]; each. Qed.
Lemma LoadAvgMetrics_reportable l : Reportable (LoadAvgMetrics l).
Proof. destruct l; cbn; each. Qed.
Lemma KernelMetrics_reportable a b c : Reportable (KernelMetrics a b c).
Proof. destruct a, b, c; cbn -[wrapU]; each. Qed.
Lemma CoreNetMetrics_reportable l : Reportable (CoreNetMetrics l).
Proof. apply reportable_flat_map. intros n _. each. Qed.
Lemma UdpMetrics_reportable l : Reportable (UdpMetrics l).
Proof. by apply reportable_map; intros []. Qed.
Lemma SocketStatSummaryMetrics_reportable l : Reportable (SocketStatSummaryMetrics l).
Proof. by apply reportable_map; intros []. Qed.
Lemma NetstatMetrics_reportable ext ifs snmp walk L : NetstatMetrics ext ifs snmp walk = Ret L -> Reportable L.
Proof.
  unfold NetstatMetrics. destruct ext as [[|x l]|]; [intros [= <-]; constructor| |intros [= <-]; constructor].
  set (M := flat_map _ (x :: l)). assert (Reportable M) as HM.
  { apply reportable_flat_map. intros [key val] _. destruct (negb _); [constructor|]. apply Forall_app. split; [|each]. destruct (String.eqb _ _); each. }
  destruct (parseTcpInfo snmp) as [[m|]|]; cbn [rbind]; [| |discriminate]; intros [= <-]; [|done].
  apply Forall_app. split; [done|]. by apply reportable_map; intros [].
Qed.
Lemma DeviceMetrics_reportable mounts my build : Reportable (DeviceMetrics mounts my build).
Proof.
  unfold DeviceMetrics. destruct mounts as [l|]; [|constructor]. assert (forall acc, Reportable acc.1.1 -> Reportable (fold_left (mount_metrics my build) l acc).1.1) as H.
  { induction l as [|mp l IH]; intros acc Ha; [done|]. apply IH. destruct acc as [[L t] u]. unfold mount_metrics.
    destruct (_ && _); [done|]. destruct (build mp) as [du|]; [|done]. destruct (_ =? 0)%Z; [done|]. cbn [fst].
    apply Forall_app. split; [done|]. destruct (_ =? 0)%Z; each. }
  specialize (H ([], 0%Z, 0%Z) ltac:(constructor)). destruct (fold_left _ l _) as [[L t] u]. cbn [fst] in H.
  destruct (_ && _); [|done]. apply Forall_app. split; [done|each].
Qed.
Lemma SysUptimeMetric_reportable c : Reportable (SysUptimeMetric c).
Proof. unfold SysUptimeMetric. repeat case_match; each. Qed.
Lemma PortMetrics_reportable r t u : Reportable (PortMetrics r t u).
Proof. unfold PortMetrics. destruct (reportPorts r) as [|p l], t, u; try constructor; [done|]. by apply reportable_map. Qed.
Lemma ProcMetrics_reportable r ps walk : Reportable (ProcMetrics r ps walk).
Proof. unfold ProcMetrics. destruct (_ =? 0)%nat, ps; try constructor. by apply reportable_map; intros []. Qed.
Lemma DuMetrics_reportable r out L : DuMetrics r out = Ret L -> Reportable L.
Proof.
  apply (fold_res_ind _ Reportable); [|constructor]. intros L0 path L' _ H0. destruct (out path) as [o|]; [|by intros [= <-]].
  cbv zeta. destruct (_ =? 1)%nat; [by intros [= <-]|]. destruct (at_index _ 0); cbn [rbind]; [|discriminate]. intros [= <-].
  destruct (parse_uint _); [|done]. apply Forall_app. split; [done|each].
Qed.
Lemma UrlMetrics_reportable r h curl walk : Reportable (UrlMetrics r h curl walk).
Proof. by apply reportable_map; intros []. Qed.
Lemma NtpMetrics_reportable a b L : NtpMetrics a b = Ret L -> Reportable L.
Proof.
  unfold NtpMetrics. destruct (negb _).
  - destruct (fold_res _ _ _) as [o|] eqn:E; cbn [rbind]; [|discriminate]. intros [= <-].
    apply (fold_res_ind _ (fun o => Reportable (default [] o))) in E; [done| |constructor].
    intros [L0|] line o' _ H0; [|by intros [= <-]]. destruct (String.prefix _ _); [|by intros [= <-]].
    destruct (at_index _ 8); cbn [rbind]; [|discriminate]. intros [= <-]. destruct (ParseFloat _); [|constructor]. apply Forall_app. split; [done|each].
  - destruct (String.eqb _ _); [intros [= <-]; constructor|]. intros [= <-]. destruct (chronycParseOffset _); each.
Qed.
Lemma GpuMetrics_reportable d : Reportable (GpuMetrics d).
Proof.
  unfold GpuMetrics. destruct d as [[|x l]|]; try constructor. apply Forall_app. split; [|each].
  assert (forall l a, Reportable (gs_L a) -> Reportable (gs_L (fold_left card_metrics l a))) as H; [|apply H; constructor].
  clear. induction l as [|dev l IH]; intros a Ha; [done|]. apply IH. unfold card_metrics. destruct dev as [dev|]; [|done].
  assert (Reportable (match gp_FanSpeed dev with Some n => (gs_L a ++ [GaugeValue "gpu.fan.speed" (VInt n) ["uuid=" ++s gp_UUID dev]])%list | None => gs_L a end)) as Hf.
  { destruct (gp_FanSpeed dev); [|done]. apply Forall_app. split; [done|each]. }
  destruct (gp_Temperature dev); [|done]. destruct (gp_MemoryInfo dev) as [[]|]; [|done]. destruct (gp_UtilizationRates dev) as [[]|]; [|done].
  apply Forall_app. split; [done|each].
Qed.

#[export] Hint Resolve CpuMetrics_reportable DiskIOMetrics_reportable IOStatsMetrics_reportable MemMetrics_reportable LoadAvgMetrics_reportable
  KernelMetrics_reportable CoreNetMetrics_reportable UdpMetrics_reportable SocketStatSummaryMetrics_reportable NetstatMetrics_reportable
  DeviceMetrics_reportable SysUptimeMetric_reportable PortMetrics_reportable ProcMetrics_reportable DuMetrics_reportable
  UrlMetrics_reportable NtpMetrics_reportable GpuMetrics_reportable : reportable.

(** Every function of every level. *)
Lemma mappers_reportable c fns sec fn w L : (fns, sec) ∈ BuildMappers c -> fn ∈ fns -> fn w = Ret L -> Reportable L.
Proof.
  unfold BuildMappers. rewrite !elem_of_cons. intros [[= -> ->]|[[= -> ->]|[[= -> ->]|[[= -> ->]|[]%not_elem_of_nil]]]] Hfn.
  all: repeat (apply elem_of_cons in Hfn as [->|Hfn]; [first [intros [= <-]|intros HL]; eauto with reportable; each|]).
  all: by apply not_elem_of_nil in Hfn.
Qed.
Lemma proc_mappers_reportable c fns sec (fn : ProcCollector) w name pids L : (fns, sec) ∈ BuildProcMappers c -> fn ∈ fns -> fn w name pids = Ret L -> Reportable L.
Proof.
  unfold BuildProcMappers. rewrite !elem_of_cons. intros [[= -> ->]|[]%not_elem_of_nil].
  rewrite !elem_of_cons. intros [->|[->|[]%not_elem_of_nil]].
  - unfold ProcCpuMetrics. destruct (_ || _); [intros [= <-]; constructor|]. destruct (_ !! name); [|intros [= <-]; constructor].
    repeat match goal with |- context [rbind ?e _] => match e with rbind _ _ => fail 1 | _ => destruct e; cbn [rbind]; [|discriminate] end end.
    intros [= <-]. each.
  - intros [= <-]. unfold ProcMemMetrics. destruct (_ =? 0)%nat; [constructor|]. apply reportable_map. intros [field metric] Hin.
    unfold mem_fields in Hin. rewrite !elem_of_cons in Hin. repeat (destruct Hin as [[= -> ->]|Hin]; [reflexivity|]). by apply not_elem_of_nil in Hin.
Qed.

(** * Readings that do not make the agent panic *)

(** Every processor has a line. *)
Definition complete (p : ProcStat) : Prop := is_Some (ps_Cpu p) /\ Forall (fun c => is_Some c) (ps_Cpus p).
(** The lines of the two readings, the words of the lines of [Tcp:], an output of [du], the lines of [ntpq]. *)
Record readable (w : World) : Prop := {
  rd_cpu : match procStatHistory (w_cpu w) with (_, None) => True | (Some new, Some old) => complete new /\ complete old | _ => False end;
  rd_tcp : match w_snmp w with
           | None => True
           | Some l => Forall (fun r => Fields r <> []) l /\ exists names values rest,
               List.filter (fun rs => match rs with r :: _ => String.eqb r "Tcp:" | [] => false end) (map Fields l) = names :: values :: rest /\
               (length names <= length values)%nat
           end;
  rd_du : forall path out, w_du w path = Some out -> Fields out <> [];
  rd_ntp : forall line, line ∈ GoStr.split (w_ntpq w) lf -> String.prefix "*" line = true -> (9 <= length (Fields line))%nat }.

Section cpu.
Context (s : CpuState) (new old : ProcStat).
Hypothesis Hs : procStatHistory s = (Some new, Some old).
Hypothesis Hnew : complete new.
Hypothesis Hold : complete old.

Lemma whole_ret p : complete p -> exists u, whole (Some p) = Ret u.
Proof using Type. intros [[u E] _]. exists u. unfold whole. cbn. by rewrite E. Qed.
Lemma core_ret p i : complete p -> (0 <= i < Z.of_nat (length (ps_Cpus p)))%Z -> exists u, core (Some p) i = Ret u.
Proof using Type.
  intros [_ Hp] Hi. unfold core. cbn [deref rbind]. destruct (lookup_lt_is_Some_2 (ps_Cpus p) (Z.to_nat i)) as [c E]; [lia|].
  destruct (Forall_lookup_1 _ _ _ _ Hp E) as [u ->]. exists u. unfold at_index. rewrite E. destruct (Z.ltb_spec i 0); [lia|done].
Qed.
Lemma deltaTotal_ret : exists d, deltaTotal s = Ret d.
Proof using All.
  unfold deltaTotal. rewrite Hs. cbn [fst snd]. destruct (whole_ret new Hnew) as [u ->], (whole_ret old Hold) as [v ->]. by eexists.
Qed.
Lemma share_ret f : exists x, share s f = Ret x.
Proof using All.
  unfold share. destruct deltaTotal_ret as [d ->]. cbn [rbind]. destruct (d =? 0)%Z; [by eexists|]. rewrite Hs. cbn [fst snd].
  destruct (whole_ret new Hnew) as [u ->], (whole_ret old Hold) as [v ->]. by eexists.
Qed.
Lemma CpuIowait_ret : exists x, CpuIowait s = Ret x.
Proof using All.
  unfold CpuIowait. destruct deltaTotal_ret as [d ->]. cbn [rbind]. destruct (d =? 0)%Z; [by eexists|]. rewrite Hs. cbn [fst snd].
  destruct (whole_ret new Hnew) as [u ->], (whole_ret old Hold) as [v ->]. by eexists.
Qed.
Lemma CalculateProcCpuRate_ret n : exists x, CalculateProcCpuRate s n = Ret x.
Proof using All. unfold CalculateProcCpuRate. destruct deltaTotal_ret as [d ->]. cbn [rbind]. destruct (d =? 0)%Z; by eexists. Qed.
Lemma shareByCore_ret f i : (0 <= i)%Z -> exists x, shareByCore s f i = Ret x.
Proof using All.
  intros Hi. unfold shareByCore, deltaTotalByCore, cores. rewrite Hs. cbn [fst snd deref rbind].
  rewrite (proj2 (Z.eqb_neq _ _)), (proj2 (Z.ltb_ge _ _)) by lia.
  destruct (Z.ltb_spec i (Z.of_nat (length (ps_Cpus new)))), (Z.ltb_spec i (Z.of_nat (length (ps_Cpus old)))); cbn [andb rbind]; try (by eexists).
  destruct (core_ret new i Hnew) as [u ->]; [lia|]. destruct (core_ret old i Hold) as [v ->]; [lia|]. cbn [rbind].
  destruct (_ =? 0)%Z; by eexists.
Qed.
Ltac shares := repeat match goal with
  | |- context [rbind (share s ?f) _] => destruct (share_ret f) as [? ->]; cbn [rbind]
  | |- context [rbind (shareByCore s ?f ?i) _] => destruct (shareByCore_ret f i) as [? ->]; [lia|]; cbn [rbind]
  end.
Lemma core_metrics_ret i : (0 <= i)%Z -> exists L, core_metrics s i = Ret L.
Proof using All.
  intros Hi. unfold core_metrics, CpuIdleByCore, CpuUserByCore, CpuNiceByCore, CpuSystemByCore, CpuIowaitByCore, CpuIrqByCore, CpuSoftIrqByCore,
    CpuStealByCore, CpuGuestByCore. shares. by eexists.
Qed.
Lemma CpuMetrics_ret percore : exists L, CpuMetrics s percore = Ret L.
Proof using All.
  unfold CpuMetrics. destruct (CpuPrepared s); cbn [negb]; [|by eexists].
  unfold CpuIdle, CpuUser, CpuNice, CpuSystem, CpuIrq, CpuSoftIrq, CpuSteal, CpuGuest. shares.
  destruct CpuIowait_ret as [? ->]. shares. unfold CurrentCpuSwitches, getCpus, cores. rewrite Hs. cbn [fst snd deref rbind].
  destruct percore; [|by eexists]. match goal with |- context [fold_res ?f ?a ?l] => destruct (fold_res_total f (fun _ => True) l) with (s := a) as (L & E & _) end; [|done|by exists L].
  intros m i _ _. destruct (core_metrics_ret (Z.of_nat i)) as [L ->]; [lia|]. by eexists.
Qed.
End cpu.

Definition is_tcp (rs : list string) : bool := match rs with r :: _ => String.eqb r "Tcp:" | [] => false end.
Lemma getTcpInfo_ret l acc : Forall (fun r => Fields r <> []) l ->
  fold_res tcp_line acc l = Ret (acc ++ List.filter is_tcp (map Fields l))%list.
Proof.
  intros Hl. revert acc; induction Hl as [|r l Hr Hl IH]; intros acc; cbn [fold_res map List.filter]; [by rewrite app_nil_r|].
  unfold tcp_line at 1. destruct (Fields r) as [|w ws]; [done|]. change (at_index (w :: ws) 0) with (Ret w). cbn [rbind is_tcp].
  rewrite IH. f_equal. destruct (String.eqb w "Tcp:"); [by rewrite <- app_assoc|done].
Qed.
Lemma NetstatMetrics_ret w : readable w -> exists L, NetstatMetrics (w_TcpExt w) (w_eth w) (w_snmp w) (w_walk_tcp w) = Ret L.
Proof.
  intros [_ Ht _ _]. unfold NetstatMetrics. destruct (w_TcpExt w) as [[|x ext]|]; [by eexists| |by eexists].
  assert (exists m, parseTcpInfo (w_snmp w) = Ret m) as [m ->]; [|destruct m; by eexists].
  unfold parseTcpInfo, getTcpInfo. destruct (w_snmp w) as [l|]; [|by eexists]. destruct Ht as (Hl & names & values & rest & E & Hn).
  rewrite getTcpInfo_ret by done. cbn [rbind app]. fold is_tcp in E. rewrite E. change (at_index (names :: values :: rest) 0) with (Ret names). cbn [rbind].
  match goal with |- context [fold_res ?f ?a ?l] => destruct (fold_res_total f (fun _ => True) l) with (s := a) as (m & E2 & _) end; [|done|by exists m].
  intros o [i key] Hin _. destruct o as [m|]; [|by eexists]. destruct (m !! key); [|by eexists].
  change (at_index (names :: values :: rest) 1) with (Ret values). cbn [rbind].
  apply elem_of_lookup_imap in Hin as (j & k & [= -> ->] & Hj). apply lookup_lt_Some in Hj.
  destruct (lookup_lt_is_Some_2 values j) as [v Ev]; [lia|]. rewrite (at_index_lookup _ _ _ Ev). by eexists.
Qed.

Lemma DuMetrics_ret w : readable w -> exists L, DuMetrics (w_reported w) (w_du w) = Ret L.
Proof.
  intros [_ _ Hd _]. unfold DuMetrics. match goal with |- context [fold_res ?f ?a ?l] => destruct (fold_res_total f (fun _ => True) l) with (s := a) as (L & E & _) end; [|done|by exists L].
  intros L path _ _. destruct (w_du w path) as [out|] eqn:E; [|by eexists]. specialize (Hd path out E). cbv zeta.
  destruct (Fields out) as [|x [|y l]]; [done|by eexists|]. by eexists.
Qed.
Lemma NtpMetrics_ret w : readable w -> exists L, NtpMetrics (w_ntpq w) (w_chronyc w) = Ret L.
Proof.
  intros [_ _ _ Hn]. unfold NtpMetrics. destruct (negb _); [|destruct (String.eqb _ _); by eexists].
  match goal with |- context [fold_res ?f ?a ?l] => destruct (fold_res_total f (fun _ => True) l) with (s := a) as (L & -> & _) end; [|done|by eexists].
  intros [L|] line Hin _; [|by eexists]. destruct (String.prefix "*" line) eqn:E; [|by eexists]. specialize (Hn line Hin E).
  destruct (lookup_lt_is_Some_2 (Fields line) 8) as [x Ex]; [lia|]. change 8%Z with (Z.of_nat 8). rewrite (at_index_lookup _ _ _ Ex). by eexists.
Qed.
Lemma CpuMetrics_readable w percore : readable w -> exists L, CpuMetrics (w_cpu w) percore = Ret L.
Proof.
  intros [Hc _ _ _]. destruct (procStatHistory (w_cpu w)) as [[new|] [old|]] eqn:E; try done.
  - destruct Hc. by eapply CpuMetrics_ret.
  - exists []. unfold CpuMetrics, CpuPrepared. by rewrite E.
  - exists []. unfold CpuMetrics, CpuPrepared. by rewrite E.
Qed.
Lemma ProcCpuMetrics_readable w name : readable w -> exists L, ProcCpuMetrics (w_cpu w) (w_procs w) name = Ret L.
Proof.
  intros [Hc _ _ _]. unfold ProcCpuMetrics, CpuPrepared. destruct (procStatHistory (w_cpu w)) as [[new|] [old|]] eqn:E; try done; try by eexists.
  destruct (_ || _); [by eexists|]. destruct (_ !! name); [|by eexists]. destruct Hc as [Hn Ho].
  repeat match goal with |- context [CalculateProcCpuRate _ ?n] => destruct (CalculateProcCpuRate_ret _ new old E Hn Ho n) as [? ->]; cbn [rbind] end. by eexists.
Qed.

(** * A round *)

(** What a goroutine of the agent runs in turn: a level, or the functions of a level for a service. *)
Definition runs_in (c : Levels) (fns : list Collector) (sec : Z) : Prop :=
  (fns, sec) ∈ BuildMappers c \/
  exists pfns name pids, (pfns, sec) ∈ BuildProcMappers c /\ fns = map (fun (fn : ProcCollector) w => fn w name pids) pfns.

Lemma runs_in_reportable c fns sec fn w L : runs_in c fns sec -> fn ∈ fns -> fn w = Ret L -> Reportable L.
Proof.
  intros [H|(pfns & name & pids & H & ->)] Hin; [by eapply mappers_reportable|].
  apply list_elem_of_In, in_map_iff in Hin as (pfn & <- & Hin). apply list_elem_of_In in Hin. by eapply proc_mappers_reportable.
Qed.
Lemma runs_in_returns c fns sec fn w : runs_in c fns sec -> readable w -> fn ∈ fns -> exists L, fn w = Ret L.
Proof.
  intros Hr Hw. pose proof (NetstatMetrics_ret w Hw). pose proof (DuMetrics_ret w Hw). pose proof (NtpMetrics_ret w Hw).
  pose proof (CpuMetrics_readable w (w_percore w) Hw). destruct Hr as [Hin|(pfns & name & pids & Hin & ->)].
  - revert Hin. unfold BuildMappers. rewrite !elem_of_cons. intros [[= -> ->]|[[= -> ->]|[[= -> ->]|[[= -> ->]|[]%not_elem_of_nil]]]] Hfn.
    all: repeat (apply elem_of_cons in Hfn as [->|Hfn]; [by eauto|]).
    all: by apply not_elem_of_nil in Hfn.
  - revert Hin. unfold BuildProcMappers. rewrite !elem_of_cons. intros [[= -> ->]|[]%not_elem_of_nil] Hfn. cbn in Hfn.
    pose proof (ProcCpuMetrics_readable w name Hw). rewrite !elem_of_cons in Hfn. destruct Hfn as [->|[->|[]%not_elem_of_nil]]; by eauto.
Qed.

(** The functions of a round return one list each. *)
Lemma run_functions (fns : list Collector) w items0 items : fold_res (fun items fn => let! l := fn w in Ret (items ++ [l])%list) items0 fns = Ret items ->
  exists new, items = (items0 ++ new)%list /\ Forall2 (fun fn l => fn w = Ret l) fns new.
Proof.
  revert items0; induction fns as [|fn fns IH]; intros items0; cbn [fold_res]; [intros [= <-]; exists []; by rewrite app_nil_r|].
  destruct (fn w) as [l|] eqn:E; [|discriminate]. cbn [rbind]. intros (new & -> & Hn)%IH. exists (l :: new). split; [by rewrite <- app_assoc|by constructor].
Qed.
Lemma collect_round_ret c fns sec ignore now w : runs_in c fns sec -> readable w -> exists mvs, collect_round sec fns ignore now w = Ret mvs.
Proof.
  intros Hr Hw. unfold collect_round. destruct (w_hostname w) as [h|]; [|by eexists].
  match goal with |- context [fold_res ?f ?a ?l] => destruct (fold_res_total f (fun _ => True) l) with (s := a) as (L & -> & _) end; [|done|by eexists].
  intros items fn Hin _. destruct (runs_in_returns c fns sec fn w Hr Hw Hin) as [L ->]. by eexists.
Qed.
(** What is sent of a round is what its functions return, stamped. *)
Definition stamped (host : string) (sec now : Z) (mv : MetricValue) : MetricValue := mkMetricValue host (mv_Metric mv) (mv_Value mv) sec (mv_Type mv) (mv_Tags mv) now.
Lemma collect_round_elem sec fns ignore now w host mvs : w_hostname w = Some host -> collect_round sec fns ignore now w = Ret mvs ->
  exists items, Forall2 (fun fn l => fn w = Ret l) fns items /\
    mvs = map (stamped host sec now) (filter (fun mv => default false (ignore !! mv_Metric mv) = false) (concat items)).
Proof.
  intros Hh. unfold collect_round. rewrite Hh. destruct (fold_res _ _ _) as [items|] eqn:E; cbn [rbind]; [|discriminate]. intros [= <-].
  apply run_functions in E as (new & -> & Hn). by exists new.
Qed.

(** What a round sends: reportable, and stamped with a host and a step. *)
Definition sendable (v : MetricValue) : Prop := reportable v = true /\ mv_Endpoint v <> "" /\ (0 < mv_Step v)%Z.
Definition too_long (v : MetricValue) : bool := (510 <? slen (mv_Metric v) + slen (mv_Tags v))%Z.

Lemma sendable_valid v v' : sendable v -> json_metric v = Some v' -> valid_arg (Some v') = negb (too_long v').
Proof.
  intros (Hr & He & Hs) Hj. unfold json_metric in Hj. destruct (json_value (mv_Value v)) as [x|] eqn:Ev; [|discriminate]. cbn [mbind option_bind] in Hj. injection Hj as <-.
  unfold reportable in Hr. apply andb_true_iff in Hr as [Hr Hv]. apply andb_true_iff in Hr as [Hr Ht].
  rewrite valid_arg_checks. unfold acceptable. cbn [mv_Metric mv_Endpoint mv_Type mv_Value mv_Step mv_Tags]. apply andb_true_iff in Hr as [Hk Hm]. rewrite Hk.
  apply negb_true_iff in Hm. rewrite Hm, (proj2 (String.eqb_neq _ _) He). cbn [negb andb orb].
  assert (String.eqb (mv_Type v) T_COUNTER || String.eqb (mv_Type v) T_GAUGE = true) as -> by by rewrite orb_comm.
  rewrite (proj2 (Z.leb_gt _ _)) by done. unfold too_long. cbn [mv_Metric mv_Tags orb negb andb].
  destruct (mv_Value v) as [t|f|z|]; try done; cbn in Ev; [destruct (is_nan f || is_inf f); [discriminate|]|]; injection Ev as <-; by rewrite !andb_true_r.
Qed.

Lemma stamped_sendable c fns sec ignore now w host mvs : runs_in c fns sec -> (0 < sec)%Z -> w_hostname w = Some host -> host <> "" ->
  collect_round sec fns ignore now w = Ret mvs -> Forall sendable mvs.
Proof.
  intros Hr Hs Hh Hn E. destruct (collect_round_elem _ _ _ _ _ _ _ Hh E) as (items & Hi & ->). apply Forall_forall.
  intros mv Hin. apply list_elem_of_In, in_map_iff in Hin as (mv0 & <- & Hin). apply list_elem_of_In, list_elem_of_filter in Hin as [_ Hin].
  apply list_elem_of_In, in_concat in Hin as (l & Hl & Hin). apply list_elem_of_In, list_elem_of_lookup in Hl as [i Hl].
  destruct (Forall2_lookup_r _ _ _ _ _ Hi Hl) as (fn & Hfn & El). apply list_elem_of_lookup_2 in Hfn.
  pose proof (runs_in_reportable c fns sec fn w l Hr Hfn El) as HR. rewrite Forall_forall in HR.
  split; [|by split]. apply (HR mv0). by apply list_elem_of_In.
Qed.
Lemma default_tags_sendable dt mvs : Forall sendable mvs -> Forall sendable (add_default_tags dt mvs).
Proof.
  intros H. unfold add_default_tags. destruct (_ =? 0)%nat; [done|]. apply Forall_map. eapply Forall_impl; [exact H|]. intros v (? & ? & ?). by split.
Qed.
Lemma add_default_tags_length dt mvs : length (add_default_tags dt mvs) = length mvs.
Proof. unfold add_default_tags. destruct (_ =? 0)%nat; [done|]. apply length_map. Qed.

(** C32: The metrics an agent collects are well typed: while what it reads is
    complete, every function of every level and of every service returns, and
    the transfer that is sent a round of them takes each, but for those whose
    name and tags are longer than 510 bytes. The round is one that JSON can
    write, without a number that is not finite, and the transfer one whose Kafka
    channel, if it is on, has room. *)
Theorem collected_metrics_accepted (c : Levels) (fns : list Collector) (sec now start stop : Z) (ignore : gmap string bool)
    (dt : list (string * string)) (host : string) (w : World) (cfg : TConfig) (rings : Rings) (s : TransState) :
  runs_in c fns sec -> (0 < sec)%Z -> readable w -> w_hostname w = Some host -> host <> "" -> wired cfg rings s -> kafka_on cfg && kafka_full s = false ->
  exists mvs, collect_round sec fns ignore now w = Ret mvs /\
    forall args, json_args (add_default_tags dt mvs) = Some args ->
    exists r s', RecvMetricValues cfg rings start stop (map Some args) "rpc" s = Ret (Some r, s') /\
      rs_Total r = Z.of_nat (length mvs) /\ rs_Invalid r = Z.of_nat (length (List.filter too_long args)).
Proof.
  intros Hr Hs Hw Hh Hn Hwired Hroom. destruct (collect_round_ret c fns sec ignore now w Hr Hw) as [mvs E]. exists mvs. split; [done|].
  pose proof (default_tags_sendable dt _ (stamped_sendable c fns sec ignore now w host mvs Hr Hs Hh Hn E)) as HS.
  intros args Ha. unfold json_args in Ha. apply mapM_Some in Ha.
  destruct (report_run cfg rings start stop (map Some args) "rpc" s Hwired) as (s' & E' & _). unfold waits in E'. rewrite Hroom in E'.
  do 2 eexists. split; [exact E'|]. cbn [reply_of rs_Total rs_Invalid]. rewrite length_map. split.
  { by rewrite <- (Forall2_length _ _ _ Ha), add_default_tags_length. }
  f_equal. clear -Ha HS. induction Ha as [|v v' vs args0 Hj Ha IH]; [done|]. apply Forall_cons in HS as [Hv HS].
  cbn [map List.filter]. rewrite (sendable_valid v v' Hv Hj), negb_involutive. destruct (too_long v'); cbn [length]; by rewrite IH.
Qed.

(** * Numbers that cannot be sent *)

Definition writable (mv : MetricValue) : bool := match mv_Value mv with VFloat x => is_fin x | _ => true end.
Notation Writable := (Forall (fun mv => writable mv = true)).

Lemma json_metric_writable mv : json_metric mv = None <-> writable mv = false.
Proof. unfold json_metric, writable. destruct (mv_Value mv) as [|[]| |]; cbn; split; try done; by intros [=]. Qed.

(** The numbers the collectors of the second level read: the floats are finite, the counters in their range. *)
Record in_range (w : World) : Prop := {
  rg_load : match w_LoadAvg w with Some l => is_fin (la_Avg1min l) && is_fin (la_Avg5min l) && is_fin (la_Avg15min l) = true | None => True end;
  rg_mem : match w_MemInfo w with
           | Some m => Forall in_u64 [me_MemTotal m; me_MemAvailable m; me_SwapTotal m; me_SwapUsed m; me_SwapFree m]
           | None => True
           end;
  rg_tcp : Forall (fun kv => in_u64 kv.2) (default [] (w_TcpExt w));
  rg_eth : Forall (fun n => in_i64 (ni_OutPackages n)) (default [] (w_eth w));
  rg_net : Forall (fun n => is_fin (ni_InPercent n) && is_fin (ni_OutPercent n) = true) (default [] (w_NetIfs w)) }.

Lemma since_range a b : (Z.abs (since a b) < 2 ^ 64)%Z.
Proof. pose proof (wrapU_range (a - b)) as [? ?]. unfold since. lia. Qed.
Lemma IODelta_range s d f : (forall arr, in_u64 (f arr)) -> in_u64 (IODelta s d f).
Proof. intros Hf. unfold IODelta. destruct (s !! d) as [[new [old|]]|]; [apply Hf|done..]. Qed.
Ltac u64 := match goal with
  | |- (Z.abs (IODelta ?s ?d ?f) < _)%Z => pose proof (IODelta_range s d f (fun arr => wrapU_range _)) as [? ?]; lia
  | |- (Z.abs (wrapU ?z) < _)%Z => pose proof (wrapU_range z) as [? ?]; lia
  | |- _ => lia
  end.

(** No time has passed between the last two readings of a device, for all the agent knows. *)
Definition no_interval (s : DiskState) (device : string) : Prop :=
  match s !! device with
  | Some (new, Some old) => IOMsecTotal (new, old) = 0%Z /\ TS (new, old) = 0%Z
  | _ => True
  end.

Lemma disk_util_fin use dur : in_u64 use -> in_u64 dur -> is_fin (disk_util use dur) = false <-> use = 0%Z /\ dur = 0%Z.
Proof.
  intros [Hu1 Hu2] [Hd1 Hd2]. unfold disk_util. set (m := fmul (f64_of_Z use) (f64_of_Z 100)).
  destruct (Z.eq_dec dur 0%Z) as [->|Hd].
  - change (f64_of_Z 0%Z) with fzero. destruct (Z.eq_dec use 0%Z) as [->|Hu]; [split; [done|vm_compute; done]|]. split; [|by intros [-> _]].
    assert (positive m = true) as Hm.
    { apply (fmul_positive (0 + 0)%Z); [apply f64_of_Z_positive; lia|done|]. destruct (f64_of_Z_mag use) as [H1 H2]; [lia|].
      eapply (fmul_mag_ge 0%Z 0%Z 64%Z 64%Z); [by apply H2|by apply (f64_of_Z_mag 100)|done|by apply (f64_of_Z_mag 100)|lia|lia]. }
    destruct m as [| | |[] m e]; done.
  - assert (is_fin (fdiv m (f64_of_Z dur)) = true) as Hf by (apply product_quotient_fin; lia).
    split; [|by intros [_ ->]]. destruct (flt _ _); [done|]. by rewrite Hf.
Qed.

Lemma writable_flat_map {X} (f : X -> list MetricValue) l : (forall x, x ∈ l -> Writable (f x)) -> Writable (flat_map f l).
Proof. intros Hf. induction l as [|x l IH]; [constructor|]. cbn. apply Forall_app. split; [apply Hf; by left|apply IH; intros; apply Hf; by right]. Qed.
Lemma writable_map {X} (f : X -> MetricValue) l : (forall x, x ∈ l -> writable (f x) = true) -> Writable (map f l).
Proof. intros Hf. apply Forall_forall. intros mv Hin. apply list_elem_of_In, in_map_iff in Hin as (x & <- & Hx). by apply Hf, list_elem_of_In. Qed.

Lemma DiskIOMetrics_writable r : Writable (DiskIOMetrics r).
Proof. unfold DiskIOMetrics. destruct r; [|constructor]. apply writable_flat_map. intros ds _. destruct (negb _); each. Qed.
Lemma KernelMetrics_writable a b c : Writable (KernelMetrics a b c).
Proof. destruct a, b, c; cbn -[wrapU]; each. Qed.
Lemma LoadAvgMetrics_writable w : in_range w -> Writable (LoadAvgMetrics (w_LoadAvg w)).
Proof.
  intros [Hl _ _ _ _]. destruct (w_LoadAvg w) as [[a b c]|]; [|constructor]. cbn in *. apply andb_true_iff in Hl as [[? ?]%andb_true_iff ?].
  by repeat constructor.
Qed.
Lemma MemMetrics_writable w : in_range w -> Writable (MemMetrics (w_MemInfo w)).
Proof.
  intros [_ Hm _ _ _]. destruct (w_MemInfo w) as [m|]; [|constructor]. rewrite !Forall_cons in Hm. destruct Hm as ([? ?] & [? ?] & [? ?] & [? ?] & [? ?] & _).
  unfold MemMetrics. cbv zeta. repeat (apply Forall_cons; split; [first [reflexivity|unfold writable, gauge_float, GaugeValue, NewMetricValue; cbn [mv_Value]]|]); [..|constructor].
  all: match goal with |- context [(?x =? 0)%Z] => destruct (Z.eqb_spec x 0%Z) end; [reflexivity|]; apply product_quotient_fin; u64.
Qed.
Lemma CoreNetMetrics_writable w : in_range w -> Writable (CoreNetMetrics (w_NetIfs w)).
Proof.
  intros [_ _ _ _ Hn]. apply writable_flat_map. intros n Hin. rewrite Forall_forall in Hn. specialize (Hn n Hin). apply andb_true_iff in Hn as [? ?].
  cbv zeta. repeat (apply Forall_cons; split; [first [reflexivity|assumption]|]). constructor.
Qed.
Lemma NetstatMetrics_writable w L : in_range w -> NetstatMetrics (w_TcpExt w) (w_eth w) (w_snmp w) (w_walk_tcp w) = Ret L -> Writable L.
Proof.
  intros [_ _ Ht He _]. unfold NetstatMetrics. destruct (w_TcpExt w) as [[|x l]|]; [intros [= <-]; constructor| |intros [= <-]; constructor].
  set (n := fold_left _ _ 0%Z). assert (in_i64 n) as Hn.
  { unfold n. clear n. assert (in_i64 0) as H0 by by_compute. revert H0. generalize 0%Z. induction He as [|i ifs Hi He IH]; intros z Hz; [done|].
    cbn. apply IH. by destruct (String.eqb _ _). }
  set (M := flat_map _ (x :: l)). assert (Writable M) as HM.
  { apply writable_flat_map. intros [key val] Hin. destruct (negb _); [constructor|]. apply Forall_app. split; [|each]. destruct (String.eqb _ _); [|constructor].
    apply Forall_singleton. unfold writable, gauge_float, GaugeValue, NewMetricValue. cbn [mv_Value]. destruct (Z.eqb_spec n 0); [reflexivity|].
    rewrite Forall_forall in Ht. specialize (Ht _ Hin) as [? ?]. cbn [snd] in *. apply product_quotient_fin; unfold in_i64 in *; lia. }
  destruct (parseTcpInfo (w_snmp w)) as [[m|]|]; cbn [rbind]; [| |discriminate]; intros [= <-]; [|done].
  apply Forall_app. split; [done|]. by apply writable_map; intros [].
Qed.
Lemma PortMetrics_writable r t u : Writable (PortMetrics r t u).
Proof. unfold PortMetrics. destruct (reportPorts r) as [|p l], t, u; try constructor; [done|]. by apply writable_map. Qed.
Lemma ProcMetrics_writable r ps walk : Writable (ProcMetrics r ps walk).
Proof. unfold ProcMetrics. destruct (_ =? 0)%nat, ps; try constructor. by apply writable_map; intros []. Qed.
Lemma UdpMetrics_writable l : Writable (UdpMetrics l).
Proof. by apply writable_map; intros []. Qed.
Lemma SocketStatSummaryMetrics_writable l : Writable (SocketStatSummaryMetrics l).
Proof. by apply writable_map; intros []. Qed.

(** Of the metrics of a device only its use can be no number. *)
Lemma device_metrics_writable s d mv : mv ∈ device_metrics s d -> writable mv = false <->
  mv = GaugeValue "disk.io.util" (VFloat (disk_util (IODelta s d IOMsecTotal) (IODelta s d TS))) ["device=" ++s d] /\ no_interval s d.
Proof.
  intros Hin. assert (is_fin (disk_util (IODelta s d IOMsecTotal) (IODelta s d TS)) = false <-> no_interval s d) as Hu.
  { rewrite disk_util_fin by (apply IODelta_range; intros; apply wrapU_range). unfold no_interval, IODelta. destruct (s !! d) as [[new [old|]]|]; done. }
  unfold device_metrics in Hin. destruct (negb _); [by apply not_elem_of_nil in Hin|]. cbv zeta in Hin. rewrite !elem_of_cons in Hin.
  assert (forall n, in_u64 n -> is_fin (if (wrapU (IODelta s d IOReadRequests + IODelta s d IOWriteRequests) =? 0)%Z then fzero
    else fdiv (f64_of_Z n) (f64_of_Z (wrapU (IODelta s d IOReadRequests + IODelta s d IOWriteRequests)))) = true) as Hper.
  { intros n [? ?]. destruct (Z.eqb_spec (wrapU (IODelta s d IOReadRequests + IODelta s d IOWriteRequests)) 0); [done|]. apply counter_quotient_fin; u64. }
  repeat (destruct Hin as [->|Hin]; [first [split; [intros Hf; exfalso; revert Hf; unfold writable, GaugeValue, NewMetricValue; cbn [mv_Value];
    first [rewrite product_fin by u64|rewrite counter_quotient_fin by u64|rewrite Hper by first [apply wrapU_range|apply IODelta_range; intros; apply wrapU_range]]; discriminate
    |intros [[=] _]] | split; [intros Hf; split; [done|by apply Hu]|by intros [_ ?%Hu]] ]|]). by apply not_elem_of_nil in Hin.
Qed.

#[export] Hint Resolve DiskIOMetrics_writable KernelMetrics_writable LoadAvgMetrics_writable MemMetrics_writable CoreNetMetrics_writable
  NetstatMetrics_writable PortMetrics_writable ProcMetrics_writable UdpMetrics_writable SocketStatSummaryMetrics_writable : reportable.

(** The second level: the metrics that cannot be written are uses of devices. *)
Lemma level_two_writable c fns sec w items mv : BuildMappers c !! 1%nat = Some (fns, sec) -> in_range w ->
  Forall2 (fun fn l => fn w = Ret l) fns items -> mv ∈ concat items -> writable mv = false <->
  exists d, d ∈ w_devices w /\ ShouldHandleDevice d = true /\ no_interval (w_disk w) d /\
    mv = GaugeValue "disk.io.util" (VFloat (disk_util (IODelta (w_disk w) d IOMsecTotal) (IODelta (w_disk w) d TS))) ["device=" ++s d].
Proof.
  intros [= <- <-] Hw Hi Hin. repeat (apply Forall2_cons_inv_l in Hi as (? & ? & [= <-] & Hi & ->) || apply Forall2_cons_inv_l in Hi as (? & ? & ?Hnet & Hi & ->)).
  apply Forall2_nil_inv_l in Hi as ->. cbn [concat] in Hin. rewrite !elem_of_app in Hin.
  assert (forall L, Writable L -> mv ∈ L -> writable mv = false -> False) as Hno.
  { intros L HL Hm Hf. rewrite Forall_forall in HL. by rewrite (HL mv Hm) in Hf. }
  split.
  - intros Hf. destruct Hin as [Hin|[Hin|[Hin|[Hin|[Hin|[Hin|[Hin|[Hin|[Hin|[Hin|[Hin|Hin]]]]]]]]]]]; try (exfalso; refine (Hno _ _ Hin Hf); solve [eauto with reportable]).
    apply list_elem_of_In, in_flat_map in Hin as (d & Hd & Hin). apply list_elem_of_In in Hd, Hin. exists d. split; [done|].
    destruct (proj1 (device_metrics_writable _ _ _ Hin) Hf) as [-> Hn]. split; [|done]. unfold device_metrics in Hin.
    destruct (ShouldHandleDevice d); [done|by apply not_elem_of_nil in Hin].
  - intros (d & Hd & Hh & Hn & E). apply (device_metrics_writable (w_disk w) d); [|done]. subst mv. unfold device_metrics. rewrite Hh. cbv zeta. cbn [negb].
    rewrite !elem_of_cons. repeat (try (by left); right).
Qed.
Lemma json_args_None mvs : json_args mvs = None <-> exists mv, mv ∈ mvs /\ writable mv = false.
Proof.
  unfold json_args. rewrite mapM_None, Exists_exists. split; intros (mv & Hin & H); exists mv; (split; [done|]); by apply json_metric_writable.
Qed.
Lemma default_tags_writable dt mvs : json_args (add_default_tags dt mvs) = None <-> json_args mvs = None.
Proof.
  rewrite !json_args_None. unfold add_default_tags. destruct (_ =? 0)%nat; [done|]. cbv zeta. split; intros (mv & Hin & Hf).
  - apply list_elem_of_In, in_map_iff in Hin as (mv0 & <- & Hin). exists mv0. by apply list_elem_of_In in Hin.
  - eexists. split; [apply list_elem_of_In, in_map, list_elem_of_In, Hin|done].
Qed.
Lemma refused_everywhere call addrs dt mvs : json_args (add_default_tags dt mvs) = None -> SendToTransfer call addrs dt mvs = (addrs, false).
Proof.
  intros E. unfold SendToTransfer. destruct (Nat.eqb_spec (length mvs) 0) as [Hl|_].
  - destruct mvs; [|done]. apply default_tags_writable, json_args_None in E as (mv & Hin & _). by apply not_elem_of_nil in Hin.
  - induction addrs as [|a addrs IH]; [done|]. cbn [SendMetrics]. unfold updateMetrics at 1. rewrite E, IH. done.
Qed.

(** Of the numbers of the second level only the use of a disk can be none:
    a round is lost exactly when the use is reported and some disk has no
    interval between its last two readings, as one just seen has not; then no
    metric of the round reaches any transfer, whatever the transfers answer. *)
Theorem new_disk_loses_round (c : Levels) (fns : list Collector) (sec now : Z) (ignore : gmap string bool) (dt : list (string * string))
    (w : World) (host : string) (mvs : list MetricValue) :
  BuildMappers c !! 1%nat = Some (fns, sec) -> in_range w -> w_hostname w = Some host -> collect_round sec fns ignore now w = Ret mvs ->
  (json_args (add_default_tags dt mvs) = None <->
     ignore !! "disk.io.util" <> Some true /\
     exists d, d ∈ w_devices w /\ ShouldHandleDevice d = true /\ no_interval (w_disk w) d) /\
  (json_args (add_default_tags dt mvs) = None -> forall call addrs, SendToTransfer call addrs dt mvs = (addrs, false)).
Proof.
  intros Hc Hw Hh E. split; [|intros; by apply refused_everywhere]. rewrite default_tags_writable, json_args_None.
  destruct (collect_round_elem _ _ _ _ _ _ _ Hh E) as (items & Hi & ->). pose proof (level_two_writable c fns sec w items) as Hl.
  assert (forall m, default false (ignore !! m) = false <-> ignore !! m <> Some true) as Hig by (intros m; destruct (ignore !! m) as [[]|]; cbn; split; done).
  split.
  - intros (mv & Hin & Hf). apply list_elem_of_In, in_map_iff in Hin as (mv0 & <- & Hin). apply list_elem_of_In, list_elem_of_filter in Hin as [Hm Hin].
    destruct (proj1 (Hl mv0 Hc Hw Hi Hin) Hf) as (d & Hd & Hs & Hn & ->). split; [by apply Hig|by exists d].
  - intros [Hm (d & Hd & Hs & Hn)].
    set (mv := GaugeValue "disk.io.util" (VFloat (disk_util (IODelta (w_disk w) d IOMsecTotal) (IODelta (w_disk w) d TS))) ["device=" ++s d]).
    assert (mv ∈ concat items) as Hin.
    { clear Hl E. injection Hc as <- <-. destruct (Forall2_lookup_l _ _ _ 2 _ Hi eq_refl) as (l & El & HL). cbv beta in HL. injection HL as HL.
      apply list_elem_of_In, in_concat. exists l. split; [by apply list_elem_of_In; eapply list_elem_of_lookup_2|]. rewrite <- HL.
      apply in_flat_map. exists d. split; [by apply list_elem_of_In|]. apply list_elem_of_In. unfold device_metrics. rewrite Hs. cbv zeta. cbn [negb].
      rewrite !elem_of_cons. repeat (try (by left); right). }
    exists (stamped host sec now mv). split; [|by apply (Hl mv Hc Hw Hi Hin); exists d].
    apply list_elem_of_In, in_map, list_elem_of_In, list_elem_of_filter. split; [by apply Hig|done].
Qed.

(** * Witnesses *)

Definition ag_usage (idle total : Z) : CpuUsage := mkUsage 10 0 5 idle 1 0 0 0 0 total.
Definition ag_stat (idle total : Z) : ProcStat := mkProcStat (Some (ag_usage idle total)) [Some (ag_usage idle total)] 77.
Definition ag_disk (n ts : Z) : DiskStats := mkDiskStats "sda" n 0 n n n 0 n n 0 n n ts.
Definition ag_world (disk : DiskState) : World := {|
  w_cpu := mkCpuState (Some (ag_stat 150 200), Some (ag_stat 100 100)) 1; w_procs := (∅, ∅); w_percore := true; w_disk := disk; w_devices := ["sda"];
  w_ListDiskStats := Some [ag_disk 7 5]; w_MemInfo := Some (mkMem 1 2 8 3 0 0 0 0 4); w_LoadAvg := Some (mkLoadavg fzero fzero fzero);
  w_KernelMaxFiles := Some 10%Z; w_KernelMaxProc := Some 20%Z; w_KernelAllocateFiles := None; w_NetIfs := Some []; w_eth := None;
  w_Udp := Some [("InDatagrams", 3%Z)]; w_SocketStat := None; w_TcpExt := Some [("TW", 9%Z)];
  w_snmp := Some ["Tcp: InSegs OutSegs"; "Tcp: 5 6"]; w_walk_tcp := map_to_list; w_mounts := None; w_MountPoint := []; w_usage := fun _ => None;
  w_uptime := Some "12.5 3"; w_reported := mkReported ∅ [80%Z] ∅ ["/var"]; w_tcp := Some [80%Z]; w_udp := Some []; w_ps := Some [];
  w_walk_procs := map_to_list; w_du := fun _ => Some "4096 /var"; w_hostname := Some "h"; w_curl := fun _ _ => None; w_walk_urls := map_to_list;
  w_ntpq := "FAILED"; w_chronyc := "+15us"; w_gpus := None; w_proc := fun _ => None |}.
Definition ag_two : DiskState := UpdateDiskStats (Some [ag_disk 9 2000000000]) (UpdateDiskStats (Some [ag_disk 7 1000000000]) ∅).
Definition ag_one : DiskState := UpdateDiskStats (Some [ag_disk 7 1000000000]) ∅.
Definition ag_level : Levels := default_levels None.
Definition ag_fns : list Collector := default [] (fst <$> BuildMappers ag_level !! 1%nat).

Lemma ag_readable disk : readable (ag_world disk).
Proof.
  split; cbn -[Fields GoStr.split].
  - repeat split; repeat constructor; by eexists.
  - split; [repeat constructor; done|]. by exists ["Tcp:"; "InSegs"; "OutSegs"], ["Tcp:"; "5"; "6"], [].
  - by intros _ out [= <-].
  - intros line Hin. by apply list_elem_of_singleton in Hin as ->.
Qed.

Lemma collected_metrics_accepted_witness : exists mvs args r s',
  collect_round 30 ag_fns ∅ 1000000000 (ag_world ag_two) = Ret mvs /\ json_args (add_default_tags [("idc", "bj")] mvs) = Some args /\
  RecvMetricValues tr_cfg tr_rings (1000000040 * 10 ^ 9) (1000000040 * 10 ^ 9 + 5000000) (map Some args) "rpc" tr_start = Ret (Some r, s') /\
  rs_Total r = 45%Z /\ rs_Invalid r = 0%Z.
Proof.
  destruct (collected_metrics_accepted ag_level ag_fns 30 1000000000 (1000000040 * 10 ^ 9) (1000000040 * 10 ^ 9 + 5000000) ∅ [("idc", "bj")] "h"
    (ag_world ag_two) tr_cfg tr_rings tr_start) as (mvs & E & H); [left; right; left|lia|apply ag_readable|done|done|apply tr_start_wired|reflexivity|].
  vm_compute in E. injection E as <-.
  match type of H with forall args, json_args ?l = Some args -> _ => let v := eval vm_compute in (json_args l) in
    match v with Some ?a => destruct (H a) as (r & s' & Er & Ht & Hi); [vm_compute; reflexivity|] end end.
  do 4 eexists. split; [vm_compute; reflexivity|]. split; [vm_compute; reflexivity|]. split; [exact Er|]. split; [exact Ht|exact Hi].
Defined.

Lemma new_disk_loses_round_witness : exists mvs,
  collect_round 30 ag_fns ∅ 1000000000 (ag_world ag_one) = Ret mvs /\ length mvs = 45 /\
  SendToTransfer (fun _ _ => true) ["t0:8433"; "t1:8433"] [] mvs = (["t0:8433"; "t1:8433"], false).
Proof.
  destruct (collect_round 30 ag_fns ∅ 1000000000 (ag_world ag_one)) as [mvs|] eqn:E; [|vm_compute in E; discriminate].
  destruct (new_disk_loses_round ag_level ag_fns 30 1000000000 ∅ [] (ag_world ag_one) "h" mvs) as [H1 H2]; [done| |done|exact E|].
  - split; cbn; [done| | |constructor|constructor]; repeat (apply Forall_cons; split; [by_compute|]); constructor.
  - exists mvs. split; [reflexivity|]. split; [vm_compute in E; by injection E as <-|]. apply H2, H1. split; [done|]. exists "sda".
    split; [by left|]. split; [reflexivity|]. vm_compute. exact I.
Defined.
