(* ===== verification/HbsExpressions.v ===== *)
(** The expressions: what the web service accepts of them
    ([modules/api/app/controller/expression], and of strategies
    [controller/strategy]) and how hbs reads their text
    ([modules/hbs/db/expression.go]).

    Of the fields of a request only those that are checked are kept; the rows
    of the database are arguments. *)
From S2P Require Export Model GoNum.
From S2P Require Import Prelude GoStr.
From Stdlib Require Import Ascii.
Local Open Scope string_scope.

(** * What the web service accepts *)

(** The patterns of the checks, matched by hand: an operator [^(>|=|<|!)(=)?$]; a number [^\-?\d+(\.\d+)?$]; digits [^\d+$]; a time [^\d{2}:\d{2}$]. *)
Definition validOp (s : string) : bool :=
  match s with
  | String a t => (Ascii.eqb a ">" || Ascii.eqb a "=" || Ascii.eqb a "<" || Ascii.eqb a "!") && (String.eqb t "" || String.eqb t "=")
  | "" => false
  end.
Definition all_digits (s : string) : bool := negb (is_empty s) && all_bytes is_digit s.
Definition validRightValue (s : string) : bool :=
  let s := match s with String "-" t => t | _ => s end in
  match cut "." s with Some (a, b) => all_digits a && all_digits b | None => all_digits s end.
Definition validTime (s : string) : bool :=
  match cut ":" s with Some (a, b) => all_digits a && all_digits b && (String.length a =? 2)%nat && (String.length b =? 2)%nat | None => false end.

(** Source: modules/api/app/controller/expression/expression_controller.go, type APICreateExrpessionInput. *)
Record ExpressionInput := mkExpressionInput { ei_Expression : string; ei_Func : string; ei_Op : string; ei_RightValue : string }.
(** Source: modules/api/app/controller/expression/expression_controller.go, lines 86-90. The texts the binding requires not to be empty. Symbol: APICreateExrpessionInput. *)
Definition texts_bound (i : ExpressionInput) : bool :=
  forallb (fun t => negb (is_empty t)) [ei_Expression i; ei_Func i; ei_Op i; ei_RightValue i].
(** Source: modules/api/app/controller/expression/expression_controller.go, APICreateExrpessionInput.CheckFormat. [true] when there is no error. *)
Definition CheckFormat_create (i : ExpressionInput) : bool := validOp (ei_Op i) && validRightValue (ei_RightValue i).
(** Source: modules/api/app/controller/expression/expression_controller.go, APIUpdateExrpessionInput.CheckFormat. *)
Definition CheckFormat_update (i : ExpressionInput) : bool := validOp (ei_Op i) && all_digits (ei_RightValue i).

(** Source: modules/api/app/controller/strategy/strategy_controller.go, type APICreateStrategyInput. *)
Record StrategyInput := mkStrategyInput { si_Op : string; si_RightValue : string; si_RunBegin : string; si_RunEnd : string }.
(** Source: modules/api/app/controller/strategy/strategy_controller.go, APICreateStrategyInput.CheckFormat. *)
Definition CheckFormat_strategy (i : StrategyInput) : bool :=
  validOp (si_Op i) && validRightValue (si_RightValue i) &&
  (validTime (si_RunBegin i) || String.eqb (si_RunBegin i) "") && (validTime (si_RunEnd i) || String.eqb (si_RunEnd i) "").

(** * How hbs reads an expression *)

(** Source: modules/hbs/db/expression.go, lines 101-109. The pairs of the text; [None] for the error. Symbol: parseExpression. *)
Definition read_pairs (arr : list string) : option (gmap string string) :=
  fold_left (fun (tags : option (gmap string string)) item =>
    tags ← tags;
    match split item "=" with
    | [k; v] => Some (<[TrimSpace k := TrimSpace v]> tags)
    | _ => None
    end) arr (Some ∅).

(** Source: modules/hbs/db/expression.go, parseExpression. The metric and the tags, [None] for an error. *)
Definition parseExpression (exp : string) : res (option (string * gmap string string)) :=
  let left := str_index exp "(" in
  let right := str_index exp ")" in
  let! inner := slice exp (left + 1) right in
  let arr := Fields (TrimSpace inner) in
  if (length arr <? 2)%nat then Ret None
  else
    Ret (tags ← read_pairs arr; metric ← tags !! "metric"; Some (metric, delete "metric" tags)).

(** A row of the table, its numbers read. *)
Record ExpressionRow := mkExpressionRow {
  er_Id : Z; er_exp : string; er_Func : string; er_Operator : string; er_RightValue : f64; er_MaxStep : Z; er_Priority : Z; er_Note : string; er_ActionId : Z }.

(** Source: modules/hbs/db/expression.go, queryExpressions. A row that cannot be scanned is [None]. *)
Definition queryExpressions (rows : option (list (option ExpressionRow))) : res (option (list Expression)) :=
  match rows with
  | None => Ret None
  | Some rows =>
      let! l := fold_res (fun l row =>
        match row with
        | None => Ret l
        | Some r =>
            let! p := parseExpression (er_exp r) in
            Ret match p with
                | Some (metric, tags) =>
                    (l ++ [mkExpression (er_Id r) metric tags (er_Func r) (er_Operator r) (er_RightValue r) (er_MaxStep r) (er_Priority r) (er_Note r) (er_ActionId r)])%list
                | None => l
                end
        end) [] rows in
      Ret (Some l)
  end.

(** * Lemmas on texts *)

Lemma str_index_app c a b : has c a = false -> str_index (a ++s String c b) (String c "") = slen a.
Proof.
  intros Ha. unfold str_index, slen. assert (String.index 0 (String c "") (a ++s String c b) = Some (String.length a)) as ->; [|done].
  induction a as [|x a IH]; cbn [String.append has String.length] in *.
  - cbn [String.index]. rewrite prefix_one. by rewrite Ascii.eqb_refl.
  - apply orb_false_iff in Ha as [Hx Ha]. cbn [String.index]. rewrite prefix_one, Ascii.eqb_sym, Hx. by rewrite IH.
Qed.
Lemma str_index_range s c : (-1 <= str_index s (String c "") < Z.max 0 (slen s))%Z.
Proof.
  unfold str_index, slen. destruct (String.index 0 (String c "") s) as [n|] eqn:E; [|lia].
  assert (n < String.length s)%nat; [|lia]. revert n E; induction s as [|x s IH]; intros n; cbn [String.index]; [done|].
  rewrite prefix_one. destruct (Ascii.eqb c x); [intros [= <-]; cbn; lia|]. destruct (String.index 0 (String c "") s) as [m|] eqn:Em; [|done].
  intros [= <-]. specialize (IH m eq_refl). cbn. lia.
Qed.
Lemma substring_app a b c : String.substring (String.length a) (String.length b) (a ++s b ++s c) = b.
Proof.
  induction a as [|x a IH]; [|done]. cbn [String.length String.append]. induction b as [|x b IH]; cbn [String.length String.append]; [by destruct c|].
  cbn [String.substring]. by rewrite IH.
Qed.

(** Words are read back, whatever the white space around them. *)
Lemma fields_word w rest acc : all_bytes (fun a => negb (is_space a)) w = true -> fields_aux (w ++s rest) acc = fields_aux rest (acc ++s w).
Proof.
  revert acc; induction w as [|a w IH]; intros acc Hw; cbn [String.append]; [by rewrite sapp_nil_r|].
  cbn [all_bytes] in Hw. apply andb_true_iff in Hw as [Ha Hw]. cbn [fields_aux]. apply negb_true_iff in Ha. rewrite Ha.
  rewrite IH by done. by rewrite sapp_assoc.
Qed.
Lemma Fields_join ws : Forall (fun w => w <> "" /\ all_bytes (fun a => negb (is_space a)) w = true) ws -> Fields (join " " ws) = ws.
Proof.
  intros Hw. unfold Fields. induction Hw as [|w ws [Hne Hw] Hws IH]; [done|]. destruct ws as [|w2 ws].
  - cbn [join]. rewrite <- (sapp_nil_r w) at 1. rewrite fields_word by done. cbn. by destruct w.
  - change (join " " (w :: w2 :: ws)) with (w ++s " " ++s join " " (w2 :: ws)). rewrite fields_word by done.
    cbn [String.append fields_aux]. rewrite IH. by destruct w.
Qed.
Lemma fields_trim_left s : fields_aux (trim_left is_space s) "" = fields_aux s "".
Proof. induction s as [|a s IH]; [done|]. cbn [trim_left]. destruct (is_space a) eqn:E; [|done]. rewrite IH. cbn [fields_aux]. by rewrite E. Qed.
Lemma fields_trim_right s acc : fields_aux (trim_right is_space s) acc = fields_aux s acc.
Proof.
  revert acc; induction s as [|a s IH]; intros acc; [done|]. cbn [trim_right fields_aux].
  destruct (trim_right is_space s) as [|b t] eqn:E.
  - assert (forall acc, fields_aux s acc = fields_aux "" acc) as H by (intros; by rewrite <- IH).
    destruct (is_space a) eqn:Ea; cbn [fields_aux]; rewrite ?Ea, !H; cbn [fields_aux is_empty]; by destruct acc.
  - assert (forall acc, fields_aux s acc = fields_aux (String b t) acc) as H by (intros; by rewrite <- IH).
    cbn [fields_aux]. destruct (is_space a); by rewrite !H.
Qed.
Lemma Fields_TrimSpace s : Fields (TrimSpace s) = Fields s.
Proof. unfold Fields, TrimSpace, trim. by rewrite fields_trim_right, fields_trim_left. Qed.
Lemma TrimSpace_clean s : all_bytes (fun a => negb (is_space a)) s = true -> TrimSpace s = s.
Proof.
  intros Hs. unfold TrimSpace, trim. assert (trim_left is_space s = s) as ->.
  { destruct s as [|a s]; [done|]. cbn in *. apply andb_true_iff in Hs as [Ha _]. apply negb_true_iff in Ha. by rewrite Ha. }
  induction s as [|a s IH]; [done|]. cbn [all_bytes trim_right] in *. apply andb_true_iff in Hs as [Ha Hs]. rewrite IH by done.
  apply negb_true_iff in Ha. rewrite Ha. by destruct s.
Qed.

Lemma join_has c sep ws : has c sep = false -> Forall (fun w => has c w = false) ws -> has c (join sep ws) = false.
Proof.
  intros Hs Hw. induction Hw as [|w ws Hw Hws IH]; [done|]. destruct ws as [|w2 ws]; [done|].
  change (join sep (w :: w2 :: ws)) with (w ++s sep ++s join sep (w2 :: ws)). by rewrite !has_app, Hw, Hs, IH.
Qed.

(** * Reading what was written *)

(** A byte that means nothing to the parser. *)
Definition plain (a : ascii) : bool := negb (is_space a) && negb (Ascii.eqb a "=") && negb (Ascii.eqb a "(") && negb (Ascii.eqb a ")").
Definition plain_pair (kv : string * string) : Prop := all_bytes plain (fst kv) = true /\ all_bytes plain (snd kv) = true.
Definition pair_text (kv : string * string) : string := fst kv ++s "=" ++s snd kv.
Definition expression_text (name : string) (kvs : list (string * string)) : string := name ++s "(" ++s join " " (map pair_text kvs) ++s ")".

Lemma all_bytes_impl (p q : ascii -> bool) s : (forall a, p a = true -> q a = true) -> all_bytes p s = true -> all_bytes q s = true.
Proof. intros Hpq. induction s as [|a s IH]; [done|]. cbn. intros [Ha Hs]%andb_true_iff. by rewrite (Hpq a Ha), IH. Qed.
Lemma plain_space a : plain a = true -> negb (is_space a) = true.
Proof. unfold plain. by intros [[[? _]%andb_true_iff _]%andb_true_iff _]%andb_true_iff. Qed.
Lemma all_bytes_app p a b : all_bytes p (a ++s b) = all_bytes p a && all_bytes p b.
Proof. induction a as [|x a IH]; [done|]. cbn. by rewrite IH, andb_assoc. Qed.

Lemma has_one c x : c <> x -> has c (String x "") = false.
Proof. intros H. cbn [has]. by rewrite (proj2 (Ascii.eqb_neq _ _)) by congruence. Qed.
Lemma pair_text_has c kv : plain c = false -> c <> "="%char -> plain_pair kv -> has c (pair_text kv) = false.
Proof.
  intros Hc Hne [Hk Hv]. unfold pair_text. rewrite !has_app, (all_bytes_has plain c _ Hc Hk), (all_bytes_has plain c _ Hc Hv). by rewrite has_one.
Qed.
Lemma pair_text_word kv : plain_pair kv -> pair_text kv <> "" /\ all_bytes (fun a => negb (is_space a)) (pair_text kv) = true.
Proof.
  intros [Hk Hv]. unfold pair_text. split; [by destruct (fst kv)|].
  by rewrite !all_bytes_app, (all_bytes_impl plain _ _ plain_space Hk), (all_bytes_impl plain _ _ plain_space Hv).
Qed.

Lemma read_pairs_map kvs (acc : gmap string string) : Forall plain_pair kvs ->
  fold_left (fun (tags : option (gmap string string)) item =>
    tags ← tags; match split item "=" with [k; v] => Some (<[TrimSpace k := TrimSpace v]> tags) | _ => None end) (map pair_text kvs) (Some acc) =
  Some (fold_left (fun d kv => <[kv.1 := kv.2]> d) kvs acc).
Proof.
  intros Hk. revert acc; induction Hk as [|[k v] kvs [Hkk Hv] Hk IH]; intros acc; [done|]. cbn [map fold_left mbind option_bind fst snd] in *.
  unfold pair_text at 2. cbn [fst snd]. change ("=" ++s v) with (String "=" v). rewrite split_one, cut_app by by apply (all_bytes_has plain).
  rewrite split_no_sep by by apply (all_bytes_has plain).
  rewrite (TrimSpace_clean k), (TrimSpace_clean v) by (eapply all_bytes_impl; [apply plain_space|assumption]).
  apply IH.
Qed.

(** An expression is read back as it is written: under any name, from pairs
    whose keys and values hold no white space, parenthesis or equal sign, hbs
    gets the metric that is named and all the other tags. *)
Theorem expressions_parse (name metric : string) (kvs : list (string * string)) :
  has "(" name = false -> has ")" name = false -> Forall plain_pair kvs -> NoDup kvs.*1 -> (2 <= length kvs)%nat -> ("metric", metric) ∈ kvs ->
  parseExpression (expression_text name kvs) = Ret (Some (metric, delete "metric" (list_to_map kvs))).
Proof.
  intros Ho Hc Hk Hnd Hlen Hm. set (inner := join " " (map pair_text kvs)).
  assert (forall c, plain c = false -> c <> "="%char -> c <> " "%char -> has c inner = false) as Hin.
  { intros c Hp Hne Hsp. apply join_has; [by apply has_one|]. apply Forall_map.
    eapply Forall_impl; [exact Hk|]. intros kv. by apply pair_text_has. }
  unfold parseExpression, expression_text. fold inner. change ("(" ++s inner ++s ")") with (String "(" (inner ++s ")")).
  assert (name ++s String "(" (inner ++s ")") = (name ++s "(" ++s inner) ++s String ")" "") as E by by rewrite !sapp_assoc.
  assert (str_index (name ++s String "(" (inner ++s ")")) ")" = slen (name ++s "(" ++s inner)) as ->.
  { rewrite E. apply str_index_app. by rewrite !has_app, Hc, Hin. }
  rewrite (str_index_app "(") by done. cbv zeta.
  assert (slice (name ++s String "(" (inner ++s ")")) (slen name + 1) (slen (name ++s "(" ++s inner)) = Ret inner) as ->.
  { unfold slice. assert (slen (name ++s "(" ++s inner) = slen name + 1 + slen inner)%Z as E1 by (unfold slen; rewrite !sapp_length; cbn; lia).
    assert (slen (name ++s String "(" (inner ++s ")")) = slen name + 1 + slen inner + 1)%Z as E2 by (rewrite E; unfold slen; rewrite !sapp_length; cbn; lia).
    rewrite E1, E2. assert (0 <= slen name)%Z by (unfold slen; lia). assert (0 <= slen inner)%Z by (unfold slen; lia).
    replace ((0 <=? slen name + 1) && (slen name + 1 <=? slen name + 1 + slen inner) && (slen name + 1 + slen inner <=? slen name + 1 + slen inner + 1))%Z with true by lia.
    f_equal. replace (name ++s String "(" (inner ++s ")")) with ((name ++s "(") ++s inner ++s ")") by by rewrite !sapp_assoc.
    replace (Z.to_nat (slen name + 1)) with (String.length (name ++s "(")) by (unfold slen; rewrite sapp_length; cbn; lia).
    replace (Z.to_nat (slen name + 1 + slen inner - (slen name + 1))) with (String.length inner) by (unfold slen; lia). apply substring_app. }
  cbn [rbind]. rewrite Fields_TrimSpace. unfold inner. rewrite Fields_join by (apply Forall_map; eapply Forall_impl; [exact Hk|apply pair_text_word]).
  rewrite length_map. destruct (Nat.ltb_spec (length kvs) 2); [lia|]. unfold read_pairs. rewrite read_pairs_map by done. cbn [mbind option_bind].
  rewrite fold_insert_union by (done || intros; apply lookup_empty). rewrite (right_id_L ∅ (∪)).
  rewrite (elem_of_list_to_map_1 _ _ _ Hnd Hm). done.
Qed.

(** The first closing parenthesis is missing, or stands before the first opening one. *)
Definition misread (exp : string) : Prop := (str_index exp ")" <= str_index exp "(")%Z.
#[local] Instance misread_dec exp : Decision (misread exp).
Proof. unfold misread. apply _. Defined.
Definition misread_row (row : option ExpressionRow) : bool := match row with Some r => bool_decide (misread (er_exp r)) | None => false end.

Lemma parseExpression_panics exp : misread exp -> parseExpression exp = Panic SliceBounds.
Proof.
  unfold misread, parseExpression, slice. intros H. cbv zeta. pose proof (str_index_range exp "(").
  replace ((0 <=? str_index exp "(" + 1) && (str_index exp "(" + 1 <=? str_index exp ")") && (str_index exp ")" <=? slen exp))%Z with false by lia. done.
Qed.
Lemma parseExpression_returns exp : ~ misread exp -> exists p, parseExpression exp = Ret p.
Proof.
  unfold misread, parseExpression, slice. intros H. cbv zeta. pose proof (str_index_range exp "("). pose proof (str_index_range exp ")").
  replace ((0 <=? str_index exp "(" + 1) && (str_index exp "(" + 1 <=? str_index exp ")") && (str_index exp ")" <=? slen exp))%Z with true by lia.
  cbn [rbind]. destruct (_ <? _)%nat; by eexists.
Qed.

(** C40: One text can stop hbs.  The web service takes any text that is not
    empty for an expression whose other texts pass.  When hbs loads the rows it
    panics exactly when the first closing parenthesis of one of the texts is
    missing, or stands before the first opening one, as in [")(a b)"];
    otherwise it gives the rows that can be read. *)
Theorem expression_text_stops_hbs (rows : list (option ExpressionRow)) :
  (forall i exp, texts_bound i = true -> CheckFormat_create i = true ->
     let i' := mkExpressionInput exp (ei_Func i) (ei_Op i) (ei_RightValue i) in
     CheckFormat_create i' = true /\ (texts_bound i' = true <-> exp <> "")) /\
  (queryExpressions (Some rows) = Panic SliceBounds <-> exists r, Some r ∈ rows /\ misread (er_exp r)) /\
  ((forall r, Some r ∈ rows -> ~ misread (er_exp r)) -> exists l, queryExpressions (Some rows) = Ret (Some l) /\
     map (fun e => (ex_Id e, ex_Metric e, ex_Tags e)) l =
     omap (fun row => r ← row; match parseExpression (er_exp r) with Ret (Some (metric, tags)) => Some (er_Id r, metric, tags) | _ => None end) rows).
Proof.
  split.
  { intros i exp Hb Hc. split; [exact Hc|]. unfold texts_bound in *. cbn in *. rewrite !andb_true_iff in *.
    destruct exp; cbn; naive_solver. }
  unfold queryExpressions.
  match goal with |- context [fold_res ?f [] rows] => set (step := f) end.
  assert (forall rows l0, (exists r, Some r ∈ rows /\ misread (er_exp r)) -> fold_res step l0 rows = Panic SliceBounds) as Hbad.
  { clear rows. induction rows as [|row rows IH]; intros l0 (r & Hin & Hr); [by apply not_elem_of_nil in Hin|]. cbn [fold_res].
    apply elem_of_cons in Hin as [<-|Hin]; [cbn; by rewrite parseExpression_panics|].
    destruct row as [r0|]; [|cbn; apply IH; by exists r]. unfold step at 1. destruct (decide (misread (er_exp r0))) as [Hm|Hm].
    - by rewrite parseExpression_panics.
    - destruct (parseExpression_returns _ Hm) as [p ->]. cbn [rbind]. apply IH. by exists r. }
  assert (forall rows l0, (forall r, Some r ∈ rows -> ~ misread (er_exp r)) -> exists l, fold_res step l0 rows = Ret (l0 ++ l)%list /\
    map (fun e => (ex_Id e, ex_Metric e, ex_Tags e)) l =
    omap (fun row => r ← row; match parseExpression (er_exp r) with Ret (Some (metric, tags)) => Some (er_Id r, metric, tags) | _ => None end) rows) as Hgood.
  { clear rows Hbad. induction rows as [|row rows IH]; intros l0 Hg; cbn [fold_res]; [exists []; by rewrite app_nil_r|].
    assert (forall r, Some r ∈ rows -> ~ misread (er_exp r)) as Hg' by (intros; apply Hg; by right).
    destruct row as [r|]; [|cbn; by apply IH]. unfold step at 1. destruct (parseExpression_returns (er_exp r)) as [p Ep]; [apply Hg; by left|].
    cbn [omap list_omap mbind option_bind]. rewrite Ep. cbn [rbind]. destruct p as [[metric tags]|]; [|by apply IH].
    match goal with |- context [fold_res step (l0 ++ [?e])%list rows] => destruct (IH (l0 ++ [e])%list Hg') as (l & -> & Hl); exists (e :: l) end.
    split; [by rewrite <- app_assoc|]. cbn [map ex_Id ex_Metric ex_Tags]. by rewrite Hl. }
  split; [split|].
  - intros E. destruct (decide (Exists (fun row => misread_row row = true) rows)) as [He|He].
    + apply Exists_exists in He as ([r|] & Hin & Hr); [|done]. exists r. split; [done|]. by apply bool_decide_eq_true in Hr.
    + destruct (Hgood rows []) as (l & El & _); [|by rewrite El in E]. intros r Hin Hr. apply He, Exists_exists. exists (Some r).
      split; [done|]. by apply bool_decide_eq_true.
  - intros He. by rewrite Hbad.
  - intros Hg. destruct (Hgood rows [] Hg) as (l & -> & Hl). by exists l.
Qed.

Lemma expressions_parse_witness :
  expression_text "each" [("metric", "net.port.listen"); ("port", "80")] = "each(metric=net.port.listen port=80)" /\
  parseExpression "each(metric=net.port.listen port=80)" = Ret (Some ("net.port.listen", delete "metric" (list_to_map [("metric", "net.port.listen"); ("port", "80")]))).
Proof.
  split; [reflexivity|]. apply (expressions_parse "each" "net.port.listen" [("metric", "net.port.listen"); ("port", "80")]); try reflexivity.
  - repeat (apply Forall_cons; split; [split; reflexivity|]). constructor.
  - by_compute.
  - left.
Defined.
