(* ===== verification/ApiGraph.v ===== *)
(** The queries the web service makes of the graphs ([modules/api/graph]): the
    graph of a series is found on the same ring by which the transfer sends it
    its points, and what a graph answers is cut to the range that was asked.

    The ring of [toolkits/consistent], the pools of connections and the answers
    of the graphs are arguments. *)
From S2P Require Export GraphApi TransferThms.
From S2P Require Import Prelude GoStr.
Local Open Scope string_scope.

(** How a call to a graph ends: no answer in time, an error with what was read of the answer, or the answer. *)
Inductive outcome (A : Type) := TimedOut | CallFailed (a : A) | Answered (a : A).
Arguments TimedOut {A}.
Arguments CallFailed {A} a.
Arguments Answered {A} a.

(** Source: common/model/graph.go, type GraphInfoResp. *)
Record GraphInfoResp := mkInfoResp { gir_ConsolFun : string; gir_Step : Z; gir_Filename : string }.
(** Source: common/model/graph.go, type GraphFullyInfo. *)
Record GraphFullyInfo := mkFullyInfo {
  gf_Endpoint : string; gf_Counter : string; gf_ConsolFun : string; gf_Step : Z; gf_Filename : string; gf_Addr : string }.
(** Source: common/model/graph.go, type GraphLastParam. *)
Record GraphLastParam := mkLastParam { gl_par_Endpoint : string; gl_par_Counter : string }.

(** Source: modules/api/graph/graph.go, GenQParam. *)
Definition GenQParam (endpoint counter consolFun : string) (stime etime step : Z) : GraphQueryParam := mkGQP stime etime consolFun endpoint counter step.

Section api.
(** The ring, the addresses of the nodes, and the pools: [None] when a pool gives no connection, [Some true] when the connection is closed. *)
Context (ring : string -> option string) (clusterMap : gmap string string) (pools : gmap string (option bool)).

(** Source: modules/api/graph/graph.go, selectPoolByPK. The address of the pool. *)
Definition selectPoolByPK (pk : string) : option string :=
  node ← ring pk; addr ← clusterMap !! node; if bool_decide (is_Some (pools !! addr)) then Some addr else None.
(** Source: modules/api/graph/graph.go, selectPool. *)
Definition selectPool (endpoint counter : string) : option string := selectPoolByPK (PK2 endpoint counter).

(** A connection of the pool that can be used. *)
Definition connected (addr : string) : bool := match pools !! addr with Some (Some false) => true | _ => false end.

(** Source: modules/api/graph/graph.go, lines 131-143. A point of the answer: in the range, and not below zero for a rate. The answer of a graph holds no nil point. Symbol: QueryOne. *)
Definition fix_point (start stop : Z) (dsType : string) (v : RRDData) : option RRDData :=
  if negb ((start <=? rd_Timestamp v) && (rd_Timestamp v <=? stop))%Z then None
  else if (String.eqb dsType DERIVE || String.eqb dsType COUNTER) && flt (rd_Value v) fzero then Some (mkRRDData (rd_Timestamp v) fnan)
  else Some v.

(** Source: modules/api/graph/graph.go, QueryOne. The response, [None] for nil, and whether there is no error; a failed call gives what was read of the answer. *)
Definition QueryOne (rpc : string -> GraphQueryParam -> outcome GraphQueryResponse) (para : GraphQueryParam) : option GraphQueryResponse * bool :=
  let empty := mkGQR "" "" "" 0 [] in
  match selectPool (qp_Endpoint para) (qp_Counter para) with
  | None => (Some empty, false)
  | Some addr =>
      if negb (connected addr) then (Some empty, false)
      else
        match rpc addr para with
        | TimedOut => (None, false)
        | CallFailed r => (Some r, false)
        | Answered r =>
            (Some (mkGQR (qr_Endpoint r) (qr_Counter r) (qr_DsType r) (qr_Step r)
               (omap (fix_point (qp_Start para) (qp_End para) (qr_DsType r)) (qr_Values r))), true)
        end
  end.

(** Source: modules/api/graph/graph.go, lines 150-168. The parameters by the keys of their series; one with unreadable tags is left out. Symbol: Delete. *)
Definition delete_groups (params : list GraphDeleteParam) : gmap string (list GraphDeleteParam) :=
  fold_left (fun nodes para =>
    match SplitTagsString (dp_Tags para) with
    | (Some _, _) => nodes
    | (None, tags) =>
        let pk := PK2 (dp_Endpoint para) (Counter (dp_Metric para) tags) in
        <[pk := (default [] (nodes !! pk) ++ [para])%list]> nodes
    end) params ∅.
(** Source: modules/api/graph/graph.go, Delete. The calls that are made; [walk] walks the map. *)
Definition Delete (walk : gmap string (list GraphDeleteParam) -> list (string * list GraphDeleteParam)) (params : list GraphDeleteParam)
    : list (string * list GraphDeleteParam) :=
  omap (fun '(pk, node_params) => addr ← selectPoolByPK pk; if connected addr then Some (addr, node_params) else None) (walk (delete_groups params)).

(** Source: modules/api/graph/graph.go, Info. *)
Definition Info (rpc : string -> string -> string -> outcome GraphInfoResp) (endpoint counter : string) : option GraphFullyInfo :=
  addr ← selectPool endpoint counter;
  if negb (connected addr) then None
  else
    match rpc addr endpoint counter with
    | Answered r => Some (mkFullyInfo endpoint counter (gir_ConsolFun r) (gir_Step r) (gir_Filename r) addr)
    | _ => None
    end.

(** Source: modules/api/graph/graph.go, Last. The response and whether there is no error. *)
Definition Last {R} (rpc : string -> GraphLastParam -> outcome R) (para : GraphLastParam) : option R * bool :=
  match selectPool (gl_par_Endpoint para) (gl_par_Counter para) with
  | None => (None, false)
  | Some addr =>
      if negb (connected addr) then (None, false)
      else match rpc addr para with TimedOut => (None, false) | CallFailed r => (Some r, false) | Answered r => (Some r, true) end
  end.
(** Source: modules/api/graph/graph.go, LastRaw. The same with another method of the graph. *)
Definition LastRaw {R} (rpc_raw : string -> GraphLastParam -> outcome R) (para : GraphLastParam) : option R * bool := Last rpc_raw para.
End api.

(** * Points are found where they were sent *)

(** The web service knows the nodes the transfer knows, each by the address the transfer sends to. *)
Definition same_graphs (cfg : TConfig) (rings : Rings) (ring : string -> option string) (clusterMap : gmap string string) : Prop :=
  (forall pk, ring pk = GraphNodeRing rings pk) /\
  forall node addrs, tc_ClusterList cfg !! node = Some addrs -> exists addr, clusterMap !! node = Some addr /\ addr ∈ addrs.

(** An item pushed to the addresses of a node is on the queue of each, unless the queue was full. *)
Definition push_addr (node : string) (g : GraphItem) (errCnt : Z) (addr : string) : T Z :=
  do! q := gets (fun s => tr_Graph s !! (node ++s addr)) in
  do! q := lift (deref q) in
  let '(ok, q) := SLL_PushFront g q in
  do! _ := modify (fun s => t_set_graph (<[node ++s addr := q]> (tr_Graph s)) s) in
  ret (if ok : bool then errCnt else (errCnt + 1)%Z).

(** Every queue there was has at most [n] items more in front. *)
Definition grew (n : nat) (s s' : TransState) : Prop := forall k,
  match tr_Graph s !! k, tr_Graph s' !! k with
  | Some q, Some q' => exists new, q' = (new ++ q)%list /\ length new <= n
  | None, None => True
  | _, _ => False
  end.
(** Every queue has room for [n] items more. *)
Definition room_for (n : nat) (s : TransState) : Prop :=
  forall k q, tr_Graph s !! k = Some q -> (Z.of_nat (length q + n) <= DefaultSendQueueMaxSize)%Z.

Lemma grew_refl n s : grew n s s.
Proof. intros k. destruct (tr_Graph s !! k) as [q|]; [exists []; split; [done|cbn; lia]|done]. Qed.
Lemma grew_trans n m s1 s2 s3 : grew n s1 s2 -> grew m s2 s3 -> grew (n + m) s1 s3.
Proof.
  intros H1 H2 k. specialize (H1 k). specialize (H2 k). destruct (tr_Graph s1 !! k), (tr_Graph s2 !! k), (tr_Graph s3 !! k); try done.
  destruct H1 as (a & -> & Ha), H2 as (b & -> & Hb). exists (b ++ a)%list. rewrite app_assoc, length_app. split; [done|lia].
Qed.
Lemma grew_room n m s s' : grew n s s' -> room_for (n + m) s -> room_for m s'.
Proof.
  intros H Hr k q' Hq'. specialize (H k). rewrite Hq' in H. destruct (tr_Graph s !! k) as [q|] eqn:E; [|done]. destruct H as (new & -> & Hn).
  specialize (Hr k q E). rewrite length_app. lia.
Qed.
Lemma grew_in n s s' k q g : grew n s s' -> tr_Graph s !! k = Some q -> g ∈ q -> exists q', tr_Graph s' !! k = Some q' /\ g ∈ q'.
Proof.
  intros H Hq Hg. specialize (H k). rewrite Hq in H. destruct (tr_Graph s' !! k) as [q'|]; [|done]. destruct H as (new & -> & _).
  eexists. split; [done|]. apply elem_of_app. by right.
Qed.

Lemma push_addrs node g addrs n (s : TransState) :
  (forall addr, addr ∈ addrs -> is_Some (tr_Graph s !! (node ++s addr))) -> room_for (length addrs) s ->
  exists n' s', foldM (push_addr node g) n addrs s = Ret (n', s') /\ grew (length addrs) s s' /\
    forall addr, addr ∈ addrs -> exists q, tr_Graph s' !! (node ++s addr) = Some q /\ g ∈ q.
Proof.
  revert n s; induction addrs as [|a addrs IH]; intros n s Hs Hroom; cbn [foldM length].
  { exists n, s. split; [done|]. split; [apply grew_refl|]. intros addr Hin. by apply not_elem_of_nil in Hin. }
  destruct (Hs a) as [q Eq]; [by left|]. set (s1 := t_set_graph (<[node ++s a := g :: q]> (tr_Graph s)) s).
  assert (push_addr node g n a s = Ret (n, s1)) as E1.
  { unfold push_addr, mthen, gets, lift. rewrite Eq. cbn [deref]. unfold SLL_PushFront, s1. specialize (Hroom _ _ Eq). cbn [length] in Hroom.
    by destruct (Z.leb_spec DefaultSendQueueMaxSize (Z.of_nat (length q))); [lia|]. }
  assert (grew 1 s s1) as G1.
  { intros k. cbn. destruct (decide (k = node ++s a)) as [->|]; [rewrite lookup_insert_eq, Eq; by exists [g]|rewrite lookup_insert_ne by done; apply (grew_refl 1 s)]. }
  destruct (IH n s1) as (n' & s' & E & G2 & Hin).
  - intros addr Ha. cbn. destruct (decide (node ++s addr = node ++s a)) as [->|]; [rewrite lookup_insert_eq; by eexists|].
    rewrite lookup_insert_ne by done. apply Hs. by right.
  - by eapply (grew_room 1).
  - exists n', s'. split; [by rewrite (mthen_run _ _ _ _ _ E1)|]. split; [by apply (grew_trans 1 (length addrs) s s1)|].
    intros addr [->|Ha]%elem_of_cons; [|by apply Hin]. apply (grew_in _ s1 s' _ (g :: q) g G2); [cbn; by rewrite lookup_insert_eq|by left].
Qed.

(** How often the items of a report are put on a queue. *)
Definition pushes (cfg : TConfig) (rings : Rings) (ds : list MetaData) : nat :=
  list_sum (map (fun d => match GraphNodeRing rings (MetaData_PK d) with Some node => length (default [] (tc_ClusterList cfg !! node)) | None => 0 end) ds).

(** One item of a report. *)
Lemma pushed_to_all cfg rings d (s : TransState) : wired cfg rings s -> room_for (pushes cfg rings [d]) s ->
  exists s', Push2GraphSendQueue cfg rings [d] s = Ret (tt, s') /\ grew (pushes cfg rings [d]) s s' /\
  forall g node, convert2GraphItem cfg d = Ret (Some g) -> GraphNodeRing rings (MetaData_PK d) = Some node ->
    exists addrs, tc_ClusterList cfg !! node = Some addrs /\ forall addr, addr ∈ addrs -> exists q, tr_Graph s' !! (node ++s addr) = Some q /\ g ∈ q.
Proof.
  intros Hs Hroom. unfold Push2GraphSendQueue. cbn [forM]. destruct (convert2GraphItem_ret cfg d (proj1 (w_min _ _ _ Hs))) as [[g|] Eg].
  2: { exists s. unfold mthen at 1 2, lift at 1. rewrite Eg. split; [done|]. split; [apply grew_refl|]. by intros g node [=]. }
  unfold mthen at 1 2, lift at 1. rewrite Eg. cbv zeta. unfold pushes in *. cbn [map list_sum] in *.
  destruct (GraphNodeRing rings (MetaData_PK d)) as [node|] eqn:Hn.
  2: { exists s. split; [done|]. split; [apply grew_refl|]. by intros g0 node _ [=]. }
  destruct (w_graph _ _ _ Hs _ _ Hn) as (addrs & Ea & Hq). rewrite Ea in *. cbn [default list_sum foldr] in *. rewrite Nat.add_0_r in *.
  destruct (push_addrs node g addrs 0 s Hq Hroom) as (n & s1 & E1 & G1 & Hin).
  unfold mthen at 1, lift at 1. cbn [deref]. fold (push_addr node g). rewrite (mthen_run _ _ _ _ _ E1).
  destruct (0 <? n)%Z; [exists (t_set_cnt (<["SendToGraphDropCnt" := (default 0 (tr_cnt s1 !! "SendToGraphDropCnt") + 1)%Z]> (tr_cnt s1)) s1)|exists s1]; (split; [reflexivity|]);
    (split; [exact G1|]); intros g0 node0 [= <-] [= <-]; by exists addrs.
Qed.

(** A report: each of its items is on the queues of its node. *)
Lemma report_pushed cfg rings ds : forall (s : TransState), wired cfg rings s -> room_for (pushes cfg rings ds) s ->
  exists s', Push2GraphSendQueue cfg rings ds s = Ret (tt, s') /\ grew (pushes cfg rings ds) s s' /\
  forall d g node, d ∈ ds -> convert2GraphItem cfg d = Ret (Some g) -> GraphNodeRing rings (MetaData_PK d) = Some node ->
    exists addrs, tc_ClusterList cfg !! node = Some addrs /\ forall addr, addr ∈ addrs -> exists q, tr_Graph s' !! (node ++s addr) = Some q /\ g ∈ q.
Proof.
  induction ds as [|d ds IH]; intros s Hs Hroom.
  { exists s. split; [done|]. split; [apply grew_refl|]. intros d g node Hd. by apply elem_of_nil in Hd. }
  assert (pushes cfg rings (d :: ds) = pushes cfg rings [d] + pushes cfg rings ds) as En by (unfold pushes; cbn [map]; unfold list_sum; cbn [foldr]; lia). rewrite En in *.
  destruct (pushed_to_all cfg rings d s Hs) as (s1 & E1 & G1 & H1); [intros k q Hk; specialize (Hroom k q Hk); lia|].
  assert (wired cfg rings s1) as Hs1.
  { destruct (Push2GraphSendQueue_runs cfg rings _ _ [d] s (conj Hs (conj eq_refl eq_refl))) as (a & s2 & E2 & W2 & _). rewrite E1 in E2. by injection E2 as _ <-. }
  destruct (IH s1 Hs1) as (s' & E2 & G2 & H2); [by eapply grew_room|]. exists s'. split.
  - change (d :: ds) with ([d] ++ ds)%list. unfold Push2GraphSendQueue in *. rewrite forM_app. by rewrite (mthen_run _ _ _ _ _ E1).
  - split; [by eapply grew_trans|]. intros d0 g node [->|Hd]%elem_of_cons Hg Hn; [|by apply (H2 d0)].
    destruct (H1 g node Hg Hn) as (addrs & Ea & Hin). exists addrs. split; [done|]. intros addr Ha. destruct (Hin addr Ha) as (q & Hq & Hgq). by apply (grew_in (pushes cfg rings ds) s1 s' (node ++s addr) q).
Qed.

Lemma filter_points start stop dsType l : omap (fix_point start stop dsType) l =
  map (fun v => if (String.eqb dsType DERIVE || String.eqb dsType COUNTER) && flt (rd_Value v) fzero then mkRRDData (rd_Timestamp v) fnan else v)
    (filter (fun v => start <= rd_Timestamp v <= stop)%Z l).
Proof.
  induction l as [|v l IH]; [done|]. cbn [omap list_omap]. unfold fix_point at 1. rewrite filter_cons. destruct (decide _) as [[H1 H2]|Hn].
  - rewrite (proj2 (Z.leb_le _ _) H1), (proj2 (Z.leb_le _ _) H2). cbn [andb negb map]. rewrite <- IH. by destruct (_ && _).
  - destruct (Z.leb_spec start (rd_Timestamp v)), (Z.leb_spec (rd_Timestamp v) stop); cbn [andb negb]; try done. by destruct Hn.
Qed.

(** C26: A query asks a graph its points were sent to, under the name the graph
    keeps them by.  Let the web service and the transfer use the same ring and
    the same clusters, and let the queues of the graphs have room for a report.
    When the transfer has put the items of the report on the queues, the web
    service, asked for the endpoint and the counter of any of them, picks a
    graph on whose queue the item is, and the digest by which the graph answers
    is that of the item.  When it has a connection to this graph and is
    answered, what it gives back are the points of the answer that lie in the
    range, in their order, the negative ones of a rate blanked. *)
Theorem query_asks_where_sent (cfg : TConfig) (rings : Rings) (ring : string -> option string) (clusterMap : gmap string string)
    (pools : gmap string (option bool)) (rpc : string -> GraphQueryParam -> outcome GraphQueryResponse)
    (ds : list MetaData) (s : TransState) (consolFun : string) (start stop step : Z) :
  same_graphs cfg rings ring clusterMap -> wired cfg rings s -> room_for (pushes cfg rings ds) s ->
  exists s', Push2GraphSendQueue cfg rings ds s = Ret (tt, s') /\
  forall d g node, d ∈ ds -> convert2GraphItem cfg d = Ret (Some g) -> GraphNodeRing rings (MetaData_PK d) = Some node ->
  let counter := Counter (md_Metric d) (md_Tags d) in
  let para := GenQParam (md_Endpoint d) counter consolFun start stop step in
  exists addr q, clusterMap !! node = Some addr /\ tr_Graph s' !! (node ++s addr) = Some q /\ g ∈ q /\
    Md5 (md_Endpoint d ++s "/" ++s counter) = GraphItem_Checksum g /\
    forall r, pools !! addr = Some (Some false) -> rpc addr para = Answered r ->
     exists r', QueryOne ring clusterMap pools rpc para = (Some r', true) /\
       qr_Values r' = map (fun v => if (String.eqb (qr_DsType r) DERIVE || String.eqb (qr_DsType r) COUNTER) && flt (rd_Value v) fzero
                                    then mkRRDData (rd_Timestamp v) fnan else v)
                          (filter (fun v => start <= rd_Timestamp v <= stop)%Z (qr_Values r)).
Proof.
  intros [Hring Hnodes] Hs Hroom. destruct (report_pushed cfg rings ds s Hs Hroom) as (s' & E & _ & Hall). exists s'. split; [done|].
  intros d g node Hd Hg Hn counter para. destruct (Hall d g node Hd Hg Hn) as (addrs & Ea & Hin).
  destruct (Hnodes node addrs Ea) as (addr & Hc & Ha). destruct (Hin addr Ha) as (q & Hq & Hgq). exists addr, q. do 3 (split; [done|]). split.
  - unfold GraphItem_Checksum, Checksum. rewrite PK_counter. unfold counter, PK2.
    unfold convert2GraphItem in Hg. destruct (String.eqb _ _); [|destruct (String.eqb _ _); [|destruct (String.eqb _ _); [|discriminate]]].
    all: destruct (alignTs _ _); cbn [rbind] in Hg; [|discriminate]; injection Hg as <-; reflexivity.
  - intros r Hp Hr. unfold QueryOne, selectPool, selectPoolByPK. cbn [qp_Endpoint qp_Counter para GenQParam]. unfold counter. rewrite <- PK_counter.
    fold (MetaData_PK d). rewrite Hring, Hn. cbn [mbind option_bind]. rewrite Hc. cbn [mbind option_bind].
    rewrite bool_decide_eq_true_2 by (rewrite Hp; by eexists). unfold connected. rewrite Hp. cbn [negb]. fold counter. fold para. rewrite Hr.
    eexists. split; [done|]. apply filter_points.
Qed.

Definition api_map : gmap string string := {["g0" := "b"]}.
Definition api_pools : gmap string (option bool) := {["b" := Some false]}.
Definition api_answer : GraphQueryResponse :=
  mkGQR "h" "cpu" "DERIVE" 60 [mkRRDData 60 (f64_of_Z 1); mkRRDData 120 (f64_of_Z (-1)); mkRRDData 180 (f64_of_Z 2); mkRRDData 240 (f64_of_Z 3)].

Lemma query_asks_where_sent_witness : exists s' q r',
  Push2GraphSendQueue tr_cfg tr_rings [tr_item "mem" 1000000030; tr_item "cpu" 1000000030] tr_start = Ret (tt, s') /\
  tr_Graph s' !! "g0b" = Some q /\
  QueryOne (fun _ => Some "g0") api_map api_pools (fun _ _ => Answered api_answer) (GenQParam "h" "cpu" "AVERAGE" 100 200 60) = (Some r', true) /\
  qr_Values r' = [mkRRDData 120 fnan; mkRRDData 180 (f64_of_Z 2)].
Proof.
  destruct (convert2GraphItem tr_cfg (tr_item "cpu" 1000000030)) as [[g|]|] eqn:Eg; [|vm_compute in Eg; discriminate..].
  destruct (query_asks_where_sent tr_cfg tr_rings (fun _ => Some "g0") api_map api_pools (fun _ _ => Answered api_answer)
    [tr_item "mem" 1000000030; tr_item "cpu" 1000000030] tr_start "AVERAGE" 100 200 60) as (s' & E & H).
  - split; [done|]. intros node addrs H. change (tc_ClusterList tr_cfg) with ({["g0" := ["a"; "b"]]} : gmap string (list string)) in H. apply lookup_singleton_Some in H as [<- <-]. exists "b". split; [reflexivity|right; left].
  - apply tr_start_wired.
  - intros k q Hq. assert (q = []) as ->; [|unfold DefaultSendQueueMaxSize; vm_compute; discriminate].
    change (tr_Graph tr_start) with (<["g0b" := []]> (<["g0a" := []]> (∅ : gmap string (list GraphItem)))) in Hq.
    apply lookup_insert_Some in Hq as [[_ <-]|[_ Hq]]; [done|]. apply lookup_insert_Some in Hq as [[_ <-]|[_ Hq]]; [done|]. by rewrite lookup_empty in Hq.
  - destruct (H (tr_item "cpu" 1000000030) g "g0") as (addr & q & Ea & Eq & _ & _ & Hr); [right; by left|exact Eg|reflexivity|].
    injection Ea as <-. destruct (Hr api_answer) as (r' & Hq & Hv); [reflexivity|reflexivity|]. exists s', q, r'. split; [exact E|]. split; [exact Eq|].
    split; [exact Hq|]. rewrite Hv. vm_compute. reflexivity.
Defined.
