(* ===== verification/ApiDb.v ===== *)
(** The tables of the web service ([modules/api]) and what [gorm]
    ([vendor/github.com/jinzhu/gorm]) makes of its calls: which rows a call
    reads, changes and removes, what it does with a primary key that is blank,
    and which error it gives.

    The tables are those of [scripts/mysql/db_schema] as the structs of
    [app/model] see them; MySQL is their rows, the unique indexes, the counters
    of the ids and, per statement, an oracle that may refuse it.  A transaction
    works on a copy that replaces the tables when it is committed; the counters
    are not part of it. *)
From S2P Require Import Prelude GoFloat GoStr.
Local Open Scope string_scope.

(** * Rows ([app/model]) *)

(** Source: modules/api/app/model/falcon_portal/host_group.go, type HostGroup. *)
Record HostGroup := mkHostGroup { hg_ID : Z; hg_Name : string; hg_CreateUser : string; hg_ComeFrom : Z }.
(** Source: modules/api/app/model/falcon_portal/host.go, type Host. Symbol: Host. *)
Record PHost := mkPHost {
  ho_ID : Z; ho_Hostname : string; ho_Ip : string; ho_AgentVersion : string; ho_PluginVersion : string; ho_MaintainBegin : Z; ho_MaintainEnd : Z }.
(** Source: modules/api/app/model/falcon_portal/grp_host.go, type GrpHost. *)
Record GrpHost := mkGrpHost { gh_GrpID : Z; gh_HostID : Z }.
(** Source: modules/api/app/model/falcon_portal/grp_tpl.go, type GrpTpl. *)
Record GrpTpl := mkGrpTpl { gt_GrpID : Z; gt_TplID : Z; gt_BindUser : string }.
(** Source: modules/api/app/model/falcon_portal/tpl.go, type Template. Symbol: Template. *)
Record PTemplate := mkPTemplate { tp_ID : Z; tp_Name : string; tp_ParentID : Z; tp_ActionID : Z; tp_CreateUser : string }.
(** Source: modules/api/app/model/falcon_portal/strategy.go, type Strategy. Symbol: Strategy. *)
Record PStrategy := mkPStrategy {
  sr_ID : Z; sr_Metric : string; sr_Tags : string; sr_MaxStep : Z; sr_Priority : Z; sr_Func : string; sr_Op : string; sr_RightValue : string;
  sr_Note : string; sr_RunBegin : string; sr_RunEnd : string; sr_TplId : Z }.
(** Source: modules/api/app/model/falcon_portal/action.go, type Action. Symbol: Action. *)
Record PAction := mkPAction {
  pa_ID : Z; pa_UIC : string; pa_LarkGroupId : string; pa_URL : string; pa_Callback : Z; pa_BeforeCallbackSMS : Z; pa_BeforeCallbackMail : Z;
  pa_AfterCallbackSMS : Z; pa_AfterCallbackMail : Z }.
(** Source: modules/api/app/model/falcon_portal/expression.go, type Expression. Symbol: Expression. *)
Record PExpression := mkPExpression {
  px_ID : Z; px_Expression : string; px_Func : string; px_Op : string; px_RightValue : string; px_MaxStep : Z; px_Priority : Z; px_Note : string;
  px_ActionId : Z; px_CreateUser : string; px_Pause : Z }.
(** Source: modules/api/app/model/falcon_portal/plugin_dir.go, type Plugin. Symbol: Plugin. *)
Record PPlugin := mkPPlugin { pd_ID : Z; pd_GrpId : Z; pd_Dir : string; pd_CreateUser : string }.
(** Source: modules/api/app/model/falcon_portal/cluster.go, type Cluster. Symbol: Cluster. *)
Record PCluster := mkPCluster {
  pc_ID : Z; pc_GrpId : Z; pc_Numerator : string; pc_Denominator : string; pc_Endpoint : string; pc_Metric : string; pc_Tags : string;
  pc_DsType : string; pc_Step : Z; pc_Creator : string }.
(** Source: modules/api/app/model/falcon_portal/mockcfg.go, type Mockcfg. *)
Record Mockcfg := mkMockcfg {
  mk_ID : Z; mk_Name : string; mk_Obj : string; mk_ObjType : string; mk_Metric : string; mk_Tags : string; mk_DsType : string; mk_Step : Z;
  mk_Mock : f64; mk_Creator : string }.
(** Source: modules/api/app/model/uic/user.go, type User. Symbol: User. *)
Record PUser := mkPUser {
  us_ID : Z; us_Name : string; us_Cnname : string; us_Passwd : string; us_Email : string; us_Phone : string; us_IM : string; us_QQ : string; us_Role : Z }.
(** Source: modules/api/app/model/uic/team.go, type Team. *)
Record Team := mkTeam { te_ID : Z; te_Name : string; te_Resume : string; te_Creator : Z }.
(** Source: modules/api/app/model/uic/rel_team_user.go, type RelTeamUser. *)
Record RelTeamUser := mkRel { re_ID : Z; re_Tid : Z; re_Uid : Z }.
(** Source: modules/api/app/model/uic/user.go, type Session. *)
Record Session := mkSession { se_ID : Z; se_Uid : Z; se_Sig : string; se_Expired : Z }.
(** Source: modules/api/app/model/dashboard/dashboard_graph.go, type DashboardGraph. *)
Record DashboardGraph := mkDGraph {
  dg_ID : Z; dg_Title : string; dg_Hosts : string; dg_Counters : string; dg_ScreenId : Z; dg_TimeSpan : Z; dg_GraphType : string; dg_Method : string;
  dg_Position : Z; dg_FalconTags : string }.
(** Source: modules/api/app/model/dashboard/dashboard_screen.go, type DashboardScreen. *)
Record DashboardScreen := mkScreen { sc_ID : Z; sc_PID : Z; sc_Name : string }.
(** Source: modules/api/app/model/dashboard/dashboard_tmp_graph.go, type DashboardTmpGraph. The last column, [time_], is in the table only. *)
Record DashboardTmpGraph := mkTmpGraph { tg_ID : Z; tg_Endpoints : string; tg_Counters : string; tg_CK : string; tg_Time : Z }.

(** The tables: the [TableName] of the models. *)
Inductive tbl := TGrp | THost | TGrpHost | TGrpTpl | TTpl | TStrategy | TAction | TExpression | TPlugin | TCluster | TMockcfg | TUser | TTeam | TRel | TSession
  | TGraph | TScreen | TTmp.
#[export] Instance tbl_eq_dec : EqDecision tbl.
Proof. solve_decision. Defined.

(** What a table is made of. *)
Definition row (t : tbl) : Type :=
  match t with
  | TGrp => HostGroup | THost => PHost | TGrpHost => GrpHost | TGrpTpl => GrpTpl | TTpl => PTemplate | TStrategy => PStrategy | TAction => PAction
  | TExpression => PExpression | TPlugin => PPlugin | TCluster => PCluster | TMockcfg => Mockcfg | TUser => PUser | TTeam => Team | TRel => RelTeamUser
  | TSession => Session | TGraph => DashboardGraph | TScreen => DashboardScreen | TTmp => DashboardTmpGraph
  end.
#[export] Instance row_eq_dec (t : tbl) : EqDecision (row t).
Proof. destruct t; unfold row; solve_decision. Defined.

(** The primary key as [gorm] finds it: the field [ID]; a struct without one has none. *)
Definition pk (t : tbl) : row t -> option Z :=
  match t return row t -> option Z with
  | TGrp => fun r => Some (hg_ID r) | THost => fun r => Some (ho_ID r) | TGrpHost => fun _ => None | TGrpTpl => fun _ => None
  | TTpl => fun r => Some (tp_ID r) | TStrategy => fun r => Some (sr_ID r) | TAction => fun r => Some (pa_ID r) | TExpression => fun r => Some (px_ID r)
  | TPlugin => fun r => Some (pd_ID r) | TCluster => fun r => Some (pc_ID r) | TMockcfg => fun r => Some (mk_ID r) | TUser => fun r => Some (us_ID r)
  | TTeam => fun r => Some (te_ID r) | TRel => fun r => Some (re_ID r) | TSession => fun r => Some (se_ID r)
  | TGraph => fun r => Some (dg_ID r) | TScreen => fun r => Some (sc_ID r) | TTmp => fun r => Some (tg_ID r)
  end.
(** The row with another id. *)
Definition set_pk (t : tbl) (i : Z) : row t -> row t :=
  match t return row t -> row t with
  | TGrp => fun r => mkHostGroup i (hg_Name r) (hg_CreateUser r) (hg_ComeFrom r)
  | THost => fun r => mkPHost i (ho_Hostname r) (ho_Ip r) (ho_AgentVersion r) (ho_PluginVersion r) (ho_MaintainBegin r) (ho_MaintainEnd r)
  | TGrpHost => fun r => r | TGrpTpl => fun r => r
  | TTpl => fun r => mkPTemplate i (tp_Name r) (tp_ParentID r) (tp_ActionID r) (tp_CreateUser r)
  | TStrategy => fun r => mkPStrategy i (sr_Metric r) (sr_Tags r) (sr_MaxStep r) (sr_Priority r) (sr_Func r) (sr_Op r) (sr_RightValue r) (sr_Note r)
                   (sr_RunBegin r) (sr_RunEnd r) (sr_TplId r)
  | TAction => fun r => mkPAction i (pa_UIC r) (pa_LarkGroupId r) (pa_URL r) (pa_Callback r) (pa_BeforeCallbackSMS r) (pa_BeforeCallbackMail r)
                 (pa_AfterCallbackSMS r) (pa_AfterCallbackMail r)
  | TExpression => fun r => mkPExpression i (px_Expression r) (px_Func r) (px_Op r) (px_RightValue r) (px_MaxStep r) (px_Priority r) (px_Note r)
                     (px_ActionId r) (px_CreateUser r) (px_Pause r)
  | TPlugin => fun r => mkPPlugin i (pd_GrpId r) (pd_Dir r) (pd_CreateUser r)
  | TCluster => fun r => mkPCluster i (pc_GrpId r) (pc_Numerator r) (pc_Denominator r) (pc_Endpoint r) (pc_Metric r) (pc_Tags r) (pc_DsType r)
                  (pc_Step r) (pc_Creator r)
  | TMockcfg => fun r => mkMockcfg i (mk_Name r) (mk_Obj r) (mk_ObjType r) (mk_Metric r) (mk_Tags r) (mk_DsType r) (mk_Step r) (mk_Mock r) (mk_Creator r)
  | TUser => fun r => mkPUser i (us_Name r) (us_Cnname r) (us_Passwd r) (us_Email r) (us_Phone r) (us_IM r) (us_QQ r) (us_Role r)
  | TTeam => fun r => mkTeam i (te_Name r) (te_Resume r) (te_Creator r)
  | TRel => fun r => mkRel i (re_Tid r) (re_Uid r)
  | TSession => fun r => mkSession i (se_Uid r) (se_Sig r) (se_Expired r)
  | TGraph => fun r => mkDGraph i (dg_Title r) (dg_Hosts r) (dg_Counters r) (dg_ScreenId r) (dg_TimeSpan r) (dg_GraphType r) (dg_Method r) (dg_Position r)
                (dg_FalconTags r)
  | TScreen => fun r => mkScreen i (sc_PID r) (sc_Name r) | TTmp => fun r => mkTmpGraph i (tg_Endpoints r) (tg_Counters r) (tg_CK r) (tg_Time r)
  end.
(** The unique indexes of [scripts/mysql/db_schema]. *)
Definition unique (t : tbl) : row t -> option string :=
  match t return row t -> option string with
  | TGrp => fun r => Some (hg_Name r) | THost => fun r => Some (ho_Hostname r) | TTpl => fun r => Some (tp_Name r)
  | TMockcfg => fun r => Some (mk_Name r) | TUser => fun r => Some (us_Name r) | TTeam => fun r => Some (te_Name r)
  | TTmp => fun r => Some (tg_CK r)
  | _ => fun _ => None
  end.

(** * The tables, a transaction, and the state of the service *)

Definition Db : Type := forall t : tbl, list (row t).
Definition set_rows (t : tbl) (l : list (row t)) (d : Db) : Db := fun t' =>
  match decide (t = t') with
  | left e => match e in _ = t' return list (row t') with eq_refl => l end
  | right _ => d t'
  end.

(** A call outside a transaction, or on the one that is open. *)
Inductive handle := DB | TX.
(** No transaction, one with its copy of the tables, or one the server did not open. *)
Inductive Tx := NoTx | OpenTx (d : Db) | BrokenTx (e : string).

(** The errors of a call: [ErrRecordNotFound], a unique index, or a refusal of the server. *)
Inductive db_err := RecordNotFound | Duplicate | Refused (text : string).

Record Api := mkApi {
  api_db : Db;
  api_tx : Tx;
  api_next : tbl -> Z;
  api_redis : gmap string Session;
  api_tick : nat }.
Definition a_set_db v s := mkApi v (api_tx s) (api_next s) (api_redis s) (api_tick s).
Definition a_set_tx v s := mkApi (api_db s) v (api_next s) (api_redis s) (api_tick s).
Definition a_set_next v s := mkApi (api_db s) (api_tx s) v (api_redis s) (api_tick s).
Definition a_set_redis v s := mkApi (api_db s) (api_tx s) (api_next s) v (api_tick s).
Definition a_tick s := mkApi (api_db s) (api_tx s) (api_next s) (api_redis s) (S (api_tick s)).

(** What the model is given: which statements are refused, the clock (one for
    the service and its database), the order of the
    rows of an answer, the collation of the columns, [regexp] of MySQL, the
    answers to statements made of texts, and the settings and libraries the
    handlers use. *)
Record ApiEnv := mkApiEnv {
  e_sql : nat -> option string;
  e_now : nat -> Z;
  e_order : nat -> forall R : Type, list R -> list R;
  e_collate : string -> string;
  e_regexp : string -> string -> bool;
  e_raw : nat -> string -> forall t : tbl, list (row t) + string;
  e_redis : nat -> option string;
  e_uuid : nat -> string;
  e_salt : string;
  e_admin_salt : string;
  e_default_token : string;
  e_access_control : bool;
  e_skip_auth : bool;
  e_signup_disable : bool }.

Definition Ap (X : Type) : Type := M Api X.

Section gorm.
Context (env : ApiEnv).

(** [=] between texts, under the collation. *)
Definition sql_eq (a b : string) : bool := String.eqb (e_collate env a) (e_collate env b).

(** The tables a statement sees, and all the tables a new row may not clash
    with: those of an open transaction hold its rows already. *)
Definition sees (h : handle) (s : Api) : Db := match h, api_tx s with TX, OpenTx d => d | _, _ => api_db s end.
Definition all_seen (h : handle) (s : Api) : list Db :=
  match h, api_tx s with
  | TX, OpenTx d => [d]
  | DB, OpenTx d => [api_db s; d]
  | _, _ => [api_db s]
  end.
(** A statement that changes tables. *)
Definition put (h : handle) (f : Db -> Db) (s : Api) : Api :=
  match h, api_tx s with
  | TX, OpenTx d => a_set_tx (OpenTx (f d)) s
  | DB, OpenTx d => a_set_tx (OpenTx (f d)) (a_set_db (f (api_db s)) s)
  | _, _ => a_set_db (f (api_db s)) s
  end.

(** A statement reaches the server, which may refuse it. *)
Definition stmt (h : handle) : Ap (option db_err) := fun s =>
  match h, api_tx s with
  | TX, NoTx => Ret (Some (Refused "sql: Transaction has already been committed or rolled back"), s)
  | TX, BrokenTx e => Ret (Some (Refused e), s)
  | _, _ => Ret (Refused <$> e_sql env (api_tick s), a_tick s)
  end.

(** Source: vendor/github.com/jinzhu/gorm/scope.go, Scope.PrimaryKeyZero. *)
Definition PrimaryKeyZero (t : tbl) (v : row t) : bool := match pk t v with None => true | Some i => (i =? 0)%Z end.
Definition same_pk (t : tbl) (v r : row t) : bool := match pk t v, pk t r with Some i, Some j => (i =? j)%Z | _, _ => false end.
(** Source: vendor/github.com/jinzhu/gorm/scope.go, lines 673-724. The rows a call with the value [v] and the condition [p] is about: the primary key of [v] counts unless it is blank. Symbol: Scope.whereSQL. *)
Definition whereSQL (t : tbl) (v : row t) (p : row t -> bool) (r : row t) : bool := (PrimaryKeyZero t v || same_pk t v r) && p r.
(** No condition, and the condition [id = i]. *)
Definition any (t : tbl) (_ : row t) : bool := true.
Definition has_id (t : tbl) (i : Z) (r : row t) : bool := match pk t r with Some j => (j =? i)%Z | None => false end.

(** The rows that meet a condition, in the order of the server. *)
Definition select (h : handle) (t : tbl) (p : row t -> bool) : Ap (list (row t)) :=
  gets (fun s => e_order env (api_tick s) (row t) (List.filter p (sees h s t))).

(** Source: vendor/github.com/jinzhu/gorm/callback_query.go, queryCallback. [Find] and [Scan] into a struct that holds [v]: the last row that is read stays in it. *)
Definition find_one (h : handle) (t : tbl) (v : row t) (p : row t -> bool) : Ap (row t * option db_err) :=
  do! e := stmt h in
  match e with
  | Some e => ret (v, Some e)
  | None =>
      do! rows := select h t (whereSQL t v p) in
      ret (match last rows with Some r => (r, None) | None => (v, Some RecordNotFound) end)
  end.
(** Source: vendor/github.com/jinzhu/gorm/callback_query.go, lines 35-78. [Find] and [Scan] into a slice. Symbol: queryCallback. *)
Definition find_all (h : handle) (t : tbl) (p : row t -> bool) : Ap (list (row t) * option db_err) :=
  do! e := stmt h in
  match e with
  | Some e => ret ([], Some e)
  | None => do! rows := select h t p in ret (rows, None)
  end.
(** The row with the least id. *)
Definition first_row (t : tbl) (l : list (row t)) : option (row t) :=
  fold_left (fun a r => match a with
                        | None => Some r
                        | Some b => match pk t b, pk t r with Some i, Some j => if (j <? i)%Z then Some r else a | _, _ => a end
                        end) l None.
(** Source: vendor/github.com/jinzhu/gorm/main.go, DB.First. *)
Definition find_first (h : handle) (t : tbl) (v : row t) (p : row t -> bool) : Ap (row t * option db_err) :=
  do! e := stmt h in
  match e with
  | Some e => ret (v, Some e)
  | None =>
      do! rows := select h t (whereSQL t v p) in
      ret (match first_row t rows with Some r => (r, None) | None => (v, Some RecordNotFound) end)
  end.
(** A statement given as a text that reads rows: what the server answers. *)
Definition raw_all (t : tbl) (text : string) : Ap (list (row t) * option db_err) := fun s =>
  match e_raw env (api_tick s) text t with
  | inl rows => Ret ((rows, None), a_tick s)
  | inr e => Ret (([], Some (Refused e)), a_tick s)
  end.

(** Source: vendor/github.com/jinzhu/gorm/callback_delete.go, deleteCallback. The number of rows that go. *)
Definition delete_rows (h : handle) (t : tbl) (v : row t) (p : row t -> bool) : Ap (Z * option db_err) :=
  do! e := stmt h in
  match e with
  | Some e => ret (0%Z, Some e)
  | None =>
      do! d := gets (sees h) in
      do! _ := modify (put h (fun d => set_rows t (List.filter (fun r => negb (whereSQL t v p r)) (d t)) d)) in
      ret (Z.of_nat (length (List.filter (whereSQL t v p) (d t))), None)
  end.

(** The entry of a row in the unique index of its table. *)
Definition key_of (t : tbl) (r : row t) : option string := e_collate env <$> unique t r.
(** A row is in the way of a new one. *)
Definition clashes (t : tbl) (v r : row t) : bool :=
  same_pk t v r || match key_of t v, key_of t r with Some a, Some b => String.eqb a b | _, _ => false end.
(** A blank id gets the next number of the counter, which a given one moves on. *)
Definition assign_id (t : tbl) (v : row t) : Ap (row t) := fun s =>
  match pk t v with
  | None => Ret (v, s)
  | Some i =>
      let n := api_next s t in
      let '(v', n') := if (i =? 0)%Z then (set_pk t n v, (n + 1)%Z) else (v, Z.max n (i + 1)) in
      Ret (v', a_set_next (fun t' => if decide (t = t') then n' else api_next s t') s)
  end.
(** Source: vendor/github.com/jinzhu/gorm/callback_create.go, createCallback. *)
Definition create (h : handle) (t : tbl) (v : row t) : Ap (row t * option db_err) :=
  do! e := stmt h in
  match e with
  | Some e => ret (v, Some e)
  | None =>
      do! v' := assign_id t v in
      do! ds := gets (all_seen h) in
      if existsb (fun d => existsb (clashes t v') (d t)) ds then ret (v, Some Duplicate)
      else
        do! _ := modify (put h (fun d => set_rows t (d t ++ [v'])%list d)) in
        ret (v', None)
  end.

(** The rows after an update, and whether the unique indexes admit them. *)
Definition updated (t : tbl) (v : row t) (p : row t -> bool) (f : row t -> row t) (l : list (row t)) : list (row t) :=
  map (fun r => if whereSQL t v p r then f r else r) l.
Definition indexed (t : tbl) (l : list (row t)) : bool :=
  bool_decide (NoDup (omap (pk t) l)) && bool_decide (NoDup (omap (key_of t) l)).
(** Source: vendor/github.com/jinzhu/gorm/callback_update.go, updateCallback. [f] sets the columns; the server counts the rows that change. The struct [v] takes the new values first, whatever happens ([updatedAttrsWithValues]). *)
Definition update (h : handle) (t : tbl) (v : row t) (p : row t -> bool) (f : row t -> row t) : Ap (Z * option db_err) :=
  do! e := stmt h in
  match e with
  | Some e => ret (0%Z, Some e)
  | None =>
      do! ds := gets (all_seen h) in
      do! d := gets (sees h) in
      if forallb (fun d => indexed t (updated t v p f (d t))) ds then
        do! _ := modify (put h (fun d => set_rows t (updated t v p f (d t)) d)) in
        ret (Z.of_nat (length (List.filter (fun r => whereSQL t v p r && negb (bool_decide (f r = r))) (d t))), None)
      else ret (0%Z, Some Duplicate)
  end.
(** Source: vendor/github.com/jinzhu/gorm/main.go, DB.Save. A value with a blank key is created; another one updates its row, and is looked up and created when no row has changed ([FirstOrCreate]). *)
Definition save (h : handle) (t : tbl) (v : row t) : Ap (row t * option db_err) :=
  if PrimaryKeyZero t v then create h t v
  else
    do! r := update h t v (any t) (fun _ => v) in
    match r with
    | (_, Some e) => ret (v, Some e)
    | (n, None) =>
        if (n =? 0)%Z then
          do! r := find_first h t v (any t) in
          match r with
          | (_, Some RecordNotFound) => create h t v
          | r => ret r
          end
        else ret (v, None)
    end.

(** Source: vendor/github.com/jinzhu/gorm/main.go, DB.Begin. *)
Definition Begin : Ap unit := fun s =>
  Ret (tt, a_set_tx (match e_sql env (api_tick s) with Some e => BrokenTx e | None => OpenTx (api_db s) end) (a_tick s)).
(** Source: vendor/github.com/jinzhu/gorm/main.go, DB.Rollback. On a transaction that was not opened it is a call on a nil pointer. *)
Definition Rollback : Ap unit := fun s =>
  match api_tx s with
  | BrokenTx _ => Panic NilDeref
  | _ => Ret (tt, a_set_tx NoTx s)
  end.
(** Source: vendor/github.com/jinzhu/gorm/main.go, DB.Commit. The callers do not look at its error. *)
Definition Commit : Ap unit := fun s =>
  match api_tx s with
  | BrokenTx _ => Panic NilDeref
  | NoTx => Ret (tt, s)
  | OpenTx d =>
      Ret (tt, a_set_tx NoTx (match e_sql env (api_tick s) with Some _ => a_tick s | None => a_set_db d (a_tick s) end))
  end.

End gorm.
