(* ===== verification/ApiAuth.v ===== *)
(** Who calls the web service ([modules/api/app/helper], [app/utils],
    [controller/uic]): the session of a token, the user behind it, logging in
    and out, and the handlers of the users.

    A request comes with the content of its header [Apitoken] and, when it has
    one, the result of binding its body; the rules [binding:"required"] of the
    bodies are [required] here. Sessions are kept in redis as JSON, which are
    kept as the values they encode. *)
From S2P Require Import Prelude GoStr GoNum GoRegexp Hash.
From S2P Require Export ApiDb.
From S2P Require Utils.
Local Open Scope string_scope.

(** * Answers ([helper/simple_reponse.go]) *)

(** What an answer holds: a message or an error text, the error of a statement
    behind a text, the error of a binding, rows, and the objects of their own. *)
Inductive body :=
  | Message (s : string)
  | Problem (before : string) (e : db_err)
  | BadInput
  | Rows (t : tbl) (l : list (row t))
  | One (t : tbl) (r : row t)
  | LoggedIn (sig name : string) (admin : bool)
  | GroupHosts (g : HostGroup) (hosts : list PHost)
  | GroupTemplates (g : HostGroup) (tpls : list PTemplate)
  | GroupAggregators (name : string) (l : list PCluster)
  | Names (l : list string)
  | Templates (l : list (PTemplate * string))
  | TemplateFull (t : PTemplate) (l : list PStrategy) (a : PAction) (parent : string)
  | TemplateGroups (t : PTemplate) (l : list HostGroup)
  | ExpressionFull (x : PExpression) (a : PAction)
  | TeamFull (l : list (Team * list PUser * string))
  | Id (id : Z)
  | TmpBoard (endpoints counters : list string)
  | Board (g : DashboardGraph) (endpoints counters : list string)
  | Boards (l : list (DashboardGraph * list string * list string))
  | NewScreen (pid id : Z) (name : string).
(** An answer with its code; a handler may write none, or a second one. *)
Inductive answer := Answer (code : Z) (b : body) | NoAnswer | Twice (a b : answer).
Definition ok (b : body) : answer := Answer 200 b.
Definition badstatus : Z := 400.
Definition expecstatus : Z := 417.

(** * Helpers *)

(** Source: modules/api/app/utils/regexp.go, HasDangerousCharacters. *)
Definition HasDangerousCharacters (str : string) : bool :=
  existsb (fun c => has c str) (map Ascii.ascii_of_nat [60; 62; 38; 39; 34]).
(** Source: modules/api/app/helper/pagging_parser.go, PageParser. The page, the limit, and the text of the error; -1 stands for one that is not given. *)
Definition PageParser (page limit : string) : Z * Z * option string :=
  if String.eqb page "" then ((-1)%Z, (-1)%Z, None)
  else
    match atoi page with
    | None => (parse_int_value page 64, (-1)%Z, Some "page")
    | Some p =>
        if String.eqb limit "" then (p, (-1)%Z, Some "You set page but skip limit params, please check your input")
        else
          match atoi limit with
          | None => (p, parse_int_value limit 64, Some "limit")
          | Some l =>
              if ((p <=? 0) || (l <=? 0))%Z then (p, l, Some "limit or page can not set to 0 or less than 0")
              else ((if (p =? 1)%Z then 0%Z else (p -! 1) *! l)%Z, l, None)
          end
    end.
(** Source: modules/api/app/utils/to_string.go, ArrInt64ToString. The error of an empty slice is the empty text. *)
Definition ArrInt64ToString (arr : list Z) : string := join "," (map itoa arr).

(** * Sessions ([helper/session.go]) *)

(** The header: absent, a text that is no JSON, or a name and a signature. *)
Inductive token := NoToken | BadToken (e : string) | Token (Name Sig : string).
(** Source: modules/api/app/helper/session.go, type WebSession. *)
Record WebSession := mkWebSession { ws_Name : string; ws_Sig : string }.

(** Source: modules/api/app/helper/session.go, GetSession. *)
Definition GetSession (tok : token) : WebSession + string :=
  match tok with
  | NoToken => inr "token key is not set"
  | BadToken e => inr e
  | Token name sig =>
      if String.eqb name "" then inr "token key:name is empty"
      else if String.eqb sig "" then inr "token key:sig is empty"
      else inl (mkWebSession name sig)
  end.

Section auth.
Context (env : ApiEnv).

(** Source: modules/api/config/redis.go, RedisGet. A missing key is an error too. *)
Definition RedisGet (key : string) : Ap (option Session) := fun s =>
  Ret (match e_redis env (api_tick s) with Some _ => None | None => api_redis s !! key end, a_tick s).
(** Source: modules/api/config/redis.go, RedisSet. The sessions are set without an expiry. *)
Definition RedisSet (key : string) (v : Session) : Ap (option string) := fun s =>
  match e_redis env (api_tick s) with
  | Some e => Ret (Some e, a_tick s)
  | None => Ret (None, a_set_redis (<[key := v]> (api_redis s)) (a_tick s))
  end.
Definition sig_redis_key (name : string) : string := "user_sig_" ++s name.

(** Source: modules/api/app/helper/session.go, SessionChecking. [None] when the session is good. *)
Definition SessionChecking (tok : token) : Ap (option string) :=
  match GetSession tok with
  | inr e => ret (Some e)
  | inl websessio =>
      if negb (String.eqb (e_default_token env) "") && String.eqb (ws_Sig websessio) (e_default_token env) then ret None
      else
        do! value := RedisGet (sig_redis_key (ws_Name websessio)) in
        ret (match value with
             | None => Some "redigo: nil returned"
             | Some session => if String.eqb (se_Sig session) (ws_Sig websessio) then None else Some ("Sig_wrong:" ++s ws_Sig websessio)
             end)
  end.
(** Source: modules/api/app/utils/auth_middle.go, AuthSessionMidd. The answer that ends the request, if any. *)
Definition AuthSessionMidd (tok : token) : Ap (option answer) :=
  do! err := SessionChecking tok in
  ret (if e_skip_auth env then None else match err with Some e => Some (Answer 401 (Message e)) | None => None end).

(** * Users ([model/uic/user.go]) *)

Definition no_user : PUser := mkPUser 0 "" "" "" "" "" "" "" 0.
Definition user_named (name : string) : PUser := mkPUser 0 name "" "" "" "" "" "" 0.
(** Source: modules/api/app/model/uic/user.go, User.IsAdmin. *)
Definition IsAdmin (u : PUser) : bool := negb (e_access_control env) || (us_Role u =? 2)%Z || (us_Role u =? 1)%Z.
(** The condition [Where(&user)] of a struct with a name only; a blank name is no condition. *)
Definition like_name (name : string) (r : PUser) : bool := String.eqb name "" || sql_eq env (us_Name r) name.

(** Why there is no user. *)
Inductive user_err := NoSession (e : string) | NoUser (e : db_err).
Definition user_problem (e : user_err) : body := match e with NoSession e => Message e | NoUser e => Problem "" e end.

(** Source: modules/api/app/helper/session.go, GetUser. A user that is not found keeps the name of the session. *)
Definition h_GetUser (tok : token) : Ap (PUser * option user_err) :=
  match GetSession tok with
  | inr e => ret (no_user, Some (NoSession e))
  | inl websession =>
      do! r := find_one env DB TUser (user_named (ws_Name websession)) (like_name (ws_Name websession)) in
      ret (fst r, NoUser <$> snd r)
  end.

(** Source: modules/api/app/utils/passwd_hash.go, HashIt. *)
Definition HashIt (passwd : string) : string := md5_hex (e_salt env ++s passwd).

(** * Logging in ([session_controller.go]) *)

(** Source: modules/api/app/controller/uic/session_controller.go, type APILoginInput. *)
Record APILoginInput := mkLogin { li_Name : string; li_Password : string; li_AdminSalt : string }.

(** A new session of a user is written to redis and given to the caller. *)
Definition new_session (user : PUser) : Ap answer :=
  do! sig := gets (fun s => e_uuid env (api_tick s)) in
  let session := mkSession 0 (us_ID user) sig 0 in
  do! s_err := RedisSet (sig_redis_key (us_Name user)) session in
  ret (match s_err with
       | Some e => Answer badstatus (Message e)
       | None => ok (LoggedIn sig (us_Name user) (IsAdmin user))
       end).

(** Source: modules/api/app/controller/uic/session_controller.go, Login. *)
Definition Login (inputs : option APILoginInput) : Ap answer :=
  match inputs with
  | None => ret (Answer badstatus (Message "name or password is blank"))
  | Some inputs =>
      if String.eqb (li_Name inputs) "" || String.eqb (li_Password inputs) "" then ret (Answer badstatus (Message "name or password is blank"))
      else
        let configAdminSalt := if String.eqb (e_admin_salt env) "" then "falcon_api_admin_salt_byte2019" else e_admin_salt env in
        do! r := find_one env DB TUser no_user (fun u => sql_eq env (us_Name u) (li_Name inputs)) in
        let '(user, err) := r in
        match err with
        | Some (Duplicate as e) | Some (Refused _ as e) => ret (Answer badstatus (Problem "" e))
        | _ =>
            if (us_ID user =? 0)%Z then ret (Answer badstatus (Message "no such user"))
            else
              do! sig_v := RedisGet (sig_redis_key (us_Name user)) in
              match sig_v with
              | Some session_old =>
                  if IsAdmin user && negb (String.eqb configAdminSalt (li_AdminSalt inputs)) then
                    ret (Answer badstatus (Message "wrong admin salt"))
                  else ret (ok (LoggedIn (se_Sig session_old) (us_Name user) (IsAdmin user)))
              | None => new_session user
              end
        end
  end.

(** Source: modules/api/app/controller/uic/session_controller.go, Logout. A failed deletion is answered twice. *)
Definition Logout (tok : token) : Ap answer :=
  match GetSession tok with
  | inr e => ret (Answer badstatus (Message e))
  | inl wsession =>
      do! r := find_one env DB TUser no_user (like_name (ws_Name wsession)) in
      let user := fst r in
      do! r := find_one env DB TSession (mkSession 0 0 "" 0) (fun s => sql_eq env (se_Sig s) (ws_Sig wsession) && (se_Uid s =? us_ID user)%Z) in
      let session := fst r in
      if (se_ID session =? 0)%Z then ret (Answer badstatus (Message "not found this kind of session in database."))
      else
        do! r := delete_rows env DB TSession session (any TSession) in
        ret (match snd r with
             | Some e => Twice (Answer badstatus (Problem "" e)) (ok (Message "logout successful"))
             | None => ok (Message "logout successful")
             end)
  end.

(** Source: modules/api/app/controller/uic/session_controller.go, AuthSession. *)
Definition AuthSession (tok : token) : Ap answer :=
  do! err := SessionChecking tok in
  ret (match err with Some e => Answer 401 (Message e) | None => ok (Message "session is vaild!") end).

(** Source: modules/api/app/controller/uic/session_controller.go, CreateRoot. *)
Definition CreateRoot (password : string) : Ap answer :=
  if String.eqb password "" then ret (Answer badstatus (Message "password is empty, please check it"))
  else
    do! r := save env DB TUser (mkPUser 0 "root" "" (HashIt password) "" "" "" "" 0) in
    ret (match snd r with Some e => Answer badstatus (Problem "" e) | None => ok (Message "root created!") end).

(** * The handlers of users ([user_controller.go]) *)

(** Source: modules/api/app/controller/uic/user_controller.go, type APIUserInput. *)
Record APIUserInput := mkUserInput { ui_Name : string; ui_Cnname : string; ui_Passwd : string; ui_Email : string; ui_Phone : string; ui_IM : string; ui_QQ : string }.
(** The fields that have to be there. *)
Definition required (l : list string) : bool := forallb (fun s => negb (String.eqb s "")) l.
Definition bound {X} (inputs : option X) (fields : X -> list string) : option X :=
  i ← inputs; if required (fields i) then Some i else None.

(** Source: modules/api/app/controller/uic/user_controller.go, lines 59-75. When signing up is disabled, the caller has to be an administrator. Symbol: CreateUser. *)
Definition may_sign_up (tok : token) : Ap (option answer) :=
  if negb (e_signup_disable env) then ret None
  else
    let msg := "sign up is not enabled, please contact administrator" in
    do! r := h_GetUser tok in
    ret (match r with
         | (_, Some (NoSession e)) => Some (Answer badstatus (Message (if contains e "token key is not set" then msg else msg ++s ". " ++s e)))
         | (_, Some (NoUser e)) => Some (Answer badstatus (Problem (msg ++s ". ") e))
         | (user, None) => if IsAdmin user then None else Some (Answer badstatus (Message (msg ++s ". You are not admin, no permissions can do this")))
         end).

(** Source: modules/api/app/controller/uic/user_controller.go, CreateUser. *)
Definition CreateUser (tok : token) (inputs : option APIUserInput) : Ap answer :=
  match bound inputs (fun i => [ui_Name i; ui_Cnname i; ui_Passwd i; ui_Email i]) with
  | None => ret (Answer badstatus BadInput)
  | Some inputs =>
      let name := Utils.CompressStr (ui_Name inputs) in
      if HasDangerousCharacters (ui_Cnname inputs) then ret (Answer badstatus (Message "name pattern is invalid"))
      else
        do! refused := may_sign_up tok in
        match refused with
        | Some a => ret a
        | None =>
            do! r := find_one env DB TUser no_user (fun u => sql_eq env (us_Name u) name) in
            if negb (us_ID (fst r) =? 0)%Z then ret (Answer badstatus (Message "name is already existing"))
            else
              let role := if String.eqb name "root" then 2%Z else 0%Z in
              do! r := create env DB TUser (mkPUser 0 name (ui_Cnname inputs) (HashIt (ui_Passwd inputs)) (ui_Email inputs) (ui_Phone inputs)
                                              (ui_IM inputs) (ui_QQ inputs) role) in
              match r with
              | (_, Some e) => ret (Answer badstatus (Problem "" e))
              | (user, None) => new_session user
              end
        end
  end.

(** Source: modules/api/app/controller/uic/user_controller.go, type APIUserUpdateInput. *)
Record APIUserUpdateInput := mkUserUpdate { uu_Cnname : string; uu_Email : string; uu_Phone : string; uu_IM : string; uu_QQ : string }.
(** The columns a change of a profile sets. *)
Definition set_profile (i : APIUserUpdateInput) (u : PUser) : PUser :=
  mkPUser (us_ID u) (us_Name u) (uu_Cnname i) (us_Passwd u) (uu_Email i) (uu_Phone i) (uu_IM i) (uu_QQ i) (us_Role u).

(** Source: modules/api/app/controller/uic/user_controller.go, UpdateCurrentUser. *)
Definition UpdateCurrentUser (tok : token) (inputs : option APIUserUpdateInput) : Ap answer :=
  match bound inputs (fun i => [uu_Cnname i; uu_Email i]) with
  | None => ret (Answer expecstatus BadInput)
  | Some inputs =>
      if HasDangerousCharacters (uu_Cnname inputs) then ret (Answer badstatus (Message "name pattern is invalid"))
      else
        match GetSession tok with
        | inr e => ret (Answer badstatus (Message e))
        | inl websession =>
            do! r := find_one env DB TUser no_user (fun u => sql_eq env (us_Name u) (ws_Name websession)) in
            let user := fst r in
            if (us_ID user =? 0)%Z then ret (Answer badstatus (Message "name is not existing"))
            else
              do! r := update env DB TUser user (has_id TUser (us_ID user)) (set_profile inputs) in
              ret (match snd r with Some e => Answer expecstatus (Problem "" e) | None => ok (Message "user info updated") end)
        end
  end.

(** Source: modules/api/app/controller/uic/user_controller.go, type APICgPassedInput. *)
Record APICgPassedInput := mkCgPassed { cp_OldPassword : string; cp_NewPassword : string }.
Definition set_passwd (p : string) (u : PUser) : PUser :=
  mkPUser (us_ID u) (us_Name u) (us_Cnname u) p (us_Email u) (us_Phone u) (us_IM u) (us_QQ u) (us_Role u).

(** Source: modules/api/app/controller/uic/user_controller.go, lines 210-235. [ChangePassword] from the session on. Symbol: ChangePassword. *)
Definition change_password (tok : token) (inputs : APICgPassedInput) : Ap answer :=
  match GetSession tok with
  | inr e => ret (Answer badstatus (Message e))
  | inl websession =>
      do! r := find_one env DB TUser (user_named (ws_Name websession)) (like_name (ws_Name websession)) in
      match r with
      | (_, Some e) => ret (Answer expecstatus (Problem "" e))
      | (user, None) =>
          if negb (String.eqb (us_Passwd user) (HashIt (cp_OldPassword inputs))) then
            ret (Answer badstatus (Message "oldPassword is not match current one"))
          else
            do! r := save env DB TUser (set_passwd (HashIt (cp_NewPassword inputs)) user) in
            ret (match snd r with Some e => Answer expecstatus (Problem "" e) | None => ok (Message "password updated!") end)
      end
  end.
(** Source: modules/api/app/controller/uic/user_controller.go, ChangePassword. A binding that fails is answered, and the handler goes on with what was bound. *)
Definition ChangePassword (tok : token) (inputs : option APICgPassedInput) : Ap answer :=
  match bound inputs (fun i => [cp_OldPassword i; cp_NewPassword i]) with
  | Some i => change_password tok i
  | None =>
      do! a := change_password tok (default (mkCgPassed "" "") inputs) in
      ret (Twice (Answer badstatus BadInput) a)
  end.

(** Source: modules/api/app/controller/uic/user_controller.go, UserInfo. *)
Definition UserInfo (tok : token) : Ap answer :=
  do! r := h_GetUser tok in
  ret (match r with (_, Some e) => Answer expecstatus (user_problem e) | (user, None) => ok (One TUser user) end).

(** An id in the path of a request: [strconv.Atoi], with the answer to one that is missing or no number. *)
Definition path_id (missing : string) (text : string) : Z + answer :=
  if String.eqb text "" then inr (Answer badstatus (Message missing))
  else match atoi text with Some i => inl i | None => inr (Answer badstatus BadInput) end.

(** Source: modules/api/app/controller/uic/user_controller.go, GetUser. *)
Definition GetUser (uidtmp : string) : Ap answer :=
  match path_id "user id is missing" uidtmp with
  | inr a => ret a
  | inl uid =>
      do! r := find_one env DB TUser (mkPUser uid "" "" "" "" "" "" "" 0) (any TUser) in
      ret (match r with (_, Some e) => Answer expecstatus (Problem "" e) | (fuser, None) => ok (One TUser fuser) end)
  end.
(** Source: modules/api/app/controller/uic/user_controller.go, GetUserByName. *)
Definition GetUserByName (name : string) : Ap answer :=
  if String.eqb name "" then ret (Answer badstatus (Message "user name is missing"))
  else
    do! r := find_first env DB TUser no_user (fun u => sql_eq env (us_Name u) name) in
    ret (match r with (_, Some e) => Answer expecstatus (Problem "" e) | (fuser, None) => ok (One TUser fuser) end).

(** [id IN (...)] of a list of ids. *)
Definition in_ids (l : list Z) (i : Z) : bool := bool_decide (i ∈ l).

(** Source: modules/api/app/controller/uic/user_controller.go, IsUserInTeams. The last query reads into a slice, which is no error when it stays empty. *)
Definition IsUserInTeams (uidtmp teams_raw : string) : Ap answer :=
  match path_id "user id is missing" uidtmp with
  | inr a => ret a
  | inl uid =>
      if String.eqb teams_raw "" then ret (Answer badstatus (Message "system type error. please ask admin for help"))
      else
        let team_names := split teams_raw "," in
        do! r := find_first env DB TUser no_user (has_id TUser uid) in
        match r with
        | (_, Some e) => ret (Answer expecstatus (Problem "" e))
        | _ =>
            do! r := find_all env DB TTeam (fun t => existsb (sql_eq env (te_Name t)) team_names) in
            match r with
            | (_, Some e) => ret (Answer expecstatus (Problem "" e))
            | (teams, None) =>
                do! r := find_all env DB TRel (fun u => (re_Uid u =? uid)%Z && in_ids (map te_ID teams) (re_Tid u)) in
                ret (match r with (_, Some e) => Answer expecstatus (Problem "" e) | _ => ok (Message "true") end)
            end
        end
  end.

(** Source: modules/api/app/controller/uic/user_controller.go, GetUserTeams. Without teams the text [id in ()] is refused by the server. *)
Definition GetUserTeams (uidtmp : string) : Ap answer :=
  match path_id "user id is missing" uidtmp with
  | inr a => ret a
  | inl uid =>
      do! r := find_first env DB TUser no_user (has_id TUser uid) in
      match r with
      | (_, Some e) => ret (Answer expecstatus (Problem "" e))
      | _ =>
          do! r := find_all env DB TRel (fun u => (re_Uid u =? uid)%Z) in
          match r with
          | (_, Some e) => ret (Answer expecstatus (Problem "" e))
          | ([], None) =>
              do! _ := stmt env DB in
              ret (Answer expecstatus (Problem "" (Refused "syntax")))
          | (tus, None) =>
              do! r := find_all env DB TTeam (fun t => in_ids (map re_Tid tus) (te_ID t)) in
              ret (match r with (_, Some e) => Answer expecstatus (Problem "" e) | (teams, None) => ok (Rows TTeam teams) end)
          end
      end
  end.

(** Source: modules/api/app/controller/uic/user_controller.go, AdminChangeUserProfile. *)
Definition AdminChangeUserProfile (tok : token) (inputs : option (Z * APIUserUpdateInput)) : Ap answer :=
  match bound inputs (fun i => [uu_Cnname (snd i); uu_Email (snd i)]) with
  | None => ret (Answer expecstatus BadInput)
  | Some (uid, i) =>
      if (uid =? 0)%Z then ret (Answer expecstatus BadInput)
      else
        do! r := h_GetUser tok in
        match r with
        | (_, Some e) => ret (Answer expecstatus (user_problem e))
        | (cuser, None) =>
            if negb (IsAdmin cuser) then ret (Answer badstatus (Message "you don't have permission!"))
            else
              do! r := update env DB TUser no_user (has_id TUser uid) (set_profile i) in
              ret (match snd r with Some e => Answer expecstatus (Problem "" e) | None => ok (Message "user profile updated") end)
        end
  end.

(** Source: modules/api/app/controller/uic/user_controller.go, AdminUserDelete. *)
Definition AdminUserDelete (tok : token) (inputs : option Z) : Ap answer :=
  match inputs with
  | None | Some 0%Z => ret (Answer badstatus BadInput)
  | Some uid =>
      do! r := h_GetUser tok in
      match r with
      | (_, Some e) => ret (Answer expecstatus (user_problem e))
      | (cuser, None) =>
          if negb (IsAdmin cuser) then ret (Answer badstatus (Message "you don't have permission!"))
          else
            do! r := delete_rows env DB TUser no_user (fun u => has_id TUser uid u && (us_Role u <=? us_Role cuser)%Z) in
            ret (match r with
                 | (_, Some e) => Answer expecstatus (Problem "" e)
                 | (n, None) =>
                     if (n =? 0)%Z then Answer expecstatus (Message "you have no such permission or sth goes wrong")
                     else ok (Message ("user " ++s itoa uid ++s " has been delete, affect row: " ++s itoa n))
                 end)
      end
  end.

(** Source: modules/api/app/controller/uic/user_controller.go, AdminChangePassword. *)
Definition AdminChangePassword (tok : token) (inputs : option (Z * string)) : Ap answer :=
  match bound inputs (fun i => [snd i]) with
  | None => ret (Answer badstatus BadInput)
  | Some (uid, passwd) =>
      if (uid =? 0)%Z then ret (Answer badstatus BadInput)
      else
        do! r := h_GetUser tok in
        match r with
        | (_, Some e) => ret (Answer expecstatus (user_problem e))
        | (cuser, None) =>
            if negb (IsAdmin cuser) then ret (Answer badstatus (Message "you don't have permission!"))
            else
              do! r := find_one env DB TUser (mkPUser uid "" "" "" "" "" "" "" 0) (has_id TUser uid) in
              match r with
              | (_, Some e) => ret (Answer expecstatus (Problem "" e))
              | (user, None) =>
                  do! r := save env DB TUser (set_passwd (HashIt passwd) user) in
                  ret (match snd r with Some e => Answer expecstatus (Problem "" e) | None => ok (Message "password updated!") end)
              end
        end
  end.

(** Source: modules/api/app/controller/uic/user_controller.go, UserList. *)
Definition UserList (page limit q : string) : Ap answer :=
  match PageParser page limit with
  | (_, _, Some e) => ret (Answer badstatus (Message e))
  | (page, limit, None) =>
      do! r := (if negb (limit =? -1)%Z && negb (page =? -1)%Z then
                  raw_all env TUser ("select * from user where name regexp '" ++s q ++s "' limit " ++s itoa page ++s "," ++s itoa limit)
                else find_all env DB TUser (fun u => e_regexp env (us_Name u) q)) in
      ret (match r with (_, Some e) => Answer expecstatus (Problem "" e) | (user, None) => ok (Rows TUser user) end)
  end.

Definition set_role (r : Z) (u : PUser) : PUser :=
  mkPUser (us_ID u) (us_Name u) (us_Cnname u) (us_Passwd u) (us_Email u) (us_Phone u) (us_IM u) (us_QQ u) r.
(** Source: modules/api/app/controller/uic/user_controller.go, ChangeRoleOfUser. Whether the user was found is not looked at. The count of the answer is left out. *)
Definition ChangeRoleOfUser (tok : token) (inputs : option (Z * string)) : Ap answer :=
  match bound inputs (fun i => [snd i]) with
  | None => ret (Answer badstatus BadInput)
  | Some (uid, admin) =>
      if (uid =? 0)%Z then ret (Answer badstatus BadInput)
      else
        do! r := h_GetUser tok in
        match r with
        | (_, Some e) => ret (Answer badstatus (user_problem e))
        | (cuser, None) =>
            if negb (IsAdmin cuser) then ret (Answer badstatus (Message "you don't have permission!"))
            else
              do! r := find_one env DB TUser no_user (has_id TUser uid) in
              let user := fst r in
              let user := if String.eqb admin "yes" then set_role 1 user else if String.eqb admin "no" then set_role 0 user else user in
              do! r := save env DB TUser user in
              ret (match snd r with Some e => Answer expecstatus (Problem "" e) | None => ok (Message "user role update sccuessful") end)
        end
  end.

End auth.
