(* ===== verification/ApiTeams.v ===== *)
(** Teams ([modules/api/app/controller/uic/team_controller.go],
    [model/uic/team.go]): who is a member of which, and who may change it. *)
From S2P Require Import Prelude GoStr.
From S2P Require Export ApiAuth.
Local Open Scope string_scope.

Section teams.
Context (env : ApiEnv).

Definition no_team : Team := mkTeam 0 "" "" 0.

(** Source: modules/api/app/model/uic/team.go, Team.Members. The name, the id and the Chinese name of each; [inr] for an error. *)
Definition Team_Members (this : Team) : Ap (list PUser + db_err) :=
  do! r := find_all env DB TRel (fun m => (re_Tid m =? te_ID this)%Z) in
  match r with
  | (_, Some e) => ret (inr e)
  | ([], None) => ret (inl [])
  | (tmapping, None) =>
      do! r := find_all env DB TUser (fun u => in_ids (map re_Uid tmapping) (us_ID u)) in
      ret (match r with
           | (_, Some e) => inr e
           | (users, None) => inl (map (fun u => mkPUser (us_ID u) (us_Name u) (us_Cnname u) "" "" "" "" "" 0) users)
           end)
  end.
(** Source: modules/api/app/model/uic/team.go, Team.GetCreatorName. A creator without an id reads some user. *)
Definition Team_GetCreatorName (this : Team) : Ap string :=
  do! r := find_one env DB TUser (mkPUser (te_Creator this) "" "" "" "" "" "" "" 0) (any TUser) in
  ret (match r with (_, Some _) => "unknown" | (user, None) => us_Name user end).

(** Source: modules/api/app/controller/uic/team_controller.go, GetTeamDict. *)
Definition GetTeamDict : Ap answer :=
  do! r := find_all env DB TTeam (any TTeam) in
  ret (match r with (_, Some e) => Answer badstatus (Problem "" e) | (teams, None) => ok (Rows TTeam teams) end).

(** Source: modules/api/app/controller/uic/team_controller.go, lines 102-119. The members and the creator of each team. Symbol: Teams. *)
Fixpoint describe_teams (teams : list Team) (outputs : list (Team * list PUser * string)) : Ap answer :=
  match teams with
  | [] => ret (ok (TeamFull outputs))
  | t :: teams =>
      do! users := Team_Members t in
      match users with
      | inr e => ret (Answer badstatus (Problem "" e))
      | inl users =>
          do! creatorName := Team_GetCreatorName t in
          describe_teams teams (outputs ++ [(t, users, creatorName)])%list
      end
  end.
(** Source: modules/api/app/controller/uic/team_controller.go, Teams. Everybody sees all teams. *)
Definition Teams (tok : token) (page limit query : string) : Ap answer :=
  match PageParser page limit with
  | (_, _, Some e) => ret (Answer badstatus (Message e))
  | (page, limit, None) =>
      do! r := h_GetUser env tok in
      match r with
      | (_, Some e) => ret (Answer badstatus (user_problem e))
      | _ =>
          do! r := (if negb (limit =? -1)%Z && negb (page =? -1)%Z then
                      raw_all env TTeam ("select * from team where name regexp ? limit " ++s itoa page ++s ", " ++s itoa limit)
                    else find_all env DB TTeam (fun t => e_regexp env (te_Name t) query)) in
          match r with
          | (_, Some e) => ret (Answer badstatus (Problem "" e))
          | (teams, None) => describe_teams teams []
          end
      end
  end.

(** Source: modules/api/app/controller/uic/team_controller.go, type APICreateTeamInput. *)
Record APICreateTeamInput := mkCreateTeam { ct_Name : string; ct_Resume : string; ct_UserIDs : list Z }.

(** Source: modules/api/app/controller/uic/team_controller.go, lines 152-163. The members are added one by one until one fails. Symbol: CreateTeam. *)
Fixpoint add_members (tid : Z) (uids : list Z) : Ap (option db_err) :=
  match uids with
  | [] => ret None
  | uid :: uids =>
      do! r := create env DB TRel (mkRel 0 tid uid) in
      match snd r with
      | Some e => ret (Some e)
      | None => add_members tid uids
      end
  end.
(** Source: modules/api/app/controller/uic/team_controller.go, CreateTeam. *)
Definition CreateTeam (tok : token) (inputs : option APICreateTeamInput) : Ap answer :=
  match bound inputs (fun i => [ct_Name i]) with
  | None => ret (Answer badstatus BadInput)
  | Some cteam =>
      do! r := h_GetUser env tok in
      match r with
      | (_, Some e) => ret (Answer badstatus (user_problem e))
      | (user, None) =>
          do! r := create env DB TTeam (mkTeam 0 (ct_Name cteam) (ct_Resume cteam) (us_ID user)) in
          match r with
          | (_, Some e) => ret (Answer badstatus (Problem "" e))
          | (team, None) =>
              do! err := add_members (te_ID team) (ct_UserIDs cteam) in
              ret (match err with
                   | Some e => Answer badstatus (Problem "" e)
                   | None => ok (Message ("team created! Afftect row: 1, Affect refer: " ++s itoa (Z.of_nat (length (ct_UserIDs cteam)))))
                   end)
          end
      end
  end.

(** Source: modules/api/app/controller/uic/team_controller.go, type APIUpdateTeamInput. *)
Record APIUpdateTeamInput := mkUpdateTeam { ut_ID : Z; ut_Resume : string; ut_Name : string; ut_UserIDs : list Z }.

(** Source: modules/api/app/controller/uic/team_controller.go, lines 269-277. Members that are no longer wanted go one by one. Symbol: bindUsers. *)
Fixpoint drop_members (l : list RelTeamUser) : Ap (option db_err) :=
  match l with
  | [] => ret None
  | man :: l =>
      do! r := delete_rows env DB TRel man (any TRel) in
      match snd r with
      | Some e => ret (Some e)
      | None => drop_members l
      end
  end.
(** The condition [Where(&ur)]: a blank id is no condition. *)
Definition like_rel (tid uid : Z) (r : RelTeamUser) : bool :=
  ((tid =? 0) || (re_Tid r =? tid))%Z && ((uid =? 0) || (re_Uid r =? uid))%Z.
(** Source: modules/api/app/controller/uic/team_controller.go, lines 280-294. A user that is no member yet becomes one; the error of the search is not looked at. Symbol: bindUsers. *)
Fixpoint bind_members (tid : Z) (users : list Z) : Ap (option db_err) :=
  match users with
  | [] => ret None
  | i :: users =>
      let ur := mkRel 0 tid i in
      do! r := find_one env DB TRel ur (like_rel tid i) in
      if (re_ID (fst r) =? 0)%Z then
        do! r := create env DB TRel (fst r) in
        match snd r with
        | Some e => ret (Some e)
        | None => bind_members tid users
        end
      else bind_members tid users
  end.
(** How [bindUsers] ends: with the error of an empty list, that of a statement, or none. *)
Inductive bind_err := EmptyArray | BindFailed (e : db_err).
(** Source: modules/api/app/controller/uic/team_controller.go, bindUsers. *)
Definition bindUsers (tid : Z) (users : list Z) : Ap (option bind_err) :=
  match users with
  | [] => ret (Some EmptyArray)
  | _ =>
      do! r := find_all env DB TRel (fun m => (re_Tid m =? tid)%Z && negb (in_ids users (re_Uid m))) in
      match r with
      | (_, Some e) => ret (Some (BindFailed e))
      | (needDeleteMan, None) =>
          do! e := drop_members needDeleteMan in
          match e with
          | Some e => ret (Some (BindFailed e))
          | None => do! e := bind_members tid users in ret (BindFailed <$> e)
          end
      end
  end.

(** Source: modules/api/app/controller/uic/team_controller.go, lines 213-233. An administrator, a member, or the creator. An error of a query counts as no. Symbol: UpdateTeam. *)
Definition may_update (user : PUser) (tid : Z) : Ap bool :=
  if IsAdmin env user then ret true
  else
    do! e := stmt env DB in
    do! d := gets (sees DB) in
    let member := existsb (fun t => (te_ID t =? tid)%Z) (d TTeam) &&
                  existsb (fun m => (re_Tid m =? tid)%Z && (re_Uid m =? us_ID user)%Z) (d TRel) in
    if bool_decide (e = None) && member then ret true
    else
      do! e := stmt env DB in
      do! d := gets (sees DB) in
      ret (bool_decide (e = None) && existsb (fun t => (te_Creator t =? us_ID user)%Z && (te_ID t =? tid)%Z) (d TTeam)).

(** What [Update(&tm)] sets: the fields of [tm] that are not blank. *)
Definition set_team (name resume : string) (t : Team) : Team :=
  mkTeam (te_ID t) (if String.eqb name "" then te_Name t else name) (if String.eqb resume "" then te_Resume t else resume) (te_Creator t).

(** Source: modules/api/app/controller/uic/team_controller.go, UpdateTeam. Without a name and a resume no statement is sent for the team. *)
Definition UpdateTeam (tok : token) (inputs : option APIUpdateTeamInput) : Ap answer :=
  match inputs with
  | None => ret (Answer badstatus BadInput)
  | Some cteam =>
      if (ut_ID cteam =? 0)%Z then ret (Answer badstatus BadInput)
      else
        do! r := h_GetUser env tok in
        match r with
        | (_, Some e) => ret (Answer badstatus (user_problem e))
        | (user, None) =>
            do! allowed := may_update user (ut_ID cteam) in
            if negb allowed then
              ret (Answer 403 (Message "You are neither   admin,nor  team creator, nor  team member ...cannot mangage the team"))
            else
              do! r := (if String.eqb (ut_Name cteam) "" && String.eqb (ut_Resume cteam) "" then ret (0%Z, None)
                        else update env DB TTeam no_team (has_id TTeam (ut_ID cteam)) (set_team (ut_Name cteam) (ut_Resume cteam))) in
              match r with
              | (_, Some e) => ret (Answer badstatus (Problem "" e))
              | _ =>
                  do! err := bindUsers (ut_ID cteam) (ut_UserIDs cteam) in
                  ret (match err with
                       | Some EmptyArray => Answer badstatus (Message "array is empty, err: []")
                       | Some (BindFailed e) => Answer badstatus (Problem "" e)
                       | None => ok (Message "team updated!")
                       end)
              end
        end
  end.

(** Source: modules/api/app/controller/uic/team_controller.go, lines 323-340. The team itself goes: [None] when it may, an error text or that of a statement otherwise. A creator's deletion is not checked. Symbol: DeleteTeam. *)
Definition delete_team (user : PUser) (teamId : Z) : Ap (option db_err) :=
  if IsAdmin env user then
    do! r := delete_rows env DB TTeam (mkTeam teamId "" "" 0) (any TTeam) in ret (snd r)
  else
    let team := mkTeam teamId "" "" (us_ID user) in
    do! r := find_one env DB TTeam team (fun t => has_id TTeam teamId t && ((us_ID user =? 0) || (te_Creator t =? us_ID user))%Z) in
    match snd r with
    | Some e => ret (Some e)
    | None => do! _ := delete_rows env DB TTeam (mkTeam teamId "" "" 0) (has_id TTeam teamId) in ret None
    end.
(** Source: modules/api/app/controller/uic/team_controller.go, DeleteTeam. The members go without a look at the error; the counts of the answer are left out. *)
Definition DeleteTeam (tok : token) (teamIdStr : string) : Ap answer :=
  match atoi teamIdStr with
  | None => ret (Answer badstatus BadInput)
  | Some teamId =>
      if (teamId =? 0)%Z then ret (Answer badstatus (Message "team_id is empty"))
      else
        do! r := h_GetUser env tok in
        match r with
        | (_, Some e) => ret (Answer badstatus (user_problem e))
        | (user, None) =>
            do! err := delete_team user teamId in
            match err with
            | Some e => ret (Answer expecstatus (Problem "" e))
            | None =>
                do! _ := delete_rows env DB TRel (mkRel 0 0 0) (fun m => (re_Tid m =? teamId)%Z) in
                ret (ok (Message ("team " ++s itoa teamId ++s " is deleted.")))
            end
        end
  end.

(** Source: modules/api/app/controller/uic/team_controller.go, lines 374-397. A team with its members; errors of the two last queries leave what they give. Symbol: GetTeam. *)
Definition team_and_users (team : Team) (tid : Z) : Ap answer :=
  do! r := find_all env DB TRel (fun m => (tid =? 0)%Z || (re_Tid m =? tid)%Z) in
  match fst r with
  | [] => ret (ok (TeamFull [(team, [], "")]))
  | uidarr =>
      do! r := find_all env DB TUser (fun u => in_ids (map re_Uid uidarr) (us_ID u)) in
      ret (ok (TeamFull [(team, fst r, "")]))
  end.
(** Source: modules/api/app/controller/uic/team_controller.go, GetTeam. *)
Definition GetTeam (team_id_str : string) : Ap answer :=
  let team_id := parse_int_value team_id_str 64 in
  if (team_id =? 0)%Z then ret (Answer badstatus (Message "team_id is empty"))
  else
    match atoi team_id_str with
    | None => ret (Answer badstatus BadInput)
    | Some team_id =>
        do! r := find_one env DB TTeam (mkTeam team_id "" "" 0) (any TTeam) in
        match r with
        | (_, Some e) => ret (Answer badstatus (Problem "" e))
        | (team, None) => team_and_users team team_id
        end
    end.
(** Source: modules/api/app/controller/uic/team_controller.go, GetTeamByName. *)
Definition GetTeamByName (name : string) : Ap answer :=
  if String.eqb name "" then ret (Answer badstatus (Message "team name is missing"))
  else
    do! r := find_one env DB TTeam no_team (fun t => sql_eq env (te_Name t) name) in
    match r with
    | (_, Some e) => ret (Answer badstatus (Problem "" e))
    | (team, None) => team_and_users team (te_ID team)
    end.

End teams.
