(* ===== verification/ApiGroups.v ===== *)
(** Groups of hosts, their hosts, templates, plugins and aggregators, and the
    maintenance of hosts ([modules/api/app/controller/host],
    [model/falcon_portal/host.go], [grp_host.go], [cluster.go]). *)
From S2P Require Import Prelude GoStr.
From S2P Require Export ApiAuth.
Local Open Scope string_scope.

(** [%v] of a slice. *)
Definition show_list (l : list string) : string := "[" ++s join " " l ++s "]".

Section groups.
Context (env : ApiEnv).

Definition no_group : HostGroup := mkHostGroup 0 "" "" 0.
Definition group_id (i : Z) : HostGroup := mkHostGroup i "" "" 0.
Definition host_named (name : string) : PHost := mkPHost 0 name "" "" "" 0 0.
Definition no_host : PHost := host_named "".

(** Source: modules/api/app/model/falcon_portal/host.go, Host.Existing. The search is made outside of any transaction. *)
Definition Host_Existing (this : PHost) : Ap (option Z) :=
  do! r := find_one env DB THost this (fun r => sql_eq env (ho_Hostname r) (ho_Hostname this)) in
  ret (if negb (ho_ID (fst r) =? 0)%Z then Some (ho_ID (fst r)) else None).
(** Source: modules/api/app/model/falcon_portal/grp_host.go, GrpHost.Existing. *)
Definition GrpHost_Existing (this : GrpHost) : Ap bool :=
  do! r := find_one env DB TGrpHost (mkGrpHost 0 0) (fun r => (gh_GrpID r =? gh_GrpID this)%Z && (gh_HostID r =? gh_HostID this)%Z) in
  ret (negb (gh_GrpID (fst r) =? 0)%Z).

(** The rows of a text [id in (...)] made of ids: the server refuses an empty one. *)
Definition find_in (t : tbl) (ids : list Z) (p : row t -> bool) : Ap (list (row t)) :=
  match ids with
  | [] => do! _ := stmt env DB in ret []
  | _ => do! r := find_all env DB t p in ret (fst r)
  end.
(** Source: modules/api/app/model/falcon_portal/host.go, Host.RelatedGrp. *)
Definition RelatedGrp (this : PHost) : Ap (list HostGroup) :=
  do! r := find_all env DB TGrpHost (fun g => (gh_HostID g =? ho_ID this)%Z) in
  let tids := map gh_GrpID (fst r) in
  find_in TGrp tids (fun g => in_ids tids (hg_ID g)).
(** Source: modules/api/app/model/falcon_portal/host.go, Host.RelatedTpl. *)
Definition RelatedTpl (this : PHost) : Ap (list PTemplate) :=
  do! grps := RelatedGrp this in
  let gids := map hg_ID grps in
  do! grpTpls := find_in TGrpTpl gids (fun g => in_ids gids (gt_GrpID g)) in
  let tids := map gt_TplID grpTpls in
  find_in TTpl tids (fun t => in_ids tids (tp_ID t)).

(** The owner of a group, or an administrator. *)
Definition owns (user : PUser) (g : HostGroup) : bool := IsAdmin env user || String.eqb (hg_CreateUser g) (us_Name user).

(** * Groups ([hostgroup_controller.go]) *)

(** Source: modules/api/app/controller/host/hostgroup_controller.go, GetHostGroups. *)
Definition GetHostGroups (page limit q : string) : Ap answer :=
  match PageParser page limit with
  | (_, _, Some e) => ret (Answer badstatus (Message e))
  | (page, limit, None) =>
      do! r := (if negb (limit =? -1)%Z && negb (page =? -1)%Z then
                  raw_all env TGrp ("SELECT * from grp  where grp_name regexp '" ++s q ++s "' limit " ++s itoa page ++s "," ++s itoa limit)
                else find_all env DB TGrp (fun g => e_regexp env (hg_Name g) q)) in
      ret (match r with (_, Some e) => Answer expecstatus (Problem "" e) | (hostgroups, None) => ok (Rows TGrp hostgroups) end)
  end.

(** Source: modules/api/app/controller/host/hostgroup_controller.go, CrateHostGroup. *)
Definition CrateHostGroup (tok : token) (inputs : option string) : Ap answer :=
  match bound inputs (fun n => [n]) with
  | None => ret (Answer badstatus BadInput)
  | Some name =>
      do! r := h_GetUser env tok in
      do! r := create env DB TGrp (mkHostGroup 0 name (us_Name (fst r)) 1) in
      ret (match r with (_, Some e) => Answer expecstatus (Problem "" e) | (hostgroup, None) => ok (One TGrp hostgroup) end)
  end.

(** Source: modules/api/app/controller/host/hostgroup_controller.go, type APIBindHostToHostGroupInput. *)
Record APIBindHostToHostGroupInput := mkBindHost { bh_Hosts : option (list string); bh_HostGroupID : Z }.

(** Source: modules/api/app/controller/host/hostgroup_controller.go, lines 112-125. The id of a host: a host that does not exist is made, in the transaction. Symbol: BindHostToHostGroup. *)
Definition host_id (host : string) : Ap (Z + db_err) :=
  let ahost := host_named host in
  do! id := Host_Existing ahost in
  match id with
  | Some id => ret (inl id)
  | None => do! r := save env TX THost ahost in ret (match r with (_, Some e) => inr e | (ahost, None) => inl (ho_ID ahost) end)
  end.
(** Source: modules/api/app/controller/host/hostgroup_controller.go, lines 110-131. Each host is bound; the first error rolls everything back. Symbol: BindHostToHostGroup. *)
Fixpoint bind_each (grp : Z) (hosts : list string) (ids : list Z) : Ap (list Z + answer) :=
  match hosts with
  | [] => ret (inl ids)
  | host :: hosts =>
      do! id := host_id host in
      match id with
      | inr e => do! _ := Rollback in ret (inr (Answer expecstatus (Problem "" e)))
      | inl id =>
          do! r := create env TX TGrpHost (mkGrpHost grp id) in
          match r with
          | (_, Some e) => do! _ := Rollback in ret (inr (Answer expecstatus (Problem "create grphost got error: " e)))
          | (_, None) => bind_each grp hosts (ids ++ [id])%list
          end
      end
  end.
(** Source: modules/api/app/controller/host/hostgroup_controller.go, BindHostToHostGroup. *)
Definition BindHostToHostGroup (tok : token) (inputs : option APIBindHostToHostGroupInput) : Ap answer :=
  match inputs with
  | Some (mkBindHost (Some hosts) grp) =>
      if (grp =? 0)%Z then ret (Answer badstatus BadInput)
      else
        do! r := h_GetUser env tok in
        let user := fst r in
        do! r := find_one env DB TGrp (group_id grp) (any TGrp) in
        match r with
        | (_, Some e) => ret (Answer expecstatus (Problem "" e))
        | (hostgroup, None) =>
            if negb (owns user hostgroup) then ret (Answer expecstatus (Message "You don't have permission."))
            else
              do! _ := Begin env in
              do! r := delete_rows env TX TGrpHost (mkGrpHost 0 0) (fun g => (gh_GrpID g =? hg_ID hostgroup)%Z) in
              match r with
              | (_, Some e) => do! _ := Rollback in ret (Answer expecstatus (Problem "delete grp_host got error: " e))
              | (_, None) =>
                  do! r := bind_each (hg_ID hostgroup) hosts [] in
                  match r with
                  | inr a => ret a
                  | inl ids =>
                      do! _ := Commit env in
                      ret (ok (Message (show_list (map itoa ids) ++s " bind to hostgroup: " ++s itoa (hg_ID hostgroup))))
                  end
              end
        end
  | _ => ret (Answer badstatus BadInput)
  end.

(** Source: modules/api/app/controller/host/hostgroup_controller.go, lines 150-159. A user that is no administrator has to own the group. The answer that ends the request, if any. Symbol: UnBindAHostToHostGroup. *)
Definition must_own (user : PUser) (grp : Z) (missing : Z) (before : string) : Ap (option answer) :=
  if IsAdmin env user then ret None
  else
    do! r := find_one env DB TGrp (group_id grp) (any TGrp) in
    ret (match r with
         | (_, Some e) => Some (Answer missing (Problem before e))
         | (hostgroup, None) =>
             if String.eqb (hg_CreateUser hostgroup) (us_Name user) then None else Some (Answer badstatus (Message "You don't have permission!"))
         end).
(** Source: modules/api/app/controller/host/hostgroup_controller.go, UnBindAHostToHostGroup. *)
Definition UnBindAHostToHostGroup (tok : token) (inputs : option (Z * Z)) : Ap answer :=
  match inputs with
  | None => ret (Answer badstatus BadInput)
  | Some (host, grp) =>
      if ((host =? 0) || (grp =? 0))%Z then ret (Answer badstatus BadInput)
      else
        do! r := h_GetUser env tok in
        do! refused := must_own (fst r) grp badstatus "" in
        match refused with
        | Some a => ret a
        | None =>
            do! r := delete_rows env DB TGrpHost (mkGrpHost 0 0) (fun g => (gh_GrpID g =? grp)%Z && (gh_HostID g =? host)%Z) in
            ret (match r with
                 | (_, Some e) => Answer expecstatus (Problem "" e)
                 | _ => ok (Message ("unbind host:" ++s itoa host ++s " of hostgroup: " ++s itoa grp))
                 end)
        end
  end.

(** A step of a transaction that removes rows: when it fails, the transaction is rolled back and the request answered. *)
Definition tx_delete (t : tbl) (v : row t) (p : row t -> bool) (code : Z) (before : string) (k : Ap answer) : Ap answer :=
  do! r := delete_rows env TX t v p in
  match r with
  | (_, Some e) => do! _ := Rollback in ret (Answer code (Problem before e))
  | (_, None) => k
  end.
(** Source: modules/api/app/controller/host/hostgroup_controller.go, DeleteHostGroup. *)
Definition DeleteHostGroup (tok : token) (grpIDtmp : string) : Ap answer :=
  match path_id "grp id is missing" grpIDtmp with
  | inr a => ret a
  | inl grpID =>
      if (grpID =? 0)%Z then ret (Answer badstatus (Message "delete id==0 is not valid"))
      else
        do! r := h_GetUser env tok in
        do! refused := must_own (fst r) grpID badstatus "" in
        match refused with
        | Some a => ret a
        | None =>
            do! _ := Begin env in
            tx_delete TGrpHost (mkGrpHost 0 0) (fun g => (gh_GrpID g =? grpID)%Z) expecstatus "delete grp_host got error: "
              (tx_delete TPlugin (mkPPlugin 0 0 "" "") (fun p => (pd_GrpId p =? grpID)%Z) expecstatus "delete plugins got error: "
                 (tx_delete TCluster (mkPCluster 0 0 "" "" "" "" "" "" 0 "") (fun c => (pc_GrpId c =? grpID)%Z) expecstatus "delete aggreators got error: "
                    (tx_delete TGrp (group_id grpID) (any TGrp) expecstatus ""
                       (do! _ := Commit env in ret (ok (Message ("hostgroup:" ++s itoa grpID ++s " has been deleted")))))))
        end
  end.

(** Source: modules/api/app/controller/host/hostgroup_controller.go, lines 248-257. The hosts of a group whose name matches. Symbol: GetHostGroup. *)
Fixpoint hosts_of (matches : string -> bool) (grpHosts : list GrpHost) (hosts : list PHost) : Ap (list PHost) :=
  match grpHosts with
  | [] => ret hosts
  | grph :: grpHosts =>
      do! r := find_one env DB THost no_host (has_id THost (gh_HostID grph)) in
      let host := fst r in
      hosts_of matches grpHosts (if negb (ho_ID host =? 0)%Z && matches (ho_Hostname host) then hosts ++ [host] else hosts)%list
  end.
(** Source: modules/api/app/controller/host/hostgroup_controller.go, GetHostGroup. [matches] is [regexp.MatchString] of the query. *)
Definition GetHostGroup (grpIDtmp : string) (matches : string -> bool) : Ap answer :=
  match path_id "grp id is missing" grpIDtmp with
  | inr a => ret a
  | inl grpID =>
      do! r := find_one env DB TGrp (group_id grpID) (any TGrp) in
      match r with
      | (_, Some e) => ret (Answer expecstatus (Problem "" e))
      | (hostgroup, None) =>
          do! r := find_all env DB TGrpHost (fun g => (gh_GrpID g =? grpID)%Z) in
          match r with
          | (_, Some e) => ret (Answer expecstatus (Problem "" e))
          | (grpHosts, None) => do! hosts := hosts_of matches grpHosts [] in ret (ok (GroupHosts hostgroup hosts))
          end
      end
  end.

(** The names of the hosts a text asks for; an error leaves none. *)
Definition host_names (text : string) : Ap answer :=
  do! r := raw_all env THost text in ret (ok (Names (map ho_Hostname (fst r)))).
(** Source: modules/api/app/controller/host/hostgroup_controller.go, GetHostGroupSimple. *)
Definition GetHostGroupSimple (grpIDtmp : string) : Ap answer :=
  match path_id "grp id is missing" grpIDtmp with
  | inr a => ret a
  | inl grpID =>
      host_names ("select host.hostname from host  ,  grp_host ,grp   where grp_host.grp_id=grp.id and   grp_host.host_id=host.id  and   grp_host.grp_id='"
                  ++s itoa grpID ++s "';")
  end.
(** Source: modules/api/app/controller/host/hostgroup_controller.go, GetHostGroupHosts. The name goes into the text as it is. *)
Definition GetHostGroupHosts (grp_name : string) : Ap answer :=
  if String.eqb grp_name "" then ret (Answer badstatus (Message "grp name is missing"))
  else host_names ("select hostname from host,grp_host,grp where host.id=grp_host.host_id and grp_host.grp_id=grp.id and grp.grp_name='" ++s grp_name ++s "';").

(** Source: modules/api/app/controller/host/hostgroup_controller.go, PutHostGroup. Nobody is asked who the caller is. *)
Definition PutHostGroup (inputs : option (Z * string)) : Ap answer :=
  match bound inputs (fun i => [snd i]) with
  | None => ret (Answer badstatus BadInput)
  | Some (grpID, name) =>
      if (grpID =? 0)%Z then ret (Answer badstatus BadInput)
      else if HasDangerousCharacters name then ret (Answer badstatus (Message "grp_name is invalid"))
      else
        do! r := find_one env DB TGrp (group_id grpID) (any TGrp) in
        match r with
        | (_, Some e) => ret (Answer expecstatus (Problem "" e))
        | (hostgroup, None) =>
            do! r := update env DB TGrp hostgroup (has_id TGrp grpID)
                       (fun g => mkHostGroup (hg_ID g) name (hg_CreateUser hostgroup) (hg_ComeFrom hostgroup)) in
            ret (match r with (_, Some e) => Answer badstatus (Problem "" e) | _ => ok (Message "hostgroup profile updated") end)
        end
  end.

(** Source: modules/api/app/controller/host/hostgroup_controller.go, BindTemplateToGroup. The inputs are the template and the group; a search that fails counts as a binding that is not there. *)
Definition BindTemplateToGroup (tok : token) (inputs : option (Z * Z)) : Ap answer :=
  match inputs with
  | None => ret (Answer badstatus BadInput)
  | Some (tpl, grp) =>
      do! r := h_GetUser env tok in
      let user := fst r in
      do! r := find_one env DB TGrpTpl (mkGrpTpl grp tpl "") (fun g => (gt_GrpID g =? grp)%Z && (gt_TplID g =? tpl)%Z) in
      let grpTpl := fst r in
      if negb (String.eqb (gt_BindUser grpTpl) "") then ret (Answer badstatus (Message "this binding already existing, reject!"))
      else
        do! r := save env DB TGrpTpl (mkGrpTpl (gt_GrpID grpTpl) (gt_TplID grpTpl) (us_Name user)) in
        ret (match r with (_, Some e) => Answer badstatus (Problem "" e) | (grpTpl, None) => ok (One TGrpTpl grpTpl) end)
  end.
(** Source: modules/api/app/controller/host/hostgroup_controller.go, UnBindTemplateToGroup. *)
Definition UnBindTemplateToGroup (tok : token) (inputs : option (Z * Z)) : Ap answer :=
  match inputs with
  | None => ret (Answer badstatus BadInput)
  | Some (tpl, grp) =>
      let bound_here := fun g => (gt_GrpID g =? grp)%Z && (gt_TplID g =? tpl)%Z in
      do! r := h_GetUser env tok in
      let user := fst r in
      do! r := find_one env DB TGrpTpl (mkGrpTpl grp tpl "") bound_here in
      let grpTpl := fst r in
      if negb (IsAdmin env user) && negb (String.eqb (gt_BindUser grpTpl) (us_Name user)) then
        ret (Answer badstatus (Message "You don't have permission can do this."))
      else
        do! r := delete_rows env DB TGrpTpl grpTpl bound_here in
        ret (match r with
             | (_, Some e) => Answer badstatus (Problem "" e)
             | _ => ok (Message ("template: " ++s itoa tpl ++s " is unbind of HostGroup: " ++s itoa grp))
             end)
  end.
(** Source: modules/api/app/controller/host/hostgroup_controller.go, GetTemplateOfHostGroup. *)
Definition GetTemplateOfHostGroup (grpIDtmp : string) : Ap answer :=
  match path_id "grp id is missing" grpIDtmp with
  | inr a => ret a
  | inl grpID =>
      do! r := find_one env DB TGrp (group_id grpID) (any TGrp) in
      match r with
      | (_, Some e) => ret (Answer expecstatus (Problem "" e))
      | (hostgroup, None) =>
          do! r := find_all env DB TGrpTpl (fun g => (gt_GrpID g =? grpID)%Z) in
          let tips := map gt_TplID (fst r) in
          do! tpls := (match tips with [] => ret [] | _ => find_in TTpl tips (fun t => in_ids tips (tp_ID t)) end) in
          ret (ok (GroupTemplates hostgroup tpls))
      end
  end.

(** Source: modules/api/app/controller/host/hostgroup_controller.go, lines 587-613. [bindHostToHostGroup] from host to host, with the hosts bound and those that were. Symbol: bindHostToHostGroup. *)
Fixpoint add_each (grp : Z) (hosts bindHosts existHosts : list string) : Ap (list string * list string + answer) :=
  match hosts with
  | [] => ret (inl (bindHosts, existHosts))
  | host :: hosts =>
      do! id := host_id host in
      match id with
      | inr e => do! _ := Rollback in ret (inr (Answer expecstatus (Problem "" e)))
      | inl id =>
          do! there := GrpHost_Existing (mkGrpHost grp id) in
          if there : bool then add_each grp hosts bindHosts (existHosts ++ [host])%list
          else
            do! r := create env TX TGrpHost (mkGrpHost grp id) in
            match r with
            | (_, Some e) => do! _ := Rollback in ret (inr (Answer expecstatus (Problem "create grphost got error: " e)))
            | (_, None) => add_each grp hosts (bindHosts ++ [host])%list existHosts
            end
      end
  end.
(** Source: modules/api/app/controller/host/hostgroup_controller.go, bindHostToHostGroup. *)
Definition bindHostToHostGroup (hostgroup : HostGroup) (hosts : list string) : Ap answer :=
  do! _ := Begin env in
  do! r := add_each (hg_ID hostgroup) hosts [] [] in
  match r with
  | inr a => ret a
  | inl (bindHosts, existHosts) =>
      do! _ := Commit env in
      ret (ok (Message (show_list bindHosts ++s " bind to hostgroup: " ++s hg_Name hostgroup ++s ", " ++s show_list existHosts ++s " have been exist")))
  end.
(** Source: modules/api/app/controller/host/hostgroup_controller.go, lines 621-637. [unbindHostToHostGroup] from host to host: the rows are removed outside of the transaction. Symbol: unbindHostToHostGroup. *)
Fixpoint remove_each (grp : Z) (hosts unbindHosts : list string) : Ap (list string + answer) :=
  match hosts with
  | [] => ret (inl unbindHosts)
  | host :: hosts =>
      do! id := Host_Existing (host_named host) in
      match id with
      | None => remove_each grp hosts unbindHosts
      | Some id =>
          do! r := delete_rows env DB TGrpHost (mkGrpHost 0 0) (fun g => (gh_GrpID g =? grp)%Z && (gh_HostID g =? id)%Z) in
          match r with
          | (_, Some e) => do! _ := Rollback in ret (inr (Answer expecstatus (Problem "" e)))
          | (_, None) => remove_each grp hosts (unbindHosts ++ [host])%list
          end
      end
  end.
(** Source: modules/api/app/controller/host/hostgroup_controller.go, unbindHostToHostGroup. *)
Definition unbindHostToHostGroup (hostgroup : HostGroup) (hosts : list string) : Ap answer :=
  do! _ := Begin env in
  do! r := remove_each (hg_ID hostgroup) hosts [] in
  match r with
  | inr a => ret a
  | inl unbindHosts => do! _ := Commit env in ret (ok (Message (show_list unbindHosts ++s " unbind to hostgroup: " ++s hg_Name hostgroup)))
  end.

(** Source: modules/api/app/controller/host/hostgroup_controller.go, type APIPatchHostGroupHost. *)
Record APIPatchHostGroupHost := mkPatch { ph_Action : string; ph_Hosts : option (list string) }.
(** Source: modules/api/app/controller/host/hostgroup_controller.go, PatchHostGroupHost. *)
Definition PatchHostGroupHost (tok : token) (grpIDParams : string) (inputs : option APIPatchHostGroupHost) : Ap answer :=
  match bound inputs (fun i => [ph_Action i]) with
  | Some (mkPatch action (Some hosts)) =>
      match path_id "grp id is missing" grpIDParams with
      | inr a => ret a
      | inl grpID =>
          if negb (String.eqb action "add") && negb (String.eqb action "remove") then ret (Answer badstatus (Message "action must be add or remove"))
          else
            do! r := h_GetUser env tok in
            let user := fst r in
            do! r := find_one env DB TGrp (group_id grpID) (any TGrp) in
            match r with
            | (_, Some e) => ret (Answer expecstatus (Problem "" e))
            | (hostgroup, None) =>
                if negb (owns user hostgroup) then ret (Answer expecstatus (Message "You don't have permission."))
                else if String.eqb action "add" then bindHostToHostGroup hostgroup hosts
                else unbindHostToHostGroup hostgroup hosts
            end
      end
  | _ => ret (Answer badstatus BadInput)
  end.

(** * Hosts ([host_controller.go], [maintain_controller.go]) *)

(** Source: modules/api/app/controller/host/host_controller.go, GetHostBindToWhichHostGroup. *)
Definition GetHostBindToWhichHostGroup (HostIdTmp : string) : Ap answer :=
  match path_id "host id is missing" HostIdTmp with
  | inr a => ret a
  | inl hostID =>
      do! r := find_all env DB TGrpHost (fun g => (gh_HostID g =? hostID)%Z) in
      let grpIds := map gh_GrpID (fst r) in
      do! hostgroups := (match grpIds with [] => ret [] | _ => find_in TGrp grpIds (fun g => in_ids grpIds (hg_ID g)) end) in
      ret (ok (Rows TGrp hostgroups))
  end.
(** Source: modules/api/app/controller/host/host_controller.go, GetHostGroupWithTemplate. *)
Definition GetHostGroupWithTemplate (grpIDtmp : string) : Ap answer := GetHostGroup grpIDtmp (fun _ => true).
(** Source: modules/api/app/controller/host/host_controller.go, GetGrpsRelatedHost. *)
Definition GetGrpsRelatedHost (hostIDtmp : string) : Ap answer :=
  match path_id "host id is missing" hostIDtmp with
  | inr a => ret a
  | inl hostID =>
      do! r := find_one env DB THost (mkPHost hostID "" "" "" "" 0 0) (any THost) in
      match r with
      | (_, Some e) => ret (Answer expecstatus (Problem "" e))
      | (host, None) => do! grps := RelatedGrp host in ret (ok (Rows TGrp grps))
      end
  end.
(** Source: modules/api/app/controller/host/host_controller.go, GetTplsRelatedHost. *)
Definition GetTplsRelatedHost (hostIDtmp : string) : Ap answer :=
  match path_id "host id is missing" hostIDtmp with
  | inr a => ret a
  | inl hostID =>
      do! r := find_one env DB THost (mkPHost hostID "" "" "" "" 0 0) (any THost) in
      match r with
      | (_, Some e) => ret (Answer expecstatus (Problem "" e))
      | (host, None) => do! tpls := RelatedTpl host in ret (ok (Rows TTpl tpls))
      end
  end.

(** Source: modules/api/app/controller/host/maintain_controller.go, type APISetMaintainInput. *)
Record APISetMaintainInput := mkMaintain { sm_Hosts : list string; sm_Ids : list Z; sm_Begin : Z; sm_End : Z }.
Definition set_maintain (b e : Z) (h : PHost) : PHost :=
  mkPHost (ho_ID h) (ho_Hostname h) (ho_Ip h) (ho_AgentVersion h) (ho_PluginVersion h) b e.
(** Source: modules/api/app/controller/host/maintain_controller.go, lines 42-61. The hosts by their names, or else by their ids. Symbol: SetMaintain. *)
Definition maintain (hosts : list string) (ids : list Z) (b e : Z) : Ap answer :=
  let go (method : string) (p : PHost -> bool) :=
    do! r := update env DB THost no_host p (set_maintain b e) in
    ret (match r with
         | (_, Some e) => Answer badstatus (Problem "" e)
         | (n, None) => ok (Message ("Through: " ++s method ++s ", Affect row: " ++s itoa n))
         end) in
  match hosts, ids with
  | _ :: _, _ => go "hosts" (fun h => existsb (sql_eq env (ho_Hostname h)) hosts)
  | [], _ :: _ => go "ids" (fun h => in_ids ids (ho_ID h))
  | [], [] => ret (Answer badstatus (Message "hosts or ids is required"))
  end.
(** Source: modules/api/app/controller/host/maintain_controller.go, SetMaintain. *)
Definition SetMaintain (inputs : option APISetMaintainInput) : Ap answer :=
  match inputs with
  | Some i => if ((sm_Begin i =? 0) || (sm_End i =? 0))%Z then ret (Answer badstatus BadInput) else maintain (sm_Hosts i) (sm_Ids i) (sm_Begin i) (sm_End i)
  | None => ret (Answer badstatus BadInput)
  end.
(** Source: modules/api/app/controller/host/maintain_controller.go, UnsetMaintain. *)
Definition UnsetMaintain (inputs : option (list string * list Z)) : Ap answer :=
  match inputs with
  | Some (hosts, ids) => maintain hosts ids 0 0
  | None => ret (Answer badstatus BadInput)
  end.

(** * Plugins ([plugins_controller.go]) *)

(** Source: modules/api/app/controller/host/plugins_controller.go, CreatePlugin. The inputs are the group and the directory. *)
Definition CreatePlugin (tok : token) (inputs : option (Z * string)) : Ap answer :=
  match bound inputs (fun i => [snd i]) with
  | None => ret (Answer badstatus BadInput)
  | Some (grp, dir) =>
      if (grp =? 0)%Z then ret (Answer badstatus BadInput)
      else
        do! r := h_GetUser env tok in
        let user := fst r in
        do! refused := must_own user grp expecstatus "" in
        match refused with
        | Some a => ret a
        | None =>
            do! r := save env DB TPlugin (mkPPlugin 0 grp dir (us_Name user)) in
            ret (match r with (_, Some e) => Answer expecstatus (Problem "" e) | (plugin, None) => ok (One TPlugin plugin) end)
        end
  end.
(** Source: modules/api/app/controller/host/plugins_controller.go, GetPluginOfGrp. *)
Definition GetPluginOfGrp (grpIDtmp : string) : Ap answer :=
  match path_id "grp id is missing" grpIDtmp with
  | inr a => ret a
  | inl grpID =>
      do! r := find_all env DB TPlugin (fun p => (pd_GrpId p =? grpID)%Z) in
      ret (match r with (_, Some e) => Answer expecstatus (Problem "" e) | (plugins, None) => ok (Rows TPlugin plugins) end)
  end.
(** Source: modules/api/app/controller/host/plugins_controller.go, lines 102-112. The owner of the group or whoever made the thing in it. The answer that ends the request, if any. Symbol: DeletePlugin. *)
Definition must_own_or_made (user : PUser) (grp : Z) (maker before : string) : Ap (option answer) :=
  if IsAdmin env user then ret None
  else
    do! r := find_one env DB TGrp (group_id grp) (any TGrp) in
    ret (match r with
         | (_, Some e) => Some (Answer expecstatus (Problem before e))
         | (hostgroup, None) =>
             if negb (String.eqb (hg_CreateUser hostgroup) (us_Name user)) && negb (String.eqb maker (us_Name user))
             then Some (Answer badstatus (Message "You don't have permission!")) else None
         end).
(** Source: modules/api/app/controller/host/plugins_controller.go, DeletePlugin. *)
Definition DeletePlugin (tok : token) (pluginIDtmp : string) : Ap answer :=
  match path_id "plugin id is missing" pluginIDtmp with
  | inr a => ret a
  | inl pluginID =>
      if (pluginID =? 0)%Z then ret (Answer badstatus (Message "delete id==0 is not valid"))
      else
        do! r := find_one env DB TPlugin (mkPPlugin pluginID 0 "" "") (any TPlugin) in
        match r with
        | (_, Some e) => ret (Answer expecstatus (Problem "" e))
        | (plugin, None) =>
            do! r := h_GetUser env tok in
            do! refused := must_own_or_made (fst r) (pd_GrpId plugin) (pd_CreateUser plugin) "" in
            match refused with
            | Some a => ret a
            | None =>
                do! r := delete_rows env DB TPlugin plugin (any TPlugin) in
                ret (match r with
                     | (_, Some e) => Answer expecstatus (Problem "" e)
                     | _ => ok (Message ("plugin:" ++s itoa pluginID ++s " has been deleted"))
                     end)
            end
        end
  end.

(** * Aggregators ([aggreator_controller.go]) *)

Definition aggregator_id (i : Z) : PCluster := mkPCluster i 0 "" "" "" "" "" "" 0 "".
(** Source: modules/api/app/model/falcon_portal/cluster.go, Cluster.HostGroupName. *)
Definition HostGroupName (this : PCluster) : Ap (string + db_err) :=
  if (pc_GrpId this =? 0)%Z then ret (inl "")
  else
    do! r := find_one env DB TGrp (group_id (pc_GrpId this)) (any TGrp) in
    ret (match r with (_, Some e) => inr e | (hg, None) => inl (hg_Name hg) end).
(** Source: modules/api/app/controller/host/aggreator_controller.go, GetAggregatorListOfGrp. *)
Definition GetAggregatorListOfGrp (page limit grpIDtmp : string) : Ap answer :=
  match PageParser page limit with
  | (_, _, Some e) => ret (Answer badstatus (Message e))
  | (page, limit, None) =>
      match path_id "grp id is missing" grpIDtmp with
      | inr a => ret a
      | inl grpID =>
          do! r := (if negb (limit =? -1)%Z && negb (page =? -1)%Z then
                      raw_all env TCluster ("SELECT * from cluster WHERE grp_id = " ++s itoa grpID ++s " limit " ++s itoa page ++s "," ++s itoa limit)
                    else find_all env DB TCluster (fun c => (pc_GrpId c =? grpID)%Z)) in
          match r with
          | (_, Some e) => ret (Answer expecstatus (Problem "" e))
          | ([], None) => ret (ok (GroupAggregators "" []))
          | (c :: l, None) =>
              do! name := HostGroupName c in
              ret (match name with inr e => Answer badstatus (Problem "" e) | inl name => ok (GroupAggregators name (c :: l)) end)
          end
      end
  end.
(** Source: modules/api/app/controller/host/aggreator_controller.go, GetAggregator. *)
Definition GetAggregator (aggIDtmp : string) : Ap answer :=
  match path_id "agg id is missing" aggIDtmp with
  | inr a => ret a
  | inl aggID =>
      do! r := find_one env DB TCluster (aggregator_id aggID) (any TCluster) in
      ret (match r with (_, Some e) => Answer expecstatus (Problem "" e) | (c, None) => ok (One TCluster c) end)
  end.

(** Source: modules/api/app/controller/host/aggreator_controller.go, type APICreateAggregatorInput. The id is that of the group, or of the aggregator for an update. *)
Record APICreateAggregatorInput := mkAggregatorInput {
  ai_Id : Z; ai_Numerator : string; ai_Denominator : string; ai_Endpoint : string; ai_Metric : string; ai_Tags : string; ai_Step : Z }.
Definition bound_aggregator (inputs : option APICreateAggregatorInput) : option APICreateAggregatorInput :=
  i ← bound inputs (fun i => [ai_Numerator i; ai_Denominator i; ai_Endpoint i; ai_Metric i]);
  if ((ai_Id i =? 0) || (ai_Step i =? 0))%Z then None else Some i.
(** Source: modules/api/app/controller/host/aggreator_controller.go, CreateAggregator. *)
Definition CreateAggregator (tok : token) (inputs : option APICreateAggregatorInput) : Ap answer :=
  match bound_aggregator inputs with
  | None => ret (Answer badstatus BadInput)
  | Some i =>
      do! r := h_GetUser env tok in
      let user := fst r in
      do! refused := must_own user (ai_Id i) expecstatus "find hostgroup error: " in
      match refused with
      | Some a => ret a
      | None =>
          do! r := create env DB TCluster (mkPCluster 0 (ai_Id i) (ai_Numerator i) (ai_Denominator i) (ai_Endpoint i) (ai_Metric i) (ai_Tags i)
                                             "GAUGE" (ai_Step i) (us_Name user)) in
          ret (match r with (_, Some e) => Answer expecstatus (Problem "create aggregator got error: " e) | (agg, None) => ok (One TCluster agg) end)
      end
  end.
Definition set_aggregator (i : APICreateAggregatorInput) (c : PCluster) : PCluster :=
  mkPCluster (pc_ID c) (pc_GrpId c) (ai_Numerator i) (ai_Denominator i) (ai_Endpoint i) (ai_Metric i) (ai_Tags i) (pc_DsType c) (ai_Step i) (pc_Creator c).
(** Source: modules/api/app/controller/host/aggreator_controller.go, UpdateAggregator. *)
Definition UpdateAggregator (tok : token) (inputs : option APICreateAggregatorInput) : Ap answer :=
  match bound_aggregator inputs with
  | None => ret (Answer badstatus BadInput)
  | Some i =>
      do! r := find_one env DB TCluster (aggregator_id (ai_Id i)) (any TCluster) in
      match r with
      | (_, Some e) => ret (Answer expecstatus (Problem "" e))
      | (aggregator, None) =>
          do! r := h_GetUser env tok in
          do! refused := must_own_or_made (fst r) (pc_GrpId aggregator) (pc_Creator aggregator) "find hostgroup got error: " in
          match refused with
          | Some a => ret a
          | None =>
              do! r := update env DB TCluster aggregator (has_id TCluster (pc_ID aggregator)) (set_aggregator i) in
              match r with
              | (_, Some e) => ret (Answer expecstatus (Problem "" e))
              | _ =>
                  do! r := find_one env DB TCluster aggregator (has_id TCluster (pc_ID aggregator)) in
                  ret (match r with (_, Some e) => Answer expecstatus (Problem "" e) | (c, None) => ok (One TCluster c) end)
              end
          end
      end
  end.
(** Source: modules/api/app/controller/host/aggreator_controller.go, DeleteAggregator. *)
Definition DeleteAggregator (tok : token) (aggIDtmp : string) : Ap answer :=
  match path_id "agg id is missing" aggIDtmp with
  | inr a => ret a
  | inl aggID =>
      if (aggID =? 0)%Z then ret (Answer badstatus (Message "delete id==0 is not valid"))
      else
        do! r := find_one env DB TCluster (aggregator_id aggID) (any TCluster) in
        match r with
        | (_, Some e) => ret (Answer expecstatus (Problem "find aggregator got error: " e))
        | (aggregator, None) =>
            do! r := h_GetUser env tok in
            do! refused := must_own (fst r) (pc_GrpId aggregator) expecstatus "find hostgroup got error: " in
            match refused with
            | Some a => ret a
            | None =>
                do! r := delete_rows env DB TCluster aggregator (has_id TCluster aggID) in
                ret (match r with
                     | (_, Some e) => Answer expecstatus (Problem "delete aggregator got error: " e)
                     | _ => ok (Message ("aggregator:" ++s itoa aggID ++s " has been deleted"))
                     end)
            end
        end
  end.

End groups.
