(* ===== verification/ApiRules.v ===== *)
(** Templates, their strategies and actions, expressions, and the
    configurations of nodata ([modules/api/app/controller/template],
    [controller/strategy], [controller/expression], [controller/mockcfg]).

    The body of a request that makes or changes a row is given as such a row (the
    error texts of a failed check are one text here);
    the fields it does not have are blank. *)
From S2P Require Import Prelude GoFloat GoStr HbsExpressions.
From S2P Require Export ApiAuth ApiGroups.
Local Open Scope string_scope.

Section rules.
Context (env : ApiEnv).

(** * Templates ([template_controller.go], [model/falcon_portal/tpl.go]) *)

Definition no_template : PTemplate := mkPTemplate 0 "" 0 0 "".
Definition no_action : PAction := mkPAction 0 "" "" "" 0 0 0 0 0.
Definition no_strategy : PStrategy := mkPStrategy 0 "" "" 0 0 "" "" "" "" "" "" 0.
Definition strategy_id (i : Z) : PStrategy := set_pk TStrategy i no_strategy.

(** Source: modules/api/app/model/falcon_portal/tpl.go, Template.FindParentName. An error leaves the name blank. *)
Definition FindParentName (this : PTemplate) : Ap string :=
  if (tp_ParentID this =? 0)%Z then ret ""
  else
    do! r := find_one env DB TTpl (set_pk TTpl (tp_ParentID this) no_template) (any TTpl) in
    ret (match r with (_, Some _) => "" | (ptpl, None) => tp_Name ptpl end).

(** Source: modules/api/app/controller/template/template_controller.go, lines 64-77. Symbol: GetTemplates. *)
Fixpoint with_parents (templates : list PTemplate) (output : list (PTemplate * string)) : Ap (list (PTemplate * string)) :=
  match templates with
  | [] => ret output
  | t :: templates => do! pname := FindParentName t in with_parents templates (output ++ [(t, pname)])%list
  end.
(** Source: modules/api/app/controller/template/template_controller.go, GetTemplates. The text of a page lacks the quotes around the pattern. *)
Definition GetTemplates (page limit q : string) : Ap answer :=
  match PageParser page limit with
  | (_, _, Some e) => ret (Answer badstatus (Message e))
  | (page, limit, None) =>
      do! r := (if negb (limit =? -1)%Z && negb (page =? -1)%Z then
                  raw_all env TTpl ("SELECT * from tpl WHERE tpl_name regexp " ++s q ++s " limit " ++s itoa page ++s "," ++s itoa limit)
                else find_all env DB TTpl (fun t => e_regexp env (tp_Name t) q)) in
      match r with
      | (_, Some e) => ret (Answer badstatus (Problem "" e))
      | (templates, None) => do! output := with_parents templates [] in ret (ok (Templates output))
      end
  end.
(** Source: modules/api/app/controller/template/template_controller.go, GetTemplatesSimple. *)
Definition GetTemplatesSimple (q : string) : Ap answer :=
  do! r := find_all env DB TTpl (fun t => e_regexp env (tp_Name t) q) in
  ret (match r with
       | (_, Some e) => Answer badstatus (Problem "" e)
       | (templates, None) => ok (Rows TTpl (map (fun t => mkPTemplate (tp_ID t) (tp_Name t) 0 0 "") templates))
       end).
(** Source: modules/api/app/controller/template/template_controller.go, GetATemplate. *)
Definition GetATemplate (tplidtmp : string) : Ap answer :=
  match path_id "tpl_id is missing" tplidtmp with
  | inr a => ret a
  | inl tplId =>
      do! r := find_one env DB TTpl no_template (has_id TTpl tplId) in
      match r with
      | (_, Some e) => ret (Answer badstatus (Problem "" e))
      | (tpl, None) =>
          do! r := find_all env DB TStrategy (fun s => (sr_TplId s =? tplId)%Z) in
          match r with
          | (_, Some e) => ret (Answer badstatus (Problem "" e))
          | (stratges, None) =>
              do! r := (if (tp_ActionID tpl =? 0)%Z then ret ((no_action : row TAction), None)
                        else find_one env DB TAction no_action (has_id TAction (tp_ActionID tpl))) in
              match r with
              | (_, Some e) => ret (Answer badstatus (Problem "" e))
              | (action, None) =>
                  do! pname := FindParentName tpl in
                  ret (ok (TemplateFull tpl stratges action pname))
              end
          end
      end
  end.

(** Source: modules/api/app/controller/template/template_controller.go, CreateTemplate. *)
Definition CreateTemplate (tok : token) (inputs : option PTemplate) : Ap answer :=
  match bound inputs (fun i => [tp_Name i]) with
  | None => ret (Answer badstatus BadInput)
  | Some i =>
      do! r := h_GetUser env tok in
      match r with
      | (_, Some e) => ret (Answer badstatus (user_problem e))
      | (user, None) =>
          do! r := save env DB TTpl (mkPTemplate 0 (tp_Name i) (tp_ParentID i) (tp_ActionID i) (us_Name user)) in
          ret (match r with (_, Some e) => Answer badstatus (Problem "" e) | _ => ok (Message "template created") end)
      end
  end.
(** Source: modules/api/app/controller/template/template_controller.go, UpdateTemplate. *)
Definition UpdateTemplate (tok : token) (inputs : option PTemplate) : Ap answer :=
  match bound inputs (fun i => [tp_Name i]) with
  | None => ret (Answer badstatus BadInput)
  | Some i =>
      if (tp_ID i =? 0)%Z then ret (Answer badstatus BadInput)
      else
        do! r := h_GetUser env tok in
        match r with
        | (_, Some e) => ret (Answer badstatus (user_problem e))
        | (user, None) =>
            do! r := find_one env DB TTpl no_template (has_id TTpl (tp_ID i)) in
            match r with
            | (_, Some e) => ret (Answer badstatus (Problem "" e))
            | (tpl, None) =>
                if negb (String.eqb (tp_CreateUser tpl) (us_Name user)) && negb (IsAdmin env user) then
                  ret (Answer badstatus (Message "You don't have permission!"))
                else
                  do! r := update env DB TTpl tpl (has_id TTpl (tp_ID i))
                             (fun t => mkPTemplate (tp_ID t) (tp_Name i) (tp_ParentID i) (tp_ActionID t) (tp_CreateUser t)) in
                  ret (match r with (_, Some e) => Answer badstatus (Problem "" e) | _ => ok (Message "template updated") end)
            end
        end
  end.
(** Source: modules/api/app/controller/template/template_controller.go, DeleteTemplate. Nobody is asked who the caller is. *)
Definition DeleteTemplate (tidTmp : string) : Ap answer :=
  match path_id "tpl_id is missing" tidTmp with
  | inr a => ret a
  | inl tplId =>
      do! _ := Begin env in
      do! r := find_one env TX TTpl no_template (has_id TTpl tplId) in
      match r with
      | (_, Some e) => do! _ := Rollback in ret (Answer badstatus (Problem "" e))
      | (tpl, None) =>
          let rest :=
            tx_delete env TStrategy no_strategy (fun s => (sr_TplId s =? tplId)%Z) badstatus ""
              (tx_delete env TGrpTpl (mkGrpTpl 0 0 "") (fun g => (gt_TplID g =? tplId)%Z) badstatus ""
                 (do! _ := Commit env in ret (ok (Message ("template " ++s itoa tplId ++s " has been deleted"))))) in
          tx_delete env TTpl tpl (any TTpl) badstatus ""
            (if (tp_ActionID tpl =? 0)%Z then rest
             else tx_delete env TAction no_action (has_id TAction (tp_ActionID tpl)) badstatus "" rest)
      end
  end.
(** Source: modules/api/app/controller/template/template_controller.go, GetATemplateHostgroup. *)
Definition GetATemplateHostgroup (tplidtmp : string) : Ap answer :=
  match path_id "tpl_id is missing" tplidtmp with
  | inr a => ret a
  | inl tplId =>
      do! r := find_one env DB TTpl no_template (has_id TTpl tplId) in
      match r with
      | (_, Some e) => ret (Answer badstatus (Problem "" e))
      | (tpl, None) =>
          do! r := find_all env DB TGrpTpl (fun g => (gt_TplID g =? tplId)%Z) in
          let tips := map gt_GrpID (fst r) in
          do! hostgroups := (match tips with [] => ret [] | _ => find_in env TGrp tips (fun g => in_ids tips (hg_ID g)) end) in
          ret (ok (TemplateGroups tpl hostgroups))
      end
  end.

(** Source: modules/api/app/controller/template/template_controller.go, CreateActionToTmplate. The inputs are the action and the template; the id of the new action is read back with [LAST_INSERT_ID], an answer without a row makes the index panic. *)
Definition CreateActionToTmplate (inputs : option (PAction * Z)) : Ap answer :=
  match inputs with
  | None => ret (Answer badstatus BadInput)
  | Some (i, tplId) =>
      if (tplId =? 0)%Z then ret (Answer badstatus BadInput)
      else
        do! _ := Begin env in
        do! r := save env TX TAction (set_pk TAction 0 i) in
        match r with
        | (_, Some e) => do! _ := Rollback in ret (Answer badstatus (Problem "" e))
        | (action, None) =>
            do! refused := stmt env TX in
            match refused with
            | Some _ => lift (Panic IndexOutOfRange)
            | None =>
                do! r := find_one env TX TTpl no_template (has_id TTpl tplId) in
                match r with
                | (_, Some e) => do! _ := Rollback in ret (Answer badstatus (Problem ("template: " ++s itoa tplId ++s " ; ") e))
                | (tpl, None) =>
                    do! r := update env TX TTpl tpl (any TTpl)
                               (fun t => mkPTemplate (tp_ID t) (tp_Name t) (tp_ParentID t) (pa_ID action) (tp_CreateUser t)) in
                    match r with
                    | (_, Some e) => do! _ := Rollback in ret (Answer badstatus (Problem "" e))
                    | _ =>
                        do! _ := Commit env in
                        ret (ok (Message ("action is created and bind to template: " ++s itoa tplId)))
                    end
                end
            end
        end
  end.
(** What an update of an action sets. *)
Definition set_action (i : PAction) (a : PAction) : PAction :=
  mkPAction (pa_ID a) (pa_UIC i) (pa_LarkGroupId a) (pa_URL i) (pa_Callback i) (pa_BeforeCallbackSMS i) (pa_BeforeCallbackMail i)
    (pa_AfterCallbackSMS i) (pa_AfterCallbackMail i).
(** Source: modules/api/app/controller/template/template_controller.go, UpdateActionToTmplate. *)
Definition UpdateActionToTmplate (inputs : option PAction) : Ap answer :=
  match inputs with
  | None => ret (Answer badstatus BadInput)
  | Some i =>
      if (pa_ID i =? 0)%Z then ret (Answer badstatus BadInput)
      else
        do! _ := Begin env in
        do! r := find_one env TX TAction no_action (has_id TAction (pa_ID i)) in
        match r with
        | (_, Some e) => do! _ := Rollback in ret (Answer badstatus (Problem "" e))
        | (action, None) =>
            do! r := update env TX TAction action (has_id TAction (pa_ID i)) (set_action i) in
            match r with
            | (_, Some e) => do! _ := Rollback in ret (Answer badstatus (Problem "" e))
            | (n, None) => do! _ := Commit env in ret (ok (Message ("action is updated, row affected: " ++s itoa n)))
            end
        end
  end.
(** Source: modules/api/app/controller/template/template_controller.go, GetActionByID. *)
Definition GetActionByID (aid : string) : Ap answer :=
  match atoi aid with
  | None => ret (Answer badstatus (Message "invalid action id"))
  | Some act_id =>
      do! r := find_first env DB TAction no_action (has_id TAction act_id) in
      ret (match r with (_, Some e) => Answer badstatus (Problem "" e) | (act, None) => ok (One TAction act) end)
  end.
(** Source: modules/api/app/controller/template/template_controller.go, GetHostGroupByTplidAndEndpoint. Of each group the id and the name. *)
Definition GetHostGroupByTplidAndEndpoint (tplid endpoint : string) : Ap answer :=
  match atoi tplid with
  | None => ret (Answer badstatus (Message "invalid tpl_id id"))
  | Some tplId =>
      do! r := raw_all env TGrp ("SELECT a.grp_id,d.grp_name from grp_tpl a , grp_host b,host c,grp d where a.grp_id=b.grp_id and d.id=a.grp_id and a.tpl_id="
                                   ++s itoa tplId ++s " and b.host_id=c.id and c.hostname='" ++s endpoint ++s "'") in
      ret (match r with (_, Some e) => Answer badstatus (Problem "" e) | (l, None) => ok (Rows TGrp l) end)
  end.

(** * Strategies ([strategy_controller.go]) *)

(** Source: modules/api/app/controller/strategy/strategy_controller.go, GetStrategys. *)
Definition GetStrategys (tidtmp : string) : Ap answer :=
  match path_id "tid is missing" tidtmp with
  | inr a => ret a
  | inl tid =>
      do! r := find_all env DB TStrategy (fun s => (sr_TplId s =? tid)%Z) in
      ret (match r with (_, Some e) => Answer badstatus (Problem "" e) | (l, None) => ok (Rows TStrategy l) end)
  end.
(** The checks of a strategy. *)
Definition well_formed (i : PStrategy) : bool :=
  CheckFormat_strategy (mkStrategyInput (sr_Op i) (sr_RightValue i) (sr_RunBegin i) (sr_RunEnd i)).
Definition bound_strategy (inputs : option PStrategy) : option PStrategy :=
  i ← bound inputs (fun i => [sr_Metric i; sr_Func i; sr_Op i; sr_RightValue i]);
  if (sr_MaxStep i =? 0)%Z then None else Some i.
(** Source: modules/api/app/controller/strategy/strategy_controller.go, CreateStrategy. *)
Definition CreateStrategy (inputs : option PStrategy) : Ap answer :=
  match bound_strategy inputs with
  | None => ret (Answer badstatus BadInput)
  | Some i =>
      if (sr_TplId i =? 0)%Z then ret (Answer badstatus BadInput)
      else if negb (well_formed i) then ret (Answer badstatus (Message "formating is not vaild"))
      else
        do! r := save env DB TStrategy (set_pk TStrategy 0 i) in
        ret (match r with (_, Some e) => Answer expecstatus (Problem "" e) | _ => ok (Message "stragtegy created") end)
  end.
(** Source: modules/api/app/controller/strategy/strategy_controller.go, GetStrategy. *)
Definition GetStrategy (sidtmp : string) : Ap answer :=
  match path_id "sid is missing" sidtmp with
  | inr a => ret a
  | inl sid =>
      do! r := find_one env DB TStrategy (strategy_id sid) (any TStrategy) in
      ret (match r with (_, Some e) => Answer badstatus (Problem "" e) | (s, None) => ok (One TStrategy s) end)
  end.
(** What an update of a strategy sets. *)
Definition set_strategy (i s : PStrategy) : PStrategy :=
  mkPStrategy (sr_ID s) (sr_Metric i) (sr_Tags i) (sr_MaxStep i) (sr_Priority i) (sr_Func i) (sr_Op i) (sr_RightValue i) (sr_Note i)
    (sr_RunBegin i) (sr_RunEnd i) (sr_TplId s).
(** Source: modules/api/app/controller/strategy/strategy_controller.go, UpdateStrategy. *)
Definition UpdateStrategy (inputs : option PStrategy) : Ap answer :=
  match bound_strategy inputs with
  | None => ret (Answer badstatus BadInput)
  | Some i =>
      if (sr_ID i =? 0)%Z then ret (Answer badstatus BadInput)
      else if negb (well_formed i) then ret (Answer badstatus (Message "formating is not vaild"))
      else
        do! r := find_one env DB TStrategy (strategy_id (sr_ID i)) (any TStrategy) in
        match r with
        | (_, Some e) => ret (Answer expecstatus (Problem "find strategy got error:" e))
        | (strategy, None) =>
            do! r := update env DB TStrategy strategy (has_id TStrategy (sr_ID strategy)) (set_strategy i) in
            ret (match r with
                 | (_, Some e) => Answer expecstatus (Problem "" e)
                 | _ => ok (Message ("stragtegy:" ++s itoa (sr_ID strategy) ++s " has been updated"))
                 end)
        end
  end.
(** Source: modules/api/app/controller/strategy/strategy_controller.go, DeleteStrategy. *)
Definition DeleteStrategy (sidtmp : string) : Ap answer :=
  match path_id "sid is missing" sidtmp with
  | inr a => ret a
  | inl sid =>
      do! r := delete_rows env DB TStrategy (strategy_id sid) (any TStrategy) in
      ret (match r with
           | (_, Some e) => Answer badstatus (Problem "" e)
           | _ => ok (Message ("strategy:" ++s itoa sid ++s " has been deleted"))
           end)
  end.

(** * Expressions ([expression_controller.go]) *)

Definition expression_id (i : Z) : PExpression := mkPExpression i "" "" "" "" 0 0 "" 0 "" 0.
(** Source: modules/api/app/controller/expression/expression_controller.go, GetExpressionList. *)
Definition GetExpressionList (page limit : string) : Ap answer :=
  match PageParser page limit with
  | (_, _, Some e) => ret (Answer badstatus (Message e))
  | (page, limit, None) =>
      do! r := (if negb (limit =? -1)%Z && negb (page =? -1)%Z then
                  raw_all env TExpression ("SELECT * from expression limit " ++s itoa page ++s "," ++s itoa limit)
                else find_all env DB TExpression (any TExpression)) in
      ret (match r with (_, Some e) => Answer badstatus (Problem "" e) | (l, None) => ok (Rows TExpression l) end)
  end.
(** Source: modules/api/app/controller/expression/expression_controller.go, GetExpression. *)
Definition GetExpression (eidtmp : string) : Ap answer :=
  match path_id "eid is missing" eidtmp with
  | inr a => ret a
  | inl eid =>
      do! r := find_one env DB TExpression (expression_id eid) (any TExpression) in
      match r with
      | (_, Some e) => ret (Answer badstatus (Problem "" e))
      | (expression, None) =>
          do! r := find_one env DB TAction (set_pk TAction (px_ActionId expression) no_action) (any TAction) in
          ret (match r with (_, Some e) => Answer badstatus (Problem "find action got error: " e) | (a, None) => ok (ExpressionFull expression a) end)
      end
  end.

(** The input of an expression: the row, the action, and the list of teams that becomes its [uic]. *)
Definition bound_expression (inputs : option (PExpression * PAction * option (list string))) : option (PExpression * PAction) :=
  '(x, a, uic) ← inputs;
  uic ← uic;
  if required [px_Expression x; px_Func x; px_Op x; px_RightValue x] && negb (px_MaxStep x =? 0)%Z && negb (px_Priority x =? 0)%Z
  then Some (x, mkPAction (pa_ID a) (join "," uic) "" (pa_URL a) (pa_Callback a) (pa_BeforeCallbackSMS a) (pa_BeforeCallbackMail a)
                  (pa_AfterCallbackSMS a) (pa_AfterCallbackMail a))
  else None.
Definition expression_input (x : PExpression) : ExpressionInput := mkExpressionInput (px_Expression x) (px_Func x) (px_Op x) (px_RightValue x).

(** Source: modules/api/app/controller/expression/expression_controller.go, CreateExrpession. *)
Definition CreateExrpession (tok : token) (inputs : option (PExpression * PAction * option (list string))) : Ap answer :=
  match bound_expression inputs with
  | None => ret (Answer badstatus BadInput)
  | Some (x, a) =>
      if negb (CheckFormat_create (expression_input x)) then ret (Answer badstatus (Message "formating is not vaild"))
      else
        do! r := h_GetUser env tok in
        let user := fst r in
        do! _ := Begin env in
        do! r := save env TX TAction (set_pk TAction 0 a) in
        match r with
        | (_, Some e) => do! _ := Rollback in ret (Answer expecstatus (Problem "" e))
        | (action, None) =>
            do! r := save env TX TExpression (mkPExpression 0 (px_Expression x) (px_Func x) (px_Op x) (px_RightValue x) (px_MaxStep x)
                                                (px_Priority x) (px_Note x) (pa_ID action) (us_Name user) (px_Pause x)) in
            match r with
            | (_, Some e) => do! _ := Rollback in ret (Answer expecstatus (Problem "" e))
            | _ => do! _ := Commit env in ret (ok (Message "expression created"))
            end
        end
  end.

(** What an update of an expression sets. *)
Definition set_expression (i : PExpression) (x : PExpression) : PExpression :=
  mkPExpression (px_ID x) (px_Expression i) (px_Func i) (px_Op i) (px_RightValue i) (px_MaxStep i) (px_Priority i) (px_Note i)
    (px_ActionId x) (px_CreateUser x) (px_Pause i).
(** Source: modules/api/app/controller/expression/expression_controller.go, lines 249-274. The second half of an update: the action of the expression. Symbol: UpdateExrpession. *)
Definition update_action (expression : PExpression) (i : PExpression) (a : PAction) : Ap answer :=
  do! r := find_one env TX TAction (set_pk TAction (px_ActionId expression) no_action) (has_id TAction (px_ActionId expression)) in
  match r with
  | (_, Some e) => do! _ := Rollback in ret (Answer expecstatus (Problem "find action got error: " e))
  | (actionTmp, None) =>
      do! r := update env TX TAction actionTmp (has_id TAction (pa_ID actionTmp)) (set_action a) in
      match r with
      | (_, Some e) => do! _ := Rollback in ret (Answer expecstatus (Problem "" e))
      | _ => do! _ := Commit env in ret (ok (Message ("expression:" ++s itoa (px_ID i) ++s " has been updated")))
      end
  end.
(** Source: modules/api/app/controller/expression/expression_controller.go, UpdateExrpession. *)
Definition UpdateExrpession (tok : token) (inputs : option (PExpression * PAction * option (list string))) : Ap answer :=
  match bound_expression inputs with
  | None => ret (Answer badstatus BadInput)
  | Some (i, a) =>
      if (px_ID i =? 0)%Z then ret (Answer badstatus BadInput)
      else if negb (CheckFormat_update (expression_input i)) then ret (Answer badstatus (Message "formating is not vaild"))
      else
        do! _ := Begin env in
        do! r := h_GetUser env tok in
        let user := fst r in
        do! r := find_one env TX TExpression (expression_id (px_ID i)) (any TExpression) in
        match r with
        | (_, Some e) => do! _ := Rollback in ret (Answer expecstatus (Problem "find expression got error:" e))
        | (expression, None) =>
            if negb (IsAdmin env user) && negb (String.eqb (px_CreateUser expression) (us_Name user)) then
              do! _ := Rollback in ret (Answer badstatus (Message "You don't have permission!"))
            else
              do! r := update env TX TExpression expression (has_id TExpression (px_ID expression)) (set_expression i) in
              match r with
              | (_, Some e) => do! _ := Rollback in ret (Answer expecstatus (Problem "update expression got error: " e))
              | _ =>
                  do! r := find_one env TX TExpression expression (has_id TExpression (px_ID expression)) in
                  match r with
                  | (_, Some e) => do! _ := Rollback in ret (Answer expecstatus (Problem "update expression got error: " e))
                  | (expression, None) => update_action expression i a
                  end
              end
        end
  end.
(** Source: modules/api/app/controller/expression/expression_controller.go, DeleteExpression. An administrator's request does not read the expression, so that its action stays. *)
Definition DeleteExpression (tok : token) (eidtmp : string) : Ap answer :=
  match path_id "eid is missing" eidtmp with
  | inr a => ret a
  | inl eid =>
      do! _ := Begin env in
      do! r := h_GetUser env tok in
      let user := fst r in
      do! expression := (if IsAdmin env user then ret (expression_id eid)
                         else do! r := find_one env TX TExpression (expression_id eid) (any TExpression) in ret (fst r)) in
      if negb (IsAdmin env user) && negb (String.eqb (px_CreateUser expression) (us_Name user)) then
        do! _ := Rollback in ret (Answer badstatus (Message "You don't have permission!"))
      else
        tx_delete env TAction no_action (has_id TAction (px_ActionId expression)) badstatus ""
          (tx_delete env TExpression expression (any TExpression) badstatus ""
             (do! _ := Commit env in ret (ok (Message ("expression:" ++s itoa eid ++s " has been deleted")))))
  end.

(** * The configurations of nodata ([mockcfg_controller.go]) *)

Definition mockcfg_id (i : Z) : Mockcfg := mkMockcfg i "" "" "" "" "" "" 0 fzero "".
(** Source: modules/api/app/controller/mockcfg/mockcfg_io_helper.go, APICreateNoDataInputs.CheckFormat. *)
Definition CheckFormat_mockcfg (i : Mockcfg) : bool :=
  String.eqb (mk_ObjType i) "group" || String.eqb (mk_ObjType i) "host" || String.eqb (mk_ObjType i) "other".
Definition bound_mockcfg (inputs : option Mockcfg) : option Mockcfg :=
  i ← bound inputs (fun i => [mk_Obj i; mk_ObjType i; mk_Metric i; mk_DsType i]);
  if (mk_Step i =? 0)%Z then None else Some i.
(** Source: modules/api/app/controller/mockcfg/mockcfg_controller.go, GetNoDataList. *)
Definition GetNoDataList (page limit : string) : Ap answer :=
  match PageParser page limit with
  | (_, _, Some e) => ret (Answer badstatus (Message e))
  | (page, limit, None) =>
      do! r := (if negb (limit =? -1)%Z && negb (page =? -1)%Z then
                  raw_all env TMockcfg ("SELECT * from mockcfg limit " ++s itoa page ++s "," ++s itoa limit)
                else find_all env DB TMockcfg (any TMockcfg)) in
      ret (match r with (_, Some e) => Answer badstatus (Problem "" e) | (l, None) => ok (Rows TMockcfg l) end)
  end.
(** Source: modules/api/app/controller/mockcfg/mockcfg_controller.go, GetNoData. *)
Definition GetNoData (nidtmp : string) : Ap answer :=
  match path_id "nid is missing" nidtmp with
  | inr a => ret a
  | inl nid =>
      do! r := find_one env DB TMockcfg (mockcfg_id nid) (any TMockcfg) in
      ret (match r with (_, Some e) => Answer badstatus (Problem "" e) | (m, None) => ok (One TMockcfg m) end)
  end.
(** Source: modules/api/app/controller/mockcfg/mockcfg_controller.go, CreateNoData. *)
Definition CreateNoData (tok : token) (inputs : option Mockcfg) : Ap answer :=
  match bound (bound_mockcfg inputs) (fun i => [mk_Name i]) with
  | None => ret (Answer badstatus BadInput)
  | Some i =>
      if negb (CheckFormat_mockcfg i) then ret (Answer badstatus (Message "obj_type only accpect"))
      else
        do! r := h_GetUser env tok in
        do! r := save env DB TMockcfg (mkMockcfg 0 (mk_Name i) (mk_Obj i) (mk_ObjType i) (mk_Metric i) (mk_Tags i) (mk_DsType i) (mk_Step i)
                                         (mk_Mock i) (us_Name (fst r))) in
        ret (match r with (_, Some e) => Answer expecstatus (Problem "" e) | (m, None) => ok (One TMockcfg m) end)
  end.
Definition set_mockcfg (i m : Mockcfg) : Mockcfg :=
  mkMockcfg (mk_ID m) (mk_Name m) (mk_Obj i) (mk_ObjType i) (mk_Metric i) (mk_Tags i) (mk_DsType i) (mk_Step i) (mk_Mock i) (mk_Creator m).
(** Source: modules/api/app/controller/mockcfg/mockcfg_controller.go, UpdateNoData. *)
Definition UpdateNoData (inputs : option Mockcfg) : Ap answer :=
  match bound_mockcfg inputs with
  | None => ret (Answer badstatus BadInput)
  | Some i =>
      if (mk_ID i =? 0)%Z then ret (Answer badstatus BadInput)
      else if negb (CheckFormat_mockcfg i) then ret (Answer badstatus (Message "obj_type only accpect"))
      else
        do! r := update env DB TMockcfg (mockcfg_id (mk_ID i)) (has_id TMockcfg (mk_ID i)) (set_mockcfg i) in
        match r with
        | (_, Some e) => ret (Answer expecstatus (Problem "" e))
        | _ =>
            do! r := find_one env DB TMockcfg (mockcfg_id (mk_ID i)) (has_id TMockcfg (mk_ID i)) in
            ret (match r with (_, Some e) => Answer expecstatus (Problem "" e) | (m, None) => ok (One TMockcfg m) end)
        end
  end.
(** Source: modules/api/app/controller/mockcfg/mockcfg_controller.go, DeleteNoData. *)
Definition DeleteNoData (nidtmp : string) : Ap answer :=
  match path_id "nid is missing" nidtmp with
  | inr a => ret a
  | inl nid =>
      do! r := delete_rows env DB TMockcfg (mockcfg_id nid) (any TMockcfg) in
      ret (match r with
           | (_, Some e) => Answer badstatus (Problem "" e)
           | _ => ok (Message ("mockcfg:" ++s itoa nid ++s " is deleted"))
           end)
  end.

End rules.
