(* ===== verification/ApiBoards.v ===== *)
(** Dashboards ([modules/api/app/controller/dashboard_graph],
    [dashboard_screen]): graphs that show the counters of endpoints, the screens
    they stand on, and the graphs that are made for a link.

    The tables are in a database of their own; its statements are refused, and
    its rows ordered, by the same oracles.  A list of endpoints or of counters is
    kept sorted in one column, with bars between. *)
From S2P Require Import Prelude GoStr Hash.
From S2P Require Export ApiAuth.
From Stdlib Require Import Ascii.
Local Open Scope string_scope.

(** * The numbers of a limit *)

Definition hex_val (a : ascii) : option Z :=
  match digit_val a with
  | Some d => Some d
  | None => let n := Z.of_nat (nat_of_ascii (lower_ascii a)) in if ((97 <=? n) && (n <=? 102))%Z then Some (n - 87)%Z else None
  end.
Fixpoint base_val (base : Z) (s : string) (acc : Z) : option Z :=
  match s with
  | "" => Some acc
  | String a t => match hex_val a with Some d => if (d <? base)%Z then base_val base t (acc * base + d) else None | None => None end
  end.
(** [strconv.ParseInt] with the base 0: the prefix of a number says its base. *)
Definition parse_base0 (s : string) : option Z :=
  let '(neg, body) := match s with String "-" t => (true, t) | String "+" t => (false, t) | _ => (false, s) end in
  let v := match body with
           | "" => None
           | String "0" (String "x" t) | String "0" (String "X" t) => if String.eqb t "" then None else base_val 16 t 0
           | String "0" t => if String.eqb t "" then Some 0%Z else base_val 8 t 0
           | t => base_val 10 t 0
           end in
  match v with
  | Some n => let n := if (neg : bool) then (- n)%Z else n in if ((- 2 ^ 63 <=? n) && (n <? 2 ^ 63))%Z then Some n else None
  | None => None
  end.
(** Source: vendor/github.com/jinzhu/gorm/dialect_mysql.go, lines 130-143. What is left of some rows; a limit that is no number is none. Symbol: mysql.LimitAndOffsetSQL. *)
Definition limited {X} (limit : string) (l : list X) : list X :=
  match parse_base0 limit with
  | Some n => if (0 <=? n)%Z then firstn (Z.to_nat n) l else l
  | None => l
  end.

#[export] Instance DashboardGraph_eq_dec : EqDecision DashboardGraph := row_eq_dec TGraph.

Section boards.
Context (env : ApiEnv).

Definition TMP_GRAPH_FILED_DELIMITER : string := "|".
(** A column of names, and the names of a column. *)
Definition column (l : list string) : string := GoStr.join TMP_GRAPH_FILED_DELIMITER (sort_strings l).
Definition names (s : string) : list string := GoStr.split s TMP_GRAPH_FILED_DELIMITER.

Definition no_dgraph : DashboardGraph := mkDGraph 0 "" "" "" 0 0 "" "" 0 "".
Definition no_screen : DashboardScreen := mkScreen 0 0 "".
Definition no_tmp : DashboardTmpGraph := mkTmpGraph 0 "" "" "" 0.

(** * Graphs for a link ([dashboard_graph_controller.go]) *)

(** The text of two lists, and its key. *)
Definition link_text (endpoints counters : list string) : string := column endpoints ++s ":" ++s column counters.
(** Source: modules/api/app/controller/dashboard_graph/dashboard_graph_controller.go, lines 39-46. Symbol: DashboardTmpGraphCreate. *)
Definition link_key (endpoints counters : list string) : string := md5_hex (link_text endpoints counters).

(** The update of a row whose key is there already. *)
Definition touch_link (now : Z) (t : DashboardTmpGraph) : DashboardTmpGraph := mkTmpGraph (tg_ID t) (tg_Endpoints t) (tg_Counters t) (tg_CK t) now.
(** Source: modules/api/app/controller/dashboard_graph/dashboard_graph_controller.go, DashboardTmpGraphCreate. The statement inserts the row, or sets the time of the one with its key; it is made of the two here, and refused where one of them is. *)
Definition DashboardTmpGraphCreate (inputs : option (option (list string) * option (list string))) : Ap answer :=
  match inputs with
  | Some (Some endpoints, Some counters) =>
      let ck := link_key endpoints counters in
      do! now := gets (fun s => e_now env (api_tick s)) in
      do! r := create env DB TTmp (mkTmpGraph 0 (column endpoints) (column counters) ck now) in
      do! err := (match r with
                  | (_, Some Duplicate) => do! r := update env DB TTmp no_tmp (fun t => sql_eq env (tg_CK t) ck) (touch_link now) in ret (snd r)
                  | (_, e) => ret e
                  end) in
      match err with
      | Some e => ret (Answer badstatus (Problem "" e))
      | None =>
          do! r := find_first env DB TTmp no_tmp (fun t => sql_eq env (tg_CK t) ck) in
          ret (match r with (_, Some e) => Answer badstatus (Problem "" e) | (tmp_graph, None) => ok (Id (tg_ID tmp_graph)) end)
      end
  | _ => ret (Answer badstatus BadInput)
  end.
(** Source: modules/api/app/controller/dashboard_graph/dashboard_graph_controller.go, DashboardTmpGraphQuery. The server compares the id with a text. *)
Definition DashboardTmpGraphQuery (is_id : Z -> bool) : Ap answer :=
  do! r := find_first env DB TTmp no_tmp (fun t => is_id (tg_ID t)) in
  ret (match r with
       | (_, Some e) => Answer badstatus (Problem "" e)
       | (tmp_graph, None) => ok (TmpBoard (names (tg_Endpoints tmp_graph)) (names (tg_Counters tmp_graph)))
       end).

(** * Graphs *)

(** Source: modules/api/app/controller/dashboard_graph/dashboard_graph_controller.go, type APIGraphUpdateReqData. Also the body of a creation. *)
Record APIGraphReqData := mkGraphReq {
  gq_ScreenId : Z; gq_Title : string; gq_Endpoints : option (list string); gq_Counters : option (list string); gq_TimeSpan : Z; gq_GraphType : string;
  gq_Method : string; gq_Position : Z; gq_FalconTags : string }.

(** Source: modules/api/app/controller/dashboard_graph/dashboard_graph_controller.go, lines 105-127. The row of a creation: the tags are not taken. Symbol: DashboardGraphCreate. *)
Definition new_graph (inputs : APIGraphReqData) (es cs : list string) : DashboardGraph :=
  mkDGraph 0 (gq_Title inputs) (column es) (column cs) (gq_ScreenId inputs) (if (gq_TimeSpan inputs =? 0)%Z then 3600%Z else gq_TimeSpan inputs)
    (if String.eqb (gq_GraphType inputs) "" then "h" else gq_GraphType inputs) (gq_Method inputs) (gq_Position inputs) "".
(** Source: modules/api/app/controller/dashboard_graph/dashboard_graph_controller.go, DashboardGraphCreate. The id is asked for in the transaction; the error of the commit is not looked at. *)
Definition DashboardGraphCreate (inputs : option APIGraphReqData) : Ap answer :=
  match bound inputs (fun i => [gq_Title i]) with
  | Some inputs =>
      match gq_Endpoints inputs, gq_Counters inputs with
      | Some es, Some cs =>
          if (gq_ScreenId inputs =? 0)%Z then ret (Answer badstatus BadInput)
          else
            do! _ := Begin env in
            do! r := create env TX TGraph (new_graph inputs es cs) in
            match r with
            | (_, Some e) => do! _ := Rollback in ret (Answer badstatus (Problem "" e))
            | (d, None) =>
                do! e := stmt env TX in
                match e with
                | Some e => do! _ := Rollback in ret (Answer badstatus (Problem "" e))
                | None => do! _ := Commit env in ret (ok (Id (dg_ID d)))
                end
            end
      | _, _ => ret (Answer badstatus BadInput)
      end
  | None => ret (Answer badstatus BadInput)
  end.

(** What is given replaces what there is. *)
Definition or_old (new old : string) : string := if String.eqb new "" then old else new.
Definition or_old_Z (new old : Z) : Z := if (new =? 0)%Z then old else new.
Definition or_old_column (new : option (list string)) (old : string) : string := match new with Some (_ :: _ as l) => or_old (column l) old | _ => old end.
(** Source: modules/api/app/controller/dashboard_graph/dashboard_graph_controller.go, lines 177-212. The update by the fields that are not blank. Symbol: DashboardGraphUpdate. *)
Definition change_graph (i : APIGraphReqData) (g : DashboardGraph) : DashboardGraph :=
  mkDGraph (dg_ID g) (or_old (gq_Title i) (dg_Title g)) (or_old_column (gq_Endpoints i) (dg_Hosts g)) (or_old_column (gq_Counters i) (dg_Counters g))
    (or_old_Z (gq_ScreenId i) (dg_ScreenId g)) (or_old_Z (gq_TimeSpan i) (dg_TimeSpan g)) (or_old (gq_GraphType i) (dg_GraphType g))
    (or_old (gq_Method i) (dg_Method g)) (or_old_Z (gq_Position i) (dg_Position g)) (or_old (gq_FalconTags i) (dg_FalconTags g)).
(** Nothing is given: no statement is sent. *)
Definition blank_change (i : APIGraphReqData) : bool := bool_decide (change_graph i no_dgraph = no_dgraph).
(** Source: modules/api/app/controller/dashboard_graph/dashboard_graph_controller.go, DashboardGraphUpdate. *)
Definition DashboardGraphUpdate (id : string) (inputs : option APIGraphReqData) : Ap answer :=
  match atoi id with
  | None => ret (Answer badstatus (Message "invalid graph id"))
  | Some gid =>
      match inputs with
      | None => ret (Answer badstatus BadInput)
      | Some i =>
          if blank_change i then ret (ok (Id gid))
          else
            do! r := update env DB TGraph no_dgraph (has_id TGraph gid) (change_graph i) in
            ret (match r with (_, Some e) => Answer badstatus (Problem "" e) | (_, None) => ok (Id gid) end)
      end
  end.
Definition shown (g : DashboardGraph) : DashboardGraph * list string * list string := (g, names (dg_Hosts g), names (dg_Counters g)).
(** Source: modules/api/app/controller/dashboard_graph/dashboard_graph_controller.go, DashboardGraphGet. *)
Definition DashboardGraphGet (id : string) : Ap answer :=
  match atoi id with
  | None => ret (Answer badstatus (Message "invalid graph id"))
  | Some gid =>
      do! r := find_first env DB TGraph no_dgraph (has_id TGraph gid) in
      ret (match r with
           | (_, Some e) => Answer badstatus (Problem "" e)
           | (graph, None) => ok (Board graph (names (dg_Hosts graph)) (names (dg_Counters graph)))
           end)
  end.
(** Source: modules/api/app/controller/dashboard_graph/dashboard_graph_controller.go, DashboardGraphDelete. *)
Definition DashboardGraphDelete (id : string) : Ap answer :=
  match atoi id with
  | None => ret (Answer badstatus (Message "invalid graph id"))
  | Some gid =>
      do! r := delete_rows env DB TGraph no_dgraph (has_id TGraph gid) in
      ret (match r with (_, Some e) => Answer badstatus (Problem "" e) | (_, None) => ok (Id gid) end)
  end.
(** Source: modules/api/app/controller/dashboard_graph/dashboard_graph_controller.go, DashboardGraphGetsByScreenID. *)
Definition DashboardGraphGetsByScreenID (id limit : string) : Ap answer :=
  match atoi id with
  | None => ret (Answer badstatus (Message "invalid screen id"))
  | Some sid =>
      do! r := find_all env DB TGraph (fun g => (dg_ScreenId g =? sid)%Z) in
      ret (match r with (_, Some e) => Answer badstatus (Problem "" e) | (graphs, None) => ok (Boards (map shown (limited limit graphs))) end)
  end.

(** * Screens ([dashboard_screen_controller.go]) *)

(** The first id that is plucked. *)
Definition pluck_screen (pid : Z) (name : string) : Ap (list Z * option db_err) :=
  do! r := find_all env DB TScreen (fun s => (sc_PID s =? pid)%Z && sql_eq env (sc_Name s) name) in
  ret (map sc_ID (firstn 1 (fst r)), snd r).
(** Source: modules/api/app/controller/dashboard_screen/dashboard_screen_controller.go, ScreenCreate. *)
Definition ScreenCreate (pid name : string) : Ap answer :=
  if String.eqb name "" then ret (Answer badstatus (Message "empty name"))
  else
    match atoi pid with
    | None => ret (Answer badstatus (Message "invalid screen pid"))
    | Some ipid =>
        do! r := pluck_screen ipid name in
        match r with
        | ([], None) =>
            do! r := create env DB TScreen (mkScreen 0 ipid name) in
            match r with
            | (_, Some (Refused e)) => ret (Answer badstatus (Problem "" (Refused e)))
            | _ =>
                do! r := pluck_screen ipid name in
                ret (match r with
                     | (_, Some e) => Answer badstatus (Problem "" e)
                     | ([], None) => Answer badstatus (Message "")
                     | (sid :: _, None) => ok (NewScreen ipid sid name)
                     end)
            end
        | _ => ret (Answer badstatus (Message ("screen_name " ++s name ++s " already exists")))
        end
    end.
(** Source: modules/api/app/controller/dashboard_screen/dashboard_screen_controller.go, GetScreens. *)
Definition GetScreens (page limit q : string) : Ap answer :=
  match PageParser page limit with
  | (_, _, Some e) => ret (Answer badstatus (Message e))
  | (page, limit, None) =>
      do! r := (if negb (limit =? -1)%Z && negb (page =? -1)%Z then
                  raw_all env TScreen ("SELECT * from dashboard_screen  where name regexp '" ++s q ++s "' limit " ++s itoa page ++s "," ++s itoa limit)
                else find_all env DB TScreen (fun s => e_regexp env (sc_Name s) q)) in
      ret (match r with (_, Some e) => Answer expecstatus (Problem "" e) | (Screens, None) => ok (Rows TScreen Screens) end)
  end.
(** Source: modules/api/app/controller/dashboard_screen/dashboard_screen_controller.go, ScreenGet. *)
Definition ScreenGet (id : string) : Ap answer :=
  match atoi id with
  | None => ret (Answer badstatus (Message "invalid screen id"))
  | Some sid =>
      do! r := find_first env DB TScreen no_screen (has_id TScreen sid) in
      ret (match r with (_, Some e) => Answer badstatus (Problem "" e) | (screen, None) => ok (One TScreen screen) end)
  end.
(** Source: modules/api/app/controller/dashboard_screen/dashboard_screen_controller.go, ScreenGetsByPid. *)
Definition ScreenGetsByPid (id : string) : Ap answer :=
  match atoi id with
  | None => ret (Answer badstatus (Message "invalid screen pid"))
  | Some pid =>
      do! r := find_all env DB TScreen (fun s => (sc_PID s =? pid)%Z) in
      ret (match r with (_, Some e) => Answer badstatus (Problem "" e) | (screens, None) => ok (Rows TScreen screens) end)
  end.
(** Source: modules/api/app/controller/dashboard_screen/dashboard_screen_controller.go, ScreenGetsByName. *)
Definition ScreenGetsByName (name : string) : Ap answer :=
  if String.eqb name "" then ret (Answer badstatus (Message "name is missing"))
  else
    do! r := find_one env DB TScreen no_screen (fun s => sql_eq env (sc_Name s) name) in
    ret (match r with (_, Some e) => Answer badstatus (Problem "" e) | (screen, None) => ok (One TScreen screen) end).
(** Source: modules/api/app/controller/dashboard_screen/dashboard_screen_controller.go, ScreenGetsAll. *)
Definition ScreenGetsAll (limit : string) : Ap answer :=
  do! r := find_all env DB TScreen (any TScreen) in
  ret (match r with (_, Some e) => Answer badstatus (Problem "" e) | (screens, None) => ok (Rows TScreen (limited limit screens)) end).
(** Source: modules/api/app/controller/dashboard_screen/dashboard_screen_controller.go, ScreenDelete. *)
Definition ScreenDelete (id : string) : Ap answer :=
  match atoi id with
  | None => ret (Answer badstatus (Message "invalid screen id"))
  | Some sid =>
      do! r := delete_rows env DB TScreen no_screen (has_id TScreen sid) in
      ret (match r with (_, Some e) => Answer badstatus (Problem "" e) | (_, None) => ok (Message "ok") end)
  end.
(** Source: modules/api/app/controller/dashboard_screen/dashboard_screen_controller.go, ScreenUpdate. With nothing to change no statement is sent. *)
Definition ScreenUpdate (id pid name : string) : Ap answer :=
  match atoi id with
  | None => ret (Answer badstatus (Message "invalid screen id"))
  | Some sid =>
      match (if String.eqb pid "" then Some None else Some <$> atoi pid) with
      | None => ret (Answer badstatus (Message "invalid screen pid"))
      | Some ipid =>
          if String.eqb name "" && bool_decide (ipid = None) then ret (ok (Message "ok"))
          else
            do! r := update env DB TScreen no_screen (has_id TScreen sid)
                       (fun s => mkScreen (sc_ID s) (default (sc_PID s) ipid) (or_old name (sc_Name s))) in
            ret (match r with (_, Some e) => Answer badstatus (Problem "" e) | (_, None) => ok (Message "ok") end)
      end
  end.
End boards.
