(* ===== verification/ApiServe.v ===== *)
(** The routes of the web service ([controller/*/..._routes.go]): which handler
    answers a request, and which requests the session is checked for. *)
From S2P Require Import Prelude.
From S2P Require Export ApiAuth ApiTeams ApiGroups ApiRules ApiBoards.

(** What a request asks for, with what its path and its body hold. *)
Inductive request :=
  | RAuthSession | RLogin (i : option APILoginInput) | RLogout | RCreateUser (i : option APIUserInput)
  | RUserInfo | RGetUser (uid : string) | RGetUserByName (name : string) | RUpdateCurrentUser (i : option APIUserUpdateInput)
  | RChangePassword (i : option APICgPassedInput) | RUserList (page limit q : string) | RIsUserInTeams (uid teams : string) | RGetUserTeams (uid : string)
  | RChangeRoleOfUser (i : option (Z * string)) | RAdminChangePassword (i : option (Z * string))
  | RAdminChangeUserProfile (i : option (Z * APIUserUpdateInput)) | RAdminUserDelete (i : option Z)
  | RTeams (page limit q : string) | RGetTeamDict | RGetTeam (id : string) | RGetTeamByName (name : string) | RCreateTeam (i : option APICreateTeamInput)
  | RUpdateTeam (i : option APIUpdateTeamInput) | RDeleteTeam (id : string)
  | RGetTemplates (page limit q : string) | RCreateTemplate (i : option PTemplate) | RGetATemplate (id : string) | RUpdateTemplate (i : option PTemplate)
  | RGetATemplateHostgroup (id : string) | RDeleteTemplate (id : string) | RCreateActionToTmplate (i : option (PAction * Z))
  | RUpdateActionToTmplate (i : option PAction) | RGetActionByID (id : string) | RGetHostGroupByTplidAndEndpoint (tpl endpoint : string)
  | RGetTemplatesSimple (q : string)
  | RGetStrategys (tid : string) | RGetStrategy (sid : string) | RCreateStrategy (i : option PStrategy) | RUpdateStrategy (i : option PStrategy)
  | RDeleteStrategy (sid : string)
  | RGetExpressionList (page limit : string) | RGetExpression (eid : string) | RCreateExrpession (i : option (PExpression * PAction * option (list string)))
  | RUpdateExrpession (i : option (PExpression * PAction * option (list string))) | RDeleteExpression (eid : string)
  | RGetNoDataList (page limit : string) | RGetNoData (nid : string) | RCreateNoData (i : option Mockcfg) | RUpdateNoData (i : option Mockcfg)
  | RDeleteNoData (nid : string)
  | RGetHostGroups (page limit q : string) | RCrateHostGroup (i : option string) | RBindHostToHostGroup (i : option APIBindHostToHostGroupInput)
  | RUnBindAHostToHostGroup (i : option (Z * Z)) | RGetHostGroup (id : string) (matches : string -> bool) | RGetHostGroupSimple (id : string)
  | RGetHostGroupHosts (name : string) | RPutHostGroup (i : option (Z * string)) | RDeleteHostGroup (id : string)
  | RPatchHostGroupHost (id : string) (i : option APIPatchHostGroupHost)
  | RGetPluginOfGrp (id : string) | RCreatePlugin (i : option (Z * string)) | RDeletePlugin (id : string)
  | RGetAggregatorListOfGrp (page limit id : string) | RGetAggregator (id : string) | RCreateAggregator (i : option APICreateAggregatorInput)
  | RUpdateAggregator (i : option APICreateAggregatorInput) | RDeleteAggregator (id : string)
  | RBindTemplateToGroup (i : option (Z * Z)) | RUnBindTemplateToGroup (i : option (Z * Z)) | RGetTemplateOfHostGroup (id : string)
  | RGetTplsRelatedHost (id : string) | RGetGrpsRelatedHost (id : string) | RSetMaintain (i : option APISetMaintainInput)
  | RUnsetMaintain (i : option (list string * list Z))
  | RDashboardTmpGraphCreate (i : option (option (list string) * option (list string))) | RDashboardTmpGraphQuery (is_id : Z -> bool)
  | RDashboardGraphCreate (i : option APIGraphReqData) | RDashboardGraphUpdate (id : string) (i : option APIGraphReqData) | RDashboardGraphGet (id : string)
  | RDashboardGraphDelete (id : string) | RDashboardGraphGetsByScreenID (id limit : string)
  | RScreenCreate (pid name : string) | RGetScreens (page limit q : string) | RScreenGet (id : string) | RScreenGetsByPid (pid : string)
  | RScreenGetsByName (name : string) | RScreenGetsAll (limit : string) | RScreenDelete (id : string) | RScreenUpdate (id pid name : string).

(** The routes without [AuthSessionMidd]; those of [template_simple] are, as the check is put on another group of routes. Source: modules/api/app/controller/template/template_routes.go, Routes. *)
Definition open_route (r : request) : bool :=
  match r with
  | RAuthSession | RLogin _ | RLogout | RCreateUser _ | RGetActionByID _ | RGetHostGroupByTplidAndEndpoint _ _ | RGetTemplatesSimple _ => true
  | _ => false
  end.

Section serve.
Context (env : ApiEnv) (tok : token).

(** The handler of a request. The routes of users and teams, [uic/user_routes.go]; of templates, [template_routes.go]; of strategies, [strategy_routes.go]; of expressions, [expression_routes.go]; of nodata, [mockcfg_routes.go]; of graphs and screens, [dashboard_graph_routes.go] and [dashboard_screen_routes.go]; of groups and hosts: Source: modules/api/app/controller/host/host_routes.go, Routes. *)
Definition handler (r : request) : Ap answer :=
  match r with
  | RAuthSession => AuthSession env tok
  | RLogin i => Login env i
  | RLogout => Logout env tok
  | RCreateUser i => CreateUser env tok i
  | RUserInfo => UserInfo env tok
  | RGetUser uid => GetUser env uid
  | RGetUserByName name => GetUserByName env name
  | RUpdateCurrentUser i => UpdateCurrentUser env tok i
  | RChangePassword i => ChangePassword env tok i
  | RUserList page limit q => UserList env page limit q
  | RIsUserInTeams uid teams => IsUserInTeams env uid teams
  | RGetUserTeams uid => GetUserTeams env uid
  | RChangeRoleOfUser i => ChangeRoleOfUser env tok i
  | RAdminChangePassword i => AdminChangePassword env tok i
  | RAdminChangeUserProfile i => AdminChangeUserProfile env tok i
  | RAdminUserDelete i => AdminUserDelete env tok i
  | RTeams page limit q => Teams env tok page limit q
  | RGetTeamDict => GetTeamDict env
  | RGetTeam id => GetTeam env id
  | RGetTeamByName name => GetTeamByName env name
  | RCreateTeam i => CreateTeam env tok i
  | RUpdateTeam i => UpdateTeam env tok i
  | RDeleteTeam id => DeleteTeam env tok id
  | RGetTemplates page limit q => GetTemplates env page limit q
  | RCreateTemplate i => CreateTemplate env tok i
  | RGetATemplate id => GetATemplate env id
  | RUpdateTemplate i => UpdateTemplate env tok i
  | RGetATemplateHostgroup id => GetATemplateHostgroup env id
  | RDeleteTemplate id => DeleteTemplate env id
  | RCreateActionToTmplate i => CreateActionToTmplate env i
  | RUpdateActionToTmplate i => UpdateActionToTmplate env i
  | RGetActionByID id => GetActionByID env id
  | RGetHostGroupByTplidAndEndpoint tpl endpoint => GetHostGroupByTplidAndEndpoint env tpl endpoint
  | RGetTemplatesSimple q => GetTemplatesSimple env q
  | RGetStrategys tid => GetStrategys env tid
  | RGetStrategy sid => GetStrategy env sid
  | RCreateStrategy i => CreateStrategy env i
  | RUpdateStrategy i => UpdateStrategy env i
  | RDeleteStrategy sid => DeleteStrategy env sid
  | RGetExpressionList page limit => GetExpressionList env page limit
  | RGetExpression eid => GetExpression env eid
  | RCreateExrpession i => CreateExrpession env tok i
  | RUpdateExrpession i => UpdateExrpession env tok i
  | RDeleteExpression eid => DeleteExpression env tok eid
  | RGetNoDataList page limit => GetNoDataList env page limit
  | RGetNoData nid => GetNoData env nid
  | RCreateNoData i => CreateNoData env tok i
  | RUpdateNoData i => UpdateNoData env i
  | RDeleteNoData nid => DeleteNoData env nid
  | RGetHostGroups page limit q => GetHostGroups env page limit q
  | RCrateHostGroup i => CrateHostGroup env tok i
  | RBindHostToHostGroup i => BindHostToHostGroup env tok i
  | RUnBindAHostToHostGroup i => UnBindAHostToHostGroup env tok i
  | RGetHostGroup id matches => GetHostGroup env id matches
  | RGetHostGroupSimple id => GetHostGroupSimple env id
  | RGetHostGroupHosts name => GetHostGroupHosts env name
  | RPutHostGroup i => PutHostGroup env i
  | RDeleteHostGroup id => DeleteHostGroup env tok id
  | RPatchHostGroupHost id i => PatchHostGroupHost env tok id i
  | RGetPluginOfGrp id => GetPluginOfGrp env id
  | RCreatePlugin i => CreatePlugin env tok i
  | RDeletePlugin id => DeletePlugin env tok id
  | RGetAggregatorListOfGrp page limit id => GetAggregatorListOfGrp env page limit id
  | RGetAggregator id => GetAggregator env id
  | RCreateAggregator i => CreateAggregator env tok i
  | RUpdateAggregator i => UpdateAggregator env tok i
  | RDeleteAggregator id => DeleteAggregator env tok id
  | RBindTemplateToGroup i => BindTemplateToGroup env tok i
  | RUnBindTemplateToGroup i => UnBindTemplateToGroup env tok i
  | RGetTemplateOfHostGroup id => GetTemplateOfHostGroup env id
  | RGetTplsRelatedHost id => GetTplsRelatedHost env id
  | RGetGrpsRelatedHost id => GetGrpsRelatedHost env id
  | RSetMaintain i => SetMaintain env i
  | RUnsetMaintain i => UnsetMaintain env i
  | RDashboardTmpGraphCreate i => DashboardTmpGraphCreate env i
  | RDashboardTmpGraphQuery is_id => DashboardTmpGraphQuery env is_id
  | RDashboardGraphCreate i => DashboardGraphCreate env i
  | RDashboardGraphUpdate id i => DashboardGraphUpdate env id i
  | RDashboardGraphGet id => DashboardGraphGet env id
  | RDashboardGraphDelete id => DashboardGraphDelete env id
  | RDashboardGraphGetsByScreenID id limit => DashboardGraphGetsByScreenID env id limit
  | RScreenCreate pid name => ScreenCreate env pid name
  | RGetScreens page limit q => GetScreens env page limit q
  | RScreenGet id => ScreenGet env id
  | RScreenGetsByPid pid => ScreenGetsByPid env pid
  | RScreenGetsByName name => ScreenGetsByName env name
  | RScreenGetsAll limit => ScreenGetsAll env limit
  | RScreenDelete id => ScreenDelete env id
  | RScreenUpdate id pid name => ScreenUpdate env id pid name
  end.

(** A request is answered: the session is checked first where the route says so. Source: modules/api/app/controller/uic/user_routes.go, Routes. *)
Definition serve (r : request) : Ap answer :=
  if open_route r then handler r
  else
    do! refused := AuthSessionMidd env tok in
    match refused with
    | Some a => ret a
    | None => handler r
    end.

End serve.

(** Requests one after another. *)
Definition serve_all (env : ApiEnv) (l : list (token * request)) : Ap unit :=
  forM l (fun q => do! _ := serve env (fst q) (snd q) in skip).
