(* ===== verification/ApiFrame.v ===== *)
(** What the requests of the web service leave alone: a predicate that the
    statements on some tables keep is kept by every request that changes these
    tables only ([handler_keeps]).  With it, the keys of the tables stay in
    order whatever is asked ([keys_kept]), and a request changes no table but
    those of its [footprint]. *)
From S2P Require Import Prelude.
From S2P Require Export ApiServe.

Create HintDb api.

(** * What is said of handlers

    [J m] is a property of a handler [m] that holds of the statements (on the
    tables of [T], where they write) and that sequences keep.  Such a property
    holds of every handler ([handler_has]). *)

(** An update that leaves the ids of the rows it is about. *)
Definition keeps_pk (t : tbl) (v : row t) (p : row t -> bool) (f : row t -> row t) : Prop :=
  forall r, whereSQL t v p r = true -> pk t (f r) = pk t r.

Class Logic (env : ApiEnv) (T : list tbl) (J : forall X, Ap X -> Prop) : Prop := {
  J_ret X (a : X) : J X (ret a);
  J_then X Y (m : Ap X) (k : X -> Ap Y) : J X m -> (forall a, J Y (k a)) -> J Y (mthen m k);
  J_gets X (f : Api -> X) : J X (gets f);
  J_stmt h : J _ (stmt env h);
  J_raw t text : J _ (raw_all env t text);
  J_RedisGet k : J _ (RedisGet env k);
  J_RedisSet k v : J _ (RedisSet env k v);
  J_create h t v : t ∈ T -> J _ (create env h t v);
  J_delete h t v p : t ∈ T -> J _ (delete_rows env h t v p);
  J_update h t v p f : t ∈ T -> keeps_pk t v p f -> J _ (update env h t v p f) }.

(** What a request with a transaction needs too. *)
Record TxLogic (env : ApiEnv) (J : forall X, Ap X -> Prop) : Prop := {
  J_Begin : J _ (Begin env);
  J_Rollback : J _ Rollback;
  J_Commit : J _ (Commit env) }.

(** The tables a request changes. *)
Definition footprint (r : request) : list tbl :=
  match r with
  | RLogout => [TSession]
  | RCreateUser _ | RUpdateCurrentUser _ | RChangePassword _ | RChangeRoleOfUser _ | RAdminChangePassword _ | RAdminChangeUserProfile _
  | RAdminUserDelete _ => [TUser]
  | RCreateTeam _ | RUpdateTeam _ | RDeleteTeam _ => [TTeam; TRel]
  | RCreateTemplate _ | RUpdateTemplate _ => [TTpl]
  | RDeleteTemplate _ => [TTpl; TAction; TStrategy; TGrpTpl]
  | RCreateActionToTmplate _ => [TAction; TTpl]
  | RUpdateActionToTmplate _ => [TAction]
  | RCreateStrategy _ | RUpdateStrategy _ | RDeleteStrategy _ => [TStrategy]
  | RCreateExrpession _ | RUpdateExrpession _ | RDeleteExpression _ => [TExpression; TAction]
  | RCreateNoData _ | RUpdateNoData _ | RDeleteNoData _ => [TMockcfg]
  | RCrateHostGroup _ | RPutHostGroup _ => [TGrp]
  | RBindHostToHostGroup _ | RPatchHostGroupHost _ _ => [THost; TGrpHost]
  | RUnBindAHostToHostGroup _ => [TGrpHost]
  | RDeleteHostGroup _ => [TGrp; TGrpHost; TPlugin; TCluster]
  | RCreatePlugin _ | RDeletePlugin _ => [TPlugin]
  | RCreateAggregator _ | RUpdateAggregator _ | RDeleteAggregator _ => [TCluster]
  | RBindTemplateToGroup _ | RUnBindTemplateToGroup _ => [TGrpTpl]
  | RSetMaintain _ | RUnsetMaintain _ => [THost]
  | RDashboardTmpGraphCreate _ => [TTmp]
  | RDashboardGraphCreate _ | RDashboardGraphUpdate _ _ | RDashboardGraphDelete _ => [TGraph]
  | RScreenCreate _ _ | RScreenDelete _ | RScreenUpdate _ _ _ => [TScreen]
  | _ => []
  end.
(** The requests that open a transaction. *)
Definition transactional (r : request) : bool :=
  match r with
  | RBindHostToHostGroup _ | RPatchHostGroupHost _ _ | RDeleteHostGroup _ | RDeleteTemplate _ | RCreateActionToTmplate _ | RUpdateActionToTmplate _
  | RCreateExrpession _ | RUpdateExrpession _ | RDeleteExpression _ | RDashboardGraphCreate _ => true
  | _ => false
  end.

Section logic.
Context (env : ApiEnv) (tok : token) (T : list tbl) (J : forall X, Ap X -> Prop) {L : Logic env T J}.

(** Go through a handler: statements one after another, every case of a test. *)
Ltac in_T := solve [repeat (first [done | by left | right]) | auto].
Ltac step :=
  match goal with
  | |- J _ (mthen _ _) => apply J_then; [|intros ?]
  | |- J _ (ret _) => apply J_ret
  | |- J _ (gets _) => apply J_gets
  | |- J _ (let _ := _ in _) => cbv zeta
  | |- J _ (match ?x with _ => _ end) => destruct x
  | |- J _ (stmt _ _) => apply J_stmt
  | |- J _ (raw_all _ _ _) => apply J_raw
  | |- J _ (RedisGet _ _) => apply J_RedisGet
  | |- J _ (RedisSet _ _ _) => apply J_RedisSet
  | |- J _ (create _ _ _ _) => apply J_create; in_T
  | |- J _ (delete_rows _ _ _ _ _) => apply J_delete; in_T
  | |- J _ (update _ _ _ _ _ _) => apply J_update; [in_T|by intros ? ?]
  | |- J _ _ => solve [eauto with api]
  end.
Ltac go := repeat step.

Lemma J_find_one h t v p : J _ (find_one env h t v p).
Proof using L. unfold find_one, select. go. Qed.
Lemma J_find_all h t p : J _ (find_all env h t p).
Proof using L. unfold find_all, select. go. Qed.
Lemma J_find_first h t v p : J _ (find_first env h t v p).
Proof using L. unfold find_first, select. go. Qed.
#[local] Hint Resolve J_find_one J_find_all J_find_first : api.

Lemma J_save h t v : t ∈ T -> J _ (save env h t v).
Proof using L.
  intros Ht. unfold save. destruct (PrimaryKeyZero t v) eqn:Z; [go|]. apply J_then; [|intros [n [e|]]; go].
  apply J_update; [done|]. intros r H. unfold whereSQL, same_pk in H. rewrite Z in H. cbn in H.
  destruct (pk t v), (pk t r); try done. apply andb_true_iff in H as [H _]. by apply Z.eqb_eq in H as ->.
Qed.
#[local] Hint Extern 1 (J _ (save _ _ _ _)) => apply J_save; in_T : api.

(** Helpers of the handlers. *)
Lemma J_GetUser : J _ (h_GetUser env tok).
Proof using L. unfold h_GetUser. go. Qed.
Lemma J_session : J _ (SessionChecking env tok).
Proof using L. unfold SessionChecking. go. Qed.
Lemma J_new_session u : J _ (new_session env u).
Proof using L. unfold new_session. go. Qed.
#[local] Hint Resolve J_GetUser J_session J_new_session : api.
Lemma J_may_sign_up : J _ (may_sign_up env tok).
Proof using L. unfold may_sign_up. go. Qed.
Lemma J_describe l o : J _ (describe_teams env l o).
Proof using L. revert o; induction l as [|t l IH]; intros o; cbn [describe_teams]; unfold Team_Members, Team_GetCreatorName; go. Qed.
Lemma J_find_in t l p : J _ (find_in env t l p).
Proof using L. unfold find_in. go. Qed.
Lemma J_hosts_of q l a : J _ (hosts_of env q l a).
Proof using L. revert a; induction l; intros a'; cbn [hosts_of]; go. Qed.
Lemma J_FindParentName t : J _ (FindParentName env t).
Proof using L. unfold FindParentName. go. Qed.
#[local] Hint Resolve J_may_sign_up J_describe J_find_in J_hosts_of J_FindParentName : api.
Lemma J_with_parents l o : J _ (with_parents env l o).
Proof using L. revert o; induction l; intros o; cbn [with_parents]; go. Qed.
Lemma J_must_own u g c b : J _ (must_own env u g c b).
Proof using L. unfold must_own. go. Qed.
Lemma J_must_own_or_made u g m b : J _ (must_own_or_made env u g m b).
Proof using L. unfold must_own_or_made. go. Qed.
Lemma J_RelatedGrp h : J _ (RelatedGrp env h).
Proof using L. unfold RelatedGrp. go. Qed.
Lemma J_add_members tid l : TRel ∈ T -> J _ (add_members env tid l).
Proof using L. intros Ht. induction l; cbn [add_members]; go. Qed.
Lemma J_drop_members l : TRel ∈ T -> J _ (drop_members env l).
Proof using L. intros Ht. induction l; cbn [drop_members]; go. Qed.
Lemma J_bind_members tid l : TRel ∈ T -> J _ (bind_members env tid l).
Proof using L. intros Ht. induction l; cbn [bind_members]; go. Qed.
Lemma J_host_id x : THost ∈ T -> J _ (host_id env x).
Proof using L. intros Ht. unfold host_id, Host_Existing. go. Qed.
#[local] Hint Resolve J_with_parents J_must_own J_must_own_or_made J_RelatedGrp J_add_members J_drop_members J_bind_members J_host_id : api.

(** * Every handler *)

Ltac split_footprint :=
  repeat match goal with H : forall t, t ∈ ?t0 :: ?l -> t ∈ T |- _ =>
    assert (t0 ∈ T) by (apply H; left); assert (forall t, t ∈ l -> t ∈ T) by (intros ? ?; apply H; by right); clear H end.

Lemma handler_has_plain r : (forall t, t ∈ footprint r -> t ∈ T) -> transactional r = false -> J _ (handler env tok r).
Proof using L.
  intros HT Hr. destruct r; try discriminate Hr; clear Hr; cbn [handler footprint] in *; split_footprint.
  all: try (unfold AuthSession, Login, Logout, CreateUser, UserInfo, GetUser, GetUserByName, UpdateCurrentUser, ChangePassword, change_password,
    UserList, IsUserInTeams, GetUserTeams, ChangeRoleOfUser, AdminChangePassword, AdminChangeUserProfile, AdminUserDelete; go; fail).
  all: try (unfold Teams, GetTeamDict, GetTeam, GetTeamByName, CreateTeam, UpdateTeam, DeleteTeam, may_update, delete_team, team_and_users, bindUsers;
    go; fail).
  all: try (unfold GetTemplates, GetTemplatesSimple, CreateTemplate, GetATemplate, UpdateTemplate, GetATemplateHostgroup,
    GetActionByID, GetHostGroupByTplidAndEndpoint, GetStrategys, GetStrategy, CreateStrategy, UpdateStrategy, DeleteStrategy; go; fail).
  all: try (unfold GetExpressionList, GetExpression, GetNoDataList, GetNoData, CreateNoData, UpdateNoData, DeleteNoData; go; fail).
  all: try (unfold GetHostGroups, CrateHostGroup, UnBindAHostToHostGroup, GetHostGroup, GetHostGroupSimple, GetHostGroupHosts, PutHostGroup, host_names;
    go; fail).
  all: try (unfold DashboardTmpGraphCreate, DashboardTmpGraphQuery, DashboardGraphUpdate, DashboardGraphGet, DashboardGraphDelete,
    DashboardGraphGetsByScreenID, ScreenCreate, GetScreens, ScreenGet, ScreenGetsByPid, ScreenGetsByName, ScreenGetsAll, ScreenDelete, ScreenUpdate,
    pluck_screen; go; fail).
  all: unfold GetPluginOfGrp, CreatePlugin, DeletePlugin, GetAggregatorListOfGrp, HostGroupName, GetAggregator, CreateAggregator, UpdateAggregator,
    DeleteAggregator, BindTemplateToGroup, UnBindTemplateToGroup, GetTemplateOfHostGroup, GetTplsRelatedHost, RelatedTpl, GetGrpsRelatedHost, SetMaintain,
    UnsetMaintain, maintain; go.
Qed.

Section transactions.
Context (TL : TxLogic env J).
#[local] Hint Extern 1 (J _ (Begin _)) => apply (J_Begin _ _ TL) : api.
#[local] Hint Extern 1 (J _ Rollback) => apply (J_Rollback _ _ TL) : api.
#[local] Hint Extern 1 (J _ (Commit _)) => apply (J_Commit _ _ TL) : api.

Lemma J_tx_delete t v p c b k : t ∈ T -> J _ k -> J _ (tx_delete env t v p c b k).
Proof using L TL. intros Ht Hk. unfold tx_delete. go. Qed.
Lemma J_bind_each g l ids : THost ∈ T -> TGrpHost ∈ T -> J _ (bind_each env g l ids).
Proof using L TL. intros Ht Hg. revert ids; induction l; intros ids; cbn [bind_each]; go. Qed.
Lemma J_add_each g l a b : THost ∈ T -> TGrpHost ∈ T -> J _ (add_each env g l a b).
Proof using L TL. intros Ht Hg. revert a b; induction l; intros; cbn [add_each]; unfold GrpHost_Existing; go. Qed.
Lemma J_remove_each g l a : TGrpHost ∈ T -> J _ (remove_each env g l a).
Proof using L TL. intros Hg. revert a; induction l; intros; cbn [remove_each]; unfold Host_Existing; go. Qed.
#[local] Hint Resolve J_bind_each J_add_each J_remove_each : api.

(** A request has what the statements on its tables have; the answer that makes [CreateActionToTmplate] panic is looked at apart. *)
Lemma handler_has r : (forall t, t ∈ footprint r -> t ∈ T) ->
  (forall i, r = RCreateActionToTmplate i -> J _ (CreateActionToTmplate env i)) -> J _ (handler env tok r).
Proof using L TL.
  intros HT Ha. destruct (transactional r) eqn:Hr; [|by apply handler_has_plain].
  destruct r; try discriminate Hr; clear Hr; cbn [handler footprint] in *; split_footprint;
    first [by eapply Ha|clear Ha];
    unfold BindHostToHostGroup, DeleteHostGroup, PatchHostGroupHost, bindHostToHostGroup, unbindHostToHostGroup, DeleteTemplate,
      UpdateActionToTmplate, CreateExrpession, UpdateExrpession, update_action, DeleteExpression, DashboardGraphCreate;
    repeat (first [match goal with |- J _ (tx_delete _ _ _ _ _ _ _) => apply J_tx_delete; [in_T|] end | step]).
Qed.
End transactions.

(** The session is checked first. *)
Lemma serve_has r : J _ (handler env tok r) -> J _ (serve env tok r).
Proof using L. intros H. unfold serve, AuthSessionMidd. go. Qed.
End logic.

(** * Predicates that are kept *)

(** What a predicate has to put up with when nothing is written. *)
Class Steady (P : Api -> Prop) := {
  steady_tick s : P s -> P (a_tick s);
  steady_redis v s : P s -> P (a_set_redis v s) }.

Lemma stmt_keeps env P {ST : Steady P} h : keeps P (stmt env h).
Proof. intros s e s' Hs. unfold stmt. destruct h, (api_tx s); intros [= <- <-]; first [done | by apply steady_tick]. Qed.

(** A predicate that the statements on the tables of [T] keep. *)
Record Kept (env : ApiEnv) (T : list tbl) (P : Api -> Prop) : Prop := {
  kept_create h t v : t ∈ T -> keeps P (create env h t v);
  kept_delete h t v p : t ∈ T -> keeps P (delete_rows env h t v p);
  kept_update h t v p f : t ∈ T -> keeps_pk t v p f -> keeps P (update env h t v p f) }.

Lemma keeps_logic env T P {ST : Steady P} : Kept env T P -> Logic env T (fun X => keeps P).
Proof.
  intros K. split; [intros; apply keeps_ret|intros; by apply keeps_then|intros; apply keeps_gets|by apply stmt_keeps| | | |apply K..].
  - intros t text s a s' Hs. unfold raw_all. destruct (e_raw _ _ _ _); intros [= <- <-]; by apply steady_tick.
  - intros k s a s' Hs [= <- <-]. by apply steady_tick.
  - intros k v s a s' Hs. unfold RedisSet. destruct (e_redis _ _); intros [= <- <-]; [by apply steady_tick|].
    apply (steady_redis (<[k := v]> (api_redis s)) (a_tick s)). by apply steady_tick.
Qed.

(** Requests keep what the statements on their tables keep. *)
Lemma serve_keeps env tok T P {ST : Steady P} r :
  Kept env T P -> TxLogic env (fun X => keeps P) -> (forall t, t ∈ footprint r -> t ∈ T) -> keeps P (serve env tok r).
Proof.
  intros K TL HT. pose proof (keeps_logic env T P K) as L. apply (serve_has env tok T (fun X => keeps P)). apply (handler_has env tok T (fun X => keeps P) TL); [done|].
  intros i ->. unfold CreateActionToTmplate. destruct i as [[i tplId]|]; [|apply keeps_ret]. destruct (tplId =? 0)%Z; [apply keeps_ret|].
  apply keeps_then; [apply (J_Begin _ _ TL)|intros _]. apply keeps_then; [apply (J_save env T (fun X => keeps P)), HT; by left|].
  intros [action [e|]]; [apply keeps_then; [apply (J_Rollback _ _ TL)|intros; apply keeps_ret]|].
  apply keeps_then; [by apply stmt_keeps|]. intros [?|]; [apply keeps_lift|]. apply keeps_then; [apply (J_find_one env T (fun X => keeps P))|].
  intros [tpl [e|]]; [apply keeps_then; [apply (J_Rollback _ _ TL)|intros; apply keeps_ret]|].
  apply keeps_then; [apply (kept_update _ _ _ K); [apply HT; right; by left|by intros ? ?]|].
  intros [n [e|]]; (apply keeps_then; [first [apply (J_Rollback _ _ TL) | apply (J_Commit _ _ TL)]|intros; apply keeps_ret]).
Qed.

(** * Tables that are not touched *)

Lemma set_rows_same t l d : set_rows t l d t = l.
Proof. unfold set_rows. destruct (decide (t = t)) as [e|]; [|done]. by rewrite (Eqdep_dec.UIP_dec tbl_eq_dec e eq_refl). Qed.
Lemma set_rows_other t t' l d : t <> t' -> set_rows t l d t' = d t'.
Proof. intros H. unfold set_rows. by destruct (decide (t = t')). Qed.

(** What is seen of the tables stays, in them and in an open transaction. *)
Definition still {X} (obs : Db -> X) (x : X) (s : Api) : Prop :=
  obs (api_db s) = x /\ match api_tx s with OpenTx d => obs d = x | _ => True end.
#[export] Instance still_steady {X} (obs : Db -> X) x : Steady (still obs x).
Proof. by split; intros. Qed.

Lemma put_keeps {X} (obs : Db -> X) x h f : (forall d, obs (f d) = obs d) -> keeps (still obs x) (modify (put h f)).
Proof.
  intros Hf s a s' [Hd Ht] [= <- <-]. unfold put, still. destruct h, (api_tx s) eqn:E; cbn; rewrite ?E, ?Hf; try done; by rewrite <- Hd, Hf.
Qed.
Lemma assign_keeps {X} (obs : Db -> X) x t v : keeps (still obs x) (assign_id t v).
Proof.
  intros s a s' Hs. unfold assign_id. destruct (pk t v) as [i|]; [|by intros [= <- <-]].
  destruct (i =? 0)%Z; intros [= <- <-]; exact Hs.
Qed.

(** An observation that does not look at the tables of [T]. *)
Definition blind {X} (obs : Db -> X) (T : list tbl) : Prop := forall t l d, t ∈ T -> obs (set_rows t l d) = obs d.

Ltac keeps_if := match goal with |- keeps _ (if ?b then _ else _) => destruct b end.
Lemma still_kept env T {X} (obs : Db -> X) x : blind obs T -> Kept env T (still obs x).
Proof.
  intros HB. split.
  - intros h t v Ht. unfold create. apply keeps_then; [by apply stmt_keeps, _|]. intros [e|]; [apply keeps_ret|].
    apply keeps_then; [apply assign_keeps|]. intros v'. apply keeps_then; [apply keeps_gets|]. intros ds. keeps_if; [apply keeps_ret|].
    apply keeps_then; [|intros; apply keeps_ret]. apply put_keeps. intros d. by apply HB.
  - intros h t v p Ht. unfold delete_rows. apply keeps_then; [by apply stmt_keeps, _|]. intros [e|]; [apply keeps_ret|].
    apply keeps_then; [apply keeps_gets|]. intros d0. apply keeps_then; [|intros; apply keeps_ret]. apply put_keeps. intros d. by apply HB.
  - intros h t v p f Ht _. unfold update. apply keeps_then; [by apply stmt_keeps, _|]. intros [e|]; [apply keeps_ret|].
    apply keeps_then; [apply keeps_gets|]. intros ds. apply keeps_then; [apply keeps_gets|]. intros d0. keeps_if; [|apply keeps_ret].
    apply keeps_then; [|intros; apply keeps_ret]. apply put_keeps. intros d. by apply HB.
Qed.
Lemma still_tx env {X} (obs : Db -> X) x : TxLogic env (fun X => keeps (still obs x)).
Proof.
  split.
  - intros s a s' [Hd _]. unfold Begin. destruct (e_sql env (api_tick s)); intros [= <- <-]; by split.
  - intros s a s' [Hd Ht]. unfold Rollback. destruct (api_tx s) eqn:E; intros [= <- <-]; by split.
  - intros s a s' [Hd Ht]. unfold Commit. destruct (api_tx s) eqn:E; [intros [= <- <-]; by split; [|rewrite E]| |done].
    destruct (e_sql env (api_tick s)); intros [= <- <-]; by split.
Qed.

Lemma serve_still env tok r {X} (obs : Db -> X) s a s' :
  blind obs (footprint r) -> api_tx s = NoTx -> serve env tok r s = Ret (a, s') -> obs (api_db s') = obs (api_db s).
Proof.
  intros HB Ht Hr. assert (still obs (obs (api_db s)) s) as H0 by (by split; [|rewrite Ht]).
  by destruct (serve_keeps env tok (footprint r) (still obs (obs (api_db s))) r (still_kept _ _ _ _ HB) (still_tx _ _ _) (fun _ H => H) s a s' H0 Hr).
Qed.
Lemma table_blind t T : t ∉ T -> blind (fun d => d t) T.
Proof. intros H t' l d Ht. apply set_rows_other. by intros ->. Qed.

(** * The keys of the tables *)

Section keys.
Context (env : ApiEnv).

(** Ids and the entries of the unique indexes are different from row to row, and the counter is above the ids. *)
Definition below (t : tbl) (n : Z) (r : row t) : Prop := match pk t r with Some i => (i < n)%Z | None => True end.
Definition keys_ok (n : tbl -> Z) (d : Db) : Prop := forall t, indexed env t (d t) = true /\ Forall (below t (n t)) (d t).
Definition ordered (s : Api) : Prop :=
  keys_ok (api_next s) (api_db s) /\ match api_tx s with OpenTx d => keys_ok (api_next s) d | _ => True end.

#[export] Instance ordered_steady : Steady ordered.
Proof. by split; intros. Qed.

Lemma indexed_spec t l : indexed env t l = true <-> NoDup (omap (pk t) l) /\ NoDup (omap (key_of env t) l).
Proof. unfold indexed. by rewrite andb_true_iff, !bool_decide_eq_true. Qed.

Lemma omap_filter_sublist {A B} (g : A -> option B) (q : A -> bool) l : sublist (omap g (List.filter q l)) (omap g l).
Proof.
  induction l as [|a l IH]; [done|]. cbn [List.filter]. destruct (q a); cbn; destruct (g a); try done; [by apply sublist_skip|by apply sublist_cons].
Qed.

Lemma keys_delete n d t q : keys_ok n d -> keys_ok n (set_rows t (List.filter q (d t)) d).
Proof.
  intros H t'. destruct (decide (t = t')) as [<-|Hne]; [|by rewrite set_rows_other].
  rewrite set_rows_same. destruct (H t) as [[H1 H2]%indexed_spec HF]. split.
  - apply indexed_spec. split; (eapply sublist_NoDup; [|apply omap_filter_sublist]; done).
  - apply Forall_forall. intros r [Hr _]%list_elem_of_In%filter_In. rewrite Forall_forall in HF. apply HF. by apply list_elem_of_In.
Qed.

Lemma updated_in t v p f l r' : r' ∈ updated t v p f l -> exists r, r ∈ l /\ r' = if whereSQL t v p r then f r else r.
Proof. unfold updated. rewrite list_elem_of_In, in_map_iff. intros (r & <- & Hr). exists r. by rewrite list_elem_of_In. Qed.
Lemma keys_update n d t v p f :
  keeps_pk t v p f -> indexed env t (updated t v p f (d t)) = true -> keys_ok n d -> keys_ok n (set_rows t (updated t v p f (d t)) d).
Proof.
  intros Hpk Hi H t'. destruct (decide (t = t')) as [<-|Hne]; [|by rewrite set_rows_other].
  rewrite set_rows_same. split; [done|]. destruct (H t) as [_ HF]. apply Forall_forall. intros r' (r & Hr & ->)%updated_in.
  rewrite Forall_forall in HF. specialize (HF r Hr). destruct (whereSQL t v p r) eqn:E; [|done]. unfold below. by rewrite (Hpk r E).
Qed.

Lemma clash_free t v l : existsb (clashes env t v) l = false ->
  (forall i, pk t v = Some i -> i ∉ omap (pk t) l) /\ (forall k, key_of env t v = Some k -> k ∉ omap (key_of env t) l).
Proof.
  intros H. assert (forall r, r ∈ l -> clashes env t v r = false) as Hr.
  { intros r Hr. destruct (clashes env t v r) eqn:E; [|done]. rewrite <- H. symmetry. apply existsb_exists. exists r. by rewrite <- list_elem_of_In. }
  split; intros x Hx (r & Hin & Hk)%list_elem_of_omap; specialize (Hr r Hin); unfold clashes, same_pk in Hr;
    apply orb_false_iff in Hr as [H1 H2]; rewrite Hx, Hk in *; [by rewrite Z.eqb_refl in H1|by rewrite String.eqb_refl in H2].
Qed.

Lemma keys_create n d t v :
  below t (n t) v -> existsb (clashes env t v) (d t) = false -> keys_ok n d -> keys_ok n (set_rows t (d t ++ [v])%list d).
Proof.
  intros Hb [Hp Hk]%clash_free H t'. destruct (decide (t = t')) as [<-|Hne]; [|by rewrite set_rows_other].
  rewrite set_rows_same. destruct (H t) as [[H1 H2]%indexed_spec HF]. split; [|by rewrite Forall_app, Forall_singleton].
  apply indexed_spec. rewrite !omap_app. cbn. split.
  - destruct (pk t v); [|by rewrite app_nil_r]. apply NoDup_app. split; [done|]. split; [|apply NoDup_singleton].
    intros x Hx ->%list_elem_of_singleton. by eapply Hp.
  - destruct (key_of env t v); [|by rewrite app_nil_r]. apply NoDup_app. split; [done|]. split; [|apply NoDup_singleton].
    intros x Hx ->%list_elem_of_singleton. by eapply Hk.
Qed.

Lemma keys_grow n m d : (forall t, (n t <= m t)%Z) -> keys_ok n d -> keys_ok m d.
Proof.
  intros Hnm H t. destruct (H t) as [Hi HF]. split; [done|]. eapply Forall_impl; [exact HF|]. intros r. unfold below. specialize (Hnm t). destruct (pk t r); lia || done.
Qed.

Lemma set_pk_pk t i v : pk t v = None \/ pk t (set_pk t i v) = Some i.
Proof. destruct t; cbn; auto. Qed.
Lemma set_pk_key t i v : unique t (set_pk t i v) = unique t v.
Proof. by destruct t. Qed.

(** What a new row becomes: its id is below the counter. *)
Lemma assign_id_spec t v s v' s' : assign_id t v s = Ret (v', s') ->
  exists n, s' = a_set_next n s /\ below t (n t) v' /\ key_of env t v' = key_of env t v /\ forall t', (api_next s t' <= n t')%Z.
Proof.
  unfold assign_id, below, key_of. destruct (pk t v) as [i|] eqn:Ei.
  - destruct (Z.eqb_spec i 0); intros [= <- <-]; (eexists; split; [reflexivity|]); cbn; rewrite decide_True by done.
    + rewrite set_pk_key. split; [destruct (set_pk_pk t (api_next s t) v) as [?| ->]; [congruence|lia]|]. split; [done|].
      intros t'. destruct (decide (t = t')) as [<-|]; lia.
    + rewrite Ei. split; [lia|]. split; [done|]. intros t'. destruct (decide (t = t')) as [<-|]; lia.
  - intros [= <- <-]. exists (api_next s). rewrite Ei. split; [by destruct s|]. done.
Qed.

(** The tables a statement changes are among those it has looked at. *)
Lemma put_ordered h f s : ordered s ->
  (forall d, d ∈ all_seen h s -> keys_ok (api_next s) d -> keys_ok (api_next s) (f d)) -> ordered (put h f s).
Proof.
  intros [Hd Ht] Hf. unfold ordered, put. unfold all_seen in Hf. destruct h, (api_tx s) as [|d|] eqn:E; cbn; rewrite ?E;
    (split; [|done || (apply Hf; [set_solver|done])]); done || (apply Hf; [set_solver|done]).
Qed.

Lemma ordered_kept T : Kept env T ordered.
Proof.
  split.
  - intros h t v _. unfold create. apply keeps_then; [by apply stmt_keeps, _|]. intros [e|]; [apply keeps_ret|].
    intros s a s' Hs H. apply mthen_inv in H as (v' & s1 & E & H). apply assign_id_spec in E as (n & -> & Hb & _ & Hn).
    set (s1' := a_set_next n s) in *. assert (ordered s1') as H1.
    { destruct Hs as [Hd Ht]. split; cbn; [by eapply keys_grow|]. destruct (api_tx s); try done. by eapply keys_grow. }
    clear Hs Hn. apply mthen_inv in H as (ds & s2 & [= <- <-] & H). destruct (existsb (fun d => existsb (clashes env t v') (d t)) (all_seen h s1')) eqn:Ec; [by injection H as <- <-|].
    apply mthen_inv in H as (u & s3 & [= <- <-] & [= <- <-]). apply put_ordered; [done|]. intros d Hd Hok. apply keys_create; [exact Hb| |done].
    destruct (existsb (clashes env t v') (d t)) eqn:Ed; [|done]. rewrite <- Ec. symmetry. apply existsb_exists. exists d. by rewrite <- list_elem_of_In.
  - intros h t v p _. unfold delete_rows. apply keeps_then; [by apply stmt_keeps, _|]. intros [e|]; [apply keeps_ret|].
    apply keeps_then; [apply keeps_gets|]. intros d0. apply keeps_then; [|intros; apply keeps_ret]. intros s u s' Hs [= <- <-]. apply put_ordered; [done|]. intros d _ Hd. by apply keys_delete.
  - intros h t v p f _ Hpk. unfold update. apply keeps_then; [by apply stmt_keeps, _|]. intros [e|]; [apply keeps_ret|].
    intros s a s' Hs H. apply mthen_inv in H as (ds & s2 & [= <- <-] & H). apply mthen_inv in H as (d0 & s2 & [= <- <-] & H).
    destruct (forallb (fun d => indexed env t (updated t v p f (d t))) (all_seen h s)) eqn:Ea; [|by injection H as <- <-]. apply mthen_inv in H as (u & s3 & [= <- <-] & [= <- <-]).
    apply put_ordered; [done|]. intros d Hd Hok. apply keys_update; [done| |done]. rewrite forallb_forall in Ea. apply Ea. by apply list_elem_of_In.
Qed.
Lemma ordered_tx : TxLogic env (fun X => keeps ordered).
Proof.
  split.
  - intros s a s' [Hd _]. unfold Begin. destruct (e_sql env (api_tick s)); intros [= <- <-]; by split.
  - intros s a s' [Hd Ht]. unfold Rollback. destruct (api_tx s) eqn:E; intros [= <- <-]; by split.
  - intros s a s' [Hd Ht]. unfold Commit. destruct (api_tx s) eqn:E; [intros [= <- <-]; by split; [|rewrite E]| |done].
    destruct (e_sql env (api_tick s)); intros [= <- <-]; by split.
Qed.

End keys.
