(* ===== verification/ApiThms.v ===== *)
(** What every request of the web service has in common: once it is answered it
    leaves no transaction behind ([requests_settle]), the tables stay what the
    indexes of MySQL make of them ([tables_stay_ordered]), and a request
    changes no table but those of its footprint ([requests_touch]). *)
From S2P Require Import Prelude GoStr.
From S2P Require Export ApiFrame.

Local Open Scope string_scope.

(** * A small service to evaluate requests in

    Two users, one of them an administrator, a group with one of two hosts, a
    team, and a template with its strategies, its action and its binding;
    nothing is refused. *)
Definition demo_env : ApiEnv :=
  mkApiEnv (fun _ => None) (fun n => Z.of_nat n) (fun _ _ l => l) (fun s => s) (fun _ _ => true) (fun _ _ _ => inl []) (fun _ => None) (fun _ => "sig1") "" "salt" "" true false false.
Definition demo_db : Db := fun t =>
  match t return list (row t) with
  | TUser => [mkPUser 1 "alice" "Alice" "" "" "" "" "" 0; mkPUser 2 "root" "" "" "" "" "" "" 2; mkPUser 3 "bob" "" "" "" "" "" "" 0]
  | TGrp => [mkHostGroup 1 "web" "alice" 1; mkHostGroup 2 "db" "root" 1]
  | THost => [mkPHost 1 "w1" "" "" "" 0 0; mkPHost 2 "w2" "" "" "" 0 0]
  | TGrpHost => [mkGrpHost 1 1; mkGrpHost 2 2]
  | TTpl => [mkPTemplate 1 "base" 0 1 "root"; mkPTemplate 2 "disk" 1 0 "root"]
  | TGrpTpl => [mkGrpTpl 1 1 "alice"; mkGrpTpl 2 2 "root"]
  | TAction => [mkPAction 1 "ops" "" "" 0 0 0 0 0; mkPAction 2 "" "" "" 0 0 0 0 0]
  | TStrategy => [mkPStrategy 1 "cpu.idle" "" 3 0 "all(#3)" "<" "10" "" "" "" 1; mkPStrategy 2 "df" "" 3 0 "all(#3)" ">" "90" "" "" "" 2]
  | TTeam => [mkTeam 1 "ops" "" 1; mkTeam 2 "dba" "" 2]
  | TRel => [mkRel 1 1 1; mkRel 2 1 3; mkRel 3 2 2]
  | _ => []
  end.
Definition demo_api : Api := mkApi demo_db NoTx (fun _ => 10%Z) {[ "user_sig_alice" := mkSession 0 1 "s1" 0 ]} 0.
Definition alice : token := Token "alice" "s1".
(** Go on with what a run of a demo gives. *)
Ltac demo_run r a s E :=
  destruct r as [[a s]|] eqn:E; [|vm_compute in E; discriminate E].

Lemma demo_ordered : ordered demo_env demo_api.
Proof. split; [|done]. intros t. split; [by destruct t; vm_compute|]. by destruct t; repeat constructor. Qed.
Lemma demo_permutes : forall n R l, Permutation (e_order demo_env n R l) l.
Proof. done. Qed.

(** * No transaction is left open *)

(** No transaction is open, and none failed to open. *)
Definition closed (s : Api) : Prop := api_tx s = NoTx.
#[export] Instance closed_steady : Steady closed.
Proof. by split; intros. Qed.

Lemma put_tx h f s : match api_tx s with OpenTx _ => exists d, api_tx (put h f s) = OpenTx d | t => api_tx (put h f s) = t end.
Proof. unfold put. destruct h, (api_tx s) eqn:E; cbn; eauto. Qed.
Lemma put_keeps_closed h f : keeps closed (modify (put h f)).
Proof. intros s a s' Hs [= <- <-]. unfold closed in *. pose proof (put_tx h f s) as H. by rewrite Hs in H. Qed.
Lemma assign_keeps_tx t v s v' s' : assign_id t v s = Ret (v', s') -> api_tx s' = api_tx s.
Proof. unfold assign_id. destruct (pk t v) as [i|]; [destruct (i =? 0)%Z|]; by intros [= <- <-]. Qed.

(** The statements that write, for a predicate that [put] and the counters leave. *)
Lemma kept_by_put env T P {ST : Steady P} :
  (forall h f, keeps P (modify (put h f))) -> (forall n s, P s -> P (a_set_next n s)) -> Kept env T P.
Proof.
  intros Hput Hnext. split.
  - intros h t v _. unfold create. apply keeps_then; [by apply stmt_keeps|]. intros [e|]; [apply keeps_ret|].
    apply keeps_then; [intros s a s' Hs (n & -> & _)%(assign_id_spec env); by apply Hnext|]. intros v'. apply keeps_then; [apply keeps_gets|].
    intros ds. keeps_if; [apply keeps_ret|]. apply keeps_then; [apply Hput|intros; apply keeps_ret].
  - intros h t v p _. unfold delete_rows. apply keeps_then; [by apply stmt_keeps|]. intros [e|]; [apply keeps_ret|].
    apply keeps_then; [apply keeps_gets|]. intros d0. apply keeps_then; [apply Hput|intros; apply keeps_ret].
  - intros h t v p f _ _. unfold update. apply keeps_then; [by apply stmt_keeps|]. intros [e|]; [apply keeps_ret|].
    apply keeps_then; [apply keeps_gets|]. intros ds. apply keeps_then; [apply keeps_gets|]. intros d0. keeps_if; [|apply keeps_ret].
    apply keeps_then; [apply Hput|intros; apply keeps_ret].
Qed.
Lemma closed_kept env T : Kept env T closed.
Proof. apply (kept_by_put env T closed); [apply put_keeps_closed|]. by intros n s. Qed.

(** [m] ends without a transaction, wherever it starts; or does so for the results of [Q]. *)
Definition closing {X} (Q : X -> bool) (m : Ap X) : Prop := forall s a s', m s = Ret (a, s') -> Q a = true -> api_tx s' = NoTx.
Definition always {X} (_ : X) : bool := true.

Lemma closing_then {X Y} Q R (m : Ap X) (k : X -> Ap Y) :
  closing R m -> (forall a, if R a then keeps closed (k a) else closing Q (k a)) -> closing Q (mthen m k).
Proof.
  intros Hm Hk s b s' H HQ. step_inv H. specialize (Hk a). destruct (R a) eqn:E1; [|by eapply Hk]. eapply Hk; [by eapply Hm|exact H].
Qed.
Lemma closing_after {X Y} Q (m : Ap X) (k : X -> Ap Y) : (forall a, closing Q (k a)) -> closing Q (mthen m k).
Proof. intros Hk s b s' H HQ. step_inv H. by eapply Hk. Qed.
Lemma closing_keeps {X} (m : Ap X) : closing always m -> keeps closed m.
Proof. intros H s a s' _ E. by eapply H. Qed.
Lemma closing_Rollback {X} Q (k : Ap X) : keeps closed k -> closing Q (do! _ := Rollback in k).
Proof.
  intros Hk s a s' H _. step_inv H. eapply Hk; [|exact H]. unfold Rollback in E. by destruct (api_tx s); simplify_eq.
Qed.
Lemma closing_Commit {X} Q env (k : Ap X) : keeps closed k -> closing Q (do! _ := Commit env in k).
Proof.
  intros Hk s a s' H _. step_inv H. eapply Hk; [|exact H]. unfold Commit in E. destruct (api_tx s) eqn:Et; simplify_eq; [done|].
  by destruct (e_sql env (api_tick s)).
Qed.
Lemma closing_never {X} (Q : X -> bool) a : Q a = false -> closing Q (ret a).
Proof. by intros H s b s' [= <- <-]; rewrite H. Qed.

Definition is_inr {X Y} (x : X + Y) : bool := match x with inr _ => true | inl _ => false end.

(** Every way through a handler with an open transaction closes it. *)
Ltac closing_step :=
  match goal with
  | |- closing _ (mthen Rollback _) => apply closing_Rollback, keeps_ret
  | |- closing _ (mthen (Commit _) _) => apply closing_Commit, keeps_ret
  | |- closing _ (mthen _ _) => apply closing_after; intros ?
  | |- closing _ (match ?x with _ => _ end) => destruct x
  | |- closing _ (let _ := _ in _) => cbv zeta
  | |- closing _ (ret _) => by apply closing_never
  | |- closing _ (lift _) => by intros ? ? ?
  | |- closing _ (tx_delete _ _ _ _ _ _ _) => unfold tx_delete
  end.

Lemma bind_each_closing env g l ids : closing is_inr (bind_each env g l ids).
Proof. revert ids; induction l as [|x l IH]; intros ids; cbn [bind_each]; repeat closing_step. apply IH. Qed.
Lemma add_each_closing env g l a b : closing is_inr (add_each env g l a b).
Proof. revert a b; induction l as [|x l IH]; intros a b; cbn [add_each]; repeat closing_step; apply IH. Qed.
Lemma remove_each_closing env g l a : closing is_inr (remove_each env g l a).
Proof. revert a; induction l as [|x l IH]; intros a; cbn [remove_each]; repeat closing_step; apply IH. Qed.

Section closing.
Context (env : ApiEnv) (tok : token).
Local Notation keeps_closed := (fun X => keeps closed).
Local Instance closed_logic : Logic env [] keeps_closed := keeps_logic env [] closed (closed_kept env []).

Lemma group_loop_closing {X} (l : Ap (X + answer)) (k : X -> Ap answer) :
  closing is_inr l -> (forall x, closing always (k x)) ->
  closing always (mthen l (fun r => match r with inr a => ret a | inl x => k x end)).
Proof. intros Hl Hk. eapply closing_then; [exact Hl|]. intros [x|a]; cbn; [apply Hk|apply keeps_ret]. Qed.

(** A request with a transaction: what comes before it writes nothing. *)
Lemma transaction_closed r : transactional r = true -> keeps closed (handler env tok r).
Proof.
  intros Hr.
  assert (forall h t v p, keeps closed (find_one env h t v p)) as Hf by (intros; apply (J_find_one env [] keeps_closed)).
  assert (keeps closed (h_GetUser env tok)) as Hu by apply (J_GetUser env tok [] keeps_closed).
  assert (forall u g c b, keeps closed (must_own env u g c b)) as Ho by (intros; apply (J_must_own env [] keeps_closed)).
  destruct r; try discriminate Hr; cbn [handler];
    unfold BindHostToHostGroup, DeleteHostGroup, PatchHostGroupHost, bindHostToHostGroup, unbindHostToHostGroup, DeleteTemplate,
      CreateActionToTmplate, UpdateActionToTmplate, CreateExrpession, UpdateExrpession, update_action, DeleteExpression, DashboardGraphCreate;
    repeat match goal with
    | |- keeps _ (mthen (Begin _) _) => apply closing_keeps, closing_after; intros ?
    | |- keeps _ (mthen _ _) => apply keeps_then; [solve [auto]|intros ?]
    | |- keeps _ (ret _) => apply keeps_ret
    | |- keeps _ (let _ := _ in _) => cbv zeta
    | |- keeps _ (match ?x with _ => _ end) => destruct x
    | |- closing _ (mthen (bind_each _ _ _ _) _) => apply group_loop_closing; [apply bind_each_closing|intros ?]
    | |- closing _ (mthen (add_each _ _ _ _ _) _) => apply group_loop_closing; [apply add_each_closing|intros ?]
    | |- closing _ (mthen (remove_each _ _ _ _) _) => apply group_loop_closing; [apply remove_each_closing|intros ?]
    | _ => closing_step
    end.
Qed.

Lemma serve_closed r : keeps closed (serve env tok r).
Proof.
  apply (serve_has env tok [] keeps_closed). destruct (transactional r) eqn:E; [by apply transaction_closed|].
  pose proof (keeps_logic env (footprint r) closed (closed_kept env _)) as L. by apply (handler_has_plain env tok (footprint r) keeps_closed).
Qed.
End closing.

(** * Every request is answered *)

(** The server opens the transactions that are asked for. *)
Definition opened (s : Api) : Prop := match api_tx s with BrokenTx _ => False | _ => True end.
Definition inside (s : Api) : Prop := match api_tx s with OpenTx _ => True | _ => False end.

Section answered.
Context (env : ApiEnv).

(** A predicate on the transaction is brought through the statements, which return. *)
Lemma runs_logic T (P : Tx -> Prop) :
  (forall d d', P (OpenTx d) -> P (OpenTx d')) -> Logic env T (fun X => runs (fun s => P (api_tx s))).
Proof using Type.
  intros HP.
  assert (forall h, runs (fun s => P (api_tx s)) (stmt env h)) as Hstmt.
  { intros h s Hs. unfold stmt. destruct h, (api_tx s) eqn:E; do 2 eexists; (split; [reflexivity|]); cbn; by rewrite E. }
  assert (forall h f, runs (fun s => P (api_tx s)) (modify (put h f))) as Hput.
  { intros h f s Hs. exists tt, (put h f s). split; [done|]. pose proof (put_tx h f s) as H.
    destruct (api_tx s) eqn:E; [by rewrite H|destruct H as [d' ->]; by eapply HP|by rewrite H]. }
  assert (forall t v, runs (fun s => P (api_tx s)) (assign_id t v)) as Hassign.
  { intros t v s Hs. destruct (assign_id t v s) as [[v' s']|p] eqn:E.
    - exists v', s'. split; [done|]. by rewrite (assign_keeps_tx _ _ _ _ _ E).
    - unfold assign_id in E. destruct (pk t v) as [i|]; [destruct (i =? 0)%Z|]; done. }
  split; [intros; apply runs_ret|intros; by apply runs_then|intros; apply runs_gets|done| | | | | |].
  - intros t text s Hs. unfold raw_all. destruct (e_raw _ _ _ _); do 2 eexists; (split; [reflexivity|done]).
  - intros k s Hs. do 2 eexists. split; [reflexivity|done].
  - intros k v s Hs. unfold RedisSet. destruct (e_redis _ _); do 2 eexists; (split; [reflexivity|done]).
  - intros h t v _. unfold create. apply runs_then; [done|]. intros [e|]; [apply runs_ret|]. apply runs_then; [done|]. intros v'.
    apply runs_then; [apply runs_gets|]. intros ds. match goal with |- runs _ (if ?b then _ else _) => destruct b end; [apply runs_ret|].
    apply runs_then; [done|intros; apply runs_ret].
  - intros h t v p _. unfold delete_rows. apply runs_then; [done|]. intros [e|]; [apply runs_ret|]. apply runs_then; [apply runs_gets|]. intros d0.
    apply runs_then; [done|intros; apply runs_ret].
  - intros h t v p f _ _. unfold update. apply runs_then; [done|]. intros [e|]; [apply runs_ret|]. apply runs_then; [apply runs_gets|]. intros ds.
    apply runs_then; [apply runs_gets|]. intros d0. match goal with |- runs _ (if ?b then _ else _) => destruct b end; [|apply runs_ret].
    apply runs_then; [done|intros; apply runs_ret].
Qed.

(** A request without a transaction is answered whatever the database refuses. *)
Lemma plain_runs tok r : transactional r = false -> runs opened (serve env tok r).
Proof using Type.
  intros Hr. pose proof (runs_logic (footprint r) (fun t => match t with BrokenTx _ => False | _ => True end) (fun _ _ _ => I)) as L.
  apply (serve_has env tok (footprint r) (fun X => runs opened)). by apply (handler_has_plain env tok (footprint r) (fun X => runs opened)).
Qed.

(** The new action is written and the query for its id is refused: the index
    panics, and the transaction is still open then. *)
Lemma action_id_lost i tplId s action s2 : tplId <> 0%Z ->
  (do! _ := Begin env in save env TX TAction (set_pk TAction 0 i)) s = Ret ((action, None), s2) -> e_sql env (api_tick s2) <> None ->
  inside s2 /\ CreateActionToTmplate env (Some (i, tplId)) s = Panic IndexOutOfRange.
Proof using Type.
  intros Ht H He. assert (inside s2) as Hi.
  { apply mthen_inv in H as ([] & s1 & Hb & H). unfold Begin in Hb. injection Hb as <-. destruct (e_sql env (api_tick s)) as [x|].
    - exfalso. revert H. unfold save. cbn [PrimaryKeyZero set_pk]. unfold create, stmt at 1, mthen at 1. cbn. by intros [=].
    - assert (Logic env [TAction] (fun X => runs inside)) as L by by apply (runs_logic _ (fun t => match t with OpenTx _ => True | _ => False end)).
      destruct (J_save env [TAction] (fun X => runs inside) TX TAction (set_pk TAction 0 i) ltac:(by left) (a_set_tx (OpenTx (api_db s)) (a_tick s)) I) as (a & s' & E & Hs').
      rewrite H in E. by injection E as _ <-. }
  split; [done|]. unfold CreateActionToTmplate. destruct (Z.eqb_spec tplId 0); [done|].
  apply mthen_inv in H as ([] & s1 & Hb & H). rewrite (mthen_run _ _ _ _ _ Hb), (mthen_run _ _ _ _ _ H).
  unfold inside in Hi. unfold stmt, mthen. destruct (api_tx s2); try done. by destruct (e_sql env (api_tick s2)).
Qed.

Section quiet.
Context (quiet : forall n, e_sql env n = None).

Lemma opened_tx : TxLogic env (fun X => runs opened).
Proof using quiet.
  split; intros s Hs.
  - unfold Begin. rewrite quiet. do 2 eexists. split; [reflexivity|done].
  - unfold Rollback, opened in *. destruct (api_tx s); [|..|done]; do 2 eexists; (split; [reflexivity|done]).
  - unfold Commit. rewrite quiet. unfold opened in *. destruct (api_tx s) eqn:E; [|..|done]; do 2 eexists; (split; [reflexivity|]); [by rewrite E|done].
Qed.

(** The one handler whose answer can be missing: the id of the new action is there, as the insertion worked. *)
Lemma CreateActionToTmplate_runs i : runs opened (CreateActionToTmplate env i).
Proof using quiet.
  unfold CreateActionToTmplate. destruct i as [[i tplId]|]; [|apply runs_ret]. destruct (tplId =? 0)%Z; [apply runs_ret|].
  assert (Logic env [TAction; TTpl] (fun X => runs inside)) as L by by apply (runs_logic _ (fun t => match t with OpenTx _ => True | _ => False end)).
  assert (forall X (m : Ap X), runs inside m -> forall Y (k : X -> Ap Y), (forall a s, inside s -> exists b s', k a s = Ret (b, s') /\ opened s') ->
    forall s, inside s -> exists b s', mthen m k s = Ret (b, s') /\ opened s') as Hthen.
  { intros X m Hm Y k Hk s Hs. destruct (Hm s Hs) as (a & s1 & E & H1). rewrite (mthen_run _ _ _ _ _ E). by apply Hk. }
  assert (forall e s, inside s -> exists b s', (do! _ := Rollback in ret (Answer badstatus e)) s = Ret (b, s') /\ opened s') as Hback.
  { intros e s Hs. unfold Rollback, mthen, inside in *. destruct (api_tx s); try done. do 2 eexists. split; [reflexivity|done]. }
  intros s _. unfold Begin at 1, mthen at 1. rewrite quiet. set (s1 := a_set_tx _ _). assert (inside s1) as H1 by done. clearbody s1.
  revert s1 H1. apply Hthen; [apply (J_save env [TAction; TTpl] (fun X => runs inside)); by left|]. intros [action [e|]]; [by apply Hback|].
  intros s2 H2. unfold stmt at 1, mthen at 1. unfold inside in H2. destruct (api_tx s2) as [|d|] eqn:E2; try done. rewrite quiet. cbn [fmap option_fmap option_map].
  assert (inside (a_tick s2)) as H3 by (unfold inside; cbn; by rewrite E2). revert H3. generalize (a_tick s2). apply Hthen; [apply (J_find_one env [TAction; TTpl] (fun X => runs inside))|].
  intros [tpl [e|]]; [by apply Hback|]. apply Hthen; [apply (J_update (Logic := L)); [right; by left|by intros ? ?]|]. intros [n [e|]]; [by apply Hback|].
  intros s4 H4. unfold Commit, mthen, inside in *. destruct (api_tx s4); try done. do 2 eexists. split; [reflexivity|]. unfold opened; cbn. by destruct (e_sql env (api_tick s4)).
Qed.

Lemma serve_runs tok r : runs opened (serve env tok r).
Proof using quiet.
  pose proof (runs_logic (footprint r) (fun t => match t with BrokenTx _ => False | _ => True end) (fun _ _ _ => I)) as L.
  apply (serve_has env tok (footprint r) (fun X => runs opened)). apply (handler_has env tok (footprint r) (fun X => runs opened) opened_tx); [done|].
  intros i _. apply CreateActionToTmplate_runs.
Qed.
End quiet.
End answered.

(** C10: What becomes of a request that comes when no transaction is open.  Once it
    is answered it has left none behind, whatever the database refused.  A
    request that asks for no transaction is always answered, errors of the
    database and of redis, unique indexes and rows that are not there
    included; one that asks for a transaction is answered as long as the
    database refuses nothing.  The request that creates the action of a
    template is not answered, and its transaction stays open, when the
    database takes the new action and then refuses the query for its id. *)
Theorem requests_settle (env : ApiEnv) (tok : token) (r : request) (s : Api) :
  closed s ->
  (forall a s', serve env tok r s = Ret (a, s') -> closed s') /\
  (transactional r = false -> exists a s', serve env tok r s = Ret (a, s')) /\
  ((forall n, e_sql env n = None) -> exists a s', serve env tok r s = Ret (a, s')) /\
  (forall i tplId s1 action s2, r = RCreateActionToTmplate (Some (i, tplId)) -> tplId <> 0%Z ->
     AuthSessionMidd env tok s = Ret (None, s1) ->
     (do! _ := Begin env in save env TX TAction (set_pk TAction 0 i)) s1 = Ret ((action, None), s2) -> e_sql env (api_tick s2) <> None ->
     serve env tok r s = Panic IndexOutOfRange /\ exists d, api_tx s2 = OpenTx d).
Proof.
  intros Hs. assert (opened s) as Ho by (unfold opened; by rewrite Hs).
  split; [intros a s' H; by eapply (serve_closed env tok r)|].
  split; [intros Hr; destruct (plain_runs env tok r Hr s Ho) as (a & s' & E & _); by exists a, s'|].
  split; [intros quiet; destruct (serve_runs env quiet tok r s Ho) as (a & s' & E & _); by exists a, s'|].
  intros i tplId s1 action s2 -> Ht Ha H He. destruct (action_id_lost env i tplId s1 action s2 Ht H He) as [Hi Hp].
  split; [|unfold inside in Hi; destruct (api_tx s2) as [|d|]; try done; by exists d].
  unfold serve. cbn [open_route]. rewrite (mthen_run _ _ _ _ _ Ha). exact Hp.
Qed.
(** A database that takes everything but one statement. *)
Definition refusing (k : nat) : ApiEnv :=
  mkApiEnv (fun n => if (n =? k)%nat then Some "gone away" else None) (fun n => Z.of_nat n) (fun _ _ l => l) (fun s => s) (fun _ _ => true) (fun _ _ _ => inl []) (fun _ => None) (fun _ => "sig1") "" "salt" "" true false false.
Definition some_action : PAction := mkPAction 0 "ops" "" "" 0 0 0 0 0.

Lemma requests_settle_witness :
  (exists a s', serve demo_env alice (RDeleteTemplate "1") demo_api = Ret (a, s') /\ closed s') /\
  serve (refusing 3) alice (RCreateActionToTmplate (Some (some_action, 1%Z))) demo_api = Panic IndexOutOfRange.
Proof.
  destruct (requests_settle demo_env alice (RDeleteTemplate "1") demo_api eq_refl) as (H1 & _ & H2 & _). split.
  - destruct (H2 (fun _ => eq_refl)) as (a & s' & E). exists a, s'. split; [exact E|]. exact (H1 a s' E).
  - destruct (requests_settle (refusing 3) alice (RCreateActionToTmplate (Some (some_action, 1%Z))) demo_api eq_refl) as (_ & _ & _ & H).
    eapply (H some_action 1%Z); [reflexivity|lia|vm_compute; reflexivity|vm_compute; reflexivity|vm_compute; discriminate].
Defined.

(** * What requests leave of the tables *)

(** The tables stay what the indexes of MySQL make of them: whatever requests are
    served, one after another, the rows of a table have ids and, where the schema
    asks for it, names of their own, under the collation of the database, and
    every id is below the counter of its table. *)
Theorem tables_stay_ordered (env : ApiEnv) (l : list (token * request)) (s s' : Api) :
  ordered env s -> closed s -> serve_all env l s = Ret (tt, s') ->
  ordered env s' /\ closed s' /\
  forall t, NoDup (omap (pk t) (api_db s' t)) /\ NoDup (omap (fun r => e_collate env <$> unique t r) (api_db s' t)).
Proof.
  intros Hs Ht Hrun.
  assert (keeps (fun s => ordered env s /\ closed s) (serve_all env l)) as K.
  { unfold serve_all. apply keeps_forM. intros [tok r] _. apply keeps_then; [|intros; apply keeps_ret].
    intros s1 a s2 [H1 H2] E. split; [|by eapply serve_closed].
    eapply (serve_keeps env tok (footprint r) (ordered env)); [apply ordered_kept|apply ordered_tx|done|exact H1|exact E]. }
  destruct (K s tt s' (conj Hs Ht) Hrun) as [H1 H2]. split; [done|]. split; [done|]. intros t. apply (indexed_spec env). apply H1.
Qed.
Lemma tables_stay_ordered_witness : exists s', serve_all demo_env [(alice, RCrateHostGroup (Some "api")); (alice, RDeleteTemplate "1")] demo_api = Ret (tt, s') /\
  ordered demo_env s'.
Proof.
  demo_run (serve_all demo_env [(alice, RCrateHostGroup (Some "api")); (alice, RDeleteTemplate "1")] demo_api) a s' E. destruct a.
  exists s'. split; [done|]. destruct (tables_stay_ordered demo_env _ demo_api s' demo_ordered eq_refl E) as [H _]. exact H.
Defined.

(** A request changes no table but those of its footprint, also when it fails
    half-way. *)
Theorem requests_touch (env : ApiEnv) (tok : token) (r : request) (s s' : Api) a (t : tbl) :
  api_tx s = NoTx -> serve env tok r s = Ret (a, s') -> t ∉ footprint r -> api_db s' t = api_db s t.
Proof. intros Hs Hr Ht. apply (serve_still env tok r (fun d => d t) s a s'); [by apply table_blind|done..]. Qed.
Lemma requests_touch_witness : exists a s', serve demo_env alice (RDeleteTemplate "1") demo_api = Ret (a, s') /\ api_db s' TUser = api_db demo_api TUser.
Proof.
  demo_run (serve demo_env alice (RDeleteTemplate "1") demo_api) a s' E. exists a, s'. split; [done|].
  apply (requests_touch demo_env alice (RDeleteTemplate "1") demo_api s' a TUser eq_refl E). apply (bool_decide_unpack _). by vm_compute.
Defined.

(** * Who may change the hosts of a group *)

(** The user of a request: whom the session names, or, when the database knows no such user, an empty one of that name. *)
Definition acts (env : ApiEnv) (tok : token) (d : Db) (u : PUser) : Prop :=
  (exists ws, GetSession tok = inl ws /\ (u = user_named (ws_Name ws) \/ u ∈ d TUser /\ like_name env (ws_Name ws) u = true)) \/
  (exists e, GetSession tok = inr e /\ u = no_user).
(** The hosts of a group. *)
Definition members (g : Z) (d : Db) : list Z := map gh_HostID (List.filter (fun m => (gh_GrpID m =? g)%Z) (d TGrpHost)).
(** An administrator, or the user that made the group. *)
Definition may_change (env : ApiEnv) (d : Db) (u : PUser) (g : Z) : Prop :=
  IsAdmin env u = true \/ exists G, G ∈ d TGrp /\ hg_ID G = g /\ hg_CreateUser G = us_Name u.

(** What the handlers do to other groups. *)
Section others.
Context (env : ApiEnv) (g : Z) (M : list Z).
Let P := still (members g) M.

Definition all_but_hosts : list tbl := [TGrp; THost; TPlugin; TCluster].
Local Instance others_logic : Logic env all_but_hosts (fun X => keeps P).
Proof using Type.
  apply keeps_logic; [apply still_steady|]. apply still_kept. intros t l d Ht. unfold members.
  rewrite set_rows_other; [done|]. intros ->. unfold all_but_hosts in Ht. set_solver.
Qed.
Lemma members_add (d : Db) G i : G <> g -> members g (set_rows TGrpHost (d TGrpHost ++ [mkGrpHost G i])%list d) = members g d.
Proof using Type.
  intros Hne. unfold members. rewrite set_rows_same, List.filter_app, map_app. cbn. destruct (Z.eqb_spec G g); [done|]. by rewrite app_nil_r.
Qed.
Lemma members_remove (d : Db) q : (forall m, q m = true -> gh_GrpID m <> g) ->
  members g (set_rows TGrpHost (List.filter (fun m => negb (q m)) (d TGrpHost)) d) = members g d.
Proof using Type.
  intros Hq. unfold members. rewrite set_rows_same. f_equal. induction (d TGrpHost) as [|m l IH]; [done|]. cbn.
  destruct (q m) eqn:E; cbn; [|by rewrite IH]. specialize (Hq m E). destruct (Z.eqb_spec (gh_GrpID m) g); [done|exact IH].
Qed.
Lemma others_create h G i : G <> g -> keeps P (create env h TGrpHost (mkGrpHost G i)).
Proof using Type.
  intros Hne. unfold create. apply keeps_then; [by apply stmt_keeps, still_steady|]. intros [e|]; [apply keeps_ret|].
  intros s a s' Hs H. apply mthen_inv in H as (v' & s1 & [= <- <-] & H). revert s a s' Hs H. apply keeps_then; [apply keeps_gets|]. intros ds.
  keeps_if; [apply keeps_ret|]. apply keeps_then; [|intros; apply keeps_ret]. apply put_keeps. intros d. by apply members_add.
Qed.
Lemma others_delete h v q : (forall m, q m = true -> gh_GrpID m <> g) -> keeps P (delete_rows env h TGrpHost v q).
Proof using Type.
  intros Hq. unfold delete_rows. apply keeps_then; [by apply stmt_keeps, still_steady|]. intros [e|]; [apply keeps_ret|].
  apply keeps_then; [apply keeps_gets|]. intros d0. apply keeps_then; [|intros; apply keeps_ret]. apply put_keeps. intros d. apply members_remove.
  intros m Hm. apply Hq. unfold whereSQL in Hm. by apply andb_true_iff in Hm as [_ Hm].
Qed.
Lemma others_find h t v p : keeps P (find_one env h t v p).
Proof using Type. apply (J_find_one env all_but_hosts (fun X => keeps P)). Qed.
Lemma others_host x : keeps P (host_id env x).
Proof using Type. apply (J_host_id env all_but_hosts (fun X => keeps P)). right. by left. Qed.
Lemma others_bind G l ids : G <> g -> keeps P (bind_each env G l ids).
Proof using Type.
  intros Hne. pose proof (still_tx env (members g) M) as TL. revert ids; induction l as [|x l IH]; intros ids; cbn [bind_each]; [apply keeps_ret|].
  apply keeps_then; [apply others_host|]. intros [i|e]; [|apply keeps_then; [apply (J_Rollback _ _ TL)|intros; apply keeps_ret]].
  apply keeps_then; [by apply others_create|]. intros [v [e|]]; [apply keeps_then; [apply (J_Rollback _ _ TL)|intros; apply keeps_ret]|apply IH].
Qed.
Lemma others_add G l a b : G <> g -> keeps P (add_each env G l a b).
Proof using Type.
  intros Hne. pose proof (still_tx env (members g) M) as TL. revert a b; induction l as [|x l IH]; intros a b; cbn [add_each]; [apply keeps_ret|].
  apply keeps_then; [apply others_host|]. intros [i|e]; [|apply keeps_then; [apply (J_Rollback _ _ TL)|intros; apply keeps_ret]].
  apply keeps_then; [unfold GrpHost_Existing; apply keeps_then; [apply others_find|intros; apply keeps_ret]|]. intros [|]; [apply IH|].
  apply keeps_then; [by apply others_create|]. intros [v [e|]]; [apply keeps_then; [apply (J_Rollback _ _ TL)|intros; apply keeps_ret]|apply IH].
Qed.
Lemma others_remove G l a : G <> g -> keeps P (remove_each env G l a).
Proof using Type.
  intros Hne. pose proof (still_tx env (members g) M) as TL. revert a; induction l as [|x l IH]; intros a; cbn [remove_each]; [apply keeps_ret|].
  apply keeps_then; [unfold Host_Existing; apply keeps_then; [apply others_find|intros; apply keeps_ret]|]. intros [i|]; [|apply IH].
  apply keeps_then; [apply others_delete|].
  { intros m Hm. apply andb_true_iff in Hm as [Hm _]. apply Z.eqb_eq in Hm. congruence. }
  intros [v [e|]]; [apply keeps_then; [apply (J_Rollback _ _ TL)|intros; apply keeps_ret]|apply IH].
Qed.
End others.

Section members.
Context (env : ApiEnv) (order_ok : forall n R l, Permutation (e_order env n R l) l).

(** A search reads: its row is in the table and meets the condition. *)
Lemma find_one_spec h t v p s a s' : find_one env h t v p s = Ret (a, s') ->
  (s' = s \/ s' = a_tick s) /\ match a with (r, None) => r ∈ sees h s t /\ whereSQL t v p r = true | (r, Some _) => r = v end.
Proof using order_ok.
  unfold find_one. intros H. step_inv H. assert (s0 = s \/ s0 = a_tick s) as Hs0.
  { unfold stmt in E. destruct h, (api_tx s); injection E as <- <-; auto. }
  destruct a0 as [e|]; [injection H as <- <-; auto|]. unfold select in H. apply mthen_inv in H as (rows & s1 & [= <- <-] & [= <- <-]). split; [done|].
  assert (sees h s0 = sees h s) as Es by (destruct Hs0 as [-> | ->]; done).
  destruct (last _) as [r|] eqn:El; [|done]. apply last_Some in El as [l El]. rewrite <- Es.
  assert (r ∈ List.filter (whereSQL t v p) (sees h s0 t)) as Hr.
  { rewrite <- (order_ok (api_tick s0)). rewrite El. apply elem_of_app. right. by left. }
  apply list_elem_of_In, filter_In in Hr as [Hr Hp]. split; [by apply list_elem_of_In|done].
Qed.

(** States that hold the same tables, with no transaction open. *)
Definition same (s s' : Api) : Prop := api_db s' = api_db s /\ api_tx s' = api_tx s.
Lemma find_one_same h t v p s a s' : find_one env h t v p s = Ret (a, s') -> same s s'.
Proof using order_ok. intros [[-> | ->] _]%find_one_spec; done. Qed.

(** The user a handler gets is the one of the request. *)
Lemma GetUser_acts tok s r s' : h_GetUser env tok s = Ret (r, s') -> same s s' /\ acts env tok (api_db s) (fst r).
Proof using order_ok.
  unfold h_GetUser. destruct (GetSession tok) as [ws|e] eqn:Es; [|intros [= <- <-]; split; [done|]; right; by eexists].
  intros H. apply mthen_inv in H as ([u eo] & s1 & E & [= <- <-]). apply find_one_spec in E as [Hs E]. split; [by destruct Hs as [-> | ->]|].
  left. exists ws. split; [done|]. destruct eo; cbn; [by left|right]. exact E.
Qed.

(** Who passes [must_own] owns the group. *)
Lemma must_own_owns u g c b s r s' : g <> 0%Z -> must_own env u g c b s = Ret (r, s') ->
  same s s' /\ (r = None -> may_change env (api_db s) u g).
Proof using order_ok.
  intros Hg. unfold must_own. destruct (IsAdmin env u) eqn:Ea; [intros [= <- <-]; split; [done|by left]|].
  intros H. apply mthen_inv in H as ([G eo] & s1 & E & [= <- <-]). pose proof (find_one_same _ _ _ _ _ _ _ E) as Hs. apply find_one_spec in E as [_ E].
  split; [done|]. destruct eo; [done|]. destruct E as [Hin Hw]. destruct (String.eqb_spec (hg_CreateUser G) (us_Name u)); [|done]. intros _. right. exists G.
  split; [done|]. split; [|done]. unfold whereSQL, PrimaryKeyZero, same_pk, group_id in Hw. cbn in Hw.
  destruct (Z.eqb_spec g 0); [done|]. cbn in Hw. apply andb_true_iff in Hw as [Hw _]. by apply Z.eqb_eq in Hw.
Qed.


Lemma same_trans s1 s2 s3 : same s1 s2 -> same s2 s3 -> same s1 s3.
Proof using Type. intros [H1 H2] [H3 H4]. split; congruence. Qed.
Lemma session_same tok s a s' : AuthSessionMidd env tok s = Ret (a, s') -> same s s'.
Proof using Type.
  unfold AuthSessionMidd, SessionChecking. destruct (GetSession tok) as [ws|e]; [|by intros [= <- <-]].
  destruct (_ && _); by intros [= <- <-].
Qed.

(** A handler that is left with the group of another owner, or writes to another group, changes nothing of [g]. *)
Definition guarded (tok : token) (g : Z) (m : Ap answer) : Prop := forall s a s', api_tx s = NoTx -> m s = Ret (a, s') ->
  members g (api_db s') = members g (api_db s) \/ exists u, acts env tok (api_db s) u /\ may_change env (api_db s) u g.

Lemma guarded_ret tok g (a : answer) : guarded tok g (ret a).
Proof using Type. intros s b s' _ [= <- <-]. by left. Qed.
(** What comes after reading, from a state with the same tables. *)
Lemma guarded_still tok g (m : Ap answer) s0 s a s' : (forall M, keeps (still (members g) M) m) -> same s0 s -> api_tx s0 = NoTx ->
  m s = Ret (a, s') -> members g (api_db s') = members g (api_db s0) \/ exists u, acts env tok (api_db s0) u /\ may_change env (api_db s0) u g.
Proof using Type.
  intros Hk [H1 H2] Ht E. left. rewrite <- H1. eapply (Hk (members g (api_db s))); [|exact E]. split; [done|]. by rewrite H2, Ht.
Qed.

Ltac tx_keeps :=
  repeat match goal with
  | |- keeps _ (mthen (Begin _) _) => apply keeps_then; [apply (J_Begin _ _ (still_tx _ _ _))|intros ?]
  | |- keeps _ (mthen Rollback _) => apply keeps_then; [apply (J_Rollback _ _ (still_tx env _ _))|intros ?]
  | |- keeps _ (mthen (Commit _) _) => apply keeps_then; [apply (J_Commit _ _ (still_tx _ _ _))|intros ?]
  | |- keeps _ (mthen (bind_each _ _ _ _) _) => apply keeps_then; [by apply others_bind|intros ?]
  | |- keeps _ (mthen (add_each _ _ _ _ _) _) => apply keeps_then; [by apply others_add|intros ?]
  | |- keeps _ (mthen (remove_each _ _ _ _) _) => apply keeps_then; [by apply others_remove|intros ?]
  | |- keeps _ (mthen (delete_rows _ _ TGrpHost _ _) _) =>
      apply keeps_then; [apply others_delete; intros m Hm; repeat (apply andb_true_iff in Hm as [Hm _]); apply Z.eqb_eq in Hm; congruence|intros ?]
  | |- keeps _ (mthen (delete_rows _ _ ?t _ _) _) =>
      apply keeps_then; [apply (J_delete (Logic := others_logic _ _ _)); unfold all_but_hosts; set_solver|intros ?]
  | |- keeps _ (tx_delete _ _ _ _ _ _ _) => unfold tx_delete
  | |- keeps _ (ret _) => apply keeps_ret
  | |- keeps _ (match ?x with _ => _ end) => destruct x
  end.

(** The group that was found, when its owner asks. *)
Lemma found_may_change u G s id h v' s' : find_one env h TGrp v' id s = Ret ((G, None), s') -> api_tx s = NoTx ->
  owns env u G = true -> may_change env (api_db s) u (hg_ID G).
Proof using order_ok.
  intros [_ [Hin _]]%find_one_spec Ht Ho. unfold owns in Ho. apply orb_true_iff in Ho as [Ho|Ho]; [by left|]. right. exists G.
  split; [|split; [done|by apply String.eqb_eq]]. unfold sees in Hin. rewrite Ht in Hin. by destruct h.
Qed.

Lemma BindHost_guarded tok g i : guarded tok g (BindHostToHostGroup env tok i).
Proof using order_ok.
  unfold BindHostToHostGroup. destruct i as [[[hosts|] grp]|]; [|apply guarded_ret..]. destruct (grp =? 0)%Z; [apply guarded_ret|].
  intros s a s' Ht H. apply mthen_inv in H as (r & s1 & E1 & H). apply GetUser_acts in E1 as [Hs1 Hu].
  apply mthen_inv in H as ([G eo] & s2 & E2 & H). pose proof (same_trans _ _ _ Hs1 (find_one_same _ _ _ _ _ _ _ E2)) as Hs2. destruct Hs1 as [Hd1 Ht1].
  destruct eo as [e|]; [eapply (guarded_still tok g (ret _)); [intros; apply keeps_ret|exact Hs2|done|exact H]|].
  destruct (owns env r.1 G) eqn:Eo; cbn [negb] in H; [|eapply (guarded_still tok g (ret _)); [intros; apply keeps_ret|exact Hs2|done|exact H]].
  destruct (decide (hg_ID G = g)) as [<-|Hne].
  - right. exists r.1. split; [done|]. rewrite <- Hd1. eapply found_may_change; [exact E2|congruence|done].
  - eapply guarded_still; [|exact Hs2|done|exact H]. intros M. tx_keeps.
Qed.
Lemma Patch_guarded tok g id i : guarded tok g (PatchHostGroupHost env tok id i).
Proof using order_ok.
  unfold PatchHostGroupHost. destruct (bound i _) as [[action [hosts|]]|]; [|apply guarded_ret..].
  destruct (path_id _ _) as [grpID|]; [|apply guarded_ret]. destruct (negb _ && negb _); [apply guarded_ret|].
  intros s a s' Ht H. apply mthen_inv in H as (r & s1 & E1 & H). apply GetUser_acts in E1 as [Hs1 Hu].
  apply mthen_inv in H as ([G eo] & s2 & E2 & H). pose proof (same_trans _ _ _ Hs1 (find_one_same _ _ _ _ _ _ _ E2)) as Hs2. destruct Hs1 as [Hd1 Ht1].
  destruct eo as [e|]; [eapply (guarded_still tok g (ret _)); [intros; apply keeps_ret|exact Hs2|done|exact H]|].
  destruct (owns env r.1 G) eqn:Eo; cbn [negb] in H; [|eapply (guarded_still tok g (ret _)); [intros; apply keeps_ret|exact Hs2|done|exact H]].
  destruct (decide (hg_ID G = g)) as [<-|Hne].
  - right. exists r.1. split; [done|]. rewrite <- Hd1. eapply found_may_change; [exact E2|congruence|done].
  - destruct (String.eqb action "add"); (eapply guarded_still; [|exact Hs2|done|exact H]); intros M; unfold bindHostToHostGroup, unbindHostToHostGroup; tx_keeps.
Qed.

(** The handlers that ask [must_own] first. *)
Lemma must_own_guarded tok g grp c b (k : Ap answer) :
  grp <> 0%Z -> (grp <> g -> forall M, keeps (still (members g) M) k) ->
  guarded tok g (do! r := h_GetUser env tok in do! refused := must_own env (fst r) grp c b in match refused with Some a => ret a | None => k end).
Proof using order_ok.
  intros H0 Hk s a s' Ht H. apply mthen_inv in H as (r & s1 & E1 & H). apply GetUser_acts in E1 as [Hs1 Hu].
  apply mthen_inv in H as (refused & s2 & E2 & H). apply must_own_owns in E2 as [Hs2 Ho]; [|done]. pose proof (same_trans _ _ _ Hs1 Hs2) as Hs3.
  destruct refused as [x|]; [eapply (guarded_still tok g (ret _)); [intros; apply keeps_ret|exact Hs3|done|exact H]|].
  destruct (decide (grp = g)) as [<-|Hne]; [|eapply guarded_still; [by apply Hk|exact Hs3|done|exact H]].
  right. exists r.1. split; [done|]. destruct Hs1 as [<- _]. by apply Ho.
Qed.
Lemma UnBind_guarded tok g i : guarded tok g (UnBindAHostToHostGroup env tok i).
Proof using order_ok.
  unfold UnBindAHostToHostGroup. destruct i as [[x grp]|]; [|apply guarded_ret]. destruct ((x =? 0) || (grp =? 0))%Z eqn:E; [apply guarded_ret|].
  apply orb_false_iff in E as [_ E]. apply Z.eqb_neq in E. apply must_own_guarded; [done|]. intros Hne M. tx_keeps.
Qed.
Lemma DeleteHostGroup_guarded tok g id : guarded tok g (DeleteHostGroup env tok id).
Proof using order_ok.
  unfold DeleteHostGroup. destruct (path_id _ _) as [grp|]; [|apply guarded_ret]. destruct (Z.eqb_spec grp 0); [apply guarded_ret|].
  apply must_own_guarded; [done|]. intros Hne M. tx_keeps.
Qed.

Lemma serve_guarded tok g r : guarded tok g (serve env tok r).
Proof using order_ok.
  intros s a s' Ht H. destruct (decide (TGrpHost ∈ footprint r)) as [Hin|Hout].
  - unfold serve in H. assert (open_route r = false) as Eo by (by destruct r; try (cbn in Hin; set_solver)). rewrite Eo in H.
    apply mthen_inv in H as (refused & s1 & E1 & H). apply session_same in E1. destruct refused as [x|].
    { eapply (guarded_still tok g (ret _)); [intros; apply keeps_ret|exact E1|done|exact H]. }
    destruct E1 as [Hd Htx]. rewrite <- Hd. assert (api_tx s1 = NoTx) as Ht1 by congruence.
    destruct r; try (cbn in Hin; exfalso; set_solver); cbn [handler] in H.
    + by eapply BindHost_guarded.
    + by eapply UnBind_guarded.
    + by eapply DeleteHostGroup_guarded.
    + by eapply Patch_guarded.
  - left. eapply serve_still; [|done|exact H]. intros t l d Htt. unfold members. rewrite set_rows_other; [done|]. by intros ->.
Qed.
End members.

(** C8: Whatever the request, the hosts of a group change only for an administrator
    or for the user that made the group: who asks is the user the session names. *)
Theorem members_guarded (env : ApiEnv) (tok : token) (r : request) (s s' : Api) a (g : Z) :
  (forall n R l, Permutation (e_order env n R l) l) -> api_tx s = NoTx -> serve env tok r s = Ret (a, s') ->
  members g (api_db s') = members g (api_db s) \/
  exists u, acts env tok (api_db s) u /\ may_change env (api_db s) u g.
Proof. intros Ho Ht Hr. by eapply (serve_guarded env Ho tok g r). Qed.
Lemma members_guarded_witness : exists a s', serve demo_env alice (RBindHostToHostGroup (Some (mkBindHost (Some ["w2"]) 1))) demo_api = Ret (a, s') /\
  (members 1 (api_db s') = members 1 (api_db demo_api) \/ exists u, acts demo_env alice demo_db u /\ may_change demo_env demo_db u 1).
Proof.
  demo_run (serve demo_env alice (RBindHostToHostGroup (Some (mkBindHost (Some ["w2"]) 1))) demo_api) a s' E. exists a, s'. split; [done|].
  exact (members_guarded demo_env alice _ demo_api s' a 1 demo_permutes eq_refl E).
Defined.
