(* ===== verification/ApiProps.v ===== *)
(** What single requests of the web service do to the tables: the hosts of a
    group are replaced as a whole or not at all ([bind_hosts_exact]), a session
    that was given is accepted and names the user, whatever the password
    ([login_opens]), the members of a team are those that were sent
    ([team_members_exact]), a template goes with all that hangs on it
    ([delete_template_exact]), and the id 0 in the path of a deletion empties
    the table ([zero_deletes_all]). *)
From S2P Require Import Prelude GoStr.
From S2P Require Export ApiThms.

Local Open Scope string_scope.

(** The code of an answer. *)
Definition status (a : answer) : option Z := match a with Answer c _ => Some c | _ => None end.

(** The code with which a run ends. *)
Definition answered (r : res (answer * Api)) : option Z := match r with Ret (a, _) => status a | Panic _ => None end.

(** * Statements and their outcomes *)

Section outcomes.
Context (env : ApiEnv) (order_ok : forall n R l, Permutation (e_order env n R l) l).

Lemma stmt_run h s e s' : stmt env h s = Ret (e, s') -> same s s' /\ api_redis s' = api_redis s /\ api_next s' = api_next s.
Proof using Type. unfold stmt. destruct h, (api_tx s); by intros [= <- <-]. Qed.

Lemma assign_id_same t v s v' s' : assign_id t v s = Ret (v', s') ->
  same s s' /\ (v' = v \/ pk t v = Some 0%Z /\ v' = set_pk t (api_next s t) v).
Proof using Type.
  unfold assign_id. destruct (pk t v) as [i|]; [|intros [= <- <-]; split; [done|by left]].
  destruct (Z.eqb_spec i 0) as [->|]; intros [= <- <-]; (split; [done|auto]).
Qed.

(** A new row comes at the end of what the handle sees, with an id of its own when it had none. *)
Lemma create_run h t v s v' eo s' : create env h t v s = Ret ((v', eo), s') ->
  match eo with
  | Some _ => same s s' /\ v' = v
  | None => (v' = v \/ pk t v = Some 0%Z /\ v' = set_pk t (api_next s t) v) /\
            same (put h (fun d => set_rows t (d t ++ [v'])%list d) s) s'
  end.
Proof using Type.
  unfold create. intros H. apply mthen_inv in H as (e & s1 & E1 & H). apply stmt_run in E1 as ([Hd Ht] & _ & Hn).
  destruct e as [e|]; [by injection H as <- <- <-|]. apply mthen_inv in H as (w & s2 & E2 & H). apply assign_id_same in E2 as ([Hd2 Ht2] & Hw).
  apply mthen_inv in H as (ds & s3 & [= <- <-] & H). destruct (existsb _ _); [injection H as <- <- <-; split; [|done]; split; congruence|].
  apply mthen_inv in H as (u & s3 & [= <- <-] & [= <- <- <-]). split; [by rewrite <- Hn|].
  unfold put. rewrite <- Ht2, <- Ht in *. destruct h, (api_tx s2) eqn:E; unfold same; cbn; rewrite ?Hd2, ?Hd, ?E; (split; congruence).
Qed.
Lemma delete_run h t v p s n eo s' : delete_rows env h t v p s = Ret ((n, eo), s') ->
  match eo with
  | Some _ => same s s'
  | None => same (put h (fun d => set_rows t (List.filter (fun r => negb (whereSQL t v p r)) (d t)) d) s) s'
  end.
Proof using Type.
  unfold delete_rows. intros H. apply mthen_inv in H as (e & s1 & E1 & H). apply stmt_run in E1 as ([Hd Ht] & _).
  destruct e as [e|]; [by injection H as <- <- <-|]. apply mthen_inv in H as (d0 & s2 & [= <- <-] & H).
  apply mthen_inv in H as (u & s3 & [= <- <-] & [= <- <- <-]). unfold put. rewrite Ht. destruct h, (api_tx s) eqn:E; unfold same; cbn; rewrite ?Hd, ?Ht, ?E; done.
Qed.

(** Inside a transaction the tables wait. *)
Definition in_tx (D d : Db) (s : Api) : Prop := api_db s = D /\ api_tx s = OpenTx d.
Lemma create_tx D d t v s v' eo s' : in_tx D d s -> create env TX t v s = Ret ((v', eo), s') ->
  match eo with
  | Some _ => in_tx D d s'
  | None => (v' = v \/ pk t v = Some 0%Z /\ v' = set_pk t (api_next s t) v) /\ in_tx D (set_rows t (d t ++ [v'])%list d) s'
  end.
Proof using Type.
  intros [Hd Ht] H. apply create_run in H. unfold put in H. rewrite Ht in H. destruct eo; [destruct H as [[H1 H2] _]|destruct H as [Hv [H1 H2]]; split; [done|]];
    cbn in H1, H2; split; congruence.
Qed.
Lemma delete_tx D d t v p s n eo s' : in_tx D d s -> delete_rows env TX t v p s = Ret ((n, eo), s') ->
  match eo with
  | Some _ => in_tx D d s'
  | None => in_tx D (set_rows t (List.filter (fun r => negb (whereSQL t v p r)) (d t)) d) s'
  end.
Proof using Type.
  intros [Hd Ht] H. apply delete_run in H. unfold put in H. rewrite Ht in H. destruct eo; destruct H as [H1 H2]; cbn in H1, H2; split; congruence.
Qed.
Lemma find_tx D d h t v p s a s' : in_tx D d s -> find_one env h t v p s = Ret (a, s') ->
  in_tx D d s' /\ match a with (r, None) => r ∈ match h with TX => d | DB => D end t /\ whereSQL t v p r = true | (r, Some _) => r = v end.
Proof using order_ok.
  intros [Hd Ht] H. pose proof (find_one_same env order_ok _ _ _ _ _ _ _ H) as [H1 H2]. apply (find_one_spec env order_ok) in H as [_ H].
  split; [split; congruence|]. destruct a as [r [e|]]; [done|]. unfold sees in H. rewrite Ht in H. by destruct h; rewrite ?Hd in H.
Qed.
Lemma rollback_tx D d (a a' : answer) s s' : in_tx D d s -> (do! _ := Rollback in ret a) s = Ret (a', s') -> a' = a /\ api_db s' = D /\ api_tx s' = NoTx.
Proof using Type. intros [Hd Ht] H. unfold Rollback, mthen in H. rewrite Ht in H. injection H as <- <-. done. Qed.
(** A commit brings the copy, or nothing when the server refuses it, which the callers do not see. *)
Lemma commit_tx D d (a a' : answer) s s' : in_tx D d s -> (do! _ := Commit env in ret a) s = Ret (a', s') ->
  a' = a /\ (api_db s' = d \/ api_db s' = D /\ exists n, e_sql env n <> None).
Proof using Type.
  intros [Hd Ht] H. unfold Commit, mthen in H. rewrite Ht in H. destruct (e_sql env (api_tick s)) eqn:E; injection H as <- <-; split; cbn; try done; [right|by left].
  split; [done|]. exists (api_tick s). congruence.
Qed.
End outcomes.

(** * The hosts of a group are replaced as a whole *)

(** A row of the table of hosts has the id and, under the collation, the name. *)
Definition names_host (env : ApiEnv) (d : Db) (h : string) (i : Z) : Prop :=
  exists r, r ∈ d THost /\ ho_ID r = i /\ sql_eq env (ho_Hostname r) h = true.
(** [d'] has the hosts of [d] and more, the members [ms] more, and is [d] otherwise. *)
Definition grown (d d' : Db) (ms : list GrpHost) : Prop :=
  d' TGrpHost = (d TGrpHost ++ ms)%list /\ (exists more, d' THost = (d THost ++ more)%list) /\
  forall t, t <> TGrpHost -> t <> THost -> d' t = d t.

Lemma more_refl d : grown d d [].
Proof. split; [by rewrite app_nil_r|]. split; [exists []; by rewrite app_nil_r|done]. Qed.
Lemma more_trans d1 d2 d3 l1 l2 : grown d1 d2 l1 -> grown d2 d3 l2 -> grown d1 d3 (l1 ++ l2).
Proof.
  intros (A1 & [m1 B1] & C1) (A2 & [m2 B2] & C2). split; [by rewrite A2, A1, app_assoc|]. split; [exists (m1 ++ m2)%list; by rewrite B2, B1, app_assoc|].
  intros t H1 H2. by rewrite C2, C1.
Qed.
Lemma grown_names env d d' ms h i : grown d d' ms -> names_host env d h i -> names_host env d' h i.
Proof. intros (_ & [more H] & _) (r & Hr & Hi). exists r. rewrite H. split; [apply elem_of_app; by left|done]. Qed.
Lemma grown_host d r : grown d (set_rows THost (d THost ++ [r])%list d) [].
Proof. split; [rewrite set_rows_other by done; by rewrite app_nil_r|]. split; [exists [r]; by rewrite set_rows_same|]. intros t _ H. by rewrite set_rows_other. Qed.
Lemma grown_member d m : grown d (set_rows TGrpHost (d TGrpHost ++ [m])%list d) [m].
Proof.
  split; [by rewrite set_rows_same|]. split; [exists []; rewrite set_rows_other by done; by rewrite app_nil_r|]. intros t H _. by rewrite set_rows_other.
Qed.

Section binding.
Context (env : ApiEnv) (order_ok : forall n R l, Permutation (e_order env n R l) l).

Lemma Host_Existing_tx D d h s r s' : in_tx D d s -> Host_Existing env (host_named h) s = Ret (r, s') ->
  in_tx D d s' /\ match r with Some i => names_host env D h i | None => True end.
Proof using order_ok.
  intros Hs H. unfold Host_Existing in H. apply mthen_inv in H as ([w eo] & s1 & E & [= <- <-]).
  apply (find_tx env order_ok D d) in E as [H1 E]; [|done]. split; [done|]. cbn. destruct (Z.eqb_spec (ho_ID w) 0) as [|Hne]; [done|].
  destruct eo; [by subst w|]. destruct E as [Hin Hw]. unfold whereSQL in Hw. apply andb_true_iff in Hw as [_ Hw]. by exists w.
Qed.
(** The host is there afterwards, with the id that is bound. *)
Lemma host_id_tx D d h s r s' : in_tx D d s -> D THost ⊆ d THost -> host_id env h s = Ret (r, s') ->
  match r with inl i => exists d', in_tx D d' s' /\ grown d d' [] /\ names_host env d' h i | inr _ => in_tx D d s' end.
Proof using order_ok.
  intros Hs Hsub H. unfold host_id in H. apply mthen_inv in H as (o & s1 & E & H). apply (Host_Existing_tx D d) in E as [H1 E]; [|done].
  destruct o as [i|].
  { injection H as <- <-. exists d. split; [done|]. split; [apply more_refl|]. destruct E as (w & Hw & Hi). exists w. split; [by apply Hsub|done]. }
  apply mthen_inv in H as ([w eo] & s2 & E2 & H). unfold save in E2. cbn in E2. apply (create_tx env D d THost _ _ _ _ _ H1) in E2.
  destruct eo as [e|]; injection H as <- <-; [done|]. destruct E2 as [Hw H2]. eexists. split; [exact H2|]. split; [apply grown_host|].
  exists w. rewrite set_rows_same. split; [apply elem_of_app; right; by left|]. split; [done|].
  assert (ho_Hostname w = h) as -> by (by destruct Hw as [-> | [_ ->]]). apply String.eqb_refl.
Qed.

Definition refuses (a : answer) : Prop := status a <> Some 200%Z.
Lemma bind_each_tx D d g l ids s r s' : in_tx D d s -> D THost ⊆ d THost -> bind_each env g l ids s = Ret (r, s') ->
  match r with
  | inl ids' => exists d' new, ids' = (ids ++ new)%list /\ in_tx D d' s' /\ grown d d' (map (mkGrpHost g) new) /\ Forall2 (names_host env d') l new
  | inr a => api_db s' = D /\ api_tx s' = NoTx /\ refuses a
  end.
Proof using order_ok.
  revert d ids s. induction l as [|x l IH]; intros d ids s Hs Hsub H; cbn [bind_each] in H.
  { injection H as <- <-. exists d, []. rewrite app_nil_r. split; [done|]. split; [done|]. split; [apply more_refl|constructor]. }
  assert (forall e s1, in_tx D d s1 -> (do! _ := Rollback in ret (inr (Answer expecstatus e) : list Z + answer)) s1 = Ret (r, s') ->
    match r with inl _ => False | inr a => api_db s' = D /\ api_tx s' = NoTx /\ refuses a end) as Hback.
  { intros e s1 [H1 H2] E. unfold Rollback, mthen in E. rewrite H2 in E. by injection E as <- <-. }
  apply mthen_inv in H as (o & s1 & E1 & H). apply (host_id_tx D d) in E1; [|done..].
  destruct o as [i|e]; [|apply Hback in H; [by destruct r|done]]. destruct E1 as (d1 & H1 & G1 & N1).
  apply mthen_inv in H as ([w eo] & s2 & E2 & H). apply (create_tx env D d1 TGrpHost _ _ _ _ _ H1) in E2. clear Hback. destruct eo as [e|].
  { destruct E2 as [H2 H3]. unfold Rollback, mthen in H. rewrite H3 in H. by injection H as <- <-. }
  destruct E2 as [Hw H2]. assert (w = mkGrpHost g i) as -> by (destruct Hw as [-> |[Hn _]]; [done|discriminate Hn]).
  pose proof (more_trans _ _ _ _ _ G1 (grown_member d1 (mkGrpHost g i))) as G2.
  eapply IH in H; [|exact H2|destruct G2 as (_ & [more ->] & _); intros z Hz; apply elem_of_app; left; by apply Hsub].
  destruct r as [ids'|a]; [|done]. destruct H as (d' & new & -> & H & G3 & N3). exists d', (i :: new).
  split; [by rewrite <- app_assoc|]. split; [done|]. split; [exact (more_trans _ _ _ _ _ G2 G3)|]. constructor; [|done].
  eapply grown_names; [exact G3|]. eapply grown_names; [apply grown_member|done].
Qed.
End binding.

Lemma session_refuses env tok s a s' : AuthSessionMidd env tok s = Ret (Some a, s') -> status a = Some 401%Z.
Proof.
  unfold AuthSessionMidd. intros H. apply mthen_inv in H as (e & s1 & _ & [= H <-]). destruct (e_skip_auth env); [done|]. destruct e; [|done]. by injection H as <-.
Qed.

(** A route that checks the session: the request is refused, or its handler runs. *)
Lemma serve_closed_route env tok r s a s' : serve env tok r s = Ret (a, s') -> open_route r = false ->
  (api_db s' = api_db s /\ status a = Some 401%Z) \/ exists s1, same s s1 /\ handler env tok r s1 = Ret (a, s').
Proof.
  intros H Hr. unfold serve in H. rewrite Hr in H. apply mthen_inv in H as (refused & s1 & E1 & H). pose proof (session_same _ _ _ _ _ E1) as S1.
  destruct refused as [b|]; [left|right; by exists s1]. apply session_refuses in E1. injection H as <- <-. split; [apply S1|done].
Qed.


(** The group has these hosts, in this order and with the ids of their rows,
    and no others; hosts that were not known are added, and nothing else
    changes. *)
Definition bound_exactly (env : ApiEnv) (g : Z) (hosts : list string) (d d' : Db) : Prop :=
  exists ids, Forall2 (names_host env d') hosts ids /\
    d' TGrpHost = (List.filter (fun m => negb (gh_GrpID m =? g)%Z) (d TGrpHost) ++ map (mkGrpHost g) ids)%list /\
    (exists more, d' THost = (d THost ++ more)%list) /\
    forall t, t <> TGrpHost -> t <> THost -> d' t = d t.

Lemma BindHosts_run (env : ApiEnv) (tok : token) (hosts : list string) (g : Z) (s s' : Api) a :
  (forall n R l, Permutation (e_order env n R l) l) -> api_tx s = NoTx ->
  BindHostToHostGroup env tok (Some (mkBindHost (Some hosts) g)) s = Ret (a, s') ->
  (api_db s' = api_db s /\ (status a <> Some 200%Z \/ exists n, e_sql env n <> None)) \/
  (status a = Some 200%Z /\ bound_exactly env g hosts (api_db s) (api_db s')).
Proof.
  intros Ho Ht H.
  assert (forall a1 s2, ret a1 s2 = Ret (a, s') -> same s s2 -> status a1 <> Some 200%Z ->
    api_db s' = api_db s /\ (status a <> Some 200%Z \/ exists n, e_sql env n <> None)) as Hno.
  { intros a1 s2 [= <- <-] [Hd _] H1. split; [done|by left]. }
  unfold BindHostToHostGroup in H. destruct (Z.eqb_spec g 0) as [|Hg]; [left; by eapply Hno|].
  apply mthen_inv in H as (u & s2 & E2 & H). apply (GetUser_acts env Ho) in E2 as [S3 _].
  apply mthen_inv in H as ([G eo] & s3 & E3 & H). pose proof (same_trans _ _ _ S3 (find_one_same _ Ho _ _ _ _ _ _ _ E3)) as S4.
  destruct eo as [e|]; [left; by eapply Hno|]. destruct (owns _ _ _); cbn [negb] in H; [|left; by eapply Hno].
  apply (find_one_spec env Ho) in E3 as [_ [_ E3]]. unfold whereSQL, PrimaryKeyZero, same_pk, group_id in E3. cbn in E3.
  destruct (Z.eqb_spec g 0); [done|]. cbn in E3. apply andb_true_iff in E3 as [E3 _]. apply Z.eqb_eq in E3. rewrite <- E3 in H. clear E3.
  destruct S4 as [Hd Ht3]. rewrite Ht in Ht3. unfold Begin at 1, mthen at 1 in H.
  set (s4 := a_set_tx _ _) in H. destruct (e_sql env (api_tick s3)) as [e|] eqn:Eb.
  { unfold delete_rows, stmt, Rollback, mthen in H. discriminate H. }
  assert (in_tx (api_db s) (api_db s) s4) as S5 by (by split; cbn; rewrite Hd).
  apply mthen_inv in H as ([rows eo] & s5 & E5 & H). apply (delete_tx env _ _ TGrpHost _ _ _ _ _ _ S5) in E5. destruct eo as [e|].
  { apply (rollback_tx (api_db s) (api_db s)) in H as (-> & H1 & _); [left; split; [done|by left]|done]. }
  apply mthen_inv in H as (o & s6 & E6 & H). eapply (bind_each_tx env Ho) in E6; [|exact E5|by rewrite set_rows_other].
  destruct o as [ids|b]; [|destruct E6 as (H1 & _ & H2); left; injection H as <- <-; split; [done|by left]].
  destruct E6 as (d' & new & -> & H6 & (G1 & [more G2] & G3) & HF). apply (commit_tx env (api_db s) d') in H as [-> [H|[H He]]]; [| |done].
  - right. split; [done|]. exists new. rewrite !H. split; [done|]. rewrite set_rows_same in G1. split; [exact G1|].
    split; [exists more; by rewrite G2, set_rows_other|]. intros t H1 H2. by rewrite G3, set_rows_other by done.
  - left. split; [done|by right].
Qed.

(** C9: A request to set the hosts of a group either leaves every table as it is,
    and then it is refused or the server did not commit; or it is answered
    with 200, and the group has the listed hosts, in their order and with the
    ids of their rows, and no others: hosts that were not known are added, and
    nothing else changes. *)
Theorem bind_hosts_exact (env : ApiEnv) (tok : token) (hosts : list string) (g : Z) (s s' : Api) a :
  (forall n R l, Permutation (e_order env n R l) l) -> api_tx s = NoTx ->
  serve env tok (RBindHostToHostGroup (Some (mkBindHost (Some hosts) g))) s = Ret (a, s') ->
  (api_db s' = api_db s /\ (status a <> Some 200%Z \/ exists n, e_sql env n <> None)) \/
  (status a = Some 200%Z /\ bound_exactly env g hosts (api_db s) (api_db s')).
Proof.
  intros Ho Ht H. apply serve_closed_route in H as [(Hd & Hs)|(s1 & [Hd1 Ht1] & H)]; [left; split; [done|left; by rewrite Hs]| |done].
  rewrite <- Hd1. eapply BindHosts_run; [done|congruence|exact H].
Qed.
Lemma bind_hosts_exact_witness : exists a s', serve demo_env alice (RBindHostToHostGroup (Some (mkBindHost (Some ["w2"; "w3"]) 1))) demo_api = Ret (a, s') /\
  exists ids, Forall2 (names_host demo_env (api_db s')) ["w2"; "w3"] ids /\ api_db s' TGrpHost = (mkGrpHost 2 2 :: map (mkGrpHost 1) ids)%list.
Proof.
  assert (answered (serve demo_env alice (RBindHostToHostGroup (Some (mkBindHost (Some ["w2"; "w3"]) 1))) demo_api) = Some 200%Z) as A by by vm_compute.
  demo_run (serve demo_env alice (RBindHostToHostGroup (Some (mkBindHost (Some ["w2"; "w3"]) 1))) demo_api) a s' E. exists a, s'. split; [done|].
  destruct (bind_hosts_exact demo_env alice _ _ demo_api s' a demo_permutes eq_refl E) as [[_ [H|[n H]]]|(_ & ids & H1 & H2 & _)]; [done|done|].
  by exists ids.
Defined.

(** * Sessions *)

(** The check of the session lets a token pass, and changes nothing. *)
Definition accepted (env : ApiEnv) (tok : token) (s : Api) : Prop := exists s2, SessionChecking env tok s = Ret (None, s2) /\ same s s2.

Section sessions.
Context (env : ApiEnv) (redis_ok : forall n, e_redis env n = None).

Lemma session_accepted name sig s ses : name <> "" -> sig <> "" -> api_redis s !! sig_redis_key name = Some ses -> se_Sig ses = sig ->
  accepted env (Token name sig) s.
Proof using redis_ok.
  intros Hn Hs Hr He. unfold accepted, SessionChecking, GetSession. apply String.eqb_neq in Hn, Hs. rewrite Hn, Hs. cbn [ws_Name ws_Sig].
  destruct (_ && _); [by exists s|]. unfold RedisGet, mthen. rewrite redis_ok, Hr. exists (a_tick s). split; [|done].
  unfold ret. by rewrite He, String.eqb_refl.
Qed.
Lemma new_session_run u s a s' : new_session env u s = Ret (a, s') -> exists sig,
  a = ok (LoggedIn sig (us_Name u) (IsAdmin env u)) /\ same s s' /\ api_redis s' !! sig_redis_key (us_Name u) = Some (mkSession 0 (us_ID u) sig 0).
Proof using redis_ok.
  unfold new_session, RedisSet, mthen, gets. rewrite redis_ok. intros [= <- <-]. eexists. split; [done|]. split; [done|]. cbn [api_redis a_set_redis]. apply lookup_insert_eq.
Qed.
End sessions.

(** C13: A session that [Login] gives is accepted afterwards and names a row of the
    table of users whose name is, under the collation, the one that was given:
    the requests made with it act for that user, while redis answers.  The password has no part in
    it: any other that is not blank gives the same answer. *)
Theorem login_opens (env : ApiEnv) (i : APILoginInput) (s s' : Api) sig name adm :
  (forall n R l, Permutation (e_order env n R l) l) -> (forall n, e_redis env n = None) ->
  serve env NoToken (RLogin (Some i)) s = Ret (Answer 200 (LoggedIn sig name adm), s') -> name <> "" -> sig <> "" ->
  accepted env (Token name sig) s' /\
  (exists u, u ∈ api_db s TUser /\ us_Name u = name /\ sql_eq env name (li_Name i) = true /\ adm = IsAdmin env u /\ acts env (Token name sig) (api_db s') u) /\
  forall pw, pw <> "" -> serve env NoToken (RLogin (Some (mkLogin (li_Name i) pw (li_AdminSalt i)))) s = Ret (Answer 200 (LoggedIn sig name adm), s').
Proof.
  intros Ho Hq Hrun Hn Hs. pose proof Hrun as H. unfold serve in H. cbn [open_route handler] in H. unfold Login in H.
  destruct (String.eqb (li_Name i) "" || String.eqb (li_Password i) "") eqn:Eb; [discriminate H|]. apply mthen_inv in H as ([u eo] & s1 & E1 & H).
  pose proof (find_one_same env Ho _ _ _ _ _ _ _ E1) as S1. apply (find_one_spec env Ho) in E1 as [_ E1]. cbv iota beta in H.
  destruct eo as [e|]; [subst u; destruct e; discriminate H|]. destruct E1 as [Hin Hw]. unfold sees in Hin. apply andb_true_iff in Hw as [_ Hw].
  assert (exists ses, name = us_Name u /\ adm = IsAdmin env u /\ se_Sig ses = sig /\ same s1 s' /\
    api_redis s' !! sig_redis_key (us_Name u) = Some ses) as (ses & -> & -> & Hsig & S2 & Hr).
  { destruct (us_ID u =? 0)%Z; [discriminate H|]. unfold RedisGet at 1, mthen at 1 in H. rewrite Hq in H. destruct (api_redis s1 !! _) as [ses|] eqn:Er.
    - destruct (_ && _); [discriminate H|]. unfold ok, ret in H. simplify_eq H. intros <- <- <- <-. by exists ses.
    - apply (new_session_run env Hq) in H as (g & [= <- <- <-] & S2 & Hr). eexists. split; [done|]. split; [done|]. split; [|split; [exact S2|exact Hr]]. done. }
  split; [by eapply session_accepted|]. pose proof (same_trans _ _ _ S1 S2) as [Hd _]. split.
  - exists u. split; [exact Hin|]. split; [done|]. split; [done|]. split; [done|]. left. exists (mkWebSession (us_Name u) sig).
    unfold GetSession. apply String.eqb_neq in Hn, Hs. rewrite Hn, Hs. split; [done|]. right. rewrite Hd. split; [exact Hin|].
    unfold like_name, sql_eq. cbn [ws_Name]. by rewrite (String.eqb_refl (e_collate env _)), orb_true_r.
  - intros pw Hpw. rewrite <- Hrun. unfold serve. cbn [open_route handler]. unfold Login. cbn [li_Name li_Password li_AdminSalt].
    apply orb_false_iff in Eb as [-> ->]. apply String.eqb_neq in Hpw. by rewrite Hpw.
Qed.
Lemma login_opens_witness : exists s', serve demo_env NoToken (RLogin (Some (mkLogin "bob" "guess" ""))) demo_api = Ret (Answer 200 (LoggedIn "sig1" "bob" false), s') /\
  accepted demo_env (Token "bob" "sig1") s'.
Proof.
  eexists. split; [vm_compute; reflexivity|].
  refine (proj1 (login_opens demo_env (mkLogin "bob" "guess" "") demo_api _ "sig1" "bob" false demo_permutes (fun _ => eq_refl) _ _ _)); [by vm_compute|done|done].
Defined.

(** * The members of a team *)

(** The users a list of memberships gives a team. *)
Definition uids (tid : Z) (l : list RelTeamUser) : list Z := map re_Uid (List.filter (fun m => (re_Tid m =? tid)%Z) l).
Lemma NoDup_map_same {A B} (f : A -> B) l x y : NoDup (map f l) -> x ∈ l -> y ∈ l -> f x = f y -> x = y.
Proof.
  induction l as [|z l IH]; [by intros _ ?%elem_of_nil|]. cbn. intros [Hz Hnd]%NoDup_cons [->|Hx]%elem_of_cons [->|Hy]%elem_of_cons E; [done|..|by apply IH].
  - exfalso. apply Hz. rewrite E. apply list_elem_of_In, in_map. by apply list_elem_of_In.
  - exfalso. apply Hz. rewrite <- E. apply list_elem_of_In, in_map. by apply list_elem_of_In.
Qed.
Lemma omap_all {A B} (f : A -> B) l : omap (fun x => Some (f x)) l = map f l.
Proof. induction l as [|x l IH]; [done|]. cbn. by f_equal. Qed.
(** A table holds these rows, and there is no transaction. *)
Definition table (t : tbl) (l : list (row t)) (s : Api) : Prop := api_db s t = l /\ api_tx s = NoTx.
Lemma same_table t l s s' : same s s' -> table t l s -> table t l s'.
Proof. intros [H1 H2] [H3 H4]. split; [by rewrite H1|by rewrite H2]. Qed.

Lemma elem_of_uids tid l u : u ∈ uids tid l <-> exists m, m ∈ l /\ re_Tid m = tid /\ re_Uid m = u.
Proof.
  unfold uids. rewrite list_elem_of_In, in_map_iff. split.
  - intros (m & <- & [Hm Ht]%filter_In). exists m. apply Z.eqb_eq in Ht. by rewrite list_elem_of_In.
  - intros (m & Hm & Ht & <-). exists m. split; [done|]. apply filter_In. rewrite <- list_elem_of_In. split; [done|by apply Z.eqb_eq].
Qed.
(** Memberships of another team do not count. *)
Lemma uids_more t tid l new : t <> tid -> (forall m, m ∈ new -> re_Tid m = tid) -> uids t (l ++ new) = uids t l.
Proof.
  intros Ht Hn. unfold uids. rewrite List.filter_app, map_app. replace (List.filter _ new) with (@nil RelTeamUser); [by rewrite app_nil_r|].
  induction new as [|m new IH]; [done|]. cbn. rewrite (Hn m) by left. destruct (Z.eqb_spec tid t); [congruence|]. apply IH. intros. apply Hn. by right.
Qed.
Lemma uids_drop tid l q : (forall m, m ∈ l -> q m = true -> re_Tid m <> tid) -> uids tid (List.filter (fun m => negb (q m)) l) = uids tid l.
Proof.
  intros Hq. unfold uids. f_equal. induction l as [|m l IH]; [done|]. cbn. assert (forall m', m' ∈ l -> q m' = true -> re_Tid m' <> tid) as Hl.
  { intros m' Hm'. apply Hq. by right. }
  destruct (q m) eqn:E; cbn; [|by rewrite IH]. destruct (Z.eqb_spec (re_Tid m) tid) as [e|]; [|by apply IH]. exfalso. eapply Hq; [by left|done..].
Qed.

Section team.
Context (env : ApiEnv) (order_ok : forall n R l, Permutation (e_order env n R l) l).

Lemma find_all_table t p l s r eo s' : table t l s -> find_all env DB t p s = Ret ((r, eo), s') ->
  table t l s' /\ match eo with None => Permutation r (List.filter p l) | Some _ => r = [] end.
Proof using order_ok.
  intros Hs H. unfold find_all in H. apply mthen_inv in H as (e & s1 & E & H). apply stmt_run in E as [S1 _].
  pose proof (same_table _ _ _ _ S1 Hs) as H1. destruct e; [by injection H as <- <- <-|]. apply mthen_inv in H as (rows & s2 & E2 & [= <- <- <-]).
  injection E2 as <- <-. split; [done|]. destruct H1 as [H1 _]. unfold sees. rewrite H1. apply order_ok.
Qed.
Lemma delete_table t v p l s n s' : table t l s -> delete_rows env DB t v p s = Ret ((n, None), s') ->
  table t (List.filter (fun r => negb (whereSQL t v p r)) l) s'.
Proof using Type.
  intros [Hd Ht] H. apply delete_run in H. unfold put in H. rewrite Ht in H. destruct H as [H1 H2].
  split; [rewrite H1; cbn; by rewrite set_rows_same, Hd|by rewrite H2].
Qed.
Lemma create_table t v l s v' s' : table t l s -> create env DB t v s = Ret ((v', None), s') ->
  (v' = v \/ exists n, v' = set_pk t n v) /\ table t (l ++ [v'])%list s'.
Proof using Type.
  intros [Hd Ht] H. apply create_run in H as [Hv H]. unfold put in H. rewrite Ht in H. destruct H as [H1 H2].
  split; [destruct Hv as [->|[_ ->]]; eauto|]. split; [rewrite H1; cbn; by rewrite set_rows_same, Hd|by rewrite H2].
Qed.

Lemma filter_filter {A} (p q : A -> bool) l : List.filter p (List.filter q l) = List.filter (fun x => q x && p x) l.
Proof using Type. induction l as [|x l IH]; [done|]. cbn. destruct (q x); cbn; by rewrite IH. Qed.

(** The rows whose ids are listed are gone. *)
Lemma drop_members_run l0 l s s' : table TRel l0 s -> Forall (fun m => re_ID m <> 0%Z) l -> drop_members env l s = Ret (None, s') ->
  table TRel (List.filter (fun m => negb (in_ids (map re_ID l) (re_ID m))) l0) s'.
Proof using Type.
  revert l0 s. induction l as [|m l IH]; intros l0 s Hs Hl H.
  { injection H as <-. rewrite (filter_ext _ (fun _ => true)); [|by intros ?]. by rewrite filter_true. }
  apply Forall_cons in Hl as [Hm Hl]. cbn [drop_members] in H. apply mthen_inv in H as ([n eo] & s1 & E & H). cbn [snd] in H.
  destruct eo; [discriminate H|]. pose proof (delete_table TRel _ _ _ _ _ _ Hs E) as H1. pose proof (IH _ _ H1 Hl H) as H2.
  rewrite filter_filter in H2. erewrite filter_ext; [exact H2|]. intros r. unfold whereSQL, PrimaryKeyZero, same_pk, any, in_ids. cbn [pk map].
  apply Z.eqb_neq in Hm. rewrite Hm. cbn [orb]. rewrite andb_true_r. destruct (Z.eqb_spec (re_ID m) (re_ID r)) as [e|He]; cbn.
  - rewrite bool_decide_true; [done|]. rewrite e. by left.
  - f_equal. apply bool_decide_ext. rewrite elem_of_cons. naive_solver.
Qed.

(** What is added are memberships of the team, and every user that is listed has one in the end. *)
Lemma bind_members_run tid l l0 s s' : tid <> 0%Z -> 0%Z ∉ l -> table TRel l0 s -> bind_members env tid l s = Ret (None, s') ->
  exists new, table TRel (l0 ++ new)%list s' /\ (forall m, m ∈ new -> re_Tid m = tid /\ re_Uid m ∈ l) /\ forall u, u ∈ l -> u ∈ uids tid (l0 ++ new).
Proof using order_ok.
  intros Ht. revert l0 s. induction l as [|u l IH]; intros l0 s H0 Hs H.
  { injection H as <-. exists []. rewrite app_nil_r. split; [done|]. split; [intros ? ?%elem_of_nil|intros ? ?%elem_of_nil]; done. }
  apply not_elem_of_cons in H0 as [Hu H0]. cbn [bind_members] in H. apply mthen_inv in H as ([w eo] & s1 & E & H).
  pose proof (find_one_same env order_ok _ _ _ _ _ _ _ E) as S1. apply (find_one_spec env order_ok) in E as [_ E]. cbn [fst] in H.
  assert (re_Tid w = tid /\ re_Uid w = u) as [Hw1 Hw2].
  { destruct eo; [by subst w|]. destruct E as [_ Hw]. apply andb_true_iff in Hw as [_ Hw]. unfold like_rel in Hw.
    apply andb_true_iff in Hw as [Ha Hb]. destruct (Z.eqb_spec tid 0); [done|]. destruct (Z.eqb_spec u 0); [done|]. cbn in Ha, Hb. split; lia. }
  pose proof (same_table _ _ _ _ S1 Hs) as H1. destruct (Z.eqb_spec (re_ID w) 0) as [Hz|Hz].
  - apply mthen_inv in H as ([v fo] & s2 & E2 & H). cbn [snd] in H. destruct fo; [discriminate H|].
    destruct (create_table TRel _ _ _ _ _ H1 E2) as [Hv H2]. destruct (IH _ _ H0 H2 H) as (new & H3 & Hn & Hl). rewrite <- app_assoc in H3, Hl.
    assert (re_Tid v = tid /\ re_Uid v = u) as [Hv1 Hv2] by (by destruct Hv as [->|[n ->]]). exists (v :: new). split; [done|]. split.
    + intros m [->|Hm]%elem_of_cons; [rewrite Hv2; split; [done|by left]|]. destruct (Hn m Hm). split; [done|by right].
    + intros u' [->|Hu']%elem_of_cons; [|by apply Hl]. apply elem_of_uids. exists v. split; [apply elem_of_app; right; by left|done].
  - destruct (IH _ _ H0 H1 H) as (new & H3 & Hn & Hl). exists new. split; [done|]. split; [intros m Hm; destruct (Hn m Hm); split; [done|by right]|].
    intros u' [->|Hu']%elem_of_cons; [|by apply Hl]. apply elem_of_uids. exists w. destruct eo; [by subst w|]. destruct E as [Hin _].
    destruct Hs as [Hd _]. unfold sees in Hin. rewrite Hd in Hin. split; [apply elem_of_app; by left|done].
Qed.

(** [bindUsers] without an error: the team has the listed users, the other teams have theirs. *)
Lemma bindUsers_run tid l l0 s s' : tid <> 0%Z -> 0%Z ∉ l -> NoDup (map re_ID l0) -> 0%Z ∉ map re_ID l0 -> table TRel l0 s ->
  bindUsers env tid l s = Ret (None, s') ->
  exists l1, table TRel l1 s' /\ (forall u, u ∈ uids tid l1 <-> u ∈ l) /\ forall t, t <> tid -> uids t l1 = uids t l0.
Proof using order_ok.
  intros Ht H0 Hnd Hz Hs H. unfold bindUsers in H. destruct l as [|u0 l]; [discriminate H|]. revert H. generalize dependent (u0 :: l). clear u0 l. intros l H0 H.
  apply mthen_inv in H as ([gone eo] & s1 & E1 & H). destruct (find_all_table _ _ _ _ _ _ _ Hs E1) as [H1 Hg]. destruct eo; [discriminate H|].
  apply mthen_inv in H as (e & s2 & E2 & H). destruct e; [discriminate H|]. apply mthen_inv in H as (e & s3 & E3 & H). destruct e; [discriminate H|]. injection H as <-.
  assert (forall m, m ∈ gone <-> m ∈ l0 /\ re_Tid m = tid /\ re_Uid m ∉ l) as Hin.
  { intros m. rewrite Hg, !list_elem_of_In, filter_In, andb_true_iff, negb_true_iff, Z.eqb_eq. unfold in_ids. by rewrite bool_decide_eq_false, list_elem_of_In. }
  assert (forall m, m ∈ l0 -> in_ids (map re_ID gone) (re_ID m) = true <-> re_Tid m = tid /\ re_Uid m ∉ l) as Hq.
  { intros m Hm. unfold in_ids. rewrite bool_decide_eq_true, list_elem_of_In, in_map_iff. split.
    - intros (m' & He & Hm'%list_elem_of_In). apply Hin in Hm' as (Hm' & Hr). by rewrite <- (NoDup_map_same re_ID l0 m' m).
    - intros Hr. exists m. rewrite <- list_elem_of_In. split; [done|]. by apply Hin. }
  apply (drop_members_run l0 gone s1 s2 H1) in E2; [|apply Forall_forall; intros m Hm ?; apply Hz; apply Hin in Hm as [Hm _];
    apply list_elem_of_In, in_map_iff; exists m; by rewrite <- list_elem_of_In].
  destruct (bind_members_run _ _ _ _ _ Ht H0 E2 E3) as (new & H4 & Hn & Hl). eexists. split; [exact H4|]. split.
  - intros u. split; [|apply Hl]. intros (m & [Hm|Hm]%elem_of_app & Hmt & <-)%elem_of_uids; [|by apply Hn].
    apply list_elem_of_In, filter_In in Hm as [Hm%list_elem_of_In Hqm]. destruct (decide (re_Uid m ∈ l)) as [|Hno]; [done|].
    by rewrite (proj2 (Hq m Hm)) in Hqm.
  - intros t Hne. rewrite (uids_more t tid) by (done || apply Hn). apply uids_drop. intros m Hm Hqm. apply Hq in Hqm as [-> _]; [|done]. congruence.
Qed.

(** Statements on other tables leave one as it is. *)
#[local] Instance table_steady t l : Steady (table t l).
Proof using Type. by split; intros. Qed.
Lemma table_kept t l T : t ∉ T -> Kept env T (table t l).
Proof using Type.
  intros Ht. assert (forall X (m : Ap X), keeps (still (fun d => d t) l) m -> keeps closed m -> keeps (table t l) m) as Hboth.
  { intros X m Hm Hc s a s' [Hd Htx] E. split; [|by eapply Hc]. eapply Hm; [|exact E]. split; [done|]. by rewrite Htx. }
  pose proof (still_kept env T _ l (table_blind t T Ht)) as K. pose proof (closed_kept env T) as C.
  split; intros; apply Hboth; first [by apply K | by apply C].
Qed.

Lemma UpdateTeam_run tok i l0 s a s' : 0%Z ∉ ut_UserIDs i -> NoDup (map re_ID l0) -> 0%Z ∉ map re_ID l0 -> table TRel l0 s ->
  UpdateTeam env tok (Some i) s = Ret (a, s') -> status a = Some 200%Z ->
  exists l1, table TRel l1 s' /\ (forall u, u ∈ uids (ut_ID i) l1 <-> u ∈ ut_UserIDs i) /\ forall t, t <> ut_ID i -> uids t l1 = uids t l0.
Proof using order_ok.
  intros H0 Hnd Hz Hs H Ha. unfold UpdateTeam in H. destruct (Z.eqb_spec (ut_ID i) 0) as [|Hi]; [by injection H as <- <-|].
  assert (TRel ∉ [TTeam]) as Hd by set_solver.
  pose proof (keeps_logic env [TTeam] (table TRel l0) (table_kept TRel l0 [TTeam] Hd)) as L.
  apply mthen_inv in H as ([user [e|]] & s1 & E1 & H); [by injection H as <- <-|]. apply (J_GetUser env tok [TTeam] (fun X => keeps (table TRel l0))) in E1; [|done].
  apply mthen_inv in H as (allowed & s2 & E2 & H).
  assert (keeps (table TRel l0) (may_update env user (ut_ID i))) as K2.
  { unfold may_update. repeat first [apply keeps_ret | apply keeps_gets | apply (J_stmt (Logic := L)) | apply keeps_then; intros | keeps_if]. }
  apply K2 in E2; [|done]. destruct allowed; cbn [negb] in H; [|by injection H as <- <-].
  apply mthen_inv in H as ([n eo] & s3 & E3 & H).
  match type of E3 with ?m s2 = _ => assert (keeps (table TRel l0) m) as K3 end.
  { keeps_if; [apply keeps_ret|]. apply (J_update (Logic := L)); [by left|by intros ? ?]. }
  apply K3 in E3; [|done]. destruct eo; [by injection H as <- <-|]. apply mthen_inv in H as (err & s4 & E4 & H).
  destruct err as [[|e]|]; [by injection H as <- <-..|]. injection H as <- <-. by eapply bindUsers_run.
Qed.
End team.

(** When an update of a team is answered with 200, its members are the users
    that were listed, no more and no less, and the members of the other teams
    are what they were, as long as 0 is no id of the table and no user that is
    listed. *)
Theorem team_members_exact (env : ApiEnv) (tok : token) (i : APIUpdateTeamInput) (s s' : Api) a :
  (forall n R l, Permutation (e_order env n R l) l) -> ordered env s -> api_tx s = NoTx ->
  0%Z ∉ ut_UserIDs i -> 0%Z ∉ map re_ID (api_db s TRel) ->
  serve env tok (RUpdateTeam (Some i)) s = Ret (a, s') -> status a = Some 200%Z ->
  (forall u, u ∈ uids (ut_ID i) (api_db s' TRel) <-> u ∈ ut_UserIDs i) /\
  forall t, t <> ut_ID i -> uids t (api_db s' TRel) = uids t (api_db s TRel).
Proof.
  intros Ho [Hk _] Ht H0 Hz H Ha. apply serve_closed_route in H as [(_ & Hs)|(s1 & S1 & H)]; [congruence| |done].
  assert (NoDup (map re_ID (api_db s TRel))) as Hnd.
  { destruct (Hk TRel) as [[Hn _]%indexed_spec _]. by rewrite (omap_all re_ID) in Hn. }
  destruct (UpdateTeam_run env Ho tok i (api_db s TRel) s1 a s') as (l1 & [H1 _] & H2); [done..| |done|done|by rewrite H1].
  eapply same_table; [exact S1|done].
Qed.
Lemma team_members_exact_witness : exists a s', serve demo_env alice (RUpdateTeam (Some (mkUpdateTeam 1 "" "" [3; 2]%Z))) demo_api = Ret (a, s') /\
  (forall u, u ∈ uids 1 (api_db s' TRel) <-> u ∈ [3; 2]%Z) /\ forall t, t <> 1%Z -> uids t (api_db s' TRel) = uids t (demo_db TRel).
Proof.
  assert (answered (serve demo_env alice (RUpdateTeam (Some (mkUpdateTeam 1 "" "" [3; 2]%Z))) demo_api) = Some 200%Z) as A by by vm_compute.
  demo_run (serve demo_env alice (RUpdateTeam (Some (mkUpdateTeam 1 "" "" [3; 2]%Z))) demo_api) a s' E. exists a, s'. split; [done|].
  apply (team_members_exact demo_env alice (mkUpdateTeam 1 "" "" [3; 2]%Z) demo_api s' a demo_permutes demo_ordered eq_refl);
    [by_compute|by_compute|exact E|exact A].
Defined.

(** * Templates go with all that hangs on them *)

Section templates.
Context (env : ApiEnv) (order_ok : forall n R l, Permutation (e_order env n R l) l).

(** A step of a transaction that removes rows: it is refused, or the rest runs without them. *)
Lemma tx_delete_run D d t v p c b (k : Ap answer) s a s' : in_tx D d s -> c <> 200%Z -> tx_delete env t v p c b k s = Ret (a, s') ->
  (status a <> Some 200%Z /\ api_db s' = D) \/
  exists s1, in_tx D (set_rows t (List.filter (fun r => negb (whereSQL t v p r)) (d t)) d) s1 /\ k s1 = Ret (a, s').
Proof using Type.
  intros Hs Hc H. unfold tx_delete in H. apply mthen_inv in H as ([n eo] & s1 & E & H). apply (delete_tx env D d) in E; [|done].
  destruct eo as [e|]; [|right; by exists s1]. left. apply (rollback_tx D d) in H as (-> & H & _); [|done]. split; [|done]. cbn. congruence.
Qed.
(** The rest of the deletion, once the template and its action are gone from the copy. *)
Lemma delete_template_rest D d tid b s a s' : in_tx D d s ->
  tx_delete env TStrategy no_strategy (fun x => (sr_TplId x =? tid)%Z) badstatus ""
    (tx_delete env TGrpTpl (mkGrpTpl 0 0 "") (fun g => (gt_TplID g =? tid)%Z) badstatus "" (do! _ := Commit env in ret (ok b))) s = Ret (a, s') ->
  (api_db s' = D /\ (status a <> Some 200%Z \/ exists n, e_sql env n <> None)) \/
  (status a = Some 200%Z /\
   api_db s' TStrategy = List.filter (fun x => negb (sr_TplId x =? tid)%Z) (d TStrategy) /\
   api_db s' TGrpTpl = List.filter (fun x => negb (gt_TplID x =? tid)%Z) (d TGrpTpl) /\
   forall t, t <> TStrategy -> t <> TGrpTpl -> api_db s' t = d t).
Proof using Type.
  intros S1 H. apply (tx_delete_run D d _ _ _ _ _ _ _ _ _ S1) in H as [[H1 H2]|(s2 & S2 & H)]; [left; auto| |done].
  apply (tx_delete_run _ _ _ _ _ _ _ _ _ _ _ S2) in H as [[H1 H2]|(s3 & S3 & H)]; [left; auto| |done].
  apply (commit_tx _ _ _ _ _ _ _ S3) in H as [-> [H|[H He]]]; [right|left; auto]. split; [done|]. rewrite H.
  split; [by rewrite set_rows_other, set_rows_same|]. split; [by rewrite set_rows_same, set_rows_other|]. intros t H1 H2. by rewrite !set_rows_other.
Qed.
End templates.

(** C12: A request to delete a template either leaves every table as it is, and then
    it is refused or the server did not commit; or it is answered with 200, a
    template of that id was there, and it is gone with its action, its
    strategies and its bindings to groups, and nothing else changes. *)
Theorem delete_template_exact (env : ApiEnv) (tok : token) (id : string) (tid : Z) (s s' : Api) a :
  (forall n R l, Permutation (e_order env n R l) l) -> api_tx s = NoTx -> atoi id = Some tid -> tid <> 0%Z ->
  serve env tok (RDeleteTemplate id) s = Ret (a, s') ->
  (api_db s' = api_db s /\ (status a <> Some 200%Z \/ exists n, e_sql env n <> None)) \/
  (status a = Some 200%Z /\ exists tpl, tpl ∈ api_db s TTpl /\ tp_ID tpl = tid /\
     api_db s' TTpl = List.filter (fun t => negb (tp_ID t =? tid)%Z) (api_db s TTpl) /\
     api_db s' TStrategy = List.filter (fun x => negb (sr_TplId x =? tid)%Z) (api_db s TStrategy) /\
     api_db s' TGrpTpl = List.filter (fun x => negb (gt_TplID x =? tid)%Z) (api_db s TGrpTpl) /\
     api_db s' TAction = (if (tp_ActionID tpl =? 0)%Z then api_db s TAction
                          else List.filter (fun x => negb (pa_ID x =? tp_ActionID tpl)%Z) (api_db s TAction)) /\
     forall t, t ∉ footprint (RDeleteTemplate id) -> api_db s' t = api_db s t).
Proof.
  intros Ho Ht Hid Htid Hrun. assert (forall t, t ∉ footprint (RDeleteTemplate id) -> api_db s' t = api_db s t) as Hrest.
  { intros t Hni. eapply (serve_still env tok (RDeleteTemplate id) (fun d => d t)); [by apply table_blind|done..]. }
  apply serve_closed_route in Hrun as [(Hd & Hs)|(s1 & [Hd1 Ht1] & H)]; [left; split; [done|left; by rewrite Hs]| |done]. rewrite Ht in Ht1.
  cbn [handler] in H. unfold DeleteTemplate, path_id in H. destruct (String.eqb_spec id "") as [->|_]; [discriminate Hid|]. rewrite Hid in H.
  unfold Begin at 1, mthen at 1 in H. set (s2 := a_set_tx _ _) in H. destruct (e_sql env (api_tick s1)) as [e|] eqn:Eb; [discriminate H|].
  assert (in_tx (api_db s) (api_db s) s2) as S2 by (split; cbn; by rewrite Hd1). clearbody s2. clear Eb Hd1 Ht1 s1.
  apply mthen_inv in H as ([tpl eo] & s3 & E3 & H). destruct (find_tx env Ho _ _ _ _ _ _ _ _ _ S2 E3) as [S3 Hf]. cbv zeta in H. destruct eo as [e|].
  { apply (rollback_tx _ _ _ _ _ _ S3) in H as (-> & H & _). left. split; [done|by left]. }
  destruct Hf as [Hin Hf]. unfold whereSQL, has_id in Hf. cbn in Hf. apply Z.eqb_eq in Hf.
  apply (tx_delete_run env _ _ _ _ _ _ _ _ _ _ _ S3) in H as [[H1 H2]|(s4 & S4 & H)]; [left; auto| |done].
  assert ((api_db s' = api_db s /\ status a <> Some 200%Z) \/ exists d5 s5, in_tx (api_db s) d5 s5 /\
    (tx_delete env TStrategy no_strategy (fun x => (sr_TplId x =? tid)%Z) badstatus ""
      (tx_delete env TGrpTpl (mkGrpTpl 0 0 "") (fun g => (gt_TplID g =? tid)%Z) badstatus ""
        (do! _ := Commit env in ret (ok (Message ("template " ++s itoa tid ++s " has been deleted")))))) s5 = Ret (a, s') /\
    d5 TTpl = List.filter (fun t => negb (tp_ID t =? tid)%Z) (api_db s TTpl) /\ d5 TStrategy = api_db s TStrategy /\ d5 TGrpTpl = api_db s TGrpTpl /\
    d5 TAction = (if (tp_ActionID tpl =? 0)%Z then api_db s TAction else List.filter (fun x => negb (pa_ID x =? tp_ActionID tpl)%Z) (api_db s TAction)))
    as [H5|(d5 & s5 & S5 & H5 & F1 & F2 & F3 & F4)].
  { assert (List.filter (fun r => negb (whereSQL TTpl tpl (any TTpl) r)) (api_db s TTpl) = List.filter (fun t => negb (tp_ID t =? tid)%Z) (api_db s TTpl)) as Ef.
    { apply filter_ext. intros r. unfold whereSQL, PrimaryKeyZero, same_pk, any. cbn. apply Z.eqb_neq in Htid. rewrite Hf, Htid. cbn.
      by rewrite andb_true_r, Z.eqb_sym. }
    destruct (tp_ActionID tpl =? 0)%Z.
    - right. eexists _, s4. split; [exact S4|]. split; [exact H|]. by rewrite set_rows_same, !set_rows_other.
    - apply (tx_delete_run env _ _ _ _ _ _ _ _ _ _ _ S4) in H as [[H1 H2]|(s6 & S6 & H)]; [left; auto| |done].
      right. eexists _, s6. split; [exact S6|]. split; [exact H|].
      repeat first [rewrite set_rows_same | rewrite set_rows_other by done]. done. }
  { left. destruct H5. auto. }
  apply (delete_template_rest env _ _ _ _ _ _ _ S5) in H5 as [H5|(H1 & H2 & H3 & H4)]; [by left|right].
  split; [done|]. exists tpl. rewrite H2, H3, !H4, F2, F3 by done. auto 10.
Qed.
Lemma delete_template_exact_witness : exists a s', serve demo_env alice (RDeleteTemplate "1") demo_api = Ret (a, s') /\
  exists tpl, tpl ∈ demo_db TTpl /\ tp_ID tpl = 1%Z /\ api_db s' TTpl = [mkPTemplate 2 "disk" 1 0 "root"].
Proof.
  assert (answered (serve demo_env alice (RDeleteTemplate "1") demo_api) = Some 200%Z) as A by by vm_compute.
  demo_run (serve demo_env alice (RDeleteTemplate "1") demo_api) a s' E. exists a, s'. split; [done|].
  destruct (delete_template_exact demo_env alice "1" 1 demo_api s' a demo_permutes eq_refl eq_refl ltac:(done) E) as [[_ [H|[n H]]]|(_ & tpl & H1 & H2 & H3 & _)];
    [done|done|]. by exists tpl.
Defined.

(** * Deletions by an id in the path *)

(** Which table the id in the path of a deletion is of. *)
Inductive deletes_by_id (id : string) : request -> tbl -> Prop :=
  | by_strategy : deletes_by_id id (RDeleteStrategy id) TStrategy
  | by_nodata : deletes_by_id id (RDeleteNoData id) TMockcfg.

(** A delete by a value with a key is one statement, outside of transactions. *)
Lemma delete_by_key env t v i s (yes : answer) (no : db_err -> answer) :
  pk t v = Some i -> api_tx s = NoTx ->
  exists s', (do! r := delete_rows env DB t v (any t) in ret (match r with (_, Some e) => no e | _ => yes end)) s =
      Ret (match e_sql env (api_tick s) with Some x => no (Refused x) | None => yes end, s') /\
    match e_sql env (api_tick s) with
    | Some _ => api_db s' = api_db s
    | None => api_db s' t = (if (i =? 0)%Z then [] else List.filter (fun x => negb (has_id t i x)) (api_db s t)) /\ forall t', t' <> t -> api_db s' t' = api_db s t'
    end.
Proof.
  intros Hi Ht. unfold delete_rows, stmt, mthen at 1 2. destruct (e_sql env (api_tick s)) as [x|]; cbn [fmap option_fmap option_map].
  { by exists (a_tick s). }
  eexists. split; [reflexivity|]. unfold put, sees. cbn -[set_rows any whereSQL]. rewrite Ht. cbn -[set_rows any whereSQL]. split; [|intros t' H; by rewrite set_rows_other].
  rewrite set_rows_same. unfold whereSQL, PrimaryKeyZero, same_pk, any, has_id. rewrite Hi.
  destruct (i =? 0)%Z; cbn [orb].
  - induction (api_db s t) as [|x l IH]; [done|exact IH].
  - apply filter_ext. intros x. rewrite andb_true_r. destruct (pk t x); [by rewrite Z.eqb_sym|done].
Qed.

Lemma AuthSessionMidd_total env tok s : exists refused s1, AuthSessionMidd env tok s = Ret (refused, s1).
Proof.
  unfold AuthSessionMidd, SessionChecking. destruct (GetSession tok) as [w|e]; [|do 2 eexists; reflexivity].
  destruct (_ && _); do 2 eexists; reflexivity.
Qed.

(** C14: A request to delete a strategy, or a configuration of nodata, whose
    path holds a number is refused when the session is not accepted.  With any
    accepted session, whosever it is, it is answered 400 and changes nothing
    when the database refuses its one statement; else it is answered 200 and
    removes the row whose id is the number, and nothing else; but with the
    number 0 it removes every row of the table. *)
Theorem zero_deletes_all (env : ApiEnv) (tok : token) (r : request) (t : tbl) (id : string) (i : Z) (s : Api) :
  deletes_by_id id r t -> api_tx s = NoTx -> atoi id = Some i ->
  exists refused s1, AuthSessionMidd env tok s = Ret (refused, s1) /\
  exists a s', serve env tok r s = Ret (a, s') /\
  match refused, e_sql env (api_tick s1) with
  | Some x, _ => a = x /\ status a = Some 401%Z /\ api_db s' = api_db s
  | None, Some _ => status a = Some 400%Z /\ api_db s' = api_db s
  | None, None => status a = Some 200%Z /\
      api_db s' t = (if (i =? 0)%Z then [] else List.filter (fun x => negb (has_id t i x)) (api_db s t)) /\
      forall t', t' <> t -> api_db s' t' = api_db s t'
  end.
Proof.
  intros Hr Ht Hid. destruct (AuthSessionMidd_total env tok s) as (refused & s1 & E). exists refused, s1. split; [done|].
  pose proof (session_same _ _ _ _ _ E) as [Hd1 Ht1]. assert (open_route r = false) as Ho by by destruct Hr.
  unfold serve. rewrite Ho, (mthen_run _ _ _ _ _ E). destruct refused as [x|].
  { exists x, s1. split; [done|]. split; [done|]. split; [|by rewrite Hd1]. by eapply session_refuses. }
  rewrite Ht in Ht1. rewrite <- Hd1.
  assert (String.eqb id "" = false) as Hne by (destruct (String.eqb_spec id "") as [->|]; [discriminate Hid|done]).
  destruct Hr; cbn [handler]; unfold DeleteStrategy, DeleteNoData, path_id; rewrite Hne, Hid.
  - destruct (delete_by_key env TStrategy (strategy_id i) i s1 (ok (Message ("strategy:" ++s itoa i ++s " has been deleted"))) (fun e => Answer badstatus (Problem "" e)) eq_refl Ht1) as (s' & -> & H).
    eexists _, s'. split; [reflexivity|]. by destruct (e_sql env (api_tick s1)).
  - destruct (delete_by_key env TMockcfg (mockcfg_id i) i s1 (ok (Message ("mockcfg:" ++s itoa i ++s " is deleted"))) (fun e => Answer badstatus (Problem "" e)) eq_refl Ht1) as (s' & -> & H).
    eexists _, s'. split; [reflexivity|]. by destruct (e_sql env (api_tick s1)).
Qed.
Lemma zero_deletes_all_witness : exists a s', serve demo_env alice (RDeleteStrategy "0") demo_api = Ret (a, s') /\ api_db s' TStrategy = [].
Proof.
  destruct (zero_deletes_all demo_env alice _ TStrategy "0" 0 demo_api (by_strategy _) eq_refl eq_refl) as (refused & s1 & E & a & s' & Es & H).
  exists a, s'. split; [exact Es|]. vm_compute in E. injection E as <- <-. exact (proj1 (proj2 H)).
Defined.
