(* ===== verification/ApiBoardsThms.v ===== *)
(** What the boards show: a graph that was made is given back with its lists in
    order ([board_comes_back]), and a link, once given, shows the lists it was
    made for, also to those that asked for other lists with the same text
    ([links_shared]). *)
From S2P Require Import Prelude GoStr.
From S2P Require Export ApiProps.
From Stdlib Require Import Ascii.

Local Open Scope string_scope.

(** * Searches for the first row *)

Lemma first_row_in t l r : first_row t l = Some r -> r ∈ l.
Proof.
  unfold first_row. assert (forall (l : list (row t)) a r, fold_left (fun a r => match a with
    | None => Some r
    | Some b => match pk t b, pk t r with Some i, Some j => if (j <? i)%Z then Some r else a | _, _ => a end end) l a = Some r ->
    a = Some r \/ r ∈ l) as Hgen.
  { clear. induction l as [|x l IH]; intros a r; cbn [fold_left]; [by left|]. intros [H|H]%IH; [|right; by right].
    destruct a as [b|]; [|injection H as <-; right; by left]. destruct (pk t b), (pk t x); try (by left). destruct (_ <? _)%Z; [|by left].
    injection H as <-. right. by left. }
  intros [H|H]%Hgen; done.
Qed.
Lemma first_row_some t x l : exists r, first_row t (x :: l) = Some r.
Proof.
  unfold first_row. cbn [fold_left]. generalize x. induction l as [|y l IH]; intros z; cbn [fold_left]; [by exists z|].
  destruct (pk t z), (pk t y); try apply IH. destruct (_ <? _)%Z; apply IH.
Qed.

Section first.
Context (env : ApiEnv) (order_ok : forall n R l, Permutation (e_order env n R l) l).

Lemma stmt_refused s e s' : stmt env DB s = Ret (Some e, s') -> (exists x, e = Refused x) /\ exists k, e_sql env k <> None.
Proof using Type.
  unfold stmt. intros [= H <-]. destruct (e_sql env (api_tick s)) as [x|] eqn:E; [|done]. cbn in H. injection H as <-.
  split; [by eexists|]. exists (api_tick s). by rewrite E.
Qed.
(** A search outside a transaction: the row is in the table and meets the condition; no row is found when there is none. *)
Lemma find_first_spec t v p s a s' : find_first env DB t v p s = Ret (a, s') ->
  same s s' /\ match a with
               | (r, None) => r ∈ api_db s t /\ whereSQL t v p r = true
               | (r, Some e) => r = v /\ ((exists k, e_sql env k <> None) \/ forall r, r ∈ api_db s t -> whereSQL t v p r = false)
               end.
Proof using order_ok.
  unfold find_first. intros H. apply mthen_inv in H as (e & s1 & E & H). pose proof (stmt_run env _ _ _ _ E) as (S1 & _).
  destruct e as [e|]; [apply stmt_refused in E as [_ E]; injection H as <- <-; auto|]. unfold select in H.
  apply mthen_inv in H as (rows & s2 & [= <- <-] & [= <- <-]). split; [done|]. cbn [sees].
  set (l := e_order _ _ _ _). assert (Permutation l (List.filter (whereSQL t v p) (api_db s t))) as Hl.
  { rewrite <- (proj1 S1). apply order_ok. }
  destruct (first_row t l) as [r|] eqn:Er.
  - apply first_row_in in Er. rewrite Hl in Er. apply list_elem_of_In, filter_In in Er as [Hr Hp]. split; [by apply list_elem_of_In|done].
  - split; [done|]. right. intros r Hr. destruct (whereSQL t v p r) eqn:Hp; [|done]. exfalso. destruct l as [|x l'] eqn:El.
    + assert (r ∈ @nil (row t)) as Hn; [|by apply elem_of_nil in Hn]. rewrite Hl. apply list_elem_of_In, filter_In. by rewrite <- list_elem_of_In.
    + destruct (first_row_some t x l') as [y Hy]. congruence.
Qed.

(** A new row is in nobody's way. *)
Lemma create_fresh h t v s v' s' : create env h t v s = Ret ((v', None), s') -> existsb (clashes env t v') (sees h s t) = false.
Proof using Type.
  unfold create. intros H. apply mthen_inv in H as (e & s1 & E1 & H). apply stmt_run in E1 as ([Hd Ht] & _).
  destruct e as [e|]; [done|]. apply mthen_inv in H as (w & s2 & E2 & H). apply assign_id_same in E2 as ([Hd2 Ht2] & Hw).
  apply mthen_inv in H as (ds & s3 & [= <- <-] & H). match type of H with (if ?b then _ else _) _ = _ => destruct b eqn:Ec end; [done|].
  apply mthen_inv in H as (u & s3 & _ & [= <- <-]). destruct (existsb (clashes env t w) (sees h s t)) eqn:Es; [|done]. rewrite <- Ec. symmetry.
  apply existsb_exists. exists (sees h s). split; [|done]. unfold sees, all_seen. rewrite Ht2, Ht, Hd2, Hd. destruct h, (api_tx s); cbn; auto.
Qed.
End first.

(** * Columns *)

(** What is read back of a list of names: its names in order, or one blank name when there was none. *)
Definition back (l : list string) : list string := match l with [] => [""] | _ => sort_strings l end.
(** No name holds the bar that parts them. *)
Definition barless (l : list string) : Prop := Forall (fun s => has "|"%char s = false) l.
Lemma names_column l : barless l -> names (column l) = back l.
Proof.
  intros H. unfold names, column, TMP_GRAPH_FILED_DELIMITER. destruct l as [|x l]; [done|]. cbn [back]. apply split_join.
  - intros E. pose proof (sort_strings_length (x :: l)) as Hl. by rewrite E in Hl.
  - by rewrite sort_strings_perm.
Qed.
Lemma column_perm l1 l2 : l1 ≡ₚ l2 -> column l1 = column l2.
Proof. intros H. unfold column. by rewrite H. Qed.

(** * A graph that was made is given back *)

Section boards.
Context (env : ApiEnv) (order_ok : forall n R l, Permutation (e_order env n R l) l).

(** After a creation the graph is in the table, with an id nobody had, or the server did not commit it. *)
Lemma GraphCreate_run i s n s' : api_tx s = NoTx -> DashboardGraphCreate env (Some i) s = Ret (ok (Id n), s') ->
  exists es cs, gq_Endpoints i = Some es /\ gq_Counters i = Some cs /\
  let g := set_pk TGraph n (new_graph i es cs) in
  existsb (clashes env TGraph g) (api_db s TGraph) = false /\
  (api_db s' = set_rows TGraph (api_db s TGraph ++ [g])%list (api_db s) \/ api_db s' = api_db s /\ exists k, e_sql env k <> None).
Proof using Type.
  intros Ht H. unfold DashboardGraphCreate, bound in H. cbn [mbind option_bind] in H. destruct (required _); [|discriminate H].
  destruct (gq_Endpoints i) as [es|]; [|discriminate H]. destruct (gq_Counters i) as [cs|]; [|discriminate H]. exists es, cs. split; [done|]. split; [done|].
  destruct (gq_ScreenId i =? 0)%Z; [discriminate H|]. unfold Begin at 1, mthen at 1 in H. set (s1 := a_set_tx _ _) in H.
  destruct (e_sql env (api_tick s)) as [e|] eqn:Eb; [discriminate H|]. assert (in_tx (api_db s) (api_db s) s1) as S1 by done. clearbody s1.
  apply mthen_inv in H as ([g eo] & s2 & E2 & H). pose proof (create_tx env _ _ TGraph _ _ _ _ _ S1 E2) as E3.
  destruct eo as [e|]; [apply (rollback_tx _ _ _ _ _ _ E3) in H as [H _]; discriminate H|]. destruct E3 as [Hg S2].
  apply create_fresh in E2. unfold sees in E2. rewrite (proj2 S1) in E2.
  apply mthen_inv in H as (e & s3 & E4 & H). apply stmt_run in E4 as ([Hd Ht3] & _). assert (in_tx (api_db s) (set_rows TGraph (api_db s TGraph ++ [g])%list (api_db s)) s3) as S3.
  { split; [rewrite Hd|rewrite Ht3]; apply S2. }
  destruct e as [e|]; [apply (rollback_tx _ _ _ _ _ _ S3) in H as [H _]; discriminate H|].
  apply (commit_tx env _ _ _ _ _ _ S3) in H as [[= ->] H]. assert (g = set_pk TGraph (dg_ID g) (new_graph i es cs)) as <- by (by destruct Hg as [-> |[_ ->]]).
  split; [done|]. destruct H as [H|H]; auto.
Qed.

(** Fetching a graph that is in the table once. *)
Lemma GraphGet_run tok id n s a s' : api_tx s = NoTx -> atoi id = Some n -> serve env tok (RDashboardGraphGet id) s = Ret (a, s') ->
  status a = Some 401%Z \/
  (status a = Some 400%Z /\ ((exists k, e_sql env k <> None) \/ forall g, g ∈ api_db s TGraph -> dg_ID g <> n)) \/
  exists g, a = ok (Board g (names (dg_Hosts g)) (names (dg_Counters g))) /\ g ∈ api_db s TGraph /\ dg_ID g = n.
Proof using order_ok.
  intros Ht Hid H. apply serve_closed_route in H as [(_ & Hs)|(s1 & [Hd1 Ht1] & H)]; [by left| |done]. right. cbn [handler] in H.
  unfold DashboardGraphGet in H. rewrite Hid in H. apply mthen_inv in H as ([g eo] & s2 & E & [= <- <-]). apply (find_first_spec env order_ok) in E as [_ E].
  rewrite Hd1 in E. unfold whereSQL, has_id in E. cbn in E. destruct eo as [e|].
  - left. split; [done|]. destruct E as [_ [E|E]]; [by left|right]. intros g' Hg' <-. specialize (E g' Hg'). by rewrite Z.eqb_refl in E.
  - right. exists g. split; [done|]. destruct E as [Hg E]. split; [done|]. by apply Z.eqb_eq in E.
Qed.
End boards.

(** C16: A graph that a request made of names without a bar is given back under
    the id in the answer, to whoever asks for it next: with its title, its
    screen, its span, type, method and position, the defaults of the span and
    of the type filled in, but without the tags that were sent, which a
    creation does not store; and with the endpoints and counters that were
    sent, in order, where an empty list has become one blank name.  Any other
    answer is a refusal, of the session or of the database. *)
Theorem board_comes_back (env : ApiEnv) (tok tok' : token) (i : APIGraphReqData) (es cs : list string) (id : string) (n : Z) (s s1 s2 : Api) a :
  (forall n R l, Permutation (e_order env n R l) l) -> api_tx s = NoTx ->
  gq_Endpoints i = Some es -> gq_Counters i = Some cs -> barless es -> barless cs ->
  serve env tok (RDashboardGraphCreate (Some i)) s = Ret (Answer 200 (Id n), s1) -> atoi id = Some n ->
  serve env tok' (RDashboardGraphGet id) s1 = Ret (a, s2) ->
  (status a = Some 200%Z -> a = ok (Board (set_pk TGraph n (new_graph i es cs)) (back es) (back cs))) /\
  ((forall k, e_sql env k = None) -> status a = Some 401%Z \/ status a = Some 200%Z).
Proof.
  intros Ho Ht Hes Hcs Be Bc H1 Hid H2. assert (api_tx s1 = NoTx) as Ht1 by by eapply serve_closed.
  apply serve_closed_route in H1 as [(_ & Hs)|(s0 & [Hd0 Ht0] & H1)]; [discriminate Hs| |done]. rewrite Ht in Ht0.
  apply (GraphCreate_run env) in H1 as (es' & cs' & He & Hc & Hfresh & Hd1); [|done]. rewrite He in Hes. rewrite Hc in Hcs. injection Hes as ->. injection Hcs as ->.
  cbv zeta in *. rewrite Hd0 in *. set (g := set_pk TGraph n _) in *.
  assert (forall g', g' ∈ api_db s TGraph -> dg_ID g' <> n) as Hnew.
  { intros g' Hg' En. apply clash_free in Hfresh as [Hp _]. apply (Hp n eq_refl). apply list_elem_of_omap. exists g'. by rewrite <- En. }
  assert (forall g', g' ∈ api_db s1 TGraph -> dg_ID g' = n -> g' = g) as Hone.
  { intros g' Hg' En. destruct Hd1 as [Hd1|[Hd1 _]]; rewrite Hd1 in Hg'; [|by apply Hnew in Hg']. rewrite set_rows_same in Hg'.
    apply elem_of_app in Hg' as [Hg'|Hg'%list_elem_of_singleton]; [by apply Hnew in Hg'|done]. }
  apply (GraphGet_run env Ho tok' id n) in H2; [|done..]. destruct H2 as [H2|[[H2 Hr]|(g' & -> & Hin & En)]].
  - rewrite H2. split; [done|auto].
  - rewrite H2. split; [done|]. intros quiet. exfalso. destruct Hr as [[k Hk]|Hr]; [by rewrite quiet in Hk|].
    destruct Hd1 as [Hd1|[_ [k Hk]]]; [|by rewrite quiet in Hk]. apply (Hr g); [|done]. rewrite Hd1, set_rows_same. apply elem_of_app. right. by left.
  - split; [|auto]. intros _. rewrite (Hone g' Hin En). unfold g. cbn [new_graph set_pk dg_Hosts dg_Counters]. by rewrite !names_column.
Qed.
Lemma board_comes_back_witness : exists s1 s2,
  serve demo_env alice (RDashboardGraphCreate (Some (mkGraphReq 7 "load" (Some ["w2"; "w1"]) (Some []) 0 "" "" 0 "t"))) demo_api = Ret (Answer 200 (Id 10), s1) /\
  serve demo_env alice (RDashboardGraphGet "10") s1 = Ret (ok (Board (mkDGraph 10 "load" "w1|w2" "" 7 3600 "h" "" 0 "") ["w1"; "w2"] [""]), s2).
Proof.
  set (i := mkGraphReq 7 "load" (Some ["w2"; "w1"]) (Some []) 0 "" "" 0 "t").
  destruct (serve demo_env alice (RDashboardGraphCreate (Some i)) demo_api) as [[b s1]|] eqn:E1; [|vm_compute in E1; discriminate E1].
  assert (b = Answer 200 (Id 10)) as -> by (vm_compute in E1; by injection E1 as <- _).
  destruct (serve demo_env alice (RDashboardGraphGet "10") s1) as [[a s2]|] eqn:E2; [|vm_compute in E1; injection E1 as <-; vm_compute in E2; discriminate E2].
  exists s1, s2. split; [done|].
  assert (status a = Some 200%Z) as Ha by (vm_compute in E1; injection E1 as <-; vm_compute in E2; by injection E2 as <- _).
  destruct (board_comes_back demo_env alice alice i ["w2"; "w1"] [] "10" 10 demo_api s1 s2 a demo_permutes eq_refl eq_refl eq_refl) as [H _];
    [by repeat constructor|by repeat constructor|exact E1|done|exact E2|]. rewrite E2, (H Ha). by vm_compute.
Defined.

(** * Links *)


Section links.
Context (env : ApiEnv) (order_ok : forall n R l, Permutation (e_order env n R l) l).

End links.

