(* ===== verification/ApiSearch.v ===== *)
(** What the web service answers about series
    ([modules/api/app/controller/graph/graph_controller.go]): the endpoints and
    counters the graphs have written to MySQL, searched by texts and by pages,
    and the points of series, which it asks the graphs for.

    The two tables are read only here.  As elsewhere, the server may refuse a
    statement, orders its rows as it likes and has its own comparisons of
    texts; the answers of the graphs are those of [ApiGraph]. *)
From S2P Require Import Prelude GoStr GoNum.
From S2P Require Export ApiGraph.
From Stdlib Require Import Ascii.
Local Open Scope string_scope.

(** * Tables and answers *)

(** Source: modules/api/app/model/graph/endpoint.go, type Endpoint. *)
Record Endpoint := mkEndpoint { ep_ID : Z; ep_Endpoint : string; ep_Ts : Z }.
(** Source: modules/api/app/model/graph/endpoint_counter.go, type EndpointCounter. *)
Record EndpointCounter := mkCounter { ec_ID : Z; ec_EndpointID : Z; ec_Counter : string; ec_Step : Z; ec_Type : string }.

(** The database of the graphs and how it answers: refusals, orders, comparisons, the ids a text within parentheses stands for, and the text a literal does. *)
Record SearchEnv := mkSearchEnv {
  v_endpoints : list Endpoint;
  v_counters : list EndpointCounter;
  v_sql : nat -> option string;
  v_order : nat -> forall R : Type, list R -> list R;
  v_eq : string -> string -> bool;
  v_like : string -> string -> bool;
  v_regexp : string -> string -> bool;
  v_in : string -> (Z -> bool) + string;
  v_literal : string -> string }.

(** The statements so far, and what is kept of steps: a step and the time it is kept until, in nanoseconds. *)
Record Search := mkSearch { s_tick : nat; localStepCache : gmap string (Z * Z) }.

(** What an answer holds. *)
Inductive sbody :=
  | SText (s : string)
  | SRefused (e : string)
  | SBadInput
  | SEndpoints (l : list (Z * string))
  | SEndpointObjs (l : list Endpoint)
  | SCounters (l : list EndpointCounter)
  | SHistory (l : list (option GraphQueryResponse))
  | SLast (l : list GraphLastResp)
  | SInfo (r : option GraphFullyInfo).
Record sanswer := mkSA { sa_code : Z; sa_body : sbody }.
Definition found (b : sbody) : sanswer := mkSA 200 b.
Definition refused (b : sbody) : sanswer := mkSA 400 b.

(** The rows between the bounds of a statement: [LIMIT] and [OFFSET] are left out when they are below zero. *)
Definition page_of {X} (limit offset : Z) (l : list X) : list X :=
  if (0 <=? limit)%Z then firstn (Z.to_nat limit) (if (0 <=? offset)%Z then skipn (Z.to_nat offset) l else l) else l.
(** The offset of a page. *)
Definition offset_of (page limit : Z) : Z := if (1 <? page)%Z then ((page -! 1) *! limit)%Z else 0%Z.

Section search.
Context (env : SearchEnv).
Notation F := (M Search).

(** A statement that reads rows: its error, or the rows in the order of the server. *)
Definition query {X} (rows : list X) : F (list X + string) := fun s =>
  Ret (match v_sql env (s_tick s) with
       | Some e => inr e
       | None => inl (v_order env (s_tick s) X rows)
       end, mkSearch (S (s_tick s)) (localStepCache s)).
Definition in_texts (l : list string) (x : string) : bool := existsb (v_eq env x) l.
Definition in_ids (l : list Z) (i : Z) : bool := existsb (Z.eqb i) l.

(** * Endpoints and counters *)

(** Source: modules/api/app/controller/graph/graph_controller.go, type APIEndpointObjGetInputs. *)
Record APIEndpointObjGetInputs := mkObjGet { og_Endpoints : list string; og_Deadline : Z }.
(** Source: modules/api/app/controller/graph/graph_controller.go, EndpointObjGet. *)
Definition EndpointObjGet (inputs : option APIEndpointObjGetInputs) : F sanswer :=
  match inputs with
  | None => ret (refused SBadInput)
  | Some i =>
      match og_Endpoints i with
      | [] => ret (refused (SText "endpoints missing"))
      | names =>
          do! r := query (List.filter (fun e => in_texts names (ep_Endpoint e) && (og_Deadline i <=? ep_Ts e)%Z) (v_endpoints env)) in
          ret (match r with inl l => found (SEndpointObjs l) | inr e => refused (SRefused e) end)
      end
  end.

(** Source: modules/api/app/controller/graph/graph_controller.go, type APIEndpointRegexpQueryInputs. The limit and the page may be left out. *)
Record APIEndpointRegexpQueryInputs := mkRegexpQuery { rq_Q : string; rq_Label : string; rq_Limit : option Z; rq_Page : option Z }.
Definition terms (s sep : string) : list string := if is_empty s then [] else GoStr.split s sep.
(** The counters and the endpoints that meet every term. *)
Definition labelled (labels : list string) (c : EndpointCounter) : bool :=
  forallb (fun t => v_like env (ec_Counter c) ("%" ++s TrimSpace t ++s "%")) labels.
Definition named (qs : list string) (e : Endpoint) : bool := forallb (fun t => v_regexp env (ep_Endpoint e) (TrimSpace t)) qs.
Definition listed (l : list Endpoint) : sbody := SEndpoints (map (fun e => (ep_ID e, ep_Endpoint e)) l).

(** Source: modules/api/app/controller/graph/graph_controller.go, EndpointRegexpQuery. The error of the search by names is that of a statement that is not sent. *)
Definition EndpointRegexpQuery (inputs : option APIEndpointRegexpQueryInputs) : F sanswer :=
  match inputs with
  | None => ret (refused SBadInput)
  | Some i =>
      if is_empty (rq_Q i) && is_empty (rq_Label i) then ret (refused (SText "q and labels are all missing"))
      else
        let limit := default 500%Z (rq_Limit i) in
        let labels := terms (rq_Label i) "," in
        let qs := terms (rq_Q i) " " in
        let offset := offset_of (default 1%Z (rq_Page i)) limit in
        do! ids := (match labels with
                    | [] => ret (inl [])
                    | _ =>
                        do! r := query (remove_dups (map ec_EndpointID (List.filter (labelled labels) (v_counters env)))) in
                        ret (match r with inl l => inl (page_of limit offset l) | inr e => inr e end)
                    end) in
        match ids with
        | inr e => ret (refused (SRefused e))
        | inl endpoint_id =>
            match qs, endpoint_id with
            | [], [] => ret (found (listed []))
            | [], _ =>
                do! r := query (List.filter (fun e => in_ids endpoint_id (ep_ID e)) (v_endpoints env)) in
                ret (match r with inl l => found (listed l) | inr e => refused (SRefused e) end)
            | _, _ =>
                do! r := query (List.filter (fun e => (match endpoint_id with [] => true | _ => in_ids endpoint_id (ep_ID e) end) && named qs e) (v_endpoints env)) in
                ret (match r with inl l => found (listed (page_of limit offset l)) | inr _ => found (listed []) end)
            end
        end
  end.

(** Source: modules/api/app/utils/set.go, ConverIntStringToList. What is no number is left out, the comma that follows it is not. *)
Definition ConverIntStringToList (eid : string) : string :=
  fst (fold_left (fun '(result, first) e =>
    match atoi e with
    | None => (result, false)
    | Some v => (if (first : bool) then itoa v else result ++s ", " ++s itoa v, false)
    end) (GoStr.split eid ",") ("", true)).
(** A counter meets a term, or does not meet one after a sign. *)
Definition meets (counter term : string) : bool :=
  if is_empty (TrimSpace term) then true
  else match term with
       | String "!" t => negb (v_regexp env counter t)
       | _ => v_regexp env counter term
       end.
(** Source: modules/api/app/controller/graph/graph_controller.go, EndpointCounterRegexpQuery. *)
Definition EndpointCounterRegexpQuery (eid metricQuery limitTmp pageTmp : string) : F sanswer :=
  match atoi limitTmp, atoi pageTmp with
  | Some limit, Some page =>
      if is_empty eid then ret (refused (SText "eid is missing"))
      else
        let eids := ConverIntStringToList eid in
        if is_empty eids then ret (refused (SText "input error, please check your input info."))
        else
          match v_in env ("(" ++s eids ++s ")") with
          | inr e => ret (refused (SRefused e))
          | inl is_in =>
              do! r := query (List.filter (fun c => is_in (ec_EndpointID c) && forallb (meets (ec_Counter c)) (terms metricQuery " ")) (v_counters env)) in
              ret (match r with inl l => found (SCounters (page_of limit (offset_of page limit) l)) | inr e => refused (SRefused e) end)
          end
  | _, _ => ret (refused SBadInput)
  end.

(** * Points *)

(** Source: modules/api/app/controller/graph/graph_controller.go, type APIQueryGraphDrawData. *)
Record APIQueryGraphDrawData := mkDraw {
  dd_HostNames : list string; dd_Counters : list string; dd_ConsolFun : string; dd_StartTime : Z; dd_EndTime : Z; dd_Step : Z }.

(** The graphs, as the web service reaches them. *)
Context (ring : string -> option string) (clusterMap : gmap string string) (pools : gmap string (option bool))
  (rpc : string -> GraphQueryParam -> outcome GraphQueryResponse) (rpc_last : string -> GraphLastParam -> outcome GraphLastResp)
  (rpc_info : string -> string -> string -> outcome GraphInfoResp).

(** Source: modules/api/app/controller/graph/graph_controller.go, fetchData. *)
Definition fetchData (hostname counter consolFun : string) (startTime endTime step : Z) : option GraphQueryResponse * bool :=
  QueryOne ring clusterMap pools rpc (GenQParam hostname counter consolFun startTime endTime step).

(** Source: modules/api/app/controller/graph/graph_controller.go, getCounterStep. The rows are read into numbers, which have no column that the reader could fill: each is 0. *)
Definition getCounterStep (now : Z) (endpoint counter : string) : F (option Z) :=
  let cache_key := "step:" ++s endpoint ++s "/" ++s counter in
  do! hit := gets (fun s => '(step, e) ← localStepCache s !! cache_key; if (e <? now)%Z then None else Some step) in
  match hit with
  | Some step => ret (Some step)
  | None =>
      let has_id i := existsb (fun e => v_eq env (ep_Endpoint e) endpoint && (ep_ID e =? i)%Z) (v_endpoints env) in
      do! r := query (List.filter (fun c => has_id (ec_EndpointID c) && v_eq env (ec_Counter c) counter) (v_counters env)) in
      match r with
      | inr _ | inl [] => ret None
      | inl _ =>
          do! _ := modify (fun s => mkSearch (s_tick s) (<[cache_key := (0, now +! 600 *! 10 ^ 9)%Z]> (localStepCache s))) in
          ret (Some 0%Z)
      end
  end.

(** Source: modules/api/app/controller/graph/graph_controller.go, QueryGraphDrawData. What a failed query gives is answered too, a nil among it. *)
Definition QueryGraphDrawData (now : Z) (inputs : option APIQueryGraphDrawData) : F sanswer :=
  match inputs with
  | None => ret (refused SBadInput)
  | Some i =>
      do! respData := foldM (fun respData host =>
        foldM (fun respData counter =>
          do! step := (if (0 <? dd_Step i)%Z then ret (Some (dd_Step i)) else getCounterStep now host counter) in
          ret (match step with
               | None => respData
               | Some step => (respData ++ [fst (fetchData host counter (dd_ConsolFun i) (dd_StartTime i) (dd_EndTime i) step)])%list
               end)) respData (dd_Counters i)) [] (dd_HostNames i) in
      ret (found (SHistory respData))
  end.

(** Source: modules/api/app/controller/graph/graph_controller.go, QueryGraphLastPoint. A last point without an error is there. *)
Definition QueryGraphLastPoint (inputs : option (list GraphLastParam)) : F sanswer :=
  match inputs with
  | None => ret (refused SBadInput)
  | Some l => ret (found (SLast (omap (fun param => match Last ring clusterMap pools rpc_last param with (Some r, true) => Some r | _ => None end) l)))
  end.

(** Source: modules/api/app/controller/graph/graph_controller.go, QueryGraphItemPosition. *)
Definition QueryGraphItemPosition (inputs : option GraphLastParam) : F sanswer :=
  match inputs with
  | None => ret (refused SBadInput)
  | Some i => ret (found (SInfo (Info ring clusterMap pools rpc_info (gl_par_Endpoint i) (gl_par_Counter i))))
  end.
End search.
