(* ===== verification/ApiGrafana.v ===== *)
(** The pages of the web service for grafana
    ([modules/api/app/controller/graph/grafana_controller.go]): what a query of
    a panel may go on with, and the series a panel draws.

    A target names hosts and a counter, as in [host1,host2#cpu#idle]; the signs
    [#] stand for the dots of the counter.  Hosts and patterns go into the texts
    of statements as they are, where the server reads them as literals; those
    that would end a literal are not modelled. *)
From S2P Require Import Prelude GoStr GoNum.
From S2P Require Export ApiSearch.
From S2P Require ApiDb.
From Stdlib Require Import Ascii.
Local Open Scope string_scope.

(** * Targets *)

Definition is_in (l : list nat) (a : ascii) : bool := existsb (Nat.eqb (nat_of_ascii a)) l.
(** [\s] of [regexp], and the end of what [.+] matches. *)
Definition is_ws : ascii -> bool := is_in [9; 10; 12; 13; 32].
Definition is_newline : ascii -> bool := is_in [10].
(** The longest start of a text without some bytes, and the rest. *)
Fixpoint span (stop : ascii -> bool) (s : string) : string * string :=
  match s with
  | "" => ("", "")
  | String a t => if stop a then ("", s) else let '(h, r) := span stop t in (String a h, r)
  end.
(** What follows the brace that may open the hosts: hosts without [#] and a closing brace, the brace that may close them, a [#], and the counter, to the end of the line. *)
Definition cut_target (s : string) : option (string * string) :=
  let '(hosts, r) := span (is_in [35; 125]) s in
  let '(counter, _) := match r with
                       | String "}" (String "#" t) | String "#" t => span is_newline t
                       | _ => ("", "")
                       end in
  if is_empty hosts || is_empty counter then None else Some (hosts, counter).
(** Source: modules/api/app/controller/graph/grafana_controller.go, CutEndpointCounterHelp. The hosts, the pattern of the counter, and the counter as it is written. *)
Definition CutEndpointCounterHelp (regexpKey : string) : list string * string * string :=
  let try := match regexpKey with String "{" t => match cut_target t with Some x => Some x | None => cut_target regexpKey end | _ => cut_target regexpKey end in
  match try with
  | Some (hostsTmp, counterTmp) => (GoStr.split hostsTmp ",", replace_all counterTmp "#" "\.", counterTmp)
  | None => ([], "", "")
  end.

(** * Completion *)

(** The text before some end, when it ends so. *)
Definition strip_end (e s : string) : option string :=
  let n := (String.length s - String.length e)%nat in
  if String.eqb (String.substring n (String.length e) s) e && (String.length e <=? String.length s)%nat then Some (String.substring 0 n s) else None.
(** [strings.Replace] with a text that may be empty and nothing to put for it. *)
Definition without (s old : string) : string := if is_empty old then s else replace_all s old "".
(** Source: modules/api/app/controller/graph/grafana_controller.go, expandableChecking. The next part of a counter after what was asked for, and whether there is more. *)
Definition expandableChecking (counter counterSearchKeyWord : string) : string * bool :=
  let t := trim_right is_ws counterSearchKeyWord in
  let key := match strip_end ".+" t with
             | Some k => k
             | None => match strip_end ".*" t with Some k => k | None => counterSearchKeyWord end
             end in
  let expCheck := without counter (replace_all key "\." ".") in
  if is_empty expCheck then (expCheck, false)
  else
    match GoStr.split (match expCheck with String "." t => t | _ => expCheck end) "." with
    | [] => ("", true)
    | [x] => (x, false)
    | x :: _ => (x, true)
    end.

(** Source: modules/api/app/controller/graph/grafana_controller.go, type APIGrafanaMainQueryOutputs. *)
Record APIGrafanaMainQueryOutputs := mkOutput { go_Expandable : bool; go_Text : string }.

Section grafana.
Context (env : SearchEnv) (falcon : ApiDb.Db) (falcon_sql : nat -> option string)
  (walk : forall T, gmap string T -> list (string * T)).
Notation F := (M Search).

(** Source: modules/api/app/controller/graph/grafana_controller.go, addAddItionalItems. Each text once; one that expands somewhere expands. *)
Definition addAddItionalItems (items : list APIGrafanaMainQueryOutputs) : list APIGrafanaMainQueryOutputs :=
  let mapset := fold_left (fun m i =>
    match m !! go_Text i with
    | Some val => if negb (Bool.eqb val (go_Expandable i)) && go_Expandable i then <[go_Text i := go_Expandable i]> m else m
    | None => <[go_Text i := go_Expandable i]> m
    end) items (∅ : gmap string bool) in
  (map (fun '(c, val) => mkOutput val c) (walk bool mapset) ++
   (if existsb (fun i => negb (go_Expandable i)) items then [mkOutput false "$"] else []) ++ [mkOutput false "%"])%list.

(** Rows of a table, or none when the server refuses: the errors are not looked at. *)
Definition rows_of {X} (rows : list X) : F (list X) := do! r := query env rows in ret (match r with inl l => l | inr _ => [] end).
Definition within_limit {X} (limit : Z) (l : list X) : list X := page_of limit (-1) l.
(** Rows of the tables of groups and hosts, whose server is another one. *)
Definition portal_rows {X} (rows : list X) : F (list X) := fun s =>
  Ret (match falcon_sql (s_tick s) with Some _ => [] | None => v_order env (s_tick s) X rows end, mkSearch (S (s_tick s)) (localStepCache s)).
Definition outputs (l : list string) : list APIGrafanaMainQueryOutputs := map (mkOutput true) l.

(** Source: modules/api/app/controller/graph/grafana_controller.go, repsonseDefault. *)
Definition repsonseDefault (limit : Z) : F (list APIGrafanaMainQueryOutputs) :=
  do! enps := rows_of (v_endpoints env) in ret (outputs (map ep_Endpoint (within_limit limit enps))).
(** Source: modules/api/app/controller/graph/grafana_controller.go, responseHostsRegexp. *)
Definition responseHostsRegexp (limit : Z) (regexpKey : string) : F (list APIGrafanaMainQueryOutputs) :=
  do! enps := rows_of (List.filter (fun e => v_regexp env (ep_Endpoint e) regexpKey) (v_endpoints env)) in
  ret (outputs (map ep_Endpoint (within_limit limit enps))).
(** Source: modules/api/app/controller/graph/grafana_controller.go, responseHostGroupRegexp. *)
Definition responseHostGroupRegexp (limit : Z) (regexpKey : string) : F (list APIGrafanaMainQueryOutputs) :=
  do! hgs := portal_rows (List.filter (fun g => v_regexp env (ApiDb.hg_Name g) regexpKey) (falcon ApiDb.TGrp)) in
  ret (outputs (map ApiDb.hg_Name (within_limit limit hgs))).
(** Source: modules/api/app/controller/graph/grafana_controller.go, responseHostsByHostGroup. *)
Definition responseHostsByHostGroup (limit : Z) (hostgroup : string) : F (list APIGrafanaMainQueryOutputs) :=
  do! hgs := portal_rows (List.filter (fun g => v_regexp env (ApiDb.hg_Name g) hostgroup) (falcon ApiDb.TGrp)) in
  match map ApiDb.hg_ID (within_limit limit hgs) with
  | [] => ret []
  | hgIDs =>
      do! grpHosts := portal_rows (List.filter (fun m => in_ids hgIDs (ApiDb.gh_GrpID m)) (falcon ApiDb.TGrpHost)) in
      match map ApiDb.gh_HostID grpHosts with
      | [] => ret []
      | hostIDs =>
          do! hosts := portal_rows (List.filter (fun h => in_ids hostIDs (ApiDb.ho_ID h)) (falcon ApiDb.THost)) in
          ret (outputs (map ApiDb.ho_Hostname (within_limit limit hosts)))
      end
  end.
(** Source: modules/api/app/controller/graph/grafana_controller.go, findEndpointIdByEndpointList. *)
Definition findEndpointIdByEndpointList (hosts : list string) : F (list Z) :=
  do! enps := rows_of (List.filter (fun e => in_texts env (map (v_literal env) hosts) (ep_Endpoint e)) (v_endpoints env)) in ret (map ep_ID enps).
(** Source: modules/api/app/controller/graph/grafana_controller.go, responseCounterRegexp. *)
Definition responseCounterRegexp (regexpKey : string) : F (list APIGrafanaMainQueryOutputs) :=
  let '(hosts, counter, _) := CutEndpointCounterHelp regexpKey in
  match hosts with
  | [] => ret []
  | _ =>
      if is_empty counter then ret []
      else
        do! hostIds := findEndpointIdByEndpointList hosts in
        match hostIds with
        | [] => ret []
        | _ =>
            do! counters := rows_of (List.filter (fun c => in_ids hostIds (ec_EndpointID c) && v_regexp env (ec_Counter c) (v_literal env counter)) (v_counters env)) in
            match counters with
            | [] => ret []
            | _ => ret (addAddItionalItems (map (fun c => let '(expsub, needexp) := expandableChecking (ec_Counter c) counter in mkOutput needexp expsub) counters))
            end
        end
  end.

(** Source: modules/api/app/controller/graph/grafana_controller.go, GrafanaMainQuery. The query and the limit that were bound; [None] is a body that does not bind. *)
Definition GrafanaMainQuery (inputs : option (option string * option Z)) : F (Z * list APIGrafanaMainQueryOutputs) :=
  match inputs with
  | None => ret (400%Z, [])
  | Some (query, limit) =>
      let query := default "!N!" query in
      let limit := default 1000%Z limit in
      do! output := (if String.eqb query "!N!" then repsonseDefault limit
                     else if String.prefix "!HG!" query then responseHostGroupRegexp limit (String.substring 4 (String.length query) query)
                     else if String.prefix "!HGH!" query then responseHostsByHostGroup limit (String.substring 5 (String.length query) query)
                     else if negb (contains query "#") then responseHostsRegexp limit query
                     else if negb (contains query "#select metric") then responseCounterRegexp query
                     else ret []) in
      ret (200%Z, output)
  end.

(** * Drawing *)

(** Source: modules/api/app/controller/graph/grafana_controller.go, type APIGrafanaRenderInput. What only passes through is left out. *)
Record APIGrafanaRenderInput := mkRender { ri_Target : list string; ri_From : Z; ri_Until : Z; ri_Step : Z; ri_ConsolFun : string }.

(** Source: modules/api/app/controller/graph/grafana_controller.go, lines 295-298. The pattern of a counter, and whether it stands for itself: the end [$] says so, and the parts [%] are any. Symbol: GrafanaRender. *)
Definition counter_pattern (counter : string) : string * bool :=
  let t := trim_right is_ws counter in
  let n := String.length t in
  let ends := match String.substring (n - 3) 3 t with
              | String "\" (String a "$") => negb (is_newline a) && (3 <=? n)%nat
              | _ => false
              end in
  (replace_all (if ends then String.substring 0 (n - 3) t else counter) "\.%" ".+", ends).

Context (ring : string -> option string) (clusterMap : gmap string string) (pools : gmap string (option bool))
  (rpc : string -> GraphQueryParam -> outcome GraphQueryResponse).

(** Source: modules/api/app/controller/graph/grafana_controller.go, GrafanaRender. *)
Definition GrafanaRender (inputs : option APIGrafanaRenderInput) : F (Z * list (option GraphQueryResponse)) :=
  match inputs with
  | None => ret (400%Z, [])
  | Some i =>
      do! respList := foldM (fun respList target =>
        let '(hosts, counter, _) := CutEndpointCounterHelp target in
        let '(counter, itself) := counter_pattern counter in
        do! hostIds := findEndpointIdByEndpointList hosts in
        do! counters := rows_of (remove_dups (map ec_Counter (List.filter (fun c => in_ids hostIds (ec_EndpointID c) &&
          (if (itself : bool) then v_eq env (ec_Counter c) (v_literal env counter) else v_regexp env (ec_Counter c) (v_literal env counter))) (v_counters env)))) in
        ret (fold_left (fun respList host =>
          fold_left (fun respList c =>
            match fetchData ring clusterMap pools rpc host c (ri_ConsolFun i) (ri_From i) (ri_Until i) (ri_Step i) with
            | (resp, true) => (respList ++ [resp])%list
            | (_, false) => respList
            end) counters respList) hosts respList)) [] (ri_Target i) in
      ret (200%Z, respList)
  end.
End grafana.
