(* ===== verification/ApiProxy.v ===== *)
(** The proxy of the web services ([modules/apiproxy]): every region has its
    own web service and its own graphs; the proxy knows from the hbs of each
    region which hosts it has, asks the web service of a host's region - all of
    them when it does not know the region - and puts the answers together.

    What a web service answers to a request is an argument; the order in which
    Go walks a map is another, of its own for each walk. *)
From S2P Require Import Prelude GoStr GoNum.
From S2P Require Export ApiGrafana.
Local Open Scope string_scope.

(** * Regions ([proxy/hostmap.go]) *)

(** Source: modules/apiproxy/proxy/hostmap.go, type ApiConfig. Also the agent that is made of it: its clients are the addresses. *)
Record ApiAgent := mkAgent { ApiAddr : string; HbsRpcAddrs : list string }.
(** The package variables: the regions, their addresses, and the hosts they have. *)
Record Proxy := mkProxy {
  AgentConfigMap : gmap string ApiAgent;
  ApiAddrList : list string;
  AgentDataMap : gmap string (gset string) }.

(** How a request ends: without a response, with another status than 200, with a body that does not parse, or with one. *)
Inductive http (A : Type) := Unreachable | Status | Garbled | Body (a : A).
Arguments Unreachable {A}.
Arguments Status {A}.
Arguments Garbled {A}.
Arguments Body {A} a.

Section proxy.
Context (walk : nat -> forall T, gmap string T -> list (string * T)).

(** Source: modules/apiproxy/proxy/hostmap.go, InitProxy. *)
Definition InitProxy (apiMap : gmap string ApiAgent) (s : Proxy) : Proxy :=
  fold_left (fun s '(k, p) => mkProxy (<[k := p]> (AgentConfigMap s)) (ApiAddrList s ++ [ApiAddr p])%list (AgentDataMap s)) (walk 0 _ apiMap) s.

(** Source: modules/apiproxy/proxy/hostmap.go, SafeHostMap.JudgeRegion. *)
Definition JudgeRegion (s : Proxy) (region hostname : string) : bool :=
  match AgentDataMap s !! region with Some data => bool_decide (hostname ∈ data) | None => false end.

(** Source: modules/apiproxy/proxy/hostmap.go, SyncHostOnce. [GetAgents] is what a hbs answers, [None] an error; the hosts of a hbs that does not answer are left out. *)
Definition SyncHostOnce (GetAgents : string -> option (list string)) (s : Proxy) : Proxy :=
  let m := fold_left (fun m '(region, agent) =>
    <[region := fold_left (fun innerMap ag => match GetAgents ag with Some hosts => list_to_set hosts ∪ innerMap | None => innerMap end) (HbsRpcAddrs agent) ∅]> m)
    (walk 0 _ (AgentConfigMap s)) (∅ : gmap string (gset string)) in
  mkProxy (AgentConfigMap s) (ApiAddrList s) m.

(** * Which web services are asked *)

Context (s : Proxy).

(** The address of the first region that has a host. *)
Definition region_of (n : nat) (h : string) : option string :=
  ApiAddr ∘ snd <$> List.find (fun '(region, _) => JudgeRegion s region h) (walk n _ (AgentConfigMap s)).
Definition append_to {X} (x : X) (apiMap : gmap string (list X)) (apiAddr : string) : gmap string (list X) :=
  <[apiAddr := (default [] (apiMap !! apiAddr) ++ [x])%list]> apiMap.
(** Source: modules/apiproxy/app/controller/graph/graph_controller.go, lines 66-92. One host: what is asked of it goes to its region, or to all when no region has it. Symbol: CreateApiMap. *)
Definition route {X} (n : nat) (h : string) (x : X) (apiMap : gmap string (list X)) : gmap string (list X) :=
  match region_of n h with
  | Some apiAddr => append_to x apiMap apiAddr
  | None => fold_left (append_to x) (ApiAddrList s) apiMap
  end.
(** Hosts, and what is asked of each, one after another. *)
Fixpoint route_all {X} (n : nat) (l : list (string * X)) (apiMap : gmap string (list X)) : gmap string (list X) :=
  match l with [] => apiMap | (h, x) :: l => route_all (S n) l (route n h x apiMap) end.
(** Source: modules/apiproxy/app/controller/graph/graph_controller.go, CreateApiMap. *)
Definition CreateApiMap (hostnames : list string) : gmap string (list string) := route_all 0 (map (fun h => (h, h)) hostnames) ∅.

(** * Requests that ask by hosts *)

Inductive panswer := PBadInput | PText (t : string) | PHistory (l : list GraphQueryResponse) | PLast (l : list GraphLastResp) | PInfo (r : option GraphFullyInfo)
  | PSilent | PEndpointObjs (l : list Endpoint) | PEndpoints (l : list (Z * string)) | PCounters (l : list EndpointCounter)
  | POutputs (l : list APIGrafanaMainQueryOutputs).

(** The walks of a handler after those of the hosts: over the addresses, over what was found. *)
Definition over_addrs {X T} (l : list X) (m : gmap string T) : list (string * T) := walk (length l) _ m.
Definition over_found {X T} (l : list X) (m : gmap string T) : list T := (walk (S (length l)) _ m).*2.
Definition series_key (endpoint counter : string) : string := endpoint ++s "_" ++s counter.

(** Source: modules/apiproxy/app/controller/graph/graph_controller.go, lines 136-141. The series of one answer that have values; a nil among them has no field. Symbol: QueryHistoryProxy. *)
Definition take_series (dataMap : gmap string GraphQueryResponse) (resV : list (option GraphQueryResponse)) : res (gmap string GraphQueryResponse) :=
  fold_res (fun dataMap d =>
    let! d := deref d in
    Ret (match qr_Values d with [] => dataMap | _ => <[series_key (qr_Endpoint d) (qr_Counter d) := d]> dataMap end)) dataMap resV.
(** Source: modules/apiproxy/app/controller/graph/graph_controller.go, QueryHistoryProxy. *)
Definition QueryHistoryProxy (post : string -> APIQueryGraphDrawData -> http (list (option GraphQueryResponse))) (inputs : option APIQueryGraphDrawData) : res panswer :=
  match inputs with
  | None => Ret PBadInput
  | Some i =>
      let hosts := dd_HostNames i in
      let! dataMap := fold_res (fun dataMap '(apiAddr, newHosts) =>
        match post apiAddr (mkDraw newHosts (dd_Counters i) (dd_ConsolFun i) (dd_StartTime i) (dd_EndTime i) (dd_Step i)) with
        | Body resV => take_series dataMap resV
        | _ => Ret dataMap
        end) ∅ (over_addrs hosts (CreateApiMap hosts)) in
      Ret (PHistory (over_found hosts dataMap))
  end.

(** Source: modules/apiproxy/app/controller/graph/graph_controller.go, QueryLastPointProxy. A time of 0 stands for no point. *)
Definition QueryLastPointProxy (post : string -> list GraphLastParam -> http (list (option GraphLastResp))) (inputs : option (list GraphLastParam)) : res panswer :=
  match inputs with
  | None => Ret PBadInput
  | Some l =>
      let apiMap := route_all 0 (map (fun param => (gl_par_Endpoint param, param)) l) ∅ in
      let! dataMap := fold_res (fun dataMap '(apiAddr, params) =>
        match post apiAddr params with
        | Body resV =>
            fold_res (fun dataMap d =>
              let! d := deref d in
              let! v := deref (gl_Value d) in
              Ret (if (rd_Timestamp v =? 0)%Z then dataMap else <[series_key (gl_Endpoint d) (gl_Counter d) := d]> dataMap)) dataMap resV
        | _ => Ret dataMap
        end) ∅ (over_addrs l apiMap) in
      Ret (PLast (over_found l dataMap))
  end.

(** Source: modules/apiproxy/app/controller/graph/graph_controller.go, QueryGraphInfoProxy. The first answer is given, whatever it holds; without one nothing is written. *)
Definition QueryGraphInfoProxy (post : string -> GraphLastParam -> http (option GraphFullyInfo)) (inputs : option GraphLastParam) : res panswer :=
  match inputs with
  | None => Ret PBadInput
  | Some i =>
      let hosts := [gl_par_Endpoint i] in
      let! resV := fold_res (fun resV '(apiAddr, newHosts) =>
        match resV with
        | Some _ => Ret resV
        | None =>
            let! h := at_index newHosts 0 in
            Ret (match post apiAddr (mkLastParam h (gl_par_Counter i)) with Body r => Some r | _ => None end)
        end) None (over_addrs hosts (CreateApiMap hosts)) in
      Ret (match resV with Some r => PInfo r | None => PSilent end)
  end.

(** Source: modules/apiproxy/app/controller/graph/graph_controller.go, GrafanaProxy. Without a response the handler reads its status all the same; the status of a response is not looked at, but no other than 200 comes with a list. *)
Definition GrafanaProxy (post : string -> APIGrafanaRenderInput -> http (list (option GraphQueryResponse))) (inputs : option APIGrafanaRenderInput) : res panswer :=
  match inputs with
  | None => Ret PBadInput
  | Some i =>
      let targets := flat_map (fun target =>
        let '(hostnames, _, counterTmp) := CutEndpointCounterHelp target in map (fun h => (h, h ++s "#" ++s counterTmp)) hostnames) (ri_Target i) in
      let! dataMap := fold_res (fun dataMap '(apiAddr, newTargets) =>
        match post apiAddr (mkRender newTargets (ri_From i) (ri_Until i) (ri_Step i) (ri_ConsolFun i)) with
        | Unreachable => Panic NilDeref
        | Body resV => fold_res (fun dataMap d => let! d := deref d in Ret (<[series_key (qr_Endpoint d) (qr_Counter d) := d]> dataMap)) dataMap resV
        | _ => Ret dataMap
        end) ∅ (over_addrs targets (route_all 0 targets ∅)) in
      Ret (PHistory (over_found targets dataMap))
  end.

(** Source: modules/apiproxy/app/controller/graph/graph_controller.go, EndpointObjProxy. *)
Definition EndpointObjProxy (get : string -> APIEndpointObjGetInputs -> http (list Endpoint)) (inputs : option APIEndpointObjGetInputs) : res panswer :=
  match inputs with
  | None => Ret PBadInput
  | Some i =>
      let hosts := og_Endpoints i in
      match hosts with
      | [] => Ret (PText "endpoints missing")
      | _ =>
          let dataMap := fold_left (fun dataMap '(apiAddr, newHosts) =>
            match get apiAddr (mkObjGet newHosts (og_Deadline i)) with
            | Body output => fold_left (fun dataMap e => <[ep_Endpoint e := e]> dataMap) output dataMap
            | _ => dataMap
            end) (over_addrs hosts (CreateApiMap hosts)) (∅ : gmap string Endpoint) in
          Ret (PEndpointObjs (over_found hosts dataMap))
      end
  end.

(** Source: modules/apiproxy/app/controller/graph/graph_controller.go, EndpointProxy. The terms of the search are taken for hosts. *)
Definition EndpointProxy (get : string -> APIEndpointRegexpQueryInputs -> http (list (option (Z * string)))) (inputs : option APIEndpointRegexpQueryInputs) : res panswer :=
  match inputs with
  | None => Ret PBadInput
  | Some i =>
      if is_empty (rq_Q i) && is_empty (rq_Label i) then Ret (PText "q and labels are all missing")
      else
        let qs := terms (rq_Q i) " " in
        let! endMap := fold_res (fun endMap '(apiAddr, newHosts) =>
          match get apiAddr (mkRegexpQuery (join " " newHosts) (rq_Label i) (Some (default 500%Z (rq_Limit i))) (Some (default 1%Z (rq_Page i)))) with
          | Body endpoint => fold_res (fun endMap e => let! e := deref e in Ret (<[e.2 := e.1]> endMap)) endMap endpoint
          | _ => Ret endMap
          end) (∅ : gmap string Z) (over_addrs qs (CreateApiMap qs)) in
        Ret (PEndpoints (map (fun '(e, id) => (id, e)) (walk (S (length qs)) _ endMap)))
  end.

(** * Requests that go to every region *)

(** Source: modules/apiproxy/app/controller/graph/graph_controller.go, EndpointCounterProxy. What is read of a text that does not parse is taken for nothing. *)
Definition EndpointCounterProxy (get : string -> string -> string -> Z -> Z -> http (list (option EndpointCounter))) (eid metricQuery limitTmp pageTmp : string) : res panswer :=
  match atoi limitTmp, atoi pageTmp with
  | Some limit, Some page =>
      let! dataMap := fold_res (fun dataMap apiAddr =>
        match get apiAddr eid metricQuery limit page with
        | Body counters =>
            fold_res (fun dataMap c => let! c := deref c in Ret (<["%!s(int=" ++s itoa (ec_EndpointID c) ++s ")_" ++s ec_Counter c := c]> dataMap)) dataMap counters
        | _ => Ret dataMap
        end) (∅ : gmap string EndpointCounter) (ApiAddrList s) in
      Ret (PCounters (walk 0 _ dataMap).*2)
  | _, _ => Ret PBadInput
  end.

(** Source: modules/apiproxy/app/controller/graph/graph_controller.go, GrafanaGet. *)
Definition GrafanaGet (get : string -> string -> Z -> http (list APIGrafanaMainQueryOutputs)) (query : string) (limit : Z) : list APIGrafanaMainQueryOutputs :=
  flat_map (fun apiAddr => match get apiAddr query limit with Body output => output | _ => [] end) (ApiAddrList s).
(** Source: modules/apiproxy/app/controller/graph/graph_controller.go, GrafanaMainQueryProxy. *)
Definition GrafanaMainQueryProxy (get : string -> string -> Z -> http (list APIGrafanaMainQueryOutputs)) (inputs : option (option string * option Z)) : res panswer :=
  match inputs with
  | None => Ret PBadInput
  | Some (query, limit) => Ret (POutputs (GrafanaGet get (default "!N!" query) (default 1000%Z limit)))
  end.
End proxy.
