(* ===== verification/ApiProxyThms.v ===== *)
(** What the proxy of the web services comes to: over the regions that answer it
    is one web service with the graphs of all of them ([proxy_as_one]), but for
    the nil that a graph that does not answer in time leaves in an answer, which
    ends the handler ([late_graph_ends_proxy]); and what becomes of the pages
    after the first of a search by names and labels ([later_pages_lost]). *)
From S2P Require Import Prelude GoStr GoNum.
From S2P Require Export ApiProxy.
Local Open Scope string_scope.

(** * Panics of a loop *)

Section loops.
Context {A B : Type} (f : A -> B -> res A) (p : panic).
Hypothesis only : forall a b, match f a b with Ret _ => True | Panic q => q = p end.

Lemma fold_res_panics l : (exists b, b ∈ l /\ forall a, f a b = Panic p) -> forall a, fold_res f a l = Panic p.
Proof using only.
  intros (b & Hb & Hp). induction l as [|x l IH]; [by apply elem_of_nil in Hb|]. intros a. cbn. pose proof (only a x) as Ho.
  apply elem_of_cons in Hb as [<-|Hb]; [by rewrite Hp|]. destruct (f a x) as [a'|q]; cbn; [by apply IH|by subst q].
Qed.
Lemma fold_res_only l : forall a, match fold_res f a l with Ret _ => True | Panic q => q = p end.
Proof using only. induction l as [|x l IH]; intros a; cbn; [done|]. pose proof (only a x). destruct (f a x); cbn; [apply IH|done]. Qed.
End loops.

(** * A region *)

(** A web service with the graphs and the tables of its region. *)
Record Region := mkRegion {
  rg_env : SearchEnv; rg_ring : string -> option string; rg_clusterMap : gmap string string; rg_pools : gmap string (option bool);
  rg_rpc : string -> GraphQueryParam -> outcome GraphQueryResponse }.

(** What a region gives for a series, in a request. *)
Definition series_of (g : Region) (i : APIQueryGraphDrawData) (h c : string) : option GraphQueryResponse :=
  fst (fetchData (rg_ring g) (rg_clusterMap g) (rg_pools g) (rg_rpc g) h c (dd_ConsolFun i) (dd_StartTime i) (dd_EndTime i) (dd_Step i)).
(** What the regions answer to a request for points; the values travel as texts of six places, or [null], which are left out of it. *)
Definition history (regions : string -> option Region) (now : Z) (apiAddr : string) (i : APIQueryGraphDrawData) : http (list (option GraphQueryResponse)) :=
  match regions apiAddr with
  | None => Unreachable
  | Some g =>
      match QueryGraphDrawData (rg_env g) (rg_ring g) (rg_clusterMap g) (rg_pools g) (rg_rpc g) now (Some i) (mkSearch 0 ∅) with
      | Ret (mkSA 200 (SHistory l), _) => Body l
      | _ => Status
      end
  end.

Lemma foldM_pure {S A B} (f : B -> A -> B) (l : list A) : forall b (s : S), foldM (fun b a => ret (f b a)) b l s = Ret (fold_left f l b, s).
Proof. induction l as [|a l IH]; intros b s; [done|]. apply IH. Qed.
Lemma fold_append {A B} (f : A -> list B) (l : list A) : forall b, fold_left (fun b a => (b ++ f a)%list) l b = (b ++ flat_map f l)%list.
Proof. induction l as [|a l IH]; intros b; cbn; [by rewrite app_nil_r|]. by rewrite IH, app_assoc. Qed.
Lemma foldM_ext {S A B} (f g : B -> A -> M S B) l : (forall b a s, f b a s = g b a s) -> forall b s, foldM f b l s = foldM g b l s.
Proof. intros H. induction l as [|a l IH]; intros b s; [done|]. cbn. unfold mthen. rewrite H. destruct (g b a s) as [[b' s']|]; [apply IH|done]. Qed.

(** With a step in the request, every series is asked for. *)
Lemma history_run regions now a i g : regions a = Some g -> (0 < dd_Step i)%Z ->
  history regions now a i = Body (flat_map (fun h => map (series_of g i h) (dd_Counters i)) (dd_HostNames i)).
Proof.
  intros Hg Hs. unfold history. rewrite Hg. unfold QueryGraphDrawData. apply Z.ltb_lt in Hs. rewrite Hs.
  assert (forall h respData (s : Search), foldM (fun respData counter =>
    do! step := ret (Some (dd_Step i)) in
    ret (match step with
         | None => respData
         | Some step => (respData ++ [fst (fetchData (rg_ring g) (rg_clusterMap g) (rg_pools g) (rg_rpc g) h counter (dd_ConsolFun i) (dd_StartTime i) (dd_EndTime i) step)])%list
         end)) respData (dd_Counters i) s = Ret ((respData ++ map (series_of g i h) (dd_Counters i))%list, s)) as Hin.
  { intros h respData s. etransitivity; [apply (foldM_ext _ (fun respData counter => ret (respData ++ [series_of g i h counter])%list)); done|].
    rewrite foldM_pure, fold_append. done. }
  unfold mthen at 1. rewrite (foldM_ext _ (fun b h => ret (b ++ map (series_of g i h) (dd_Counters i))%list)) by (intros b h s; apply (Hin h)).
  rewrite (foldM_pure (fun b h => (b ++ map (series_of g i h) (dd_Counters i))%list)). cbn. by rewrite fold_append.
Qed.

(** * Routing *)

Section routing.
Context (walk : nat -> forall T, gmap string T -> list (string * T)).
Hypothesis walk_perm : forall n T (m : gmap string T), walk n T m ≡ₚ map_to_list m.
Context (s : Proxy).

(** A host is asked for at an address. *)
Definition goes (n : nat) (h a : string) : Prop := match region_of walk s n h with Some b => a = b | None => a ∈ ApiAddrList s end.
Definition asked {X} (m : gmap string (list X)) (a : string) (x : X) : Prop := x ∈ default [] (m !! a).

Lemma asked_append {X} (x y : X) m a b : asked (append_to x m b) a y <-> asked m a y \/ (y = x /\ a = b).
Proof using Type.
  unfold asked, append_to. destruct (decide (a = b)) as [->|Hne].
  - rewrite lookup_insert_eq. cbn. rewrite elem_of_app, list_elem_of_singleton. tauto.
  - rewrite lookup_insert_ne by done. tauto.
Qed.
Lemma asked_all {X} (x y : X) l : forall m a, asked (fold_left (append_to x) l m) a y <-> asked m a y \/ (y = x /\ a ∈ l).
Proof using Type.
  induction l as [|b l IH]; intros m a; cbn; [rewrite elem_of_nil; tauto|]. rewrite IH, asked_append, elem_of_cons. tauto.
Qed.
Lemma asked_route {X} n h (x y : X) m a : asked (route walk s n h x m) a y <-> asked m a y \/ (y = x /\ goes n h a).
Proof using Type. unfold route, goes. destruct (region_of walk s n h); [apply asked_append|apply asked_all]. Qed.
Lemma asked_route_all {X} (l : list (string * X)) : forall n m a y,
  asked (route_all walk s n l m) a y <-> asked m a y \/ exists k h, l !! k = Some (h, y) /\ goes (n + k) h a.
Proof using Type.
  induction l as [|[h x] l IH]; intros n m a y; cbn [route_all].
  - split; [by left|]. intros [H|(k & h & H & _)]; [done|]. by rewrite lookup_nil in H.
  - rewrite IH, asked_route. split.
    + intros [[H|[-> H]]|(k & h' & H & G)]; [by left|right; exists 0, h; by rewrite Nat.add_0_r|right]. exists (S k), h'. by rewrite Nat.add_succ_r.
    + intros [H|([|k] & h' & H & G)]; [tauto| |].
      * injection H as -> ->. rewrite Nat.add_0_r in G. left. by right.
      * right. exists k, h'. by rewrite Nat.add_succ_r in G.
Qed.
Lemma asked_hosts hosts a h : asked (CreateApiMap walk s hosts) a h <-> exists k, hosts !! k = Some h /\ goes k h a.
Proof using Type.
  unfold CreateApiMap. rewrite asked_route_all. unfold asked. rewrite lookup_empty. cbn [default]. rewrite elem_of_nil. split.
  - intros [[]|(k & h' & H & G)]. rewrite list_lookup_fmap in H. destruct (hosts !! k) as [h0|] eqn:E; [|done]. injection H as <- <-. by exists k.
  - intros (k & H & G). right. exists k, h. by rewrite list_lookup_fmap, H.
Qed.
(** The lists of the map are those that are walked. *)
Lemma walked {X} n (m : gmap string (list X)) a x : asked m a x <-> exists l, (a, l) ∈ walk n _ m /\ x ∈ l.
Proof using walk_perm.
  unfold asked. split.
  - intros H. destruct (m !! a) as [l|] eqn:E; [|by apply elem_of_nil in H]. exists l. rewrite walk_perm. split; [by apply elem_of_map_to_list|done].
  - intros (l & Hl & Hx). rewrite walk_perm in Hl. apply elem_of_map_to_list in Hl. by rewrite Hl.
Qed.

(** What the proxy knows of hosts is right, if not complete. *)
Definition knows (home : string -> string) : Prop :=
  forall region ag h, AgentConfigMap s !! region = Some ag -> JudgeRegion s region h = true -> ApiAddr ag = home h.
Lemma goes_home home n h : knows home -> home h ∈ ApiAddrList s -> goes n h (home h).
Proof using walk_perm.
  intros Hk Ha. unfold goes, region_of. destruct (List.find _ _) as [[region ag]|] eqn:E; [|done]. apply find_some in E as [Hin Hj]. cbn.
  apply list_elem_of_In in Hin. rewrite walk_perm in Hin. apply elem_of_map_to_list in Hin. symmetry. by eapply Hk.
Qed.
End routing.

(** * Putting answers together *)

(** A series with values, under its key. *)
Definition add_series (m : gmap string GraphQueryResponse) (d : GraphQueryResponse) : gmap string GraphQueryResponse :=
  match qr_Values d with [] => m | _ => <[series_key (qr_Endpoint d) (qr_Counter d) := d]> m end.
Definition key_of (d : GraphQueryResponse) : string := series_key (qr_Endpoint d) (qr_Counter d).
Definition drawn (d : GraphQueryResponse) : Prop := qr_Values d <> [].

Lemma take_series_all l : forall m, Forall is_Some l -> take_series m l = Ret (fold_left add_series (omap id l) m).
Proof.
  unfold take_series. induction l as [|o l IH]; intros m Hl; [done|]. apply Forall_cons in Hl as [[d ->] Hl]. cbn. rewrite <- IH by done. done.
Qed.
Lemma take_series_nil l : None ∈ l -> forall m, take_series m l = Panic NilDeref.
Proof.
  intros Hn m. apply (fold_res_panics _ NilDeref); [by intros ? [|]|]. by exists None.
Qed.
Lemma add_series_lookup l : forall m k r, (forall d d', d ∈ l -> d' ∈ l -> drawn d -> drawn d' -> key_of d = key_of d' -> d = d') ->
  (forall d d', d ∈ l -> drawn d -> m !! key_of d = Some d' -> d = d') ->
  fold_left add_series l m !! k = Some r <-> (r ∈ l /\ drawn r /\ key_of r = k) \/ m !! k = Some r.
Proof.
  induction l as [|d l IH]; intros m k r Hl Hm; cbn [fold_left]; [rewrite elem_of_nil; tauto|].
  assert (add_series m d = if decide (drawn d) then <[key_of d := d]> m else m) as Ea.
  { unfold add_series, drawn. destruct (qr_Values d); [rewrite decide_False; [done|tauto]|by rewrite decide_True]. }
  assert (forall k r, add_series m d !! k = Some r <-> (r = d /\ drawn d /\ key_of d = k) \/ m !! k = Some r) as Ek.
  { intros k' r'. rewrite Ea. destruct (decide (drawn d)) as [Hd|Hd]; [|tauto]. destruct (decide (key_of d = k')) as [<-|Hne].
    - rewrite lookup_insert_eq. split; [intros [= <-]; auto|]. intros [(-> & _)|H]; [done|]. f_equal. by eapply Hm; [left|..].
    - rewrite lookup_insert_ne by done. tauto. }
  rewrite IH.
  - rewrite Ek, elem_of_cons. split; [|intros [([->|H] & Hr)|H]; auto 10]. intros [(H & Hr)|[(-> & Hr & <-)|H]]; auto 10.
  - intros x x' Hx Hx'. apply Hl; by right.
  - intros x x' Hx Hd H. apply Ek in H as [(-> & Hd' & Hk)|H]; [apply Hl; [by right|by left|done..]|]. eapply Hm; [by right|done|done].
Qed.

Section one_service.
Context (walk : nat -> forall T, gmap string T -> list (string * T)).
Hypothesis walk_perm : forall n T (m : gmap string T), walk n T m ≡ₚ map_to_list m.
Context (s : Proxy) (regions : string -> option Region) (now : Z) (i : APIQueryGraphDrawData).
Hypothesis step : (0 < dd_Step i)%Z.

(** What the regions that are asked give, in the order of the walk. *)
Definition gives (p : string * list string) : list GraphQueryResponse :=
  match regions p.1 with
  | Some g => omap id (flat_map (fun h => map (series_of g i h) (dd_Counters i)) p.2)
  | None => []
  end.
(** The request to one of them. *)
Definition for_hosts (hosts : list string) : APIQueryGraphDrawData := mkDraw hosts (dd_Counters i) (dd_ConsolFun i) (dd_StartTime i) (dd_EndTime i) (dd_Step i).
Lemma elem_of_given g hosts o : o ∈ flat_map (fun h => map (series_of g i h) (dd_Counters i)) hosts <->
  exists h c, h ∈ hosts /\ c ∈ dd_Counters i /\ series_of g i h c = o.
Proof using Type.
  rewrite list_elem_of_In, in_flat_map. setoid_rewrite in_map_iff. split.
  - intros (h & Hh & c & <- & Hc). exists h, c. by rewrite !list_elem_of_In.
  - intros (h & c & Hh & Hc & <-). exists h. rewrite <- list_elem_of_In. split; [done|]. exists c. by rewrite <- list_elem_of_In.
Qed.
Lemma elem_of_gives a hosts r : r ∈ gives (a, hosts) <->
  exists g h c, regions a = Some g /\ h ∈ hosts /\ c ∈ dd_Counters i /\ series_of g i h c = Some r.
Proof using Type.
  unfold gives. cbn. destruct (regions a) as [g|]; [|split; [by intros ?%elem_of_nil|by intros (? & ? & ? & ? & _)]].
  rewrite list_elem_of_omap. setoid_rewrite elem_of_given. split.
  - intros (o & (h & c & Hh & Hc & <-) & E). by exists g, h, c.
  - intros (g' & h & c & [= <-] & Hh & Hc & E). exists (Some r). split; [|done]. by exists h, c.
Qed.

(** One region after another, as long as each gives something for every series. *)
Lemma asks_all l : (forall a hosts g h c, (a, hosts) ∈ l -> regions a = Some g -> h ∈ hosts -> c ∈ dd_Counters i -> is_Some (series_of g i h c)) -> forall m,
  fold_res (fun dataMap '(apiAddr, newHosts) => match history regions now apiAddr (for_hosts newHosts) with Body resV => take_series dataMap resV | _ => Ret dataMap end) m l =
  Ret (fold_left add_series (flat_map gives l) m).
Proof using step.
  induction l as [|[a hosts] l IH]; intros Hl m; [done|]. cbn [fold_res flat_map]. rewrite fold_left_app.
  assert (match history regions now a (for_hosts hosts) with Body resV => take_series m resV | _ => Ret m end = Ret (fold_left add_series (gives (a, hosts)) m)) as ->.
  { unfold gives. cbn. destruct (regions a) as [g|] eqn:Eg; [|unfold history; by rewrite Eg].
    rewrite (history_run _ _ _ _ g Eg) by done. apply take_series_all. apply Forall_forall. intros o Ho. apply elem_of_given in Ho as (h & c & Hh & Hc & <-).
    eapply Hl; [by left|done..]. }
  cbn [rbind]. apply IH. intros. eapply Hl; [by right|done..].
Qed.
End one_service.

(** C17: Over the regions that answer, the proxy is one web service with the graphs
    of all of them.  Take a request for points with a positive step in which
    no two pairs of host and counter make the same key, let every host be at
    home in a region the proxy has in its list, and let what the proxy knows
    of the hosts be right - it may be nothing of some, or of all after a hbs
    did not answer.  Let no graph of a region that answers be late with a
    series that is asked for (else [late_graph_ends_proxy]), and let only the
    region a host is at home in have values of the host.  Then the request is
    answered with the series of the region of each host, those with values,
    each once; and a region that cannot be reached takes away its own series
    only. *)
Theorem proxy_as_one (walk : nat -> forall T, gmap string T -> list (string * T)) (s : Proxy) (regions : string -> option Region) (now : Z)
    (home : string -> string) (i : APIQueryGraphDrawData) :
  (forall n T (m : gmap string T), walk n T m ≡ₚ map_to_list m) -> knows s home -> (0 < dd_Step i)%Z ->
  (forall h, h ∈ dd_HostNames i -> home h ∈ ApiAddrList s) ->
  (forall a g h c, regions a = Some g -> h ∈ dd_HostNames i -> c ∈ dd_Counters i ->
    exists r, series_of g i h c = Some r /\ (drawn r -> qr_Endpoint r = h /\ qr_Counter r = c /\ a = home h)) ->
  (forall h c h' c', h ∈ dd_HostNames i -> h' ∈ dd_HostNames i -> c ∈ dd_Counters i -> c' ∈ dd_Counters i ->
    series_key h c = series_key h' c' -> h = h' /\ c = c') ->
  exists l, QueryHistoryProxy walk s (history regions now) (Some i) = Ret (PHistory l) /\ NoDup l /\
    forall r, r ∈ l <-> exists h c g, h ∈ dd_HostNames i /\ c ∈ dd_Counters i /\ regions (home h) = Some g /\ series_of g i h c = Some r /\ drawn r.
Proof.
  intros Hw Hk Hstep Hhome Hans Hkeys. set (hosts := dd_HostNames i). set (W := over_addrs walk hosts (CreateApiMap walk s hosts)).
  assert (forall a hs h, (a, hs) ∈ W -> h ∈ hs -> h ∈ hosts) as Hsub.
  { intros a hs h Hin Hh. assert (asked (CreateApiMap walk s hosts) a h) as H by (apply (walked walk Hw (length hosts)); by exists hs).
    apply asked_hosts in H as (k & H & _). by eapply list_elem_of_lookup_2. }
  assert (forall r, drawn r -> (r ∈ flat_map (gives regions i) W <->
    exists h c g, h ∈ hosts /\ c ∈ dd_Counters i /\ regions (home h) = Some g /\ series_of g i h c = Some r)) as Hmem.
  { intros r Hr. rewrite list_elem_of_In, in_flat_map. split.
    - intros ([a hs] & Hin & H). rewrite <- !list_elem_of_In in *. apply elem_of_gives in H as (g & h & c & Hg & Hh & Hc & E). exists h, c, g.
      specialize (Hsub _ _ _ Hin Hh). destruct (Hans a g h c Hg Hsub Hc) as (r' & E' & H). rewrite E in E'. injection E' as <-. destruct (H Hr) as (_ & _ & <-). done.
    - intros (h & c & g & Hh & Hc & Hg & E). apply list_elem_of_lookup_1 in Hh as [k Hh].
      assert (asked (CreateApiMap walk s hosts) (home h) h) as H.
      { apply asked_hosts. exists k. split; [done|]. apply goes_home; [done|done|]. apply Hhome. by eapply list_elem_of_lookup_2. }
      apply (walked walk Hw (length hosts)) in H as (hs & Hin & Hh'). exists (home h, hs). rewrite <- !list_elem_of_In. split; [done|]. apply elem_of_gives. by exists g, h, c. }
  unfold QueryHistoryProxy. fold hosts. fold W. rewrite (asks_all regions now i Hstep W); cycle 1.
  { intros a hs g h c Hin Hg Hh Hc. destruct (Hans a g h c Hg (Hsub _ _ _ Hin Hh) Hc) as (r & -> & _). by eexists. }
  cbn [rbind]. set (m := fold_left add_series _ _).
  assert (forall k r, m !! k = Some r <-> r ∈ flat_map (gives regions i) W /\ drawn r /\ key_of r = k) as Hm.
  { intros k r. unfold m. rewrite add_series_lookup; [rewrite lookup_empty; naive_solver| |by intros ????; rewrite lookup_empty].
    intros d d' Hd Hd' Dd Dd' Ek. apply Hmem in Hd as (h & c & g & Hh & Hc & Hg & E); [|done]. apply Hmem in Hd' as (h' & c' & g' & Hh' & Hc' & Hg' & E'); [|done].
    destruct (Hans _ _ _ _ Hg Hh Hc) as (x & Ex & Hx). rewrite E in Ex. injection Ex as <-. destruct (Hx Dd) as (Eh & Ec & _).
    destruct (Hans _ _ _ _ Hg' Hh' Hc') as (x & Ex & Hx'). rewrite E' in Ex. injection Ex as <-. destruct (Hx' Dd') as (Eh' & Ec' & _).
    unfold key_of in Ek. rewrite Eh, Ec, Eh', Ec' in Ek. destruct (Hkeys h c h' c') as [-> ->]; [done..|]. congruence. }
  exists (over_found walk hosts m). split; [done|]. unfold over_found. split.
  - apply NoDup_fmap_2_strong; [|rewrite Hw; apply NoDup_map_to_list]. intros [k r] [k' r'] H H' E. cbn in E. subst r'. rewrite Hw in H, H'.
    apply elem_of_map_to_list in H, H'. apply Hm in H as (_ & _ & <-). by apply Hm in H' as (_ & _ & <-).
  - intros r. rewrite list_elem_of_fmap. split.
    + intros ([k r'] & -> & H). rewrite Hw in H. apply elem_of_map_to_list, Hm in H as (Hin & Hd & _). cbn. apply Hmem in Hin as (h & c & g & H); [|done]. exists h, c, g. tauto.
    + intros (h & c & g & Hh & Hc & Hg & E & Hd). exists (key_of r, r). split; [done|]. rewrite Hw. apply elem_of_map_to_list, Hm. split; [|done]. apply Hmem; [done|]. by exists h, c, g.
Qed.

(** A graph does not answer in time. *)
Definition late (g : Region) (i : APIQueryGraphDrawData) (h c : string) : Prop := exists addr,
  selectPool (rg_ring g) (rg_clusterMap g) (rg_pools g) h c = Some addr /\ connected (rg_pools g) addr = true /\
  rg_rpc g addr (GenQParam h c (dd_ConsolFun i) (dd_StartTime i) (dd_EndTime i) (dd_Step i)) = TimedOut.
Lemma late_nil g i h c : late g i h c -> series_of g i h c = None.
Proof. intros (addr & Hs & Hc & Hr). unfold series_of, fetchData, QueryOne. cbn [qp_Endpoint qp_Counter GenQParam]. by rewrite Hs, Hc, Hr. Qed.

(** C18: When a graph of one region does not answer in time for one of the series of
    a request, the web service of that region answers with a nil among the
    series, and the handler of the proxy ends with a panic: nothing is answered
    of any region. *)
Theorem late_graph_ends_proxy (walk : nat -> forall T, gmap string T -> list (string * T)) (s : Proxy) (regions : string -> option Region) (now : Z)
    (i : APIQueryGraphDrawData) (k : nat) (h c a : string) (g : Region) :
  (forall n T (m : gmap string T), walk n T m ≡ₚ map_to_list m) -> (0 < dd_Step i)%Z ->
  dd_HostNames i !! k = Some h -> c ∈ dd_Counters i -> goes walk s k h a -> regions a = Some g -> late g i h c ->
  QueryHistoryProxy walk s (history regions now) (Some i) = Panic NilDeref.
Proof.
  intros Hw Hs Hk Hc Hgo Hg Hl%late_nil. unfold QueryHistoryProxy. rewrite (fold_res_panics _ NilDeref); [done| |].
  - intros m [a' hs']. destruct (history _ _ _ _); try done. unfold take_series. apply fold_res_only. by intros ? [|].
  - assert (asked (CreateApiMap walk s (dd_HostNames i)) a h) as H by (apply asked_hosts; by exists k).
    apply (walked walk Hw (length (dd_HostNames i))) in H as (hs & Hin & Hh). exists (a, hs). split; [done|]. intros m.
    rewrite (history_run regions now a _ g Hg) by done. apply take_series_nil. apply (elem_of_given i g hs None). by exists h, c.
Qed.

(** Two regions, of which the proxy knows one, and the hosts of both. *)
Definition demo_walk (_ : nat) (T : Type) (m : gmap string T) : list (string * T) := map_to_list m.
Definition demo_proxy : Proxy := mkProxy {["north" := mkAgent "n" ["n:1"]; "south" := mkAgent "s" ["s:1"]]} ["n"; "s"] {["north" := {["h1"]}]}.
Definition demo_search : SearchEnv := mkSearchEnv [] [] (fun _ => None) (fun _ _ l => l) String.eqb (fun _ _ => true) (fun _ _ => true) (fun _ => inr "") (fun s => s).
(** The graphs of a region have the series of one host; those of another are late. *)
Definition demo_rpc (mine slow : string) (_ : string) (q : GraphQueryParam) : outcome GraphQueryResponse :=
  if String.eqb (qp_Endpoint q) slow then TimedOut
  else Answered (mkGQR (qp_Endpoint q) (qp_Counter q) "GAUGE" 60 (if String.eqb (qp_Endpoint q) mine then [mkRRDData 60 (f64_of_Z 1)] else [])).
Definition demo_region (mine slow : string) : Region := mkRegion demo_search (fun _ => Some "g") {["g" := "g:1"]} {["g:1" := Some false]} (demo_rpc mine slow).
Definition demo_regions (slow a : string) : option Region :=
  if String.eqb a "n" then Some (demo_region "h1" slow) else if String.eqb a "s" then Some (demo_region "h2" slow) else None.
Definition demo_draw : APIQueryGraphDrawData := mkDraw ["h1"; "h2"] ["cpu"] "AVERAGE" 0 120 60.
Definition demo_home (h : string) : string := if String.eqb h "h1" then "n" else "s".

Lemma demo_walk_perm : forall n T (m : gmap string T), demo_walk n T m ≡ₚ map_to_list m.
Proof. done. Qed.
Lemma demo_knows : knows demo_proxy demo_home.
Proof.
  intros region ag h Ha Hj. unfold JudgeRegion in Hj. change (AgentDataMap demo_proxy) with ({["north" := {["h1"]}]} : gmap string (gset string)) in Hj.
  destruct (decide (region = "north")) as [->|Hne]; [|by rewrite lookup_singleton_ne in Hj].
  rewrite lookup_singleton_eq in Hj. apply bool_decide_eq_true, elem_of_singleton in Hj as ->. vm_compute in Ha. by injection Ha as <-.
Qed.

Lemma proxy_as_one_witness : exists l, QueryHistoryProxy demo_walk demo_proxy (history (demo_regions "") 0) (Some demo_draw) = Ret (PHistory l) /\
  mkGQR "h2" "cpu" "GAUGE" 60 [mkRRDData 60 (f64_of_Z 1)] ∈ l.
Proof.
  destruct (proxy_as_one demo_walk demo_proxy (demo_regions "") 0 demo_home demo_draw demo_walk_perm demo_knows) as (l & E & _ & Hl).
  - done.
  - intros h Hh. unfold demo_home. destruct (String.eqb h "h1"); [by left|right; by left].
  - intros a g h c Ha Hh Hc. cbn in Hh, Hc. apply list_elem_of_singleton in Hc as ->. unfold demo_regions in Ha.
    apply elem_of_cons in Hh as [->|Hh%list_elem_of_singleton]; [|subst h];
      (destruct (String.eqb_spec a "n") as [->|_]; [|destruct (String.eqb_spec a "s") as [->|_]; [|discriminate Ha]]); injection Ha as <-;
      (eexists; split; [vm_compute; reflexivity|]); intros Hd; first [by destruct Hd|done].
  - intros h c h' c' Hh Hh' Hc Hc' Ek. cbn in Hh, Hh', Hc, Hc'. apply list_elem_of_singleton in Hc as ->. apply list_elem_of_singleton in Hc' as ->.
    apply elem_of_cons in Hh as [->|Hh%list_elem_of_singleton]; [|subst h]; (apply elem_of_cons in Hh' as [->|Hh'%list_elem_of_singleton]; [|subst h']); first [done|discriminate Ek].
  - exists l. split; [exact E|]. apply Hl. exists "h2", "cpu", (demo_region "h2" ""). split; [right; by left|]. split; [by left|]. split; [done|]. split; [vm_compute; reflexivity|done].
Defined.

Lemma late_graph_ends_proxy_witness : QueryHistoryProxy demo_walk demo_proxy (history (demo_regions "h1") 0) (Some demo_draw) = Panic NilDeref.
Proof.
  refine (late_graph_ends_proxy demo_walk demo_proxy (demo_regions "h1") 0 demo_draw 0 "h1" "cpu" "n" (demo_region "h1" "h1") demo_walk_perm _ _ _ _ _ _).
  - done.
  - done.
  - by left.
  - vm_compute. reflexivity.
  - done.
  - exists "g:1". split; [done|]. split; [done|]. vm_compute. reflexivity.
Defined.

(** * The pages of a search *)

Section search.
Context (env : SearchEnv) (order_ok : forall n R l, v_order env n R l ≡ₚ l).

Lemma query_run {X} (rows : list X) s r s' : query env rows s = Ret (r, s') -> match r with inl l => l ≡ₚ rows | inr _ => True end.
Proof using order_ok. unfold query. intros [= <- _]. destruct (v_sql env (s_tick s)); [done|]. apply order_ok. Qed.
(** The offset of a page after the first. *)
Lemma offset_of_later page limit : (1 < page)%Z -> (0 < limit)%Z -> ((page - 1) * limit < 2 ^ 63)%Z -> offset_of page limit = ((page - 1) * limit)%Z.
Proof using Type.
  intros H1 Hl Hw. assert (page - 1 <= (page - 1) * limit)%Z by nia. unfold offset_of. destruct (Z.ltb_spec 1 page); [|lia].
  rewrite (wrap64_id (page - 1)) by (unfold in_i64; lia). apply wrap64_id. unfold in_i64; lia.
Qed.
(** Of a few ids there are no more endpoints, so none is left after as many. *)
Lemma few_endpoints ids q rows limit offset : NoDup (map ep_ID (v_endpoints env)) ->
  rows ≡ₚ List.filter (fun e => in_ids ids (ep_ID e) && q e) (v_endpoints env) -> (Z.of_nat (length ids) <= limit)%Z -> (limit <= offset)%Z -> page_of limit offset rows = [].
Proof using Type.
  intros Hnd Hr Hl Ho. assert (length rows <= length ids)%nat as Hlen.
  { rewrite Hr. rewrite <- (length_map ep_ID). apply submseteq_length, NoDup_submseteq.
    - clear Hr. induction (v_endpoints env) as [|e l IH]; [constructor|]. cbn in *. apply NoDup_cons in Hnd as [He Hnd]. destruct (_ && _); [|by apply IH].
      cbn. constructor; [|by apply IH]. intros H. apply He. rewrite !list_elem_of_In in *. apply in_map_iff in H as (e' & <- & H). apply filter_In in H as [H _]. by apply in_map.
    - intros x Hx. rewrite list_elem_of_In, in_map_iff in Hx. destruct Hx as (e & <- & H). apply filter_In in H as [_ H]. apply andb_true_iff in H as [H _].
      unfold in_ids in H. apply existsb_exists in H as (j & Hj & E). apply Z.eqb_eq in E as ->. by apply list_elem_of_In. }
  unfold page_of. destruct (Z.leb_spec 0 limit); [|lia]. destruct (Z.leb_spec 0 offset); [|lia]. rewrite skipn_all2; [by rewrite take_nil|lia].
Qed.
End search.

(** The endpoints a search by names alone lists on a page, in some order. *)
Definition page_of_names (env : SearchEnv) (i : APIEndpointRegexpQueryInputs) (limit offset : Z) (b : sbody) : Prop :=
  exists rows, rows ≡ₚ List.filter (named env (terms (rq_Q i) " ")) (v_endpoints env) /\ b = listed (page_of limit offset rows).

(** A search by names and by labels, for a page after the first, is never
    answered with the rest of its endpoints: the bounds of the page are put on
    the search of the labels and on that of the names, so that it is empty; or,
    once the labels have no more, they are left out and the page is one of a
    search by the names alone. *)
Theorem later_pages_lost (env : SearchEnv) (i : APIEndpointRegexpQueryInputs) (page : Z) (s s' : Search) a :
  (forall n R l, v_order env n R l ≡ₚ l) -> NoDup (map ep_ID (v_endpoints env)) ->
  let limit := default 500%Z (rq_Limit i) in
  rq_Page i = Some page -> (1 < page)%Z -> (0 < limit)%Z -> ((page - 1) * limit < 2 ^ 63)%Z -> rq_Q i <> "" -> rq_Label i <> "" ->
  EndpointRegexpQuery env (Some i) s = Ret (a, s') ->
  sa_code a = 400%Z \/ a = found (SEndpoints []) \/ page_of_names env i limit ((page - 1) * limit) (sa_body a).
Proof.
  intros Ho Hnd limit Hp H1 Hl Hw Hq Hlab H. unfold EndpointRegexpQuery in H. cbv zeta in H. fold limit in H. rewrite Hp in H. cbn [from_option] in H. unfold id in H.
  assert (is_empty (rq_Q i) = false) as Eq by (by destruct (rq_Q i)). assert (is_empty (rq_Label i) = false) as El by (by destruct (rq_Label i)).
  rewrite Eq in H. cbn [andb] in H. rewrite (offset_of_later page limit H1 Hl Hw) in H. set (offset := ((page - 1) * limit)%Z) in *. assert (limit <= offset)%Z as Hge by (unfold offset; nia).
  assert (exists t l, terms (rq_Label i) "," = t :: l) as (t & l & Et).
  { unfold terms. rewrite El. unfold GoStr.split. destruct (split_aux _ _ _). by eexists _, _. }
  assert (exists t l, terms (rq_Q i) " " = t :: l) as (t' & l' & Et').
  { unfold terms. rewrite Eq. unfold GoStr.split. destruct (split_aux _ _ _). by eexists _, _. }
  rewrite Et in H. apply mthen_inv in H as (ids & s1 & E1 & H). apply mthen_inv in E1 as (r & s2 & E2 & [= <- <-]).
  destruct r as [l0|e]; [|injection H as <- _; by left].
  set (ids := page_of limit offset l0) in *. assert (Z.of_nat (length ids) <= limit)%Z as Hlen.
  { unfold ids, page_of. destruct (Z.leb_spec 0 limit); [|lia]. rewrite length_take. lia. }
  rewrite Et' in H. destruct ids as [|j ids'] eqn:Ei; apply mthen_inv in H as (r & s3 & E3 & [= <- <-]); apply (query_run env Ho) in E3; right.
  - destruct r as [rows|e]; [|by left]. right. exists rows. rewrite Et'. split; [exact E3|done].
  - destruct r as [rows|e]; [|by left]. left. rewrite (few_endpoints env (j :: ids') (named env (t' :: l')) rows limit offset Hnd E3 Hlen Hge). done.
Qed.

(** Two endpoints with a label each, on pages of one: the second page is empty. *)
Definition demo_one : SearchEnv :=
  mkSearchEnv [mkEndpoint 1 "h1" 0; mkEndpoint 2 "h2" 0] [mkCounter 1 1 "cpu/core=0" 60 "GAUGE"; mkCounter 2 2 "cpu/core=0" 60 "GAUGE"]
    (fun _ => None) (fun _ _ l => l) String.eqb (fun _ _ => true) (fun _ _ => true) (fun _ => inr "") (fun s => s).
Definition demo_later : APIEndpointRegexpQueryInputs := mkRegexpQuery "h" "core=0" (Some 1%Z) (Some 2%Z).

Lemma later_pages_lost_witness : exists a s, EndpointRegexpQuery demo_one (Some demo_later) (mkSearch 0 ∅) = Ret (a, s) /\ a = found (SEndpoints []) /\
  (sa_code a = 400%Z \/ a = found (SEndpoints []) \/ page_of_names demo_one demo_later 1 1 (sa_body a)).
Proof.
  eexists _, _. split; [vm_compute; reflexivity|]. split; [reflexivity|].
  refine (later_pages_lost demo_one demo_later 2 (mkSearch 0 ∅) _ _ _ _ _ _ _ _ _ _ _).
  - done.
  - cbn. repeat constructor; set_solver.
  - done.
  - lia.
  - cbn. lia.
  - cbn. lia.
  - done.
  - done.
  - vm_compute. reflexivity.
Defined.
