(* ===== verification/HbsSources.v ===== *)
(** What hbs reads from the tables of the web service ([modules/hbs/db]), the
    answers it keeps for a while ([cache/single_cache.go]), the maps it keeps
    ([cache/*.go]) and what it answers from them, and what it writes to the table
    of hosts.

    A query is the list of the rows its text asks for, a join being a
    comprehension over the tables; the rows come in an order the database
    chooses.  Names of hosts go into the texts as they are; those that would
    change the meaning of a text are left out. *)
From S2P Require Import Prelude GoFloat GoStr GoNum Utils HbsExpressions.
From S2P Require Export ApiDb Model HbsStrategies HbsAgents GoCache.
From Stdlib Require Import Ascii.
Local Open Scope string_scope.

(** * What the database holds and how it answers

    The tables are those the web service writes. The column
    [union_strategy_id] of a strategy, and the tables [union_strategy],
    [grp_svs] and [dynamic_config], are not known to its structs; they are
    given apart. *)
Record Portal := mkPortal {
  po_db : Db;
  po_union_id : Z -> Z;
  po_unions : list (Z * string);
  po_services : list (Z * string);
  po_collate : string -> string;
  po_order : forall R : Type, list R -> list R;
  po_up : bool }.

Section queries.
Context (p : Portal).
Local Notation table t := (po_db p t) (only parsing).

(** [h.hostname='...'], under the collation. *)
Definition host_is (hostname : string) (h : PHost) : bool := String.eqb (po_collate p (ho_Hostname h)) (po_collate p hostname).

(** [grp g, grp_host gh, host h where gh.grp_id=g.id and gh.host_id=h.id and h.hostname=...]: a group for each membership of the host. *)
Definition host_groups (hostname : string) : list HostGroup :=
  h ← List.filter (host_is hostname) (table THost);
  gh ← List.filter (fun m => (gh_HostID m =? ho_ID h)%Z) (table TGrpHost);
  List.filter (fun g => (hg_ID g =? gh_GrpID gh)%Z) (table TGrp).
(** The same with [grp_tpl gt, tpl] [where tpl.id=gt.tpl_id and gt.grp_id=g.id]. *)
Definition host_templates (hostname : string) : list PTemplate :=
  g ← host_groups hostname;
  gt ← List.filter (fun b => (gt_GrpID b =? hg_ID g)%Z) (table TGrpTpl);
  List.filter (fun t => (tp_ID t =? gt_TplID gt)%Z) (table TTpl).

(** The strategies whose template has the id that [key] takes from a template of the host. *)
Definition strategy_rows (hostname : string) (key : PTemplate -> Z) : list (PStrategy * PTemplate) :=
  t ← host_templates hostname;
  map (fun s => (s, t)) (List.filter (fun s => (sr_TplId s =? key t)%Z) (table TStrategy)).

Definition to_template (t : PTemplate) : Template := mkTemplate (tp_ID t) (tp_Name t) (tp_ParentID t) (tp_ActionID t) (tp_CreateUser t).
(** A row of a strategy is read: a right value that is no number makes [Scan] fail. *)
Definition to_strategy (tags : gmap string string) (s : PStrategy) (t : option Template) : option Strategy :=
  v ← ParseFloat (sr_RightValue s);
  Some (mkStrategy (sr_ID s) (sr_Metric s) tags (sr_Func s) (sr_Op s) v (sr_MaxStep s) (sr_Priority s) (sr_Note s) t (po_union_id p (sr_ID s))).
Definition scan_strategy (r : PStrategy * PTemplate) : option Strategy :=
  to_strategy (snd (SplitTagsString (sr_Tags (fst r)))) (fst r) (Some (to_template (snd r))).

(** Source: modules/hbs/db/strategy.go, QueryStrategiesForOneEnd. The strategies of the templates of the host and of their parents; a query that fails gives none. *)
Definition QueryStrategiesForOneEnd (endpoint : string) : list Strategy :=
  if po_up p then
    omap scan_strategy (po_order p _ (strategy_rows endpoint tp_ID ++ strategy_rows endpoint tp_ParentID)%list)
  else [].

(** Source: modules/hbs/db/strategy.go, QueryUnionStrategiesByUnionId. *)
Definition QueryUnionStrategiesByUnionId (unionId : Z) : list Strategy :=
  if po_up p then
    omap scan_strategy (po_order p _ (
      s ← List.filter (fun s => (po_union_id p (sr_ID s) =? unionId)%Z) (table TStrategy);
      map (fun t => (s, t)) (List.filter (fun t => (sr_TplId s =? tp_ID t)%Z) (table TTpl)))%list)
  else [].

(** The metrics that are collected for a host only when a strategy asks for them. *)
Definition special_metric (s : PStrategy) : bool :=
  bool_decide (sr_Metric s ∈ ["net.port.listen"; "proc.num"; "du.bs"; "url.check.health"]).
Definition to_builtin (s : PStrategy) : BuiltinMetric := mkBuiltin (sr_Metric s) (sr_Tags s).
(** Source: modules/hbs/db/strategy.go, lines 288-316. The rows [QueryHostSpecialMetric] reads. Symbol: QueryHostSpecialMetric. *)
Definition special_rows (hostname : string) : list BuiltinMetric :=
  if po_up p then
    po_order p _ (map (fun r => to_builtin (fst r))
      (List.filter (fun r => special_metric (fst r)) (strategy_rows hostname tp_ID ++ strategy_rows hostname tp_ParentID)))
  else [].
(** Source: modules/hbs/db/strategy.go, QueryBuiltinMetrics. The rows of the templates that are listed, each metric and tags once; [None] for an error. *)
Definition QueryBuiltinMetrics (tids : list Z) : option (list BuiltinMetric) :=
  if po_up p then
    Some (QueryHostSpecialMetric (po_order p _ (map to_builtin
      (List.filter (fun s => bool_decide (sr_TplId s ∈ tids) && special_metric s) (table TStrategy)))))
  else None.

(** Source: modules/hbs/db/plugin.go, QueryPluginsForEnd. *)
Definition QueryPluginsForEnd (hostname : string) : list string :=
  if po_up p then
    po_order p _ (g ← host_groups hostname; map pd_Dir (List.filter (fun d => (pd_GrpId d =? hg_ID g)%Z) (table TPlugin)))
  else [].
(** Source: modules/hbs/db/plugin.go, queryPlugins. *)
Definition queryPlugins : option (gmap Z (list string)) :=
  if po_up p then
    Some (fold_left (fun m d => append_at (pd_GrpId d) (pd_Dir d) m) (po_order p _ (table TPlugin)) ∅)
  else None.

(** Source: modules/hbs/db/host.go, QueryHostMaintain. [now] is the clock of the database. The rows of a failed query are closed, which panics; the first row decides, and its name has to be the one that was asked for to the letter. *)
Definition QueryHostMaintain (now : Z) (hostname : string) : res bool :=
  if po_up p then
    Ret (match po_order p _ (List.filter (fun h => (ho_MaintainBegin h <? now)%Z && (now <? ho_MaintainEnd h)%Z && host_is hostname h) (table THost)) with
         | h :: _ => String.eqb (ho_Hostname h) hostname
         | [] => false
         end)
  else Panic NilDeref.
(** Source: modules/hbs/db/host.go, queryMonitoredHosts. *)
Definition queryMonitoredHosts (now : Z) : option (gmap Z Host) :=
  if po_up p then
    Some (fold_left (fun m h => <[ho_ID h := mkHost (ho_ID h) (ho_Hostname h)]> m)
            (po_order p _ (List.filter (fun h => (now <? ho_MaintainBegin h)%Z || (ho_MaintainEnd h <? now)%Z) (table THost))) ∅)
  else None.

(** Source: modules/hbs/db/template.go, queryTemplates. *)
Definition queryTemplates : option (gmap Z Template) :=
  if po_up p then Some (fold_left (fun m t => <[tp_ID t := to_template t]> m) (po_order p _ (table TTpl)) ∅) else None.
(** Source: modules/hbs/db/template.go, lines 159-160. The rows of [queryHostTemplateIds]: a template and a host. Symbol: queryHostTemplateIds. *)
Definition host_template_rows : option (list (Z * Z)) :=
  if po_up p then
    Some (po_order p _ (a ← table TGrpTpl; map (fun b => (gt_TplID a, gh_HostID b)) (List.filter (fun b => (gt_GrpID a =? gh_GrpID b)%Z) (table TGrpHost))))
  else None.
(** Source: modules/hbs/db/service.go, queryHostServices. The names of the services of each host, with commas. *)
Definition queryHostServices : option (gmap string string) :=
  if po_up p then
    Some (fold_left (fun (m : gmap string string) '(sname, hname) =>
            match m !! hname with Some l => <[hname := l ++s "," ++s sname]> m | None => <[hname := sname]> m end)
          (po_order p _ (
             '(grp, sname) ← po_services p;
             gh ← List.filter (fun gh => (gh_GrpID gh =? grp)%Z) (table TGrpHost);
             map (fun h => (sname, ho_Hostname h)) (List.filter (fun h => (ho_ID h =? gh_HostID gh)%Z) (table THost)))) ∅)
  else None.

(** * The strategies that count at a time of the day *)

(** [<=] and [<] between texts of digits and colons. *)
Definition text_le (a b : string) : bool := String.leb a b.
Definition text_lt (a b : string) : bool := String.ltb a b.
(** Source: modules/hbs/db/strategy.go, lines 179-189. The condition of the text: [now] is the time as [15:04]. Symbol: queryStrategies. *)
Definition runs_at (now : string) (s : PStrategy) : bool :=
  let run_begin := sr_RunBegin s in
  let run_end := sr_RunEnd s in
  (String.eqb run_begin "" && String.eqb run_end "")
  || (text_le run_begin now && text_lt now run_end)
  || (text_lt run_end run_begin && negb (text_lt now run_begin && text_lt run_end now)).

(** Source: modules/hbs/db/strategy.go, lines 209-220. The tags of a strategy: what is no pair is left out. Symbol: queryStrategies. *)
Definition loose_tags (tags : string) : gmap string string :=
  if String.eqb tags "" then ∅
  else fold_left (fun tt tag => match cut "=" tag with Some (k, v) => <[k := v]> tt | None => tt end) (split tags ",") ∅.
(** Source: modules/hbs/db/strategy.go, lines 199-232. The strategies whose template is known. Symbol: queryStrategies. *)
Definition strategies_at (now : string) (tpls : gmap Z Template) : gmap Z Strategy :=
  fold_left (fun ret s =>
    match to_strategy (loose_tags (sr_Tags s)) s (tpls !! sr_TplId s) with
    | Some st => match st_Tpl st with Some _ => <[st_Id st := st]> ret | None => ret end
    | None => ret
    end) (po_order p _ (List.filter (runs_at now) (table TStrategy))) ∅.
(** Source: modules/hbs/db/strategy.go, lines 241-277. The unions that have two known strategies or more; the error of this query is not looked at. Symbol: queryStrategies. *)
Definition union_chains (ret : gmap Z Strategy) : gmap Z (list Strategy) :=
  fold_left (fun m '(id, strategy_ids) =>
    let sChain := omap (fun oneId => ret !! parse_int_value oneId 64) (split strategy_ids ",") in
    if (1 <? length sChain)%nat then <[id := sChain]> m else m) (po_order p _ (po_unions p)) ∅.
(** Source: modules/hbs/db/strategy.go, queryStrategies. [None] for an error. *)
Definition queryStrategies (now : string) (tpls : gmap Z Template) : option (gmap Z Strategy * gmap Z (list Strategy)) :=
  if decide (tpls = ∅) then None
  else if po_up p then let ret := strategies_at now tpls in Some (ret, union_chains ret)
  else None.
End queries.

(** * Answers that are kept for a while ([cache/single_cache.go]) *)

(** The caches are made before the configuration is read, with a time to live of 0. *)

Record SingleCaches := mkSingle {
  HostMaintainCache : Ttl bool;
  h_HostSSCache : Ttl (list Strategy);
  UnionStrategiesCache : Ttl (list Strategy);
  HostSpecialMetricCache : Ttl (list BuiltinMetric);
  HostPluginCache : Ttl (list string) }.
Definition no_caches : SingleCaches := mkSingle ∅ ∅ ∅ ∅ ∅.
Notation C := (M SingleCaches).
Definition c_set_maintain v s := mkSingle v (h_HostSSCache s) (UnionStrategiesCache s) (HostSpecialMetricCache s) (HostPluginCache s).
Definition c_set_ss v s := mkSingle (HostMaintainCache s) v (UnionStrategiesCache s) (HostSpecialMetricCache s) (HostPluginCache s).
Definition c_set_union v s := mkSingle (HostMaintainCache s) (h_HostSSCache s) v (HostSpecialMetricCache s) (HostPluginCache s).
Definition c_set_metric v s := mkSingle (HostMaintainCache s) (h_HostSSCache s) (UnionStrategiesCache s) v (HostPluginCache s).
Definition c_set_plugin v s := mkSingle (HostMaintainCache s) (h_HostSSCache s) (UnionStrategiesCache s) (HostSpecialMetricCache s) v.

Section single_caches.
Context (GlobalCacheTtl : Z).

(** The shape of the five functions: what is kept, or what the query gives now. *)
Definition kept_or_asked {T} (get : SingleCaches -> Ttl T) (set : Ttl T -> SingleCaches -> SingleCaches) (nano : Z) (k : string) (query : res T) : C T :=
  do! hit := gets (fun s => cache_Get nano k (get s)) in
  match hit with
  | Some res => ret res
  | None =>
      do! res := lift query in
      do! _ := modify (fun s => set (cache_Set nano GlobalCacheTtl k res (get s)) s) in
      ret res
  end.

(** A moment: the clock, in nanoseconds, and the database then. *)
Context (p : Portal) (nano : Z).
Definition seconds : Z := (nano / 10 ^ 9)%Z.

(** Source: modules/hbs/cache/single_cache.go, JudgeHostMaintain. *)
Definition JudgeHostMaintain (hostname : string) : C bool :=
  kept_or_asked HostMaintainCache c_set_maintain nano hostname (QueryHostMaintain p seconds hostname).
(** Source: modules/hbs/cache/single_cache.go, JudgeHostStrategies. *)
Definition h_JudgeHostStrategies (hostname : string) : C (list Strategy) :=
  kept_or_asked h_HostSSCache c_set_ss nano hostname (Ret (QueryStrategiesForOneEnd p hostname)).
(** Source: modules/hbs/cache/single_cache.go, JudgeUnionStrategies. *)
Definition JudgeUnionStrategies (unionId : Z) : C (list Strategy) :=
  kept_or_asked UnionStrategiesCache c_set_union nano (itoa unionId) (Ret (QueryUnionStrategiesByUnionId p unionId)).
(** Source: modules/hbs/cache/single_cache.go, JudgeHostSpecialMetric. *)
Definition JudgeHostSpecialMetric (hostname : string) : C (list BuiltinMetric) :=
  kept_or_asked HostSpecialMetricCache c_set_metric nano hostname (Ret (QueryHostSpecialMetric (special_rows p hostname))).
(** Source: modules/hbs/cache/single_cache.go, JudgeHostPlugin. *)
Definition JudgeHostPlugin (hostname : string) : C (list string) :=
  kept_or_asked HostPluginCache c_set_plugin nano hostname (Ret (QueryPluginsForEnd p hostname)).

(** * The handlers that use them ([rpc/hbs.go], [rpc/agent.go]) *)

(** Source: modules/hbs/rpc/hbs.go, Hbs.GetOneEndStrategies. A host under maintenance has none. *)
Definition GetOneEndStrategies (endpoint : string) : C (list Strategy) :=
  do! res := JudgeHostMaintain endpoint in
  if (res : bool) then ret [] else h_JudgeHostStrategies endpoint.
(** Source: modules/hbs/rpc/hbs.go, Hbs.GetOneUnionStrategies. *)
Definition GetOneUnionStrategies (id : Z) : C (list Strategy) := JudgeUnionStrategies id.
(** Source: modules/hbs/rpc/agent.go, Agent.MinePlugins. The plugins and the time of the answer; [None] for a request without a name. *)
Definition MinePlugins (hostname : string) : C (option (list string * Z)) :=
  if String.eqb hostname "" then ret None
  else do! plugins := JudgeHostPlugin hostname in ret (Some (plugins, seconds)).
(** Source: modules/hbs/rpc/agent.go, Agent.BuiltinMetrics. *)
Definition BuiltinMetrics_kept (args : AgentHeartbeatRequest) (reply : BuiltinMetricResponse) : C BuiltinMetricResponse :=
  if String.eqb (hb_Hostname args) "" then ret reply
  else
    do! metrics := JudgeHostSpecialMetric (hb_Hostname args) in
    ret (BuiltinMetrics (fun _ => metrics) seconds args reply).
End single_caches.

(** * The maps ([cache/*.go])

    Each map is replaced by what its query gives, and kept when the query
    fails. [cache.Init] only renews the expressions and the services: the
    lines of the other maps are comments. *)

Record HbsMaps := mkMaps {
  HostMap : gmap string Z;
  MonitoredHosts : gmap Z Host;
  HostGroupsMap : gmap Z (list Z);
  GroupTemplates : gmap Z (list Z);
  HostTemplateIds : gmap Z (list Z);
  GroupPlugins : gmap Z (list string);
  TemplateCache : gmap Z Template;
  Strategies : gmap Z Strategy;
  UnionStrategies : gmap Z (list Strategy);
  ExpressionCache : list Expression;
  Services : gmap string string }.
Definition no_maps : HbsMaps := mkMaps ∅ ∅ ∅ ∅ ∅ ∅ ∅ ∅ ∅ [] ∅.

Section maps.
Context (c : HbsMaps).
(** Source: modules/hbs/cache/hosts.go, SafeHostMap.Init. *)
Definition HostMap_Init (m : option (gmap string Z)) : HbsMaps :=
  match m with None => c | Some m =>
    mkMaps m (MonitoredHosts c) (HostGroupsMap c) (GroupTemplates c) (HostTemplateIds c) (GroupPlugins c) (TemplateCache c) (Strategies c) (UnionStrategies c)
      (ExpressionCache c) (Services c) end.
(** Source: modules/hbs/cache/hosts.go, SafeMonitoredHosts.Init. *)
Definition MonitoredHosts_Init (m : option (gmap Z Host)) : HbsMaps :=
  match m with None => c | Some m =>
    mkMaps (HostMap c) m (HostGroupsMap c) (GroupTemplates c) (HostTemplateIds c) (GroupPlugins c) (TemplateCache c) (Strategies c) (UnionStrategies c)
      (ExpressionCache c) (Services c) end.
(** Source: modules/hbs/cache/groups.go, SafeHostGroupsMap.Init. *)
Definition HostGroupsMap_Init (m : option (gmap Z (list Z))) : HbsMaps :=
  match m with None => c | Some m =>
    mkMaps (HostMap c) (MonitoredHosts c) m (GroupTemplates c) (HostTemplateIds c) (GroupPlugins c) (TemplateCache c) (Strategies c) (UnionStrategies c)
      (ExpressionCache c) (Services c) end.
(** Source: modules/hbs/cache/templates.go, SafeGroupTemplates.Init. *)
Definition GroupTemplates_Init (m : option (gmap Z (list Z))) : HbsMaps :=
  match m with None => c | Some m =>
    mkMaps (HostMap c) (MonitoredHosts c) (HostGroupsMap c) m (HostTemplateIds c) (GroupPlugins c) (TemplateCache c) (Strategies c) (UnionStrategies c)
      (ExpressionCache c) (Services c) end.
(** Source: modules/hbs/cache/templates.go, SafeHostTemplateIds.Init. *)
Definition HostTemplateIds_Init (m : option (gmap Z (list Z))) : HbsMaps :=
  match m with None => c | Some m =>
    mkMaps (HostMap c) (MonitoredHosts c) (HostGroupsMap c) (GroupTemplates c) m (GroupPlugins c) (TemplateCache c) (Strategies c) (UnionStrategies c)
      (ExpressionCache c) (Services c) end.
(** Source: modules/hbs/cache/plugins.go, SafeGroupPlugins.Init. *)
Definition GroupPlugins_Init (m : option (gmap Z (list string))) : HbsMaps :=
  match m with None => c | Some m =>
    mkMaps (HostMap c) (MonitoredHosts c) (HostGroupsMap c) (GroupTemplates c) (HostTemplateIds c) m (TemplateCache c) (Strategies c) (UnionStrategies c)
      (ExpressionCache c) (Services c) end.
(** Source: modules/hbs/cache/templates.go, SafeTemplateCache.Init. *)
Definition TemplateCache_Init (m : option (gmap Z Template)) : HbsMaps :=
  match m with None => c | Some m =>
    mkMaps (HostMap c) (MonitoredHosts c) (HostGroupsMap c) (GroupTemplates c) (HostTemplateIds c) (GroupPlugins c) m (Strategies c) (UnionStrategies c)
      (ExpressionCache c) (Services c) end.
(** Source: modules/hbs/cache/strategies.go, SafeStrategies.Init. *)
Definition Strategies_Init (m : option (gmap Z Strategy * gmap Z (list Strategy))) : HbsMaps :=
  match m with None => c | Some (m, unionM) =>
    mkMaps (HostMap c) (MonitoredHosts c) (HostGroupsMap c) (GroupTemplates c) (HostTemplateIds c) (GroupPlugins c) (TemplateCache c) m unionM
      (ExpressionCache c) (Services c) end.
(** Source: modules/hbs/cache/expressions.go, SafeExpressionCache.Init. *)
Definition ExpressionCache_Init (es : option (list Expression)) : HbsMaps :=
  match es with None => c | Some es =>
    mkMaps (HostMap c) (MonitoredHosts c) (HostGroupsMap c) (GroupTemplates c) (HostTemplateIds c) (GroupPlugins c) (TemplateCache c) (Strategies c)
      (UnionStrategies c) es (Services c) end.
(** Source: modules/hbs/cache/services.go, SafeServices.Init. *)
Definition Services_Init (m : option (gmap string string)) : HbsMaps :=
  match m with None => c | Some m =>
    mkMaps (HostMap c) (MonitoredHosts c) (HostGroupsMap c) (GroupTemplates c) (HostTemplateIds c) (GroupPlugins c) (TemplateCache c) (Strategies c)
      (UnionStrategies c) (ExpressionCache c) m end.

(** The groups of a host, when it is known and in one. *)
Definition group_ids (hostname : string) : option (list Z) := hid ← HostMap c !! hostname; HostGroupsMap c !! hid.

(** Source: modules/hbs/cache/plugins.go, GetPlugins. *)
Definition GetPlugins (hostname : string) : list string :=
  match group_ids hostname with
  | None => []
  | Some gids =>
      let pluginDirs : gset string := list_to_set (concat (map (fun gid => default [] (GroupPlugins c !! gid)) gids)) in
      sort_strings (elements pluginDirs)
  end.

(** Source: modules/hbs/cache/strategies.go, GetBuiltinMetrics. The error of the query is [None]; [order] is the walk of the set of templates. *)
Definition GetBuiltinMetrics (p : Portal) (order : gset Z -> list Z) (hostname : string) : option (list BuiltinMetric) :=
  match group_ids hostname with
  | None => Some []
  | Some gids =>
      let tidSet : gset Z := list_to_set (concat (map (fun gid => default [] (GroupTemplates c !! gid)) gids)) in
      let tidSlice := order tidSet in
      if (length tidSlice =? 0)%nat then Some []
      else
        let tidSet := tidSet ∪ list_to_set (concat (map (ParentIds (TemplateCache c)) tidSlice)) in
        QueryBuiltinMetrics p (order tidSet)
  end.

(** The maps [GetStrategies] reads. *)
Definition rules : HbsRules := mkRules (HostTemplateIds c) (MonitoredHosts c) (TemplateCache c) (Some <$> Strategies c).
(** Source: modules/hbs/rpc/hbs.go, Hbs.GetUnionStrategies. *)
Definition GetUnionStrategies : gmap Z (list Strategy) := UnionStrategies c.
(** Source: modules/hbs/rpc/hbs.go, Hbs.GetExpressions. *)
Definition h_GetExpressions : list Expression := ExpressionCache c.
End maps.

(** Source: modules/hbs/cache/cache.go, Init. What the two goroutines do every minute, in any order. *)
Inductive cache_step : HbsMaps -> HbsMaps -> Prop :=
  | renew_expressions c es : cache_step c (ExpressionCache_Init c es)
  | renew_services c m : cache_step c (Services_Init c m).

(** * What hbs writes ([db/agent.go])

    The texts reach the database the web service writes to. *)

Section agents.
Context (env : ApiEnv).

(** The host of a report. *)
Definition reported (r : AgentReportRequest) : PHost := mkPHost 0 (ar_Hostname r) (ar_IP r) (ar_AgentVersion r) (ar_PluginVersion r) 0 0.
(** What a report changes of a host that is known. *)
Definition set_reported (r : AgentReportRequest) (h : PHost) : PHost :=
  mkPHost (ho_ID h) (ho_Hostname h) (ar_IP r) (ar_AgentVersion r) (ar_PluginVersion r) (ho_MaintainBegin h) (ho_MaintainEnd h).
Definition no_phost : PHost := mkPHost 0 "" "" "" "" 0 0.

(** Source: modules/hbs/db/agent.go, UpdateAgent. With [Hosts] in the configuration only hosts that are known are written. [on duplicate key] changes the row that is in the way. *)
Definition UpdateAgent (Hosts : string) (r : AgentReportRequest) : Ap unit :=
  if String.eqb Hosts "" then
    do! res := create env DB THost (reported r) in
    match res with
    | (_, Some Duplicate) =>
        modify (put DB (fun d => set_rows THost (map (fun h => if sql_eq env (ho_Hostname h) (ar_Hostname r) then set_reported r h else h) (d THost)) d))
    | _ => ret tt
    end
  else
    do! _ := update env DB THost no_phost (fun h => sql_eq env (ho_Hostname h) (ar_Hostname r)) (set_reported r) in ret tt.

(** Source: modules/hbs/db/agent.go, UpdateAgentNew. The first row that is found decides; errors are only logged. *)
Definition UpdateAgentNew (r : AgentReportRequest) : Ap unit :=
  do! found := find_all env DB THost (fun h => sql_eq env (ho_Hostname h) (ar_Hostname r)) in
  let hostId := match fst found with h :: _ => ho_ID h | [] => (-1)%Z end in
  if (hostId <=? 0)%Z then do! _ := create env DB THost (reported r) in ret tt
  else do! _ := update env DB THost no_phost (has_id THost hostId) (set_reported r) in ret tt.
End agents.
