(* ===== verification/HbsSourcesThms.v ===== *)
(** From the web service to the judge: the strategies hbs gives for a host
    are those of the groups the host is in ([one_end_spec]), a group whose hosts
    were set through the web service gives its strategies to these hosts and to
    no others ([bound_hosts_judged]), what is kept in memory is no older than the
    time to live ([answers_fresh]); a strategy counts at the times of the day it
    says ([windows_followed]); and hbs's own writes ([reported_host_known]). *)
From S2P Require Import Prelude GoFloat GoStr GoNum Utils.
From S2P Require Export HbsSources ApiProps.
From Stdlib Require Import Ascii OrdersEx.

Local Open Scope string_scope.

(** * Which strategies a host gets *)

Section who.
Context (p : Portal) (order_ok : forall R l, Permutation (po_order p R l) l).

(** A host is in a group. *)
Definition in_group (hostname : string) (g : Z) : Prop :=
  exists h m, h ∈ po_db p THost /\ host_is p hostname h = true /\ m ∈ po_db p TGrpHost /\ gh_HostID m = ho_ID h /\ gh_GrpID m = g.
(** A strategy of a template that is bound to a group, or of the parent of one; what it becomes when it is read. *)
Definition of_group (g : Z) (st : Strategy) : Prop :=
  exists G b t s, G ∈ po_db p TGrp /\ hg_ID G = g /\ b ∈ po_db p TGrpTpl /\ gt_GrpID b = g /\ t ∈ po_db p TTpl /\ tp_ID t = gt_TplID b /\
    s ∈ po_db p TStrategy /\ (sr_TplId s = tp_ID t \/ sr_TplId s = tp_ParentID t) /\ scan_strategy p (s, t) = Some st.

Lemma elem_of_filter_List {A} (q : A -> bool) (x : A) l : x ∈ List.filter q l <-> x ∈ l /\ q x = true.
Proof using Type. by rewrite !list_elem_of_In, filter_In. Qed.

Lemma host_groups_spec hostname G : G ∈ host_groups p hostname <-> G ∈ po_db p TGrp /\ in_group hostname (hg_ID G).
Proof using Type.
  unfold host_groups, in_group. rewrite list_elem_of_bind. split.
  - intros (h & HG & [Hh Hn]%elem_of_filter_List). apply list_elem_of_bind in HG as (m & HG & [Hm Hi]%elem_of_filter_List).
    apply elem_of_filter_List in HG as [HG Hg]. zbool. split; [done|]. by exists h, m.
  - intros (HG & h & m & Hh & Hn & Hm & Hi & Hg). exists h. rewrite list_elem_of_bind. split; [|by apply elem_of_filter_List].
    exists m. rewrite !elem_of_filter_List. rewrite !Z.eqb_eq. done.
Qed.
Lemma host_templates_spec hostname t : t ∈ host_templates p hostname <->
  exists G b, G ∈ po_db p TGrp /\ in_group hostname (hg_ID G) /\ b ∈ po_db p TGrpTpl /\ gt_GrpID b = hg_ID G /\ t ∈ po_db p TTpl /\ tp_ID t = gt_TplID b.
Proof using Type.
  unfold host_templates. rewrite list_elem_of_bind. split.
  - intros (G & Ht & [HG Hin]%host_groups_spec). apply list_elem_of_bind in Ht as (b & Ht & [Hb Hg]%elem_of_filter_List).
    apply elem_of_filter_List in Ht as [Ht Hi]. zbool. by exists G, b.
  - intros (G & b & HG & Hin & Hb & Hg & Ht & Hi). exists G. rewrite list_elem_of_bind. split; [|by apply host_groups_spec].
    exists b. rewrite !elem_of_filter_List. rewrite !Z.eqb_eq. done.
Qed.
Lemma strategy_rows_spec hostname key s t : (s, t) ∈ strategy_rows p hostname key <-> t ∈ host_templates p hostname /\ s ∈ po_db p TStrategy /\ sr_TplId s = key t.
Proof using Type.
  unfold strategy_rows. rewrite list_elem_of_bind. split.
  - intros (t' & Hs & Ht). apply list_elem_of_In, in_map_iff in Hs as (s' & [= <- <-] & Hs). apply list_elem_of_In, elem_of_filter_List in Hs as [Hs Hk].
    zbool. done.
  - intros (Ht & Hs & Hk). exists t. split; [|done]. apply list_elem_of_In, in_map_iff. exists s. split; [done|]. apply list_elem_of_In, elem_of_filter_List.
    by rewrite Z.eqb_eq.
Qed.

(** A host gets the strategies of its groups: those of the templates bound to them and of the parents of these. *)
Lemma one_end_spec hostname st : po_up p = true -> st ∈ QueryStrategiesForOneEnd p hostname <-> exists g, in_group hostname g /\ of_group g st.
Proof using order_ok.
  intros Hup. unfold QueryStrategiesForOneEnd. rewrite Hup, list_elem_of_omap. split.
  - intros ([s t] & Hin & Hst). rewrite order_ok, elem_of_app, !strategy_rows_spec in Hin.
    assert (t ∈ host_templates p hostname /\ s ∈ po_db p TStrategy /\ (sr_TplId s = tp_ID t \/ sr_TplId s = tp_ParentID t)) as (Ht & Hs & Hk) by tauto.
    apply host_templates_spec in Ht as (G & b & HG & Hin' & Hb & Hg & Ht & Hi). exists (hg_ID G). split; [done|]. by exists G, b, t, s.
  - intros (g & Hin & G & b & t & s & HG & <- & Hb & Hg & Ht & Hi & Hs & Hk & Hst). exists (s, t). split; [|done].
    rewrite order_ok, elem_of_app, !strategy_rows_spec. assert (t ∈ host_templates p hostname) by (apply host_templates_spec; by exists G, b). tauto.
Qed.
End who.

(** * A group's hosts, from the web service to the strategies *)

(** hbs reads the tables a state of the web service has. *)
Definition reads (p : Portal) (env : ApiEnv) (s : Api) : Prop :=
  po_db p = api_db s /\ po_collate p = e_collate env /\ po_up p = true /\ forall R l, Permutation (po_order p R l) l.
(** A name is, under the collation, one of a list. *)
Definition listed (env : ApiEnv) (hosts : list string) (y : string) : Prop := exists z, z ∈ hosts /\ sql_eq env z y = true.

Lemma sql_eq_trans env a b c : sql_eq env a b = true -> sql_eq env a c = true -> sql_eq env b c = true.
Proof. unfold sql_eq. rewrite !String.eqb_eq. congruence. Qed.

Lemma bound_in_group env p s' g hosts d y : reads p env s' -> keys_ok env (api_next s') (api_db s') -> bound_exactly env g hosts d (api_db s') ->
  in_group p y g <-> listed env hosts y.
Proof.
  intros (Hdb & Hc & _) Hk (ids & Hids & Hm & _). unfold in_group, listed, host_is. rewrite Hdb, Hc. split.
  - intros (h & m & Hh & Hn & Hin & Hi & Hg). rewrite Hm in Hin. apply elem_of_app in Hin as [[_ Hin]%elem_of_filter_List|Hin]; [zbool; done|].
    apply list_elem_of_In, in_map_iff in Hin as (i & <- & Hin%list_elem_of_In). cbn in Hi. apply list_elem_of_lookup in Hin as [n Hin].
    destruct (Forall2_lookup_r _ _ _ _ _ Hids Hin) as (z & Hz & r & Hr & Hri & Hrn). exists z. split; [by eapply list_elem_of_lookup_2|].
    destruct (Hk THost) as [[Hnd _]%indexed_spec _]. rewrite (omap_all ho_ID) in Hnd.
    assert (r = h) as -> by (apply (NoDup_map_same ho_ID _ _ _ Hnd Hr Hh); congruence). by eapply sql_eq_trans.
  - intros (z & Hz & Hzy). apply list_elem_of_lookup in Hz as [n Hz]. destruct (Forall2_lookup_l _ _ _ _ _ Hids Hz) as (i & Hi & r & Hr & Hri & Hrn).
    exists r, (mkGrpHost g i). split; [done|]. split; [unfold sql_eq in *; zbool; apply String.eqb_eq; congruence|].
    split; [|done]. rewrite Hm. apply elem_of_app. right. apply list_elem_of_In, in_map, list_elem_of_In. by eapply list_elem_of_lookup_2.
Qed.

(** Every membership is of a host that is there. *)
Definition memberships_of_hosts (d : Db) : Prop := forall m, m ∈ d TGrpHost -> exists h, h ∈ d THost /\ ho_ID h = gh_HostID m.

(** The other groups keep their hosts, and all groups their strategies. *)
Lemma bound_elsewhere env p p' s s' g hosts y G st : reads p env s -> reads p' env s' -> po_union_id p' = po_union_id p ->
  memberships_of_hosts (api_db s) -> keys_ok env (api_next s') (api_db s') -> bound_exactly env g hosts (api_db s) (api_db s') -> G <> g ->
  (in_group p' y G <-> in_group p y G) /\ (of_group p' G st <-> of_group p G st).
Proof.
  intros (Hdb & Hc & _) (Hdb' & Hc' & _) Hu Hm Hk (ids & _ & Hgh & (more & Hho) & Hsame) HG. split.
  - unfold in_group, host_is. rewrite Hdb, Hdb', Hc, Hc'. split; intros (h & m & Hh & Hn & Hin & Hi & Hg); exists h, m.
    + rewrite Hgh in Hin. apply elem_of_app in Hin as [[Hin _]%elem_of_filter_List|Hin].
      * destruct (Hm m Hin) as (h0 & Hh0 & E0). destruct (Hk THost) as [[Hnd _]%indexed_spec _]. rewrite (omap_all ho_ID) in Hnd.
        assert (h0 = h) as ->; [|done]. apply (NoDup_map_same ho_ID _ _ _ Hnd); [rewrite Hho; apply elem_of_app; by left|done|congruence].
      * apply list_elem_of_In, in_map_iff in Hin as (i & <- & _). cbn in Hg. congruence.
    + split; [rewrite Hho; apply elem_of_app; by left|]. split; [done|]. split; [|done]. rewrite Hgh. apply elem_of_app. left.
      apply elem_of_filter_List. split; [done|]. apply negb_true_iff, Z.eqb_neq. congruence.
  - unfold of_group, scan_strategy, to_strategy. rewrite Hdb, Hdb', Hu, !Hsame by done. done.
Qed.

(** What hbs answers about a host of which it keeps nothing. *)
Lemma GetOneEnd_run ttl p nano y c : po_up p = true -> cache_Get nano y (HostMaintainCache c) = None -> cache_Get nano y (h_HostSSCache c) = None ->
  exists b c', QueryHostMaintain p (seconds nano) y = Ret b /\
    GetOneEndStrategies ttl p nano y c = Ret (if (b : bool) then [] else QueryStrategiesForOneEnd p y, c').
Proof.
  intros Hup H1 H2. unfold GetOneEndStrategies, JudgeHostMaintain, h_JudgeHostStrategies, kept_or_asked, gets, lift, modify, ret, mthen. rewrite H1.
  unfold QueryHostMaintain. rewrite Hup. set (b := match po_order p _ _ with [] => _ | _ => _ end). exists b. destruct b.
  - eexists. split; reflexivity.
  - cbn [c_set_maintain h_HostSSCache]. rewrite H2. eexists. split; reflexivity.
Qed.

(** C19: Once the hosts of a group were set through the web service, and while no
    statement is refused, hbs answers the next request about a host of which
    it keeps nothing with no strategies when the host is under maintenance;
    else with the strategies of the group, those of the templates bound to it
    and of their parents, when the host was among those listed, and with what
    its other groups gave it before the change, and with nothing else.  The
    memberships there were are of hosts that are in their table; a host hbs
    keeps an answer about waits for this to expire ([answers_fresh]). *)
Theorem bound_hosts_judged (env : ApiEnv) (tok : token) (hosts : list string) (g : Z) (s s' : Api) a (p p' : Portal) (ttl nano : Z) (y : string) (c : SingleCaches) :
  (forall n R l, Permutation (e_order env n R l) l) -> (forall n, e_sql env n = None) -> ordered env s -> api_tx s = NoTx -> memberships_of_hosts (api_db s) ->
  serve env tok (RBindHostToHostGroup (Some (mkBindHost (Some hosts) g))) s = Ret (a, s') -> status a = Some 200%Z ->
  reads p env s -> reads p' env s' -> po_union_id p' = po_union_id p ->
  cache_Get nano y (HostMaintainCache c) = None -> cache_Get nano y (h_HostSSCache c) = None ->
  exists maintained l c', QueryHostMaintain p' (seconds nano) y = Ret maintained /\ GetOneEndStrategies ttl p' nano y c = Ret (l, c') /\
    if (maintained : bool) then l = []
    else forall st, st ∈ l <-> (listed env hosts y /\ of_group p g st) \/ exists G, G <> g /\ in_group p y G /\ of_group p G st.
Proof.
  intros Ho Hq Hord Ht Hm H Ha Hp Hp' Hu H1 H2. assert (ordered env s') as [Hk _].
  { eapply (serve_keeps env tok (footprint _) (ordered env)); [apply ordered_kept|apply ordered_tx|intros t Hin; exact Hin|exact Hord|exact H]. }
  destruct (GetOneEnd_run ttl p' nano y c) as (b & c' & Eb & E); [by apply Hp'|done..|]. exists b. eexists _, c'. split; [exact Eb|]. split; [exact E|].
  destruct b; [done|]. intros st.
  apply serve_closed_route in H as [(_ & Hs)|(s1 & [Hd1 Ht1] & H)]; [congruence| |done].
  apply (BindHosts_run env) in H as [[_ [H|[n H]]]|[_ H]]; [done|by rewrite Hq in H| |done|congruence]. rewrite Hd1 in H.
  rewrite one_end_spec by apply Hp'. pose proof (bound_in_group env p' s' g hosts _ y Hp' Hk H) as Hg.
  pose proof (fun G => bound_elsewhere env p p' s s' g hosts y G st Hp Hp' Hu Hm Hk H) as Helse.
  assert (of_group p' g st <-> of_group p g st) as Hgg.
  { destruct Hp as (Hdb & _), Hp' as (Hdb' & _), H as (? & _ & _ & _ & Hsame). unfold of_group, scan_strategy, to_strategy. rewrite Hdb, Hdb', Hu, !Hsame by done. done. }
  split.
  - intros (G & Hin & Hof). destruct (decide (G = g)) as [->|Hne]; [left; split; [by apply Hg|by apply Hgg]|right; exists G].
    destruct (Helse G Hne) as [Hi Hf]. split; [done|]. split; [by apply Hi|by apply Hf].
  - intros [[Hl Hof]|(G & Hne & Hin & Hof)]; [exists g; split; [by apply Hg|by apply Hgg]|exists G]. destruct (Helse G Hne) as [Hi Hf]. split; [by apply Hi|by apply Hf].
Qed.

(** hbs over the tables [d], with every strategy outside of unions. *)
Definition demo_portal (d : Db) : Portal := mkPortal d (fun _ => 0%Z) [] [] (fun s => s) (fun _ l => l) true.
Lemma bound_hosts_judged_witness : exists a s' l c', serve demo_env alice (RBindHostToHostGroup (Some (mkBindHost (Some ["w2"]) 1))) demo_api = Ret (a, s') /\
  GetOneEndStrategies 60 (demo_portal (api_db s')) (5 * 10 ^ 9) "w1" no_caches = Ret (l, c') /\
  forall st, st ∈ l <->
    (listed demo_env ["w2"] "w1" /\ of_group (demo_portal demo_db) 1 st) \/
    exists G, G <> 1%Z /\ in_group (demo_portal demo_db) "w1" G /\ of_group (demo_portal demo_db) G st.
Proof.
  assert (answered (serve demo_env alice (RBindHostToHostGroup (Some (mkBindHost (Some ["w2"]) 1))) demo_api) = Some 200%Z) as A by by vm_compute.
  assert (match serve demo_env alice (RBindHostToHostGroup (Some (mkBindHost (Some ["w2"]) 1))) demo_api with
          | Ret (_, s') => QueryHostMaintain (demo_portal (api_db s')) 5 "w1" = Ret false | _ => False end) as B by by vm_compute.
  assert (memberships_of_hosts (api_db demo_api)) as W.
  { intros m Hm. change (m ∈ [mkGrpHost 1 1; mkGrpHost 2 2]) in Hm. rewrite !elem_of_cons, elem_of_nil in Hm.
    destruct Hm as [->|[->|[]]]; [exists (mkPHost 1 "w1" "" "" "" 0 0)|exists (mkPHost 2 "w2" "" "" "" 0 0)]; (split; [|done]); [by left|right; by left]. }
  demo_run (serve demo_env alice (RBindHostToHostGroup (Some (mkBindHost (Some ["w2"]) 1))) demo_api) a s' E. exists a, s'.
  destruct (bound_hosts_judged demo_env alice ["w2"] 1 demo_api s' a (demo_portal demo_db) (demo_portal (api_db s')) 60 (5 * 10 ^ 9) "w1" no_caches
    demo_permutes (fun _ => eq_refl) demo_ordered eq_refl W E A) as (b & l & c' & Eb & El & H); [by repeat split|by repeat split|done..|].
  exists l, c'. split; [done|]. split; [exact El|]. change (seconds (5 * 10 ^ 9)) with 5%Z in Eb. rewrite B in Eb. injection Eb as <-. exact H.
Defined.

(** * What is kept is not old *)

Section fresh.
Context (ttl : Z) (at_time : Z -> Portal).

(** What a cache holds under a name was asked for at some time that is not past, and expires [ttl] later. *)
Definition fresh_since {T} (query : Z -> string -> res T) (now : Z) (c : Ttl T) : Prop :=
  forall k v e, c !! k = Some (v, e) -> exists t, (0 < t <= now)%Z /\ query t k = Ret v /\ e = (t + ttl)%Z.
(** An answer is what the database said at a time of the last [ttl]. *)
Definition recent {T} (query : Z -> res T) (now : Z) (v : T) : Prop := exists t, (now - ttl <= t <= now)%Z /\ query t = Ret v.

Lemma fresh_later {T} (query : Z -> string -> res T) now now' c : (now <= now')%Z -> fresh_since query now c -> fresh_since query now' c.
Proof using Type. intros Hn H k v e E. destruct (H k v e E) as (t & Ht & Hq). exists t. split; [lia|done]. Qed.

Lemma cache_fresh {T} (query : Z -> string -> res T) get set now k s v s' :
  (forall c s, get (set c s) = c) -> (0 < ttl)%Z -> (0 < now)%Z -> (now + ttl < 2 ^ 63)%Z -> fresh_since query now (get s) ->
  kept_or_asked ttl get set now k (query now k) s = Ret (v, s') ->
  recent (fun t => query t k) now v /\ fresh_since query now (get s') /\ (s' = s \/ exists c, s' = set c s).
Proof using Type.
  intros Hgs Htt Hn Hb Hf H. unfold kept_or_asked in H. apply mthen_inv in H as (hit & s1 & [= <- <-] & H). destruct (cache_Get now k (get s)) as [w|] eqn:Eh.
  - injection H as <- <-. unfold cache_Get in Eh. destruct (get s !! k) as [[x e]|] eqn:Ek; [|done]. cbn in Eh.
    destruct ((0 <? e)%Z && (e <? now)%Z) eqn:Ee; [done|]. injection Eh as ->. split; [|split; [done|by left]].
    destruct (Hf k w e Ek) as (t & Ht & Hq & ->). exists t. split; [|done]. apply andb_false_iff in Ee as [Ee|Ee]; lia.
  - apply mthen_inv in H as (w & s1 & E & H). apply lift_inv in E as [Eq ->]. apply mthen_inv in H as (u & s2 & [= <- <-] & [= <- <-]).
    split; [exists now; split; [lia|done]|]. split; [|right; by eexists]. rewrite Hgs. intros k' x e. unfold cache_Set, Ttl in *.
    destruct (Z.eqb_spec ttl 0); [lia|]. cbn zeta. destruct (Z.ltb_spec 0 ttl); [|lia]. destruct (decide (k = k')) as [<-|Hk].
    + rewrite lookup_insert_eq. intros [= <- <-]. exists now. rewrite wrap64_id by (unfold in_i64; lia). split; [lia|done].
    + rewrite lookup_insert_ne by done. apply Hf.
Qed.

(** A step of the process: an answer to a judge or to an agent, or time that goes by. *)
Inductive kept_step : Z * SingleCaches -> Z * SingleCaches -> Prop :=
  | step_end now s k v s' : GetOneEndStrategies ttl (at_time now) now k s = Ret (v, s') -> kept_step (now, s) (now, s')
  | step_union now s id v s' : GetOneUnionStrategies ttl (at_time now) now id s = Ret (v, s') -> kept_step (now, s) (now, s')
  | step_plugins now s k v s' : MinePlugins ttl (at_time now) now k s = Ret (v, s') -> kept_step (now, s) (now, s')
  | step_metrics now s args reply v s' : BuiltinMetrics_kept ttl (at_time now) now args reply s = Ret (v, s') -> kept_step (now, s) (now, s')
  | step_wait now now' s : (now <= now')%Z -> kept_step (now, s) (now', s).

Definition maintain_at (t : Z) (k : string) : res bool := QueryHostMaintain (at_time t) (seconds t) k.
Definition strategies_of (t : Z) (k : string) : res (list Strategy) := Ret (QueryStrategiesForOneEnd (at_time t) k).
Definition plugins_of (t : Z) (k : string) : res (list string) := Ret (QueryPluginsForEnd (at_time t) k).
Definition all_fresh (now : Z) (s : SingleCaches) : Prop :=
  fresh_since maintain_at now (HostMaintainCache s) /\ fresh_since strategies_of now (h_HostSSCache s) /\ fresh_since plugins_of now (HostPluginCache s).

Lemma kept_other {T} get set now k (query : res T) s v s' : kept_or_asked ttl get set now k query s = Ret (v, s') -> s' = s \/ exists c, s' = set c s.
Proof using Type.
  unfold kept_or_asked. intros H. apply mthen_inv in H as (hit & s1 & [= <- <-] & H). destruct (cache_Get _ _ _); [injection H as <- <-; by left|].
  apply mthen_inv in H as (w & s1 & E & H). apply lift_inv in E as [_ ->]. apply mthen_inv in H as (u & s2 & [= <- <-] & [= <- <-]). right. by eexists.
Qed.

Lemma GetOneEnd_fresh now k s v s' : (0 < ttl)%Z -> (0 < now)%Z -> (now + ttl < 2 ^ 63)%Z -> all_fresh now s ->
  GetOneEndStrategies ttl (at_time now) now k s = Ret (v, s') ->
  all_fresh now s' /\
  ((recent (fun t => maintain_at t k) now true /\ v = []) \/ (recent (fun t => maintain_at t k) now false /\ recent (fun t => strategies_of t k) now v)).
Proof using Type.
  intros Htt Hn Hb (H1 & H2 & H3) H. unfold GetOneEndStrategies in H. apply mthen_inv in H as (m & s1 & E1 & H).
  apply (cache_fresh maintain_at) in E1 as (R1 & F1 & S1); [|done..].
  assert (fresh_since strategies_of now (h_HostSSCache s1) /\ fresh_since plugins_of now (HostPluginCache s1)) as [F2 F3] by (by destruct S1 as [->|[c ->]]).
  destruct m; [injection H as <- <-; split; [done|by left]|].
  apply (cache_fresh strategies_of) in H as (R2 & F2' & S2); [|done..]. split; [|by right]. split; [|split; [done|]]; by destruct S2 as [->|[c ->]].
Qed.

Lemma kept_step_fresh x y : (0 < ttl)%Z -> kept_step x y -> (0 < fst x)%Z -> (fst y + ttl < 2 ^ 63)%Z -> all_fresh (fst x) (snd x) -> (fst x <= fst y)%Z /\ all_fresh (fst y) (snd y).
Proof using Type.
  intros Htt Hstep Hn Hb Hf. destruct Hstep as [now s k v s' E|now s id v s' E|now s k v s' E|now s args reply v s' E|now now' s Hle]; cbn [fst snd] in *.
  - split; [lia|]. by eapply GetOneEnd_fresh.
  - split; [lia|]. apply kept_other in E as [->|[c ->]]; exact Hf.
  - split; [lia|]. unfold MinePlugins in E. destruct (String.eqb k ""); [by injection E as <- <-|]. apply mthen_inv in E as (w & s1 & E & [= <- <-]).
    destruct Hf as (H1 & H2 & H3). apply (cache_fresh plugins_of) in E as (_ & F & S); [|done..]. split; [|split; [|done]]; by destruct S as [->|[c ->]].
  - split; [lia|]. unfold BuiltinMetrics_kept in E. destruct (String.eqb _ ""); [by injection E as <- <-|]. apply mthen_inv in E as (w & s1 & E & [= <- <-]).
    apply kept_other in E as [->|[c ->]]; exact Hf.
  - split; [done|]. destruct Hf as (H1 & H2 & H3). split; [|split]; by eapply fresh_later.
Qed.
Lemma kept_steps_fresh x y : (0 < ttl)%Z -> rtc kept_step x y -> (0 < fst x)%Z -> (fst y + ttl < 2 ^ 63)%Z -> all_fresh (fst x) (snd x) -> (fst x <= fst y)%Z /\ all_fresh (fst y) (snd y).
Proof using Type.
  intros Htt Hsteps Hn. revert Hsteps. apply (rtc_ind_r (fun y => (fst y + ttl < 2 ^ 63)%Z -> all_fresh (fst x) (snd x) -> (fst x <= fst y)%Z /\ all_fresh (fst y) (snd y)) x);
    [done|]. intros y1 y2 _ Hstep IH Hb Hf.
  assert (fst y1 <= fst y2)%Z as Hle by (destruct Hstep; cbn; lia). destruct IH as [Hx Hf1]; [lia|done|].
  destruct (kept_step_fresh y1 y2 Htt Hstep) as [H1 H2]; [lia|done|done|]. split; [lia|done].
Qed.
End fresh.

(** C20: Whatever hbs was asked for since it started, and whatever became of the
    tables meanwhile, its answer to a judge is one the tables gave within the
    time to live: none for a host that was under maintenance then, and else the
    strategies of the host; an agent's plugins are as recent.  A query the tables
    refuse counts as one that finds nothing, which hbs keeps as it keeps any. *)
Theorem answers_fresh (ttl : Z) (at_time : Z -> Portal) (start now : Z) (s s' : SingleCaches) (k : string) :
  (0 < ttl)%Z -> (0 < start)%Z -> (now + ttl < 2 ^ 63)%Z -> rtc (kept_step ttl at_time) (start, no_caches) (now, s) ->
  (forall v, GetOneEndStrategies ttl (at_time now) now k s = Ret (v, s') ->
     (recent ttl (fun t => maintain_at at_time t k) now true /\ v = []) \/
     (recent ttl (fun t => maintain_at at_time t k) now false /\ recent ttl (fun t => strategies_of at_time t k) now v)) /\
  (forall l t, MinePlugins ttl (at_time now) now k s = Ret (Some (l, t), s') -> recent ttl (fun t => plugins_of at_time t k) now l).
Proof.
  intros Htt Hs Hb Hrun. destruct (kept_steps_fresh ttl at_time _ _ Htt Hrun Hs Hb) as [Hle Hf]; [by split_and!|]. cbn in Hle, Hf. split.
  - intros v H. eapply GetOneEnd_fresh in H as [_ H]; [exact H|done|lia|done|done].
  - intros l t H. unfold MinePlugins in H. destruct (String.eqb k ""); [discriminate H|]. apply mthen_inv in H as (w & s1 & E & [= <- _ _]).
    destruct Hf as (_ & _ & H3). by apply (cache_fresh ttl (plugins_of at_time)) in E as (R & _); [|done|done|lia|..].
Qed.

(** hbs was asked for the strategies of a host; half a minute later, with other tables, it still gives those of then. *)
Definition demo_time (t : Z) : Portal := demo_portal (if (t =? 10 ^ 18)%Z then api_db demo_api else set_rows TStrategy [] (api_db demo_api)).
Lemma answers_fresh_witness : exists v s s', GetOneEndStrategies (60 * 10 ^ 9) (demo_time (10 ^ 18 + 30 * 10 ^ 9)) (10 ^ 18 + 30 * 10 ^ 9) "w1" s = Ret (v, s') /\
  v <> [] /\ QueryStrategiesForOneEnd (demo_time (10 ^ 18 + 30 * 10 ^ 9)) "w1" = [] /\
  recent (60 * 10 ^ 9) (fun t => strategies_of demo_time t "w1") (10 ^ 18 + 30 * 10 ^ 9) v.
Proof.
  assert (match GetOneEndStrategies (60 * 10 ^ 9) (demo_time (10 ^ 18)) (10 ^ 18) "w1" no_caches with
          | Ret (v, s) => v <> [] /\ cache_Get (10 ^ 18 + 30 * 10 ^ 9) "w1" (HostMaintainCache s) = Some false /\
                          cache_Get (10 ^ 18 + 30 * 10 ^ 9) "w1" (h_HostSSCache s) = Some v
          | _ => False end) as H by (vm_compute; done).
  destruct (GetOneEndStrategies (60 * 10 ^ 9) (demo_time (10 ^ 18)) (10 ^ 18) "w1" no_caches) as [[v s]|] eqn:H1; [|contradiction]. destruct H as (Hv & Hm & Hs).
  assert (GetOneEndStrategies (60 * 10 ^ 9) (demo_time (10 ^ 18 + 30 * 10 ^ 9)) (10 ^ 18 + 30 * 10 ^ 9) "w1" s = Ret (v, s)) as H2.
  { unfold GetOneEndStrategies, JudgeHostMaintain, h_JudgeHostStrategies, kept_or_asked, mthen, gets. rewrite Hm. cbv beta iota delta [ret]. by rewrite Hs. }
  exists v, s, s. split; [exact H2|]. split; [exact Hv|]. split; [by vm_compute|].
  assert (rtc (kept_step (60 * 10 ^ 9) demo_time) (10 ^ 18, no_caches)%Z (10 ^ 18 + 30 * 10 ^ 9, s)%Z) as Hrun.
  { apply (rtc_l _ _ (10 ^ 18, s)%Z); [exact (step_end _ demo_time _ _ _ _ _ H1)|]. apply rtc_once, step_wait. lia. }
  destruct (answers_fresh (60 * 10 ^ 9) demo_time (10 ^ 18) (10 ^ 18 + 30 * 10 ^ 9) s s "w1") as [H _]; [lia|lia|lia|exact Hrun|].
  destruct (H v H2) as [[_ ->]|[_ H3]]; [contradiction|exact H3].
Defined.

(** * The times of the day a strategy counts at *)

(** A minute of the day, as a text; the start and the end of the day may be left blank. *)
Definition digit (d : Z) : ascii := ascii_of_N (Z.to_N (48 + d)).
Definition clock (m : Z) : string :=
  String (digit (m / 60 / 10)) (String (digit (m / 60 mod 10)) (":" ++s String (digit (m mod 60 / 10)) (String (digit (m mod 60 mod 10)) ""))).
Definition blank_or_clock (m : option Z) : string := match m with Some m => clock m | None => "" end.
Definition in_day (m : Z) : Prop := (0 <= m < 1440)%Z.

Lemma text_lt_as_OT a b : text_lt a b = true <-> String_as_OT.lt a b.
Proof.
  unfold text_lt, String.ltb, String_as_OT.lt. change String_as_OT.compare with String.compare. by destruct (String.compare a b).
Qed.
Lemma text_le_lt a b : text_le a b = negb (text_lt b a).
Proof.
  unfold text_le, text_lt, String.leb, String.ltb. rewrite String.compare_antisym. by destruct (String.compare b a).
Qed.

Lemma clock_steps : forallb (fun m => text_lt (clock m) (clock (m + 1))) (seqZ 0 1439) = true.
Proof. by vm_compute. Qed.
Lemma clock_increases a b : (0 <= a < b)%Z -> (b < 1440)%Z -> text_lt (clock a) (clock b) = true.
Proof.
  intros Ha. replace b with (a + 1 + Z.of_nat (Z.to_nat (b - a - 1)))%Z by lia. generalize (Z.to_nat (b - a - 1)) as n. induction n as [|n IH]; intros Hb.
  - rewrite Z.add_0_r. pose proof clock_steps as H. rewrite forallb_forall in H. apply H, list_elem_of_In, elem_of_seqZ. lia.
  - apply text_lt_as_OT. transitivity (clock (a + 1 + Z.of_nat n)); [apply text_lt_as_OT, IH; lia|]. apply text_lt_as_OT.
    pose proof clock_steps as H. rewrite forallb_forall in H. replace (a + 1 + Z.of_nat (S n))%Z with (a + 1 + Z.of_nat n + 1)%Z by lia.
    apply H, list_elem_of_In, elem_of_seqZ. lia.
Qed.
Lemma text_lt_irrefl a : text_lt a a = false.
Proof. apply not_true_iff_false. rewrite text_lt_as_OT. apply StrictOrder_Irreflexive. Qed.
Lemma text_lt_clock a b : in_day a -> in_day b -> text_lt (clock a) (clock b) = (a <? b)%Z.
Proof.
  intros Ha Hb. unfold in_day in *. destruct (Z.ltb_spec a b); [apply clock_increases; lia|]. destruct (decide (a = b)) as [->|]; [apply text_lt_irrefl|].
  apply not_true_iff_false. rewrite text_lt_as_OT. intros H1. assert (text_lt (clock b) (clock a) = true) as H2%text_lt_as_OT by (apply clock_increases; lia).
  exact (StrictOrder_Irreflexive _ (transitivity H1 H2)).
Qed.

(** A minute is within the times of a strategy: from the start to before the
    end, where a start that is blank is that of the day and an end that is blank
    that of the day; a window over midnight holds the minute of its end. *)
Definition counts (start stop : option Z) (now : Z) : Prop :=
  match start, stop with
  | None, None => True
  | None, Some e => (now < e)%Z
  | Some b, None => (b <= now)%Z
  | Some b, Some e => (b <= now < e)%Z \/ ((e < b)%Z /\ ((b <= now)%Z \/ (now <= e)%Z))
  end.

(** The texts that the database compares are the times of the day: a strategy
    is read at exactly the minutes that are within its times, and never when it
    starts and ends at the same minute. *)
Theorem windows_followed (s : PStrategy) (start stop : option Z) (now : Z) :
  sr_RunBegin s = blank_or_clock start -> sr_RunEnd s = blank_or_clock stop ->
  from_option in_day True start -> from_option in_day True stop -> in_day now ->
  runs_at (clock now) s = true <-> counts start stop now.
Proof.
  intros Hb He Hsb Hse Hn. unfold runs_at. rewrite Hb, He, !text_le_lt.
  destruct start as [b|], stop as [e|]; unfold blank_or_clock, counts; cbn [from_option] in Hsb, Hse;
    rewrite ?text_lt_clock by done;
    change (text_lt "" (clock ?[m])) with true; change (text_lt (clock ?[m]) "") with false; change (String.eqb (clock ?[m]) "") with false; cbn.
  all: lia.
Qed.

(** From ten in the evening to six in the morning: at midnight, and not at noon. *)
Definition at_night : PStrategy := mkPStrategy 1 "cpu.idle" "" 3 0 "all(#3)" "<" "10" "" "22:00" "06:00" 1.
Lemma windows_followed_witness : runs_at "00:00" at_night = true /\ runs_at "12:00" at_night = false.
Proof.
  split.
  - apply (windows_followed at_night (Some 1320) (Some 360) 0)%Z; done || (right; split; [done|by right]).
  - apply not_true_iff_false. change "12:00" with (clock 720). rewrite (windows_followed at_night (Some 1320) (Some 360) 720)%Z by done. cbn. lia.
Defined.

(** * The hosts that report *)

(** The table of hosts after a report. *)
Definition hosts_after (env : ApiEnv) (r : AgentReportRequest) (n : Z) (l : list PHost) : list PHost :=
  let named h := sql_eq env (ho_Hostname h) (ar_Hostname r) in
  if existsb named l then
    map (fun h => if named h then mkPHost (ho_ID h) (ho_Hostname h) (ar_IP r) (ar_AgentVersion r) (ar_PluginVersion r) (ho_MaintainBegin h) (ho_MaintainEnd h)
                  else h) l
  else (l ++ [mkPHost n (ar_Hostname r) (ar_IP r) (ar_AgentVersion r) (ar_PluginVersion r) 0 0])%list.

Section report.
Context (env : ApiEnv) (r : AgentReportRequest) (s : Api).
Context (sql_ok : forall n, e_sql env n = None) (order_ok : forall n R l, Permutation (e_order env n R l) l).
Context (no_tx : api_tx s = NoTx) (keys : ordered env s).
Local Notation named h := (sql_eq env (ho_Hostname h) (ar_Hostname r)) (only parsing).

Lemma stmt_runs s1 : stmt env DB s1 = Ret (None, a_tick s1).
Proof using sql_ok. unfold stmt. by rewrite sql_ok. Qed.

Lemma one_named h h' : h ∈ api_db s THost -> h' ∈ api_db s THost -> named h = true -> named h' = true -> h = h'.
Proof using keys.
  intros Hh Hh' Hn Hn'. destruct keys as [Hk _]. destruct (Hk THost) as [[_ Hu]%indexed_spec _].
  rewrite (omap_all (fun h => e_collate env (ho_Hostname h))) in Hu. apply (NoDup_map_same _ _ _ _ Hu Hh Hh').
  unfold sql_eq in *. zbool. congruence.
Qed.

(** What a report changes keeps the keys. *)
Lemma renewed_indexed (q : PHost -> bool) (l : list PHost) : indexed env THost (map (fun h => if q h then set_reported r h else h) l) = indexed env THost l.
Proof using Type.
  unfold indexed. rewrite !(omap_all ho_ID), !(omap_all (fun h => e_collate env (ho_Hostname h))), !map_map.
  by rewrite (map_ext (fun h => ho_ID (if q h then _ else _)) ho_ID), (map_ext (fun h => e_collate env (ho_Hostname (if q h then _ else _))) (fun h => e_collate env (ho_Hostname h)))
    by (intros h; by destruct (q h)).
Qed.
Lemma renewed_keys (q : PHost -> bool) n d : keys_ok env n d -> keys_ok env n (set_rows THost (map (fun h => if q h then set_reported r h else h) (d THost)) d).
Proof using Type.
  intros Hk. apply (keys_update env n d THost no_phost q (set_reported r)); [done| |done]. change (updated _ _ _ _ _) with (map (fun h => if q h then set_reported r h else h) (d THost)).
  rewrite renewed_indexed. apply Hk.
Qed.

Lemma clash_is_named h : h ∈ api_db s THost ->
  clashes env THost (mkPHost (api_next s THost) (ar_Hostname r) (ar_IP r) (ar_AgentVersion r) (ar_PluginVersion r) 0 0) h = named h.
Proof using keys.
  intros Hh. destruct keys as [Hk _]. destruct (Hk THost) as [_ Hb]. rewrite Forall_forall in Hb. specialize (Hb h Hh). cbn in Hb.
  unfold clashes, same_pk, sql_eq. cbn. destruct (Z.eqb_spec (api_next s THost) (ho_ID h)); [lia|]. cbn. apply String.eqb_sym.
Qed.

(** A new host is created, a known one is in the way. *)
Lemma report_created : exists v e s', create env DB THost (reported r) s = Ret ((v, e), s') /\ api_tx s' = NoTx /\ ordered env s' /\
  if existsb (A := PHost) (fun h => named h) (api_db s THost) then e = Some Duplicate /\ api_db s' = api_db s
  else e = None /\ api_db s' = set_rows THost (hosts_after env r (api_next s THost) (api_db s THost)) (api_db s).
Proof using sql_ok no_tx keys.
  set (v1 := mkPHost (api_next s THost) (ar_Hostname r) (ar_IP r) (ar_AgentVersion r) (ar_PluginVersion r) 0 0).
  assert (existsb (A := PHost) (clashes env THost v1) (api_db s THost) = existsb (A := PHost) (fun h => named h) (api_db s THost)) as Hc.
  { apply eq_true_iff_eq. rewrite !existsb_exists. split; intros (h & Hh%list_elem_of_In & Hn); exists h; (split; [by apply list_elem_of_In|]);
      [by rewrite <- clash_is_named|by rewrite clash_is_named]. }
  assert (exists v e s', create env DB THost (reported r) s = Ret ((v, e), s') /\ api_tx s' = NoTx /\
    if existsb (A := PHost) (fun h => named h) (api_db s THost) then e = Some Duplicate /\ api_db s' = api_db s
    else e = None /\ api_db s' = set_rows THost (api_db s THost ++ [v1])%list (api_db s)) as (v & e & s' & E & Ht & H).
  { unfold create, mthen. rewrite stmt_runs. cbn. unfold all_seen. cbn. rewrite no_tx. cbn. fold v1. rewrite orb_false_r, Hc. clear Hc.
    destruct (existsb _ _); eexists _, _, _; (split; [reflexivity|]); [done|]. unfold put. cbn. by rewrite no_tx. }
  exists v, e, s'. split; [done|]. split; [done|]. split.
  - eapply (kept_create env [THost] _ (ordered_kept env [THost])); [by left|exact keys|exact E].
  - revert H. unfold hosts_after. cbv zeta. clear Hc. by destruct (existsb _ _).
Qed.

(** What is found first is the host of the name, when there is one. *)
Lemma report_finds : exists l s1, find_all env DB THost (fun h => named h) s = Ret ((l, None), s1) /\ api_db s1 = api_db s /\ api_tx s1 = NoTx /\
  api_next s1 = api_next s /\ ordered env s1 /\ forall h, h ∈ l <-> h ∈ api_db s THost /\ named h = true.
Proof using sql_ok order_ok no_tx keys.
  unfold find_all, mthen. rewrite stmt_runs. eexists _, _. split; [done|]. split_and!; [done..|exact keys|].
  intros h. rewrite order_ok. apply (elem_of_filter_List (A := PHost) (fun h => named h)).
Qed.

(** The update by id is one by name. *)
Lemma report_updated h0 : h0 ∈ api_db s THost -> named h0 = true ->
  exists n s', update env DB THost no_phost (has_id THost (ho_ID h0)) (set_reported r) s = Ret ((n, None), s') /\ api_tx s' = NoTx /\ ordered env s' /\
    api_db s' = set_rows THost (map (fun h => if named h then set_reported r h else h) (api_db s THost)) (api_db s).
Proof using sql_ok no_tx keys.
  intros Hh Hn. assert (updated THost no_phost (has_id THost (ho_ID h0)) (set_reported r) (api_db s THost) =
    map (fun h => if named h then set_reported r h else h) (api_db s THost)) as Hu.
  { unfold updated. apply map_ext_in. intros h Hin%list_elem_of_In. unfold whereSQL, has_id. cbn.
    enough ((ho_ID h =? ho_ID h0)%Z = named h) as -> by done. destruct (Z.eqb_spec (ho_ID h) (ho_ID h0)) as [Hi|Hi].
    - destruct keys as [Hk _]. destruct (Hk THost) as [[Hp _]%indexed_spec _]. rewrite (omap_all ho_ID) in Hp. by rewrite (NoDup_map_same _ _ _ _ Hp Hin Hh Hi).
    - destruct (named h) eqn:E; [|done]. destruct Hi. by rewrite (one_named h h0). }
  assert (exists n s', update env DB THost no_phost (has_id THost (ho_ID h0)) (set_reported r) s = Ret ((n, None), s') /\ api_tx s' = NoTx /\
    api_db s' = set_rows THost (map (fun h => if named h then set_reported r h else h) (api_db s THost)) (api_db s)) as (n & s' & E & Ht & Hd).
  { unfold update, mthen. rewrite stmt_runs. cbn -[updated]. unfold all_seen. cbn -[updated]. rewrite no_tx. cbn -[updated]. rewrite Hu.
    rewrite renewed_indexed. destruct keys as [Hk _]. destruct (Hk THost) as [-> _]. cbn.
    eexists _, _. split; [done|]. unfold put. cbn. rewrite no_tx. split; [exact no_tx|]. exact (f_equal (fun l => set_rows THost l (api_db s)) Hu). }
  exists n, s'. split_and!; try done. refine (kept_update env [THost] _ (ordered_kept env [THost]) _ _ _ _ _ _ _ s _ s' keys E); [by left|by intros ? ?].
Qed.
End report.

(** A report of an agent reaches the table of hosts: the host of the name that
    the agent gives has the address and the versions it gives, and keeps its id
    and its maintenance, and a name that is not known yet gets a row; no other
    host and no other table changes, and the keys stay unique. *)
Theorem reported_host_known (env : ApiEnv) (r : AgentReportRequest) (s : Api) (by_insert : bool) :
  (forall n, e_sql env n = None) -> (forall n R l, Permutation (e_order env n R l) l) -> api_tx s = NoTx -> ordered env s ->
  Forall (fun h => (0 < ho_ID h)%Z) (api_db s THost) ->
  exists s', (if by_insert then UpdateAgent env "" r else UpdateAgentNew env r) s = Ret (tt, s') /\
    api_db s' = set_rows THost (hosts_after env r (api_next s THost) (api_db s THost)) (api_db s) /\ api_tx s' = NoTx /\ ordered env s'.
Proof.
  intros Hq Ho Ht Hk Hpos. set (named h := sql_eq env (ho_Hostname h) (ar_Hostname r)). destruct by_insert.
  - destruct (report_created env r s Hq Ht Hk) as (v & e & s' & E & Ht' & Hk' & H). fold named in H.
    unfold UpdateAgent. cbn. unfold mthen. rewrite E. destruct (existsb _ _) eqn:Ex; destruct H as [-> Hd]; [|by exists s'].
    eexists. split; [reflexivity|]. unfold put. rewrite Ht'. cbn. rewrite Hd. unfold hosts_after. fold named. cbv zeta. rewrite Ex.
    split; [done|]. split; [done|]. destruct Hk' as [Hk' _]. rewrite Hd in Hk'. split; [by apply renewed_keys|]. cbn. by rewrite Ht'.
  - destruct (report_finds env r s Hq Ho Ht Hk) as (l & s1 & E & Hd & Ht1 & Hn & Hk1 & Hl). fold named in Hl.
    unfold UpdateAgentNew, mthen. fold named. rewrite E. cbv beta iota. cbn [fst]. destruct l as [|h0 l].
    + change (-1 <=? 0)%Z with true. cbv beta iota. destruct (report_created env r s1 Hq Ht1 Hk1) as (v & e & s' & E' & Ht' & Hk' & H). rewrite E'. exists s'. split; [done|].
      rewrite Hd, Hn in H. destruct (existsb _ _) eqn:Ex; [|destruct H as [_ H]; by split_and!]. apply existsb_exists in Ex as (h & Hh & Hnm).
      exfalso. apply (not_elem_of_nil h), Hl. by rewrite list_elem_of_In.
    + destruct (proj1 (Hl h0) ltac:(by left)) as [Hh Hnm]. rewrite Forall_forall in Hpos. specialize (Hpos h0 Hh).
      destruct (Z.leb_spec (ho_ID h0) 0); [lia|]. rewrite <- Hd in Hh.
      destruct (report_updated env r s1 Hq Ht1 Hk1 h0 Hh Hnm) as (n & s' & E' & Ht' & Hk' & Hd'). rewrite E'. exists s'. split; [done|].
      split; [|done]. rewrite Hd', Hd. unfold hosts_after. fold named. cbv zeta. destruct (existsb _ _) eqn:Ex; [done|].
      rewrite Hd in Hh. apply not_true_iff_false in Ex. destruct Ex. apply existsb_exists. exists h0. by rewrite <- list_elem_of_In.
Qed.

(** [w1] reports a new address, and [w9] reports for the first time. *)
Definition demo_report (hostname : string) : AgentReportRequest := mkReport hostname "10.0.0.9" "5.1.2" "v2" false.
Lemma reported_host_known_witness : exists s1 s2, UpdateAgentNew demo_env (demo_report "w1") demo_api = Ret (tt, s1) /\ UpdateAgent demo_env "" (demo_report "w9") demo_api = Ret (tt, s2) /\
  map ho_Ip (api_db s1 THost) <> map ho_Ip (api_db demo_api THost) /\ map ho_Hostname (api_db s1 THost) = map ho_Hostname (api_db demo_api THost) /\
  map ho_Hostname (api_db s2 THost) = (map ho_Hostname (api_db demo_api THost) ++ ["w9"])%list.
Proof.
  destruct (reported_host_known demo_env (demo_report "w1") demo_api false) as (s1 & H1 & D1 & _); [done|done|done|exact demo_ordered|by vm_compute; repeat constructor|].
  destruct (reported_host_known demo_env (demo_report "w9") demo_api true) as (s2 & H2 & D2 & _); [done|done|done|exact demo_ordered|by vm_compute; repeat constructor|].
  exists s1, s2. split; [exact H1|]. split; [exact H2|]. rewrite D1, D2. by vm_compute.
Defined.
