(* ===== verification/AlarmCases.v ===== *)
(** The archive of alarms: what becomes of an event that is popped from redis
    besides its messages.  A reader of the alarm service takes the events from
    the queues ([modules/alarm/cron/event_reader.go]); each is filed in the tables
    of the database [alarms] by a goroutine of its own
    ([model/event/event_operation.go]), whose statements come between those of
    others ([case_step]); old events are deleted ([cron/event_cleaner.go]).  The
    web service shows the tables and adds the notes of people
    ([modules/api/app/controller/alarm]).

    The tables are those of [scripts/mysql/db_schema/5_alarms-db-schema.sql]: the
    primary key of a case is the id of its events, under the collation; events
    and notes refer to a case that exists; the column [timestamp] of a row takes
    the time of the server when the row is changed and the statement does not
    set it.  A statement may be refused; times are kept as seconds. *)
From S2P Require Import Prelude GoFloat GoStr GoNum Utils Model AlarmText Redis.
From S2P Require Export ApiServe.
From Stdlib Require Import Ascii SpecFloat.
Local Open Scope string_scope.

(** * [%v] of a number *)

(** The decimal point of the positive number [num / den]: the least [p] with [num / den < 10 ^ p]. *)
Fixpoint point_up (fuel : nat) (num den p : Z) : Z :=
  match fuel with O => p | S fuel => if (num <? den)%Z then p else point_up fuel num (den * 10) (p + 1) end.
Fixpoint point_down (fuel : nat) (num den p : Z) : Z :=
  match fuel with O => p | S fuel => if (den <=? num * 10)%Z then p else point_down fuel (num * 10) den (p - 1) end.
Definition point (num den : Z) : Z := if (num <? den)%Z then point_down 400 num den 0 else point_up 400 num den 0.

(** The fewest digits that are read back as the number, at least [k]: the number [n] with [n * 10 ^ (p - k)]. *)
Fixpoint shortest (fuel : nat) (raw : f64) (num den p k : Z) : Z * Z :=
  let e := (k - p)%Z in
  let scaled_num := if (0 <=? e)%Z then (num * 10 ^ e)%Z else num in
  let scaled_den := if (0 <=? e)%Z then den else (den * 10 ^ (- e))%Z in
  let down := (scaled_num / scaled_den)%Z in
  let nearest := round_half_even scaled_num scaled_den in
  let reads n := feq (decimal false n (- e)) raw in
  match fuel with
  | O => (nearest, - e)%Z
  | S fuel =>
      if reads down && reads (down + 1)%Z then (nearest, - e)%Z
      else if reads down then (down, - e)%Z
      else if reads (down + 1)%Z then (down + 1, - e)%Z
      else shortest fuel raw num den p (k + 1)
  end.
(** Without zeros at the end. *)
Fixpoint strip (fuel : nat) (n e : Z) : Z * Z :=
  match fuel with O => (n, e) | S fuel => if (n mod 10 =? 0)%Z then strip fuel (n / 10) (e + 1) else (n, e) end.

(** [fmt.Sprintf] of a [float64] with the verb [%v]: the shortest text that is read back, with an exponent when it is below -4 or 6 and more. *)
Definition format_g (raw : f64) : string :=
  let body (m : positive) (e : Z) :=
    let num := if (0 <=? e)%Z then (Zpos m * 2 ^ e)%Z else Zpos m in
    let den := if (0 <=? e)%Z then 1%Z else (2 ^ (- e))%Z in
    let p := point num den in
    let '(n, e) := shortest 17 (S754_finite false m e) num den p 1 in
    let '(n, e) := strip 20 n e in
    let digs := itoa n in
    let nd := slen digs in
    let dp := (nd + e)%Z in
    let exp := (dp - 1)%Z in
    if (exp <? -4)%Z || (6 <=? exp)%Z then
      String.substring 0 1 digs ++s (if (1 <? nd)%Z then "." ++s String.substring 1 (Z.to_nat nd) digs else "") ++s "e"
        ++s (if (exp <? 0)%Z then "-" else "+") ++s pad 2 (Z.abs exp)
    else if (dp <=? 0)%Z then "0." ++s zeros (Z.to_nat (- dp)) ++s digs
    else if (nd <=? dp)%Z then digs ++s zeros (Z.to_nat (dp - nd))
    else String.substring 0 (Z.to_nat dp) digs ++s "." ++s String.substring (Z.to_nat dp) (Z.to_nat nd) digs in
  match raw with
  | S754_nan => "NaN"
  | S754_infinity s => if s then "-Inf" else "+Inf"
  | S754_zero s => if s then "-0" else "0"
  | S754_finite s m e => (if s then "-" else "") ++s body m e
  end.

Example format_examples :
  map format_g [f64_dec 1 1; f64_of_Z 100; f64_of_Z 123456; f64_of_Z 1000000; f64_of_Z 1234567; SFopp (f64_dec 905 1); fdiv (f64_of_Z 1) (f64_of_Z 3); f64_dec 12 6; S754_zero false]
  = ["0.1"; "100"; "123456"; "1e+06"; "1.234567e+06"; "-90.5"; "0.3333333333333333"; "1.2e-05"; "0"].
Proof. by vm_compute. Qed.

(** * The tables *)

(** What an event files of its case. *)
Record CaseFields := mkFields {
  cf_Func : string; cf_Cond : string; cf_Note : string; cf_MaxStep : Z; cf_CurrentStep : Z; cf_Priority : Z; cf_Status : string;
  cf_TplCreator : string; cf_ExpressionId : Z; cf_StrategyId : Z; cf_TemplateId : Z }.
(** Source: modules/alarm/model/event/event.go, type EventCases. With what nothing writes left out. *)
Record EventCase := mkCase {
  ec_Id : string; ec_Endpoint : string; ec_Metric : string; ec_fields : CaseFields; ec_Timestamp : Z; ec_UpdateAt : Z;
  ec_ProcessNote : option Z; ec_ProcessStatus : string }.
(** Source: modules/alarm/model/event/event.go, type Events. *)
Record EventRow := mkEventRow { er_Id : Z; er_EventCaseId : string; er_Step : Z; er_Cond : string; er_Status : Z; er_Timestamp : Z }.
(** Source: modules/api/app/model/alarm/event_note.go, type EventNote. *)
Record EventNote := mkNote { en_ID : Z; en_EventCaseId : string; en_Note : string; en_CaseId : string; en_Status : string; en_Timestamp : Z; en_UserId : Z }.
#[export] Instance case_fields_eq_dec : EqDecision CaseFields.
Proof. solve_decision. Defined.
#[export] Instance event_case_eq_dec : EqDecision EventCase.
Proof. solve_decision. Defined.

(** The cases stand under their id, as the collation sees it. *)
Record AlarmTables := mkTables { at_cases : gmap string EventCase; at_events : list EventRow; at_notes : list EventNote }.
Definition no_tables : AlarmTables := mkTables ∅ [] [].
(** The tables, the counters of the ids, and the statements so far. *)
Record Alarms := mkAlarms { as_tables : AlarmTables; as_next_event : Z; as_next_note : Z; as_tick : nat }.
Definition no_alarms : Alarms := mkAlarms no_tables 1 1 0.

(** What the model is given: the statements the server refuses, its clock, the
    collation, the order in which rows are met, and the answers to the texts of
    the web service. *)
Record AlarmEnv := mkAlarmEnv {
  ae_sql : nat -> option string;
  ae_now : nat -> Z;
  ae_collate : string -> string;
  ae_order : nat -> list EventRow -> list EventRow;
  ae_cases : nat -> string -> list EventCase;
  ae_events : nat -> string -> list EventRow;
  ae_notes : nat -> string -> list EventNote }.
Notation Am := (M Alarms).

Section tables.
Context (env : AlarmEnv).

Definition tick (s : Alarms) : Alarms := mkAlarms (as_tables s) (as_next_event s) (as_next_note s) (S (as_tick s)).
(** A statement reaches the server, which may refuse it. *)
Definition reached : Am (option string) := fun s => Ret (ae_sql env (as_tick s), tick s).
(** A statement that changes the tables, given the time of the server; [None] when a key is in the way or missing. *)
Definition exec (f : Z -> Alarms -> option Alarms) : Am bool := fun s =>
  match ae_sql env (as_tick s) with
  | Some _ => Ret (false, tick s)
  | None => match f (ae_now env (as_tick s)) s with Some s' => Ret (true, tick s') | None => Ret (false, tick s) end
  end.

Definition case_key (id : string) : string := ae_collate env id.
Definition with_cases (g : gmap string EventCase -> gmap string EventCase) (s : Alarms) : Alarms :=
  let t := as_tables s in mkAlarms (mkTables (g (at_cases t)) (at_events t) (at_notes t)) (as_next_event s) (as_next_note s) (as_tick s).
(** [timestamp ... ON UPDATE CURRENT_TIMESTAMP]: a row that changes takes the time of the server. *)
Definition touch (now : Z) (old new : EventCase) : EventCase :=
  if decide (new = old) then old
  else mkCase (ec_Id new) (ec_Endpoint new) (ec_Metric new) (ec_fields new) now (ec_UpdateAt new) (ec_ProcessNote new) (ec_ProcessStatus new).

(** * Filing an event ([event_operation.go]) *)

(** The condition of a case: the value, the operator and the threshold. *)
Definition cond_of (eve : Event) : res string :=
  let! op := Event_Operator eve in
  let! right_value := Event_RightValue eve in
  Ret (format_g (ev_LeftValue eve) ++s " " ++s op ++s " " ++s format_g right_value).
(** Source: modules/alarm/model/event/event_operation.go, lines 90-115. The fields of a case, from its event. Symbol: InsertEvent. *)
Definition fields_of (eve : Event) : res CaseFields :=
  let tpl_creator := match Event_Tpl eve with Some t => tpl_Creator t | None => "" end in
  let! fn := Event_Func eve in
  let! cond := cond_of eve in
  let! note := Event_Note eve in
  let! maxStep := Event_MaxStep eve in
  let! priority := Event_Priority eve in
  let! tplId := Event_TplId eve in
  Ret (mkFields fn cond note maxStep (ev_CurrentStep eve) priority (ev_Status eve) tpl_creator (Event_ExpressionId eve) (Event_StrategyId eve) tplId).

(** Source: modules/alarm/model/event/event_operation.go, counterGen. *)
Definition counterGen (metric tags : string) : string :=
  if String.eqb tags "" then metric else metric ++s "/" ++s tags.

(** Source: modules/alarm/model/event/event_operation.go, insertEvent. *)
Definition insertEvent (eve : Event) : Am unit :=
  let status := if String.eqb (ev_Status eve) "OK" then 1%Z else 0%Z in
  do! cond := lift (cond_of eve) in
  do! _ := exec (fun _ s =>
    let t := as_tables s in
    let id := as_next_event s in
    match at_cases t !! case_key (ev_Id eve) with
    | None => None
    | Some _ =>
        Some (mkAlarms (mkTables (at_cases t) (at_events t ++ [mkEventRow id (ev_Id eve) (ev_CurrentStep eve) cond status (ev_EventTime eve)])%list (at_notes t))
                (id + 1) (as_next_note s) (as_tick s))
    end) in
  skip.

(** Source: modules/alarm/model/event/event_operation.go, lines 62-64. The case of an event, as the first statement finds it; an error is not looked at. Symbol: InsertEvent. *)
Definition find_case (eve : Event) : Am (option EventCase) :=
  do! e := reached in
  match e with
  | Some _ => ret None
  | None => gets (fun s => at_cases (as_tables s) !! case_key (ev_Id eve))
  end.
(** Source: modules/alarm/model/event/event_operation.go, lines 69-115. A case that was not found is made. Symbol: InsertEvent. *)
Definition make_case (eve : Event) : Am unit :=
  do! metric := lift (Event_Metric eve) in
  do! fields := lift (fields_of eve) in
  let c := mkCase (ev_Id eve) (ev_Endpoint eve) (counterGen metric (SortedTags (ev_PushedTags eve))) fields
             (ev_EventTime eve) (ev_EventTime eve) None "unresolved" in
  do! _ := exec (fun _ s =>
    match at_cases (as_tables s) !! case_key (ev_Id eve) with
    | Some _ => None
    | None => Some (with_cases <[case_key (ev_Id eve) := c]> s)
    end) in
  skip.
(** Source: modules/alarm/model/event/event_operation.go, lines 118-140. A case with the fields of an event; one that was closed is opened again, and a first step sets the start. Symbol: InsertEvent. *)
Definition renewed (now : Z) (eve : Event) (fields : CaseFields) (reopen : bool) (old : EventCase) : EventCase :=
  let note := if reopen then Some 0%Z else ec_ProcessNote old in
  let status := if reopen then "unresolved" else ec_ProcessStatus old in
  if (ev_CurrentStep eve =? 1)%Z then mkCase (ec_Id old) (ec_Endpoint old) (ec_Metric old) fields (ev_EventTime eve) (ev_EventTime eve) note status
  else touch now old (mkCase (ec_Id old) (ec_Endpoint old) (ec_Metric old) fields (ec_Timestamp old) (ev_EventTime eve) note status).
(** Source: modules/alarm/model/event/event_operation.go, lines 117-178. A case that was found is renewed. Symbol: InsertEvent. *)
Definition renew_case (eve : Event) (found : EventCase) : Am unit :=
  do! fields := lift (fields_of eve) in
  let reopen := String.eqb (ec_ProcessStatus found) "resolved" || String.eqb (ec_ProcessStatus found) "ignored" in
  do! _ := exec (fun now s => Some (with_cases (alter (renewed now eve fields reopen) (case_key (ev_Id eve))) s)) in
  skip.
(** The second statement. *)
Definition file_case (eve : Event) (found : option EventCase) : Am unit :=
  match found with None => make_case eve | Some c => renew_case eve c end.
(** Source: modules/alarm/model/event/event_operation.go, InsertEvent. *)
Definition InsertEvent (eve : Event) : Am unit :=
  do! found := find_case eve in
  do! _ := file_case eve found in
  insertEvent eve.

(** Source: modules/alarm/model/event/event_operation.go, DeleteEventOlder. [limit] rows at most, which ones is up to the server. *)
Definition DeleteEventOlder (before limit : Z) : Am unit :=
  do! n := gets as_tick in
  do! _ := exec (fun _ s =>
    if (limit <? 0)%Z then None
    else
      let t := as_tables s in
      let victims := map er_Id (take (Z.to_nat limit) (ae_order env n (List.filter (fun r => (er_Timestamp r <? before)%Z) (at_events t)))) in
      Some (mkAlarms (mkTables (at_cases t) (List.filter (fun r => negb (bool_decide (er_Id r ∈ victims))) (at_events t)) (at_notes t))
              (as_next_event s) (as_next_note s) (as_tick s))) in
  skip.
(** Source: modules/alarm/cron/event_cleaner.go, CleanExpiredEvent. One round; [now] in nanoseconds, the settings are the days and the limit. *)
Definition CleanExpiredEvent (Housekeeper : option (Z * Z)) (now : Z) : Am unit :=
  do! settings := lift (deref Housekeeper) in
  let '(retention_days, delete_batch) := settings in
  let before := (now + (wrap64 (- retention_days) *! 24) *! (3600 * 10 ^ 9))%Z in
  DeleteEventOlder (before / 10 ^ 9) delete_batch.
End tables.

(** * Reading the events ([cron/event_reader.go]) *)

Section reader.
Context {R : Type -> Type} `{RedisList R}.

(** The queues, by their names. *)
Definition queues_of : Type := string -> R Event.
Definition set_queue (q : string) (l : R Event) (r : queues_of) : queues_of := fun q' => if String.eqb q' q then l else r q'.

(** Source: modules/alarm/cron/event_reader.go, lines 92-99. One look at the queues, in their order. An empty text is taken for none. Symbol: popEvent. *)
Fixpoint poll (queues : list string) (r : queues_of) : option (reply Event) * queues_of :=
  match queues with
  | [] => (None, r)
  | q :: queues =>
      let '(m, l) := RPOP (r q) in
      let r := set_queue q l r in
      match m with
      | Some (Text "") | None => poll queues r
      | Some m => (Some m, r)
      end
  end.
(** Source: modules/alarm/cron/event_reader.go, lines 87-104. Until there is something; between two looks others push and pop, as [others] says. [None]: nothing has come yet. Symbol: popEvent. *)
Fixpoint poll_until (queues : list string) (others : list (queues_of -> queues_of)) (r : queues_of) : option (reply Event) * queues_of :=
  match poll queues r with
  | (Some m, r) => (Some m, r)
  | (None, r) => match others with [] => (None, r) | f :: others => poll_until queues others (f r) end
  end.

(** What a reader starts for an event: its goroutines. *)
Inductive task := Inserts (e : Event) | Consumes (e : Event) (isHigh : bool).
(** Source: modules/alarm/cron/event_reader.go, popEvent. The event, unless its text is none, and the goroutine that files it. *)
Definition popEvent (queues : list string) (others : list (queues_of -> queues_of)) (r : queues_of) : option (option Event * list task) * queues_of :=
  match poll_until queues others r with
  | (None, r) => (None, r)
  | (Some (Text _), r) => (Some (None, []), r)
  | (Some (Obj event), r) => (Some (Some event, [Inserts event]), r)
  end.
(** Source: modules/alarm/cron/event_reader.go, lines 37-53. A round of a reader. Symbol: ReadHighEvent. *)
Definition read_round (isHigh : bool) (queues : list string) (others : list (queues_of -> queues_of)) (r : queues_of) : list task * queues_of :=
  match popEvent queues others r with
  | (Some (Some event, tasks), r) => ((tasks ++ [Consumes event isHigh])%list, r)
  | (Some (None, tasks), r) => (tasks, r)
  | (None, r) => ([], r)
  end.
(** Source: modules/alarm/cron/event_reader.go, ReadHighEvent. So many rounds; without a queue, none. *)
Definition ReadHighEvent (queues : list string) (rounds : list (list (queues_of -> queues_of))) (r : queues_of) : list task * queues_of :=
  match queues with
  | [] => ([], r)
  | _ => fold_left (fun '(ts, r) others => let '(t, r) := read_round true queues others r in ((ts ++ t)%list, r)) rounds ([], r)
  end.
(** Source: modules/alarm/cron/event_reader.go, ReadLowEvent. *)
Definition ReadLowEvent (queues : list string) (rounds : list (list (queues_of -> queues_of))) (r : queues_of) : list task * queues_of :=
  match queues with
  | [] => ([], r)
  | _ => fold_left (fun '(ts, r) others => let '(t, r) := read_round false queues others r in ((ts ++ t)%list, r)) rounds ([], r)
  end.
End reader.

(** * The goroutines that file events *)

(** Where the goroutine of an event stands: before its first, its second and its third statement, or done. *)
Inductive stage := Asks | Files (found : option EventCase) | Lists | Done.
#[export] Instance stage_eq_dec : EqDecision stage.
Proof. solve_decision. Defined.
Record filing := mkFiling { fl_event : Event; fl_stage : stage }.
Record Archive := mkArchive { ar_alarms : Alarms; ar_goroutines : list filing }.

Section goroutines.
Context (env : AlarmEnv).
(** Source: modules/alarm/model/event/event_operation.go, lines 61-183. The statement a goroutine comes to, and where it stands then. Symbol: InsertEvent. *)
Definition filing_step (g : filing) : Am filing :=
  let e := fl_event g in
  match fl_stage g with
  | Asks => do! found := find_case env e in ret (mkFiling e (Files found))
  | Files found => do! _ := file_case env e found in ret (mkFiling e Lists)
  | Lists => do! _ := insertEvent env e in ret (mkFiling e Done)
  | Done => ret g
  end.

(** An event comes, or a goroutine does its next statement. *)
Inductive filing_move : Archive -> Archive -> Prop :=
  | event_comes a e : filing_move a (mkArchive (ar_alarms a) (ar_goroutines a ++ [mkFiling e Asks])%list)
  | statement a i g g' s : ar_goroutines a !! i = Some g -> filing_step g (ar_alarms a) = Ret (g', s) ->
      filing_move a (mkArchive s (<[i := g']> (ar_goroutines a))).
(** Or old events are deleted. *)
Inductive archive_step : Archive -> Archive -> Prop :=
  | filing_goes a a' : filing_move a a' -> archive_step a a'
  | clean a settings now s : CleanExpiredEvent env settings now (ar_alarms a) = Ret (tt, s) -> archive_step a (mkArchive s (ar_goroutines a)).
End goroutines.

(** * The web service ([modules/api/app/controller/alarm]) *)

(** The archive, the tables of the web service and those links that are kept. *)
Record Web := mkWeb { wb_alarms : Alarms; wb_api : Api; wb_links : list (string * string) }.
Notation W := (M Web).
Definition on_alarms {X} (m : Am X) : W X := fun s =>
  match m (wb_alarms s) with Ret (x, a) => Ret (x, mkWeb a (wb_api s) (wb_links s)) | Panic p => Panic p end.
Definition on_api {X} (m : Ap X) : W X := fun s =>
  match m (wb_api s) with Ret (x, a) => Ret (x, mkWeb (wb_alarms s) a (wb_links s)) | Panic p => Panic p end.

(** What an answer holds. *)
Inductive alarm_body :=
  | ARefusal (b : body) | AMessage (s : string) | ABadInput | AError (text : string)
  | ACases (l : list EventCase) | AEvents (l : list EventRow) | ANotes (l : list (EventNote * string)) | ANoteAdded (id : string) | ALink (path : string).
Inductive alarm_answer := AAnswer (code : Z) (b : alarm_body) | ANoAnswer.

(** The conditions of a text, and their conjunction behind [WHERE]. *)
Definition where_text (conditions : list string) : string :=
  let filterStrTmp := GoStr.join " AND " conditions in
  if String.eqb filterStrTmp "" then "" else "WHERE " ++s filterStrTmp.
Definition given (b : bool) (s : string) : list string := if b then [s] else [].

(** Source: modules/api/app/controller/alarm/alarm_events_controller.go, type APIGetAlarmListsInputs. A list of endpoints may be missing. *)
Record APIGetAlarmListsInputs := mkAlarmLists {
  al_StartTime : Z; al_EndTime : Z; al_Priority : Z; al_Status : string; al_ProcessStatus : string; al_Metrics : string; al_EventId : string;
  al_Limit : Z; al_Page : Z; al_Endpoints : option (list string); al_StrategyId : Z; al_TemplateId : Z }.
(** Source: modules/api/app/controller/alarm/alarm_events_controller.go, APIGetAlarmListsInputs.checkInputsContain. *)
Definition lists_checkInputsContain (input : APIGetAlarmListsInputs) : option string :=
  if (al_StartTime input =? 0)%Z && (al_EndTime input =? 0)%Z && String.eqb (al_EventId input) "" &&
     (match al_Endpoints input with None => true | Some _ => false end) && (al_StrategyId input =? 0)%Z && (al_TemplateId input =? 0)%Z
  then Some "startTime, endTime, event_id, endpoints, strategy_id or template_id, You have to at least pick one on the request."
  else None.
(** Any of some values of a column. *)
Definition any_of (column values : string) : string :=
  match GoStr.split values "," with
  | [] => "(  )"
  | n :: l => "( " ++s fold_left (fun status n => " " ++s status ++s " OR " ++s column ++s " = '" ++s n ++s "' ") l (" " ++s column ++s " = '" ++s n ++s "' ") ++s " )"
  end.
(** Source: modules/api/app/controller/alarm/alarm_events_controller.go, APIGetAlarmListsInputs.collectFilters. *)
Definition lists_collectFilters (s : APIGetAlarmListsInputs) : string :=
  where_text (
    given (negb (al_StartTime s =? 0)%Z) ("timestamp >= FROM_UNIXTIME(" ++s itoa (al_StartTime s) ++s ")") ++
    given (negb (al_EndTime s =? 0)%Z) ("timestamp <= FROM_UNIXTIME(" ++s itoa (al_EndTime s) ++s ")") ++
    given (negb (al_Priority s =? -1)%Z) ("priority = " ++s itoa (al_Priority s)) ++
    given (negb (String.eqb (al_Status s) "")) (any_of "status" (al_Status s)) ++
    given (negb (String.eqb (al_ProcessStatus s) "")) (any_of "process_status" (al_ProcessStatus s)) ++
    given (negb (String.eqb (al_Metrics s) "")) ("metrics regexp '" ++s al_Metrics s ++s "'") ++
    given (negb (String.eqb (al_EventId s) "")) ("id = '" ++s al_EventId s ++s "'") ++
    match al_Endpoints s with
    | Some (_ :: _ as l) => ["endpoint in (" ++s GoStr.join ", " (map (fun ep => "'" ++s ep ++s "'") l) ++s ")"]
    | _ => []
    end ++
    given (negb (al_StrategyId s =? 0)%Z) ("strategy_id = " ++s itoa (al_StrategyId s)) ++
    given (negb (al_TemplateId s =? 0)%Z) ("template_id = " ++s itoa (al_TemplateId s)))%list.

(** Source: modules/api/app/controller/alarm/alarm_events_controller.go, type APIEventsGetInputs. *)
Record APIEventsGetInputs := mkEventsGet { eg_StartTime : Z; eg_EndTime : Z; eg_Status : Z; eg_EventId : string; eg_Limit : Z; eg_Page : Z }.
(** Source: modules/api/app/controller/alarm/alarm_events_controller.go, APIEventsGetInputs.collectFilters. *)
Definition events_collectFilters (s : APIEventsGetInputs) : string :=
  where_text (
    given (negb (eg_StartTime s =? 0)%Z) ("timestamp >= FROM_UNIXTIME(" ++s itoa (eg_StartTime s) ++s ")") ++
    given (negb (eg_EndTime s =? 0)%Z) ("timestamp <= FROM_UNIXTIME(" ++s itoa (eg_EndTime s) ++s ")") ++
    given (negb (String.eqb (eg_EventId s) "")) ("event_caseId = '" ++s eg_EventId s ++s "'") ++
    given ((eg_Status s =? 0)%Z || (eg_Status s =? 1)%Z) ("status = " ++s itoa (eg_Status s)))%list.

(** Source: modules/api/app/controller/alarm/alarm_notes_controller.go, type APIGetNotesOfAlarmInputs. *)
Record APIGetNotesOfAlarmInputs := mkGetNotes { gn_StartTime : Z; gn_EndTime : Z; gn_EventId : string; gn_Status : string; gn_Limit : Z; gn_Page : Z }.
(** Source: modules/api/app/controller/alarm/alarm_notes_controller.go, APIGetNotesOfAlarmInputs.checkInputsContain. *)
Definition notes_checkInputsContain (input : APIGetNotesOfAlarmInputs) : option string :=
  if (gn_StartTime input =? 0)%Z && (gn_EndTime input =? 0)%Z && String.eqb (gn_EventId input) ""
  then Some "startTime, endTime OR event_id, You have to at least pick one on the request."
  else None.
(** Source: modules/api/app/controller/alarm/alarm_notes_controller.go, APIGetNotesOfAlarmInputs.collectFilters. *)
Definition notes_collectFilters (s : APIGetNotesOfAlarmInputs) : string :=
  where_text (
    given (negb (gn_StartTime s =? 0)%Z) ("timestamp >= FROM_UNIXTIME(" ++s itoa (gn_StartTime s) ++s ")") ++
    given (negb (gn_EndTime s =? 0)%Z) ("timestamp <= FROM_UNIXTIME(" ++s itoa (gn_EndTime s) ++s ")") ++
    given (negb (String.eqb (gn_Status s) "")) ("status = '" ++s gn_Status s ++s "'") ++
    given (negb (String.eqb (gn_EventId s) "")) ("event_caseId = '" ++s gn_EventId s ++s "'"))%list.

(** Source: modules/api/app/controller/alarm/alarm_notes_controller.go, type APIAddNotesToAlarmInputs. *)
Record APIAddNotesToAlarmInputs := mkAddNotes { an_EventId : string; an_Note : string; an_Status : string; an_CaseId : string }.
(** Source: modules/api/app/controller/alarm/alarm_notes_controller.go, APIAddNotesToAlarmInputs.CheckingFormating. The text has the values in quotes. *)
Definition CheckingFormating (s : APIAddNotesToAlarmInputs) : option string :=
  if bool_decide (an_Status s ∈ ["in progress"; "unresolved"; "resolved"; "ignored"; "comment"]) then None
  else Some "params status: only accepect [in progress, unresolved, resolved, ignored, comment]".

Section web.
Context (env : AlarmEnv) (api : ApiEnv) (tok : token).

(** Source: modules/api/app/controller/alarm/alarm_events_controller.go, AlarmLists. The errors of the query are not looked at. *)
Definition AlarmLists (i : option APIGetAlarmListsInputs) : Am alarm_answer :=
  match i with
  | None => ret (AAnswer badstatus ABadInput)
  | Some inputs =>
      match lists_checkInputsContain inputs with
      | Some e => ret (AAnswer badstatus (AMessage e))
      | None =>
          let head := "select * from event_cases " ++s lists_collectFilters inputs in
          let perparedSql :=
            if (al_Page inputs =? -1)%Z then
              let limit := if (2000 <=? al_Limit inputs)%Z || (al_Limit inputs =? 0)%Z then 2000%Z else al_Limit inputs in
              head ++s " order by timestamp DESC limit " ++s itoa limit
            else
              let limit := if (50 <=? al_Limit inputs)%Z then 50%Z else al_Limit inputs in
              let step := (al_Page inputs *! limit)%Z in
              head ++s "  order by timestamp DESC limit " ++s itoa step ++s "," ++s itoa limit in
          do! n := gets as_tick in
          do! e := reached env in
          ret (AAnswer 200 (ACases (match e with Some _ => [] | None => ae_cases env n perparedSql end)))
      end
  end.

(** Source: modules/api/app/controller/alarm/alarm_events_controller.go, EventsGet. The step of an event is not asked for. *)
Definition EventsGet (i : option APIEventsGetInputs) : Am alarm_answer :=
  match (i ← bound i (fun i => [eg_EventId i]); if ((-1 <=? eg_Status i) && (eg_Status i <=? 1))%Z then Some i else None) with
  | None => ret (AAnswer badstatus ABadInput)
  | Some inputs =>
      let limit := if (eg_Limit inputs =? 0)%Z || (50 <=? eg_Limit inputs)%Z then 50%Z else eg_Limit inputs in
      let perparedSql := "select id, event_caseId, cond, status, timestamp from events " ++s events_collectFilters inputs
        ++s " order by timestamp DESC limit " ++s itoa (eg_Page inputs) ++s "," ++s itoa limit in
      do! n := gets as_tick in
      do! e := reached env in
      let rows := match e with Some _ => [] | None => ae_events env n perparedSql end in
      ret (AAnswer 200 (AEvents (map (fun r => mkEventRow (er_Id r) (er_EventCaseId r) 0 (er_Cond r) (er_Status r) (er_Timestamp r)) rows)))
  end.

(** Source: modules/api/app/model/alarm/event_note.go, EventNote.GetUserName. *)
Definition GetUserName (this : EventNote) : Ap string :=
  do! r := find_one api DB TUser (mkPUser (en_UserId this) "" "" "" "" "" "" "" 0) (any TUser) in
  ret (us_Name (fst r)).
(** Each note with the name of its user. *)
Fixpoint name_notes (notes : list EventNote) : Ap (list (EventNote * string)) :=
  match notes with
  | [] => ret []
  | n :: notes => do! name := GetUserName n in do! l := name_notes notes in ret ((n, name) :: l)
  end.
(** Source: modules/api/app/controller/alarm/alarm_notes_controller.go, GetNotesOfAlarm. *)
Definition GetNotesOfAlarm (i : option APIGetNotesOfAlarmInputs) : W alarm_answer :=
  match i with
  | None => ret (AAnswer badstatus ABadInput)
  | Some inputs =>
      match notes_checkInputsContain inputs with
      | Some e => ret (AAnswer badstatus (AMessage e))
      | None =>
          let limit := if (gn_Limit inputs =? 0)%Z || (50 <=? gn_Limit inputs)%Z then 50%Z else gn_Limit inputs in
          let perparedSql := "select id, event_caseId, note, case_id, status, timestamp, user_id from event_note " ++s notes_collectFilters inputs
            ++s " order by timestamp DESC limit " ++s itoa (gn_Page inputs) ++s "," ++s itoa limit in
          do! n := on_alarms (gets as_tick) in
          do! e := on_alarms (reached env) in
          do! output := on_api (name_notes (match e with Some _ => [] | None => ae_notes env n perparedSql end)) in
          ret (AAnswer 200 (ANotes output))
      end
  end.

(** The tables with a note, when its case and its user exist. *)
Definition add_note (now : Z) (users : list PUser) (note : EventNote) (t : AlarmTables) : option AlarmTables :=
  if bool_decide (is_Some (at_cases t !! case_key env (en_EventCaseId note))) && existsb (fun u => (us_ID u =? en_UserId note)%Z) users
  then Some (mkTables (at_cases t) (at_events t)
               (at_notes t ++ [mkNote (en_ID note) (en_EventCaseId note) (en_Note note) (en_CaseId note) (en_Status note) now (en_UserId note)])%list)
  else None.
(** Source: modules/api/app/controller/alarm/alarm_notes_controller.go, lines 174-178. The case as a note leaves it. Symbol: AddNotesToAlarm. *)
Definition process (now id : Z) (status : string) (c : EventCase) : EventCase :=
  touch now c (mkCase (ec_Id c) (ec_Endpoint c) (ec_Metric c) (ec_fields c) (ec_Timestamp c) (ec_UpdateAt c) (Some id) status).
(** The tables of a transaction replace those of the database, unless the server refuses. *)
Definition commit (t : AlarmTables) : Am unit :=
  do! e := reached env in
  match e with
  | Some _ => skip
  | None => modify (fun s => mkAlarms t (as_next_event s) (as_next_note s) (as_tick s))
  end.
Definition set_next_note (n : Z) (s : Alarms) : Alarms := mkAlarms (as_tables s) (as_next_event s) n (as_tick s).

(** Source: modules/api/app/controller/alarm/alarm_notes_controller.go, lines 159-188. The transaction: the note, and the case unless it is a comment; the user is the one of the session, or none. Symbol: AddNotesToAlarm. *)
Definition note_transaction (users : list PUser) (uid : Z) (inputs : APIAddNotesToAlarmInputs) : Am alarm_answer :=
  do! e := reached env in
  match e with
  | Some e => ret (AAnswer badstatus (AError e))
  | None =>
      do! dt := gets as_tables in
      do! n := gets as_tick in
      do! id := gets as_next_note in
      do! e := reached env in
      match e with
      | Some e => ret (AAnswer badstatus (AError e))
      | None =>
          do! _ := modify (set_next_note (id + 1)) in
          match add_note (ae_now env n) users (mkNote id (an_EventId inputs) (an_Note inputs) (an_CaseId inputs) (an_Status inputs) 0 uid) dt with
          | None => ret (AAnswer badstatus (AError "foreign key"))
          | Some dt =>
              if String.eqb (an_Status inputs) "comment" then
                do! _ := commit dt in ret (AAnswer 200 (ANoteAdded (an_EventId inputs)))
              else
                do! n := gets as_tick in
                do! e := reached env in
                match e with
                | Some e => ret (AAnswer badstatus (AError ("update got error during update event_cases:" ++s e)))
                | None =>
                    let cases := alter (process (ae_now env n) id (an_Status inputs)) (case_key env (an_EventId inputs)) (at_cases dt) in
                    do! _ := commit (mkTables cases (at_events dt) (at_notes dt)) in
                    ret (AAnswer 200 (ANoteAdded (an_EventId inputs)))
                end
          end
      end
  end.
(** Source: modules/api/app/controller/alarm/alarm_notes_controller.go, AddNotesToAlarm. *)
Definition AddNotesToAlarm (i : option APIAddNotesToAlarmInputs) : W alarm_answer :=
  match bound i (fun i => [an_EventId i; an_Note i; an_Status i]) with
  | None => ret (AAnswer badstatus ABadInput)
  | Some inputs =>
      match CheckingFormating inputs with
      | Some e => ret (AAnswer badstatus (AMessage e))
      | None =>
          do! r := on_api (h_GetUser api tok) in
          do! users := on_api (gets (fun s => api_db s TUser)) in
          on_alarms (note_transaction users (us_ID (fst r)) inputs)
      end
  end.

(** Source: modules/api/app/controller/alarm/alarm_notes_controller.go, RandomStr. From the random numbers, each below 62. *)
Definition RandomStr (numbers : list nat) : string :=
  let str := "0123456789abcdefghijklmnopqrstuvwxyzABCDEFGHIJKLMNOPQRSTUVWXYZ" in
  String.concat "" (map (fun n => String.substring n 1 str) numbers).
(** Source: modules/api/app/controller/alarm/alarm_notes_controller.go, StoreLink. In a transaction of the portal; the paths are unique. *)
Definition StoreLink (i : option string) (numbers : list nat) : W alarm_answer :=
  match i with
  | None => ret (AAnswer badstatus ABadInput)
  | Some content =>
      let refused e := match e with Some (Refused e) => Some e | Some _ => Some "" | None => None end in
      do! e := on_api (stmt api DB) in
      match refused e with
      | Some e => ret (AAnswer badstatus (AError e))
      | None =>
          let randomStr := RandomStr numbers in
          do! e := on_api (stmt api DB) in
          do! links := gets wb_links in
          match refused e with
          | Some e => ret (AAnswer badstatus (AError e))
          | None =>
              if existsb (fun l => sql_eq api (fst l) randomStr) links then ret (AAnswer badstatus (AError "duplicate"))
              else
                do! e := on_api (stmt api DB) in
                do! _ := match refused e with
                         | Some _ => skip
                         | None => modify (fun s => mkWeb (wb_alarms s) (wb_api s) (wb_links s ++ [(randomStr, content)])%list)
                         end in
                ret (AAnswer 200 (ALink randomStr))
          end
      end
  end.

(** The requests, and the routes, all behind the check of the session. *)
Inductive alarm_request :=
  | RAlarmLists (i : option APIGetAlarmListsInputs) | REventsGet (i : option APIEventsGetInputs) | RAddNotesToAlarm (i : option APIAddNotesToAlarmInputs)
  | RGetNotesOfAlarm (i : option APIGetNotesOfAlarmInputs) | RStoreLink (i : option string) (numbers : list nat).
(** Source: modules/api/app/controller/alarm/alarm_routes.go, Routes. *)
Definition alarm_serve (r : alarm_request) : W alarm_answer :=
  do! refused := on_api (AuthSessionMidd api tok) in
  match refused with
  | Some (Answer code b) => ret (AAnswer code (ARefusal b))
  | Some _ => ret ANoAnswer
  | None =>
      match r with
      | RAlarmLists i => on_alarms (AlarmLists i)
      | REventsGet i => on_alarms (EventsGet i)
      | RAddNotesToAlarm i => AddNotesToAlarm i
      | RGetNotesOfAlarm i => GetNotesOfAlarm i
      | RStoreLink i numbers => StoreLink i numbers
      end
  end.
End web.
