(* ===== verification/AlarmCasesThms.v ===== *)
(** The archive of alarms: whatever the order of the statements of the
    goroutines, the tables stay consistent ([archive_consistent]) and list each
    event once ([every_event_listed]); the note of a person moves the case, and
    the next event opens a closed one again ([note_then_event]); the readers take
    the events by the order of their queues, the oldest first
    ([queues_read_in_order]). *)
From S2P Require Import Prelude GoFloat GoStr GoNum Utils Model AlarmText Redis.
From S2P Require Export AlarmCases ApiThms.
From Stdlib Require Import Ascii.
Local Open Scope string_scope.

(** * Statements *)

Section archive.
Context (env : AlarmEnv).
Local Notation key e := (case_key env (ev_Id e)) (only parsing).

Lemma exec_inv f s b s' : exec env f s = Ret (b, s') ->
  (s' = tick s /\ (ae_sql env (as_tick s) = None -> f (ae_now env (as_tick s)) s = None)) \/
  exists s1, f (ae_now env (as_tick s)) s = Some s1 /\ s' = tick s1.
Proof using Type.
  unfold exec. destruct (ae_sql env (as_tick s)); [intros [= <- <-]; by left|].
  destruct (f _ s) eqn:E; intros [= <- <-]; [right; by eexists|by left].
Qed.

Lemma touch_keeps now old new : ec_Id (touch now old new) = ec_Id new /\ ec_fields (touch now old new) = ec_fields new.
Proof using Type. unfold touch. destruct (decide (new = old)) as [->|]; done. Qed.
Lemma renewed_keeps now e f reopen old : ec_Id (renewed now e f reopen old) = ec_Id old /\ ec_fields (renewed now e f reopen old) = f.
Proof using Type. unfold renewed. destruct (ev_CurrentStep e =? 1)%Z; [done|]. by edestruct touch_keeps as [-> ->]. Qed.

(** The cases after the second statement of a goroutine; nothing else changes. *)
Lemma file_case_inv e found s s' : file_case env e found s = Ret (tt, s') ->
  at_events (as_tables s') = at_events (as_tables s) /\ at_notes (as_tables s') = at_notes (as_tables s) /\ as_next_event s' = as_next_event s /\
  exists f, fields_of e = Ret f /\
    (at_cases (as_tables s') = at_cases (as_tables s) /\ (ae_sql env (as_tick s) = None -> is_Some (at_cases (as_tables s) !! key e) \/ found <> None) \/
     (exists c, ec_Id c = ev_Id e /\ ec_fields c = f /\ at_cases (as_tables s') = <[key e := c]> (at_cases (as_tables s))) \/
     (found <> None /\ exists now reopen, at_cases (as_tables s') = alter (renewed now e f reopen) (key e) (at_cases (as_tables s)))).
Proof using Type.
  destruct found as [c|]; cbn; unfold renew_case, make_case; intros H.
  - apply mthen_inv in H as (f & s1 & [Ef ->]%lift_inv & H). apply mthen_inv in H as (b & s1 & H%exec_inv & [= ->]).
    destruct H as [[-> _]|(s2 & [= <-] & ->)]; (split_and!; [done..|]); exists f; (split; [done|]).
    + left. split; [done|]. intros _. by right.
    + right. right. split; [done|]. by eexists _, _.
  - apply mthen_inv in H as (m & s1 & [_ ->]%lift_inv & H). apply mthen_inv in H as (f & s1 & [Ef ->]%lift_inv & H).
    apply mthen_inv in H as (b & s1 & H%exec_inv & [= ->]).
    destruct H as [[-> Hn]|(s2 & Hs & ->)].
    + split_and!; [done..|]. exists f. split; [done|]. left. split; [done|]. intros Hq. left. specialize (Hn Hq). by destruct (at_cases _ !! _).
    + destruct (at_cases (as_tables s) !! key e); [done|]. injection Hs as <-. split_and!; [done..|]. exists f. split; [done|]. right. left.
      by eexists (mkCase _ _ _ _ _ _ _ _).
Qed.

(** The row of an event, but for its id. *)
Definition row_of (e : Event) (cond : string) (id : Z) : EventRow :=
  mkEventRow id (ev_Id e) (ev_CurrentStep e) cond (if String.eqb (ev_Status e) "OK" then 1%Z else 0%Z) (ev_EventTime e).
Lemma insertEvent_inv e s s' : insertEvent env e s = Ret (tt, s') ->
  at_cases (as_tables s') = at_cases (as_tables s) /\ at_notes (as_tables s') = at_notes (as_tables s) /\
  exists cond, cond_of e = Ret cond /\
    ((at_events (as_tables s') = at_events (as_tables s) /\ as_next_event s' = as_next_event s /\
      (ae_sql env (as_tick s) = None -> at_cases (as_tables s) !! key e = None)) \/
     (is_Some (at_cases (as_tables s) !! key e) /\ at_events (as_tables s') = (at_events (as_tables s) ++ [row_of e cond (as_next_event s)])%list /\
      as_next_event s' = (as_next_event s + 1)%Z)).
Proof using Type.
  unfold insertEvent. intros H. apply mthen_inv in H as (cond & s1 & [Ec ->]%lift_inv & H). apply mthen_inv in H as (b & s1 & H%exec_inv & [= ->]).
  destruct H as [[-> Hn]|(s2 & Hs & ->)].
  - split_and!; [done..|]. exists cond. split; [done|]. left. split_and!; [done..|]. intros Hq. specialize (Hn Hq). by destruct (at_cases _ !! _).
  - destruct (at_cases (as_tables s) !! key e) eqn:E; [|done]. injection Hs as <-. split_and!; [done..|]. exists cond. split; [done|]. right. by split_and!.
Qed.

(** * Consistency *)

(** A case has an id of its place and the fields of an event that came; the rows
    of events have ids of their own, refer to cases and are rows of events that
    came; a goroutine that has found a case, or done its second statement while
    no statement is refused, has one. *)
Record consistent (a : Archive) : Prop := {
  cn_shown k c : at_cases (as_tables (ar_alarms a)) !! k = Some c -> case_key env (ec_Id c) = k /\
    exists g, g ∈ ar_goroutines a /\ key (fl_event g) = k /\ fields_of (fl_event g) = Ret (ec_fields c);
  cn_listed r : r ∈ at_events (as_tables (ar_alarms a)) -> is_Some (at_cases (as_tables (ar_alarms a)) !! case_key env (er_EventCaseId r)) /\
    exists g cond, g ∈ ar_goroutines a /\ cond_of (fl_event g) = Ret cond /\ r = row_of (fl_event g) cond (er_Id r);
  cn_ids : NoDup (map er_Id (at_events (as_tables (ar_alarms a)))) /\
    Forall (fun r => (er_Id r < as_next_event (ar_alarms a))%Z) (at_events (as_tables (ar_alarms a)));
  cn_found g : g ∈ ar_goroutines a ->
    match fl_stage g with
    | Files (Some _) => is_Some (at_cases (as_tables (ar_alarms a)) !! key (fl_event g))
    | Lists | Done => (forall n, ae_sql env n = None) -> is_Some (at_cases (as_tables (ar_alarms a)) !! key (fl_event g))
    | _ => True
    end }.

(** The statement of a goroutine: which tables it changes. *)
Lemma step_event g s g' s' : filing_step env g s = Ret (g', s') -> fl_event g' = fl_event g.
Proof using Type.
  unfold filing_step. destruct (fl_stage g); intros H; [..|by injection H as <- <-]; by apply mthen_inv in H as (x & s1 & _ & [= <- _]).
Qed.
Lemma step_cases g s g' s' k : filing_step env g s = Ret (g', s') ->
  is_Some (at_cases (as_tables s) !! k) -> is_Some (at_cases (as_tables s') !! k).
Proof using Type.
  unfold filing_step. destruct (fl_stage g); intros H Hk; [..|by injection H as _ <-]; apply mthen_inv in H as (x & s1 & H & [= _ <-]).
  - unfold find_case in H. apply mthen_inv in H as (q & s2 & [= <- <-] & H). by destruct (ae_sql env _); injection H as <- <-.
  - destruct x. apply file_case_inv in H as (_ & _ & _ & f & _ & [[-> _]|[(c & _ & _ & ->)|(_ & now & reopen & ->)]]); [done|..].
    + destruct (decide (k = key (fl_event g))) as [->|]; [by rewrite lookup_insert_eq|by rewrite lookup_insert_ne].
    + rewrite lookup_alter. case_decide; [subst; by apply fmap_is_Some|done].
  - destruct x. by apply insertEvent_inv in H as (-> & _).
Qed.

Lemma elem_of_update {A} (l : list A) i x y z : l !! i = Some x -> z ∈ <[i := y]> l -> z = y \/ z ∈ l.
Proof using Type. intros Hi Hz. apply list_elem_of_lookup in Hz as [j Hj]. apply list_lookup_insert_Some in Hj as [(_ & <- & _)|[_ Hj]]; [by left|right; by eapply list_elem_of_lookup_2]. Qed.
(** The events of the goroutines stay. *)
Lemma events_stay (l : list filing) (i : nat) g g' : l !! i = Some g -> fl_event g' = fl_event g ->
  forall x, x ∈ l -> exists y, y ∈ <[i := g']> l /\ fl_event y = fl_event x.
Proof using Type.
  intros Hi He x Hx. apply list_elem_of_lookup in Hx as [j Hj]. destruct (decide (i = j)) as [<-|Hne].
  - exists g'. rewrite Hi in Hj. injection Hj as <-. split; [|done]. eapply list_elem_of_lookup_2. rewrite list_lookup_insert_eq; [done|]. by eapply lookup_lt_Some.
  - exists x. split; [|done]. eapply list_elem_of_lookup_2. by rewrite list_lookup_insert_ne.
Qed.

(** A case is shown after a statement as before, or shows the event of the statement. *)
Lemma step_shown g s g' s' k c : filing_step env g s = Ret (g', s') -> at_cases (as_tables s') !! k = Some c ->
  (exists c0, at_cases (as_tables s) !! k = Some c0 /\ ec_Id c = ec_Id c0 /\ (ec_fields c = ec_fields c0 \/ (k = key (fl_event g) /\ fields_of (fl_event g) = Ret (ec_fields c)))) \/
  (k = key (fl_event g) /\ ec_Id c = ev_Id (fl_event g) /\ fields_of (fl_event g) = Ret (ec_fields c)).
Proof using Type.
  unfold filing_step. destruct (fl_stage g); intros H Hk; [..|injection H as _ <-; left; eexists; split; [exact Hk|]; split; [done|by left]];
    apply mthen_inv in H as (x & s1 & H & [= _ <-]).
  - left. exists c. split; [|split; [done|by left]]. revert Hk. unfold find_case in H. apply mthen_inv in H as (q & s2 & [= <- <-] & H).
    by destruct (ae_sql env _); injection H as <- <-.
  - destruct x. apply file_case_inv in H as (_ & _ & _ & f & Hf & [[Hc _]|[(c1 & Hi & Hff & Hc)|(_ & now & reopen & Hc)]]); rewrite Hc in Hk.
    + left. exists c. split; [done|]. split; [done|by left].
    + apply lookup_insert_Some in Hk as [[<- <-]|[_ Hk]]; [right; by rewrite Hff|left; exists c; split; [done|]; split; [done|by left]].
    + rewrite lookup_alter in Hk. case_decide; [|left; exists c; split; [done|]; split; [done|by left]]. subst k.
      apply fmap_Some in Hk as (c0 & Hc0 & ->). left. exists c0. destruct (renewed_keeps now (fl_event g) f reopen c0) as [-> ->].
      split; [done|]. split; [done|]. by right.
  - left. exists c. split; [|split; [done|by left]]. destruct x. by apply insertEvent_inv in H as (<- & _).
Qed.
(** The rows of events after a statement: as before, or with that of the event of the statement. *)
Lemma step_listed g s g' s' : filing_step env g s = Ret (g', s') ->
  (at_events (as_tables s') = at_events (as_tables s) /\ as_next_event s' = as_next_event s) \/
  exists cond, fl_stage g = Lists /\ cond_of (fl_event g) = Ret cond /\ is_Some (at_cases (as_tables s) !! key (fl_event g)) /\
    at_events (as_tables s') = (at_events (as_tables s) ++ [row_of (fl_event g) cond (as_next_event s)])%list /\ as_next_event s' = (as_next_event s + 1)%Z.
Proof using Type.
  unfold filing_step. destruct (fl_stage g); intros H; [..|injection H as _ <-; by left]; apply mthen_inv in H as (x & s1 & H & [= _ <-]).
  - left. unfold find_case in H. apply mthen_inv in H as (q & s2 & [= <- <-] & H). by destruct (ae_sql env _); injection H as <- <-.
  - left. destruct x. by apply file_case_inv in H as (-> & _ & -> & _).
  - destruct x. apply insertEvent_inv in H as (_ & _ & cond & Hc & [(-> & -> & _)|(Hs & -> & ->)]); [by left|right; by exists cond].
Qed.
(** Where a goroutine stands has its case. *)
Lemma step_found g s g' s' : filing_step env g s = Ret (g', s') ->
  match fl_stage g with
  | Files (Some _) => is_Some (at_cases (as_tables s) !! key (fl_event g))
  | Lists | Done => (forall n, ae_sql env n = None) -> is_Some (at_cases (as_tables s) !! key (fl_event g))
  | _ => True
  end ->
  match fl_stage g' with
  | Files (Some _) => is_Some (at_cases (as_tables s') !! key (fl_event g))
  | Lists | Done => (forall n, ae_sql env n = None) -> is_Some (at_cases (as_tables s') !! key (fl_event g))
  | _ => True
  end.
Proof using Type.
  intros H Hf. pose proof (step_cases _ _ _ _ (key (fl_event g)) H) as Hc. unfold filing_step in H. destruct (fl_stage g) as [|found| |] eqn:Es; [..|injection H as <- <-; by rewrite Es];
    apply mthen_inv in H as (x & s1 & H & [= <- <-]); cbn [fl_stage].
  - destruct x as [c|]; [|done]. apply Hc. unfold find_case in H. apply mthen_inv in H as (q & s2 & [= <- <-] & H).
    destruct (ae_sql env _); [done|]. by injection H as -> _.
  - intros Hq. destruct x. destruct found as [c0|]; [by apply Hc|].
    apply file_case_inv in H as (_ & _ & _ & f & _ & [[-> Hn]|[(c & _ & _ & ->)|(Hn & _)]]).
    + by destruct (Hn (Hq _)).
    + by rewrite lookup_insert_eq.
    + done.
  - intros Hq. apply Hc. by apply Hf.
Qed.

Lemma start_consistent : consistent (mkArchive no_alarms []).
Proof using Type. split; cbn; [done|by intros r ?%elem_of_nil|split; [by apply NoDup_nil|done]|by intros g ?%elem_of_nil]. Qed.

Lemma consistent_comes a e : consistent a -> consistent (mkArchive (ar_alarms a) (ar_goroutines a ++ [mkFiling e Asks])%list).
Proof using Type.
  intros [Hs Hl Hi Hf]. split; cbn; [..|done|].
  - intros k c Hk. destruct (Hs k c Hk) as (Hc & g & Hg & H). split; [done|]. exists g. rewrite elem_of_app. tauto.
  - intros r Hr. destruct (Hl r Hr) as (Hc & g & cond & Hg & H). split; [done|]. exists g, cond. rewrite elem_of_app. tauto.
  - intros g [Hg| ->%list_elem_of_singleton]%elem_of_app; [by apply Hf|done].
Qed.

Lemma consistent_statement a i g g' s : consistent a -> ar_goroutines a !! i = Some g -> filing_step env g (ar_alarms a) = Ret (g', s) ->
  consistent (mkArchive s (<[i := g']> (ar_goroutines a))).
Proof using Type.
  intros [Hs Hl [Hnd Hlt] Hf] Hg H. pose proof (step_event _ _ _ _ H) as He. pose proof (events_stay _ i g g' Hg He) as Hstay.
  assert (g ∈ ar_goroutines a) as Hin by by eapply list_elem_of_lookup_2. split; cbn.
  - intros k c [(c0 & Hk & -> & [-> |[-> Hff]])|(-> & -> & Hff)]%(step_shown _ _ _ _ _ _ H).
    + destruct (Hs k c0 Hk) as (Hc & g1 & (g2 & Hg2 & E)%Hstay & H1 & H2). split; [done|]. exists g2. by rewrite E.
    + destruct (Hs _ c0 Hk) as (Hc & _). split; [done|]. destruct (Hstay g Hin) as (g2 & Hg2 & E). exists g2. by rewrite E.
    + split; [done|]. destruct (Hstay g Hin) as (g2 & Hg2 & E). exists g2. by rewrite E.
  - assert (forall r, r ∈ at_events (as_tables (ar_alarms a)) -> is_Some (at_cases (as_tables s) !! case_key env (er_EventCaseId r)) /\
      exists g0 cond, g0 ∈ <[i := g']> (ar_goroutines a) /\ cond_of (fl_event g0) = Ret cond /\ r = row_of (fl_event g0) cond (er_Id r)) as Hold.
    { intros r (Hc & g1 & cond & (g2 & Hg2 & E)%Hstay & H1 & H2)%Hl. split; [by eapply step_cases|]. exists g2, cond. by rewrite E. }
    intros r Hr. destruct (step_listed _ _ _ _ H) as [[Hev _]|(cond & _ & Hcond & Hc & Hev & _)]; rewrite Hev in Hr; [by apply Hold|].
    apply elem_of_app in Hr as [Hr| ->%list_elem_of_singleton]; [by apply Hold|]. split; [by eapply step_cases|].
    destruct (Hstay g Hin) as (g2 & Hg2 & E). exists g2, cond. by rewrite E.
  - destruct (step_listed _ _ _ _ H) as [[-> ->]|(cond & _ & _ & _ & -> & ->)]; [done|]. rewrite map_app, Forall_app, Forall_singleton. cbn. split.
    + apply NoDup_app. split; [done|]. split; [|by apply NoDup_singleton]. intros x Hx ->%list_elem_of_singleton.
      apply list_elem_of_In, in_map_iff in Hx as (r & Hr & Hx%list_elem_of_In). rewrite Forall_forall in Hlt. specialize (Hlt r Hx). lia.
    + split; [|lia]. eapply Forall_impl; [exact Hlt|]. cbn. lia.
  - intros g0 [-> |Hg0]%(elem_of_update _ _ g); [|..|done].
    + rewrite He. eapply step_found; [exact H|]. by apply Hf.
    + specialize (Hf g0 Hg0). destruct (fl_stage g0) as [|[c|]| |]; try done; [by eapply step_cases|..]; intros Hq; (eapply step_cases; [exact H|by apply Hf]).
Qed.

Lemma consistent_clean a settings now s : consistent a -> CleanExpiredEvent env settings now (ar_alarms a) = Ret (tt, s) -> consistent (mkArchive s (ar_goroutines a)).
Proof using Type.
  intros [Hs Hl [Hnd Hlt] Hf] H.
  assert (at_cases (as_tables s) = at_cases (as_tables (ar_alarms a)) /\ as_next_event s = as_next_event (ar_alarms a) /\
    (exists q, at_events (as_tables s) = List.filter q (at_events (as_tables (ar_alarms a))))) as (Hc & Hn & q & Hq).
  { unfold CleanExpiredEvent in H. apply mthen_inv in H as ([days limit] & s1 & [_ ->]%lift_inv & H). unfold DeleteEventOlder in H.
    apply mthen_inv in H as (n & s2 & [= <- <-] & H). apply mthen_inv in H as (b & s2 & H%exec_inv & [= ->]).
    destruct H as [[-> _]|(s3 & H & ->)].
    - split; [done|]. split; [done|]. exists (fun _ => true). by rewrite List.filter_true.
    - destruct (limit <? 0)%Z; [done|]. injection H as <-. split; [done|]. split; [done|]. by eexists. }
  split; cbn; rewrite ?Hc, ?Hn, ?Hq; [done|..|done].
  - intros r [Hr _]%list_elem_of_In%filter_In. apply Hl. by apply list_elem_of_In.
  - split.
    + eapply sublist_NoDup; [exact Hnd|]. clear. induction (at_events _) as [|r l IH]; [done|]. cbn. destruct (q r); [by apply sublist_skip|by apply sublist_cons].
    + apply Forall_forall. intros r [Hr _]%list_elem_of_In%filter_In. rewrite Forall_forall in Hlt. apply Hlt. by apply list_elem_of_In.
Qed.

Lemma runs_consistent a : rtc (archive_step env) (mkArchive no_alarms []) a -> consistent a.
Proof using Type.
  apply rtc_ind_r; [apply start_consistent|]. intros a1 a2 _ Hstep IH.
  destruct Hstep as [a1 a2 Hmove|]; [destruct Hmove|by eapply consistent_clean]; [by apply consistent_comes|by eapply consistent_statement].
Qed.

(** * Every event is listed *)

Definition is_done (g : filing) : bool := match fl_stage g with Done => true | _ => false end.
Definition without_id (r : EventRow) : EventRow := mkEventRow 0 (er_EventCaseId r) (er_Step r) (er_Cond r) (er_Status r) (er_Timestamp r).
(** The row an event is listed as. *)
Definition listing (e : Event) : option EventRow := match cond_of e with Ret cond => Some (row_of e cond 0) | Panic _ => None end.
Definition listed_once (a : Archive) : Prop :=
  Permutation (map (fun r => Some (without_id r)) (at_events (as_tables (ar_alarms a))))
    (map (fun g => listing (fl_event g)) (List.filter is_done (ar_goroutines a))).

Lemma filter_update (q : filing -> bool) (l : list filing) (i : nat) g g' : l !! i = Some g -> q g = false ->
  Permutation (List.filter q (<[i := g']> l)) (List.filter q l ++ (if q g' then [g'] else [])).
Proof using Type.
  intros Hi Hq. revert i Hi. induction l as [|x l IH]; intros [|i] Hi; [done|done|..]; cbn in *.
  - injection Hi as ->. rewrite Hq. destruct (q g'); [by rewrite Permutation_app_comm|by rewrite app_nil_r].
  - destruct (q x); cbn; by rewrite (IH i Hi).
Qed.

Lemma listed_step a a' : (forall n, ae_sql env n = None) -> consistent a -> filing_move env a a' -> listed_once a -> listed_once a'.
Proof using Type.
  intros Hq Hc Hm Hl. unfold listed_once in *. destruct Hm as [a e|a i g g' s Hi H]; cbn.
  - rewrite List.filter_app. cbn. by rewrite app_nil_r.
  - pose proof (step_event _ _ _ _ H) as He. assert (g ∈ ar_goroutines a) as Hin by by eapply list_elem_of_lookup_2.
    pose proof (cn_found a Hc g Hin) as Hf. destruct (is_done g) eqn:Ed.
    + unfold is_done in Ed. unfold filing_step in H. destruct (fl_stage g); try done. injection H as <- <-. by rewrite list_insert_id.
    + rewrite (filter_update _ _ _ g) by done. rewrite map_app, <- Hl. clear Hl.
      destruct (decide (fl_stage g = Lists)) as [Es|Hne].
      * unfold filing_step in H. rewrite Es in *. apply mthen_inv in H as ([] & s1 & H & [= <- <-]).
        destruct (Hf Hq) as [c Hk]. cbn [fl_event] in *. apply insertEvent_inv in H as (_ & _ & cond & Hcond & [(_ & _ & Hn)|(_ & -> & _)]); [by rewrite Hn in Hk|].
        rewrite map_app. cbn. unfold listing. by rewrite Hcond.
      * assert (is_done g' = false) as ->.
        { unfold filing_step in H. unfold is_done in *. destruct (fl_stage g); try done; apply mthen_inv in H as (x & s1 & _ & [= <- _]); done. }
        cbn. rewrite app_nil_r. destruct (step_listed _ _ _ _ H) as [[-> _]|(cond & Hs & _)]; [done|by destruct Hne].
Qed.
Lemma runs_listed a : (forall n, ae_sql env n = None) -> rtc (filing_move env) (mkArchive no_alarms []) a -> consistent a /\ listed_once a.
Proof using Type.
  intros Hq. apply (rtc_ind_r (fun a => consistent a /\ listed_once a)); [split; [apply start_consistent|apply Permutation_refl]|]. intros a1 a2 _ Hstep [Hc Hl].
  split; [|by eapply listed_step]. destruct Hstep; [by apply consistent_comes|by eapply consistent_statement].
Qed.
End archive.

(** C22: Whatever the order in which the goroutines of the events, and the cleaner,
    reach the server, and whichever statements it refuses: a case has the fields
    of one event of its id as a whole, the listed events have ids of their own,
    are events that came, and refer to a case. *)
Theorem archive_consistent (env : AlarmEnv) (a : Archive) :
  rtc (archive_step env) (mkArchive no_alarms []) a ->
  (forall k c, at_cases (as_tables (ar_alarms a)) !! k = Some c -> case_key env (ec_Id c) = k /\
     exists g, g ∈ ar_goroutines a /\ case_key env (ev_Id (fl_event g)) = k /\ fields_of (fl_event g) = Ret (ec_fields c)) /\
  NoDup (map er_Id (at_events (as_tables (ar_alarms a)))) /\
  (forall r, r ∈ at_events (as_tables (ar_alarms a)) -> is_Some (at_cases (as_tables (ar_alarms a)) !! case_key env (er_EventCaseId r)) /\
     exists g cond, g ∈ ar_goroutines a /\ cond_of (fl_event g) = Ret cond /\ r = row_of (fl_event g) cond (er_Id r)).
Proof. intros [Hs Hl [Hi _] _]%runs_consistent. by split_and!. Qed.

(** C23: While no statement is refused, every event that came has its case, and once
    all goroutines are done each event is listed once, whatever the order of
    their statements, also when events of one id race to make its case. *)
Theorem every_event_listed (env : AlarmEnv) (a : Archive) :
  (forall n, ae_sql env n = None) -> rtc (filing_move env) (mkArchive no_alarms []) a -> Forall (fun g => fl_stage g = Done) (ar_goroutines a) ->
  Permutation (map (fun r => Some (without_id r)) (at_events (as_tables (ar_alarms a)))) (map (fun g => listing (fl_event g)) (ar_goroutines a)) /\
  forall g, g ∈ ar_goroutines a -> is_Some (at_cases (as_tables (ar_alarms a)) !! case_key env (ev_Id (fl_event g))).
Proof.
  intros Hq [Hc Hl]%runs_listed Hd; [|done]. rewrite Forall_forall in Hd. split.
  - unfold listed_once in Hl. rewrite (filter_ext_in is_done (fun _ => true)), List.filter_true in Hl; [done|].
    intros g Hg%list_elem_of_In%Hd. unfold is_done. by rewrite Hg.
  - intros g Hg. pose proof (cn_found env a Hc g Hg) as Hf. rewrite (Hd g Hg) in Hf. by apply Hf.
Qed.

(** * Runs, step by step *)

(** A run that is told what to do: an event comes, or the goroutine of a number goes on. *)
Fixpoint follow (env : AlarmEnv) (l : list (Event + nat)) (a : Archive) : option Archive :=
  match l with
  | [] => Some a
  | inl e :: l => follow env l (mkArchive (ar_alarms a) (ar_goroutines a ++ [mkFiling e Asks])%list)
  | inr i :: l =>
      match ar_goroutines a !! i with
      | None => None
      | Some g => match filing_step env g (ar_alarms a) with
                  | Ret (g', s) => follow env l (mkArchive s (<[i := g']> (ar_goroutines a)))
                  | Panic _ => None
                  end
      end
  end.
Lemma follow_runs env l a a' : follow env l a = Some a' -> rtc (filing_move env) a a'.
Proof.
  revert a. induction l as [|[e|i] l IH]; intros a H; cbn in H; [injection H as <-; apply rtc_refl|..].
  - eapply rtc_l; [apply event_comes|by apply IH].
  - destruct (ar_goroutines a !! i) as [g|] eqn:Eg; [|done]. destruct (filing_step env g (ar_alarms a)) as [[g' s]|] eqn:Es; [|done].
    eapply rtc_l; [by eapply statement|by apply IH].
Qed.

Definition demo_archive_env : AlarmEnv :=
  mkAlarmEnv (fun _ => None) (fun n => Z.of_nat n) (fun s => s) (fun _ l => l) (fun _ _ => []) (fun _ _ => []) (fun _ _ => []).
Definition demo_rule : Strategy :=
  mkStrategy 7 "cpu.idle" ∅ "all(#3)" "<" (f64_of_Z 10) 3 0 "low" (Some (mkTemplate 1 "base" 0 1 "alice")) 0.
Definition demo_event_at (step time : Z) (status : string) : Event :=
  mkEvent "s_7_abc" (Some demo_rule) None status "w1" (f64_dec 52 1) step time ∅ [].
(** Two events of one id, whose goroutines both look before either has made the case. *)
Definition demo_race : list (Event + nat) :=
  [inl (demo_event_at 1 100 "PROBLEM"); inl (demo_event_at 2 200 "PROBLEM"); inr 0; inr 1; inr 1; inr 0; inr 0; inr 1]%nat.
Lemma archive_consistent_witness : exists a, follow demo_archive_env demo_race (mkArchive no_alarms []) = Some a /\
  (forall r, r ∈ at_events (as_tables (ar_alarms a)) -> is_Some (at_cases (as_tables (ar_alarms a)) !! er_EventCaseId r)).
Proof.
  destruct (follow demo_archive_env demo_race (mkArchive no_alarms [])) as [a|] eqn:E; [|vm_compute in E; discriminate E].
  exists a. split; [done|]. intros r Hr. refine (proj1 (proj2 (proj2 (archive_consistent demo_archive_env a _)) r Hr)).
  eapply rtc_subrel; [|by eapply follow_runs]. intros x y. apply filing_goes.
Defined.
Lemma every_event_listed_witness : exists a, follow demo_archive_env demo_race (mkArchive no_alarms []) = Some a /\
  Permutation (map (fun r => Some (without_id r)) (at_events (as_tables (ar_alarms a)))) (map (fun g => listing (fl_event g)) (ar_goroutines a)).
Proof.
  destruct (follow demo_archive_env demo_race (mkArchive no_alarms [])) as [a|] eqn:E; [|vm_compute in E; discriminate E].
  exists a. split; [done|]. refine (proj1 (every_event_listed demo_archive_env a (fun _ => eq_refl) _ _)); [by eapply follow_runs|].
  vm_compute in E. injection E as <-. by repeat constructor.
Defined.

(** * A note, and the next event *)

Section notes.
Context (env : AlarmEnv) (sql_ok : forall n, ae_sql env n = None).

Lemma reached_runs s : reached env s = Ret (None, tick s).
Proof using sql_ok. unfold reached. by rewrite sql_ok. Qed.

(** What an answer of 200 to a note means for the tables. *)
Lemma note_transaction_run users uid i s s' b : note_transaction env users uid i s = Ret (AAnswer 200 b, s') ->
  exists c t, at_cases (as_tables s) !! case_key env (an_EventId i) = Some c /\ (exists u, u ∈ users /\ us_ID u = uid) /\
    at_notes (as_tables s') = (at_notes (as_tables s) ++ [mkNote (as_next_note s) (an_EventId i) (an_Note i) (an_CaseId i) (an_Status i) t uid])%list /\
    at_events (as_tables s') = at_events (as_tables s) /\
    at_cases (as_tables s') = if String.eqb (an_Status i) "comment" then at_cases (as_tables s)
                              else <[case_key env (an_EventId i) := process (ae_now env (2 + as_tick s)) (as_next_note s) (an_Status i) c]> (at_cases (as_tables s)).
Proof using sql_ok.
  unfold note_transaction, mthen. rewrite reached_runs. unfold gets. rewrite reached_runs. unfold modify, add_note.
  cbn [as_tables tick set_next_note en_EventCaseId en_UserId as_tick].
  case_bool_decide as Hc; [|done]. cbn [andb]. destruct Hc as [c Hc]. destruct (existsb _ users) eqn:Eu; [|done].
  apply existsb_exists in Eu as (u & Hu%list_elem_of_In & Huid). zbool. intros H. exists c. eexists. split; [done|]. split; [by exists u|].
  destruct (String.eqb (an_Status i) "comment").
  - unfold commit, mthen in H. rewrite reached_runs in H. injection H as _ <-. by split_and!.
  - rewrite reached_runs in H. unfold commit, mthen in H. rewrite reached_runs in H. injection H as _ <-. split; [done|]. split; [done|]. cbn.
    by apply alter_alt_Some.
Qed.

(** A case somebody has resolved or ignored. *)
Definition is_closed (c : EventCase) : bool := String.eqb (ec_ProcessStatus c) "resolved" || String.eqb (ec_ProcessStatus c) "ignored".
Lemma fields_cond e f : fields_of e = Ret f -> exists cond, cond_of e = Ret cond.
Proof using Type. unfold fields_of. intros H. destruct (Event_Func e); [|done]. cbn in H. destruct (cond_of e); [by eexists|done]. Qed.
(** The next event of a case that is there. *)
Lemma insert_renews e f c s : at_cases (as_tables s) !! case_key env (ev_Id e) = Some c -> fields_of e = Ret f ->
  exists s', InsertEvent env e s = Ret (tt, s') /\
    at_cases (as_tables s') = <[case_key env (ev_Id e) := renewed (ae_now env (1 + as_tick s)) e f (is_closed c) c]> (at_cases (as_tables s)).
Proof using sql_ok.
  intros Hc Hf. destruct (fields_cond e f Hf) as [cond Hcond].
  unfold InsertEvent, find_case, mthen. rewrite reached_runs. unfold gets. cbn [as_tables tick]. rewrite Hc. cbn [file_case].
  unfold renew_case, lift, mthen. rewrite Hf. unfold exec at 1. rewrite sql_ok. unfold skip, ret. cbv beta iota.
  unfold insertEvent, mthen, lift. rewrite Hcond. unfold exec. rewrite sql_ok. cbn -[renewed alter].
  rewrite (alter_alt_Some _ _ _ _ Hc), lookup_insert_eq. eexists. split; [done|]. done.
Qed.
Lemma renewed_spec now e f b c : let c' := renewed now e f b c in
  ec_Endpoint c' = ec_Endpoint c /\ ec_Metric c' = ec_Metric c /\ ec_UpdateAt c' = ev_EventTime e /\
  ec_ProcessStatus c' = (if b then "unresolved" else ec_ProcessStatus c) /\ ec_ProcessNote c' = (if b then Some 0%Z else ec_ProcessNote c) /\
  (ev_CurrentStep e = 1%Z -> ec_Timestamp c' = ev_EventTime e) /\ (ev_CurrentStep e <> 1%Z -> f <> ec_fields c -> ec_Timestamp c' = now).
Proof using Type.
  cbv zeta. unfold renewed. destruct (Z.eqb_spec (ev_CurrentStep e) 1) as [E|E]; [by split_and!|]. unfold touch.
  destruct (decide _) as [Heq|Hne]; [|by split_and!].
  pose proof (f_equal ec_UpdateAt Heq). pose proof (f_equal ec_ProcessStatus Heq). pose proof (f_equal ec_ProcessNote Heq). pose proof (f_equal ec_fields Heq).
  split_and!; done.
Qed.
End notes.

Lemma on_api_inv {X} (m : Ap X) w x w' : on_api m w = Ret (x, w') -> exists a, m (wb_api w) = Ret (x, a) /\ w' = mkWeb (wb_alarms w) a (wb_links w).
Proof. unfold on_api. destruct (m (wb_api w)) as [[y a]|]; [|done]. intros [= <- <-]. by exists a. Qed.
Lemma on_alarms_inv {X} (m : Am X) w x w' : on_alarms m w = Ret (x, w') -> exists a, m (wb_alarms w) = Ret (x, a) /\ w' = mkWeb a (wb_api w) (wb_links w).
Proof. unfold on_alarms. destruct (m (wb_alarms w)) as [[y a]|]; [|done]. intros [= <- <-]. by exists a. Qed.

Lemma bound_some {X} (x : option X) fields y : bound x fields = Some y -> x = Some y.
Proof. unfold bound. destruct x as [x|]; [|done]. cbn. destruct (required (fields x)); congruence. Qed.

(** The transaction behind an answer. *)
Lemma serve_note env api tok i w w' b : (forall n R l, Permutation (e_order api n R l) l) ->
  alarm_serve env api tok (RAddNotesToAlarm (Some i)) w = Ret (AAnswer 200 b, w') ->
  exists uid, note_transaction env (api_db (wb_api w) TUser) uid i (wb_alarms w) = Ret (AAnswer 200 b, wb_alarms w').
Proof.
  intros Ho H. unfold alarm_serve in H. apply mthen_inv in H as (refused & w1 & (a1 & E1 & ->)%on_api_inv & H).
  assert (refused = None) as ->.
  { destruct refused as [r|]; [|done]. unfold AuthSessionMidd in E1. apply mthen_inv in E1 as (err & a2 & _ & [= E1 _]).
    destruct (e_skip_auth api); [done|]. destruct err; [|done]. by injection E1 as <-. }
  pose proof (session_same api tok _ _ _ E1) as [D1 _]. unfold AddNotesToAlarm in H. destruct (bound _ _) as [i'|] eqn:Eb; [|done].
  assert (i' = i) as -> by (by apply bound_some in Eb as [= ->]).
  destruct (CheckingFormating i); [done|]. apply mthen_inv in H as (r & w2 & (a2 & E2 & ->)%on_api_inv & H).
  apply (GetUser_acts api Ho) in E2 as [[D2 _] _]. apply mthen_inv in H as (us & w3 & (a3 & [= <- <-] & ->)%on_api_inv & H).
  apply on_alarms_inv in H as (a4 & E4 & ->). cbn in *. rewrite D2, D1 in E4. by eexists.
Qed.

(** A note that is answered with 200 is one of a user, on a case that exists; it
    is kept, and unless it is a comment it gives the case its status, and leaves
    everything else.  The next event of the case brings its fields, and opens the
    case again when it was resolved or ignored; at a first step it sets the start
    of the case, at another one the server sets it to its own time. *)
Theorem note_then_event (env : AlarmEnv) (api : ApiEnv) (tok : token) (i : APIAddNotesToAlarmInputs) (w w' : Web) (b : alarm_body) :
  (forall n, ae_sql env n = None) -> (forall n R l, Permutation (e_order api n R l) l) ->
  alarm_serve env api tok (RAddNotesToAlarm (Some i)) w = Ret (AAnswer 200 b, w') -> exists c c1 u t,
  let k := case_key env (an_EventId i) in
  at_cases (as_tables (wb_alarms w)) !! k = Some c /\ u ∈ api_db (wb_api w) TUser /\
  at_notes (as_tables (wb_alarms w')) =
    (at_notes (as_tables (wb_alarms w)) ++ [mkNote (as_next_note (wb_alarms w)) (an_EventId i) (an_Note i) (an_CaseId i) (an_Status i) t (us_ID u)])%list /\
  at_cases (as_tables (wb_alarms w')) = <[k := c1]> (at_cases (as_tables (wb_alarms w))) /\
  ec_fields c1 = ec_fields c /\ ec_ProcessStatus c1 = (if String.eqb (an_Status i) "comment" then ec_ProcessStatus c else an_Status i) /\
  forall e f, case_key env (ev_Id e) = k -> fields_of e = Ret f -> exists s c2,
    InsertEvent env e (wb_alarms w') = Ret (tt, s) /\ at_cases (as_tables s) = <[k := c2]> (at_cases (as_tables (wb_alarms w))) /\ ec_fields c2 = f /\
    ec_ProcessStatus c2 = (if is_closed c1 then "unresolved" else ec_ProcessStatus c1) /\
    (ev_CurrentStep e = 1%Z -> ec_Timestamp c2 = ev_EventTime e) /\
    (ev_CurrentStep e <> 1%Z -> f <> ec_fields c -> exists n, ec_Timestamp c2 = ae_now env n).
Proof.
  intros Hq Ho (uid & H)%serve_note; [|done]. apply (note_transaction_run env Hq) in H as (c & t & Hc & (u & Hu & <-) & Hn & _ & Hcs).
  set (k := case_key env (an_EventId i)) in *.
  assert (exists c1, at_cases (as_tables (wb_alarms w')) = <[k := c1]> (at_cases (as_tables (wb_alarms w))) /\ ec_fields c1 = ec_fields c /\
    ec_ProcessStatus c1 = (if String.eqb (an_Status i) "comment" then ec_ProcessStatus c else an_Status i)) as (c1 & Hc1 & Hf1 & Hs1).
  { destruct (String.eqb (an_Status i) "comment"); [exists c; by rewrite insert_id|]. eexists. split; [exact Hcs|]. unfold process, touch.
    destruct (decide _) as [Heq|_]; [|done]. split; [done|]. by apply (f_equal ec_ProcessStatus) in Heq. }
  exists c, c1, u, t. split_and!; try done. intros e f Hk Hf.
  assert (at_cases (as_tables (wb_alarms w')) !! case_key env (ev_Id e) = Some c1) as Hl by (by rewrite Hk, Hc1, lookup_insert_eq).
  destruct (insert_renews env Hq e f c1 _ Hl Hf) as (s & Hs & Hcs2). eexists s, _. split; [exact Hs|].
  rewrite Hk, Hc1, insert_insert_eq in Hcs2. split; [exact Hcs2|]. split; [apply renewed_keeps|].
  destruct (renewed_spec (ae_now env (1 + as_tick (wb_alarms w'))) e f (is_closed c1) c1) as (_ & _ & _ & -> & _ & H1 & H2).
  split; [done|]. split; [exact H1|]. intros Hne Hff. eexists. apply H2; [done|by rewrite Hf1].
Qed.
(** A case that alice resolves, and that is opened again. *)
Definition demo_web : Web :=
  mkWeb (match InsertEvent demo_archive_env (demo_event_at 1 100 "PROBLEM") no_alarms with Ret (_, s) => s | Panic _ => no_alarms end) demo_api [].
Definition demo_note : APIAddNotesToAlarmInputs := mkAddNotes "s_7_abc" "restarted" "resolved" "".
Definition answer_code (r : res (alarm_answer * Web)) : option Z := match r with Ret (AAnswer code _, _) => Some code | _ => None end.
Lemma note_then_event_witness : exists b w' s c2, alarm_serve demo_archive_env demo_env alice (RAddNotesToAlarm (Some demo_note)) demo_web = Ret (AAnswer 200 b, w') /\
  InsertEvent demo_archive_env (demo_event_at 2 300 "PROBLEM") (wb_alarms w') = Ret (tt, s) /\
  at_cases (as_tables s) !! "s_7_abc" = Some c2 /\ ec_ProcessStatus c2 = "unresolved" /\ exists n, ec_Timestamp c2 = Z.of_nat n.
Proof.
  assert (answer_code (alarm_serve demo_archive_env demo_env alice (RAddNotesToAlarm (Some demo_note)) demo_web) = Some 200%Z) as A by by vm_compute.
  destruct (alarm_serve demo_archive_env demo_env alice (RAddNotesToAlarm (Some demo_note)) demo_web) as [[[code b|] w']|] eqn:E; [|discriminate A|discriminate A].
  injection A as ->. destruct (note_then_event demo_archive_env demo_env alice demo_note demo_web w' b (fun _ => eq_refl) demo_permutes E)
    as (c & c1 & u & t & Hc & _ & _ & _ & Hf & Hs & H).
  destruct (fields_of (demo_event_at 2 300 "PROBLEM")) as [f|] eqn:Ef; [|vm_compute in Ef; discriminate Ef].
  destruct (H (demo_event_at 2 300 "PROBLEM") f eq_refl Ef) as (s & c2 & Hi & Hcs & _ & Hps & _ & Ht).
  exists b, w', s, c2. split; [reflexivity|]. split; [exact Hi|]. split; [rewrite Hcs; exact (lookup_insert_eq _ "s_7_abc" c2)|].
  unfold is_closed in Hps. rewrite Hs in Hps. split; [exact Hps|]. apply Ht; [discriminate|].
  vm_compute in Hc. injection Hc as <-. vm_compute in Ef. injection Ef as <-. discriminate.
Defined.

(** * The order in which events are read *)

Section order.
Context {R : Type -> Type} `{RedisListLaws R}.

(** Redis answers, and no queue holds an empty text. *)
Definition readable (r : queues_of (R := R)) : Prop := forall q, alive (r q) /\ Text "" ∉ view (r q).

Lemma set_queue_same q (l : R Event) r : set_queue q l r q = l.
Proof using Type. unfold set_queue. by rewrite String.eqb_refl. Qed.
Lemma set_queue_other q q' (l : R Event) r : q' <> q -> set_queue q l r q' = r q'.
Proof using Type. intros Hq. unfold set_queue. by destruct (String.eqb_spec q' q). Qed.

(** A look at the queues: nothing when they are all empty, and else the oldest entry of the first one that is not. *)
Lemma poll_spec queues r : readable r ->
  match poll queues r with
  | (None, r') => readable r' /\ (forall q, view (r' q) = view (r q)) /\ forall q, q ∈ queues -> view (r q) = []
  | (Some m, r') => exists before q after, queues = (before ++ q :: after)%list /\ (forall q', q' ∈ before -> view (r q') = []) /\
      view (r q) = (view (r' q) ++ [m])%list /\ readable r' /\ forall q', q' <> q -> view (r' q') = view (r q')
  end.
Proof using All.
  revert r. induction queues as [|q queues IH]; intros r Hr; cbn; [by split_and!; [done..|by intros q ?%elem_of_nil]|].
  destruct (RPOP (r q)) as [m l] eqn:E. destruct (Hr q) as [Ha Ht]. destruct (RPOP_alive _ (r q) Ha) as [Ha' Hn]. rewrite E in Ha', Hn. cbn in Ha', Hn.
  assert (forall m', m = Some m' -> m' <> Text "" /\ view (r q) = (view l ++ [m'])%list) as Hm.
  { intros m' ->. pose proof (RPOP_some _ _ _ _ E) as Hv. split; [|done]. intros ->. apply Ht. rewrite Hv. apply elem_of_app. right. by left. }
  assert (view l = view (r q) \/ exists m', m = Some m') as Hl by (destruct m; [right; by eexists|left; by eapply RPOP_none]).
  assert (readable (set_queue q l r)) as Hr'.
  { intros q'. destruct (decide (q' = q)) as [->|Hq]; [rewrite set_queue_same|by rewrite set_queue_other]. split; [done|]. intros Hin. apply Ht.
    destruct Hl as [<-|[m' ->]]; [done|]. destruct (Hm m' eq_refl) as [_ ->]. apply elem_of_app. by left. }
  destruct m as [m|].
  - destruct (Hm m eq_refl) as [Hne Hv].
    assert (exists before q0 after, (q :: queues)%list = (before ++ q0 :: after)%list /\ (forall q', q' ∈ before -> view (r q') = []) /\
      view (r q0) = (view (set_queue q l r q0) ++ [m])%list /\ readable (set_queue q l r) /\ forall q', q' <> q0 -> view (set_queue q l r q') = view (r q')) as Hnow.
    { exists [], q, queues. rewrite set_queue_same. split_and!; [done|by intros q' ?%elem_of_nil|done|done|]. intros q' Hq. by rewrite set_queue_other. }
    destruct m as [e|[|x t]]; [exact Hnow|by destruct Hne|exact Hnow].
  - assert (view l = view (r q)) as Hvl by by eapply RPOP_none. specialize (Hn eq_refl).
    assert (forall q', view (set_queue q l r q') = view (r q')) as Hsame.
    { intros q'. destruct (decide (q' = q)) as [->|Hq]; [by rewrite set_queue_same|by rewrite set_queue_other]. }
    specialize (IH _ Hr'). destruct (poll queues (set_queue q l r)) as [[m|] r'].
    + destruct IH as (before & q0 & after & -> & Hb & Hv & Hrd & Ho). exists (q :: before), q0, after. split; [done|]. split_and!.
      * intros q' [->|Hq']%elem_of_cons; [done|]. rewrite <- Hsame. by apply Hb.
      * by rewrite <- Hsame.
      * done.
      * intros q' Hq'. by rewrite Ho, Hsame.
    + destruct IH as (Hrd & Hv & He). split; [done|]. split; [intros q'; by rewrite Hv, Hsame|].
      intros q' [->|Hq']%elem_of_cons; [done|]. rewrite <- Hsame. by apply He.
Qed.

(** What waits in the queues, in the order it is to be read: queue after queue, the oldest first. *)
Definition pending (queues : list string) (r : queues_of (R := R)) : list (reply Event) := concat (map (fun q => rev (view (r q))) queues).
(** What a reader starts for an entry: a text that is no event is lost. *)
Definition started (isHigh : bool) (m : reply Event) : list task := match m with Obj e => [Inserts e; Consumes e isHigh] | Text _ => [] end.

Lemma pending_same queues r r' : (forall q, q ∈ queues -> view (r' q) = view (r q)) -> pending queues r' = pending queues r.
Proof using Type. intros Hq. unfold pending. f_equal. apply map_ext_in. intros q Hin%list_elem_of_In. by rewrite Hq. Qed.
Lemma pending_empty queues r : (forall q, q ∈ queues -> view (r q) = []) -> pending queues r = [].
Proof using Type.
  intros Hq. induction queues as [|q queues IH]; [done|]. unfold pending in *. cbn. rewrite Hq by by left. rewrite IH; [done|]. intros q' Hq'. apply Hq. by right.
Qed.
Lemma waiting_app q1 q2 r : pending (q1 ++ q2) r = (pending q1 r ++ pending q2 r)%list.
Proof using Type. unfold pending. by rewrite map_app, concat_app. Qed.

(** A round of a reader takes what is first. *)
Lemma round_takes isHigh queues r m rest : NoDup queues -> readable r -> pending queues r = m :: rest ->
  exists r', read_round isHigh queues [] r = (started isHigh m, r') /\ readable r' /\ pending queues r' = rest.
Proof using All.
  intros Hnd Hr Hp. pose proof (poll_spec queues r Hr) as Hs. unfold read_round, popEvent. cbn. destruct (poll queues r) as [[m'|] r'].
  - destruct Hs as (before & q & after & -> & Hb & Hv & Hr' & Ho). apply NoDup_app in Hnd as (_ & Hdis & [Hna _]%NoDup_cons).
    assert (q ∉ before) as Hnb by (intros Hin; apply (Hdis q Hin); by left).
    change (q :: after)%list with ([q] ++ after)%list in *. rewrite !waiting_app in *. rewrite (pending_empty before r) in Hp by done.
    assert (pending [q] r = m' :: pending [q] r') as Hq. { unfold pending. cbn. rewrite Hv, rev_app_distr. by rewrite !app_nil_r. }
    rewrite Hq in Hp. injection Hp as -> <-.
    assert (pending (before ++ [q] ++ after) r' = (pending [q] r' ++ pending after r)%list) as Hall.
    { rewrite !waiting_app, (pending_empty before r'), (pending_same after r r'); [done|..]; intros q' Hq'; (rewrite Ho; [by auto|by intros ->]). }
    destruct m; exists r'; by rewrite Hall.
  - destruct Hs as (_ & _ & He). by rewrite (pending_empty queues r He) in Hp.
Qed.

Lemma rounds_take isHigh queues : NoDup queues -> forall r ts, readable r ->
  exists r', fold_left (fun '(ts, r) others => let '(t, r) := read_round isHigh queues others r in ((ts ++ t)%list, r)) (repeat [] (length (pending queues r))) (ts, r) =
    ((ts ++ concat (map (started isHigh) (pending queues r)))%list, r') /\ pending queues r' = [].
Proof using All.
  intros Hnd r. remember (pending queues r) as l eqn:El. revert r El. induction l as [|m rest IH]; intros r El ts Hr; cbn.
  - exists r. by rewrite app_nil_r.
  - destruct (round_takes isHigh queues r m rest Hnd Hr (eq_sym El)) as (r1 & E1 & Hr1 & Hp1). rewrite E1.
    destruct (IH r1 (eq_sym Hp1) (ts ++ started isHigh m)%list Hr1) as (r' & -> & H'). exists r'. by rewrite <- app_assoc.
Qed.
End order.

(** A reader that goes on as long as there are events takes all of them: those
    of a queue that stands before another one first, and the oldest of a queue
    first; for each it starts the goroutine that files it and the one that sends
    its messages, and the queues are empty then. *)
Theorem queues_read_in_order {R : Type -> Type} `{RedisListLaws R} (queues : list string) (r : queues_of (R := R)) :
  NoDup queues -> readable r ->
  let rounds := repeat [] (length (pending queues r)) in
  (exists r', ReadHighEvent queues rounds r = (concat (map (started true) (pending queues r)), r') /\ pending queues r' = []) /\
  (exists r', ReadLowEvent queues rounds r = (concat (map (started false) (pending queues r)), r') /\ pending queues r' = []).
Proof.
  intros Hnd Hr. cbv zeta. destruct queues as [|q queues]; [split; by exists r|].
  split; [destruct (rounds_take true (q :: queues) Hnd r [] Hr) as (r' & E & Hp)|destruct (rounds_take false (q :: queues) Hnd r [] Hr) as (r' & E & Hp)];
    exists r'; by unfold ReadHighEvent, ReadLowEvent.
Qed.
Definition demo_queues : queues_of (R := mem) := fun q =>
  if String.eqb q "event:p0" then Mem [Obj (demo_event_at 2 200 "PROBLEM"); Obj (demo_event_at 1 100 "PROBLEM")]
  else if String.eqb q "event:p1" then Mem [Text "no event"; Obj (demo_event_at 1 50 "OK")] else Mem [].
Lemma queues_read_in_order_witness : exists r', ReadHighEvent ["event:p0"; "event:p1"] (repeat [] 4) demo_queues =
  (concat (map (started true) [Obj (demo_event_at 1 100 "PROBLEM"); Obj (demo_event_at 2 200 "PROBLEM"); Obj (demo_event_at 1 50 "OK"); Text "no event"]), r').
Proof.
  assert (readable demo_queues) as Hr.
  { intros q. split; [done|]. unfold demo_queues. destruct (String.eqb q "event:p0"); [|destruct (String.eqb q "event:p1")]; cbn; intros Hin%list_elem_of_In; cbn in Hin; naive_solver. }
  destruct (proj1 (queues_read_in_order ["event:p0"; "event:p1"] demo_queues ltac:(repeat constructor; set_solver) Hr)) as (r' & E & _). by exists r'.
Defined.
